(* ===== verification/_CoqProject ===== *)
-Q . S2P
Prelude.v
LwipBase.v
Checksum.v
BlockDev.v
Hw.v
SdSpi.v
Sd.v
SdCard.v
SdCapacity.v
Memory.v
MemoryRing.v
MemoryRecovery.v
Time.v
Write.v
Base64.v
HttpTx.v
HttpRx.v
ServerTcp.v
ServerStream.v
ServerClaims.v
IpAddr.v
InetChksum.v
Heap.v
HeapInv.v
HeapFree.v
HeapTrim.v
HeapClaims.v
Memp.v
Pbuf.v
PbufChain.v
PbufLinks.v
PbufData.v
PbufMake.v
PbufAlloc.v
PbufClaims.v
PbufRefs.v
PbufChksum.v
Netif.v
EthArp.v
EthArpTable.v
EthArpSend.v
EthArpOps.v
EthArpQuery.v
EthArpInput.v
EthArpClaims.v
LwipStack.v
Ip.v
Icmp.v
Udp.v
IpInput.v
StackRuns.v
IpOutput.v
IpReceive.v
IcmpRuns.v
UdpPorts.v
UdpRuns.v
UdpSend.v
StackClaims.v
Emac.v
EmacSend.v
EmacReceive.v
EmacClaims.v
I2c.v
I2cBus.v
Phy.v
PhyRuns.v
PhyInit.v
PhyClaims.v
Upload.v
RadioIf.v
RadioOps.v
RadioChip.v
RadioFrame.v
RadioRing.v
Rf212.v
FrameProcessor.v
Timers.v
Sntp.v
SdTest.v
System.v
