(* ===== verification/Prelude.v ===== *)
(** * Verification of the VLF gateway firmware

    ** The program

    The gateway is an LPC1769 microcontroller between a radio network of VLF
    receivers and a CouchDB database.  Nodes send 24-octet records over an
    AT86RF212 radio; the gateway acknowledges them, keeps them in a ring of
    blocks on an SD card, and uploads them over TCP as JSON documents in HTTP
    requests.  It keeps the time with the help of an SNTP client and hands it
    to the nodes.  Everything runs in interrupts: the radio's interrupt
    ([src/radio/radio_irq.c]) and a periodic one ([src/main.c]).

    ** How the model is laid out

    Functions of the firmware are functions in a state and error monad, [M]
    (below): [Ok] with a result and a new state, [Spin] for a wait or halt
    that does not end, [Fault] for an access that C leaves undefined.  Integers
    are [Z] with the wrap-around of their C type written out ([u8], [u16],
    [u32], [u64]); octet arrays are [list Z].  [runs] is total correctness,
    so that theorems stated with it include that the code returns.  Hardware
    and library code that is not modelled is a type class whose operations
    the definitions call and whose documented behaviour is stated as its
    laws; each such class has an instance at the end of a file, on which the
    witnesses evaluate.

    - [Prelude]: integers, bits, octet arrays, little-endian words, the monad,
      loops, automation ([cint], [by_decision], [mstep]).
    - [Checksum]: [memory/checksum.c], the CRC-32 of a record.
    - [BlockDev]: the interface between the sample memory and the card.
    - [Hw]: memory-mapped registers ([Mmio]), SPI ports and slaves.
    - [SdSpi], [Sd], [SdCard], [SdCapacity]: [memory/sd_spi.c] and
      [memory/sd.c], from registers to blocks; [SdCard] discharges [BlockDev]
      for a card that follows the SD protocol.
    - [Memory], [MemoryRing], [MemoryRecovery]: [memory/memory.c], the ring of
      records as a bounded queue, and its recovery after a restart.
    - [Time], [Write]: [sntp/time.c] and [memory/write.c].
    - [Base64], [HttpTx], [HttpRx]: [base64.c], [http_tx.c], [http_rx.c].
    - [ServerTcp], [ServerStream], [ServerClaims]: [server_tcp.c], the upload
      state machine over a TCP interface.
    - [Upload]: [upload.c].
    - [IpAddr], [InetChksum]: [lwip/core/def.c], [lwip/core/ipv4/ip_addr.c] and
      [lwip/core/ipv4/inet_chksum.c]; [LwipBase]: assertions, alignment and
      statistics.
    - [Heap], [HeapInv], [HeapFree], [HeapTrim], [HeapClaims]: [lwip/core/mem.c],
      the heap as an array of octets with its block headers in it.  [Memp]:
      [lwip/core/memp.c], the pools.
    - [Pbuf]: [lwip/core/pbuf.c]; [PbufChain], [PbufLinks], [PbufData],
      [PbufMake], [PbufAlloc], [PbufClaims], [PbufRefs], [PbufChksum]: its
      theorems, about chains, contents, references and checksums of packets.
      The allocators are the class [BufAlloc], which heap and pools discharge.
    - [Netif], [EthArp]: [lwip/netif/etharp.c]; [EthArpTable], [EthArpSend],
      [EthArpOps], [EthArpQuery], [EthArpInput], [EthArpClaims]: its theorems,
      over a driver [LinkOutput].
    - [LwipStack]: the state that IP, ICMP and UDP share; [Ip], [IpInput]:
      [lwip/core/ipv4/ip.c]; [Icmp]: [lwip/core/ipv4/icmp.c]; [Udp]:
      [lwip/core/udp.c].  The layer below is the class [Lower] with the laws
      [LowerLaws], which address resolution discharges ([StackRuns]); TCP, raw
      connections, fragments and the receive functions are the class [Upper].
      [IpOutput], [IpReceive], [IcmpRuns], [UdpPorts], [UdpRuns], [UdpSend],
      [StackClaims]: the theorems.
    - [Emac]: [lwip/netif/lpc_emac.c] and the driver's part of [net_service];
      [EmacSend], [EmacReceive], [EmacClaims]: its theorems, over a controller
      [Emac] with the laws [EmacLaws] on its indexes and a stack with
      [InputLaw].
    - [I2c], [I2cBus]: [lwip/netif/mac_addr_i2c.c] and
      [lwip/netif/lpc_mac_addr.c], over a bus with the laws [I2cLaws].
    - [Phy]: [lwip/netif/lpc_phy_lan8720.c], the start of the interface, and the
      link functions of [lwip/core/netif.c]; [PhyRuns], [PhyInit], [PhyClaims]:
      the theorems, over a PHY with [PhyLaws] and the stack's [LinkEvents].
    - [RadioIf], [RadioOps]: [radio/ieee_frame.c], [radio/radio_functions.c],
      [radio/radio_irq.c] and [radio/radio.c]; [RadioChip], [RadioFrame],
      [RadioRing]: their theorems.
    - [Rf212]: [radio/rf212.c] and [radio/rf212_functions.c].
    - [FrameProcessor]: [frame_processor.c] and [radio_init_service.c].
    - [Timers]: [lwip/core/timers.c]; [Sntp]: [sntp/sntp.c].
    - [SdTest]: [memory/sd_test.c].
    - [System]: [main.c], [net_init_service.c], [clocking.c], [leds.h]: the
      components composed, with a run of the periodic interrupt.

    ** What the theorems show

    - Records.  [calculate_checksum] is CRC-32 and detects every change within
      32 bits ([Checksum]).  The memory refines a bounded queue of records
      ([ring_refines_queue]), what is stored is what is read
      ([get_sample_reads_pending], [write_sample_stores_record]), and a
      restart finds the saved indexes or reports their damage
      ([restart_recovers], [get_memory_indexes_iff_intact]).
    - The card.  A block written is the block read ([disk_write_then_read])
      over the commands and transfers of the driver; capacity decoding, bit
      fields, command termination and error paths ([SdCapacity]); the
      register-level exchange refines a transfer ([SPI_Write_refines_transfer]).
    - Uploads.  Whatever the network does, the octets sent are a prefix of one
      well-formed request ([upload_stream_is_request]); with a cooperative
      network all of it is sent ([upload_completes]); its length field is
      exact ([content_length_exact]), its elements have a fixed width, base64
      decodes to the credentials, an answer acknowledges the records it names,
      and uploads are scheduled one at a time ([upload_schedule]).
    - Radio.  Frames survive the air ([frame_round_trip]); short frames are
      shown to overrun the buffer ([frame_read_fits]); the receive and transmit
      rings are queues under every interleaving ([rx_end_refines_queue],
      [service_drains], [rx_fifo], [send_queues]); configuration functions
      leave the registers they promise, and reset ends.
    - Nodes.  Intact uploads are acknowledged and stored, others ignored
      ([block_uploaded_outcome]); requests for the time are answered
      ([timereq_replies]); the service takes pending frames to the memory in
      order ([radio_service_stores]).
    - Time.  The 64-bit time follows the 32-bit timer ([time_tracks_elapsed]);
      the timeout list is a schedule ([timeout_list_refines]); the SNTP client
      sets the clock from exactly the right answers ([sntp_recv_outcome]).
    - Memory.  Blocks of the heap do not overlap whatever is allocated, trimmed
      and freed ([heap_blocks_safe]), and its loops end ([heap_calls_return]);
      pools give out what is free ([memp_pools_safe]).
    - Packets.  The count of a buffer is the number of its holders, so that no
      buffer is freed early or lost ([references_exact]); checksums of packets
      in many buffers are those of their contents ([packet_checksums]), and all
      versions of the sum are that of RFC 1071.
    - Address resolution.  Two stations that ask learn each other's address
      ([stations_resolve]); packets go to the station, the gateway or the group
      they are for ([packets_routed]); frames that are not understood change
      nothing ([frames_accepted]); entries expire ([entries_expire]).
    - IP, ICMP and UDP.  Packets and datagrams that one station sends arrive at
      another as they were sent ([packets_arrive], [datagrams_arrive]); what
      does not check is freed and counted ([packets_judged],
      [datagrams_judged]); echo requests are answered ([pings_answered]), with
      one reply that does not check ([replies_check]); no port is given twice
      ([ports_exclusive]).
    - The Ethernet interface.  Its start reads the address from its memory
      ([address_read]; a missing memory goes unnoticed, [address_missing]) and
      leaves both rings in order ([interface_started]); from then on the main
      loop keeps them so and always returns ([link_serviced]).  What the
      controller is given to send are the octets of the packet ([frames_sent]),
      what it received is what the stack gets ([frames_received]).  The count
      of free descriptors is wrong on one side of the ring
      ([tx_ready_overcounts]).  The mode of the controller follows the PHY
      ([phy_tracked]).

    ** Fuel

    Loops with a bound in the source are structural.  Waits on hardware
    ([poll]) have fuel; the theorems that return assume that the device
    answers within it (a measure in the class: [ssp_busy], [chip_busy]).  The
    halving loop of [server_tcp_write] needs 17 rounds for 16 bits.
    [radif_service] needs more fuel than frames are pending and can arrive.
    Walks through the heap, the pools and chains of buffers have the fuel of
    their size ([heap_fuel], [pbuf_fuel], [alloc_fuel]), which
    is enough because no block is visited twice; the search for a port has one
    round for each of the 0x4000 ports.  Of eight descriptors at most seven are
    reclaimed and eight queued ([reclaim_loop], [requeue]: 9 rounds); the wait
    for free descriptors has fuel, and one round is enough where
    [frames_sent] says that they are there.  The waits for the PHY (250 and
    400 rounds) and for the two-wire bus ([I2CMAX_TIMEOUT]) are bounded in the
    source.

    ** What is not modelled

    Console and debug output (no effect on the state); the chip's start-up
    code; TCP, raw connections, fragments, DNS and DHCP, which are interfaces;
    what is not configured: the driver variants that copy, the DP83848 PHY,
    multicast groups, IPv6, PPP, SNMP and the sequential API; interrupts that preempt other than
    between the steps of [rx_step] and after a trigger.  The state changes of the
    radio chip itself are left to the chip: theorems about transmission stop
    at the frame buffer. *)

From Stdlib Require Import ZArith Lia String Ascii.
From stdpp Require Import base numbers list list_numbers strings gmap.

#[export] Set Default Goal Selector "!".
Open Scope Z_scope.

(** ** Machine integers

    A C integer is a [Z]; every conversion to a fixed-width type is written
    out with one of the following wrap-around functions. *)

Definition u8 (x : Z) : Z := x mod 2 ^ 8.
Definition u16 (x : Z) : Z := x mod 2 ^ 16.
Definition u32 (x : Z) : Z := x mod 2 ^ 32.
Definition u64 (x : Z) : Z := x mod 2 ^ 64.

(** Two's complement conversion to a signed type of [w] bits. *)
Definition sint (w x : Z) : Z := (x + 2 ^ (w - 1)) mod 2 ^ w - 2 ^ (w - 1).
Definition s16 (x : Z) : Z := sint 16 x.
Definition s32 (x : Z) : Z := sint 32 x.

(** [~x] on a [w]-bit unsigned operand. *)
Definition unot (w x : Z) : Z := Z.lxor x (Z.ones w).

(** Range predicates, used as typing invariants of the C variables. *)
Definition is_u8 (x : Z) : Prop := 0 ≤ x < 2 ^ 8.
Definition is_u16 (x : Z) : Prop := 0 ≤ x < 2 ^ 16.
Definition is_u32 (x : Z) : Prop := 0 ≤ x < 2 ^ 32.
Definition is_u64 (x : Z) : Prop := 0 ≤ x < 2 ^ 64.
Definition bytes_ok (l : list Z) : Prop := Forall is_u8 l.

#[export] Instance is_u8_dec x : Decision (is_u8 x).
Proof. unfold is_u8. apply _. Defined.
#[export] Instance is_u32_dec x : Decision (is_u32 x).
Proof. unfold is_u32. apply _. Defined.
#[export] Instance bytes_ok_dec l : Decision (bytes_ok l).
Proof. unfold bytes_ok. apply _. Defined.

Create HintDb cint.

Lemma u8_range x : is_u8 (u8 x).
Proof. unfold is_u8, u8. apply Z.mod_pos_bound. lia. Qed.
Lemma u16_range x : is_u16 (u16 x).
Proof. unfold is_u16, u16. apply Z.mod_pos_bound. lia. Qed.
Lemma u32_range x : is_u32 (u32 x).
Proof. unfold is_u32, u32. apply Z.mod_pos_bound. lia. Qed.
Lemma u64_range x : is_u64 (u64 x).
Proof. unfold is_u64, u64. apply Z.mod_pos_bound. lia. Qed.
Lemma u8_small x : is_u8 x → u8 x = x.
Proof. apply Z.mod_small. Qed.
Lemma u16_small x : is_u16 x → u16 x = x.
Proof. apply Z.mod_small. Qed.
Lemma u32_small x : is_u32 x → u32 x = x.
Proof. apply Z.mod_small. Qed.
Lemma u64_small x : is_u64 x → u64 x = x.
Proof. apply Z.mod_small. Qed.
Lemma s32_small x : - 2 ^ 31 ≤ x < 2 ^ 31 → s32 x = x.
Proof. intros H. unfold s32, sint. rewrite Z.mod_small by (simpl in *; lia). lia. Qed.

Lemma bytes_ok_app l k : bytes_ok l → bytes_ok k → bytes_ok (l ++ k).
Proof. intros. by apply Forall_app. Qed.

#[export] Hint Resolve bytes_ok_app u8_range u16_range u32_range u64_range : cint.

(** Unfold every width and leave the arithmetic to [lia]. *)
Ltac cint :=
  unfold is_u8, is_u16, is_u32, is_u64, u8, u16, u32, u64, s16, s32, sint in *;
  Z.to_euclidean_division_equations; lia.

(** Split typing facts about explicit lists. *)
Ltac forall_inv :=
  unfold bytes_ok in *;
  repeat match goal with
  | H : Forall _ (_ :: _) |- _ => apply Forall_cons_1 in H as [? H]
  end.

(** Decide a closed proposition by evaluation. *)
Ltac by_decision := apply (bool_decide_unpack _); vm_compute; exact I.

(** ** Bitwise reasoning

    [bits] proves an equation between bit expressions by comparing the bits
    at every position. *)

Lemma testbit_above w x i : 0 ≤ x < 2 ^ w → w ≤ i → Z.testbit x i = false.
Proof.
  intros [Hx0 Hx] Hi. destruct (decide (x = 0)) as [->|]; [apply Z.bits_0|].
  apply Z.bits_above_log2; [lia|].
  assert (Z.log2 x < w) by (apply Z.log2_lt_pow2; lia). lia.
Qed.

Lemma land_ones_mod w x : 0 ≤ w → Z.land x (Z.ones w) = x mod 2 ^ w.
Proof. intros. by apply Z.land_ones. Qed.

Lemma mod_pow2_testbit x w i :
  0 ≤ w → Z.testbit (x mod 2 ^ w) i = bool_decide (i < w) && Z.testbit x i.
Proof.
  intros Hw. destruct (decide (i < 0)) as [Hi|Hi].
  { rewrite !Z.testbit_neg_r by lia. by rewrite andb_false_r. }
  case_bool_decide.
  - rewrite Z.mod_pow2_bits_low by lia. done.
  - rewrite Z.mod_pow2_bits_high by lia. done.
Qed.

Lemma shiftl_testbit x n i :
  0 ≤ i → Z.testbit (Z.shiftl x n) i = Z.testbit x (i - n).
Proof. intros. by apply Z.shiftl_spec. Qed.

Lemma shiftr_testbit x n i :
  0 ≤ i → Z.testbit (Z.shiftr x n) i = Z.testbit x (i + n).
Proof. intros. by apply Z.shiftr_spec. Qed.

Lemma ones_testbit w i :
  0 ≤ w → 0 ≤ i → Z.testbit (Z.ones w) i = bool_decide (i < w).
Proof.
  intros Hw Hi. case_bool_decide.
  - by apply Z.ones_spec_low.
  - apply Z.ones_spec_high. lia.
Qed.

(** A value below bit [w] and one shifted above it do not overlap, so that
    their sum, bitwise or and exclusive or coincide. *)
Lemma land_disjoint a b w : 0 ≤ a < 2 ^ w → Z.land a (Z.shiftl b w) = 0.
Proof.
  intros Ha. apply Z.bits_inj'. intros i Hi.
  rewrite Z.land_spec, Z.bits_0, shiftl_testbit by lia. destruct (decide (i < w)).
  - rewrite (Z.testbit_neg_r b) by lia. apply andb_false_r.
  - by rewrite (testbit_above w a i) by lia.
Qed.

Lemma lxor_add_disjoint a b w :
  0 ≤ w → 0 ≤ a < 2 ^ w → Z.lxor a (Z.shiftl b w) = a + 2 ^ w * b.
Proof.
  intros Hw Ha. rewrite <-Z.add_nocarry_lxor by by apply land_disjoint.
  rewrite Z.shiftl_mul_pow2 by lia. lia.
Qed.

Lemma lor_add_disjoint a b w :
  0 ≤ w → 0 ≤ a < 2 ^ w → Z.lor a (Z.shiftl b w) = a + 2 ^ w * b.
Proof.
  intros Hw Ha. rewrite <-lxor_add_disjoint, Z.lxor_lor by (done || by apply land_disjoint). done.
Qed.

(** The complement of a [w]-bit number. *)
Lemma unot_value w x : 0 ≤ w → 0 ≤ x < 2 ^ w → unot w x = 2 ^ w - 1 - x.
Proof.
  intros Hw Hx. unfold unot. assert (Z.ones w = 2 ^ w - 1) as Ho by (rewrite Z.ones_equiv; lia).
  rewrite <-Ho, Z.sub_nocarry_ldiff.
  - apply Z.bits_inj'. intros i Hi. rewrite Z.lxor_spec, Z.ldiff_spec, ones_testbit by lia.
    case_bool_decide; [by destruct (Z.testbit x i)|]. by rewrite (testbit_above w x i) by lia.
  - apply Z.bits_inj'. intros i Hi. rewrite Z.ldiff_spec, ones_testbit, Z.bits_0 by lia.
    case_bool_decide; [apply andb_false_r|]. by rewrite (testbit_above w x i) by lia.
Qed.

(** ** Octet arrays

    [l .[ i ]] is the C subscript on an array whose bounds have already been
    established; code that can leave its bounds uses [arr_get]/[arr_set]
    below, which fault. *)

Definition octet (l : list Z) (i : nat) : Z := nth i l 0.
Notation "l .[ i ]" := (octet l i) (at level 1, left associativity, format "l .[ i ]").

Lemma octet_lookup (l : list Z) i x : l !! i = Some x → l.[i] = x.
Proof. intros H. unfold octet. by rewrite nth_lookup, H. Qed.

Lemma octet_is_u8 l i : bytes_ok l → is_u8 l.[i].
Proof.
  intros Hl. unfold octet. rewrite nth_lookup. destruct (l !! i) as [x|] eqn:E; simpl.
  - by eapply Forall_lookup_1 in Hl.
  - by cbv.
Qed.
#[export] Hint Resolve octet_is_u8 : cint.

Lemma octet_app_l (l k : list Z) i : (i < length l)%nat → (l ++ k).[i] = l.[i].
Proof. intros. unfold octet. by apply app_nth1. Qed.
Lemma octet_app_r (l k : list Z) i :
  (length l ≤ i)%nat → (l ++ k).[i] = k.[(i - length l)%nat].
Proof. intros. unfold octet. by apply app_nth2. Qed.

(** Two arrays of the same length with the same subscripts are equal. *)
Lemma octet_ext (l k : list Z) :
  length l = length k → (∀ i, (i < length l)%nat → l.[i] = k.[i]) → l = k.
Proof. intros. by apply (nth_ext _ _ 0 0). Qed.

Lemma octet_insert (l : list Z) i j x :
  (i < length l)%nat → (<[i := x]> l).[j] = if decide (i = j) then x else l.[j].
Proof.
  intros. unfold octet. rewrite !nth_lookup. case_decide; subst.
  - by rewrite list_lookup_insert_eq.
  - by rewrite list_lookup_insert_ne.
Qed.

(** Reading an array by a loop over its indices. *)
Lemma map_octet_seq (l : list Z) k n :
  (k + n ≤ length l)%nat → map (octet l) (seq k n) = take n (drop k l).
Proof.
  revert k. induction n as [|n IH]; intros k Hk; [done|].
  simpl seq. simpl map. rewrite IH by lia.
  destruct (lookup_lt_is_Some_2 l k ltac:(lia)) as [x Hx].
  rewrite (drop_S l x k Hx). simpl. f_equal. by apply octet_lookup.
Qed.

Lemma fold_octet_seq {A} (f : A → Z → A) (l : list Z) n a :
  (n ≤ length l)%nat → fold_left (λ a i, f a l.[i]) (seq 0 n) a = fold_left f (take n l) a.
Proof.
  intros Hn. change (take n l) with (take n (drop 0 l)). rewrite <-map_octet_seq by done.
  generalize (seq 0 n). intros k. revert a. induction k as [|i k IH]; intros a; simpl; auto.
Qed.

(** ** Little-endian words

    The Cortex-M3 is little endian: reading a [uint32_t] through a pointer
    into an octet array is [le_word], writing one is [le_bytes]. *)

Fixpoint le_word (l : list Z) : Z :=
  match l with [] => 0 | b :: l => b + 2 ^ 8 * le_word l end.

Fixpoint le_bytes (n : nat) (x : Z) : list Z :=
  match n with O => [] | S n => u8 x :: le_bytes n (x / 2 ^ 8) end.

Lemma length_le_bytes n x : length (le_bytes n x) = n.
Proof. revert x. induction n; intros; simpl; auto. Qed.

Lemma le_bytes_ok n x : bytes_ok (le_bytes n x).
Proof. revert x. induction n; intros x; constructor; [auto with cint|apply IHn]. Qed.
#[export] Hint Resolve le_bytes_ok : cint.

Lemma le_word_bytes n x : le_word (le_bytes n x) = x mod 2 ^ (8 * Z.of_nat n).
Proof.
  revert x. induction n as [|n IH]; intros x; simpl le_bytes; simpl le_word.
  { by rewrite Z.mod_1_r. }
  rewrite IH. replace (8 * Z.of_nat (S n)) with (8 + 8 * Z.of_nat n) by lia.
  rewrite Z.pow_add_r, Z.rem_mul_r by lia. done.
Qed.

Lemma le_word_bound l : bytes_ok l → 0 ≤ le_word l < 2 ^ (8 * Z.of_nat (length l)).
Proof.
  induction 1 as [|b l Hb _ IH]; [simpl; lia|]. simpl le_word. simpl length.
  replace (8 * Z.of_nat (S (length l))) with (8 + 8 * Z.of_nat (length l)) by lia.
  rewrite Z.pow_add_r by lia. unfold is_u8 in *. lia.
Qed.

Lemma le_bytes_word l : bytes_ok l → le_bytes (length l) (le_word l) = l.
Proof.
  induction 1 as [|b l Hb _ IH]; [done|]. simpl. f_equal.
  - cint.
  - transitivity (le_bytes (length l) (le_word l)); [f_equal; cint|done].
Qed.

Lemma le_word_inj l k :
  bytes_ok l → bytes_ok k → length l = length k → le_word l = le_word k → l = k.
Proof.
  intros Hl Hk Hlen He. rewrite <-(le_bytes_word l), <-(le_bytes_word k) by done.
  by rewrite Hlen, He.
Qed.

Lemma le_word4_u32 a b c d :
  is_u8 a → is_u8 b → is_u8 c → is_u8 d → is_u32 (le_word [a; b; c; d]).
Proof. intros. simpl. unfold is_u8, is_u32 in *. lia. Qed.

(** The form the sources use: octets or-ed together after shifting. *)
Lemma le_word4_lor a b c d :
  is_u8 a → is_u8 b → is_u8 c → is_u8 d →
  Z.lor (Z.lor (Z.lor a (Z.shiftl b 8)) (Z.shiftl c 16)) (Z.shiftl d 24)
  = le_word [a; b; c; d].
Proof.
  intros Ha Hb Hc Hd. unfold is_u8 in *. simpl le_word.
  rewrite (lor_add_disjoint a), (lor_add_disjoint _ c), (lor_add_disjoint _ d) by lia. lia.
Qed.

(** ** Effects

    Firmware code runs in a state and error monad.  [Spin] is a wait that
    the hardware never ends (a [while(1);] halt, or a busy wait whose fuel
    is exhausted); [Fault] is an access outside an array or through a null
    pointer, which C leaves undefined. *)

Inductive outcome (A : Type) : Type :=
  | Ok (a : A)
  | Spin
  | Fault.
Arguments Ok {A} a.
Arguments Spin {A}.
Arguments Fault {A}.

Definition M (St A : Type) : Type := St → outcome (A * St).

#[export] Instance M_ret St : MRet (M St) := λ A a s, Ok (a, s).
#[export] Instance M_bind St : MBind (M St) := λ A B k m s,
  match m s with
  | Ok (a, s') => k a s'
  | Spin => Spin
  | Fault => Fault
  end.

Definition get {St} : M St St := λ s, Ok (s, s).
Definition gets {St A} (f : St → A) : M St A := λ s, Ok (f s, s).
Definition modify {St} (f : St → St) : M St unit := λ s, Ok (tt, f s).
Definition spin {St A} : M St A := λ _, Spin.
Definition fault {St A} : M St A := λ _, Fault.

(** Run an operation of a sub-component held in a field of the state. *)
Definition lift {St T A} (prj : St → T) (upd : T → St → St) (m : M T A) : M St A := λ s,
  match m (prj s) with
  | Ok (a, t) => Ok (a, upd t s)
  | Spin => Spin
  | Fault => Fault
  end.

(** Subscripts that may be out of range. *)
Definition arr_get {St} (l : list Z) (i : Z) : M St Z :=
  if decide (0 ≤ i < Z.of_nat (length l)) then mret l.[Z.to_nat i] else fault.
Definition arr_set {St} (l : list Z) (i x : Z) : M St (list Z) :=
  if decide (0 ≤ i < Z.of_nat (length l)) then mret (<[Z.to_nat i := x]> l) else fault.

(** [while (!m());]: a wait with no bound of its own, hence fuelled. *)
Fixpoint poll {St} (fuel : nat) (m : M St bool) : M St unit :=
  match fuel with
  | O => spin
  | S fuel => b ← m; if b : bool then mret tt else poll fuel m
  end.

(** [for (i = lo; i < lo + n; i++) f(i);] *)
Fixpoint for_range {St} (lo : Z) (n : nat) (f : Z → M St unit) : M St unit :=
  match n with
  | O => mret tt
  | S n => f lo;; for_range (lo + 1) n f
  end.

(** The same loop with a body that may return from the function. *)
Fixpoint for_return {St R} (lo : Z) (n : nat) (f : Z → M St (option R)) : M St (option R) :=
  match n with
  | O => mret None
  | S n => r ← f lo; match r with Some v => mret (Some v) | None => for_return (lo + 1) n f end
  end.

(** The same loop collecting the values its body produces. *)
Fixpoint for_collect {St A} (n : nat) (m : M St A) : M St (list A) :=
  match n with
  | O => mret []
  | S n => a ← m; l ← for_collect n m; mret (a :: l)
  end.

(** ** Reasoning about effects

    [runs m s Q] is total correctness: [m] returns, without spinning or
    faulting, in a state related by [Q].  [safe m s Q] is partial: [m] does
    not fault, and if it returns then [Q] holds. *)

Definition runs {St A} (m : M St A) (s : St) (Q : A → St → Prop) : Prop :=
  match m s with Ok (a, s') => Q a s' | _ => False end.
Definition safe {St A} (m : M St A) (s : St) (Q : A → St → Prop) : Prop :=
  match m s with Ok (a, s') => Q a s' | Spin => True | Fault => False end.

Section Effects.
Context {St A B : Type}.
Implicit Types (s : St).

Lemma bind_unfold (m : M St A) (k : A → M St B) s :
  (m ≫= k) s = match m s with Ok (a, s') => k a s' | Spin => Spin | Fault => Fault end.
Proof. done. Qed.

Lemma bind_ok (m : M St A) (k : A → M St B) s a s' :
  m s = Ok (a, s') → (m ≫= k) s = k a s'.
Proof. intros H. by rewrite bind_unfold, H. Qed.

Lemma ret_bind (a : A) (k : A → M St B) s : (mret a ≫= k) s = k a s.
Proof. done. Qed.

Lemma runs_bind (m : M St A) (k : A → M St B) s Q :
  runs m s (λ a s', runs (k a) s' Q) → runs (m ≫= k) s Q.
Proof. unfold runs. rewrite bind_unfold. by destruct (m s) as [[]| |]. Qed.

Lemma safe_bind (m : M St A) (k : A → M St B) s Q :
  safe m s (λ a s', safe (k a) s' Q) → safe (m ≫= k) s Q.
Proof. unfold safe. rewrite bind_unfold. by destruct (m s) as [[]| |]. Qed.

Lemma runs_mono (m : M St A) s (P Q : A → St → Prop) :
  (∀ a s', P a s' → Q a s') → runs m s P → runs m s Q.
Proof. unfold runs. destruct (m s) as [[]| |]; eauto. Qed.

Lemma runs_and (m : M St A) s (P Q : A → St → Prop) :
  runs m s P → runs m s Q → runs m s (λ a s', P a s' ∧ Q a s').
Proof. unfold runs. by destruct (m s) as [[]| |]. Qed.

Lemma safe_mono (m : M St A) s (P Q : A → St → Prop) :
  (∀ a s', P a s' → Q a s') → safe m s P → safe m s Q.
Proof. unfold safe. destruct (m s) as [[]| |]; eauto. Qed.

Lemma runs_inv (m : M St A) s Q : runs m s Q → ∃ a s', m s = Ok (a, s') ∧ Q a s'.
Proof. unfold runs. destruct (m s) as [[]| |]; naive_solver. Qed.

Lemma runs_intro (m : M St A) s a s' (Q : A → St → Prop) :
  m s = Ok (a, s') → Q a s' → runs m s Q.
Proof. unfold runs. by intros ->. Qed.
End Effects.

(** Step through straight-line monadic code. *)
Ltac mstep :=
  repeat (rewrite bind_unfold || unfold mret, M_ret, gets, get, modify); simpl.

(** ** Loop lemmas *)

Section Loops.
Context {St : Type}.
Implicit Types (s : St).

(** A [for] loop keeps an invariant indexed by the counter. *)
Lemma for_range_runs (I : Z → St → Prop) f n lo s :
  I lo s →
  (∀ i s, lo ≤ i < lo + Z.of_nat n → I i s → runs (f i) s (λ _ s', I (i + 1) s')) →
  runs (for_range lo n f) s (λ _ s', I (lo + Z.of_nat n) s').
Proof.
  revert lo s. induction n as [|n IH]; intros lo s HI Hf; simpl for_range.
  { unfold runs. simpl. by rewrite Z.add_0_r. }
  apply runs_bind. eapply runs_mono, Hf; [|lia|done]. intros ? s' HI'.
  replace (lo + Z.of_nat (S n)) with (lo + 1 + Z.of_nat n) by lia.
  apply IH; [done|]. intros i s'' Hi. apply Hf. lia.
Qed.

(** A wait ends as soon as its condition holds, provided the fuel reaches it. *)
Lemma poll_ok m n fuel (st : nat → St) :
  (n < fuel)%nat →
  (∀ i, (i < n)%nat → m (st i) = Ok (false, st (S i))) →
  m (st n) = Ok (true, st (S n)) →
  poll fuel m (st O) = Ok (tt, st (S n)).
Proof.
  revert fuel st. induction n as [|n IH]; intros [|fuel] st Hlt Hf Ht; try lia; simpl poll.
  { rewrite (bind_ok _ _ _ _ _ Ht). done. }
  rewrite (bind_ok _ _ _ _ _ (Hf O ltac:(lia))).
  apply (IH fuel (λ i, st (S i))); [lia| |done].
  intros i Hi. apply Hf. lia.
Qed.
End Loops.

(** ** Text

    A C string literal as the octets it stands for. *)

Definition char (c : ascii) : Z := Z.of_N (N_of_ascii c).
#[global] Arguments char _%_char_scope.
Fixpoint str (s : string) : list Z :=
  match s with EmptyString => [] | String c s => char c :: str s end.

#[global] Arguments str _%_string_scope.

Lemma char_is_u8 c : is_u8 (char c).
Proof. unfold char, is_u8. pose proof (N_ascii_bounded c). lia. Qed.

Lemma str_ok s : bytes_ok (str s).
Proof. induction s; constructor; [auto using char_is_u8|done]. Qed.
#[export] Hint Resolve char_is_u8 str_ok : cint.
