(* ===== verification/LwipBase.v ===== *)
(** * What the modules of the network stack share

    Assertions, alignment and allocation statistics ([inc/lwip/lwip/debug.h],
    [mem.h], [stats.h], with the port's [arch/cc.h]).  The port's assertion
    prints a message and halts, and so does [LWIP_ERROR] before it reaches its
    handler: both are [Spin] when they fail. *)

From S2P Require Import Prelude.
From Stdlib Require Import ZArith Lia.
From stdpp Require Import base numbers list.
Open Scope Z_scope.

Definition LWIP_ASSERT {St} (assertion : bool) : M St unit :=
  if assertion then mret tt else spin.
Definition LWIP_ERROR {St} (expression : bool) : M St unit :=
  if expression then mret tt else spin.

Lemma assert_true {St A} (b : bool) (k : unit → M St A) s :
  b = true → (LWIP_ASSERT b ≫= k) s = k tt s.
Proof. by intros ->. Qed.
Lemma error_true {St A} (b : bool) (k : unit → M St A) s :
  b = true → (LWIP_ERROR b ≫= k) s = k tt s.
Proof. by intros ->. Qed.

(** ** Error codes *)

Definition ERR_OK : Z := 0.
Definition ERR_MEM : Z := -1.
Definition ERR_BUF : Z := -2.
Definition ERR_RTE : Z := -4.
Definition ERR_INPROGRESS : Z := -5.
Definition ERR_VAL : Z := -6.
Definition ERR_USE : Z := -8.
Definition ERR_ARG : Z := -14.
Definition ERR_IF : Z := -15.

(** ** Alignment *)

Definition MEM_ALIGNMENT : Z := 4.
Definition LWIP_MEM_ALIGN_SIZE (size : Z) : Z :=
  Z.land (size + MEM_ALIGNMENT - 1) (Z.lnot (MEM_ALIGNMENT - 1)).
Definition LWIP_MEM_ALIGN (addr : Z) : Z :=
  u32 (Z.land (addr + MEM_ALIGNMENT - 1) (Z.lnot (MEM_ALIGNMENT - 1))).

Lemma align_size_value x : LWIP_MEM_ALIGN_SIZE x = 4 * ((x + 3) / 4).
Proof.
  unfold LWIP_MEM_ALIGN_SIZE, MEM_ALIGNMENT. change (4 - 1) with (Z.ones 2).
  rewrite <-Z.ldiff_land, Z.ldiff_ones_r, Z.shiftr_div_pow2, Z.shiftl_mul_pow2 by lia.
  change (2 ^ 2) with 4. replace (x + 4 - 1) with (x + 3) by lia. lia.
Qed.
Lemma align_size_bounds x : x ≤ LWIP_MEM_ALIGN_SIZE x < x + 4.
Proof. rewrite align_size_value. Z.to_euclidean_division_equations; lia. Qed.
Lemma align_size_divides x : (4 | LWIP_MEM_ALIGN_SIZE x).
Proof. rewrite align_size_value. exists ((x + 3) / 4). lia. Qed.
Lemma align_size_id x : (4 | x) → LWIP_MEM_ALIGN_SIZE x = x.
Proof. intros [k ->]. rewrite align_size_value. Z.to_euclidean_division_equations; lia. Qed.

(** ** Allocation statistics ([struct stats_mem]) *)

Record stats_mem := StatsMem {
  st_avail : Z;
  st_used : Z;
  st_max : Z;
  st_err : Z;
  st_illegal : Z }.

Definition stats_avail (y : Z) (s : stats_mem) : stats_mem :=
  StatsMem (u16 y) (st_used s) (st_max s) (st_err s) (st_illegal s).
Definition STATS_INC_USED (y : Z) (s : stats_mem) : stats_mem :=
  let used := u16 (st_used s + y) in
  StatsMem (st_avail s) used (if st_max s <? used then used else st_max s) (st_err s) (st_illegal s).
Definition STATS_DEC_USED (y : Z) (s : stats_mem) : stats_mem :=
  StatsMem (st_avail s) (u16 (st_used s - y)) (st_max s) (st_err s) (st_illegal s).
Definition stats_inc_err (s : stats_mem) : stats_mem :=
  StatsMem (st_avail s) (st_used s) (st_max s) (u16 (st_err s + 1)) (st_illegal s).
Definition stats_inc_illegal (s : stats_mem) : stats_mem :=
  StatsMem (st_avail s) (st_used s) (st_max s) (st_err s) (u16 (st_illegal s + 1)).

Lemma STATS_INC_used y s u : st_used s = u16 u → st_used (STATS_INC_USED y s) = u16 (u + y).
Proof. intros H. simpl. rewrite H. unfold u16. by rewrite Z.add_mod_idemp_l. Qed.
Lemma STATS_DEC_used y s u : st_used s = u16 u → st_used (STATS_DEC_USED y s) = u16 (u - y).
Proof. intros H. simpl. rewrite H. unfold u16. by rewrite Zminus_mod_idemp_l. Qed.
