(* ===== verification/Checksum.v ===== *)
(** * CRC-32 record checksums ([src/memory/checksum.c])

    The table-driven checksum of a stored record, the bitwise division it
    stands for, and what it detects. *)

From S2P Require Import Prelude.
From Stdlib Require Import ZArith Lia String.
From stdpp Require Import base numbers list strings.
Open Scope Z_scope.

(** [MEMORY_RECORD_SIZE] of [memory.h]. *)
Definition MEMORY_RECORD_SIZE : nat := 24.

Definition CHECKSUM_PASS : Z := 1.
Definition CHECKSUM_FAIL : Z := 0.

Definition crc32_table : list Z :=
  [0x00000000; 0x77073096; 0xEE0E612C; 0x990951BA; 0x076DC419; 0x706AF48F; 0xE963A535; 0x9E6495A3;
   0x0EDB8832; 0x79DCB8A4; 0xE0D5E91E; 0x97D2D988; 0x09B64C2B; 0x7EB17CBD; 0xE7B82D07; 0x90BF1D91;
   0x1DB71064; 0x6AB020F2; 0xF3B97148; 0x84BE41DE; 0x1ADAD47D; 0x6DDDE4EB; 0xF4D4B551; 0x83D385C7;
   0x136C9856; 0x646BA8C0; 0xFD62F97A; 0x8A65C9EC; 0x14015C4F; 0x63066CD9; 0xFA0F3D63; 0x8D080DF5;
   0x3B6E20C8; 0x4C69105E; 0xD56041E4; 0xA2677172; 0x3C03E4D1; 0x4B04D447; 0xD20D85FD; 0xA50AB56B;
   0x35B5A8FA; 0x42B2986C; 0xDBBBC9D6; 0xACBCF940; 0x32D86CE3; 0x45DF5C75; 0xDCD60DCF; 0xABD13D59;
   0x26D930AC; 0x51DE003A; 0xC8D75180; 0xBFD06116; 0x21B4F4B5; 0x56B3C423; 0xCFBA9599; 0xB8BDA50F;
   0x2802B89E; 0x5F058808; 0xC60CD9B2; 0xB10BE924; 0x2F6F7C87; 0x58684C11; 0xC1611DAB; 0xB6662D3D;
   0x76DC4190; 0x01DB7106; 0x98D220BC; 0xEFD5102A; 0x71B18589; 0x06B6B51F; 0x9FBFE4A5; 0xE8B8D433;
   0x7807C9A2; 0x0F00F934; 0x9609A88E; 0xE10E9818; 0x7F6A0DBB; 0x086D3D2D; 0x91646C97; 0xE6635C01;
   0x6B6B51F4; 0x1C6C6162; 0x856530D8; 0xF262004E; 0x6C0695ED; 0x1B01A57B; 0x8208F4C1; 0xF50FC457;
   0x65B0D9C6; 0x12B7E950; 0x8BBEB8EA; 0xFCB9887C; 0x62DD1DDF; 0x15DA2D49; 0x8CD37CF3; 0xFBD44C65;
   0x4DB26158; 0x3AB551CE; 0xA3BC0074; 0xD4BB30E2; 0x4ADFA541; 0x3DD895D7; 0xA4D1C46D; 0xD3D6F4FB;
   0x4369E96A; 0x346ED9FC; 0xAD678846; 0xDA60B8D0; 0x44042D73; 0x33031DE5; 0xAA0A4C5F; 0xDD0D7CC9;
   0x5005713C; 0x270241AA; 0xBE0B1010; 0xC90C2086; 0x5768B525; 0x206F85B3; 0xB966D409; 0xCE61E49F;
   0x5EDEF90E; 0x29D9C998; 0xB0D09822; 0xC7D7A8B4; 0x59B33D17; 0x2EB40D81; 0xB7BD5C3B; 0xC0BA6CAD;
   0xEDB88320; 0x9ABFB3B6; 0x03B6E20C; 0x74B1D29A; 0xEAD54739; 0x9DD277AF; 0x04DB2615; 0x73DC1683;
   0xE3630B12; 0x94643B84; 0x0D6D6A3E; 0x7A6A5AA8; 0xE40ECF0B; 0x9309FF9D; 0x0A00AE27; 0x7D079EB1;
   0xF00F9344; 0x8708A3D2; 0x1E01F268; 0x6906C2FE; 0xF762575D; 0x806567CB; 0x196C3671; 0x6E6B06E7;
   0xFED41B76; 0x89D32BE0; 0x10DA7A5A; 0x67DD4ACC; 0xF9B9DF6F; 0x8EBEEFF9; 0x17B7BE43; 0x60B08ED5;
   0xD6D6A3E8; 0xA1D1937E; 0x38D8C2C4; 0x4FDFF252; 0xD1BB67F1; 0xA6BC5767; 0x3FB506DD; 0x48B2364B;
   0xD80D2BDA; 0xAF0A1B4C; 0x36034AF6; 0x41047A60; 0xDF60EFC3; 0xA867DF55; 0x316E8EEF; 0x4669BE79;
   0xCB61B38C; 0xBC66831A; 0x256FD2A0; 0x5268E236; 0xCC0C7795; 0xBB0B4703; 0x220216B9; 0x5505262F;
   0xC5BA3BBE; 0xB2BD0B28; 0x2BB45A92; 0x5CB36A04; 0xC2D7FFA7; 0xB5D0CF31; 0x2CD99E8B; 0x5BDEAE1D;
   0x9B64C2B0; 0xEC63F226; 0x756AA39C; 0x026D930A; 0x9C0906A9; 0xEB0E363F; 0x72076785; 0x05005713;
   0x95BF4A82; 0xE2B87A14; 0x7BB12BAE; 0x0CB61B38; 0x92D28E9B; 0xE5D5BE0D; 0x7CDCEFB7; 0x0BDBDF21;
   0x86D3D2D4; 0xF1D4E242; 0x68DDB3F8; 0x1FDA836E; 0x81BE16CD; 0xF6B9265B; 0x6FB077E1; 0x18B74777;
   0x88085AE6; 0xFF0F6A70; 0x66063BCA; 0x11010B5C; 0x8F659EFF; 0xF862AE69; 0x616BFFD3; 0x166CCF45;
   0xA00AE278; 0xD70DD2EE; 0x4E048354; 0x3903B3C2; 0xA7672661; 0xD06016F7; 0x4969474D; 0x3E6E77DB;
   0xAED16A4A; 0xD9D65ADC; 0x40DF0B66; 0x37D83BF0; 0xA9BCAE53; 0xDEBB9EC5; 0x47B2CF7F; 0x30B5FFE9;
   0xBDBDF21C; 0xCABAC28A; 0x53B39330; 0x24B4A3A6; 0xBAD03605; 0xCDD70693; 0x54DE5729; 0x23D967BF;
   0xB3667A2E; 0xC4614AB8; 0x5D681B02; 0x2A6F2B94; 0xB40BBE37; 0xC30C8EA1; 0x5A05DF1B; 0x2D02EF8D].

(** The body of the [for] loop. *)
Definition crc_update (checksum b : Z) : Z :=
  Z.lxor crc32_table.[Z.to_nat (Z.land (Z.lxor checksum b) 0xFF)] (Z.shiftr checksum 8).

Definition calculate_checksum (record : list Z) : Z :=
  let checksum :=
    fold_left (λ checksum i, crc_update checksum record.[i])
      (seq 0 (MEMORY_RECORD_SIZE - 4)) (unot 32 0) in
  Z.lxor checksum (unot 32 0).

Definition get_checksum (record : list Z) : Z :=
  u32 (Z.lor (Z.lor (Z.lor record.[(MEMORY_RECORD_SIZE - 4)%nat]
    (Z.shiftl record.[(MEMORY_RECORD_SIZE - 3)%nat] 8))
    (Z.shiftl record.[(MEMORY_RECORD_SIZE - 2)%nat] 16))
    (Z.shiftl record.[(MEMORY_RECORD_SIZE - 1)%nat] 24)).

Definition evaluate_checksum (record : list Z) : Z :=
  if get_checksum record =? calculate_checksum record then CHECKSUM_PASS else CHECKSUM_FAIL.

(** ** Reference: division by the reflected polynomial, one bit at a time *)

Definition crc_poly : Z := 0xEDB88320.

Definition crc_bit (c : Z) : Z :=
  if Z.odd c then Z.lxor (Z.shiftr c 1) crc_poly else Z.shiftr c 1.

Definition crc_byte (c b : Z) : Z := Nat.iter 8 crc_bit (Z.lxor c b).

Definition crc32 (msg : list Z) : Z :=
  Z.lxor (fold_left crc_byte msg (Z.ones 32)) (Z.ones 32).

(** ** The division step is linear and, on 32-bit remainders, invertible *)

Section Linear.
Lemma crc_bit_lxor a b : crc_bit (Z.lxor a b) = Z.lxor (crc_bit a) (crc_bit b).
Proof.
  unfold crc_bit. rewrite <-!Z.bit0_odd, Z.lxor_spec, Z.shiftr_lxor.
  destruct (Z.testbit a 0), (Z.testbit b 0); simpl;
    apply Z.bits_inj'; intros i _; rewrite ?Z.lxor_spec;
    repeat match goal with |- context [Z.testbit ?x i] => destruct (Z.testbit x i) end;
    done.
Qed.

Lemma iter_crc_lxor n a b :
  Nat.iter n crc_bit (Z.lxor a b) = Z.lxor (Nat.iter n crc_bit a) (Nat.iter n crc_bit b).
Proof. induction n as [|n IH]; simpl; [done|]. by rewrite IH, crc_bit_lxor. Qed.

(** Low zero bits are shifted out. *)
Lemma crc_bit_double x : crc_bit (2 * x) = x.
Proof.
  unfold crc_bit. rewrite Z.odd_mul. simpl. rewrite <-Z.div2_spec, Z.div2_div.
  rewrite Z.mul_comm. by apply Z.div_mul.
Qed.

Lemma iter_crc_pow2 n x : Nat.iter n crc_bit (2 ^ Z.of_nat n * x) = x.
Proof.
  revert x. induction n as [|n IH]; intros x; [change (Nat.iter 0 crc_bit ?y) with y; lia|].
  rewrite Nat.iter_succ_r. replace (2 ^ Z.of_nat (S n) * x) with (2 * (2 ^ Z.of_nat n * x)).
  - by rewrite crc_bit_double.
  - rewrite Nat2Z.inj_succ, Z.pow_succ_r by lia. lia.
Qed.

Lemma iter_crc_app n m x : Nat.iter (n + m) crc_bit x = Nat.iter n crc_bit (Nat.iter m crc_bit x).
Proof. induction n as [|n IH]; simpl; [done|]. by rewrite IH. Qed.

(** Undoing one step: bit 31 of the remainder says whether the polynomial
    was subtracted. *)
Definition uncrc_bit (c : Z) : Z :=
  if Z.testbit c 31 then 2 * Z.lxor c crc_poly + 1 else 2 * c.

Lemma crc_bit_u32 c : is_u32 c → is_u32 (crc_bit c).
Proof.
  intros Hc. assert (0 ≤ Z.shiftr c 1 < 2 ^ 32) as Hs.
  { rewrite <-Z.div2_spec, Z.div2_div. cint. }
  unfold crc_bit. destruct (Z.odd c); [|done].
  assert (0 ≤ Z.lxor (Z.shiftr c 1) crc_poly) by (apply Z.lxor_nonneg; unfold crc_poly; lia).
  split; [done|]. destruct (decide (Z.lxor (Z.shiftr c 1) crc_poly = 0)) as [->|]; [lia|].
  apply Z.log2_lt_pow2; [lia|].
  eapply Z.le_lt_trans; [apply Z.log2_lxor; unfold crc_poly; lia|].
  apply Z.max_lub_lt; [|by vm_compute].
  destruct (decide (Z.shiftr c 1 = 0)) as [->|]; [by vm_compute|].
  apply Z.log2_lt_pow2; lia.
Qed.

Lemma uncrc_crc_bit c : is_u32 c → uncrc_bit (crc_bit c) = c.
Proof.
  intros Hc. unfold uncrc_bit, crc_bit.
  assert (Z.testbit (Z.shiftr c 1) 31 = false) as Htop.
  { rewrite Z.shiftr_spec by lia. by apply (testbit_above 32). }
  pose proof (Z.div_mod c 2 ltac:(lia)) as Hdiv. rewrite Zmod_odd in Hdiv.
  rewrite <-Z.div2_spec, Z.div2_div in *. destruct (Z.odd c).
  - rewrite Z.lxor_spec, Htop. change (Z.testbit crc_poly 31) with true. simpl xorb.
    rewrite Z.lxor_assoc, Z.lxor_nilpotent, Z.lxor_0_r. lia.
  - rewrite Htop. lia.
Qed.

Lemma iter_crc_u32 n c : is_u32 c → is_u32 (Nat.iter n crc_bit c).
Proof. intros Hc. induction n; simpl; auto using crc_bit_u32. Qed.

Lemma iter_crc_inj n a b :
  is_u32 a → is_u32 b → Nat.iter n crc_bit a = Nat.iter n crc_bit b → a = b.
Proof.
  intros Ha Hb. induction n as [|n IH]; simpl; [done|]. intros He. apply IH.
  rewrite <-(uncrc_crc_bit (Nat.iter n crc_bit a)), He by auto using iter_crc_u32.
  auto using uncrc_crc_bit, iter_crc_u32.
Qed.
End Linear.

(** ** The table *)

(** Entry [i] is eight division steps applied to [i]. *)
Lemma crc32_table_entry i :
  (i < 256)%nat → crc32_table.[i] = Nat.iter 8 crc_bit (Z.of_nat i).
Proof.
  intros Hi.
  assert (Forall (λ j, crc32_table.[j] = Nat.iter 8 crc_bit (Z.of_nat j)) (seq 0 256)) as H.
  { apply (bool_decide_unpack _). by vm_compute. }
  rewrite Forall_forall in H. apply H, elem_of_seq. lia.
Qed.

Lemma lxor_u32 a b : is_u32 a → is_u32 b → is_u32 (Z.lxor a b).
Proof.
  unfold is_u32. intros Ha Hb. split; [apply Z.lxor_nonneg; lia|].
  destruct (decide (Z.lxor a b = 0)) as [->|]; [lia|].
  assert (0 ≤ Z.lxor a b) by (apply Z.lxor_nonneg; lia).
  apply Z.log2_lt_pow2; [lia|]. eapply Z.le_lt_trans; [apply Z.log2_lxor; lia|].
  assert (∀ x, 0 ≤ x < 2 ^ 32 → Z.log2 x < 32) as Hl.
  { intros x Hx. destruct (decide (x = 0)) as [->|]; [by vm_compute|].
    apply Z.log2_lt_pow2; lia. }
  apply Z.max_lub_lt; auto.
Qed.

Lemma lxor_split8 x : x = Z.lxor (Z.land x 0xFF) (2 ^ 8 * Z.shiftr x 8).
Proof.
  apply Z.bits_inj'. intros i Hi.
  rewrite (Z.mul_comm (2 ^ 8)), <-Z.shiftl_mul_pow2, Z.lxor_spec, Z.land_spec by lia.
  change 0xFF with (Z.ones 8). rewrite ones_testbit, shiftl_testbit by lia.
  case_bool_decide.
  - rewrite (Z.testbit_neg_r (Z.shiftr x 8)) by lia. by rewrite andb_true_r, xorb_false_r.
  - rewrite Z.shiftr_spec, andb_false_r, xorb_false_l by lia. f_equal. lia.
Qed.

(** One table step is eight division steps. *)
Lemma crc_update_crc_byte c b : 0 ≤ c → is_u8 b → crc_update c b = crc_byte c b.
Proof.
  intros Hc Hb. unfold crc_update, crc_byte. set (x := Z.lxor c b).
  assert (0 ≤ Z.land x 0xFF < 256) as Hx.
  { change 0xFF with (Z.ones 8). rewrite Z.land_ones by lia. apply Z.mod_pos_bound. lia. }
  rewrite crc32_table_entry by lia. rewrite Z2Nat.id by lia.
  rewrite (lxor_split8 x) at 2. rewrite iter_crc_lxor, (iter_crc_pow2 8). f_equal.
  subst x. rewrite Z.shiftr_lxor. unfold is_u8 in Hb.
  rewrite (Z.shiftr_div_pow2 b), (Z.div_small b) by lia. by rewrite Z.lxor_0_r.
Qed.

Lemma crc_byte_u32 c b : is_u32 c → is_u8 b → is_u32 (crc_byte c b).
Proof.
  intros. apply iter_crc_u32, lxor_u32; [done|]. unfold is_u8, is_u32 in *. lia.
Qed.

Lemma crc_bytes_u32 l c : is_u32 c → bytes_ok l → is_u32 (fold_left crc_byte l c).
Proof.
  intros Hc Hl. revert c Hc. induction Hl; intros c Hc; simpl; auto using crc_byte_u32.
Qed.

(** A run over a message is one long division of its little-endian value. *)
Lemma crc_bytes_word l c :
  bytes_ok l → fold_left crc_byte l c = Nat.iter (8 * length l) crc_bit (Z.lxor c (le_word l)).
Proof.
  intros Hl. revert c. induction Hl as [|b l Hb Hl IH]; intros c.
  { simpl. by rewrite Z.lxor_0_r. }
  simpl fold_left. rewrite IH. unfold crc_byte. simpl le_word. simpl length.
  replace (8 * S (length l))%nat with (8 * length l + 8)%nat by lia.
  rewrite iter_crc_app. f_equal.
  rewrite <-(lxor_add_disjoint b) by (unfold is_u8 in Hb; lia).
  rewrite (Z.shiftl_mul_pow2 _ 8), (Z.mul_comm (le_word l)), <-Z.lxor_assoc by lia.
  by rewrite (iter_crc_lxor 8 (Z.lxor c b)), (iter_crc_pow2 8).
Qed.

(** ** What the checksum functions compute *)

Lemma fold_crc_update l c :
  is_u32 c → bytes_ok l → fold_left crc_update l c = fold_left crc_byte l c.
Proof.
  intros Hc Hl. revert c Hc. induction Hl as [|b l Hb Hl IH]; intros c Hc; [done|]. simpl.
  rewrite crc_update_crc_byte by (unfold is_u32 in Hc; done || lia).
  by apply IH, crc_byte_u32.
Qed.

Lemma calculate_checksum_take record :
  length record = MEMORY_RECORD_SIZE → bytes_ok record →
  calculate_checksum record = crc32 (take 20 record).
Proof.
  intros Hlen Hok. unfold calculate_checksum, crc32.
  rewrite fold_octet_seq by (rewrite Hlen; unfold MEMORY_RECORD_SIZE; lia).
  change (unot 32 0) with (Z.ones 32). change (MEMORY_RECORD_SIZE - 4)%nat with 20%nat.
  rewrite fold_crc_update; [done|by vm_compute|by apply Forall_take].
Qed.

Lemma get_checksum_word record :
  length record = MEMORY_RECORD_SIZE → bytes_ok record →
  get_checksum record = le_word (drop 20 record).
Proof.
  intros Hlen Hok. unfold get_checksum. rewrite le_word4_lor by auto with cint.
  rewrite u32_small by auto using le_word4_u32 with cint. unfold MEMORY_RECORD_SIZE in *.
  f_equal. rewrite <-(take_ge (drop 20 record) 4), <-map_octet_seq; [done|lia|].
  rewrite length_drop. lia.
Qed.

Lemma ones32_u32 : is_u32 (Z.ones 32).
Proof. by vm_compute. Qed.

Lemma crc32_u32 l : bytes_ok l → is_u32 (crc32 l).
Proof.
  intros. apply lxor_u32; [apply crc_bytes_u32; [by vm_compute|done]|by vm_compute].
Qed.

(** The remainder every record with a correct checksum leaves. *)
Definition crc_residue : Z := Nat.iter 32 crc_bit (Z.ones 32).

Lemma fold_crc_app_word data w c :
  is_u32 c → bytes_ok data → is_u32 w →
  fold_left crc_byte (data ++ le_bytes 4 w) c
  = Nat.iter 32 crc_bit (Z.lxor (fold_left crc_byte data c) w).
Proof.
  intros Hc Hd Hw. rewrite fold_left_app, crc_bytes_word by auto with cint.
  rewrite length_le_bytes, le_word_bytes. change (8 * Z.of_nat 4) with 32.
  by rewrite (Z.mod_small w).
Qed.

Lemma evaluate_checksum_residue record :
  length record = MEMORY_RECORD_SIZE → bytes_ok record →
  evaluate_checksum record = CHECKSUM_PASS ↔
  fold_left crc_byte record (Z.ones 32) = crc_residue.
Proof.
  intros Hlen Hok. unfold evaluate_checksum.
  rewrite calculate_checksum_take, get_checksum_word by done.
  assert (bytes_ok (take 20 record)) as Hd by by apply Forall_take.
  assert (bytes_ok (drop 20 record)) as Hc by by apply Forall_drop.
  assert (length (drop 20 record) = 4%nat) as Hl.
  { rewrite length_drop, Hlen. done. }
  pose proof (le_word_bound _ Hc) as Hw. rewrite Hl in Hw. change (8 * Z.of_nat 4) with 32 in Hw.
  rewrite <-(take_drop 20 record) at 3. rewrite <-(le_bytes_word (drop 20 record)), Hl by done.
  rewrite fold_crc_app_word by (done || by vm_compute).
  rewrite le_word_bytes. change (8 * Z.of_nat 4) with 32. rewrite (Z.mod_small (le_word _)) by done.
  set (c := fold_left crc_byte (take 20 record) (Z.ones 32)).
  set (w := le_word (drop 20 record)) in *.
  assert (is_u32 c) by (apply crc_bytes_u32; [by vm_compute|done]).
  unfold crc32, crc_residue. fold c. destruct (Z.eqb_spec w (Z.lxor c (Z.ones 32))) as [->|Hne].
  - by rewrite <-Z.lxor_assoc, Z.lxor_nilpotent, Z.lxor_0_l.
  - split; [done|]. intros He. exfalso. apply Hne.
    assert (is_u32 (Z.lxor c w)) as Hcw by (apply lxor_u32; assumption).
    pose proof (iter_crc_inj 32 _ _ Hcw ones32_u32 He) as Heq.
    by rewrite <-Heq, <-Z.lxor_assoc, Z.lxor_nilpotent, Z.lxor_0_l.
Qed.

(** A checksum appended in the stored order is accepted. *)
Lemma evaluate_checksum_append data :
  length data = 20%nat → bytes_ok data →
  evaluate_checksum (data ++ le_bytes 4 (crc32 data)) = CHECKSUM_PASS.
Proof.
  intros Hlen Hok. pose proof (crc32_u32 _ Hok) as Hu.
  apply evaluate_checksum_residue.
  - rewrite length_app, length_le_bytes, Hlen. done.
  - apply Forall_app. split; [done|apply le_bytes_ok].
  - rewrite fold_crc_app_word by auto using ones32_u32. unfold crc32, crc_residue.
    by rewrite <-Z.lxor_assoc, Z.lxor_nilpotent, Z.lxor_0_l.
Qed.

Lemma fold_crc_inj l a b :
  bytes_ok l → is_u32 a → is_u32 b →
  fold_left crc_byte l a = fold_left crc_byte l b → a = b.
Proof.
  intros Hl. revert a b. induction Hl as [|x l Hx Hl IH]; intros a b Ha Hb; [done|]. simpl.
  intros He. apply IH in He; [|by apply crc_byte_u32..].
  assert (is_u32 x) as Hx' by (unfold is_u8, is_u32 in *; lia).
  apply (iter_crc_inj 8) in He; [|by apply lxor_u32..].
  assert (Z.lxor (Z.lxor a x) x = Z.lxor (Z.lxor b x) x) as He' by by rewrite He.
  by rewrite !Z.lxor_assoc, Z.lxor_nilpotent, !Z.lxor_0_r in He'.
Qed.

(** Up to four octets are recovered from the remainder they produce. *)
Lemma crc_short_inj l k c :
  is_u32 c → bytes_ok l → bytes_ok k → length l = length k → (length l ≤ 4)%nat →
  fold_left crc_byte l c = fold_left crc_byte k c → l = k.
Proof.
  intros Hc Hl Hk Hlen Hmax. rewrite !crc_bytes_word, Hlen by done. intros He.
  assert (∀ m, bytes_ok m → (length m ≤ 4)%nat → is_u32 (le_word m)) as Hm.
  { intros m Hm Hle. pose proof (le_word_bound _ Hm). split; [lia|].
    eapply Z.lt_le_trans; [apply H|]. apply Z.pow_le_mono_r; lia. }
  apply iter_crc_inj in He; [|apply lxor_u32; auto with lia..].
  apply le_word_inj; [done..|].
  assert (Z.lxor c (Z.lxor c (le_word l)) = Z.lxor c (Z.lxor c (le_word k))) as He' by by rewrite He.
  by rewrite <-!Z.lxor_assoc, Z.lxor_nilpotent, !Z.lxor_0_l in He'.
Qed.

(** ** Properties *)

(** The table-driven loop of [calculate_checksum] computes the CRC-32 of
    the first 20 octets of a record, as defined by bitwise division by the
    polynomial 0xEDB88320 the source names. *)
Theorem calculate_checksum_is_crc32 record :
  length record = MEMORY_RECORD_SIZE → bytes_ok record →
  calculate_checksum record = crc32 (take 20 record).
Proof. apply calculate_checksum_take. Qed.

Definition sample_record : list Z :=
  str "0123456789abcdefghij" ++ le_bytes 4 (crc32 (str "0123456789abcdefghij")).

Lemma calculate_checksum_is_crc32_witness :
  calculate_checksum sample_record = crc32 (str "0123456789abcdefghij").
Proof.
  apply (calculate_checksum_is_crc32 sample_record); [reflexivity|by_decision].
Defined.

(** C9. Error detection: a stored record that passes [evaluate_checksum] fails
    it after any corruption confined to four consecutive octets, wherever
    they lie, the checksum field and its boundary with the data included. *)
Theorem evaluate_checksum_detects_burst pre burst burst' post :
  length (pre ++ burst ++ post) = MEMORY_RECORD_SIZE →
  length burst' = length burst → (length burst ≤ 4)%nat →
  bytes_ok (pre ++ burst ++ post) → bytes_ok burst' →
  burst' ≠ burst →
  evaluate_checksum (pre ++ burst ++ post) = CHECKSUM_PASS →
  evaluate_checksum (pre ++ burst' ++ post) = CHECKSUM_FAIL.
Proof.
  intros Hlen Hb Hmax Hok Hok' Hne Hpass.
  destruct (decide (evaluate_checksum (pre ++ burst' ++ post) = CHECKSUM_PASS)) as [Hp|Hp].
  2: { revert Hp. unfold evaluate_checksum. by destruct (_ =? _). }
  destruct Hne.
  apply Forall_app in Hok as [Hpre Hok]. apply Forall_app in Hok as [Hbu Hpost].
  apply evaluate_checksum_residue in Hpass; [|done|by repeat (apply Forall_app; split)].
  apply evaluate_checksum_residue in Hp;
    [|rewrite !length_app in *; lia|by repeat (apply Forall_app; split)].
  rewrite !fold_left_app in Hpass, Hp. rewrite <-Hpass in Hp.
  pose proof (crc_bytes_u32 pre _ ones32_u32 Hpre).
  apply fold_crc_inj in Hp; [|by auto using crc_bytes_u32..].
  by apply crc_short_inj in Hp; [|rewrite ?Hb..].
Qed.

Lemma evaluate_checksum_detects_burst_witness :
  evaluate_checksum sample_record = CHECKSUM_PASS ∧
  evaluate_checksum (str "0123456789XYZWefghij" ++ drop 20 sample_record) = CHECKSUM_FAIL.
Proof.
  split; [reflexivity|].
  apply (evaluate_checksum_detects_burst (str "0123456789") (str "abcd") (str "XYZW")
    (str "efghij" ++ drop 20 sample_record));
    [reflexivity|reflexivity|simpl; lia|by_decision|by_decision|discriminate|reflexivity].
Defined.
