(* ===== verification/BlockDev.v ===== *)
(** * The block device interface

    What the sample memory ([src/memory/memory.c]) relies on below it.  The
    operations are those of [sd.h]; the laws say that the device holds
    512-octet pages, that a write replaces one page (padding it) and that a
    read returns its first octets.  [SdCard.v] discharges the laws for the
    SD card driver; [ram_disk] is a device kept in memory. *)

From S2P Require Import Prelude.
From Stdlib Require Import ZArith Lia.
From stdpp Require Import base numbers list.
Open Scope Z_scope.

Class BlockDev (B : Type) : Type := {
  (** Read [length] octets of a block into a buffer: status and buffer. *)
  blk_read : list Z → Z → Z → M B (Z * list Z);
  blk_write : list Z → Z → Z → M B Z;
  blk_sectors : M B Z;
  (** [SPI_Init(); disk_initialize();] *)
  blk_init : M B Z;
}.

(** The content of a page after writing the first [len] octets of [buf]. *)
Definition page_of (buf : list Z) (len : Z) : list Z :=
  take (Z.to_nat len) buf ++ replicate (Z.to_nat (512 - len)) 0xFF.

Definition MAX_BLOCK : Z := 0x007FFFFF.

Class BlockDevLaws (B : Type) `{BlockDev B} : Type := {
  blk_ok : B → Prop;
  blk_count : B → Z;
  blk_page : B → Z → list Z;
  blk_count_range : ∀ b, blk_ok b → 0 ≤ blk_count b ≤ MAX_BLOCK + 1;
  blk_page_ok : ∀ b n,
    blk_ok b → 0 ≤ n < blk_count b → length (blk_page b n) = 512%nat ∧ bytes_ok (blk_page b n);
  blk_sectors_law : ∀ b, blk_ok b → blk_sectors b = Ok (blk_count b, b);
  blk_read_law : ∀ b buf len n,
    blk_ok b → 0 ≤ n < blk_count b → 0 ≤ len ≤ 512 → len ≤ Z.of_nat (length buf) →
    ∃ b', blk_read buf len n b
            = Ok ((0, take (Z.to_nat len) (blk_page b n) ++ drop (Z.to_nat len) buf), b') ∧
      blk_ok b' ∧ blk_count b' = blk_count b ∧ ∀ k, blk_page b' k = blk_page b k;
  blk_write_law : ∀ b buf len n,
    blk_ok b → 0 ≤ n < blk_count b → 0 ≤ len ≤ 512 → len ≤ Z.of_nat (length buf) →
    bytes_ok buf →
    ∃ b', blk_write buf len n b = Ok (0, b') ∧
      blk_ok b' ∧ blk_count b' = blk_count b ∧
      ∀ k, blk_page b' k = if decide (k = n) then page_of buf len else blk_page b k;
  (** Blocks outside the 32-bit byte address space are silently ignored. *)
  blk_read_beyond : ∀ b buf len n, MAX_BLOCK < n → blk_read buf len n b = Ok ((0, buf), b);
  blk_write_beyond : ∀ b buf len n, MAX_BLOCK < n → blk_write buf len n b = Ok (0, b);
}.

Lemma length_page_of buf len :
  0 ≤ len ≤ 512 → len ≤ Z.of_nat (length buf) → length (page_of buf len) = 512%nat.
Proof. intros. unfold page_of. rewrite length_app, length_take, length_replicate. lia. Qed.

Lemma page_of_ok buf len : bytes_ok buf → bytes_ok (page_of buf len).
Proof.
  intros. apply Forall_app. split; [by apply Forall_take|].
  apply Forall_replicate. by cbv.
Qed.

(** ** A device in memory *)

Abbreviation ram_disk := (list (list Z)).

Definition ram_read (buf : list Z) (len n : Z) : M ram_disk (Z * list Z) := λ d,
  if (n >? MAX_BLOCK) then Ok ((0, buf), d)
  else match d !! Z.to_nat n with
  | Some p => Ok ((0, take (Z.to_nat len) p ++ drop (Z.to_nat len) buf), d)
  | None => Ok ((1, buf), d)
  end.

Definition ram_write (buf : list Z) (len n : Z) : M ram_disk Z := λ d,
  if (n >? MAX_BLOCK) then Ok (0, d)
  else match d !! Z.to_nat n with
  | Some _ => Ok (0, <[Z.to_nat n := page_of buf len]> d)
  | None => Ok (1, d)
  end.

#[export] Instance ram_dev : BlockDev ram_disk := {
  blk_read := ram_read;
  blk_write := ram_write;
  blk_sectors := λ d, Ok (Z.of_nat (length d), d);
  blk_init := mret 0;
}.

Definition ram_ok (d : ram_disk) : Prop :=
  Z.of_nat (length d) ≤ MAX_BLOCK + 1 ∧ Forall (λ p, length p = 512%nat ∧ bytes_ok p) d.

#[export] Instance ram_ok_dec d : Decision (ram_ok d).
Proof. unfold ram_ok. apply _. Defined.

Definition ram_page (d : ram_disk) (n : Z) : list Z :=
  if decide (0 ≤ n) then default [] (d !! Z.to_nat n) else [].

Lemma ram_page_ok d n :
  ram_ok d → 0 ≤ n < Z.of_nat (length d) →
  length (ram_page d n) = 512%nat ∧ bytes_ok (ram_page d n).
Proof.
  intros [_ Hp] Hn. unfold ram_page. rewrite decide_True by lia.
  destruct (lookup_lt_is_Some_2 d (Z.to_nat n)) as [p E]; [lia|]. rewrite E.
  by apply (Forall_lookup_1 _ _ _ _ Hp E).
Qed.

Lemma ram_page_insert d n p k :
  0 ≤ n < Z.of_nat (length d) →
  ram_page (<[Z.to_nat n := p]> d) k = if decide (k = n) then p else ram_page d k.
Proof.
  intros Hn. unfold ram_page. repeat case_decide; subst; try lia; try done.
  - by rewrite list_lookup_insert_eq by lia.
  - by rewrite list_lookup_insert_ne by lia.
Qed.

#[export] Instance ram_laws : BlockDevLaws ram_disk.
Proof.
  refine {| blk_ok := ram_ok; blk_count d := Z.of_nat (length d); blk_page := ram_page |}.
  - intros b [? _]. lia.
  - apply ram_page_ok.
  - done.
  - intros b buf len n Hok Hn Hlen Hbuf. exists b. split; [|done].
    destruct Hok as [Hc _]. simpl. unfold ram_read, ram_page. rewrite decide_True by lia.
    destruct (n >? MAX_BLOCK) eqn:E; [lia|].
    by destruct (lookup_lt_is_Some_2 b (Z.to_nat n)) as [p ->]; [lia|].
  - intros b buf len n [Hc Hp] Hn Hlen Hbuf Hok. simpl. unfold ram_write.
    destruct (n >? MAX_BLOCK) eqn:E; [lia|].
    destruct (lookup_lt_is_Some_2 b (Z.to_nat n)) as [p Hl]; [lia|]. rewrite Hl.
    eexists. split; [done|]. rewrite length_insert. split; [split|].
    + by rewrite length_insert.
    + apply Forall_insert; [done|]. auto using length_page_of, page_of_ok.
    + split; [done|]. intros k. by apply ram_page_insert.
  - intros b buf len n Hn. simpl. unfold ram_read. by destruct (n >? MAX_BLOCK) eqn:E; [|lia].
  - intros b buf len n Hn. simpl. unfold ram_write. by destruct (n >? MAX_BLOCK) eqn:E; [|lia].
Defined.

(** A small formatted disk. *)
Definition blank_disk (n : nat) : ram_disk := replicate n (replicate 512 0xFF).
