(* ===== verification/Hw.v ===== *)
(** * The microcontroller's peripherals as the drivers see them

    Memory-mapped registers are reached through the class [Mmio]: a device
    is an arbitrary automaton that answers reads and absorbs writes.  The
    drivers of the SD card and of the radio only need a byte-exchange port,
    the class [SpiPort]; an SPI slave (class [SpiSlave]) is the automaton at
    the other end of the wire.  The theorem at the end of [SdSpi.v] connects
    the two. *)

From S2P Require Import Prelude.
From Stdlib Require Import ZArith Lia.
From stdpp Require Import base numbers list.
Open Scope Z_scope.

(** ** Registers *)

(** The registers the sources touch, named as in [LPC17xx.h]; the interrupt
    controller's arrays are indexed. *)
Inductive reg : Type :=
  | SC_SCS | SC_PLL0CON | SC_PLL0CFG | SC_PLL0STAT | SC_PLL0FEED
  | SC_CCLKCFG | SC_CLKSRCSEL | SC_PCONP | SC_PCLKSEL0 | SC_PCON
  | SC_EXTINT | SC_EXTMODE | SC_EXTPOLAR
  | PINSEL0 | PINSEL1 | PINSEL4
  | GPIO0_FIODIR | GPIO0_FIOSET | GPIO0_FIOCLR
  | GPIO2_FIODIR | GPIO2_FIOSET | GPIO2_FIOCLR
  | SSP0_CR0 | SSP0_CR1 | SSP0_DR | SSP0_SR | SSP0_CPSR | SSP0_IMSC
  | SSP1_CR0 | SSP1_CR1 | SSP1_DR | SSP1_SR | SSP1_CPSR | SSP1_IMSC | SSP1_MIS
  | TIM0_IR | TIM0_TCR | TIM0_PR | TIM0_MCR | TIM0_MR0
  | TIM2_IR | TIM2_TCR | TIM2_PR | TIM2_MCR | TIM2_MR0
  | TIM3_TCR | TIM3_TC | TIM3_PR | TIM3_PC
  | RIT_RICTRL | RIT_RIMASK | RIT_RICOMPVAL
  | SCB_SCR
  | NVIC_ISER (i : nat) | NVIC_ICER (i : nat) | NVIC_IP (i : nat).

#[export] Instance reg_eq_dec : EqDecision reg.
Proof. solve_decision. Defined.

Class Mmio (D : Type) : Type := {
  mmio_read : reg → D → Z * D;
  mmio_write : reg → Z → D → D;
}.

Section Registers.
Context {D : Type} `{Mmio D}.

Definition reg_read (r : reg) : M D Z := λ d, Ok (mmio_read r d).
Definition reg_write (r : reg) (v : Z) : M D unit := λ d, Ok (tt, mmio_write r (u32 v) d).

(** [R |= m] and [R &= m]: a read followed by a write. *)
Definition reg_or (r : reg) (m : Z) : M D unit := v ← reg_read r; reg_write r (Z.lor v m).
Definition reg_and (r : reg) (m : Z) : M D unit := v ← reg_read r; reg_write r (Z.land v m).

(** [core_cm3.h], for device interrupts (non-negative numbers). *)
Definition NVIC_EnableIRQ (irq : nat) : M D unit :=
  reg_write (NVIC_ISER (irq / 32)%nat) (Z.shiftl 1 (Z.land (Z.of_nat irq) 0x1F)).
Definition NVIC_DisableIRQ (irq : nat) : M D unit :=
  reg_write (NVIC_ICER (irq / 32)%nat) (Z.shiftl 1 (Z.land (Z.of_nat irq) 0x1F)).
Definition NVIC_SetPriority (irq : nat) (priority : Z) : M D unit :=
  reg_write (NVIC_IP irq) (Z.land (Z.shiftl priority (8 - 5)) 0xFF).
End Registers.

Definition TIMER2_IRQn : nat := 3.
Definition SSP1_IRQn : nat := 15.
Definition EINT1_IRQn : nat := 19.
Definition RIT_IRQn : nat := 29.

(** SSP status register bits. *)
Definition SSPSR_RNE : Z := Z.shiftl 1 2.
Definition SSPSR_BSY : Z := Z.shiftl 1 4.
Definition SSPCR1_SSE : Z := Z.shiftl 1 1.
Definition SSPIMSC_RORIM : Z := Z.shiftl 1 0.
Definition SSPIMSC_RTIM : Z := Z.shiftl 1 1.
Definition FIFOSIZE : nat := 8.

(** A recording device: memory-like registers and a log of the writes, used
    to evaluate start-up sequences. *)
Record recorder : Type := Recorder {
  rec_regs : reg → Z;
  rec_log : list (reg * Z);
}.
#[export] Instance recorder_mmio : Mmio recorder := {
  mmio_read r d := (rec_regs d r, d);
  mmio_write r v d :=
    Recorder (λ r', if decide (r' = r) then v else rec_regs d r') (rec_log d ++ [(r, v)]);
}.

(** ** Byte exchange *)

(** What a driver asks of its SPI port: exchange an octet, move the slave
    select line. *)
Class SpiPort (P : Type) : Type := {
  spi_xfer : Z → M P Z;
  spi_enable : M P unit;
  spi_disable : M P unit;
}.

(** The slave on the wire. *)
Class SpiSlave (D : Type) : Type := {
  slave_xfer : Z → D → Z * D;
  slave_select : D → D;
  slave_deselect : D → D;
}.

(** A slave seen through a working port. *)
#[export] Instance slave_port D `{SpiSlave D} : SpiPort D := {
  spi_xfer b := λ d, Ok (slave_xfer b d);
  spi_enable := λ d, Ok (tt, slave_select d);
  spi_disable := λ d, Ok (tt, slave_deselect d);
}.

Section Exchange.
Context {D : Type} `{SpiSlave D}.

(** A run of exchanges: the octets received and the slave afterwards. *)
Fixpoint exchange (out : list Z) (d : D) : list Z * D :=
  match out with
  | [] => ([], d)
  | b :: out =>
     let '(r, d) := slave_xfer b d in let '(l, d) := exchange out d in (r :: l, d)
  end.

Lemma exchange_app l k d :
  exchange (l ++ k) d =
  let '(r, d1) := exchange l d in let '(r', d2) := exchange k d1 in (r ++ r', d2).
Proof.
  revert d. induction l as [|b l IH]; intros d; simpl.
  { by destruct (exchange k d). }
  destruct (slave_xfer b d) as [r d1]. rewrite IH.
  destruct (exchange l d1) as [rs d2]. by destruct (exchange k d2).
Qed.

Lemma length_exchange l d : length (exchange l d).1 = length l.
Proof.
  revert d. induction l as [|b l IH]; intros d; simpl; [done|].
  destruct (slave_xfer b d) as [r d1]. specialize (IH d1).
  destruct (exchange l d1). simpl in *. by rewrite IH.
Qed.

(** Reading [n] octets by sending a filler is one exchange. *)
Lemma for_collect_exchange n b d :
  for_collect n (spi_xfer b) d = Ok (exchange (replicate n b) d).
Proof.
  revert d. induction n as [|n IH]; intros d; [done|].
  simpl for_collect. rewrite bind_unfold. simpl. destruct (slave_xfer b d) as [r d1].
  rewrite bind_unfold, IH. by destruct (exchange (replicate n b) d1).
Qed.

(** Sending a list of octets and ignoring the answers. *)
Definition send_all (l : list Z) : M D unit := λ d, Ok (tt, (exchange l d).2).
End Exchange.
