(* ===== verification/SdSpi.v ===== *)
(** * The SSP port of the SD card ([src/memory/sd_spi.c])

    Register-level start-up and octet exchange, and the refinement of the
    busy-waiting exchange to a transfer with the slave on the wire. *)

From S2P Require Import Prelude Hw.
From Stdlib Require Import ZArith Lia.
From stdpp Require Import base numbers list.
Open Scope Z_scope.

Section SspExchange.
Context {D : Type} `{Mmio D}.

(** [DR = data; while ((SR & (BSY|RNE)) != RNE); return DR;] — the sequence
    [SPI_Write] and [rf212_xfer] share, for one SSP block. *)
Definition ssp_exchange (dr sr : reg) (fuel : nat) (data : Z) : M D Z :=
  reg_write dr data;;
  poll fuel (v ← reg_read sr;
             mret (Z.land v (Z.lor SSPSR_BSY SSPSR_RNE) =? SSPSR_RNE));;
  v ← reg_read dr; mret (u8 v).

Definition SPI_Write (fuel : nat) (data : Z) : M D Z := ssp_exchange SSP1_DR SSP1_SR fuel data.

(** Slave select, P0[6], active low. *)
Definition SD_SPI_ENABLE : M D unit := reg_write GPIO0_FIOCLR (Z.shiftl 1 6).
Definition SD_SPI_DISABLE : M D unit := reg_write GPIO0_FIOSET (Z.shiftl 1 6).

Definition SPI_Init : M D unit :=
  reg_or SC_PCONP (Z.shiftl 1 10);;
  reg_or SC_PCLKSEL0 (Z.shiftl 1 20);;
  reg_and PINSEL0 (unot 32 (Z.shiftl 3 14));;
  reg_or PINSEL0 (Z.shiftl 2 14);;
  reg_and PINSEL0 (unot 32 (Z.shiftl 3 16));;
  reg_or PINSEL0 (Z.shiftl 2 16);;
  reg_and PINSEL0 (unot 32 (Z.shiftl 3 18));;
  reg_or PINSEL0 (Z.shiftl 2 18);;
  reg_and PINSEL0 (unot 32 (Z.shiftl 3 12));;
  reg_or GPIO0_FIODIR (Z.shiftl 1 6);;
  reg_write SSP1_CR0 0x0707;;
  reg_write SSP1_CPSR 0x2;;
  for_range 0 FIFOSIZE (λ _, reg_read SSP1_DR;; mret tt);;
  NVIC_EnableIRQ SSP1_IRQn;;
  reg_write SSP1_CR1 SSPCR1_SSE;;
  reg_write SSP1_IMSC (Z.lor SSPIMSC_RORIM SSPIMSC_RTIM);;
  SD_SPI_DISABLE.

(** An unknown frequency only prints a message. *)
Definition SPI_Frequency (frequency : Z) : M D unit :=
  if frequency =? 1000000 then
    reg_write SSP1_CR0 0x0107;; reg_write SSP1_CPSR 50
  else if frequency =? 100000 then
    reg_write SSP1_CR0 0x0307;; reg_write SSP1_CPSR 250
  else mret tt.

Definition SSP1_IRQHandler : M D unit := reg_read SSP1_MIS;; mret tt.
End SspExchange.

(** ** The SSP block as the user manual describes it

    [ssp_peer] is the slave, [ssp_rx] the received octet waiting in the data
    register, [ssp_busy] the number of status reads that still report a
    transfer in progress. *)
Class SspWired (D P : Type) `{Mmio D} `{SpiSlave P} (dr sr : reg) : Type := {
  ssp_peer : D → P;
  ssp_rx : D → option Z;
  ssp_busy : D → nat;
  ssp_write_dr : ∀ b d,
    is_u8 b → ssp_rx d = None →
    let d' := mmio_write dr b d in
    ssp_rx d' = Some (slave_xfer b (ssp_peer d)).1 ∧
    ssp_peer d' = (slave_xfer b (ssp_peer d)).2 ∧
    is_u8 (slave_xfer b (ssp_peer d)).1;
  ssp_read_sr : ∀ d r,
    ssp_rx d = Some r →
    let v := (mmio_read sr d).1 in let d' := (mmio_read sr d).2 in
    (Z.land v (Z.lor SSPSR_BSY SSPSR_RNE) = SSPSR_RNE ↔ ssp_busy d = O) ∧
    ssp_busy d' = pred (ssp_busy d) ∧ ssp_rx d' = Some r ∧ ssp_peer d' = ssp_peer d;
  ssp_read_dr : ∀ d r,
    ssp_rx d = Some r → ssp_busy d = O →
    let v := (mmio_read dr d).1 in let d' := (mmio_read dr d).2 in
    v = r ∧ ssp_rx d' = None ∧ ssp_peer d' = ssp_peer d;
}.

Section Refinement.
Context {D P : Type} `{Mmio D} `{SpiSlave P} (dr sr : reg) `{!SspWired D P dr sr}.

(** The wait ends once the transfer does. *)
Lemma ssp_poll fuel d r :
  ssp_rx (dr:=dr) (sr:=sr) d = Some r → (ssp_busy (dr:=dr) (sr:=sr) d < fuel)%nat →
  ∃ d', poll fuel (v ← reg_read sr;
               mret (Z.land v (Z.lor SSPSR_BSY SSPSR_RNE) =? SSPSR_RNE)) d = Ok (tt, d') ∧
    ssp_rx (dr:=dr) (sr:=sr) d' = Some r ∧ ssp_busy (dr:=dr) (sr:=sr) d' = O ∧
    ssp_peer (dr:=dr) (sr:=sr) d' = ssp_peer (dr:=dr) (sr:=sr) d.
Proof.
  revert d. induction fuel as [|fuel IH]; intros d Hrx Hb; [lia|].
  destruct (ssp_read_sr d r Hrx) as (Hiff & Hb' & Hrx' & Hp').
  simpl poll. rewrite !bind_unfold. unfold reg_read.
  destruct (mmio_read sr d) as [v d1] eqn:E. simpl in *.
  destruct (Z.eqb_spec (Z.land v (Z.lor SSPSR_BSY SSPSR_RNE)) SSPSR_RNE) as [Heq|Hne].
  - apply Hiff in Heq. exists d1. rewrite Hb', Heq. done.
  - assert (ssp_busy (dr:=dr) (sr:=sr) d ≠ O) by tauto.
    destruct (IH d1 Hrx') as (d' & ? & ? & ? & Hp); [lia|].
    exists d'. by rewrite <-Hp'.
Qed.

(** The register sequence is one transfer with the slave. *)
Lemma ssp_exchange_spec fuel b d :
  is_u8 b → ssp_rx (dr:=dr) (sr:=sr) d = None →
  (ssp_busy (dr:=dr) (sr:=sr) (mmio_write dr b d) < fuel)%nat →
  ∃ r d', ssp_exchange dr sr fuel b d = Ok (r, d') ∧
    slave_xfer b (ssp_peer (dr:=dr) (sr:=sr) d) = (r, ssp_peer (dr:=dr) (sr:=sr) d') ∧
    ssp_rx (dr:=dr) (sr:=sr) d' = None.
Proof.
  intros Hb Hidle Hfuel. destruct (ssp_write_dr b d Hb Hidle) as (Hrx & Hp & Hr).
  unfold ssp_exchange. rewrite bind_unfold. unfold reg_write at 1.
  assert (u32 b = b) as -> by (apply u32_small; unfold is_u8, is_u32 in *; lia).
  destruct (ssp_poll fuel _ _ Hrx Hfuel) as (d1 & Hpoll & Hrx1 & Hb1 & Hp1).
  rewrite (bind_ok _ _ _ _ _ Hpoll). destruct (ssp_read_dr d1 _ Hrx1 Hb1) as (Hv & Hrx2 & Hp2).
  rewrite bind_unfold. unfold reg_read. destruct (mmio_read dr d1) as [v d2]. simpl in *. subst v.
  eexists _, d2. split; [done|]. rewrite u8_small by done.
  rewrite Hp2, Hp1, Hp. split; [apply surjective_pairing|done].
Qed.
End Refinement.

(** ** Properties *)

(** On an SSP block that behaves as the user manual says, [SPI_Write]
    waits for the transfer to end and returns the octet the slave shifted
    out, leaving the receive register empty: one exchange on the wire. *)
Theorem SPI_Write_refines_transfer {D P : Type} `{Mmio D} `{SpiSlave P}
    `{!SspWired D P SSP1_DR SSP1_SR} fuel b d :
  is_u8 b → ssp_rx (dr:=SSP1_DR) (sr:=SSP1_SR) d = None →
  (ssp_busy (dr:=SSP1_DR) (sr:=SSP1_SR) (mmio_write SSP1_DR b d) < fuel)%nat →
  ∃ r d', SPI_Write fuel b d = Ok (r, d') ∧
    slave_xfer b (ssp_peer (dr:=SSP1_DR) (sr:=SSP1_SR) d)
      = (r, ssp_peer (dr:=SSP1_DR) (sr:=SSP1_SR) d') ∧
    ssp_rx (dr:=SSP1_DR) (sr:=SSP1_SR) d' = None.
Proof. apply ssp_exchange_spec. Qed.

(** An SSP block wired to a slave that echoes the previous octet, busy for
    three status reads after each write. *)
Definition echo_slave : SpiSlave Z :=
  {| slave_xfer b prev := (u8 prev, b); slave_select d := d; slave_deselect d := d |}.
#[export] Existing Instance echo_slave.

Record ssp_model : Type := SspModel { sm_prev : Z; sm_rx : option Z; sm_busy : nat }.

#[export] Instance ssp_model_mmio : Mmio ssp_model := {
  mmio_read r d :=
    match r with
    | SSP1_SR =>
        (match sm_busy d with O => SSPSR_RNE | S _ => SSPSR_BSY end,
         SspModel (sm_prev d) (sm_rx d) (pred (sm_busy d)))
    | SSP1_DR => (default 0 (sm_rx d), SspModel (sm_prev d) None (sm_busy d))
    | _ => (0, d)
    end;
  mmio_write r v d :=
    match r with
    | SSP1_DR => SspModel v (Some (u8 (sm_prev d))) 3
    | _ => d
    end;
}.

#[export] Instance ssp_model_wired : SspWired ssp_model Z SSP1_DR SSP1_SR.
Proof.
  refine {| ssp_peer := sm_prev : ssp_model → Z; ssp_rx := sm_rx; ssp_busy := sm_busy |}.
  - intros b d Hb Hd. simpl. auto with cint.
  - intros d r Hr. simpl. split; [by destruct (sm_busy d)|done].
  - intros d r Hr Hb. simpl. by rewrite Hr.
Defined.

Lemma SPI_Write_refines_transfer_witness :
  ∃ r d', SPI_Write 10 0x40 (SspModel 0xFE None 0) = Ok (r, d') ∧
    slave_xfer 0x40 0xFE = (r, sm_prev d') ∧ sm_rx d' = None.
Proof.
  refine (SPI_Write_refines_transfer (D:=ssp_model) (P:=Z) 10 0x40 (SspModel 0xFE None 0) _ _ _); [by_decision|done|simpl; lia].
Defined.
