(* ===== verification/Sd.v ===== *)
(** * The SD card driver ([src/memory/sd.c])

    Commands, single-block reads and writes, card start-up and the decoding
    of the card's size, over any SPI port. *)

From S2P Require Import Prelude Hw SdSpi.
From Stdlib Require Import ZArith Lia.
From stdpp Require Import base numbers list.
Open Scope Z_scope.

Definition SD_COMMAND_TIMEOUT : nat := Z.to_nat 5000.
Definition R1_IDLE_STATE : Z := Z.shiftl 1 0.
Definition R1_ILLEGAL_COMMAND : Z := Z.shiftl 1 2.
Definition SDCARD_FAIL : Z := 0.
Definition SDCARD_V1 : Z := 1.
Definition SDCARD_V2 : Z := 2.

(** The port of the card: the SPI exchange and the clock setting. *)
Class SdPort (P : Type) : Type := {
  sd_port_spi :: SpiPort P;
  sd_frequency : Z → M P unit;
  sd_spi_init : M P unit;
}.

(** The port on the SSP1 registers. *)
Definition ssp1_spi {D} `{Mmio D} (fuel : nat) : SpiPort D :=
  {| spi_xfer := SPI_Write fuel; spi_enable := SD_SPI_ENABLE; spi_disable := SD_SPI_DISABLE |}.
Definition ssp1_port {D} `{Mmio D} (fuel : nat) : SdPort D :=
  {| sd_port_spi := ssp1_spi fuel; sd_frequency := SPI_Frequency;
     sd_spi_init := SPI_Init |}.

(** The driver's variables and its port. *)
Record sd_state (P : Type) : Type := SdState { sd_sectors : Z; sd_cdv : Z; sd_port : P }.
Arguments SdState {P}.
Arguments sd_sectors {P}.
Arguments sd_cdv {P}.
Arguments sd_port {P}.

Section Driver.
Context {P : Type} `{SdPort P} (fuel : nat).

Definition SPI_Write' (b : Z) : M P Z := spi_xfer (u8 b).
Definition on_port {A} (m : M P A) : M (sd_state P) A :=
  lift sd_port (λ p s, SdState (sd_sectors s) (sd_cdv s) p) m.
Definition set_cdv (v : Z) : M (sd_state P) unit :=
  modify (λ s, SdState (sd_sectors s) v (sd_port s)).

(** The six octets of a command. *)
Definition send_frame (cmd arg crc : Z) : M P unit :=
  SPI_Write' (Z.lor 0x40 cmd);;
  SPI_Write' (Z.shiftr arg 24);;
  SPI_Write' (Z.shiftr arg 16);;
  SPI_Write' (Z.shiftr arg 8);;
  SPI_Write' (Z.shiftr arg 0);;
  SPI_Write' crc;; mret tt.

Definition _cmd (cmd arg : Z) : M P Z :=
  spi_enable;;
  send_frame cmd arg 0x95;;
  r ← for_return 0 SD_COMMAND_TIMEOUT (λ _,
    response ← SPI_Write' 0xFF;
    if Z.land response 0x80 =? 0 then
      spi_disable;; SPI_Write' 0xFF;; mret (Some response)
    else mret None);
  match r with
  | Some response => mret response
  | None => spi_disable;; SPI_Write' 0xFF;; mret (-1)
  end.

(** As [_cmd], but the card stays selected after an answer. *)
Definition _cmdx (cmd arg : Z) : M P Z :=
  spi_enable;;
  send_frame cmd arg 0x95;;
  r ← for_return 0 SD_COMMAND_TIMEOUT (λ _,
    response ← SPI_Write' 0xFF;
    if Z.land response 0x80 =? 0 then mret (Some response) else mret None);
  match r with
  | Some response => mret response
  | None => spi_disable;; SPI_Write' 0xFF;; mret (-1)
  end.

Definition _cmd58 : M P Z :=
  let arg := 0 in
  spi_enable;;
  send_frame 58 arg 0x95;;
  r ← for_return 0 SD_COMMAND_TIMEOUT (λ _,
    response ← SPI_Write' 0xFF;
    if Z.land response 0x80 =? 0 then
      o3 ← SPI_Write' 0xFF; o2 ← SPI_Write' 0xFF; o1 ← SPI_Write' 0xFF; o0 ← SPI_Write' 0xFF;
      let _ocr := s32 (Z.lor (Z.lor (Z.lor (Z.shiftl o3 24) (Z.shiftl o2 16))
                              (Z.shiftl o1 8)) (Z.shiftl o0 0)) in
      spi_disable;; SPI_Write' 0xFF;; mret (Some response)
    else mret None);
  match r with
  | Some response => mret response
  | None => spi_disable;; SPI_Write' 0xFF;; mret (-1)
  end.

(** The inner loop of [_cmd8] stores the four trailing octets at subscript
    [i], the number of polls so far, of a five-element array. *)
Fixpoint cmd8_tail (j : nat) (i : Z) (response : list Z) : M P (list Z) :=
  match j with
  | O => mret response
  | S j =>
     b ← SPI_Write' 0xFF; response ← arr_set response i b; cmd8_tail j i response
  end.

Definition _cmd8 : M P Z :=
  spi_enable;;
  SPI_Write' (Z.lor 0x40 8);; SPI_Write' 0x00;; SPI_Write' 0x00;;
  SPI_Write' 0x01;; SPI_Write' 0xAA;; SPI_Write' 0x87;;
  r ← for_return 0 (SD_COMMAND_TIMEOUT * 1000) (λ i,
    r0 ← SPI_Write' 0xFF;
    if Z.land r0 0x80 =? 0 then
      response ← cmd8_tail 4 i [r0; 0; 0; 0; 0];
      spi_disable;; SPI_Write' 0xFF;; mret (Some response.[0])
    else mret None);
  match r with
  | Some response => mret response
  | None => spi_disable;; SPI_Write' 0xFF;; mret (-1)
  end.

(** Returns the status and the buffer. *)
Definition _block_read (buffer : list Z) (length : Z) : M P (Z * list Z) :=
  spi_enable;;
  poll fuel (b ← SPI_Write' 0xFF; mret (b =? 0xFE));;
  (if decide (length ≤ Z.of_nat (List.length buffer)) then mret tt else fault);;
  data ← for_collect (Z.to_nat length) (SPI_Write' 0xFF);
  for_range length (Z.to_nat (512 - length)) (λ _, SPI_Write' 0xFF;; mret tt);;
  SPI_Write' 0xFF;;
  SPI_Write' 0xFF;;
  spi_disable;;
  SPI_Write' 0xFF;;
  mret (0, data ++ drop (Z.to_nat length) buffer).

Definition _block_write (buffer : list Z) (length : Z) : M P Z :=
  spi_enable;;
  SPI_Write' 0xFE;;
  (if decide (length ≤ Z.of_nat (List.length buffer)) then mret tt else fault);;
  for_range 0 (Z.to_nat length) (λ i, SPI_Write' buffer.[Z.to_nat i];; mret tt);;
  for_range length (Z.to_nat (512 - length)) (λ _, SPI_Write' 0xFF;; mret tt);;
  SPI_Write' 0xFF;;
  SPI_Write' 0xFF;;
  token ← SPI_Write' 0xFF;
  if negb (Z.land token 0x1F =? 0x05) then
    spi_disable;; SPI_Write' 0xFF;; mret 1
  else
    poll fuel (b ← SPI_Write' 0xFF; mret (negb (b =? 0)));;
    spi_disable;;
    SPI_Write' 0xFF;;
    mret 0.

(** Returns the status and the buffer. *)
Definition disk_read (buffer : list Z) (length block_number : Z) : M (sd_state P) (Z * list Z) :=
  if length >? 512 then mret (0, buffer)
  else if block_number >? 0x007FFFFF then mret (0, buffer)
  else
    r ← on_port (_cmd 17 (s32 (block_number * 512)));
    if negb (r =? 0) then mret (1, buffer)
    else
      '(_, buffer) ← on_port (_block_read buffer length);
      mret (0, buffer).

Definition disk_write (buffer : list Z) (length block_number : Z) : M (sd_state P) Z :=
  if length >? 512 then mret 0
  else if block_number >? 0x007FFFFF then mret 0
  else
    r ← on_port (_cmd 24 (s32 (block_number * 512)));
    if negb (r =? 0) then mret 1
    else on_port (_block_write buffer length);; mret 0.

Definition disk_status : Z := 0.
Definition disk_sync : Z := 0.
Definition disk_sectors : M (sd_state P) Z := gets sd_sectors.

(** [data] is the 16-octet CSD register; bit 0 is the last bit of its last
    octet. *)
Definition ext_bits (data : list Z) (msb lsb : Z) : Z :=
  let size := u32 (1 + msb - lsb) in
  fold_left (λ bits i,
    let position := u32 (lsb + Z.of_nat i) in
    let byte := u32 (15 - Z.shiftr position 3) in
    let bit := Z.land position 0x7 in
    let value := Z.land (Z.shiftr data.[Z.to_nat byte] bit) 1 in
    Z.lor bits (u32 (Z.shiftl value (Z.of_nat i))))
    (seq 0 (Z.to_nat size)) 0.

Definition _sd_sectors : M (sd_state P) Z :=
  r ← on_port (_cmdx 9 0);
  if negb (r =? 0) then mret 0
  else
    '(r, csd) ← on_port (_block_read (replicate 16 0) 16);
    if negb (r =? 0) then mret 0
    else
      let csd_structure := ext_bits csd 127 126 in
      if csd_structure =? 0 then
        set_cdv 512;;
        let c_size := ext_bits csd 73 62 in
        let c_size_mult := ext_bits csd 49 47 in
        let read_bl_len := ext_bits csd 83 80 in
        let block_len := u32 (Z.shiftl 1 read_bl_len) in
        let mult := u32 (Z.shiftl 1 (c_size_mult + 2)) in
        let blocknr := u32 ((c_size + 1) * mult) in
        let capacity := u32 (blocknr * block_len) in
        mret (capacity / 512)
      else if csd_structure =? 1 then
        set_cdv 1;;
        let hc_c_size := ext_bits csd 63 48 in
        mret (u32 ((hc_c_size + 1) * 1024))
      else mret 0.

Definition initialise_card_v1 : M (sd_state P) Z :=
  r ← for_return 0 SD_COMMAND_TIMEOUT (λ _,
    on_port (_cmd 55 0);;
    r ← on_port (_cmd 41 0);
    if r =? 0 then set_cdv 512;; mret (Some SDCARD_V1) else mret None);
  mret (default SDCARD_FAIL r).

Definition initialise_card_v2 : M (sd_state P) Z :=
  r ← for_return 0 SD_COMMAND_TIMEOUT (λ _,
    on_port _cmd58;;
    on_port (_cmd 55 0);;
    r ← on_port (_cmd 41 0x40000000);
    if r =? 0 then on_port _cmd58;; set_cdv 1;; mret (Some SDCARD_V2) else mret None);
  mret (default SDCARD_FAIL r).

(** [for (i = 0; _cmd(0, 0) != R1_IDLE_STATE && i < 5; i++);] with [n = 5 - i]. *)
Fixpoint cmd0_loop (n : nat) (i : Z) : M P Z :=
  r ← _cmd 0 0;
  if r =? R1_IDLE_STATE then mret i
  else match n with O => mret i | S n => cmd0_loop n (i + 1) end.

Definition initialise_card : M (sd_state P) Z :=
  on_port (sd_frequency 100000);;
  on_port spi_disable;;
  for_range 0 16 (λ _, on_port (SPI_Write' 0xFF);; mret tt);;
  i ← on_port (cmd0_loop 5 0);
  if i =? 5 then mret SDCARD_FAIL
  else
    r ← on_port _cmd8;
    if r =? R1_IDLE_STATE then initialise_card_v2
    else if r =? Z.lor R1_IDLE_STATE R1_ILLEGAL_COMMAND then initialise_card_v1
    else mret SDCARD_FAIL.

Definition disk_initialize : M (sd_state P) Z :=
  initialise_card;;
  n ← _sd_sectors;
  modify (λ s, SdState n (sd_cdv s) (sd_port s));;
  r ← on_port (_cmd 16 512);
  if negb (r =? 0) then mret 1
  else on_port (sd_frequency 1000000);; mret 0.
End Driver.
