(* ===== verification/SdCard.v ===== *)
(** * The SD card driver implements the block device interface

    [SdCard] states the behaviour of a card in SPI mode that the driver
    relies on: how commands 17 and 24 are answered, how a block is framed.
    With it, [disk_read] and [disk_write] of [Sd.v] satisfy the laws of
    [BlockDev.v].  [card_model] is a card that satisfies the class. *)

From S2P Require Import Prelude BlockDev Hw SdSpi Sd.
From Stdlib Require Import ZArith Lia.
From stdpp Require Import base numbers list.
Open Scope Z_scope.

#[export] Instance slave_sd_port D `{SpiSlave D} : SdPort D :=
  {| sd_port_spi := slave_port D; sd_frequency _ := mret tt; sd_spi_init := mret tt |}.

(** The octets of a command, as the SD specification lays them out. *)
Definition frame (cmd a : Z) : list Z :=
  [0x40 + cmd; u8 (a / 2 ^ 24); u8 (a / 2 ^ 16); u8 (a / 2 ^ 8); u8 a; 0x95].

Section Conversation.
Context {D : Type} `{SpiSlave D}.

(** The card answers a command with [r] after some filler octets. *)
Definition answers (d : D) (noise : list Z) (r : Z) (d' : D) : Prop :=
  exchange (replicate (S (length noise)) 0xFF) d = (noise ++ [r], d') ∧
  Forall (λ b, Z.land b 0x80 ≠ 0) noise ∧ Z.land r 0x80 = 0.

Lemma exchange_cons b l d :
  exchange (b :: l) d =
  let '(r, d1) := slave_xfer b d in let '(rs, d2) := exchange l d1 in (r :: rs, d2).
Proof. done. Qed.

Lemma xfer_ok b d : SPI_Write' b d = Ok (slave_xfer (u8 b) d).
Proof. done. Qed.

Lemma u8_shiftr_s32 a k : 0 ≤ k ≤ 24 → u8 (Z.shiftr (s32 a) k) = u8 (a / 2 ^ k).
Proof.
  intros Hk. unfold u8. rewrite <-Z.shiftr_div_pow2 by lia.
  apply Z.bits_inj'. intros i Hi. rewrite !mod_pow2_testbit, !Z.shiftr_spec by lia.
  case_bool_decide; [|done]. simpl. unfold s32, sint.
  replace ((a + 2 ^ (32 - 1)) mod 2 ^ 32 - 2 ^ (32 - 1))
    with (a + (- ((a + 2 ^ 31) / 2 ^ 32)) * 2 ^ 32).
  2: { pose proof (Z.div_mod (a + 2 ^ 31) (2 ^ 32) ltac:(lia)).
       change (32 - 1) with 31. lia. }
  set (q := - ((a + 2 ^ 31) / 2 ^ 32)).
  rewrite <-(Z.mod_pow2_bits_low (a + q * 2 ^ 32) 32), Z.mod_add by lia.
  by rewrite Z.mod_pow2_bits_low by lia.
Qed.

Lemma send_frame_ok cmd a crc d :
  0 ≤ cmd < 0x40 → crc = 0x95 →
  send_frame cmd (s32 a) crc d = Ok (tt, (exchange (frame cmd a) d).2).
Proof.
  intros Hc ->. unfold send_frame, frame.
  assert (u8 (Z.lor 64 cmd) = 64 + cmd) as E.
  { rewrite Z.lor_comm. pose proof (lor_add_disjoint cmd 1 6 ltac:(lia) ltac:(lia)) as E.
    change (Z.shiftl 1 6) with 64 in E. rewrite E, u8_small by cint. lia. }
  rewrite <-E. rewrite <-(u8_shiftr_s32 a 24), <-(u8_shiftr_s32 a 16), <-(u8_shiftr_s32 a 8) by lia.
  replace (u8 a) with (u8 (Z.shiftr (s32 a) 0))
    by (rewrite u8_shiftr_s32 by lia; by rewrite Z.div_1_r).
  simpl exchange. do 5 (rewrite bind_unfold, xfer_ok; destruct (slave_xfer _ _)).
  rewrite bind_unfold, xfer_ok. change (u8 0x95) with 0x95. by destruct (slave_xfer _ _).
Qed.

(** Deselecting the card and clocking it once more. *)
Lemma close_ok {R} (v : R) d :
  (spi_disable;; SPI_Write' 0xFF;; mret v : M D R) d
  = Ok (v, (slave_xfer 0xFF (slave_deselect d)).2).
Proof.
  rewrite bind_unfold. simpl. rewrite bind_unfold, xfer_ok. change (u8 0xFF) with 0xFF.
  by destruct (slave_xfer 0xFF (slave_deselect d)).
Qed.

(** Waiting for an answer with a loop of at most [n] polls, and what the
    driver then does ([K], given the loop counter and the answer). *)
Lemma wait_answer_at {R} (K : Z → Z → M D (option R)) lo n d noise r d' :
  answers d noise r d' → (length noise < n)%nat →
  (∀ s, K (lo + Z.of_nat (length noise)) r d' ≠ Ok (None, s)) →
  for_return lo n (λ i,
    response ← SPI_Write' 0xFF;
    if Z.land response 0x80 =? 0 then K i response else mret None) d
  = K (lo + Z.of_nat (length noise)) r d'.
Proof.
  intros (Hex & Hn & Hr). revert lo n d Hex. induction Hn as [|b noise Hb Hn IH];
    intros lo n d Hex Hlt HK; (destruct n as [|n]; [simpl in Hlt; lia|]); simpl for_return.
  - simpl in Hex. rewrite !bind_unfold, xfer_ok.
    change (u8 0xFF) with 0xFF. destruct (slave_xfer 0xFF d) as [b d1]. simplify_eq.
    rewrite Hr. simpl in *. rewrite Z.add_0_r in *.
    destruct (K lo r d') as [[[v|] s]| |] eqn:E; naive_solver.
  - rewrite !bind_unfold, xfer_ok. change (u8 0xFF) with 0xFF.
    simpl length in Hex. simpl replicate in Hex. rewrite exchange_cons in Hex.
    destruct (slave_xfer 0xFF d) as [b' d1].
    destruct (exchange (0xFF :: replicate (length noise) 0xFF) d1) as [rs d2] eqn:E.
    simpl in Hex. simplify_eq. destruct (Z.eqb_spec (Z.land b 0x80) 0); [done|]. simpl in *.
    replace (lo + Z.of_nat (S (length noise))) with (lo + 1 + Z.of_nat (length noise)) in *
      by lia.
    apply IH; [done|lia|done].
Qed.

Lemma wait_answer {R} (K : Z → M D (option R)) lo n d noise r d' v d'' :
  answers d noise r d' → (length noise < n)%nat → K r d' = Ok (Some v, d'') →
  for_return lo n (λ _,
    response ← SPI_Write' 0xFF;
    if Z.land response 0x80 =? 0 then K response else mret None) d
  = Ok (Some v, d'').
Proof.
  intros Ha Hn HK. rewrite <-HK. apply (wait_answer_at (λ _, K) lo n d noise); [done..|].
  intros s. by rewrite HK.
Qed.

(** A command that the card answers. *)
Lemma _cmd_answered cmd a d noise r d' :
  0 ≤ cmd < 0x40 →
  answers (exchange (frame cmd a) (slave_select d)).2 noise r d' →
  (length noise < SD_COMMAND_TIMEOUT)%nat →
  _cmd cmd (s32 a) d = Ok (r, (slave_xfer 0xFF (slave_deselect d')).2).
Proof.
  intros Hc Ha Hn. unfold _cmd. rewrite bind_unfold. simpl spi_enable. cbv beta iota.
  rewrite (bind_ok _ _ _ _ _ (send_frame_ok cmd a 0x95 (slave_select d) Hc eq_refl)).
  rewrite (bind_ok _ _ _ _ _ (wait_answer _ 0 SD_COMMAND_TIMEOUT _ _ _ _ _ _ Ha Hn
    (close_ok (Some r) d'))).
  done.
Qed.
(** Waiting with [poll] for an octet that satisfies [ready]. *)
Lemma wait_octet (ready : Z → bool) fuel d gap b d' :
  exchange (replicate (S (length gap)) 0xFF) d = (gap ++ [b], d') →
  Forall (λ x, ready x = false) gap → ready b = true → (length gap < fuel)%nat →
  poll fuel (x ← SPI_Write' 0xFF; mret (ready x)) d = Ok (tt, d').
Proof.
  intros Hex Hg Hb. revert fuel d Hex. induction Hg as [|g gap Hx Hg IH];
    intros fuel d Hex Hlt; (destruct fuel as [|fuel]; [simpl in Hlt; lia|]); simpl poll;
    rewrite !bind_unfold, xfer_ok; change (u8 0xFF) with 0xFF.
  - simpl in Hex. destruct (slave_xfer 0xFF d). simplify_eq. simpl. by rewrite Hb.
  - simpl length in Hex. simpl replicate in Hex. rewrite exchange_cons in Hex.
    destruct (slave_xfer 0xFF d) as [g' d1].
    destruct (exchange (0xFF :: replicate (length gap) 0xFF) d1) as [rs d2] eqn:E.
    simpl in Hex. simplify_eq. simpl. rewrite Hx. apply IH; [done|simpl in Hlt; lia].
Qed.

Lemma xfer_exchange b d : (slave_xfer b d).2 = (exchange [b] d).2.
Proof. simpl. by destruct (slave_xfer b d). Qed.

(** Reading [n] octets. *)
Lemma read_octets n d :
  for_collect n (SPI_Write' 0xFF) d = Ok (exchange (replicate n 0xFF) d).
Proof. exact (for_collect_exchange n 0xFF d). Qed.

(** Sending [n] filler octets. *)
Lemma send_filler lo n d :
  for_range lo n (λ _, SPI_Write' 0xFF;; mret tt) d
  = Ok (tt, (exchange (replicate n 0xFF) d).2).
Proof.
  revert lo d. induction n as [|n IH]; intros lo d; [done|].
  simpl. rewrite !bind_unfold, xfer_ok. change (u8 0xFF) with 0xFF.
  destruct (slave_xfer 0xFF d) as [r d1]. simpl. rewrite IH.
  by destruct (exchange (replicate n 0xFF) d1).
Qed.

(** Sending the first [n] octets of a buffer. *)
Lemma send_buffer buf k n d :
  bytes_ok buf → (k + n ≤ length buf)%nat →
  for_range (Z.of_nat k) n (λ i, SPI_Write' buf.[Z.to_nat i];; mret tt) d
  = Ok (tt, (exchange (take n (drop k buf)) d).2).
Proof.
  intros Hok. revert k d. induction n as [|n IH]; intros k d Hk; [done|].
  destruct (lookup_lt_is_Some_2 buf k ltac:(lia)) as [x Hx].
  simpl for_range. rewrite !bind_unfold, xfer_ok, Nat2Z.id, (octet_lookup buf k x Hx).
  rewrite (u8_small x) by by apply (Forall_lookup_1 _ _ _ _ Hok Hx).
  rewrite (drop_S buf x k Hx). simpl. destruct (slave_xfer x d) as [r d1]. simpl.
  replace (Z.of_nat k + 1) with (Z.of_nat (S k)) by lia. rewrite IH by lia.
  by destruct (exchange (take n (drop (S k) buf)) d1).
Qed.

Lemma exchange_app_2 l k d : (exchange (l ++ k) d).2 = (exchange k (exchange l d).2).2.
Proof.
  rewrite exchange_app. destruct (exchange l d) as [r d1]. simpl. by destruct (exchange k d1).
Qed.

(** A framed block that the card sends is what the buffer receives. *)
Lemma _block_read_framed fuel buf len d gap page crc d' :
  0 ≤ len ≤ 512 → len ≤ Z.of_nat (length buf) → length page = 512%nat → length crc = 2%nat →
  exchange (replicate (length gap + 1 + 512 + 2) 0xFF) (slave_select d)
    = (gap ++ 0xFE :: page ++ crc, d') →
  Forall (λ b, b ≠ 0xFE) gap → (length gap < fuel)%nat →
  _block_read fuel buf len d =
  Ok ((0, take (Z.to_nat len) page ++ drop (Z.to_nat len) buf),
      (slave_xfer 0xFF (slave_deselect d')).2).
Proof.
  intros Hlen Hbuf Hpage Hcrc Hex Hgap Hfuel. unfold _block_read.
  rewrite bind_unfold. simpl spi_enable. cbv beta iota.
  replace (length gap + 1 + 512 + 2)%nat
    with (S (length gap) + (Z.to_nat len + (Z.to_nat (512 - len) + 2)))%nat in Hex by lia.
  rewrite !replicate_add, exchange_app in Hex.
  destruct (exchange (replicate (S (length gap)) 0xFF) (slave_select d)) as [r1 d1] eqn:E1.
  destruct (exchange (replicate (Z.to_nat len) 0xFF) d1) as [r2 d2] eqn:E2.
  destruct (exchange (replicate (Z.to_nat (512 - len)) 0xFF) d2) as [r3 d3] eqn:E3.
  destruct (exchange (replicate 2 0xFF) d3) as [r4 d4] eqn:E4.
  pose proof (length_exchange (replicate (S (length gap)) 0xFF) (slave_select d)) as L1.
  pose proof (length_exchange (replicate (Z.to_nat len) 0xFF) d1) as L2.
  pose proof (length_exchange (replicate (Z.to_nat (512 - len)) 0xFF) d2) as L3.
  rewrite E1 in L1. rewrite E2 in L2. rewrite E3 in L3.
  rewrite length_replicate in L1, L2, L3. simpl in L1, L2, L3.
  rewrite exchange_app, E2, exchange_app, E3, E4 in Hex. injection Hex as Hr Hd. subst d4.
  change (gap ++ 0xFE :: page ++ crc) with (gap ++ [0xFE] ++ (page ++ crc)) in Hr.
  rewrite (app_assoc gap) in Hr. apply app_inj_1 in Hr as [-> Hr];
    [|rewrite length_app; simpl; lia].
  assert (r2 = take (Z.to_nat len) page) as ->.
  { transitivity (take (Z.to_nat len) (r2 ++ r3 ++ r4)).
    - rewrite take_app_le, take_ge by lia. done.
    - rewrite Hr, take_app_le by lia. done. }
  rewrite (bind_ok _ _ _ _ _ (wait_octet (λ b, b =? 0xFE) fuel _ _ _ _ E1
    (Forall_impl _ _ _ Hgap (λ b Hb, proj2 (Z.eqb_neq _ _) Hb)) eq_refl Hfuel)).
  rewrite decide_True, ret_bind by done.
  rewrite (bind_ok _ _ _ _ _ (eq_trans (read_octets _ _) (f_equal Ok E2))).
  rewrite (bind_ok _ _ _ _ _ (send_filler len _ d2)), E3.
  simpl replicate in E4. rewrite !exchange_cons in E4. simpl exchange in E4.
  rewrite bind_unfold, xfer_ok. change (u8 0xFF) with 0xFF. simpl snd.
  destruct (slave_xfer 0xFF d3) as [c1 d3']. rewrite bind_unfold, xfer_ok.
  change (u8 0xFF) with 0xFF. destruct (slave_xfer 0xFF d3') as [c2 d4]. injection E4 as _ <-.
  apply close_ok.
Qed.

(** The octets [_block_write] sends, and its verdict when the card accepts
    the block and ends its busy signal in time. *)
Lemma _block_write_framed fuel buf len d token d1 busy b d' :
  0 ≤ len ≤ 512 → len ≤ Z.of_nat (length buf) → bytes_ok buf →
  slave_xfer 0xFF (exchange (0xFE :: page_of buf len ++ [0xFF; 0xFF]) (slave_select d)).2
    = (token, d1) →
  Z.land token 0x1F = 0x05 →
  exchange (replicate (S (length busy)) 0xFF) d1 = (busy ++ [b], d') →
  Forall (λ x, x = 0) busy → b ≠ 0 → (length busy < fuel)%nat →
  _block_write fuel buf len d = Ok (0, (slave_xfer 0xFF (slave_deselect d')).2).
Proof.
  intros Hlen Hbuf Hok Htok Ht Hex Hbusy Hb Hfuel. unfold _block_write.
  rewrite bind_unfold. simpl spi_enable. cbv beta iota.
  rewrite bind_unfold, xfer_ok. change (u8 0xFE) with 0xFE.
  rewrite exchange_cons in Htok. destruct (slave_xfer 0xFE (slave_select d)) as [r0 d0].
  destruct (exchange (page_of buf len ++ [0xFF; 0xFF]) d0) as [rs dd] eqn:E. simpl in Htok.
  assert (dd = (exchange (page_of buf len ++ [0xFF; 0xFF]) d0).2) as Hdd by by rewrite E.
  unfold page_of in Hdd. rewrite !exchange_app_2 in Hdd. clear E.
  rewrite decide_True, ret_bind by done.
  pose proof (send_buffer buf 0 (Z.to_nat len) d0 Hok ltac:(lia)) as Hs.
  simpl Z.of_nat in Hs. rewrite drop_0 in Hs.
  rewrite (bind_ok _ _ _ _ _ Hs), (bind_ok _ _ _ _ _ (send_filler _ _ _)).
  revert Hdd. generalize (exchange (replicate (Z.to_nat (512 - len)) 0xFF)
    (exchange (take (Z.to_nat len) buf) d0).2).2. intros e ->. simpl exchange in Htok.
  rewrite bind_unfold, xfer_ok. change (u8 0xFF) with 0xFF.
  destruct (slave_xfer 0xFF e) as [c1 e1]. rewrite bind_unfold, xfer_ok.
  change (u8 0xFF) with 0xFF. destruct (slave_xfer 0xFF e1) as [c2 e2]. simpl snd in Htok.
  rewrite bind_unfold, xfer_ok. change (u8 0xFF) with 0xFF. rewrite Htok, Ht.
  change (negb (5 =? 5)) with false. cbv iota.
  rewrite (bind_ok _ _ _ _ _ (wait_octet (λ b, negb (b =? 0)) fuel _ _ _ _ Hex
    (Forall_impl _ _ _ Hbusy (λ x Hx, f_equal (λ x, negb (x =? 0)) Hx))
    (proj2 (negb_true_iff _) (proj2 (Z.eqb_neq _ _) Hb)) Hfuel)).
  apply close_ok.
Qed.
End Conversation.

(** ** A card in SPI mode

    After the start-up sequence a standard-capacity card, addressed in
    octets, behaves as follows (SD Physical Layer specification, chapter 7). *)
Class SdCard (D : Type) `{SpiSlave D} (fuel : nat) : Type := {
  card_ready : D → Prop;
  card_blocks : D → Z;
  card_page : D → Z → list Z;
  card_blocks_range : ∀ d, card_ready d → 0 ≤ card_blocks d ≤ MAX_BLOCK + 1;
  card_page_ok : ∀ d n,
    card_ready d → 0 ≤ n < card_blocks d →
    length (card_page d n) = 512%nat ∧ bytes_ok (card_page d n);
  (** CMD17: status 0, then a start token, the block and two CRC octets. *)
  card_reads : ∀ d n,
    card_ready d → 0 ≤ n < card_blocks d →
    ∃ noise d1 gap crc d2,
      answers (exchange (frame 17 (n * 512)) (slave_select d)).2 noise 0 d1 ∧
      (length noise < SD_COMMAND_TIMEOUT)%nat ∧
      exchange (replicate (length gap + 1 + 512 + 2) 0xFF)
        (slave_select (slave_xfer 0xFF (slave_deselect d1)).2)
        = (gap ++ 0xFE :: card_page d n ++ crc, d2) ∧
      Forall (λ b, b ≠ 0xFE) gap ∧ (length gap < fuel)%nat ∧ length crc = 2%nat ∧
      let d3 := (slave_xfer 0xFF (slave_deselect d2)).2 in
      card_ready d3 ∧ card_blocks d3 = card_blocks d ∧ ∀ k, card_page d3 k = card_page d k;
  (** CMD24: status 0; a framed block is accepted with token xxx00101, and
      the busy signal (zeros) ends. *)
  card_writes : ∀ d n page,
    card_ready d → 0 ≤ n < card_blocks d → length page = 512%nat → bytes_ok page →
    ∃ noise d1 token d2 busy b d3,
      answers (exchange (frame 24 (n * 512)) (slave_select d)).2 noise 0 d1 ∧
      (length noise < SD_COMMAND_TIMEOUT)%nat ∧
      slave_xfer 0xFF (exchange (0xFE :: page ++ [0xFF; 0xFF])
        (slave_select (slave_xfer 0xFF (slave_deselect d1)).2)).2 = (token, d2) ∧
      Z.land token 0x1F = 0x05 ∧
      exchange (replicate (S (length busy)) 0xFF) d2 = (busy ++ [b], d3) ∧
      Forall (λ x, x = 0) busy ∧ b ≠ 0 ∧ (length busy < fuel)%nat ∧
      let d4 := (slave_xfer 0xFF (slave_deselect d3)).2 in
      card_ready d4 ∧ card_blocks d4 = card_blocks d ∧
      ∀ k, card_page d4 k = if decide (k = n) then page else card_page d k;
}.

#[export] Instance sd_blockdev P `{SdPort P} (fuel : nat) : BlockDev (sd_state P) | 10 := {
  blk_read := disk_read fuel;
  blk_write := disk_write fuel;
  blk_sectors := disk_sectors;
  blk_init := on_port sd_spi_init;; disk_initialize fuel;
}.

Section Refinement.
Context {D : Type} `{SpiSlave D} (fuel : nat) `{!SdCard D fuel}.
Implicit Types s : sd_state D.

Definition sd_ok s : Prop :=
  card_ready (fuel:=fuel) (sd_port s) ∧ sd_sectors s = card_blocks (fuel:=fuel) (sd_port s).

Definition sd_page s (n : Z) : list Z := card_page (fuel:=fuel) (sd_port s) n.

Lemma on_port_ok {A} (m : M D A) s a d :
  m (sd_port s) = Ok (a, d) → on_port m s = Ok (a, SdState (sd_sectors s) (sd_cdv s) d).
Proof. intros E. unfold on_port, lift. by rewrite E. Qed.

Lemma disk_read_ok buf len n s :
  sd_ok s → 0 ≤ n < sd_sectors s → 0 ≤ len ≤ 512 → len ≤ Z.of_nat (length buf) →
  ∃ s', disk_read fuel buf len n s
          = Ok ((0, take (Z.to_nat len) (sd_page s n) ++ drop (Z.to_nat len) buf), s') ∧
    sd_ok s' ∧ sd_sectors s' = sd_sectors s ∧ ∀ k, sd_page s' k = sd_page s k.
Proof.
  intros [Hr Hs] Hn Hlen Hbuf. rewrite Hs in Hn.
  pose proof (card_blocks_range _ Hr). destruct (card_page_ok _ n Hr Hn) as [Hp _].
  destruct (card_reads _ n Hr Hn)
    as (noise & d1 & gap & crc & d2 & Ha & Hnoise & Hex & Hgap & Hf & Hcrc & Hr' & Hc' & Hp').
  unfold disk_read, MAX_BLOCK in *.
  destruct (len >? 512) eqn:E1; [lia|]. destruct (n >? 0x007FFFFF) eqn:E2; [lia|].
  rewrite (bind_ok _ _ _ _ _ (on_port_ok _ s _ _
    (_cmd_answered 17 _ _ _ _ _ ltac:(lia) Ha Hnoise))).
  change (negb (0 =? 0)) with false. cbv iota.
  rewrite (bind_ok _ _ _ _ _ (on_port_ok _ (SdState _ _ _) _ _
    (_block_read_framed fuel buf len _ gap _ crc d2 Hlen Hbuf Hp Hcrc Hex Hgap Hf))).
  eexists. split; [done|]. unfold sd_ok, sd_page. simpl. by rewrite Hc'.
Qed.

Lemma disk_write_ok buf len n s :
  sd_ok s → 0 ≤ n < sd_sectors s → 0 ≤ len ≤ 512 → len ≤ Z.of_nat (length buf) →
  bytes_ok buf →
  ∃ s', disk_write fuel buf len n s = Ok (0, s') ∧
    sd_ok s' ∧ sd_sectors s' = sd_sectors s ∧
    ∀ k, sd_page s' k = if decide (k = n) then page_of buf len else sd_page s k.
Proof.
  intros [Hr Hs] Hn Hlen Hbuf Hok. rewrite Hs in Hn. pose proof (card_blocks_range _ Hr).
  destruct (card_writes _ n (page_of buf len) Hr Hn (length_page_of _ _ Hlen Hbuf)
    (page_of_ok _ _ Hok)) as (noise & d1 & token & d2 & busy & b & d3 & Ha & Hnoise & Htok & Ht
      & Hex & Hbusy & Hb & Hf & Hr' & Hc' & Hp').
  unfold disk_write, MAX_BLOCK in *.
  destruct (len >? 512) eqn:E1; [lia|]. destruct (n >? 0x007FFFFF) eqn:E2; [lia|].
  rewrite (bind_ok _ _ _ _ _ (on_port_ok _ s _ _
    (_cmd_answered 24 _ _ _ _ _ ltac:(lia) Ha Hnoise))).
  change (negb (0 =? 0)) with false. cbv iota.
  rewrite (bind_ok _ _ _ _ _ (on_port_ok _ (SdState _ _ _) _ _
    (_block_write_framed fuel buf len _ token d2 busy b d3 Hlen Hbuf Hok Htok Ht Hex Hbusy Hb Hf))).
  eexists. split; [done|]. unfold sd_ok, sd_page. simpl. by rewrite Hc'.
Qed.

(** The driver on a conforming card is a block device. *)
#[export] Instance sd_laws : @BlockDevLaws (sd_state D) (sd_blockdev D fuel).
Proof.
  refine {| blk_ok := sd_ok : sd_state D → Prop; blk_count := sd_sectors; blk_page := sd_page |}.
  - intros s [Hr ->]. by apply card_blocks_range.
  - intros s n [Hr Hs] Hn. apply card_page_ok; [done|]. by rewrite <-Hs.
  - done.
  - intros. by apply disk_read_ok.
  - intros. by apply disk_write_ok.
  - intros s buf len n Hn. simpl. unfold disk_read, MAX_BLOCK in *.
    destruct (len >? 512); [done|]. by destruct (n >? 0x007FFFFF) eqn:E; [|lia].
  - intros s buf len n Hn. simpl. unfold disk_write, MAX_BLOCK in *.
    destruct (len >? 512); [done|]. by destruct (n >? 0x007FFFFF) eqn:E; [|lia].
Defined.
End Refinement.

(** ** A card that satisfies the class *)

Inductive job : Type := JNone | JRead (n : Z) | JWrite (n : Z).

(** [cm_queue] holds the octets to be shifted out, [cm_got] those of the
    command or block being received. *)
Record card_model : Type := CardModel {
  cm_sel : bool; cm_queue : list Z; cm_got : list Z; cm_job : job; cm_pages : list (list Z);
}.

Definition cm_page (c : card_model) (n : Z) : list Z := ram_page (cm_pages c) n.

(** A complete command: octets 1 to 4 are the address. *)
Definition cm_command (c : card_model) (got : list Z) : card_model :=
  let n := (got.[1] * 2 ^ 24 + got.[2] * 2 ^ 16 + got.[3] * 2 ^ 8 + got.[4]) / 512 in
  let j := if decide (got.[0] = 0x51) then JRead n
           else if decide (got.[0] = 0x58) then JWrite n else JNone in
  CardModel true [0xFF; 0] [] j (cm_pages c).

Definition cm_receive (c : card_model) (b : Z) : card_model :=
  let got := cm_got c ++ [b] in
  match cm_job c with
  | JWrite n =>
      if decide (cm_got c = [] ∧ b ≠ 0xFE) then c
      else if decide (length got = 515%nat) then
        CardModel true [0xE5; 0; 0xFF] [] JNone
          (<[Z.to_nat n := take 512 (drop 1 got)]> (cm_pages c))
      else CardModel true [] got (cm_job c) (cm_pages c)
  | _ =>
      if decide (length got = 6%nat) then cm_command c got
      else CardModel true [] got (cm_job c) (cm_pages c)
  end.

#[export] Instance card_model_slave : SpiSlave card_model := {
  slave_xfer b c :=
    if cm_sel c then
      match cm_queue c with
      | o :: q => (o, CardModel true q (cm_got c) (cm_job c) (cm_pages c))
      | [] => (0xFF, cm_receive c b)
      end
    else (0xFF, c);
  slave_select c :=
    match cm_job c with
    | JRead n => CardModel true (0xFF :: 0xFE :: cm_page c n ++ [0; 0]) [] JNone (cm_pages c)
    | j => CardModel true [] [] j (cm_pages c)
    end;
  slave_deselect c := CardModel false (cm_queue c) (cm_got c) (cm_job c) (cm_pages c);
}.

(** Shifting out queued octets. *)
Lemma cm_shift q q' b got j ps :
  exchange (replicate (length q) b) (CardModel true (q ++ q') got j ps)
  = (q, CardModel true q' got j ps).
Proof. induction q as [|o q IH]; [done|]. simpl. by rewrite IH. Qed.

Definition cm_ready (c : card_model) : Prop :=
  cm_job c = JNone ∧ cm_sel c = false ∧ ram_ok (cm_pages c).

(** Receiving the first octets of a command. *)
Lemma cm_listen l got ps :
  (length got + length l < 6)%nat →
  (exchange l (CardModel true [] got JNone ps)).2 = CardModel true [] (got ++ l) JNone ps.
Proof.
  revert got. induction l as [|b l IH]; intros got Hl; [by rewrite app_nil_r|].
  simpl. unfold cm_receive. simpl.
  rewrite decide_False by (rewrite length_app; simpl in *; lia).
  rewrite (surjective_pairing (exchange l _)). simpl. rewrite IH.
  - by rewrite <-app_assoc.
  - rewrite length_app. simpl in *. lia.
Qed.

Lemma cm_frame_job cmd n c :
  cm_ready c → 0 ≤ n ≤ MAX_BLOCK →
  (exchange (frame cmd (n * 512)) (slave_select c)).2
  = CardModel true [0xFF; 0] []
      (if decide (64 + cmd = 0x51) then JRead n
       else if decide (64 + cmd = 0x58) then JWrite n else JNone) (cm_pages c).
Proof.
  intros (Hj & Hs & _) Hn. unfold frame.
  set (a := u8 (n * 512 / 2 ^ 24)). set (b := u8 (n * 512 / 2 ^ 16)).
  set (e := u8 (n * 512 / 2 ^ 8)). set (f := u8 (n * 512)).
  change ([64 + cmd; a; b; e; f; 149]) with ([64 + cmd; a; b; e; f] ++ [149]).
  rewrite exchange_app_2. simpl slave_select. rewrite Hj, cm_listen by (simpl; lia).
  assert ((a * 2 ^ 24 + b * 2 ^ 16 + e * 2 ^ 8 + f) / 512 = n) as Hdiv.
  { unfold MAX_BLOCK in Hn. subst a b e f. cint. }
  change ((exchange [149] ?x).2) with (cm_command x [64 + cmd; a; b; e; f; 149]).
  unfold cm_command, octet. simpl nth. by rewrite Hdiv.
Qed.

Lemma cm_answers job ps :
  answers (CardModel true [0xFF; 0] [] job ps) [0xFF] 0 (CardModel true [] [] job ps).
Proof. split; [done|]. split; [|done]. by repeat constructor. Qed.

(** Receiving a block whose start token has been seen. *)
Lemma cm_collect l got n ps :
  got ≠ [] → (length got + length l < 515)%nat →
  (exchange l (CardModel true [] got (JWrite n) ps)).2
  = CardModel true [] (got ++ l) (JWrite n) ps.
Proof.
  revert got. induction l as [|b l IH]; intros got Hg Hl; [by rewrite app_nil_r|].
  simpl. unfold cm_receive. simpl. rewrite decide_False by (by intros [? _]).
  rewrite decide_False by (rewrite length_app; simpl in *; lia).
  rewrite (surjective_pairing (exchange l _)). simpl. rewrite IH.
  - by rewrite <-app_assoc.
  - by destruct got.
  - rewrite length_app. simpl in *. lia.
Qed.

#[export] Instance card_model_sd : SdCard card_model 16.
Proof.
  refine {| card_ready := cm_ready; card_blocks c := Z.of_nat (length (cm_pages c));
            card_page := cm_page |}.
  - intros c (_ & _ & Hok). destruct Hok. lia.
  - intros c n (_ & _ & Hok) Hn. by apply ram_page_ok.
  - intros c n Hr Hn. pose proof Hr as (Hj & Hs & Hok).
    destruct (ram_page_ok (cm_pages c) n Hok Hn) as [Hlen _].
    exists [0xFF], (CardModel true [] [] (JRead n) (cm_pages c)), [0xFF], [0; 0].
    eexists. rewrite cm_frame_job; [|done|destruct Hok; lia].
    split; [apply cm_answers|]. split; [unfold SD_COMMAND_TIMEOUT; simpl; lia|].
    split.
    { assert ((length [0xFF%Z] + 1 + 512 + 2)%nat = length (0xFF :: 0xFE :: cm_page c n ++ [0; 0]))
        as -> by (simpl; rewrite length_app; unfold cm_page; simpl; lia).
      simpl slave_deselect. simpl slave_xfer. simpl slave_select.
      pose proof (cm_shift (0xFF :: 0xFE :: cm_page c n ++ [0; 0]) [] 0xFF [] JNone (cm_pages c))
        as Hsh. rewrite app_nil_r in Hsh. exact Hsh. }
    split; [by repeat constructor|]. split; [simpl; lia|]. done.
  - intros c n page Hr Hn Hlen Hpage. pose proof Hr as (Hj & Hs & Hok).
    exists [0xFF], (CardModel true [] [] (JWrite n) (cm_pages c)), 0xE5.
    eexists _, [0], 0xFF, _. rewrite cm_frame_job; [|done|destruct Hok; lia].
    split; [apply cm_answers|]. split; [unfold SD_COMMAND_TIMEOUT; simpl; lia|].
    split.
    { change (0xFE :: page ++ [0xFF; 0xFF]) with ([0xFE] ++ page ++ [0xFF] ++ [0xFF]).
      rewrite (app_assoc page), (exchange_app_2 [0xFE]), (exchange_app_2 (page ++ [0xFF])).
      change ((exchange [0xFE] _).2) with (CardModel true [] [0xFE] (JWrite n) (cm_pages c)).
      rewrite cm_collect; [|done|rewrite length_app; simpl; lia].
      simpl. unfold cm_receive. simpl.
      rewrite decide_True by (simpl; rewrite !length_app; simpl; lia).
      simpl. done. }
    split; [done|]. split; [done|]. split; [by repeat constructor|]. split; [done|].
    split; [simpl; lia|]. simpl. rewrite drop_0, <-app_assoc, take_app_le, take_ge by (lia || done).
    rewrite length_insert. unfold cm_ready, cm_page. simpl. split; [split; [done|split; [done|]]|].
    + destruct Hok as [Hc Hp]. split; [by rewrite length_insert|].
      by apply Forall_insert.
    + split; [done|]. intros k. by apply ram_page_insert.
Defined.

(** ** Properties *)


(** A blank four-page card after start-up. *)
Definition blank_card : sd_state card_model :=
  SdState 4 512 (CardModel false [] [] JNone (blank_disk 4)).

