(* ===== verification/SdCapacity.v ===== *)
(** * Command completion and the size of the card ([src/memory/sd.c])

    Theorems about the driver that hold for any slave: every command returns,
    [ext_bits] reads a bit field of the CSD register, and [_sd_sectors]
    decodes the two register layouts.  Also what [_cmd8] does with the four
    octets that follow its answer. *)

From S2P Require Import Prelude BlockDev Hw SdSpi Sd SdCard.
From Stdlib Require Import ZArith Lia.
From stdpp Require Import base numbers list.
Open Scope Z_scope.

(** ** Bit fields *)

(** The register as a number: octet 0 is the most significant. *)
Definition be_word (data : list Z) : Z := le_word (rev data).

Lemma le_word_testbit l p :
  bytes_ok l → 0 ≤ p → Z.testbit (le_word l) p = Z.testbit l.[Z.to_nat (p / 8)] (p mod 8).
Proof.
  intros Hl. revert p. induction Hl as [|b l Hb Hl IH]; intros p Hp.
  { unfold octet. destruct (Z.to_nat (p / 8)); simpl; by rewrite !Z.bits_0. }
  simpl le_word. rewrite <-(lor_add_disjoint b (le_word l) 8) by (unfold is_u8 in Hb; lia).
  rewrite Z.lor_spec, shiftl_testbit by lia. destruct (decide (p < 8)).
  - rewrite Z.div_small, Z.mod_small, (Z.testbit_neg_r (le_word l)) by lia.
    by rewrite orb_false_r.
  - rewrite (testbit_above 8 b p), orb_false_l, IH by (unfold is_u8 in Hb; lia).
    replace (p / 8) with (1 + (p - 8) / 8) by (Z.to_euclidean_division_equations; lia).
    rewrite Z2Nat.inj_add by (Z.to_euclidean_division_equations; lia). simpl.
    f_equal. Z.to_euclidean_division_equations; lia.
Qed.

Lemma octet_rev l i : (i < length l)%nat → (rev l).[i] = l.[(length l - S i)%nat].
Proof. intros. unfold octet. by apply rev_nth. Qed.

Lemma ext_bit data p :
  length data = 16%nat → bytes_ok data → 0 ≤ p < 128 →
  Z.land (Z.shiftr data.[Z.to_nat (u32 (15 - Z.shiftr p 3))] (Z.land p 0x7)) 1
  = Z.b2z (Z.testbit (be_word data) p).
Proof.
  intros Hlen Hok Hp. change 0x7 with (Z.ones 3). rewrite Z.land_ones by lia.
  change 1 with (Z.ones 1) at 1. rewrite Z.land_ones by lia. rewrite Z.pow_1_r.
  rewrite <-Z.bit0_mod, Z.shiftr_spec, Z.add_0_l by lia. f_equal.
  unfold be_word. rewrite le_word_testbit by (done || lia || by apply Forall_rev).
  rewrite octet_rev by (Z.to_euclidean_division_equations; lia). f_equal.
  f_equal. rewrite Z.shiftr_div_pow2 by lia. change (2 ^ 3) with 8.
  rewrite u32_small by cint. rewrite Hlen. Z.to_euclidean_division_equations; lia.
Qed.

Lemma bits_lor_field W lsb n :
  0 ≤ lsb → 
  fold_left (λ bits i, Z.lor bits (Z.shiftl (Z.b2z (Z.testbit W (lsb + Z.of_nat i))) (Z.of_nat i)))
    (seq 0 n) 0 = (W / 2 ^ lsb) mod 2 ^ Z.of_nat n.
Proof.
  intros Hl. induction n as [|n IH]; [simpl; by rewrite Z.mod_1_r|].
  rewrite seq_S, fold_left_app, IH. simpl. apply Z.bits_inj'. intros i Hi.
  rewrite Z.lor_spec, !mod_pow2_testbit, shiftl_testbit by lia.
  rewrite <-!Z.shiftr_div_pow2, !Z.shiftr_spec by lia.
  destruct (decide (i = Z.of_nat n)) as [->|Hne].
  - rewrite bool_decide_false, bool_decide_true, Z.sub_diag, Z.b2z_bit0 by lia. simpl.
    f_equal. lia.
  - rewrite (Z.add_comm lsb). destruct (decide (i < Z.of_nat n)).
    + rewrite !bool_decide_true, (Z.testbit_neg_r _ (i - Z.of_nat n)) by lia.
      by rewrite orb_false_r.
    + rewrite !bool_decide_false by lia. simpl.
      destruct (Z.testbit W _); simpl; [|by rewrite Z.bits_0].
      change 1 with (Z.ones 1). rewrite ones_testbit by lia.
      by rewrite bool_decide_false by lia.
Qed.

Lemma ext_bits_field data msb lsb :
  length data = 16%nat → bytes_ok data → 0 ≤ lsb ≤ msb → msb < 128 → msb - lsb < 32 →
  ext_bits data msb lsb = (be_word data / 2 ^ lsb) mod 2 ^ (msb - lsb + 1).
Proof.
  intros Hlen Hok Hl Hm Hw. unfold ext_bits.
  rewrite (u32_small (1 + msb - lsb)) by (unfold is_u32; lia).
  set (n := Z.to_nat (1 + msb - lsb)).
  replace (msb - lsb + 1) with (Z.of_nat n) by lia. rewrite <-bits_lor_field by lia.
  assert (∀ k, (k ≤ n)%nat → ∀ acc,
    fold_left (λ bits i, Z.lor bits (u32 (Z.shiftl (Z.land (Z.shiftr
      data.[Z.to_nat (u32 (15 - Z.shiftr (u32 (lsb + Z.of_nat i)) 3))]
      (Z.land (u32 (lsb + Z.of_nat i)) 0x7)) 1) (Z.of_nat i)))) (seq (n - k) k) acc
    = fold_left (λ bits i, Z.lor bits
        (Z.shiftl (Z.b2z (Z.testbit (be_word data) (lsb + Z.of_nat i))) (Z.of_nat i)))
        (seq (n - k) k) acc) as Hf.
  2: { specialize (Hf n ltac:(lia) 0). by rewrite Nat.sub_diag in Hf. }
  induction k as [|k IH]; intros Hk acc; [done|]. simpl.
  replace (S (n - S k)) with (n - k)%nat by lia. rewrite <-IH by lia. f_equal. f_equal.
  rewrite (u32_small (lsb + _)) by (unfold is_u32; lia). rewrite ext_bit by (done || lia).
  apply u32_small. unfold is_u32. rewrite Z.shiftl_mul_pow2 by lia.
  assert (0 < 2 ^ Z.of_nat (n - S k) < 2 ^ 32).
  { split; [lia|]. apply Z.pow_lt_mono_r; lia. }
  destruct (Z.testbit _ _); simpl Z.b2z; lia.
Qed.

(** ** Any slave *)

Section AnySlave.
Context {D : Type} `{SpiSlave D}.

(** A polling loop ends, with an answer or without one. *)
Lemma wait_returns {R} (K : Z → Z → M D (option R)) lo n d :
  (∀ i r d, ∃ v d', K i r d = Ok (Some v, d')) →
  ∃ o d', for_return lo n (λ i,
    response ← SPI_Write' 0xFF;
    if Z.land response 0x80 =? 0 then K i response else mret None) d = Ok (o, d').
Proof.
  intros HK. revert lo d. induction n as [|n IH]; intros lo d; [eauto|].
  simpl for_return. rewrite !bind_unfold, xfer_ok. destruct (slave_xfer _ d) as [r d1].
  destruct (Z.land r 0x80 =? 0); [|apply IH].
  destruct (HK lo r d1) as (v & d' & ->). simpl. eauto.
Qed.

Lemma send_frame_returns cmd arg crc d : ∃ d', send_frame cmd arg crc d = Ok (tt, d').
Proof.
  unfold send_frame. do 6 (rewrite bind_unfold, xfer_ok; destruct (slave_xfer _ _)). eauto.
Qed.

(** A value produced by a polling loop passed the loop's test. *)
Lemma wait_value {R} (K : Z → Z → M D (option R)) (Q : R → Prop) lo n d v d' :
  (∀ i r d v d', Z.land r 0x80 = 0 → K i r d = Ok (Some v, d') → Q v) →
  for_return lo n (λ i,
    response ← SPI_Write' 0xFF;
    if Z.land response 0x80 =? 0 then K i response else mret None) d = Ok (Some v, d') →
  Q v.
Proof.
  intros HQ. revert lo d. induction n as [|n IH]; intros lo d; [done|].
  simpl for_return. rewrite !bind_unfold, xfer_ok. destruct (slave_xfer _ d) as [r d1].
  destruct (Z.eqb_spec (Z.land r 0x80) 0); [|apply IH].
  destruct (K lo r d1) as [[[w|] d2]| |] eqn:E; [|apply IH|done..].
  intros Hv. inversion Hv. subst. eauto.
Qed.

Lemma _cmd_total cmd arg d :
  ∃ r d', _cmd cmd arg d = Ok (r, d') ∧ (r = -1 ∨ Z.land r 0x80 = 0).
Proof.
  unfold _cmd. rewrite bind_unfold. simpl spi_enable. cbv beta iota.
  destruct (send_frame_returns cmd arg 0x95 (slave_select d)) as [d1 Hs].
  rewrite (bind_ok _ _ _ _ _ Hs).
  set (K := λ (_ : Z) (r : Z), spi_disable;; SPI_Write' 0xFF;; mret (Some r) : M D (option Z)).
  destruct (wait_returns K 0 SD_COMMAND_TIMEOUT d1) as (o & d2 & Hw).
  { intros i r d0. unfold K. rewrite close_ok. eauto. }
  rewrite (bind_ok _ _ _ _ _ Hw). destruct o as [r|].
  - exists r, d2. split; [done|]. right.
    apply (wait_value K (λ r, Z.land r 0x80 = 0)) in Hw; [done|].
    intros i r' d0 v d' Hr. unfold K. rewrite close_ok. intros HK. by inversion HK; subst.
  - rewrite close_ok. eauto.
Qed.

Lemma _cmdx_answered cmd a d noise r d' :
  0 ≤ cmd < 0x40 →
  answers (exchange (frame cmd a) (slave_select d)).2 noise r d' →
  (length noise < SD_COMMAND_TIMEOUT)%nat →
  _cmdx cmd (s32 a) d = Ok (r, d').
Proof.
  intros Hc Ha Hn. unfold _cmdx. rewrite bind_unfold. simpl spi_enable. cbv beta iota.
  rewrite (bind_ok _ _ _ _ _ (send_frame_ok cmd a 0x95 (slave_select d) Hc eq_refl)).
  rewrite (bind_ok _ _ _ _ _ (wait_answer (λ r, mret (Some r)) 0 SD_COMMAND_TIMEOUT
    _ _ _ _ _ _ Ha Hn eq_refl)).
  done.
Qed.

(** CMD8 as it appears on the wire. *)
Definition cmd8_frame : list Z := [0x48; 0; 0; 1; 0xAA; 0x87].

Lemma cmd8_tail_ok n i l d :
  0 ≤ i < Z.of_nat (length l) →
  cmd8_tail n i l d =
  let '(bs, d') := exchange (replicate n 0xFF) d in
  Ok (fold_left (λ l b, <[Z.to_nat i := b]> l) bs l, d').
Proof.
  revert l d. induction n as [|n IH]; intros l d Hi; [done|]. simpl.
  rewrite bind_unfold, xfer_ok. change (u8 0xFF) with 0xFF.
  destruct (slave_xfer 0xFF d) as [b d1]. rewrite bind_unfold. unfold arr_set.
  rewrite decide_True by done. simpl. rewrite IH by (by rewrite length_insert).
  by destruct (exchange (replicate n 0xFF) d1).
Qed.

(** Everything [_cmd8] can do once the card answers. *)
Lemma _cmd8_answered d noise r d1 b1 b2 b3 b4 d2 :
  answers (exchange cmd8_frame (slave_select d)).2 noise r d1 →
  (length noise < SD_COMMAND_TIMEOUT * 1000)%nat →
  exchange (replicate 4 0xFF) d1 = ([b1; b2; b3; b4], d2) →
  _cmd8 d =
    if decide (length noise = O) then Ok (b4, (slave_xfer 0xFF (slave_deselect d2)).2)
    else if decide (length noise < 5)%nat then Ok (r, (slave_xfer 0xFF (slave_deselect d2)).2)
    else Fault.
Proof.
  intros Ha Hn Hb. unfold _cmd8. rewrite bind_unfold. simpl spi_enable. cbv beta iota.
  unfold cmd8_frame in Ha. simpl exchange in Ha.
  do 6 (rewrite bind_unfold, xfer_ok;
    match goal with |- context [slave_xfer (u8 ?x) _] =>
      let y := eval vm_compute in (u8 x) in change (u8 x) with y end;
    destruct (slave_xfer _ _)).
  simpl snd in Ha.
  set (K := λ (i r0 : Z), response ← cmd8_tail 4 i [r0; 0; 0; 0; 0];
      spi_disable;; SPI_Write' 0xFF;; mret (Some response.[0]) : M D (option Z)).
  assert (K (0 + Z.of_nat (length noise)) r d1 =
    if decide (length noise < 5)%nat then
      Ok (Some (if decide (length noise = O) then b4 else r),
          (slave_xfer 0xFF (slave_deselect d2)).2)
    else Fault) as HK.
  { unfold K. rewrite Z.add_0_l. case_decide as Hlt.
    - rewrite bind_unfold, cmd8_tail_ok, Hb by (simpl; lia). rewrite close_ok.
      rewrite Nat2Z.id. destruct (length noise) as [|[|[|[|[|]]]]]; try lia; done.
    - rewrite bind_unfold. simpl cmd8_tail. rewrite bind_unfold, xfer_ok.
      destruct (slave_xfer _ _). rewrite bind_unfold. unfold arr_set.
      by rewrite decide_False by (simpl; lia). }
  pose proof (wait_answer_at K 0 _ _ _ _ _ Ha Hn) as Hw. rewrite HK in Hw.
  rewrite bind_unfold. unfold K in Hw. rewrite Hw.
  - repeat case_decide; try lia; try done.
  - intros s. by case_decide.
Qed.
End AnySlave.

(** ** The size of the card *)

(** The number of 512-octet sectors the CSD register stands for (SD Physical
    Layer specification, section 5.3): layout 0 gives the capacity as
    [(C_SIZE+1) * 2^(C_SIZE_MULT+2) * 2^READ_BL_LEN] octets, layout 1 as
    [(C_SIZE+1)] units of 512 KiB. *)
Definition csd_field (W msb lsb : Z) : Z := (W / 2 ^ lsb) mod 2 ^ (msb - lsb + 1).

Definition csd_capacity (W : Z) : Z :=
  (csd_field W 73 62 + 1) * 2 ^ (csd_field W 49 47 + 2) * 2 ^ csd_field W 83 80.

Definition csd_sectors (W : Z) : Z :=
  if csd_field W 127 126 =? 0 then csd_capacity W / 512
  else if csd_field W 127 126 =? 1 then (csd_field W 63 48 + 1) * 1024
  else 0.

Lemma csd_field_bound W msb lsb : lsb ≤ msb → 0 ≤ csd_field W msb lsb < 2 ^ (msb - lsb + 1).
Proof. intros. unfold csd_field. apply Z.mod_pos_bound. apply Z.pow_pos_nonneg; lia. Qed.

Lemma csd_capacity_u32 W :
  csd_capacity W < 2 ^ 32 →
  u32 (u32 ((csd_field W 73 62 + 1) * u32 (Z.shiftl 1 (csd_field W 49 47 + 2)))
       * u32 (Z.shiftl 1 (csd_field W 83 80))) = csd_capacity W.
Proof.
  intros Hc. unfold csd_capacity in *.
  pose proof (csd_field_bound W 73 62 ltac:(lia)) as H1.
  pose proof (csd_field_bound W 49 47 ltac:(lia)) as H2.
  pose proof (csd_field_bound W 83 80 ltac:(lia)) as H3.
  set (a := csd_field W 73 62) in *. set (b := csd_field W 49 47) in *.
  set (c := csd_field W 83 80) in *. simpl in H1, H2, H3.
  rewrite !Z.shiftl_1_l.
  assert (0 < 2 ^ (b + 2) ≤ 2 ^ 9) by (split; [lia|apply Z.pow_le_mono_r; lia]).
  assert (0 < 2 ^ c ≤ 2 ^ 15) by (split; [lia|apply Z.pow_le_mono_r; lia]).
  rewrite (u32_small (2 ^ (b + 2))), (u32_small (2 ^ c)) by (unfold is_u32; lia).
  rewrite (u32_small ((a + 1) * _)) by (unfold is_u32; nia).
  apply u32_small. unfold is_u32. nia.
Qed.

Section Capacity.
Context {D : Type} `{SpiSlave D}.

Lemma _sd_sectors_decoded fuel s noise d1 gap page crc d2 :
  answers (exchange (frame 9 0) (slave_select (sd_port s))).2 noise 0 d1 →
  (length noise < SD_COMMAND_TIMEOUT)%nat →
  exchange (replicate (length gap + 1 + 512 + 2) 0xFF) (slave_select d1)
    = (gap ++ 0xFE :: page ++ crc, d2) →
  Forall (λ b, b ≠ 0xFE) gap → (length gap < fuel)%nat →
  length page = 512%nat → length crc = 2%nat → bytes_ok page →
  csd_capacity (be_word (take 16 page)) < 2 ^ 32 →
  ∃ s', _sd_sectors fuel s = Ok (csd_sectors (be_word (take 16 page)), s').
Proof.
  intros Ha Hn Hex Hgap Hf Hp Hc Hok Hcap. unfold _sd_sectors.
  pose proof (_cmdx_answered 9 0 _ _ _ _ ltac:(lia) Ha Hn) as Hcmd.
  change (s32 0) with 0 in Hcmd.
  rewrite (bind_ok _ _ _ _ _ (on_port_ok _ s _ _ Hcmd)).
  change (negb (0 =? 0)) with false. cbv iota.
  rewrite (bind_ok _ _ _ _ _ (on_port_ok _ (SdState _ _ _) _ _
    (_block_read_framed fuel (replicate 16 0) 16 _ gap _ crc d2 ltac:(lia) ltac:(simpl; lia)
      Hp Hc Hex Hgap Hf))).
  change (negb (0 =? 0)) with false. cbv iota.
  change (Z.to_nat 16) with 16%nat. rewrite (drop_ge (replicate 16 0)) by (simpl; lia).
  rewrite app_nil_r. set (csd := take 16 page) in *.
  assert (length csd = 16%nat) as Hl by (unfold csd; rewrite length_take; lia).
  assert (bytes_ok csd) as Hb by by apply Forall_take.
  rewrite !ext_bits_field by (done || lia).
  change ((be_word csd / 2 ^ 126) mod 2 ^ (127 - 126 + 1)) with (csd_field (be_word csd) 127 126).
  change ((be_word csd / 2 ^ 62) mod 2 ^ (73 - 62 + 1)) with (csd_field (be_word csd) 73 62).
  change ((be_word csd / 2 ^ 47) mod 2 ^ (49 - 47 + 1)) with (csd_field (be_word csd) 49 47).
  change ((be_word csd / 2 ^ 80) mod 2 ^ (83 - 80 + 1)) with (csd_field (be_word csd) 83 80).
  change ((be_word csd / 2 ^ 48) mod 2 ^ (63 - 48 + 1)) with (csd_field (be_word csd) 63 48).
  unfold csd_sectors. destruct (csd_field (be_word csd) 127 126 =? 0).
  - rewrite bind_unfold. simpl set_cdv. cbv beta iota zeta. eexists.
    unfold mret, M_ret. rewrite csd_capacity_u32 by done. done.
  - destruct (csd_field (be_word csd) 127 126 =? 1); [|by eexists].
    rewrite bind_unfold. simpl set_cdv. cbv beta iota zeta. eexists. unfold mret, M_ret.
    pose proof (csd_field_bound (be_word csd) 63 48 ltac:(lia)).
    rewrite u32_small by (unfold is_u32; simpl in *; lia). done.
Qed.
End Capacity.

(** ** Properties *)

(** Every command returns, whatever the card does: [_cmd] polls at most
    5000 times and yields either a status octet whose top bit is clear or
    the timeout value -1. *)
Theorem cmd_returns {D : Type} `{SpiSlave D} cmd arg (d : D) :
  ∃ r d', _cmd cmd arg d = Ok (r, d') ∧ (r = -1 ∨ Z.land r 0x80 = 0).
Proof. apply _cmd_total. Qed.

(** [ext_bits data msb lsb] is the bit field [msb:lsb] of the 128-bit
    register stored most significant octet first. *)
Theorem ext_bits_reads_field data msb lsb :
  length data = 16%nat → bytes_ok data → 0 ≤ lsb ≤ msb → msb < 128 → msb - lsb < 32 →
  ext_bits data msb lsb = (be_word data / 2 ^ lsb) mod 2 ^ (msb - lsb + 1).
Proof. apply ext_bits_field. Qed.

(** The CSD register of a 2 GB card. *)
Definition csd_2gb : list Z :=
  [0x00; 0x2E; 0x00; 0x32; 0x5B; 0x5A; 0x83; 0xA9; 0xFF; 0xFF; 0xFF; 0x80; 0x16; 0x80; 0x00; 0x91].

Lemma ext_bits_reads_field_witness :
  ext_bits csd_2gb 73 62 = (be_word csd_2gb / 2 ^ 62) mod 2 ^ 12.
Proof. apply (ext_bits_reads_field csd_2gb 73 62); [reflexivity|by_decision|lia..]. Defined.

(** When the card answers CMD9 and sends its CSD register, [_sd_sectors]
    returns the number of 512-octet sectors the SD specification assigns to
    it, for both register layouts, as long as the capacity in octets fits
    the driver's 32-bit arithmetic. *)
Theorem sd_sectors_decodes_csd {D : Type} `{SpiSlave D} fuel (s : sd_state D)
    noise d1 gap page crc d2 :
  answers (exchange (frame 9 0) (slave_select (sd_port s))).2 noise 0 d1 →
  (length noise < SD_COMMAND_TIMEOUT)%nat →
  exchange (replicate (length gap + 1 + 512 + 2) 0xFF) (slave_select d1)
    = (gap ++ 0xFE :: page ++ crc, d2) →
  Forall (λ b, b ≠ 0xFE) gap → (length gap < fuel)%nat →
  length page = 512%nat → length crc = 2%nat → bytes_ok page →
  csd_capacity (be_word (take 16 page)) < 2 ^ 32 →
  ∃ s', _sd_sectors fuel s = Ok (csd_sectors (be_word (take 16 page)), s').
Proof. apply _sd_sectors_decoded. Qed.

(** A slave that shifts out a fixed script, then 0xFF. *)
Record scripted : Type := Scripted { script : list Z }.
#[export] Instance scripted_slave : SpiSlave scripted := {
  slave_xfer _ d := (hd 0xFF (script d), Scripted (tl (script d)));
  slave_select d := d;
  slave_deselect d := d;
}.

Definition csd_page : list Z := csd_2gb ++ replicate 496 0xFF.
Definition csd_script : sd_state scripted :=
  SdState 0 0 (Scripted (replicate 7 0xFF ++ [0; 0xFF; 0xFE] ++ csd_page ++ [0; 0])).

Lemma sd_sectors_decodes_csd_witness :
  csd_sectors (be_word (take 16 csd_page)) = 3842048 ∧
  ∃ s', _sd_sectors 10 csd_script = Ok (csd_sectors (be_word (take 16 csd_page)), s').
Proof.
  split; [reflexivity|].
  apply (sd_sectors_decodes_csd 10 csd_script [0xFF]
    (Scripted ([0xFF; 0xFE] ++ csd_page ++ [0; 0])) [0xFF] csd_page [0; 0] (Scripted []));
    [|unfold SD_COMMAND_TIMEOUT; simpl; lia|reflexivity|by_decision|simpl; lia
     |reflexivity|reflexivity|by_decision|reflexivity].
  split; [reflexivity|]. split; [by_decision|reflexivity].
Defined.

(** [_cmd8] stores the four octets after the answer at the subscript that
    counts its polls: an answer to the second to fifth poll is returned as
    intended, one to the first poll is overwritten by the last of those
    octets, and a later one is written outside the five-element array. *)
Theorem cmd8_outcome {D : Type} `{SpiSlave D} (d : D) noise r d1 b1 b2 b3 b4 d2 :
  answers (exchange cmd8_frame (slave_select d)).2 noise r d1 →
  (length noise < SD_COMMAND_TIMEOUT * 1000)%nat →
  exchange (replicate 4 0xFF) d1 = ([b1; b2; b3; b4], d2) →
  _cmd8 d =
    if decide (length noise = O) then Ok (b4, (slave_xfer 0xFF (slave_deselect d2)).2)
    else if decide (length noise < 5)%nat then Ok (r, (slave_xfer 0xFF (slave_deselect d2)).2)
    else Fault.
Proof. apply _cmd8_answered. Qed.

Lemma cmd8_polls_pos : (0 < SD_COMMAND_TIMEOUT * 1000)%nat.
Proof. apply Nat.mul_pos_pos; unfold SD_COMMAND_TIMEOUT; lia. Qed.

Lemma cmd8_outcome_witness :
  _cmd8 (Scripted (replicate 6 0xFF ++ [0x01; 0x00; 0x00; 0x01; 0xAA])) = Ok (0xAA, Scripted []).
Proof.
  refine (eq_trans (cmd8_outcome _ [] 1 (Scripted [0; 0; 1; 0xAA]) 0 0 1 0xAA (Scripted [])
    _ cmd8_polls_pos _) _); [|reflexivity..].
  split; [reflexivity|]. split; [by_decision|reflexivity].
Defined.
