(* ===== verification/Memory.v ===== *)
(** * The sample memory ([src/memory/memory.c])

    A ring of records on a block device: block 0 keeps the read and write
    indexes, the other blocks one record each.  The theorems are proved
    against the interface of [BlockDev.v]. *)

From S2P Require Import Prelude Checksum BlockDev.
From Stdlib Require Import ZArith Lia.
From stdpp Require Import base numbers list.
Open Scope Z_scope.

Definition INDEXES_LEN : Z := 32.

(** The module's variables and the device below it.  [mem_buf] is an array
    of words; it is kept here as its octets. *)
Record mem_state (B : Type) : Type := MemState {
  m_read : Z;
  m_write : Z;
  m_indexes_buf : list Z;
  m_mem_buf : list Z;
  m_last_write : Z;
  m_dev : B;
}.
Arguments MemState {B}.
Arguments m_read {B}.
Arguments m_write {B}.
Arguments m_indexes_buf {B}.
Arguments m_mem_buf {B}.
Arguments m_last_write {B}.
Arguments m_dev {B}.

(** Word [i] of an octet array. *)
Definition word (l : list Z) (i : nat) : Z := le_word (take 4 (drop (4 * i) l)).

Section Operations.
Context {B : Type} `{BlockDev B}.

Definition on_dev {A} (m : M B A) : M (mem_state B) A :=
  lift m_dev (λ b s, MemState (m_read s) (m_write s) (m_indexes_buf s) (m_mem_buf s)
                       (m_last_write s) b) m.
Definition set_indexes (r w : Z) : M (mem_state B) unit :=
  modify (λ s, MemState r w (m_indexes_buf s) (m_mem_buf s) (m_last_write s) (m_dev s)).
Definition set_indexes_buf (l : list Z) : M (mem_state B) unit :=
  modify (λ s, MemState (m_read s) (m_write s) l (m_mem_buf s) (m_last_write s) (m_dev s)).
Definition set_mem_buf (l : list Z) : M (mem_state B) unit :=
  modify (λ s, MemState (m_read s) (m_write s) (m_indexes_buf s) l (m_last_write s) (m_dev s)).
Definition set_last_write (t : Z) : M (mem_state B) unit :=
  modify (λ s, MemState (m_read s) (m_write s) (m_indexes_buf s) (m_mem_buf s) t (m_dev s)).

(** The loop over the later copies: true when one of them does not match. *)
Definition copies_differ (words : list Z) (read write : Z) : bool :=
  existsb (λ i, negb (word words i =? u32 (read + Z.of_nat i))
                || negb (word words (i + 1) =? u32 (write + Z.of_nat i))) [2; 4; 6]%nat.

(** The status of the read is ignored: on a failure the buffer keeps what it
    held. *)
Definition get_memory_indexes : M (mem_state B) Z :=
  buf ← gets m_indexes_buf;
  '(_, buf) ← on_dev (blk_read buf INDEXES_LEN 0);
  set_indexes_buf buf;;
  set_indexes (word buf 0) (word buf 1);;
  if copies_differ buf (word buf 0) (word buf 1) then
    set_indexes 0xFFFFFFFF 0xFFFFFFFF;; mret 0
  else mret 1.

(** Eight words: four pairs, the copy at word [i] offset by [i]. *)
Definition index_page (read write : Z) : list Z :=
  concat (map (λ i, le_bytes 4 (u32 (read + Z.of_nat i)) ++ le_bytes 4 (u32 (write + Z.of_nat i)))
    [0; 2; 4; 6]%nat).

Definition put_memory_indexes : M (mem_state B) Z :=
  read ← gets m_read; write ← gets m_write;
  set_indexes_buf (index_page read write);;
  on_dev (blk_write (index_page read write) INDEXES_LEN 0);;
  mret 1.

Definition is_block_valid (block : Z) : M (mem_state B) Z :=
  sectors ← on_dev blk_sectors;
  mret (if (block =? 0) || (block >? 0x007FFFFF) || (block >? u64 (sectors - 1)) then 0 else 1).

Definition next_block (current_block : Z) : M (mem_state B) Z :=
  let next := u32 (current_block + 1) in
  valid ← is_block_valid next;
  mret (if valid =? 0 then 1 else next).

(** [None] is the null pointer; otherwise the octets of [mem_buf]. *)
Definition get_sample (index : Z) : M (mem_state B) (option (list Z)) :=
  buf ← gets m_mem_buf;
  '(r, buf) ← on_dev (blk_read buf (Z.of_nat MEMORY_RECORD_SIZE) index);
  set_mem_buf buf;;
  if negb (r =? 0) then mret None
  else if evaluate_checksum buf =? CHECKSUM_FAIL then mret None
  else mret (Some buf).

Definition get_current_read_block : M (mem_state B) Z := gets m_read.

(** [tc] is the value of [LPC_TIM3->TC] at the call. *)
Definition get_blocks_to_read (tc : Z) : M (mem_state B) Z :=
  s ← get;
  let blocks := s32 (u32 (m_write s - m_read s)) in
  if blocks <? 0 then mret 0
  else if u32 (tc - m_last_write s) <? 3 then mret 0
  else mret (if blocks <? 1000 then blocks else 1000).

Definition put_sample (tc : Z) (block : list Z) : M (mem_state B) Z :=
  write ← gets m_write;
  next ← next_block write;
  read ← gets m_read;
  if negb (next =? read) then
    on_dev (blk_write block (Z.of_nat MEMORY_RECORD_SIZE) next);;
    set_indexes read next;;
    set_last_write tc;;
    (if Z.land next 0x7 =? 0 then put_memory_indexes;; mret tt else mret tt);;
    mret 1
  else mret 0.

Definition good_upload_done : M (mem_state B) unit :=
  read ← gets m_read; write ← gets m_write;
  next ← next_block read;
  set_indexes next write;;
  if Z.land next 0x7 =? 0 then put_memory_indexes;; mret tt else mret tt.

Definition bad_upload_done : M (mem_state B) unit :=
  buf ← gets m_mem_buf; read ← gets m_read;
  '(r, buf) ← on_dev (blk_read buf (Z.of_nat MEMORY_RECORD_SIZE) read);
  set_mem_buf buf;;
  if negb (r =? 0) then mret tt else good_upload_done.

Definition memory_init : M (mem_state B) Z :=
  on_dev blk_init;;
  set_last_write 0;;
  set_indexes 0xFFFFFFFF 0xFFFFFFFF;;
  get_memory_indexes;;
  mret 1.
End Operations.

(** ** The operations on a lawful device *)

(** The ring successor on blocks [1..N]. *)
Definition succ_block (N c : Z) : Z := if decide (0 ≤ c < N) then c + 1 else 1.

Section Laws.
Context {B : Type} `{BlockDevLaws B}.
Implicit Types s : mem_state B.

Definition m_page s (n : Z) : list Z := blk_page (m_dev s) n.

(** The typing of the variables and a device that answers. *)
Definition mem_ok s : Prop :=
  blk_ok (m_dev s) ∧ is_u32 (m_read s) ∧ is_u32 (m_write s) ∧
  length (m_indexes_buf s) = 32%nat ∧ length (m_mem_buf s) = MEMORY_RECORD_SIZE.

(** Last block of the ring. *)
Definition ring_top s : Z := blk_count (m_dev s) - 1.

Definition ring_ok s : Prop :=
  mem_ok s ∧ 1 ≤ m_read s ≤ ring_top s ∧ 1 ≤ m_write s ≤ ring_top s.

Lemma on_dev_ok {A} (m : M B A) s a b :
  m (m_dev s) = Ok (a, b) →
  on_dev m s = Ok (a, MemState (m_read s) (m_write s) (m_indexes_buf s) (m_mem_buf s)
                       (m_last_write s) b).
Proof. intros E. unfold on_dev, lift. by rewrite E. Qed.

Lemma mem_state_eta s :
  MemState (m_read s) (m_write s) (m_indexes_buf s) (m_mem_buf s) (m_last_write s) (m_dev s) = s.
Proof. by destruct s. Qed.

Lemma is_block_valid_ok block s :
  blk_ok (m_dev s) → 1 ≤ ring_top s → is_u32 block →
  is_block_valid block s = Ok (if decide (1 ≤ block ≤ ring_top s) then 1 else 0, s).
Proof.
  intros Hok Ht Hb. unfold is_block_valid, ring_top in *.
  pose proof (blk_count_range _ Hok) as Hr. unfold MAX_BLOCK in Hr.
  rewrite (bind_ok _ _ _ _ _ (on_dev_ok _ s _ _ (blk_sectors_law _ Hok))), mem_state_eta.
  unfold mret, M_ret. do 2 f_equal. rewrite u64_small by (unfold is_u64; lia).
  unfold is_u32 in Hb. destruct (decide _); destruct (_ || _) eqn:E; (done || lia).
Qed.

Lemma next_block_ok c s :
  blk_ok (m_dev s) → 1 ≤ ring_top s → is_u32 c →
  next_block c s = Ok (succ_block (ring_top s) c, s).
Proof.
  intros Hok Ht Hc. unfold next_block.
  rewrite (bind_ok _ _ _ _ _ (is_block_valid_ok (u32 (c + 1)) s Hok Ht (u32_range _))).
  unfold mret, M_ret. do 2 f_equal. pose proof (blk_count_range _ Hok) as Hr.
  unfold ring_top, MAX_BLOCK, succ_block in *. unfold is_u32 in Hc.
  destruct (decide (c = 2 ^ 32 - 1)) as [->|].
  - change (u32 (2 ^ 32 - 1 + 1)) with 0. repeat case_decide; (done || lia).
  - rewrite u32_small by (unfold is_u32; lia). repeat case_decide; simpl; lia.
Qed.

Lemma succ_block_range N c : 1 ≤ N → 1 ≤ succ_block N c ≤ N.
Proof. unfold succ_block. case_decide; lia. Qed.

Lemma length_index_page r w : length (index_page r w) = 32%nat.
Proof. done. Qed.

Lemma index_page_ok r w : bytes_ok (index_page r w).
Proof. unfold index_page. simpl. repeat (constructor; [auto with cint|]). constructor. Qed.

(** Writing the indexes replaces block 0. *)
Lemma put_memory_indexes_ok s :
  mem_ok s → 1 ≤ ring_top s →
  ∃ s', put_memory_indexes s = Ok (1, s') ∧ mem_ok s' ∧
    m_read s' = m_read s ∧ m_write s' = m_write s ∧ ring_top s' = ring_top s ∧
    m_last_write s' = m_last_write s ∧
    ∀ k, m_page s' k = if decide (k = 0) then page_of (index_page (m_read s) (m_write s)) 32
                       else m_page s k.
Proof.
  intros (Hok & Hr & Hw & Hi & Hm) Ht. unfold put_memory_indexes, ring_top in *.
  destruct (blk_write_law (m_dev s) (index_page (m_read s) (m_write s)) 32 0 Hok
    ltac:(lia) ltac:(lia) ltac:(rewrite length_index_page; lia) (index_page_ok _ _))
    as (b & Hwr & Hok' & Hc & Hp).
  mstep. rewrite bind_unfold. unfold on_dev, lift. simpl. unfold INDEXES_LEN. rewrite Hwr.
  eexists. split; [done|]. unfold mem_ok, m_page, ring_top. simpl. by rewrite Hc.
Qed.

(** A consistent index page is read back; any disagreement between its
    copies invalidates both indexes. *)
Lemma get_memory_indexes_ok s :
  mem_ok s → 1 ≤ ring_top s →
  ∃ s', get_memory_indexes s = Ok (if copies_differ (take 32 (m_page s 0)) (word (m_page s 0) 0)
                                      (word (m_page s 0) 1) then 0 else 1, s') ∧
    ring_top s' = ring_top s ∧ (∀ k, m_page s' k = m_page s k) ∧
    (if copies_differ (take 32 (m_page s 0)) (word (m_page s 0) 0) (word (m_page s 0) 1)
     then m_read s' = 0xFFFFFFFF ∧ m_write s' = 0xFFFFFFFF
     else m_read s' = word (m_page s 0) 0 ∧ m_write s' = word (m_page s 0) 1) ∧
    blk_ok (m_dev s').
Proof.
  intros (Hok & Hr & Hw & Hi & Hm) Ht. unfold get_memory_indexes, ring_top in *.
  destruct (blk_read_law (m_dev s) (m_indexes_buf s) 32 0 Hok
    ltac:(lia) ltac:(lia) ltac:(lia)) as (b & Hrd & Hok' & Hc & Hp).
  rewrite bind_unfold. unfold gets at 1. rewrite bind_unfold. unfold on_dev, lift, INDEXES_LEN.
  rewrite Hrd. change (Z.to_nat 32) with 32%nat. rewrite (drop_ge (m_indexes_buf s)) by lia.
  rewrite app_nil_r. fold (m_page s 0). set (p := m_page s 0).
  assert (∀ i, (i < 2)%nat → word (take 32 p) i = word p i) as Hword.
  { intros i Hi2. unfold word. rewrite skipn_firstn_comm, take_take. f_equal. f_equal. lia. }
  rewrite !Hword by lia. mstep.
  destruct (copies_differ (take 32 p) (word p 0) (word p 1)); mstep;
    (eexists; split; [done|]; unfold m_page; simpl; rewrite Hc; auto).
Qed.

Lemma word_index_page r w :
  is_u32 r → is_u32 w →
  word (index_page r w) 0 = r ∧ word (index_page r w) 1 = w ∧
  copies_differ (index_page r w) r w = false.
Proof.
  intros Hr Hw.
  assert (∀ x, le_word (le_bytes 4 (u32 x)) = u32 x) as Hle.
  { intros x. rewrite le_word_bytes. apply Z.mod_small. apply u32_range. }
  assert (∀ j, (j < 4)%nat → word (index_page r w) (2 * j) = u32 (r + Z.of_nat (2 * j)) ∧
    word (index_page r w) (2 * j + 1) = u32 (w + Z.of_nat (2 * j))) as Hj.
  { intros [|[|[|[|j]]]] Hj; [| | | |lia]; (split; [apply (Hle (r + _))|apply (Hle (w + _))]). }
  destruct (Hj 0%nat ltac:(lia)) as [W0 W1]. simpl in W0, W1.
  rewrite Z.add_0_r, u32_small in W0, W1 by done. split; [done|]. split; [done|].
  destruct (Hj 1%nat ltac:(lia)) as [A1 A2]. destruct (Hj 2%nat ltac:(lia)) as [A3 A4].
  destruct (Hj 3%nat ltac:(lia)) as [A5 A6].
  change (2 * 1)%nat with 2%nat in *. change (2 * 2)%nat with 4%nat in *.
  change (2 * 3)%nat with 6%nat in *.
  unfold copies_differ. cbn [existsb]. rewrite A1, A2, A3, A4, A5, A6, !Z.eqb_refl. done.
Qed.

(** The page 0 that an operation leaves when it moves an index to [next]. *)
Definition saved_page (next r w : Z) (old : list Z) : list Z :=
  if Z.land next 0x7 =? 0 then page_of (index_page r w) 32 else old.

Lemma save_indexes_ok next s :
  mem_ok s → 1 ≤ ring_top s →
  ∃ s', (if Z.land next 0x7 =? 0 then put_memory_indexes;; mret tt else mret tt) s = Ok (tt, s') ∧
    mem_ok s' ∧ m_read s' = m_read s ∧ m_write s' = m_write s ∧ ring_top s' = ring_top s ∧
    m_last_write s' = m_last_write s ∧
    ∀ k, m_page s' k = if decide (k = 0)
                       then saved_page next (m_read s) (m_write s) (m_page s 0)
                       else m_page s k.
Proof.
  intros Hok Ht. unfold saved_page. destruct (Z.land next 7 =? 0).
  - destruct (put_memory_indexes_ok s Hok Ht) as (s' & Hp & Hs').
    exists s'. rewrite (bind_ok _ _ _ _ _ Hp). done.
  - exists s. repeat (split; [done|]). intros k. by case_decide; subst.
Qed.

(** Storing a record when the ring is not full. *)
Lemma put_sample_ok tc block s :
  mem_ok s → 1 ≤ ring_top s → length block = MEMORY_RECORD_SIZE → bytes_ok block →
  let next := succ_block (ring_top s) (m_write s) in
  next ≠ m_read s →
  ∃ s', put_sample tc block s = Ok (1, s') ∧ mem_ok s' ∧
    m_read s' = m_read s ∧ m_write s' = next ∧ ring_top s' = ring_top s ∧
    m_last_write s' = tc ∧
    ∀ k, m_page s' k =
      if decide (k = 0) then saved_page next (m_read s) next (m_page s 0)
      else if decide (k = next) then page_of block 24 else m_page s k.
Proof.
  intros (Hok & Hr & Hw & Hi & Hm) Ht Hlen Hbytes next Hne. unfold put_sample.
  rewrite bind_unfold. unfold gets at 1.
  rewrite (bind_ok _ _ _ _ _ (next_block_ok _ s Hok Ht Hw)). fold next.
  rewrite bind_unfold. unfold gets at 1.
  destruct (Z.eqb_spec next (m_read s)); [done|]. change (negb false) with true. cbv iota.
  pose proof (succ_block_range (ring_top s) (m_write s) Ht) as Hn. fold next in Hn.
  pose proof (blk_count_range _ Hok) as Hc. unfold MAX_BLOCK in Hc.
  destruct (blk_write_law (m_dev s) block 24 next Hok ltac:(unfold ring_top in Hn; lia)
    ltac:(lia) ltac:(rewrite Hlen; done) Hbytes) as (b & Hwr & Hok' & Hc' & Hp).
  change (Z.of_nat MEMORY_RECORD_SIZE) with 24.
  rewrite (bind_ok _ _ _ _ _ (on_dev_ok _ s _ _ Hwr)).
  rewrite bind_unfold. unfold set_indexes, modify. simpl.
  rewrite bind_unfold. unfold set_last_write, modify. simpl.
  set (s1 := MemState (m_read s) next (m_indexes_buf s) (m_mem_buf s) tc b).
  assert (mem_ok s1) as Hok1.
  { unfold mem_ok. simpl. repeat (split; [done|]). split; [|done].
    unfold is_u32, ring_top in *. lia. }
  assert (ring_top s1 = ring_top s) as Htop by (unfold ring_top; simpl; by rewrite Hc').
  destruct (save_indexes_ok next s1 Hok1 ltac:(lia)) as (s' & Hsv & Hok2 & Hr2 & Hw2 & Ht2 & Hl2 & Hp2).
  rewrite (bind_ok _ _ _ _ _ Hsv). exists s'. split; [done|]. split; [done|].
  rewrite Hr2, Hw2, Ht2, Hl2. repeat (split; [done|]). intros k. rewrite Hp2.
  assert (∀ k, m_page s1 k = if decide (k = next) then page_of block 24 else m_page s k) as Hs1.
  { intros j. unfold m_page, s1. simpl. apply Hp. }
  rewrite !Hs1. repeat case_decide; subst; try lia; done.
Qed.

Lemma put_sample_full tc block s :
  mem_ok s → 1 ≤ ring_top s → succ_block (ring_top s) (m_write s) = m_read s →
  put_sample tc block s = Ok (0, s).
Proof.
  intros (Hok & Hr & Hw & Hi & Hm) Ht Hfull. unfold put_sample.
  rewrite bind_unfold. unfold gets at 1.
  rewrite (bind_ok _ _ _ _ _ (next_block_ok _ s Hok Ht Hw)), bind_unfold. unfold gets at 1.
  by rewrite Hfull, Z.eqb_refl.
Qed.

Lemma good_upload_done_ok s :
  mem_ok s → 1 ≤ ring_top s →
  let next := succ_block (ring_top s) (m_read s) in
  ∃ s', good_upload_done s = Ok (tt, s') ∧ mem_ok s' ∧
    m_read s' = next ∧ m_write s' = m_write s ∧ ring_top s' = ring_top s ∧
    m_last_write s' = m_last_write s ∧
    ∀ k, m_page s' k = if decide (k = 0) then saved_page next next (m_write s) (m_page s 0)
                       else m_page s k.
Proof.
  intros (Hok & Hr & Hw & Hi & Hm) Ht next. unfold good_upload_done.
  rewrite bind_unfold. unfold gets at 1. rewrite bind_unfold. unfold gets at 1.
  rewrite (bind_ok _ _ _ _ _ (next_block_ok _ s Hok Ht Hr)). fold next.
  rewrite bind_unfold. unfold set_indexes, modify. cbv beta iota.
  pose proof (succ_block_range (ring_top s) (m_read s) Ht) as Hn. fold next in Hn.
  pose proof (blk_count_range _ Hok) as Hc. unfold MAX_BLOCK in Hc.
  set (s1 := MemState next (m_write s) (m_indexes_buf s) (m_mem_buf s) (m_last_write s) (m_dev s)).
  assert (mem_ok s1) as Hok1.
  { unfold mem_ok. simpl. split; [done|]. split; [|done]. unfold is_u32, ring_top in *. lia. }
  destruct (save_indexes_ok next s1 Hok1 Ht) as (s' & Hsv & Hs'). exists s'. done.
Qed.

(** Reading a record: the first 24 octets of a page, if their checksum is
    right. *)
Lemma get_sample_ok n s :
  mem_ok s → 0 ≤ n ≤ ring_top s →
  ∃ s', get_sample n s =
      Ok (let rec := take 24 (m_page s n) in
          if evaluate_checksum rec =? CHECKSUM_FAIL then None else Some rec, s') ∧
    mem_ok s' ∧ m_read s' = m_read s ∧ m_write s' = m_write s ∧ ring_top s' = ring_top s ∧
    m_last_write s' = m_last_write s ∧ ∀ k, m_page s' k = m_page s k.
Proof.
  intros (Hok & Hr & Hw & Hi & Hm) Hn. unfold get_sample, ring_top in *.
  destruct (blk_page_ok (m_dev s) n Hok ltac:(lia)) as [Hpl _].
  destruct (blk_read_law (m_dev s) (m_mem_buf s) 24 n Hok ltac:(lia) ltac:(lia)
    ltac:(rewrite Hm; done)) as (b & Hrd & Hok' & Hc & Hp).
  rewrite bind_unfold. unfold gets at 1. change (Z.of_nat MEMORY_RECORD_SIZE) with 24.
  rewrite (bind_ok _ _ _ _ _ (on_dev_ok _ s _ _ Hrd)).
  change (Z.to_nat 24) with 24%nat. rewrite (drop_ge (m_mem_buf s)) by by rewrite Hm.
  rewrite app_nil_r. fold (m_page s n). rewrite bind_unfold. unfold set_mem_buf, modify. simpl.
  eexists. split; [by destruct (evaluate_checksum _ =? _)|].
  unfold mem_ok, m_page. simpl. rewrite Hc. repeat (split; [done|]). split; [|done].
  repeat (split; [done|]). by rewrite length_take, Hpl.
Qed.
End Laws.
