(* ===== verification/MemoryRing.v ===== *)
(** * The sample memory as a queue

    What [memory.c] promises its clients: the blocks after the read index up
    to the write index are a bounded queue of records; the operations
    implement the queue, the index page is accepted only when it is intact,
    and a restart recovers indexes that are at most a few blocks old. *)

From S2P Require Import Prelude Checksum BlockDev Memory.
From Stdlib Require Import ZArith Lia.
From stdpp Require Import base numbers list.
Open Scope Z_scope.

(** ** Ring arithmetic on blocks [1..N] *)

(** The block [j] places after [r], for [j <= N]. *)
Definition ring_block (N r j : Z) : Z := if decide (r + j ≤ N) then r + j else r + j - N.
(** How far [w] is after [r]. *)
Definition ring_dist (N r w : Z) : Z := if decide (r ≤ w) then w - r else w - r + N.

Ltac ring_case := unfold ring_block, ring_dist, succ_block in *; repeat case_decide; lia.

Lemma ring_block_range N r j : 1 ≤ r ≤ N → 0 ≤ j ≤ N → 1 ≤ ring_block N r j ≤ N.
Proof. intros. ring_case. Qed.
Lemma ring_block_dist N r w : 1 ≤ r ≤ N → 1 ≤ w ≤ N → ring_block N r (ring_dist N r w) = w.
Proof. intros. ring_case. Qed.
Lemma ring_dist_range N r w : 1 ≤ r ≤ N → 1 ≤ w ≤ N → 0 ≤ ring_dist N r w < N.
Proof. intros. ring_case. Qed.
Lemma ring_block_succ N r j :
  1 ≤ r ≤ N → 0 ≤ j < N → succ_block N (ring_block N r j) = ring_block N r (j + 1).
Proof. intros. ring_case. Qed.
Lemma ring_block_shift N r j :
  1 ≤ r ≤ N → 0 ≤ j < N → ring_block N (succ_block N r) j = ring_block N r (j + 1).
Proof. intros. ring_case. Qed.
Lemma ring_dist_put N r w :
  1 ≤ r ≤ N → 1 ≤ w ≤ N → succ_block N w ≠ r →
  ring_dist N r (succ_block N w) = ring_dist N r w + 1.
Proof. intros. ring_case. Qed.
Lemma ring_dist_drop N r w :
  1 ≤ r ≤ N → 1 ≤ w ≤ N → 0 < ring_dist N r w →
  ring_dist N (succ_block N r) w = ring_dist N r w - 1.
Proof. intros. ring_case. Qed.
Lemma ring_full N r w :
  1 ≤ r ≤ N → 1 ≤ w ≤ N → succ_block N w = r ↔ ring_dist N r w = N - 1.
Proof. intros. ring_case. Qed.

(** ** The abstract queue *)

Inductive mem_op : Type :=
  | PutSample (tc : Z) (block : list Z)
  | GetSample (index : Z)
  | GetBlocksToRead (tc : Z)
  | GoodUploadDone
  | BadUploadDone.

Inductive mem_obs : Type :=
  | Returned (v : Z)
  | Sample (s : option (list Z))
  | Void.

(** A queue of at most [cap] records.  An upload may only be reported done
    for a record that is there; a sample read has a good checksum; no more
    records are offered for reading than are queued. *)
Inductive q_step (cap : nat) : list (list Z) → mem_op → mem_obs → list (list Z) → Prop :=
  | q_put tc r q : (length q < cap)%nat → q_step cap q (PutSample tc r) (Returned 1) (q ++ [r])
  | q_full tc r q : length q = cap → q_step cap q (PutSample tc r) (Returned 0) q
  | q_get i o q :
      (∀ r, o = Some r → length r = MEMORY_RECORD_SIZE ∧ evaluate_checksum r ≠ CHECKSUM_FAIL) →
      q_step cap q (GetSample i) (Sample o) q
  | q_blocks tc n q :
      0 ≤ n ≤ Z.min 1000 (Z.of_nat (length q)) → q_step cap q (GetBlocksToRead tc) (Returned n) q
  | q_good r q : q_step cap (r :: q) GoodUploadDone Void q
  | q_bad r q : q_step cap (r :: q) BadUploadDone Void q.

Inductive q_trace (cap : nat) : list (list Z) → list mem_op → list mem_obs → list (list Z) → Prop :=
  | q_nil q : q_trace cap q [] [] q
  | q_cons q op o q' ops os q'' :
      q_step cap q op o q' → q_trace cap q' ops os q'' → q_trace cap q (op :: ops) (o :: os) q''.

(** The client's side of the contract, for a queue that holds [n] records of
    [cap] in a ring with last block [N]. *)
Definition op_guard (N : Z) (n : nat) (op : mem_op) : bool :=
  match op with
  | PutSample _ r => (length r =? MEMORY_RECORD_SIZE)%nat && bool_decide (bytes_ok r)
  | GetSample i => (0 <=? i) && (i <=? N)
  | GetBlocksToRead _ => true
  | GoodUploadDone | BadUploadDone => (0 <? n)%nat
  end.
Definition op_count (cap n : nat) (op : mem_op) : nat :=
  match op with
  | PutSample _ _ => if (n <? cap)%nat then S n else n
  | GetSample _ | GetBlocksToRead _ => n
  | GoodUploadDone | BadUploadDone => pred n
  end.
Fixpoint ops_guard (N : Z) (cap n : nat) (ops : list mem_op) : bool :=
  match ops with
  | [] => true
  | op :: ops => op_guard N n op && ops_guard N cap (op_count cap n op) ops
  end.

(** ** The implementation's step *)

Section Ring.
Context {B : Type} `{BlockDevLaws B}.
Implicit Types s : mem_state B.

Definition mem_step (op : mem_op) : M (mem_state B) mem_obs :=
  match op with
  | PutSample tc r => v ← put_sample tc r; mret (Returned v)
  | GetSample i => o ← get_sample i; mret (Sample o)
  | GetBlocksToRead tc => v ← get_blocks_to_read tc; mret (Returned v)
  | GoodUploadDone => good_upload_done;; mret Void
  | BadUploadDone => bad_upload_done;; mret Void
  end.

Fixpoint mem_exec (ops : list mem_op) : M (mem_state B) (list mem_obs) :=
  match ops with
  | [] => mret []
  | op :: ops => o ← mem_step op; os ← mem_exec ops; mret (o :: os)
  end.

Definition record_at s (n : Z) : list Z := take MEMORY_RECORD_SIZE (m_page s n).

(** The records the ring holds, oldest first. *)
Definition pending s : list (list Z) :=
  map (λ j, record_at s (ring_block (ring_top s) (m_read s) (Z.of_nat j)))
    (seq 1 (Z.to_nat (ring_dist (ring_top s) (m_read s) (m_write s)))).

Definition ring_cap s : nat := Z.to_nat (ring_top s - 1).

Lemma ring_ok_top s : ring_ok s → 1 ≤ ring_top s.
Proof. intros (_ & Hr & _). lia. Qed.

Lemma length_pending s :
  length (pending s) = Z.to_nat (ring_dist (ring_top s) (m_read s) (m_write s)).
Proof. unfold pending. by rewrite length_map, length_seq. Qed.

Lemma pending_same s s' :
  m_read s' = m_read s → m_write s' = m_write s → ring_top s' = ring_top s →
  (∀ k, m_page s' k = m_page s k) → pending s' = pending s.
Proof.
  intros Hr Hw Ht Hp. unfold pending, record_at. rewrite Hr, Hw, Ht.
  apply map_ext. intros j. by rewrite Hp.
Qed.

Lemma pending_put s s' r :
  ring_ok s → length r = MEMORY_RECORD_SIZE →
  m_read s' = m_read s → m_write s' = succ_block (ring_top s) (m_write s) →
  ring_top s' = ring_top s → m_write s' ≠ m_read s →
  (∀ k, k ≠ 0 → m_page s' k = if decide (k = m_write s') then page_of r 24 else m_page s k) →
  pending s' = pending s ++ [r].
Proof.
  intros (_ & Hr & Hw) Hlen Er Ew Et Hne Hp. unfold pending. rewrite Er, Et.
  pose proof (ring_dist_range _ _ _ Hr Hw) as Hd. rewrite Ew in Hne, Hp.
  rewrite Ew, ring_dist_put by done.
  replace (Z.to_nat (ring_dist (ring_top s) (m_read s) (m_write s) + 1))
    with (S (Z.to_nat (ring_dist (ring_top s) (m_read s) (m_write s)))) by lia.
  rewrite seq_S, map_app. f_equal.
  - apply map_ext_in. intros j Hj%in_seq. unfold record_at. f_equal. rewrite Hp by ring_case.
    apply decide_False. ring_case.
  - simpl map. f_equal. unfold record_at. rewrite Hp by ring_case.
    rewrite decide_True by ring_case. unfold page_of.
    rewrite take_app_le by (rewrite length_take, Hlen; done).
    by rewrite take_take, take_ge by (rewrite Hlen; done).
Qed.

Lemma pending_drop s s' :
  ring_ok s → pending s ≠ [] →
  m_read s' = succ_block (ring_top s) (m_read s) → m_write s' = m_write s →
  ring_top s' = ring_top s → (∀ k, k ≠ 0 → m_page s' k = m_page s k) →
  ∃ r, pending s = r :: pending s'.
Proof.
  intros (_ & Hr & Hw) Hne Er Ew Et Hp.
  pose proof (ring_dist_range _ _ _ Hr Hw) as Hd.
  assert (0 < ring_dist (ring_top s) (m_read s) (m_write s)) as Hpos.
  { destruct (decide (ring_dist (ring_top s) (m_read s) (m_write s) = 0)) as [E|]; [|lia].
    destruct Hne. unfold pending. by rewrite E. }
  unfold pending. rewrite Er, Ew, Et, ring_dist_drop by done.
  replace (Z.to_nat (ring_dist (ring_top s) (m_read s) (m_write s)))
    with (S (Z.to_nat (ring_dist (ring_top s) (m_read s) (m_write s) - 1))) by lia.
  eexists. simpl seq. simpl map. f_equal. rewrite <-(seq_shift _ 1), map_map.
  apply map_ext_in. intros j Hj%in_seq. unfold record_at.
  rewrite Hp by ring_case. rewrite ring_block_shift by lia. do 3 f_equal. lia.
Qed.

(** ** The simulation *)

(** One step keeps the ring and follows the queue. *)
Definition sim_post s (op : mem_op) (o : mem_obs) s' : Prop :=
  ring_ok s' ∧ ring_top s' = ring_top s ∧ q_step (ring_cap s) (pending s) op o (pending s').

Lemma ring_ok_count s : ring_ok s → (length (pending s) ≤ ring_cap s)%nat.
Proof.
  intros (_ & Hr & Hw). rewrite length_pending. unfold ring_cap.
  pose proof (ring_dist_range _ _ _ Hr Hw). lia.
Qed.

Lemma sim_put tc r s :
  ring_ok s → length r = MEMORY_RECORD_SIZE → bytes_ok r →
  runs (mem_step (PutSample tc r)) s (sim_post s (PutSample tc r)).
Proof.
  intros Hs Hlen Hb. pose proof Hs as (Hok & Hr & Hw). simpl.
  pose proof (ring_dist_range _ _ _ Hr Hw) as Hd.
  pose proof (ring_full _ _ _ Hr Hw) as Hf.
  destruct (decide (succ_block (ring_top s) (m_write s) = m_read s)) as [E|E].
  - eapply runs_intro; [by rewrite (bind_ok _ _ _ _ _ (put_sample_full tc r s Hok ltac:(lia) E))|].
    split; [done|]. split; [done|]. constructor. rewrite length_pending. unfold ring_cap.
    apply Hf in E. lia.
  - destruct (put_sample_ok tc r s Hok ltac:(lia) Hlen Hb E) as (s' & Hrun & Hok' & Er & Ew & Et & El & Hp).
    eapply runs_intro; [by rewrite (bind_ok _ _ _ _ _ Hrun)|].
    pose proof (succ_block_range (ring_top s) (m_write s) (ring_ok_top s Hs)).
    split; [split; [done|]; rewrite Er, Ew, Et; lia|]. split; [done|].
    rewrite (pending_put s s' r) by (done || rewrite ?Ew; first [done|intros k Hk; rewrite Hp, decide_False by done; done]).
    constructor. rewrite length_pending. unfold ring_cap.
    assert (ring_dist (ring_top s) (m_read s) (m_write s) ≠ ring_top s - 1) by (rewrite <-Hf; done). lia.
Qed.

Lemma sim_get i s :
  ring_ok s → 0 ≤ i ≤ ring_top s → runs (mem_step (GetSample i)) s (sim_post s (GetSample i)).
Proof.
  intros Hs Hi. pose proof Hs as (Hok & Hr & Hw). simpl.
  destruct (get_sample_ok i s Hok Hi) as (s' & Hrun & Hok' & Er & Ew & Et & _ & Hp).
  eapply runs_intro; [by rewrite (bind_ok _ _ _ _ _ Hrun)|].
  split; [split; [done|]; by rewrite Er, Ew, Et|]. split; [done|].
  rewrite (pending_same s s') by done. constructor. intros r.
  cbv zeta. destruct (evaluate_checksum _ =? _) eqn:E; [done|]. intros [= <-]. split; [|by apply Z.eqb_neq].
  destruct Hok as [Hok _]. unfold ring_top in Hi.
  destruct (blk_page_ok (m_dev s) i Hok ltac:(lia)) as [Hl _].
  rewrite length_take. unfold m_page. by rewrite Hl.
Qed.

Lemma get_blocks_to_read_ok tc s :
  is_u32 (m_read s) → is_u32 (m_write s) → - 2 ^ 31 ≤ m_write s - m_read s < 2 ^ 31 →
  get_blocks_to_read tc s =
    Ok (if decide (m_read s ≤ m_write s ∧ 3 ≤ u32 (tc - m_last_write s))
        then Z.min 1000 (m_write s - m_read s) else 0, s).
Proof.
  intros Hr Hw Hd. unfold get_blocks_to_read. rewrite bind_unfold. unfold get at 1.
  replace (s32 (u32 (m_write s - m_read s))) with (m_write s - m_read s).
  2:{ unfold is_u32 in *. destruct (decide (m_read s ≤ m_write s)).
      - by rewrite u32_small, s32_small by (unfold is_u32; lia).
      - unfold u32. rewrite (Z.mod_eq _ (2 ^ 32)) by lia.
        replace ((m_write s - m_read s) / 2 ^ 32) with (-1) by (Z.to_euclidean_division_equations; lia).
        unfold s32, sint. Z.to_euclidean_division_equations. lia. }
  unfold mret, M_ret. destruct (m_write s - m_read s <? 0) eqn:E1.
  { rewrite decide_False by lia. done. }
  destruct (u32 _ <? 3) eqn:E2.
  { rewrite decide_False by lia. done. }
  rewrite decide_True by lia. destruct (_ <? 1000) eqn:E3; do 2 f_equal; lia.
Qed.

Lemma sim_blocks tc s : ring_ok s → runs (mem_step (GetBlocksToRead tc)) s (sim_post s (GetBlocksToRead tc)).
Proof.
  intros Hs. pose proof Hs as (Hok & Hr & Hw). simpl.
  destruct Hok as (Hok & Hr32 & Hw32 & _). pose proof (blk_count_range _ Hok) as Hc.
  unfold MAX_BLOCK in Hc. unfold ring_top in Hr, Hw.
  eapply runs_intro.
  { rewrite (bind_ok _ _ _ _ _ (get_blocks_to_read_ok tc s Hr32 Hw32 ltac:(lia))). done. }
  split; [done|]. split; [done|]. constructor. rewrite length_pending.
  unfold ring_top. destruct (decide _) as [[Hle _]|_]; ring_case.
Qed.

Lemma sim_good s : ring_ok s → pending s ≠ [] → runs good_upload_done s (λ _ s',
  ring_ok s' ∧ ring_top s' = ring_top s ∧ ∃ r, pending s = r :: pending s').
Proof.
  intros Hs Hne. pose proof Hs as (Hok & Hr & Hw).
  destruct (good_upload_done_ok s Hok ltac:(lia)) as (s' & Hrun & Hok' & Er & Ew & Et & _ & Hp).
  eapply runs_intro; [done|]. pose proof (succ_block_range (ring_top s) (m_read s) (ring_ok_top s Hs)).
  split; [split; [done|]; rewrite Er, Ew, Et; lia|]. split; [done|].
  apply pending_drop; try done. intros k Hk. by rewrite Hp, decide_False.
Qed.

(** The failed upload re-reads the block and then moves on as well. *)
Lemma bad_upload_done_ok s :
  ring_ok s → ∃ s1, bad_upload_done s = good_upload_done s1 ∧ ring_ok s1 ∧
    m_read s1 = m_read s ∧ m_write s1 = m_write s ∧ ring_top s1 = ring_top s ∧
    ∀ k, m_page s1 k = m_page s k.
Proof.
  intros ((Hok & Hr32 & Hw32 & Hi & Hm) & Hr & Hw). unfold ring_top in Hr.
  destruct (blk_page_ok (m_dev s) (m_read s) Hok ltac:(lia)) as [Hpl _].
  destruct (blk_read_law (m_dev s) (m_mem_buf s) 24 (m_read s) Hok ltac:(lia) ltac:(lia)
    ltac:(rewrite Hm; done)) as (b & Hrd & Hok' & Hc & Hp).
  unfold bad_upload_done. rewrite bind_unfold. unfold gets at 1. rewrite bind_unfold. unfold gets at 1.
  change (Z.of_nat MEMORY_RECORD_SIZE) with 24.
  rewrite (bind_ok _ _ _ _ _ (on_dev_ok _ s _ _ Hrd)), bind_unfold. unfold set_mem_buf, modify.
  change (negb (0 =? 0)) with false. cbv iota beta.
  eexists. split; [done|]. unfold ring_ok, mem_ok, ring_top, m_page. simpl. rewrite Hc.
  split; [|done]. split; [|done]. repeat (split; [done|]).
  by rewrite length_app, length_take, length_drop, Hpl, Hm.
Qed.

Lemma sim_bad s : ring_ok s → pending s ≠ [] → runs bad_upload_done s (λ _ s',
  ring_ok s' ∧ ring_top s' = ring_top s ∧ ∃ r, pending s = r :: pending s').
Proof.
  intros Hs Hne. destruct (bad_upload_done_ok s Hs) as (s1 & E & Hs1 & Er & Ew & Et & Hp).
  pose proof (pending_same s s1 Er Ew Et Hp) as Epe. unfold runs. rewrite E.
  pose proof (sim_good s1 Hs1 ltac:(by rewrite Epe)) as Hg. unfold runs in Hg.
  by rewrite Epe, Et in Hg.
Qed.

Lemma sim_step op s :
  ring_ok s → op_guard (ring_top s) (length (pending s)) op = true →
  runs (mem_step op) s (sim_post s op).
Proof.
  intros Hs Hg. destruct op as [tc r|i|tc| |]; simpl in Hg.
  - apply andb_true_iff in Hg as [Hl Hb]. apply bool_decide_eq_true in Hb.
    apply Nat.eqb_eq in Hl. by apply sim_put.
  - apply sim_get; [done|lia].
  - by apply sim_blocks.
  - apply runs_bind. eapply runs_mono, sim_good; [|done|by destruct (pending s)].
    intros _ s' (Hok & Ht & r & Hp). split; [done|]. split; [done|]. rewrite Hp. constructor.
  - apply runs_bind. eapply runs_mono, sim_bad; [|done|by destruct (pending s)].
    intros _ s' (Hok & Ht & r & Hp). split; [done|]. split; [done|]. rewrite Hp. constructor.
Qed.

Lemma q_step_count cap q op o q' :
  q_step cap q op o q' → length q' = op_count cap (length q) op.
Proof.
  inversion 1; subst; simpl; try done.
  - rewrite length_app. simpl. destruct (Nat.ltb_spec (length q) cap); lia.
  - by rewrite Nat.ltb_irrefl.
Qed.

Lemma sim_trace ops s :
  ring_ok s → ops_guard (ring_top s) (ring_cap s) (length (pending s)) ops = true →
  runs (mem_exec ops) s (λ os s',
    ring_ok s' ∧ q_trace (ring_cap s) (pending s) ops os (pending s')).
Proof.
  revert s. induction ops as [|op ops IH]; intros s Hs Hg.
  { eapply runs_intro; [done|]. split; [done|constructor]. }
  simpl in Hg. apply andb_true_iff in Hg as [Hg1 Hg2]. simpl mem_exec.
  apply runs_bind. eapply runs_mono, (sim_step op s Hs Hg1). intros o s1 (Hs1 & Ht & Hq).
  assert (ring_cap s1 = ring_cap s) as Hcap by (unfold ring_cap; by rewrite Ht).
  rewrite <-(q_step_count _ _ _ _ _ Hq), <-Ht, <-Hcap in Hg2.
  apply runs_bind. eapply runs_mono, (IH s1 Hs1 Hg2). intros os s2 [Hs2 Hq2].
  eapply runs_intro; [done|]. split; [done|]. rewrite Hcap in Hq2. by econstructor.
Qed.
End Ring.

(** ** What a client reads *)

Section Clients.
Context {B : Type} `{BlockDevLaws B}.
Implicit Types s : mem_state B.

Lemma lookup_pending s i r :
  pending s !! i = Some r →
  r = record_at s (ring_block (ring_top s) (m_read s) (Z.of_nat i + 1)) ∧
  (i < Z.to_nat (ring_dist (ring_top s) (m_read s) (m_write s)))%nat.
Proof.
  intros E. pose proof (lookup_lt_Some _ _ _ E) as Hlt. rewrite length_pending in Hlt.
  split; [|done]. unfold pending in E.
  rewrite list_lookup_fmap, lookup_seq_lt in E by done. simpl in E. injection E as <-.
  do 2 f_equal. lia.
Qed.

Lemma get_pending s i r :
  ring_ok s → pending s !! i = Some r → evaluate_checksum r ≠ CHECKSUM_FAIL →
  runs (get_sample (ring_block (ring_top s) (m_read s) (Z.of_nat i + 1))) s
    (λ o s', o = Some r ∧ pending s' = pending s).
Proof.
  intros (Hok & Hr & Hw) E Hck. destruct (lookup_pending s i r E) as [Er Hi].
  pose proof (ring_dist_range _ _ _ Hr Hw) as Hd.
  pose proof (ring_block_range (ring_top s) (m_read s) (Z.of_nat i + 1) Hr ltac:(lia)) as Hb.
  assert (0 ≤ ring_block (ring_top s) (m_read s) (Z.of_nat i + 1) ≤ ring_top s) as Hb0 by lia.
  destruct (get_sample_ok (ring_block (ring_top s) (m_read s) (Z.of_nat i + 1)) s Hok Hb0)
    as (s' & Hrun & _ & E1 & E2 & E3 & _ & Hp).
  eapply runs_intro; [done|]. split; [|by apply pending_same]. cbv zeta.
  change (take 24 (m_page s ?k)) with (record_at s k). rewrite <-Er.
  by destruct (Z.eqb_spec (evaluate_checksum r) CHECKSUM_FAIL).
Qed.

(** The records an upload sends: [get_blocks_to_read] of them, starting at
    the read index. *)
Definition upload_window s : list (list Z) :=
  map (λ j, record_at s (ring_block (ring_top s) (m_read s) (Z.of_nat j)))
    (seq 0 (Z.to_nat (ring_dist (ring_top s) (m_read s) (m_write s)))).

Lemma upload_window_put tc r s :
  ring_ok s → length r = MEMORY_RECORD_SIZE → bytes_ok r →
  succ_block (ring_top s) (m_write s) ≠ m_read s →
  runs (put_sample tc r) s (λ v s', v = 1 ∧
    pending s' = pending s ++ [r] ∧
    upload_window s' = upload_window s ++ [record_at s (m_write s)]).
Proof.
  intros Hs Hlen Hb Hne. pose proof Hs as (Hok & Hr & Hw).
  destruct (put_sample_ok tc r s Hok ltac:(lia) Hlen Hb Hne)
    as (s' & Hrun & Hok' & Er & Ew & Et & El & Hp).
  assert (∀ k, k ≠ 0 → m_page s' k = if decide (k = m_write s') then page_of r 24 else m_page s k)
    as Hpg. { intros k Hk. by rewrite Hp, decide_False, Ew. }
  eapply runs_intro; [done|]. split; [done|].
  split; [apply (pending_put s s' r); first [done|by rewrite Ew]|].
  pose proof (ring_dist_range _ _ _ Hr Hw) as Hd.
  unfold upload_window. rewrite Er, Et, Ew, ring_dist_put by done.
  replace (Z.to_nat (ring_dist (ring_top s) (m_read s) (m_write s) + 1))
    with (S (Z.to_nat (ring_dist (ring_top s) (m_read s) (m_write s)))) by lia.
  rewrite seq_S, map_app. f_equal.
  - apply map_ext_in. intros j Hj%in_seq. unfold record_at. f_equal.
    rewrite Hpg by ring_case. apply decide_False. rewrite Ew. ring_case.
  - simpl map. rewrite Z2Nat.id, ring_block_dist by lia. unfold record_at. f_equal.
    rewrite Hpg by ring_case. rewrite decide_False; [done|]. rewrite Ew. ring_case.
Qed.

(** ** The claims *)

(** C1. The sample memory implements a bounded queue.  From any well-formed
    ring, every sequence of its operations in which uploads are reported done
    only for queued records runs to completion, keeps the ring well formed and
    behaves as the queue [q_trace]: a record is appended, or refused exactly
    when [ring_top - 1] records are held; a finished or failed upload removes
    the oldest; reading changes nothing, never yields a record with a bad
    checksum and never offers more than is queued. *)
Theorem ring_refines_queue ops s :
  ring_ok s → ops_guard (ring_top s) (ring_cap s) (length (pending s)) ops = true →
  runs (mem_exec ops) s (λ os s',
    ring_ok s' ∧ q_trace (ring_cap s) (pending s) ops os (pending s')).
Proof. apply sim_trace. Qed.

(** Every queued record with a good checksum can be read back from its
    place in the ring, unchanged, and reading it leaves the queue alone. *)
Theorem get_sample_reads_pending s i r :
  ring_ok s → pending s !! i = Some r → evaluate_checksum r ≠ CHECKSUM_FAIL →
  runs (get_sample (ring_block (ring_top s) (m_read s) (Z.of_nat i + 1))) s
    (λ o s', o = Some r ∧ pending s' = pending s).
Proof. apply get_pending. Qed.

(** An upload reads as many records as are queued but starts at the read
    index itself, one block before the oldest queued record: storing a record
    makes available not that record but the one stored before it. *)
Theorem put_sample_offers_previous tc r s :
  ring_ok s → length r = MEMORY_RECORD_SIZE → bytes_ok r →
  succ_block (ring_top s) (m_write s) ≠ m_read s →
  runs (put_sample tc r) s (λ v s', v = 1 ∧
    pending s' = pending s ++ [r] ∧
    upload_window s' = upload_window s ++ [record_at s (m_write s)]).
Proof. apply upload_window_put. Qed.

(** The number of blocks offered for upload, on every branch: nothing
    within three seconds of a write, otherwise the distance from the read to
    the write index, at most 1000 — but nothing at all once the write index
    has wrapped below the read index, although records are then queued. *)
Theorem get_blocks_to_read_value tc s :
  ring_ok s →
  get_blocks_to_read tc s =
    Ok (if decide (m_read s ≤ m_write s ∧ 3 ≤ u32 (tc - m_last_write s))
        then Z.min 1000 (m_write s - m_read s) else 0, s) ∧
  (m_write s < m_read s → pending s ≠ []).
Proof.
  intros Hs. pose proof Hs as ((Hok & Hr32 & Hw32 & _) & Hr & Hw).
  pose proof (blk_count_range _ Hok) as Hc. unfold MAX_BLOCK in Hc. split.
  - unfold ring_top in Hr, Hw. apply get_blocks_to_read_ok; (done || lia).
  - intros Hlt E. apply (f_equal length) in E. rewrite length_pending in E. simpl in E.
    assert (0 < ring_dist (ring_top s) (m_read s) (m_write s)) by ring_case. lia.
Qed.
End Clients.

(** ** A ring in memory *)

(** A record with its checksum, as [write.c] builds them. *)
Definition demo_record (n : Z) : list Z :=
  let body := le_bytes 4 n ++ replicate 16 7 in
  body ++ le_bytes 4 (calculate_checksum (body ++ replicate 4 0)).

(** Eleven blocks; blocks 10, 11 and 1 hold records, the indexes have wrapped. *)
Definition demo_ring : mem_state ram_disk :=
  MemState 9 1 (replicate 32 0) (replicate 24 0) 100
    (<[0%nat := page_of (index_page 9 1) 32]> (<[10%nat := page_of (demo_record 10) 24]>
      (<[11%nat := page_of (demo_record 11) 24]> (<[1%nat := page_of (demo_record 12) 24]>
        (blank_disk 12))))).

Lemma demo_ring_ok : ring_ok demo_ring.
Proof.
  split; [|split; by_decision]. split; [change (ram_ok (m_dev demo_ring)); by_decision|].
  split; [by_decision|]. split; [by_decision|]. done.
Qed.

Lemma ring_refines_queue_witness :
  runs (mem_exec [PutSample 200 (demo_record 13); GoodUploadDone; GetSample 11; BadUploadDone;
                  GetBlocksToRead 300]) demo_ring (λ os s',
    ring_ok s' ∧ q_trace (ring_cap demo_ring) (pending demo_ring)
      [PutSample 200 (demo_record 13); GoodUploadDone; GetSample 11; BadUploadDone;
       GetBlocksToRead 300] os (pending s')).
Proof. apply ring_refines_queue; [apply demo_ring_ok|by vm_compute]. Defined.

Lemma get_sample_reads_pending_witness :
  runs (get_sample (ring_block (ring_top demo_ring) (m_read demo_ring) (Z.of_nat 2 + 1))) demo_ring
    (λ o s', o = Some (demo_record 12) ∧ pending s' = pending demo_ring).
Proof.
  apply get_sample_reads_pending; [apply demo_ring_ok|by vm_compute|by_decision].
Defined.

Lemma put_sample_offers_previous_witness :
  runs (put_sample 200 (demo_record 13)) demo_ring (λ v s', v = 1 ∧
    pending s' = pending demo_ring ++ [demo_record 13] ∧
    upload_window s' = upload_window demo_ring ++ [record_at demo_ring (m_write demo_ring)]).
Proof.
  apply put_sample_offers_previous; [apply demo_ring_ok|done|by_decision|by_decision].
Defined.

Lemma get_blocks_to_read_value_witness :
  get_blocks_to_read 500 demo_ring = Ok (0, demo_ring) ∧
  (m_write demo_ring < m_read demo_ring → pending demo_ring ≠ []).
Proof. apply (get_blocks_to_read_value 500 demo_ring). apply demo_ring_ok. Defined.
