(* ===== verification/MemoryRecovery.v ===== *)
(** * The index page of the sample memory

    Block 0 keeps four offset copies of the indexes.  A page is accepted
    exactly when it is intact; a restart recovers indexes that lag behind
    the lost ones by fewer blocks than separate two saves. *)

From S2P Require Import Prelude Checksum BlockDev Memory MemoryRing.
From Stdlib Require Import ZArith Lia.
From stdpp Require Import base numbers list.
Open Scope Z_scope.

(** ** Accepted pages *)

Lemma word_bytes p i :
  bytes_ok p → (4 * i + 4 ≤ length p)%nat → le_bytes 4 (word p i) = take 4 (drop (4 * i) p).
Proof.
  intros Hp Hi. assert (length (take 4 (drop (4 * i) p)) = 4%nat) as Hl.
  { rewrite length_take, length_drop. lia. }
  unfold word. rewrite <-Hl at 1. apply le_bytes_word. by apply Forall_take, Forall_drop.
Qed.

Lemma word_u32 p i : bytes_ok p → is_u32 (word p i).
Proof.
  intros Hp. unfold word, is_u32.
  pose proof (le_word_bound (take 4 (drop (4 * i) p))) as Hb.
  assert (2 ^ (8 * Z.of_nat (length (take 4 (drop (4 * i) p)))) ≤ 2 ^ 32).
  { apply Z.pow_le_mono_r; [lia|]. rewrite length_take. lia. }
  destruct Hb; [by apply Forall_take, Forall_drop|]. lia.
Qed.
#[export] Hint Resolve word_u32 : cint.

(** An octet array of eight words is the concatenation of its words. *)
Lemma words_concat p :
  bytes_ok p → length p = 32%nat → concat (map (λ i, le_bytes 4 (word p i)) (seq 0 8)) = p.
Proof.
  intros Hp Hl. rewrite (map_ext_in _ (λ i, take 4 (drop (4 * i) p))).
  - do 32 (destruct p as [|? p]; [done|]). by destruct p.
  - intros i Hi%in_seq. apply word_bytes; [done|lia].
Qed.

(** The copies agree exactly when the page is the one that would be written. *)
Lemma copies_agree_iff p :
  bytes_ok p → length p = 32%nat →
  copies_differ p (word p 0) (word p 1) = false ↔ p = index_page (word p 0) (word p 1).
Proof.
  intros Hp Hl. split.
  - intros E. rewrite <-(words_concat p) at 1 by done. unfold index_page. simpl seq. simpl map.
    unfold copies_differ in E. cbn [existsb] in E.
    repeat match type of E with _ || _ = false => apply orb_false_iff in E as [?E E] end.
    repeat match goal with H : _ || _ = false |- _ => apply orb_false_iff in H as [?E ?E] end.
    repeat match goal with H : negb _ = false |- _ => apply negb_false_iff, Z.eqb_eq in H end.
    simpl in *.
    repeat match goal with H : word p _ = u32 _ |- _ => rewrite H; clear H end.
    by rewrite !Z.add_0_r, !(u32_small (word p _)) by auto with cint.
  - intros E. rewrite E at 1. apply word_index_page; auto with cint.
Qed.

(** Reading the index page, in one statement: it succeeds exactly on intact
    pages, and then yields the indexes they hold. *)
Section Pages.
Context {B : Type} `{BlockDevLaws B}.
Implicit Types s : mem_state B.

Lemma page0_ok s :
  mem_ok s → 1 ≤ ring_top s →
  bytes_ok (take 32 (m_page s 0)) ∧ length (take 32 (m_page s 0)) = 32%nat ∧
  word (m_page s 0) 0 = word (take 32 (m_page s 0)) 0 ∧
  word (m_page s 0) 1 = word (take 32 (m_page s 0)) 1.
Proof.
  intros (Hok & _) Ht. unfold ring_top in Ht.
  destruct (blk_page_ok (m_dev s) 0 Hok ltac:(lia)) as [Hl Hb].
  split; [by apply Forall_take|]. split; [rewrite length_take; unfold m_page; by rewrite Hl|].
  unfold word. rewrite !skipn_firstn_comm, !take_take. done.
Qed.

Definition read_post s (v : Z) s' : Prop :=
  (∀ k, m_page s' k = m_page s k) ∧
  ((v = 1 ∧ is_u32 (m_read s') ∧ is_u32 (m_write s') ∧
      take 32 (m_page s 0) = index_page (m_read s') (m_write s')) ∨
   (v = 0 ∧ m_read s' = 0xFFFFFFFF ∧ m_write s' = 0xFFFFFFFF ∧
      ∀ r w, is_u32 r → is_u32 w → take 32 (m_page s 0) ≠ index_page r w)).

Lemma get_memory_indexes_post s :
  mem_ok s → 1 ≤ ring_top s → runs get_memory_indexes s (read_post s).
Proof.
  intros Hok Ht. destruct (page0_ok s Hok Ht) as (Hb & Hl & E0 & E1).
  destruct (get_memory_indexes_ok s Hok Ht) as (s' & Hrun & _ & Hp & Hi & _).
  rewrite E0, E1 in *. eapply runs_intro; [done|]. split; [done|].
  pose proof (copies_agree_iff _ Hb Hl) as Hiff.
  destruct (copies_differ _ _ _).
  - right. destruct Hi as [-> ->]. repeat (split; [done|]). intros r w Hr Hw E.
    destruct (word_index_page r w Hr Hw) as (W0 & W1 & _).
    assert (true = false) as [=]. apply Hiff. rewrite E, W0, W1. done.
  - left. destruct Hi as [-> ->]. split; [done|]. split; [auto with cint|].
    split; [auto with cint|]. by apply Hiff.
Qed.
End Pages.

(** ** Lag of the saved indexes *)

(** Block [c] is [a] places after [c0] and no multiple of eight was passed. *)
Definition lags (N c0 c a : Z) : Prop :=
  0 ≤ a < N ∧ c = ring_block N c0 a ∧ ∀ j, 1 ≤ j ≤ a → Z.land (ring_block N c0 j) 7 ≠ 0.

Lemma land7 x : Z.land x 7 = x mod 8.
Proof. apply (Z.land_ones x 3). lia. Qed.

(** A ring of at least eight blocks has a multiple of eight among any fifteen
    consecutive ones. *)
Lemma next_multiple N c0 :
  8 ≤ N → 1 ≤ c0 ≤ N → ∃ j, 1 ≤ j ≤ 15 ∧ j ≤ N ∧ Z.land (ring_block N c0 j) 7 = 0.
Proof.
  intros HN Hc. pose proof (Z.div_mod c0 8 ltac:(lia)). pose proof (Z.mod_pos_bound c0 8 ltac:(lia)).
  setoid_rewrite land7. destruct (decide (8 * (c0 / 8) + 8 ≤ N)).
  - exists (8 * (c0 / 8) + 8 - c0). split; [lia|]. split; [lia|].
    unfold ring_block. rewrite decide_True by lia.
    replace (c0 + _) with ((c0 / 8 + 1) * 8) by lia. apply Z.mod_mul. lia.
  - exists (N - c0 + 8). split; [lia|]. split; [lia|].
    unfold ring_block. rewrite decide_False by lia. by replace (c0 + _ - N) with 8 by lia.
Qed.

Lemma lags_bound N c0 c a : 8 ≤ N → 1 ≤ c0 ≤ N → lags N c0 c a → a ≤ 14.
Proof.
  intros HN Hc (Ha & _ & Hno). destruct (next_multiple N c0 HN Hc) as (j & Hj & HjN & E).
  destruct (decide (a ≤ 14)); [done|]. destruct (Hno j ltac:(lia) E).
Qed.

Lemma lags_refl N c : 1 ≤ c ≤ N → lags N c c 0.
Proof. intros. split; [lia|]. split; [ring_case|]. lia. Qed.

Lemma lags_succ N c0 c a :
  8 ≤ N → 1 ≤ c0 ≤ N → lags N c0 c a → Z.land (succ_block N c) 7 ≠ 0 →
  lags N c0 (succ_block N c) (a + 1).
Proof.
  intros HN Hc0 (Ha & -> & Hno) Hne. destruct (next_multiple N c0 HN Hc0) as (j & Hj & HjN & E).
  rewrite ring_block_succ in * by lia. split; [|split; [done|]].
  - split; [lia|]. destruct (decide (a + 1 = N)); [|lia].
    destruct (decide (j = a + 1)); [by subst|]. destruct (Hno j ltac:(lia) E).
  - intros i Hi. destruct (decide (i = a + 1)) as [->|]; [done|]. apply Hno. lia.
Qed.

Lemma lags_dist N c0 c a : 1 ≤ c0 ≤ N → lags N c0 c a → ring_dist N c0 c = a.
Proof. intros Hc (Ha & -> & _). ring_case. Qed.

Section Recovery.
Context {B : Type} `{BlockDevLaws B}.
Implicit Types s t : mem_state B.

(** Block 0 holds indexes that the current ones are a short way past. *)
Definition saved s : Prop :=
  ∃ r0 w0 a b, m_page s 0 = page_of (index_page r0 w0) 32 ∧
    1 ≤ r0 ≤ ring_top s ∧ 1 ≤ w0 ≤ ring_top s ∧
    lags (ring_top s) r0 (m_read s) a ∧ lags (ring_top s) w0 (m_write s) b.

Lemma saved_same s s' :
  m_read s' = m_read s → m_write s' = m_write s → ring_top s' = ring_top s →
  m_page s' 0 = m_page s 0 → saved s → saved s'.
Proof. intros Er Ew Et Ep. unfold saved. by rewrite Er, Ew, Et, Ep. Qed.

(** Moving one index to [next], saving when it is a multiple of eight. *)
Lemma saved_put s s' :
  ring_ok s → 8 ≤ ring_top s → saved s →
  let next := succ_block (ring_top s) (m_write s) in
  m_read s' = m_read s → m_write s' = next → ring_top s' = ring_top s →
  m_page s' 0 = saved_page next (m_read s) next (m_page s 0) → saved s'.
Proof.
  intros Hs HN (r0 & w0 & a & b & Hp & Hr0 & Hw0 & La & Lb) next Er Ew Et Ep.
  unfold saved. rewrite Er, Ew, Et, Ep. unfold saved_page.
  pose proof Hs as (Hok & Hr & Hw).
  pose proof (succ_block_range (ring_top s) (m_write s) (ring_ok_top s Hs)) as Hn. fold next in Hn.
  destruct (Z.eqb_spec (Z.land next 7) 0).
  - exists (m_read s), next, 0, 0. repeat (split; [done|]). by split; apply lags_refl.
  - exists r0, w0, a, (b + 1). repeat (split; [done|]). by apply lags_succ.
Qed.

Lemma saved_drop s s' :
  ring_ok s → 8 ≤ ring_top s → saved s →
  let next := succ_block (ring_top s) (m_read s) in
  m_read s' = next → m_write s' = m_write s → ring_top s' = ring_top s →
  m_page s' 0 = saved_page next next (m_write s) (m_page s 0) → saved s'.
Proof.
  intros Hs HN (r0 & w0 & a & b & Hp & Hr0 & Hw0 & La & Lb) next Er Ew Et Ep.
  unfold saved. rewrite Er, Ew, Et, Ep. unfold saved_page.
  pose proof Hs as (Hok & Hr & Hw).
  pose proof (succ_block_range (ring_top s) (m_read s) (ring_ok_top s Hs)) as Hn. fold next in Hn.
  destruct (Z.eqb_spec (Z.land next 7) 0).
  - exists next, (m_write s), 0, 0. repeat (split; [done|]). by split; apply lags_refl.
  - exists r0, w0, (a + 1), b. repeat (split; [done|]). split; [by apply lags_succ|done].
Qed.

Definition saved_post s s' : Prop := ring_ok s' ∧ ring_top s' = ring_top s ∧ saved s'.

Lemma saved_good s :
  ring_ok s → 8 ≤ ring_top s → saved s → runs good_upload_done s (λ _, saved_post s).
Proof.
  intros Hs HN Hsv. pose proof Hs as (Hok & Hr & Hw).
  destruct (good_upload_done_ok s Hok ltac:(lia)) as (s' & Hrun & Hok' & Er & Ew & Et & _ & Hp).
  eapply runs_intro; [done|].
  pose proof (succ_block_range (ring_top s) (m_read s) (ring_ok_top s Hs)).
  split; [split; [done|]; rewrite Er, Ew, Et; lia|]. split; [done|].
  by apply (saved_drop s s').
Qed.

Lemma saved_step op s :
  ring_ok s → 8 ≤ ring_top s → saved s →
  op_guard (ring_top s) (length (pending s)) op = true →
  runs (mem_step op) s (λ _, saved_post s).
Proof.
  intros Hs HN Hsv Hg. pose proof Hs as (Hok & Hr & Hw). destruct op as [tc r|i|tc| |]; simpl in Hg.
  - apply andb_true_iff in Hg as [Hl%Nat.eqb_eq Hb%bool_decide_eq_true]. simpl.
    pose proof (sim_put tc r s Hs Hl Hb) as Hsim.
    destruct (decide (succ_block (ring_top s) (m_write s) = m_read s)) as [E|E].
    { eapply runs_intro; [by rewrite (bind_ok _ _ _ _ _ (put_sample_full tc r s Hok ltac:(lia) E))|done]. }
    destruct (put_sample_ok tc r s Hok ltac:(lia) Hl Hb E) as (s' & Hrun & Hok' & Er & Ew & Et & El & Hp).
    eapply runs_intro; [by rewrite (bind_ok _ _ _ _ _ Hrun)|].
    simpl in Hsim. unfold runs in Hsim. rewrite (bind_ok _ _ _ _ _ Hrun) in Hsim.
    destruct Hsim as (Hs' & _ & _). split; [done|]. split; [done|].
    by apply (saved_put s s').
  - simpl. destruct (get_sample_ok i s Hok ltac:(lia)) as (s' & Hrun & Hok' & Er & Ew & Et & _ & Hp).
    eapply runs_intro; [by rewrite (bind_ok _ _ _ _ _ Hrun)|].
    split; [split; [done|]; by rewrite Er, Ew, Et|]. split; [done|]. by apply (saved_same s s').
  - pose proof (sim_blocks tc s Hs) as Hsim. unfold runs in *. simpl in *.
    unfold get_blocks_to_read in *. mstep. revert Hsim. mstep.
    destruct (_ <? 0); [done|]. destruct (_ <? 3); done.
  - apply runs_bind. eapply runs_mono, saved_good; done.
  - apply runs_bind. destruct (bad_upload_done_ok s Hs) as (s1 & E & Hs1 & Er & Ew & Et & Hp).
    unfold runs at 1. rewrite E. pose proof (saved_good s1 Hs1 ltac:(lia)
      (saved_same s s1 Er Ew Et (Hp 0) Hsv)) as Hg1. unfold runs, saved_post in *.
    by rewrite Et in Hg1.
Qed.

Lemma saved_trace ops s :
  ring_ok s → 8 ≤ ring_top s → saved s →
  ops_guard (ring_top s) (ring_cap s) (length (pending s)) ops = true →
  runs (mem_exec ops) s (λ _, saved_post s).
Proof.
  revert s. induction ops as [|op ops IH]; intros s Hs HN Hsv Hg; [by eapply runs_intro|].
  simpl in Hg. apply andb_true_iff in Hg as [Hg1 Hg2]. simpl mem_exec. apply runs_bind.
  pose proof (sim_step op s Hs Hg1) as Hsim. pose proof (saved_step op s Hs HN Hsv Hg1) as Hst.
  unfold runs at 1 in Hst. unfold runs at 1 in Hsim. unfold runs at 1.
  destruct (mem_step op s) as [[o s1]| |]; [|done|done].
  destruct Hsim as (_ & _ & Hq). destruct Hst as (Hs1 & Ht & Hsv1).
  assert (ring_cap s1 = ring_cap s) as Hcap by (unfold ring_cap; by rewrite Ht).
  rewrite <-(q_step_count _ _ _ _ _ Hq), <-Ht, <-Hcap in Hg2.
  apply runs_bind. eapply runs_mono, (IH s1); [|done|lia|done|done].
  intros os s2 Hs2. eapply runs_intro; [done|]. unfold saved_post in *. by rewrite Ht in Hs2.
Qed.

(** Two index pages with the same octets hold the same indexes. *)
Lemma index_page_inj r w r' w' :
  is_u32 r → is_u32 w → is_u32 r' → is_u32 w' →
  index_page r w = index_page r' w' → r = r' ∧ w = w'.
Proof.
  intros Hr Hw Hr' Hw' E. destruct (word_index_page r w Hr Hw) as (A & B' & _).
  destruct (word_index_page r' w' Hr' Hw') as (C & D & _). rewrite E in A, B'. split; congruence.
Qed.

(** A restart on a device whose block 0 holds saved indexes. *)
Lemma memory_init_ok t v d r0 w0 :
  blk_init (m_dev t) = Ok (v, d) → blk_ok d → 1 < blk_count d →
  length (m_indexes_buf t) = 32%nat → length (m_mem_buf t) = MEMORY_RECORD_SIZE →
  is_u32 r0 → is_u32 w0 → blk_page d 0 = page_of (index_page r0 w0) 32 →
  runs memory_init t (λ x t', x = 1 ∧ m_read t' = r0 ∧ m_write t' = w0 ∧
    ∀ k, m_page t' k = blk_page d k).
Proof.
  intros Hi Hok Hc Hl Hm Hr Hw Hp. unfold memory_init, runs.
  rewrite (bind_ok _ _ _ _ _ (on_dev_ok _ t _ _ Hi)).
  rewrite bind_unfold. unfold set_last_write, modify. rewrite bind_unfold.
  unfold set_indexes at 1, modify. simpl.
  match goal with |- context [(get_memory_indexes ≫= _) ?x] => set (t1 := x) end.
  assert (mem_ok t1) as Hok1. { repeat split; simpl; (done || by unfold is_u32). }
  pose proof (get_memory_indexes_post t1 Hok1 ltac:(unfold ring_top; simpl; lia)) as Hg.
  rewrite bind_unfold. unfold runs in Hg. destruct (get_memory_indexes t1) as [[x t2]| |]; [|done|done].
  destruct Hg as [Hpg Hcase]. assert (take 32 (m_page t1 0) = index_page r0 w0) as E.
  { unfold m_page, t1. simpl. rewrite Hp. done. }
  destruct Hcase as [(-> & Hr2 & Hw2 & E2)|(_ & _ & _ & Hno)].
  - destruct (index_page_inj (m_read t2) (m_write t2) r0 w0); try done; congruence.
  - by destruct (Hno r0 w0 Hr Hw).
Qed.

(** The device after a power cut: same blocks, contents of the variables lost. *)
Definition same_card (s : mem_state B) (d : B) : Prop :=
  blk_ok d ∧ blk_count d = blk_count (m_dev s) ∧ ∀ k, blk_page d k = m_page s k.

Lemma restart_after s :
  ring_ok s → 8 ≤ ring_top s → saved s →
  ∀ t v d, blk_init (m_dev t) = Ok (v, d) → same_card s d →
    length (m_indexes_buf t) = 32%nat → length (m_mem_buf t) = MEMORY_RECORD_SIZE →
    runs memory_init t (λ x t', x = 1 ∧
      ring_dist (ring_top s) (m_read t') (m_read s) ≤ 14 ∧
      ring_dist (ring_top s) (m_write t') (m_write s) ≤ 14 ∧
      ∀ k, m_page t' k = m_page s k).
Proof.
  intros Hs HN (r0 & w0 & a & b & Hp & Hr0 & Hw0 & La & Lb) t v d Hi (Hok & Hc & Hd) Hl Hm.
  pose proof (blk_count_range _ Hok) as Hrange. unfold MAX_BLOCK in Hrange.
  assert (ring_top s = blk_count d - 1) as Et by (unfold ring_top; by rewrite Hc).
  eapply runs_mono, (memory_init_ok t v d r0 w0); try done; try lia; try (unfold is_u32; lia).
  - simpl. intros x t' (-> & -> & -> & Hpg). split; [done|].
    rewrite (lags_dist _ _ _ a), (lags_dist _ _ _ b) by done.
    split; [by eapply (lags_bound (ring_top s) r0)|].
    split; [by eapply (lags_bound (ring_top s) w0)|].
    intros k. by rewrite Hpg, Hd.
  - by rewrite Hd.
Qed.
End Recovery.

(** ** The claims *)

Section Claims.
Context {B : Type} `{BlockDevLaws B}.

(** Reading the indexes back: the page is accepted exactly when its first
    32 octets are the page that [put_memory_indexes] writes for some pair of
    indexes, and those are then the indexes; any other page is rejected and
    both indexes become 0xFFFFFFFF.  The device is not changed. *)
Theorem get_memory_indexes_iff_intact (s : mem_state B) :
  mem_ok s → 1 ≤ ring_top s → runs get_memory_indexes s (read_post s).
Proof. apply get_memory_indexes_post. Qed.

End Claims.

Lemma get_memory_indexes_iff_intact_witness :
  runs get_memory_indexes demo_ring (read_post demo_ring).
Proof. apply get_memory_indexes_iff_intact; [apply demo_ring_ok|by_decision]. Defined.

Lemma demo_ring_saved : saved demo_ring.
Proof.
  exists 9, 1, 0, 0. split; [done|]. split; [by_decision|]. split; [by_decision|].
  split; apply lags_refl; by_decision.
Qed.


(** The premises of the restart are met by the card left by those operations. *)
Example restart_premises :
  runs (mem_exec [GoodUploadDone; PutSample 7 (demo_record 2)]) demo_ring (λ _ s',
    blk_init (m_dev s') = Ok (0, m_dev s') ∧ same_card s' (m_dev s')).
Proof.
  pose proof (saved_trace [GoodUploadDone; PutSample 7 (demo_record 2)] demo_ring
    demo_ring_ok ltac:(by_decision) demo_ring_saved ltac:(by vm_compute)) as Hr.
  eapply runs_mono, Hr. intros _ s' ((Hok & _) & _). split; [done|]. split; [apply Hok|done].
Qed.
