(* ===== verification/Time.v ===== *)
(** * Gateway time ([src/sntp/time.c])

    A 64-bit count of seconds since 1970, kept by timer 3 (its low word) and
    a variable that is brought up to date whenever the time is read. *)

From S2P Require Import Prelude Hw.
From Stdlib Require Import ZArith Lia.
From stdpp Require Import base numbers list.
Open Scope Z_scope.

(** [current_time] is a [uint64_t] that the code reads and writes as two
    words: [ct_lo] is [ct_ptr[0]], [ct_hi] is [ct_ptr[1]]. *)
Record time_state (D : Type) : Type := TimeState {
  ct_lo : Z;
  ct_hi : Z;
  time_valid : Z;
  t_dev : D;
}.
Arguments TimeState {D}.
Arguments ct_lo {D}.
Arguments ct_hi {D}.
Arguments time_valid {D}.
Arguments t_dev {D}.

Section Operations.
Context {D : Type} `{Mmio D}.

Definition on_timer {A} (m : M D A) : M (time_state D) A :=
  lift t_dev (λ d s, TimeState (ct_lo s) (ct_hi s) (time_valid s) d) m.
Definition set_ct_lo (v : Z) : M (time_state D) unit :=
  modify (λ s, TimeState v (ct_hi s) (time_valid s) (t_dev s)).
Definition set_ct_hi (v : Z) : M (time_state D) unit :=
  modify (λ s, TimeState (ct_lo s) v (time_valid s) (t_dev s)).
Definition set_time_valid (v : Z) : M (time_state D) unit :=
  modify (λ s, TimeState (ct_lo s) (ct_hi s) v (t_dev s)).

(** The value of the variable as a 64-bit number. *)
Definition current_time (s : time_state D) : Z := ct_lo s + 2 ^ 32 * ct_hi s.

(** Not implemented by the sources: the time is never recorded. *)
Definition get_last_recorded_time : Z := 0.
Definition set_last_recorded_time (time : Z) : M (time_state D) unit := mret tt.

Definition ntp_set_current_time (secs us : Z) : M (time_state D) unit :=
  let lr_lo := u32 get_last_recorded_time in
  let lr_hi := u32 (get_last_recorded_time / 2 ^ 32) in
  (if secs <? lr_lo then set_ct_hi (u32 (lr_hi + 1)) else set_ct_hi lr_hi);;
  set_ct_lo secs;;
  on_timer (reg_write TIM3_PC (u32 (25 * us)));;
  on_timer (reg_write TIM3_TC secs);;
  set_time_valid 1;;
  time ← gets current_time;
  set_last_recorded_time time.

Definition get_current_time : M (time_state D) Z :=
  timer_val ← on_timer (reg_read TIM3_TC);
  lo ← gets ct_lo; hi ← gets ct_hi;
  (if timer_val <? lo then set_ct_hi (u32 (hi + 1)) else mret tt);;
  set_ct_lo timer_val;;
  gets current_time.

Definition is_time_valid : M (time_state D) Z := gets time_valid.

(** The text goes to the console; the state is brought up to date. *)
Definition print_current_time : M (time_state D) unit := get_current_time;; mret tt.

Definition init_current_time : M (time_state D) unit :=
  set_time_valid 0;;
  on_timer (reg_or SC_PCONP (Z.shiftl 1 23));;
  on_timer (reg_write TIM3_TCR 0x02);;
  on_timer (reg_write TIM3_PR (25 * 1000 * 1000 - 1));;
  on_timer (reg_write TIM3_TCR 0x01).
End Operations.

(** ** The timer as the code relies on it

    The counter is a register that reads back what was written to it;
    between two operations it advances by some number of seconds. *)
Class Clock (D : Type) `{Mmio D} : Type := {
  clk_tc : D → Z;
  clk_advance : Z → D → D;
  clk_tc_u32 : ∀ d, is_u32 (clk_tc d);
  clk_read : ∀ d, mmio_read TIM3_TC d = (clk_tc d, d);
  clk_write : ∀ v d, is_u32 v → clk_tc (mmio_write TIM3_TC v d) = v;
  clk_advance_tc : ∀ n d, clk_tc (clk_advance n d) = u32 (clk_tc d + n);
}.

Section Claims.
Context {D : Type} `{Clock D}.
Implicit Types s : time_state D.

(** The variable agrees with the timer as of the last reading. *)
Definition time_ok s : Prop := is_u32 (ct_lo s) ∧ is_u32 (ct_hi s) ∧ clk_tc (t_dev s) = ct_lo s.

(** Seconds pass. *)
Definition elapse (n : Z) s : time_state D :=
  TimeState (ct_lo s) (ct_hi s) (time_valid s) (clk_advance n (t_dev s)).

Lemma get_current_time_elapsed n s :
  time_ok s → 0 ≤ n < 2 ^ 32 →
  ∃ s', get_current_time (elapse n s) = Ok (u64 (current_time s + n), s') ∧
    time_ok s' ∧ current_time s' = u64 (current_time s + n) ∧ time_valid s' = time_valid s ∧
    t_dev s' = clk_advance n (t_dev s).
Proof.
  intros (Hlo & Hhi & Htc) Hn. unfold get_current_time.
  rewrite bind_unfold. unfold on_timer, lift, reg_read. simpl. rewrite clk_read, clk_advance_tc, Htc.
  rewrite bind_unfold. unfold gets at 1. rewrite bind_unfold. unfold gets at 1. simpl.
  rewrite bind_unfold. unfold current_time, time_ok.
  assert (∀ a b, is_u32 a → is_u32 b → is_u64 (a + 2 ^ 32 * b)) as H64.
  { intros a b. unfold is_u32, is_u64. lia. }
  destruct (u32 (ct_lo s + n) <? ct_lo s) eqn:E; simpl.
  - assert (u32 (ct_lo s + n) = ct_lo s + n - 2 ^ 32) as E1 by cint.
    assert (u64 (ct_lo s + 2 ^ 32 * ct_hi s + n) = u32 (ct_lo s + n) + 2 ^ 32 * u32 (ct_hi s + 1)) as E2
      by (rewrite E1; cint).
    eexists. split; [by unfold mret, M_ret; rewrite E2|]. simpl.
    rewrite clk_advance_tc, Htc. auto with cint.
  - assert (u32 (ct_lo s + n) = ct_lo s + n) as E1 by cint.
    assert (u64 (ct_lo s + 2 ^ 32 * ct_hi s + n) = u32 (ct_lo s + n) + 2 ^ 32 * ct_hi s) as E2
      by (rewrite E1; cint).
    eexists. split; [by unfold mret, M_ret; rewrite E2|]. simpl.
    rewrite clk_advance_tc, Htc. auto with cint.
Qed.

(** A reading at any moment brings the variable up to date; another one
    right after it changes nothing. *)
Lemma get_current_time_any s :
  is_u32 (ct_lo s) → is_u32 (ct_hi s) →
  ∃ s', get_current_time s = Ok (current_time s', s') ∧ time_ok s' ∧ time_valid s' = time_valid s ∧
    t_dev s' = t_dev s ∧ ct_lo s' = clk_tc (t_dev s).
Proof.
  intros Hlo Hhi. unfold get_current_time. rewrite bind_unfold. unfold on_timer, lift, reg_read. simpl.
  rewrite clk_read. rewrite bind_unfold. unfold gets at 1. rewrite bind_unfold. unfold gets at 1. simpl.
  rewrite bind_unfold. pose proof (clk_tc_u32 (t_dev s)). unfold time_ok.
  destruct (clk_tc (t_dev s) <? ct_lo s); (eexists; split; [done|]); simpl; auto with cint.
Qed.
Lemma get_current_time_again s :
  time_ok s → get_current_time s = Ok (current_time s, s).
Proof.
  intros (Hlo & Hhi & Htc). unfold get_current_time. rewrite bind_unfold. unfold on_timer, lift, reg_read.
  simpl. rewrite clk_read, Htc. rewrite bind_unfold. unfold gets at 1. rewrite bind_unfold.
  unfold gets at 1. simpl. rewrite Z.ltb_irrefl. rewrite bind_unfold. unfold mret, M_ret.
  unfold current_time. mstep. by destruct s.
Qed.
Lemma current_time_u64 s : time_ok s → is_u64 (current_time s).
Proof. intros (Hlo & Hhi & _). unfold current_time, is_u32, is_u64 in *. lia. Qed.

(** A run of the gateway as the clock sees it: seconds pass, the time is
    read, repeatedly; the readings. *)
Fixpoint readings (ns : list Z) : M (time_state D) (list Z) :=
  match ns with
  | [] => mret []
  | n :: ns => modify (elapse n);; t ← get_current_time; ts ← readings ns; mret (t :: ts)
  end.

(** Running totals modulo 2^64. *)
Fixpoint totals (t : Z) (ns : list Z) : list Z :=
  match ns with [] => [] | n :: ns => u64 (t + n) :: totals (u64 (t + n)) ns end.

Lemma readings_totals ns s :
  time_ok s → Forall (λ n, 0 ≤ n < 2 ^ 32) ns →
  runs (readings ns) s (λ ts s', ts = totals (current_time s) ns ∧ time_ok s' ∧
    time_valid s' = time_valid s).
Proof.
  intros Hok Hns. revert s Hok. induction Hns as [|n ns Hn _ IH]; intros s Hok.
  { by eapply runs_intro. }
  simpl readings. apply runs_bind. unfold runs at 1, modify.
  apply runs_bind. destruct (get_current_time_elapsed n s Hok Hn) as (s' & Hr & Hok' & Et & Ev & _).
  eapply runs_intro; [done|]. apply runs_bind. eapply runs_mono, (IH s' Hok').
  intros ts s2 (-> & Hok2 & Ev2). eapply runs_intro; [done|]. simpl.
  rewrite Et in *. split; [done|]. split; [done|]. congruence.
Qed.

Lemma ntp_set_ok secs us s :
  is_u32 secs →
  runs (ntp_set_current_time secs us) s (λ _ s', time_ok s' ∧ current_time s' = secs ∧ time_valid s' = 1).
Proof.
  intros Hs. eapply runs_intro.
  { unfold ntp_set_current_time. change (u32 get_last_recorded_time) with 0.
    destruct (secs <? 0) eqn:E; [unfold is_u32 in Hs; lia|]. done. }
  split; [|split; [|done]].
  - split; [done|]. split; [done|]. simpl. rewrite (u32_small secs) by done. by apply clk_write.
  - unfold current_time. simpl. change (u32 (get_last_recorded_time / 2 ^ 32)) with 0. lia.
Qed.

(** C13. Timekeeping.  Once the time has been set from the network, every later
    reading is the seconds set plus all the seconds that have passed, as a
    64-bit count: the 32-bit timer may wrap any number of times, as long as
    fewer than 2^32 seconds pass between two readings. *)
Theorem time_tracks_elapsed secs us ns s :
  is_u32 secs → Forall (λ n, 0 ≤ n < 2 ^ 32) ns →
  runs (ntp_set_current_time secs us;; readings ns) s
    (λ ts s', ts = totals secs ns ∧ time_valid s' = 1).
Proof.
  intros Hs Hns. apply runs_bind. eapply runs_mono, (ntp_set_ok secs us s Hs).
  intros _ s1 (Hok & Et & Ev). eapply runs_mono, (readings_totals ns s1 Hok Hns).
  intros ts s2 (-> & _ & Ev2). rewrite Et, Ev2. done.
Qed.
End Claims.

(** ** A timer *)

(** The counter kept in its register. *)
Record tim3 : Type := Tim3 { tim3_tc : Z; tim3_regs : reg → Z }.

#[export] Instance tim3_mmio : Mmio tim3 := {
  mmio_read r d := (if decide (r = TIM3_TC) then u32 (tim3_tc d) else tim3_regs d r, d);
  mmio_write r v d :=
    if decide (r = TIM3_TC) then Tim3 v (tim3_regs d)
    else Tim3 (tim3_tc d) (λ r', if decide (r' = r) then v else tim3_regs d r');
}.

#[export] Instance tim3_clock : Clock tim3.
Proof.
  refine {| clk_tc d := u32 (tim3_tc d);
            clk_advance n d := Tim3 (tim3_tc d + n) (tim3_regs d) |}.
  - auto with cint.
  - done.
  - intros v d Hv. by apply u32_small.
  - intros n d. simpl. unfold u32. by rewrite Zplus_mod_idemp_l.
Defined.

Definition demo_time : time_state tim3 := TimeState 5 9 0 (Tim3 0 (λ _, 0)).

(** The low word wraps between the first and the second reading. *)
Lemma time_tracks_elapsed_witness :
  runs (ntp_set_current_time 0xFFFFFFF0 250000;; readings [10; 20; 0x80000000]) demo_time
    (λ ts s', ts = totals 0xFFFFFFF0 [10; 20; 0x80000000] ∧ time_valid s' = 1).
Proof. apply time_tracks_elapsed; by_decision. Defined.
