(* ===== verification/Write.v ===== *)
(** * Storing a measurement ([src/memory/write.c])

    A record is six words: flags, time (low, high), left and right reading,
    checksum.  The theorem carries a measurement through the record format,
    the checksum and the ring of [Memory.v]. *)

From S2P Require Import Prelude Checksum BlockDev Hw Memory MemoryRing Time.
From Stdlib Require Import ZArith Lia.
From stdpp Require Import base numbers list.
Open Scope Z_scope.

(** [write_block] as octets, the clock and the sample memory. *)
Record write_state (B D : Type) : Type := WriteState {
  write_block : list Z;
  w_time : time_state D;
  w_mem : mem_state B;
}.
Arguments WriteState {B D}.
Arguments write_block {B D}.
Arguments w_time {B D}.
Arguments w_mem {B D}.

(** [words[i] = v] on an array of words kept as its octets. *)
Definition put_word (l : list Z) (i : nat) (v : Z) : list Z :=
  take (4 * i) l ++ le_bytes 4 v ++ drop (4 * i + 4) l.

Section Operations.
Context {B D : Type} `{BlockDev B} `{Mmio D}.

Definition on_time {A} (m : M (time_state D) A) : M (write_state B D) A :=
  lift w_time (λ t s, WriteState (write_block s) t (w_mem s)) m.
Definition on_mem {A} (m : M (mem_state B) A) : M (write_state B D) A :=
  lift w_mem (λ x s, WriteState (write_block s) (w_time s) x) m.
Definition set_word (i : nat) (v : Z) : M (write_state B D) unit :=
  modify (λ s, WriteState (put_word (write_block s) i v) (w_time s) (w_mem s)).

(** The result of [put_sample] is ignored; the time stamp it keeps is the
    timer's value at the call. *)
Definition write_sample_to_mem (record_flags left_data right_data time_ago : Z)
    : M (write_state B D) unit :=
  set_word 0 record_flags;;
  now ← on_time get_current_time;
  let time := u64 (now - time_ago) in
  set_word 1 (u32 time);;
  set_word 2 (u32 (time / 2 ^ 32));;
  set_word 3 left_data;;
  set_word 4 right_data;;
  block ← gets write_block;
  set_word 5 (calculate_checksum block);;
  block ← gets write_block;
  tc ← on_time (on_timer (reg_read TIM3_TC));
  on_mem (put_sample tc block);;
  mret tt.
End Operations.

(** ** The record format *)

(** The six words of a record. *)
Definition sample_block (flags time left right : Z) : list Z :=
  let data := le_bytes 4 flags ++ le_bytes 4 (u32 time) ++ le_bytes 4 (u32 (time / 2 ^ 32)) ++
              le_bytes 4 left ++ le_bytes 4 right in
  data ++ le_bytes 4 (crc32 data).

Lemma put_word_ok l i v : bytes_ok l → bytes_ok (put_word l i v).
Proof.
  intros. apply Forall_app. split; [by apply Forall_take|].
  apply Forall_app. split; [apply le_bytes_ok|by apply Forall_drop].
Qed.
#[export] Hint Resolve put_word_ok : cint.

Lemma put_words_block l flags time left right :
  length l = 24%nat → bytes_ok l →
  let l5 := put_word (put_word (put_word (put_word (put_word l 0 flags) 1 (u32 time)) 2
              (u32 (time / 2 ^ 32))) 3 left) 4 right in
  put_word l5 5 (calculate_checksum l5) = sample_block flags time left right.
Proof.
  intros Hl Hok l5. assert (bytes_ok l5) as Hok5 by (subst l5; auto 6 with cint).
  assert (take 20 l5 = le_bytes 4 flags ++ le_bytes 4 (u32 time) ++
    le_bytes 4 (u32 (time / 2 ^ 32)) ++ le_bytes 4 left ++ le_bytes 4 right ∧ length l5 = 24%nat)
    as [Ht Hl5].
  { subst l5. do 24 (destruct l as [|? l]; [done|]). destruct l; [|done]. by split. }
  clearbody l5. unfold put_word, sample_block.
  rewrite calculate_checksum_take, <-Ht by done.
  rewrite (drop_ge l5) by (rewrite Hl5; done). by rewrite app_nil_r.
Qed.

Lemma length_sample_block flags time left right :
  length (sample_block flags time left right) = MEMORY_RECORD_SIZE.
Proof. done. Qed.

Lemma sample_block_ok flags time left right : bytes_ok (sample_block flags time left right).
Proof. unfold sample_block. auto 10 with cint. Qed.

Lemma sample_block_checksum flags time left right :
  evaluate_checksum (sample_block flags time left right) = CHECKSUM_PASS.
Proof.
  apply evaluate_checksum_append; [done|]. auto 10 with cint.
Qed.

(** The fields of a record, as [http_tx.c] reads them. *)
Lemma sample_block_words flags time left right :
  is_u32 flags → is_u64 time → is_u32 left → is_u32 right →
  let b := sample_block flags time left right in
  word b 0 = flags ∧ word b 1 + 2 ^ 32 * word b 2 = time ∧ word b 3 = left ∧ word b 4 = right.
Proof.
  intros Hf Ht Hl Hr b.
  assert (∀ x, is_u32 x → le_word (le_bytes 4 x) = x) as Hle.
  { intros x Hx. rewrite le_word_bytes. by apply Z.mod_small. }
  split; [by apply Hle|]. split; [|split; by apply Hle].
  change (word b 1) with (le_word (le_bytes 4 (u32 time))).
  change (word b 2) with (le_word (le_bytes 4 (u32 (time / 2 ^ 32)))).
  rewrite !Hle by auto with cint. cint.
Qed.

(** ** From a measurement to a queued record *)

Section Claims.
Context {B D : Type} `{BlockDevLaws B} `{Clock D}.
Implicit Types s : write_state B D.

Definition write_ok s : Prop :=
  length (write_block s) = 24%nat ∧ bytes_ok (write_block s) ∧ time_ok (w_time s) ∧
  ring_ok (w_mem s).

(** A bounded queue takes a record while it has room. *)
Definition enqueue (cap : nat) (q : list (list Z)) (r : list Z) : list (list Z) :=
  if (length q <? cap)%nat then q ++ [r] else q.

Lemma put_sample_post tc r (m : mem_state B) :
  ring_ok m → length r = MEMORY_RECORD_SIZE → bytes_ok r →
  runs (put_sample tc r) m (λ _ m', ring_ok m' ∧ ring_cap m' = ring_cap m ∧
    pending m' = enqueue (ring_cap m) (pending m) r).
Proof.
  intros Hm Hl Hb. pose proof (sim_put tc r m Hm Hl Hb) as Hsim. simpl in Hsim.
  unfold runs in *. rewrite bind_unfold in Hsim.
  destruct (put_sample tc r m) as [[v m']| |]; [|done|done]. simpl in Hsim.
  destruct Hsim as (Hm' & Ht & Hq). split; [done|]. split; [unfold ring_cap; by rewrite Ht|].
  unfold enqueue. inversion Hq; subst.
  - destruct (Nat.ltb_spec (length (pending m)) (ring_cap m)); [done|lia].
  - destruct (Nat.ltb_spec (length (pending m)) (ring_cap m)); [lia|done].
Qed.

Lemma on_time_ok {A} (m : M (time_state D) A) s a t :
  m (w_time s) = Ok (a, t) → on_time m s = Ok (a, WriteState (write_block s) t (w_mem s)).
Proof. intros E. unfold on_time, lift. by rewrite E. Qed.

(** The record, for the time that the clock shows. *)
Lemma write_sample_at now t' flags left right time_ago s :
  length (write_block s) = 24%nat → bytes_ok (write_block s) → ring_ok (w_mem s) →
  get_current_time (w_time s) = Ok (now, t') → time_ok t' →
  let rec := sample_block flags (u64 (now - time_ago)) left right in
  runs (write_sample_to_mem flags left right time_ago) s (λ _ s', write_ok s' ∧ w_time s' = t' ∧
    ring_cap (w_mem s') = ring_cap (w_mem s) ∧
    pending (w_mem s') = enqueue (ring_cap (w_mem s)) (pending (w_mem s)) rec).
Proof.
  intros Hl Hb Hm Hg Ht' rec. unfold write_sample_to_mem.
  unfold runs. rewrite bind_unfold. unfold set_word, modify. simpl.
  rewrite (bind_ok _ _ _ _ _ (on_time_ok get_current_time (WriteState _ _ _) _ t' Hg)).
  mstep. rewrite put_words_block by done. fold rec.
  assert (on_time (on_timer (reg_read TIM3_TC)) (WriteState rec t' (w_mem s))
    = Ok (clk_tc (t_dev t'), WriteState rec t' (w_mem s))) as ->.
  { unfold on_time, on_timer, lift, reg_read. simpl. rewrite clk_read. by destruct t'. }
  rewrite bind_unfold. unfold on_mem, lift. simpl.
  pose proof (put_sample_post (clk_tc (t_dev t')) rec (w_mem s) Hm (length_sample_block _ _ _ _)
    (sample_block_ok _ _ _ _)) as Hp. unfold runs in Hp.
  destruct (put_sample _ _ _) as [[v m']| |]; [|done|done]. destruct Hp as (Hm' & Hc & Hp). simpl.
  split; [|done]. split; [done|]. split; [apply sample_block_ok|]. done.
Qed.

Lemma write_sample_post n flags left right time_ago s :
  write_ok s → 0 ≤ n < 2 ^ 32 →
  let time := u64 (current_time (w_time s) + n - time_ago) in
  let rec := sample_block flags time left right in
  runs (write_sample_to_mem flags left right time_ago)
    (WriteState (write_block s) (elapse n (w_time s)) (w_mem s)) (λ _ s', write_ok s' ∧
    pending (w_mem s') = if (length (pending (w_mem s)) <? ring_cap (w_mem s))%nat
                         then pending (w_mem s) ++ [rec] else pending (w_mem s)).
Proof.
  intros (Hl & Hb & Ht & Hm) Hn time rec.
  destruct (get_current_time_elapsed n (w_time s) Ht Hn) as (t' & Hg & Ht' & _).
  eapply runs_mono, (write_sample_at _ t' flags left right time_ago (WriteState _ _ _) Hl Hb Hm Hg Ht').
  intros ? s' (Hs' & _ & _ & Hp). split; [done|]. subst rec time. unfold enqueue in Hp. simpl in Hp.
  replace (u64 (current_time (w_time s) + n - time_ago))
    with (u64 (u64 (current_time (w_time s) + n) - time_ago)); [done|].
  unfold u64. by rewrite Zminus_mod_idemp_l.
Qed.

(** A measurement is stored intact.  When [n] seconds have passed since
    the clock was last read, [write_sample_to_mem] appends to the queue of the
    sample memory — unless it is full, and then nothing — one record, which
    passes the checksum and whose words are the flags, the 64-bit time of the
    measurement and the two readings. *)
Theorem write_sample_stores_record n flags left right time_ago s :
  write_ok s → 0 ≤ n < 2 ^ 32 → is_u32 flags → is_u32 left → is_u32 right →
  runs (write_sample_to_mem flags left right time_ago)
    (WriteState (write_block s) (elapse n (w_time s)) (w_mem s)) (λ _ s', write_ok s' ∧
    if (length (pending (w_mem s)) <? ring_cap (w_mem s))%nat then
      ∃ b, pending (w_mem s') = pending (w_mem s) ++ [b] ∧
        evaluate_checksum b = CHECKSUM_PASS ∧ word b 0 = flags ∧
        word b 1 + 2 ^ 32 * word b 2 = u64 (current_time (w_time s) + n - time_ago) ∧
        word b 3 = left ∧ word b 4 = right
    else pending (w_mem s') = pending (w_mem s)).
Proof.
  intros Hs Hn Hf Hl Hr.
  eapply runs_mono, (write_sample_post n flags left right time_ago s Hs Hn).
  intros _ s' [Hs' Hp]. split; [done|]. destruct (_ <? _)%nat; [|done].
  eexists. split; [done|]. split; [apply sample_block_checksum|].
  apply sample_block_words; auto with cint.
Qed.
End Claims.

Definition demo_write : write_state ram_disk tim3 :=
  WriteState (replicate 24 0) (TimeState 7 0 1 (Tim3 7 (λ _, 0))) demo_ring.

Lemma write_sample_stores_record_witness :
  runs (write_sample_to_mem 0x55555555 1234 5678 30)
    (WriteState (write_block demo_write) (elapse 60 (w_time demo_write)) (w_mem demo_write))
    (λ _ s', write_ok s' ∧
    if (length (pending (w_mem demo_write)) <? ring_cap (w_mem demo_write))%nat then
      ∃ b, pending (w_mem s') = pending (w_mem demo_write) ++ [b] ∧
        evaluate_checksum b = CHECKSUM_PASS ∧ word b 0 = 0x55555555 ∧
        word b 1 + 2 ^ 32 * word b 2 = u64 (current_time (w_time demo_write) + 60 - 30) ∧
        word b 3 = 1234 ∧ word b 4 = 5678
    else pending (w_mem s') = pending (w_mem demo_write)).
Proof.
  apply write_sample_stores_record; [|by_decision..].
  split; [done|]. split; [by_decision|]. split; [|apply demo_ring_ok].
  split; [by_decision|]. split; by_decision.
Defined.
