(* ===== verification/Base64.v ===== *)
(** * Base64 ([src/base64.c])

    The encoder that the HTTP client uses for its authorization header,
    checked against an independent decoder. *)

From S2P Require Import Prelude.
From Stdlib Require Import Ascii String ZArith Lia.
From stdpp Require Import base numbers list.
Open Scope Z_scope.

Definition base64_chars : list Z :=
  str "ABCDEFGHIJKLMNOPQRSTUVWXYZabcdefghijklmnopqrstuvwxyz0123456789+/".

(** Four 6-bit values from [char_array_3]; the array holds unsigned
    characters. *)
Definition char_array_4 (c3 : list Z) : list Z :=
  [u8 (Z.shiftr (Z.land c3.[0] 0xfc) 2);
   u8 (Z.shiftl (Z.land c3.[0] 0x03) 4 + Z.shiftr (Z.land c3.[1] 0xf0) 4);
   u8 (Z.shiftl (Z.land c3.[1] 0x0f) 2 + Z.shiftr (Z.land c3.[2] 0xc0) 6);
   u8 (Z.land c3.[2] 0x3f)].

Definition base64_char (v : Z) : Z := base64_chars.[Z.to_nat v].

(** The [while (length--)] loop: the fill [i] of [char_array_3], the array
    and the output so far. *)
Fixpoint encode_loop (input : list Z) (i : nat) (c3 output : list Z) : nat * list Z * list Z :=
  match input with
  | [] => (i, c3, output)
  | c :: input =>
     let c3 := <[i := c]> c3 in
     let i := S i in
     if (i =? 3)%nat then encode_loop input 0 c3 (output ++ map base64_char (char_array_4 c3))
     else encode_loop input i c3 output
  end.

(** One or two trailing characters: fill with zeros, output [i + 1]
    characters and pad with equals signs. *)
Definition encode_tail (i : nat) (c3 output : list Z) : list Z :=
  if (i =? 0)%nat then output
  else
    let c3 := fold_left (λ c3 j, <[j := 0]> c3) (seq i (3 - i)) c3 in
    output ++ map base64_char (take (i + 1) (char_array_4 c3)) ++ replicate (3 - i) (char "=").

(** The octets written, with the terminator, and the returned count.  The
    array [char_array_3] is uninitialised; [c3] is what it holds. *)
Definition base64_encode (c3 input : list Z) : Z * list Z :=
  let '(i, c3, output) := encode_loop input 0 c3 [] in
  let output := encode_tail i c3 output in
  (u16 (Z.of_nat (length output)), output ++ [0]).

(** ** A decoder *)

Definition base64_val (c : Z) : option Z :=
  option_map (λ p, Z.of_nat p.1) (list_find (λ x, x = c) base64_chars).

Definition octets3 (s0 s1 s2 s3 : Z) : list Z :=
  [s0 * 4 + s1 / 16; (s1 mod 16) * 16 + s2 / 4; (s2 mod 4) * 64 + s3].

Fixpoint base64_decode (l : list Z) : option (list Z) :=
  match l with
  | [] => Some []
  | c0 :: c1 :: c2 :: c3 :: rest =>
     s0 ← base64_val c0; s1 ← base64_val c1;
     match base64_val c2, base64_val c3 with
     | Some s2, Some s3 => r ← base64_decode rest; Some (octets3 s0 s1 s2 s3 ++ r)
     | Some s2, None =>
        if decide (c3 = char "=" ∧ rest = []) then Some (take 2 (octets3 s0 s1 s2 0)) else None
     | None, _ =>
        if decide (c2 = char "=" ∧ c3 = char "=" ∧ rest = []) then Some (take 1 (octets3 s0 s1 0 0))
        else None
     end
  | _ => None
  end.

(** ** The encoder's sextets *)

Lemma base64_val_char v : 0 ≤ v < 64 → base64_val (base64_char v) = Some v.
Proof.
  intros Hv. assert (Forall (λ n, base64_val (base64_char (Z.of_nat n)) = Some (Z.of_nat n)) (seq 0 64))
    as Hall by by_decision.
  rewrite Forall_forall in Hall. rewrite <-(Z2Nat.id v) by lia. apply Hall.
  apply elem_of_seq. lia.
Qed.

Lemma base64_val_pad : base64_val (char "=") = None.
Proof. by vm_compute. Qed.

(** The sextets as arithmetic on the three octets. *)
Definition sextets (a b c : Z) : list Z :=
  [a / 4; (a mod 4) * 16 + b / 16; (b mod 16) * 4 + c / 64; c mod 64].

Lemma land_field x lo w m : 0 ≤ lo → 0 ≤ w → m = Z.shiftl (Z.ones w) lo →
  Z.shiftr (Z.land x m) lo = (x / 2 ^ lo) mod 2 ^ w.
Proof.
  intros Hlo Hw ->. rewrite Z.shiftr_land, Z.shiftr_shiftl_l, Z.sub_diag, Z.shiftl_0_r by lia.
  by rewrite Z.land_ones, Z.shiftr_div_pow2 by lia.
Qed.

Lemma char_array_4_sextets a b c :
  is_u8 a → is_u8 b → is_u8 c → char_array_4 [a; b; c] = sextets a b c.
Proof.
  intros Ha Hb Hc. unfold char_array_4, sextets, octet. simpl nth.
  rewrite (land_field a 2 6), (land_field b 4 4), (land_field c 6 2) by done.
  rewrite !Z.shiftl_mul_pow2 by lia.
  change 0x03 with (Z.ones 2). change 0x0f with (Z.ones 4). change 0x3f with (Z.ones 6).
  rewrite !Z.land_ones by lia.
  repeat f_equal; cint.
Qed.

Lemma sextets_range a b c :
  is_u8 a → is_u8 b → is_u8 c → Forall (λ v, 0 ≤ v < 64) (sextets a b c).
Proof. intros. unfold sextets. repeat constructor; cint. Qed.

Lemma octets3_sextets a b c :
  is_u8 a → is_u8 b → is_u8 c →
  octets3 (a / 4) ((a mod 4) * 16 + b / 16) ((b mod 16) * 4 + c / 64) (c mod 64) = [a; b; c].
Proof. intros. unfold octets3. repeat f_equal; cint. Qed.

(** ** The round trip *)

(** What the encoder produces, three octets at a time. *)
Fixpoint base64_spec (l : list Z) : list Z :=
  match l with
  | [] => []
  | [a] => map base64_char (take 2 (sextets a 0 0)) ++ [char "="; char "="]
  | [a; b] => map base64_char (take 3 (sextets a b 0)) ++ [char "="]
  | a :: b :: c :: l => map base64_char (sextets a b c) ++ base64_spec l
  end.

Lemma list_triple_ind (P : list Z → Prop) :
  P [] → (∀ a, P [a]) → (∀ a b, P [a; b]) → (∀ a b c l, P l → P (a :: b :: c :: l)) → ∀ l, P l.
Proof.
  intros H0 H1 H2 H3. fix IH 1. intros [|a [|b [|c l]]]; [done|done|done|]. apply H3, IH.
Qed.

Lemma encode_is_spec l :
  bytes_ok l → ∀ c3 out, length c3 = 3%nat →
  let '(i, c3', out') := encode_loop l 0 c3 out in
  encode_tail i c3' out' = out ++ base64_spec l.
Proof.
  induction l as [|a|a b|a b c l IH] using list_triple_ind;
    intros Hok [|x0 [|x1 [|x2 [|]]]] out Hlen; try done;
    forall_inv.
  - simpl. by rewrite app_nil_r.
  - simpl encode_loop. unfold encode_tail. simpl fold_left. simpl Nat.eqb. cbv iota.
    by rewrite char_array_4_sextets by done.
  - simpl encode_loop. unfold encode_tail. simpl fold_left. simpl Nat.eqb. cbv iota.
    by rewrite char_array_4_sextets by done.
  - change (encode_loop (a :: b :: c :: l) 0 [x0; x1; x2] out)
      with (encode_loop l 0 [a; b; c] (out ++ map base64_char (char_array_4 [a; b; c]))).
    rewrite char_array_4_sextets by done.
    match goal with |- context [encode_loop l 0 ?c ?o] => specialize (IH ltac:(done) c o eq_refl) end.
    destruct (encode_loop l 0 _ _) as [[i c3'] out']. rewrite IH. simpl base64_spec. by rewrite <-app_assoc.
Qed.

Lemma decode_spec l : bytes_ok l → base64_decode (base64_spec l) = Some l.
Proof.
  induction l as [|a|a b|a b c l IH] using list_triple_ind; intros Hok; [done|..];
    forall_inv.
  - pose proof (sextets_range a 0 0 ltac:(done) ltac:(done) ltac:(done)) as Hs.
    unfold sextets in Hs. forall_inv.
    cbn [base64_decode base64_spec sextets take map app]. rewrite !base64_val_char by done. rewrite base64_val_pad. simpl.
    pose proof (octets3_sextets a 0 0 ltac:(done) ltac:(done) ltac:(done)) as [= E _].
    by rewrite E.
  - pose proof (sextets_range a b 0 ltac:(done) ltac:(done) ltac:(done)) as Hs.
    unfold sextets in Hs. forall_inv.
    cbn [base64_decode base64_spec sextets take map app]. rewrite !base64_val_char by done. rewrite base64_val_pad. simpl.
    pose proof (octets3_sextets a b 0 ltac:(done) ltac:(done) ltac:(done)) as [= E1 E2].
    by rewrite E1, E2.
  - pose proof (sextets_range a b c ltac:(done) ltac:(done) ltac:(done)) as Hs.
    unfold sextets in Hs. forall_inv.
    cbn [base64_decode base64_spec sextets take map app]. rewrite !base64_val_char by done. rewrite IH by done. simpl.
    pose proof (octets3_sextets a b c ltac:(done) ltac:(done) ltac:(done)) as [= E1 E2 E3].
    by rewrite E1, E2, E3.
Qed.

Lemma length_spec l : Z.of_nat (length (base64_spec l)) = 4 * ((Z.of_nat (length l) + 2) / 3).
Proof.
  induction l as [|a|a b|a b c l IH] using list_triple_ind; [done|done|done|].
  change (base64_spec (a :: b :: c :: l)) with (map base64_char (sextets a b c) ++ base64_spec l).
  rewrite length_app, length_map, Nat2Z.inj_add, IH. simpl length.
  Z.to_euclidean_division_equations. lia.
Qed.

Lemma base64_encode_spec c3 l :
  length c3 = 3%nat → bytes_ok l →
  base64_encode c3 l = (u16 (Z.of_nat (length (base64_spec l))), base64_spec l ++ [0]).
Proof.
  intros Hc Hl. unfold base64_encode. pose proof (encode_is_spec l Hl c3 [] Hc) as E.
  destruct (encode_loop l 0 c3 []) as [[i c3'] out]. by rewrite E.
Qed.

(** C14. The encoder is correct and complete: whatever the uninitialised
    working array holds, the text it writes decodes to the input, is followed
    by the terminator, and has four characters for every three octets begun,
    which is the count returned when it fits the 16-bit result. *)
Theorem base64_round_trip c3 l :
  length c3 = 3%nat → bytes_ok l → 4 * ((Z.of_nat (length l) + 2) / 3) < 2 ^ 16 →
  ∃ text, base64_encode c3 l = (Z.of_nat (length text), text ++ [0]) ∧
    base64_decode text = Some l ∧
    Z.of_nat (length text) = 4 * ((Z.of_nat (length l) + 2) / 3).
Proof.
  intros Hc Hl Hlen. exists (base64_spec l). pose proof (length_spec l) as E.
  rewrite base64_encode_spec by done. rewrite u16_small by (unfold is_u16; lia).
  split; [done|]. split; [by apply decode_spec|done].
Qed.

Lemma base64_round_trip_witness :
  ∃ text, base64_encode [9; 9; 9] (str "user:pass") = (Z.of_nat (length text), text ++ [0]) ∧
    base64_decode text = Some (str "user:pass") ∧ Z.of_nat (length text) = 12.
Proof. apply (base64_round_trip [9; 9; 9] (str "user:pass")); [done|by_decision|done]. Defined.
