(* ===== verification/HttpTx.v ===== *)
(** * The request to the database ([src/http_tx.c])

    Each function writes text at a position of the output buffer and returns
    its length; it is modelled by the text, whose length is the result.  The
    conversions of [sprintf] that the code uses are modelled first. *)

From S2P Require Import Prelude Checksum Memory Base64.
From Stdlib Require Import Ascii String ZArith Lia.
From stdpp Require Import base numbers list.
Open Scope Z_scope.

(** ** [sprintf] conversions *)

Definition digit_char (d : Z) : Z := if d <? 10 then char "0" + d else char "a" + (d - 10).

(** Digits of [n] in a base, most significant first, at least one. *)
Fixpoint digits (base : Z) (fuel : nat) (n : Z) : list Z :=
  match fuel with
  | O => []
  | S fuel =>
     if n <? base then [digit_char n]
     else digits base fuel (n / base) ++ [digit_char (n mod base)]
  end.

(** [%u] and [%lu]; a 32-bit value has at most ten digits. *)
Definition fmt_u (n : Z) : list Z := digits 10 10 n.
(** [%d] *)
Definition fmt_d (n : Z) : list Z := if n <? 0 then char "-" :: fmt_u (- n) else fmt_u n.
(** [%x] and [%08x] *)
Definition fmt_x (n : Z) : list Z := digits 16 8 n.
Definition fmt_08x (n : Z) : list Z :=
  let d := fmt_x n in replicate (8 - length d) (char "0") ++ d.

Definition quote : list Z := [34].
(** A JSON key with its colon. *)
Definition key (name : string) : list Z := quote ++ str name ++ quote ++ str ":".

(** ** The JSON elements *)

Definition JSON_OVERHEAD_CHARS : Z := 11.
Definition JSON_RECORD_CHARS : Z := 180.

Definition mic_gain_db (mic_gain : Z) : Z :=
  if mic_gain =? 0 then 33 else if mic_gain =? 1 then 28
  else if mic_gain =? 2 then 18 else if mic_gain =? 3 then 13 else mic_gain.

(** The text after ["pga_gain":], for the low octet of the flags. *)
Definition pga_gain_text (pga_gain : Z) : list Z :=
  let pga_gain_lsb := Z.land pga_gain 1 in
  if pga_gain =? 0 then str "null"
  else
    let pga_gain_int := s16 (Z.shiftr pga_gain 1 - 97) in
    fmt_d pga_gain_int ++ (if pga_gain_lsb =? 0 then str ".5" else []).

Definition sprintf_em_channel (flags value : Z) : list Z :=
  let target_freq := Z.land (Z.shiftr flags 10) 0x3F in
  let mic_gain := mic_gain_db (Z.land (Z.shiftr flags 8) 0x3) in
  let pga_gain := Z.land flags 0xFF in
  str "{" ++ key "target_freq" ++ fmt_u target_freq ++ str "," ++ key "mic_gain" ++ fmt_u mic_gain ++
  str "," ++ key "pga_gain" ++ pga_gain_text pga_gain ++
  str "," ++ key "value" ++ fmt_u value ++ str "}".

(** The flags are passed as 16-bit parameters. *)
Definition sprintf_em (flags left right : Z) : list Z :=
  key "left" ++ sprintf_em_channel (u16 (Z.shiftr flags 16)) left ++
  str "," ++ key "right" ++ sprintf_em_channel (u16 flags) right.

Definition sprintf_battery (value : Z) : list Z :=
  key "battery" ++ str "{" ++ key "value" ++ fmt_u value ++ str "}".
Definition sprintf_rssi (value : Z) : list Z :=
  key "rssi" ++ str "{" ++ key "value" ++ fmt_u value ++ str "}".
Definition sprintf_envelope (left right : Z) : list Z :=
  key "left_envelope" ++ str "{" ++ key "value" ++ fmt_u left ++ str "}" ++
  str "," ++ key "right_envelope" ++ str "{" ++ key "value" ++ fmt_u right ++ str "}".

(** [crlf] is the two characters of a line end. *)
Definition crlf : list Z := [13; 10].

(** [host] is the string [server_tcp_print_hostname] prints; [c3] the
    encoder's uninitialised array. *)
Definition content_len (records_count : Z) : Z :=
  u32 (JSON_OVERHEAD_CHARS + records_count * JSON_RECORD_CHARS + (records_count - 1)).
Definition http_header (c3 host : list Z) (auth : option (list Z)) (records_count : Z) : list Z :=
  str "POST /vlf_fft/_bulk_docs HTTP/1.1" ++ crlf ++ str "Host: " ++ host ++
  crlf ++ str "Content-Length: " ++ fmt_d (s32 (content_len records_count)) ++ crlf ++
  match auth with
  | Some auth =>
     str "Authorization: Basic " ++
     (let '(n, text) := base64_encode c3 auth in take (Z.to_nat n) text) ++ crlf
  | None => []
  end ++
  str "Content-Type: application/json" ++ crlf ++ crlf.

Definition json_header : list Z := str "{" ++ key "docs" ++ str "[".

(** The [switch] on the record type. *)
Definition json_reading (b : list Z) : list Z :=
  let record_type := Z.land (Z.shiftr (word b 0) 26) 0x3F in
  if record_type =? 60 then sprintf_battery (word b 3)
  else if record_type =? 61 then sprintf_rssi (word b 3)
  else if record_type =? 63 then sprintf_envelope (word b 3) (word b 4)
  else sprintf_em (word b 0) (word b 3) (word b 4).

(** What follows the opening brace for a record; [None] is a null pointer. *)
Definition json_fields (binary_data : option (list Z)) : list Z :=
  match binary_data with
  | None => []
  | Some b =>
     key "time" ++ quote ++ fmt_x (word b 2) ++ fmt_08x (word b 1) ++ quote ++ str "," ++
     json_reading b
  end.

Definition json_element (binary_data : option (list Z)) (comma : bool) : list Z :=
  let text := str "{" ++ json_fields binary_data in
  text ++ replicate (Z.to_nat (JSON_RECORD_CHARS - 1) - length text) (char " ") ++ str "}" ++
  (if comma then str "," else []).

Definition json_footer : list Z := str "]}".

(** ** Printed numbers *)

(** The value a digit string denotes. *)
Definition digit_val (c : Z) : Z := if c <? char "a" then c - char "0" else c - char "a" + 10.
Definition digits_val (base : Z) (l : list Z) : Z :=
  fold_left (λ a c, a * base + digit_val c) l 0.

Lemma digit_val_char d : 0 ≤ d < 16 → digit_val (digit_char d) = d.
Proof.
  intros Hd. unfold digit_val, digit_char.
  change (char "0") with 48. change (char "a") with 97.
  destruct (d <? 10) eqn:E; [destruct (48 + d <? 97) eqn:E2|destruct (97 + (d - 10) <? 97) eqn:E2]; lia.
Qed.

Lemma digits_correct base fuel n :
  2 ≤ base ≤ 16 → 0 ≤ n < base ^ Z.of_nat fuel →
  digits_val base (digits base fuel n) = n.
Proof.
  intros Hb. revert n. induction fuel as [|fuel IH]; intros n Hn; [simpl in *; unfold digits_val; simpl; lia|].
  simpl digits. destruct (n <? base) eqn:E.
  - unfold digits_val. simpl. apply digit_val_char. lia.
  - unfold digits_val. rewrite fold_left_app. fold (digits_val base (digits base fuel (n / base))).
    rewrite IH.
    + simpl. rewrite digit_val_char by (pose proof (Z.mod_pos_bound n base); lia).
      rewrite (Z.div_mod n base) at 3 by lia. lia.
    + split; [apply Z.div_pos; lia|]. apply Z.div_lt_upper_bound; [lia|].
      rewrite Nat2Z.inj_succ, Z.pow_succ_r in Hn by lia. lia.
Qed.

Lemma length_digits base fuel n : (length (digits base fuel n) ≤ fuel)%nat.
Proof.
  revert n. induction fuel as [|fuel IH]; intros n; simpl; [lia|].
  destruct (n <? base); simpl; [lia|]. rewrite length_app. specialize (IH (n / base)). simpl. lia.
Qed.

(** A value below [base^k] takes at most [k] digits. *)
Lemma length_digits_small base fuel k n :
  2 ≤ base → (1 ≤ k)%nat → 0 ≤ n < base ^ Z.of_nat k → (length (digits base fuel n) ≤ k)%nat.
Proof.
  intros Hb. revert fuel n. induction k as [|k IH]; intros [|fuel] n Hk Hn; simpl; [lia..|].
  destruct (n <? base) eqn:E; simpl; [lia|]. rewrite length_app. simpl.
  destruct k as [|k]; [rewrite Z.pow_1_r in Hn; lia|].
  assert (length (digits base fuel (n / base)) ≤ S k)%nat; [|lia].
  apply IH; [lia|]. split; [apply Z.div_pos; lia|]. apply Z.div_lt_upper_bound; [lia|].
  rewrite (Nat2Z.inj_succ (S k)), Z.pow_succ_r in Hn by lia. lia.
Qed.

#[global] Arguments fmt_u : simpl never.
#[global] Arguments fmt_x : simpl never.
#[global] Arguments fmt_08x : simpl never.
#[global] Arguments word : simpl never.
#[global] Arguments Z.shiftr : simpl never.
#[global] Arguments Z.land : simpl never.

(** ** Lengths *)

Lemma length_fmt_u n : (length (fmt_u n) ≤ 10)%nat.
Proof. apply length_digits. Qed.
Lemma length_fmt_u2 n : 0 ≤ n < 100 → (length (fmt_u n) ≤ 2)%nat.
Proof. intros. apply length_digits_small; lia. Qed.
Lemma length_fmt_x n : (length (fmt_x n) ≤ 8)%nat.
Proof. apply length_digits. Qed.
Lemma length_fmt_08x n : length (fmt_08x n) = 8%nat.
Proof.
  unfold fmt_08x. rewrite length_app, length_replicate. pose proof (length_fmt_x n). lia.
Qed.

(** Facts about the 255 gains are settled by enumeration. *)
Lemma all_octets (P : Z → Prop) `{∀ x, Decision (P x)} :
  forallb (λ n, bool_decide (P (Z.of_nat n))) (seq 0 256) = true → ∀ x, is_u8 x → P x.
Proof.
  intros Hall x Hx. rewrite forallb_forall in Hall. unfold is_u8 in Hx.
  specialize (Hall (Z.to_nat x)). rewrite Z2Nat.id in Hall by lia.
  eapply bool_decide_eq_true_1, Hall. apply in_seq. lia.
Qed.

Lemma length_pga_gain_text pga : is_u8 pga → (length (pga_gain_text pga) ≤ 5)%nat.
Proof. apply (all_octets (λ pga, (length (pga_gain_text pga) ≤ 5)%nat)). by vm_compute. Qed.

Lemma land_range x w m : 0 ≤ w → m = Z.ones w → 0 ≤ Z.land x m < 2 ^ w.
Proof. intros Hw ->. rewrite Z.land_ones by lia. apply Z.mod_pos_bound. lia. Qed.

Lemma mic_gain_db_range x : 0 ≤ mic_gain_db (Z.land x 3) < 100.
Proof.
  pose proof (land_range x 2 3 ltac:(lia) eq_refl). unfold mic_gain_db.
  repeat case_match; lia.
Qed.

Ltac lengths := repeat rewrite length_app; repeat rewrite length_replicate; simpl length.

Lemma length_em_channel flags value :
  (length (sprintf_em_channel flags value) ≤ 68)%nat.
Proof.
  unfold sprintf_em_channel. lengths.
  pose proof (length_fmt_u2 (Z.land (Z.shiftr flags 10) 0x3F)
    ltac:(pose proof (land_range (Z.shiftr flags 10) 6 0x3F ltac:(lia) eq_refl); lia)).
  pose proof (length_fmt_u2 _ (mic_gain_db_range (Z.shiftr flags 8))).
  pose proof (length_pga_gain_text (Z.land flags 0xFF) (land_range flags 8 0xFF ltac:(lia) eq_refl)).
  pose proof (length_fmt_u value). lia.
Qed.

Lemma length_json_reading b : (length (json_reading b) ≤ 152)%nat.
Proof.
  unfold json_reading. pose proof (length_fmt_u (word b 3)). pose proof (length_fmt_u (word b 4)).
  destruct (_ =? 60); [unfold sprintf_battery; lengths; lia|].
  destruct (_ =? 61); [unfold sprintf_rssi; lengths; lia|].
  destruct (_ =? 63); [unfold sprintf_envelope; lengths; lia|].
  pose proof (length_em_channel (u16 (Z.shiftr (word b 0) 16)) (word b 3)) as Hl.
  pose proof (length_em_channel (u16 (word b 0)) (word b 4)) as Hr. unfold sprintf_em.
  generalize dependent (sprintf_em_channel (u16 (Z.shiftr (word b 0) 16)) (word b 3)).
  generalize dependent (sprintf_em_channel (u16 (word b 0)) (word b 4)).
  intros l Hl k Hk. lengths. lia.
Qed.

Lemma length_json_fields b : (length (json_fields b) ≤ 178)%nat.
Proof.
  destruct b as [b|]; [|simpl; lia]. unfold json_fields.
  pose proof (length_fmt_x (word b 2)). pose proof (length_json_reading b) as Hb.
  generalize dependent (json_reading b). intros l Hl. rewrite !length_app, length_fmt_08x. simpl length. lia.
Qed.

Lemma length_json_element b comma :
  Z.of_nat (length (json_element b comma)) = JSON_RECORD_CHARS + if comma then 1 else 0.
Proof.
  unfold json_element, JSON_RECORD_CHARS. pose proof (length_json_fields b) as Hf. lengths.
  destruct comma; simpl length; lia.
Qed.

(** ** The request body *)

(** The elements of a request, a comma after each but the last. *)
Fixpoint json_elements (recs : list (option (list Z))) : list Z :=
  match recs with
  | [] => []
  | [r] => json_element r false
  | r :: recs => json_element r true ++ json_elements recs
  end.
Definition json_body (recs : list (option (list Z))) : list Z :=
  json_header ++ json_elements recs ++ json_footer.

Lemma length_json_elements recs :
  Z.of_nat (length (json_elements recs))
  = Z.of_nat (length recs) * (JSON_RECORD_CHARS + 1) - if decide (recs = []) then 0 else 1.
Proof.
  induction recs as [|r [|r' recs] IH]; [done|..].
  - simpl json_elements. rewrite length_json_element. simpl. lia.
  - change (json_elements (r :: r' :: recs)) with (json_element r true ++ json_elements (r' :: recs)).
    rewrite length_app, Nat2Z.inj_add, IH, length_json_element. simpl length.
    rewrite !decide_False by done. lia.
Qed.

Lemma length_json_body recs :
  (0 < length recs)%nat →
  Z.of_nat (length (json_body recs)) = 11 + 180 * Z.of_nat (length recs) + (Z.of_nat (length recs) - 1).
Proof.
  intros Hpos. pose proof (length_json_elements recs) as Hel. unfold JSON_RECORD_CHARS in Hel.
  rewrite decide_False in Hel by (destruct recs; [simpl in Hpos; lia|done]).
  unfold json_body. rewrite !length_app. simpl length. lia.
Qed.

(** Every JSON element occupies exactly 180 characters whatever the record
    holds, whatever its type, and also when the record could not be read; a
    comma adds one. *)
Theorem json_element_width b comma :
  Z.of_nat (length (json_element b comma)) = JSON_RECORD_CHARS + if comma then 1 else 0.
Proof. apply length_json_element. Qed.

(** C12. The announced content length, written before any record is read, is
    the length of the body for every request of at least one record (the
    16-bit count bounds the request). *)
Theorem content_length_exact c3 host auth recs :
  (0 < length recs)%nat → Z.of_nat (length recs) < 2 ^ 16 →
  ∃ pre post n, http_header c3 host auth (Z.of_nat (length recs)) =
    pre ++ crlf ++ str "Content-Length: " ++ n ++ crlf ++ post ∧
    digits_val 10 n = Z.of_nat (length (json_body recs)).
Proof.
  intros Hpos Hlt. pose proof (length_json_body recs Hpos) as Hb.
  assert (s32 (content_len (Z.of_nat (length recs))) = Z.of_nat (length (json_body recs))) as E.
  { unfold content_len, JSON_OVERHEAD_CHARS, JSON_RECORD_CHARS.
    rewrite u32_small, s32_small by (unfold is_u32; lia). lia. }
  unfold http_header. rewrite E. unfold fmt_d.
  destruct (Z.of_nat (length (json_body recs)) <? 0) eqn:Eneg; [lia|].
  eexists (str "POST /vlf_fft/_bulk_docs HTTP/1.1" ++ crlf ++ str "Host: " ++ host), _, (fmt_u _).
  split; [by rewrite <-!app_assoc|]. apply digits_correct; [lia|]. change (10 ^ Z.of_nat 10) with 10000000000. lia.
Qed.

Definition demo_rec : list Z :=
  le_bytes 4 0x5E205A41 ++ le_bytes 4 1377216000 ++ le_bytes 4 1 ++ le_bytes 4 77 ++
  le_bytes 4 4294967295 ++ le_bytes 4 0.

Lemma content_length_exact_witness :
  ∃ pre post n, http_header [0; 0; 0] (str "192.168.1.8") (Some (str "user:pass")) 2 =
    pre ++ crlf ++ str "Content-Length: " ++ n ++ crlf ++ post ∧
    digits_val 10 n = Z.of_nat (length (json_body [Some demo_rec; None])).
Proof.
  apply (content_length_exact [0; 0; 0] (str "192.168.1.8") (Some (str "user:pass"))
    [Some demo_rec; None]); [simpl; lia|done].
Defined.

(** ** The printed gain *)

(** Half decibels denoted by a number with an optional [.5]; the sign covers
    the fraction. *)
Definition half_db_unsigned (l : list Z) : Z :=
  match reverse l with
  | five :: dot :: int => if decide (five = char "5" ∧ dot = char ".")
                          then 2 * digits_val 10 (reverse int) + 1 else 2 * digits_val 10 l
  | _ => 2 * digits_val 10 l
  end.
Definition half_db (l : list Z) : Z :=
  match l with
  | c :: l' => if decide (c = char "-") then - half_db_unsigned l' else half_db_unsigned l
  | [] => 0
  end.

(** The gain printed for a channel.  The header of the source defines the
    gain of setting [pga] as -97.5 + pga/2 dB.  The text denotes exactly that
    for every odd setting and for every setting below 194; for the even ones
    from 194 up it is one decibel too high (the fraction is added to a value
    that was rounded up). *)
Theorem pga_gain_printed pga :
  1 ≤ pga < 256 →
  half_db (pga_gain_text pga)
  = -195 + pga + if decide (194 ≤ pga ∧ pga mod 2 = 0) then 2 else 0.
Proof.
  intros Hp. assert (is_u8 pga) as Hu by (unfold is_u8; lia). revert Hp. pattern pga.
  apply (all_octets _); [by vm_compute|done].
Qed.

Lemma pga_gain_printed_witness :
  half_db (pga_gain_text 194) = -195 + 194 + 2 ∧ pga_gain_text 194 = str "0.5".
Proof. split; [apply (pga_gain_printed 194); lia|by vm_compute]. Defined.
