(* ===== verification/HttpRx.v ===== *)
(** * The database's answer ([src/http_rx.c])

    The answer to a bulk upload names every stored document with an ["id":]
    member; the parser looks for that string octet by octet, across the
    segments in which the answer arrives, and reports one finished upload to
    the sample memory for each. *)

From S2P Require Import Prelude Checksum BlockDev Memory MemoryRing.
From Stdlib Require Import Ascii String ZArith Lia.
From stdpp Require Import base numbers list.
Open Scope Z_scope.

(** The strings with their terminators; 34 is the quotation mark. *)
Definition good : list Z := [34; char "i"; char "d"; 34; char ":"; 0].
Definition good_len : Z := 5.
Definition bad : list Z := str "unused-unused-unused" ++ [0].
Definition bad_len : Z := 20.

Record rx_state (B : Type) : Type := RxState {
  good_index : Z;
  bad_index : Z;
  rx_mem : mem_state B;
}.
Arguments RxState {B}.
Arguments good_index {B}.
Arguments bad_index {B}.
Arguments rx_mem {B}.

Section Operations.
Context {B : Type} `{BlockDev B}.

Definition on_rx_mem {A} (m : M (mem_state B) A) : M (rx_state B) A :=
  lift rx_mem (λ x s, RxState (good_index s) (bad_index s) x) m.
Definition set_good_index (v : Z) : M (rx_state B) unit :=
  modify (λ s, RxState v (bad_index s) (rx_mem s)).
Definition set_bad_index (v : Z) : M (rx_state B) unit :=
  modify (λ s, RxState (good_index s) v (rx_mem s)).

(** The body of the loop over the octets; the post-increment of
    [good_index] happens whether or not the comparison succeeds. *)
Definition parse_octet (c : Z) : M (rx_state B) unit :=
  g ← gets good_index;
  x ← arr_get good g;
  set_good_index (u16 (g + 1));;
  (if negb (c =? x) then set_good_index 0
   else if u16 (g + 1) =? good_len then on_rx_mem good_upload_done;; set_good_index 0
   else mret tt);;
  b ← gets bad_index;
  y ← arr_get bad b;
  (if negb (c =? y) then set_bad_index 0
   else if b =? bad_len then set_bad_index 0
   else mret tt).

Fixpoint parse_http_response_buffer (ptr : list Z) : M (rx_state B) unit :=
  match ptr with
  | [] => mret tt
  | c :: ptr => parse_octet c;; parse_http_response_buffer ptr
  end.

Definition reset_http_response_parser : M (rx_state B) unit :=
  set_bad_index 0;; set_good_index 0.
End Operations.

(** ** The scanner as an automaton *)

(** Next index and whether the string was completed. *)
Definition scan_step (g : nat) (c : Z) : nat * bool :=
  if c =? good.[g] then (if (g =? 4)%nat then (0%nat, true) else (S g, false)) else (0%nat, false).

Fixpoint hits (g : nat) (l : list Z) : nat :=
  match l with
  | [] => 0
  | c :: l => let '(g', h) := scan_step g c in ((if h then 1 else 0) + hits g' l)%nat
  end.
Fixpoint scan (g : nat) (l : list Z) : nat :=
  match l with [] => g | c :: l => scan (scan_step g c).1 l end.

Lemma hits_app g l k : hits g (l ++ k) = (hits g l + hits (scan g l) k)%nat.
Proof.
  revert g. induction l as [|c l IH]; intros g; [done|]. simpl.
  destruct (scan_step g c) as [g' h]. simpl. rewrite IH. lia.
Qed.

Lemma scan_step_range g c : (g < 5)%nat → ((scan_step g c).1 < 5)%nat.
Proof.
  unfold scan_step. intros Hg. destruct (c =? good.[g]); [|simpl; lia].
  destruct (Nat.eqb_spec g 4); simpl; lia.
Qed.

(** ** Occurrences *)

Fixpoint starts (pat l : list Z) : bool :=
  match pat, l with
  | [], _ => true
  | _ :: _, [] => false
  | p :: pat, c :: l => (p =? c) && starts pat l
  end.
Fixpoint occurrences (pat l : list Z) : nat :=
  match l with
  | [] => 0
  | c :: l' => ((if starts pat l then 1 else 0) + occurrences pat l')%nat
  end.

Definition id_member : list Z := take 5 good.

(** Texts that make the scanner lose its place: a quotation mark or an [i]
    that could begin the string again where another one was begun. *)
Definition confusing : list (list Z) :=
  [[34; 34]; [34; char "i"; 34]; [34; char "i"; char "d"; 34; char "i"]].
Definition unconfusing (l : list Z) : bool :=
  forallb (λ pat, (occurrences pat l =? 0)%nat) confusing.

Lemma occurrences_suffix pat l k : (occurrences pat k ≤ occurrences pat (l ++ k))%nat.
Proof. induction l as [|c l IH]; simpl; [lia|]. lia. Qed.

Lemma unconfusing_suffix l k : unconfusing (l ++ k) = true → unconfusing k = true.
Proof.
  unfold unconfusing. rewrite !forallb_forall. intros Hall pat Hin.
  specialize (Hall pat Hin). apply Nat.eqb_eq in Hall. apply Nat.eqb_eq.
  pose proof (occurrences_suffix pat l k). lia.
Qed.

Lemma starts_app pat l : starts pat (pat ++ l) = true.
Proof. induction pat; simpl; [done|]. by rewrite Z.eqb_refl. Qed.

(** A partial match followed by the octet that completes one more character. *)
Lemma take_good_snoc g c l :
  (g < 5)%nat → c = good.[g] → take g good ++ c :: l = take (S g) good ++ l.
Proof. intros Hg ->. do 5 (destruct g as [|g]; [done|]). lia. Qed.

Lemma hits_le_occurrences l g :
  (g < 5)%nat → (hits g l ≤ occurrences id_member (take g good ++ l))%nat.
Proof.
  revert g. induction l as [|c l IH]; intros g Hg; [simpl; lia|].
  simpl hits. unfold scan_step. destruct (Z.eqb_spec c good.[g]) as [E|E].
  - rewrite take_good_snoc by done. destruct (Nat.eqb_spec g 4) as [->|].
    + specialize (IH 0%nat ltac:(lia)). simpl take in *.
      pose proof (occurrences_suffix id_member [char "i"; char "d"; 34; char ":"] l). simpl in *. lia.
    + apply (IH (S g)). lia.
  - specialize (IH 0%nat ltac:(lia)). rewrite cons_middle, app_assoc.
    pose proof (occurrences_suffix id_member (take g good ++ [c]) l). simpl in *. lia.
Qed.

#[local] Arguments Z.eqb : simpl never.
#[local] Arguments char : simpl never.

Lemma unconfusing_starts pat l :
  unconfusing l = true → In pat confusing → starts pat l = false ∨ l = [].
Proof.
  unfold unconfusing. rewrite forallb_forall. intros Hall Hin. specialize (Hall pat Hin).
  apply Nat.eqb_eq in Hall. destruct l as [|c l]; [by right|left]. simpl occurrences in Hall.
  by destruct (starts pat (c :: l)).
Qed.

(** After a mismatch nothing that was read can be part of an occurrence. *)
Lemma mismatch_no_occurrence g c l :
  (g < 5)%nat → c ≠ good.[g] → unconfusing (take g good ++ c :: l) = true →
  occurrences id_member (take g good ++ c :: l) = occurrences id_member l.
Proof.
  intros Hg Hc Hu.
  assert (∀ pat k, In pat confusing → (k ≤ g)%nat →
    starts pat (drop k (take g good) ++ c :: l) = false) as Hno.
  { intros pat k Hin Hk. rewrite <-(take_drop k (take g good)), <-app_assoc in Hu.
    apply unconfusing_suffix in Hu.
    destruct (unconfusing_starts pat _ Hu Hin) as [?|E]; [done|]. by apply app_nil in E as [_ ?]. }
  assert (∀ pat, In pat confusing → starts pat (take g good ++ c :: l) = false) as Hno0.
  { intros pat Hin. apply (Hno pat 0%nat Hin). lia. }
  assert (Hin1 : In [34; 34] confusing) by (simpl; auto).
  assert (Hin2 : In [34; char "i"; 34] confusing) by (simpl; auto).
  assert (Hin3 : In [34; char "i"; char "d"; 34; char "i"] confusing) by (simpl; auto).
  unfold octet, good, id_member, good in *.
  destruct g as [|[|[|[|[|g]]]]]; simpl in Hc, Hno0 |- *; try lia.
  - destruct (Z.eqb_spec 34 c); [by subst|done].
  - pose proof (Hno0 _ Hin1) as A. simpl in A. destruct (Z.eqb_spec 34 c); [done|].
    by destruct (Z.eqb_spec (char "i") c); [by subst|].
  - pose proof (Hno0 _ Hin2) as A. simpl in A. destruct (Z.eqb_spec 34 c); [done|].
    by destruct (Z.eqb_spec (char "d") c); [by subst|].
  - by destruct (Z.eqb_spec 34 c); [by subst|].
  - pose proof (Hno0 _ Hin3) as A. pose proof (Hno _ 3%nat Hin1 ltac:(lia)) as A'. simpl in A, A'.
    destruct (Z.eqb_spec 34 c); [done|]. destruct (Z.eqb_spec (char "i") c); [done|].
    by destruct (Z.eqb_spec (char ":") c); [by subst|].
Qed.

Lemma hits_eq_occurrences l g :
  (g < 5)%nat → unconfusing (take g good ++ l) = true →
  hits g l = occurrences id_member (take g good ++ l).
Proof.
  revert g. induction l as [|c l IH]; intros g Hg Hu.
  { do 5 (destruct g as [|g]; [done|]). lia. }
  simpl hits. unfold scan_step. destruct (Z.eqb_spec c good.[g]) as [E|E].
  - rewrite take_good_snoc in * by done. destruct (Nat.eqb_spec g 4) as [->|]; [|apply IH; [lia|done]].
    rewrite (IH 0%nat); [|lia|by apply (unconfusing_suffix (take 5 good))]. done.
  - rewrite mismatch_no_occurrence by done. apply (IH 0%nat); [lia|].
    rewrite cons_middle, app_assoc in Hu. by apply unconfusing_suffix in Hu.
Qed.

(** ** Acknowledged uploads *)

Section Claims.
Context {B : Type} `{BlockDevLaws B}.

Lemma arr_get_good g s : (g < 5)%nat → @arr_get (rx_state B) good (Z.of_nat g) s = Ok (good.[g], s).
Proof. intros Hg. do 5 (destruct g as [|g]; [done|]). lia. Qed.

Lemma parse_octet_ok g c (m : mem_state B) :
  (g < 5)%nat →
  parse_octet c (RxState (Z.of_nat g) 0 m) =
  let '(g', h) := scan_step g c in
  if h then match good_upload_done m with
            | Ok (_, m') => Ok (tt, RxState (Z.of_nat g') 0 m')
            | Spin => Spin
            | Fault => Fault
            end
  else Ok (tt, RxState (Z.of_nat g') 0 m).
Proof.
  intros Hg. unfold parse_octet, scan_step. rewrite bind_unfold. unfold gets at 1. simpl good_index.
  rewrite bind_unfold, arr_get_good by done. rewrite bind_unfold. unfold set_good_index at 1, modify.
  simpl bad_index. simpl rx_mem. rewrite u16_small by (unfold is_u16; lia). unfold good_len.
  assert (∀ g' (x : mem_state B), (b ← gets bad_index; y ← arr_get bad b;
    (if negb (c =? y) then set_bad_index 0 else if b =? bad_len then set_bad_index 0 else mret tt))
    (RxState g' 0 x) = Ok (tt, RxState g' 0 x)) as Hbad.
  { intros g' x. rewrite bind_unfold. unfold gets. simpl bad_index.
    rewrite (bind_ok _ _ _ (char "u") (RxState g' 0 x)) by done. by destruct (c =? char "u"). }
  destruct (Z.eqb_spec c good.[g]) as [E|E]; simpl negb; cbv iota.
  - destruct (Nat.eqb_spec g 4) as [->|].
    + change (Z.of_nat 4 + 1 =? 5) with true. cbv iota. rewrite bind_unfold, bind_unfold.
      unfold on_rx_mem, lift. simpl rx_mem. destruct (good_upload_done m) as [[[] m']| |]; [|done|done].
      apply Hbad.
    + destruct (Z.eqb_spec (Z.of_nat g + 1) 5); [lia|]. rewrite bind_unfold. unfold mret at 1, M_ret at 1.
      rewrite Hbad. do 3 f_equal. lia.
  - rewrite bind_unfold. unfold set_good_index, modify. rewrite Hbad. done.
Qed.

Lemma parse_buffer_ok l g (m : mem_state B) :
  (g < 5)%nat → ring_ok m → (hits g l ≤ length (pending m))%nat →
  runs (parse_http_response_buffer l) (RxState (Z.of_nat g) 0 m) (λ _ s',
    good_index s' = Z.of_nat (scan g l) ∧ bad_index s' = 0 ∧ ring_ok (rx_mem s') ∧
    pending (rx_mem s') = drop (hits g l) (pending m)).
Proof.
  revert g m. induction l as [|c l IH]; intros g m Hg Hm Hh.
  { eapply runs_intro; [done|]. done. }
  simpl parse_http_response_buffer. apply runs_bind. unfold runs at 1.
  rewrite parse_octet_ok by done. simpl in Hh |- *. pose proof (scan_step_range g c Hg) as Hg'.
  destruct (scan_step g c) as [g' [|]]; simpl in *.
  - pose proof (sim_good m Hm ltac:(by destruct (pending m); simpl in *; [lia|])) as Hs.
    unfold runs in Hs. destruct (good_upload_done m) as [[u m']| |]; [|done|done].
    destruct Hs as (Hm' & _ & r & Hp). rewrite Hp in Hh |- *. simpl in *.
    apply IH; [done|done|lia].
  - by apply IH.
Qed.

(** The segments of an answer, in the order they arrive. *)
Fixpoint parse_segments (segs : list (list Z)) : M (rx_state B) unit :=
  match segs with
  | [] => mret tt
  | l :: segs => parse_http_response_buffer l;; parse_segments segs
  end.

Lemma scan_range l g : (g < 5)%nat → (scan g l < 5)%nat.
Proof. revert g. induction l; intros g Hg; [done|]. apply IHl, scan_step_range, Hg. Qed.

Lemma parse_segments_ok segs g (s : rx_state B) :
  (g < 5)%nat → good_index s = Z.of_nat g → bad_index s = 0 → ring_ok (rx_mem s) →
  (hits g (concat segs) ≤ length (pending (rx_mem s)))%nat →
  runs (parse_segments segs) s (λ _ s', ring_ok (rx_mem s') ∧
    pending (rx_mem s') = drop (hits g (concat segs)) (pending (rx_mem s))).
Proof.
  revert g s. induction segs as [|l segs IH]; intros g [gi bi m] Hg Hgi Hbi Hm Hh; simpl in *; subst.
  { by eapply runs_intro. }
  rewrite hits_app in *. apply runs_bind.
  eapply runs_mono, (parse_buffer_ok l g m Hg Hm ltac:(lia)).
  intros _ s' (Hg' & Hb' & Hm' & Hp'). rewrite <-drop_drop, <-Hp'.
  apply IH; try done; [by apply scan_range|]. rewrite Hp', length_drop. lia.
Qed.

End Claims.

(** An answer with two members, cut inside the first one. *)
Definition demo_answer : list (list Z) :=
  [str "[{" ++ [34] ++ str "i"; str "d" ++ [34] ++ str ":" ++ [34] ++ str "a" ++ [34] ++ str ",";
   [34] ++ str "rev" ++ [34] ++ str ":1},{" ++ [34] ++ str "id" ++ [34] ++ str ":" ++ [34] ++
   str "b" ++ [34] ++ str "}]"].


Example demo_answer_members :
  occurrences id_member (concat demo_answer) = 2%nat ∧ unconfusing (concat demo_answer) = true.
Proof. by vm_compute. Qed.

(** The empty member name hides the one that follows it. *)
Example hidden_member :
  let l := [34; 34] ++ str "id" ++ [34] ++ str ":" in
  hits 0 l = 0%nat ∧ occurrences id_member l = 1%nat.
Proof. by vm_compute. Qed.
