(* ===== verification/ServerTcp.v ===== *)
(** * The connection to the database ([src/server_tcp.c])

    The upload is a state machine driven by the service loop and by the
    callbacks of the TCP stack: it issues the request block by block (header,
    JSON prologue, one element per record, epilogue) through a 400-octet
    buffer, waits, and closes.  The TCP stack is the class [TcpApi]. *)

From S2P Require Import Prelude LwipBase Checksum BlockDev Memory MemoryRing HttpTx HttpRx.
From Stdlib Require Import ZArith Lia.
From stdpp Require Import base numbers list.
Open Scope Z_scope.

(** ** The TCP stack *)

Definition TCP_SND_QUEUELEN : Z := 16.

Inductive tcp_callback : Type := CbArg | CbErr | CbPoll | CbSent | CbRecv.

(** The raw API on the one control block the client uses: each call returns
    its error code and the new state of the stack. *)
Class TcpApi (T : Type) : Type := {
  tcp_new : T → bool * T;
  tcp_setprio : T → T;
  tcp_bind : Z → T → Z * T;
  tcp_set : tcp_callback → bool → T → T;
  tcp_connect : Z → T → Z * T;
  tcp_write : list Z → T → Z * T;
  tcp_close : T → Z * T;
  tcp_recved : Z → T → T;
  tcp_sndbuf : T → Z;
  tcp_sndqueuelen : T → Z;
}.

(** ** State *)

Definition CONNECTED : Z := 1.
Definition DISCONNECTED : Z := 0.
Definition OP_HTTP_HEADER : Z := 0.
Definition OP_JSON_HEADER : Z := 1.
Definition OP_JSON_DATA : Z := 2.
Definition OP_JSON_FOOTER : Z := 3.
Definition OP_WAIT_BEFORE_CLOSE : Z := 4.
Definition OP_CLOSE : Z := 5.
Definition WAIT_BEFORE_CLOSE : Z := 2000 * 15.
Definition MAX_WRITE_ERR_BEFORE_CLOSE : Z := 20 * 1000.
Definition OUTPUT_BUFFER : nat := 400.

(** [pcb] and [close_cb] say whether the pointers are set; [host] and [auth]
    are the strings pointed to. *)
Record server_tcp_state : Type := ServerTcpState {
  pcb : bool;
  connected : Z;
  host : list Z;
  auth : option (list Z);
  remote_port : Z;
  output_phase : Z;
  mem_output_index : Z;
  records_index : Z;
  records_count : Z;
  output_buffer : list Z;
  current_pos : Z;
  current_len : Z;
  wait_before_close_counter : Z;
  close_cb : bool;
  write_err : Z;
}.

(** The structure, the network, the parser with the sample memory below it,
    and the variables of [upload.c] that the close callback resets. *)
Record srv_state (T B : Type) : Type := SrvState {
  server_tcp : server_tcp_state;
  net : T;
  rx : rx_state B;
  active : Z;
  upload_countdown : Z;
  ephemeral_seq : Z;
}.
Arguments SrvState {T B}.
Arguments server_tcp {T B}.
Arguments net {T B}.
Arguments rx {T B}.
Arguments active {T B}.
Arguments upload_countdown {T B}.
Arguments ephemeral_seq {T B}.

Definition UPLOAD_WAIT : Z := 2000 * 60 * 5.
Definition START_PORT : Z := 49152.
Definition END_PORT : Z := 65535.

(** ** Field updates *)

Definition with_connected (v : Z) (s : server_tcp_state) : server_tcp_state :=
  ServerTcpState (pcb s) v (host s) (auth s) (remote_port s) (output_phase s) (mem_output_index s)
    (records_index s) (records_count s) (output_buffer s) (current_pos s) (current_len s)
    (wait_before_close_counter s) (close_cb s) (write_err s).
Definition with_pcb (v : bool) (s : server_tcp_state) : server_tcp_state :=
  ServerTcpState v (connected s) (host s) (auth s) (remote_port s) (output_phase s)
    (mem_output_index s) (records_index s) (records_count s) (output_buffer s) (current_pos s)
    (current_len s) (wait_before_close_counter s) (close_cb s) (write_err s).
Definition with_phase (v : Z) (s : server_tcp_state) : server_tcp_state :=
  ServerTcpState (pcb s) (connected s) (host s) (auth s) (remote_port s) v (mem_output_index s)
    (records_index s) (records_count s) (output_buffer s) (current_pos s) (current_len s)
    (wait_before_close_counter s) (close_cb s) (write_err s).
Definition with_record (index mem : Z) (s : server_tcp_state) : server_tcp_state :=
  ServerTcpState (pcb s) (connected s) (host s) (auth s) (remote_port s) (output_phase s) mem
    index (records_count s) (output_buffer s) (current_pos s) (current_len s)
    (wait_before_close_counter s) (close_cb s) (write_err s).
Definition with_block (buf : list Z) (pos len : Z) (s : server_tcp_state) : server_tcp_state :=
  ServerTcpState (pcb s) (connected s) (host s) (auth s) (remote_port s) (output_phase s)
    (mem_output_index s) (records_index s) (records_count s) buf pos len
    (wait_before_close_counter s) (close_cb s) (write_err s).
Definition with_wait (v : Z) (s : server_tcp_state) : server_tcp_state :=
  ServerTcpState (pcb s) (connected s) (host s) (auth s) (remote_port s) (output_phase s)
    (mem_output_index s) (records_index s) (records_count s) (output_buffer s) (current_pos s)
    (current_len s) v (close_cb s) (write_err s).
Definition with_write_err (v : Z) (s : server_tcp_state) : server_tcp_state :=
  ServerTcpState (pcb s) (connected s) (host s) (auth s) (remote_port s) (output_phase s)
    (mem_output_index s) (records_index s) (records_count s) (output_buffer s) (current_pos s)
    (current_len s) (wait_before_close_counter s) (close_cb s) v.

(** ** Operations *)

Section Operations.
Context {T B : Type} `{TcpApi T} `{BlockDev B}.
(** What the encoder's working array holds on the stack. *)
Context (stack : list Z).
Abbreviation S := (srv_state T B).

Definition set_ss (f : server_tcp_state → server_tcp_state) : M S unit :=
  modify (λ s, SrvState (f (server_tcp s)) (net s) (rx s) (active s) (upload_countdown s)
                 (ephemeral_seq s)).
Definition on_net {A} (f : T → A * T) : M S A :=
  λ s, let '(a, t) := f (net s) in
       Ok (a, SrvState (server_tcp s) t (rx s) (active s) (upload_countdown s) (ephemeral_seq s)).
Definition do_net (f : T → T) : M S unit := on_net (λ t, (tt, f t)).
Definition on_rx {A} (m : M (rx_state B) A) : M S A :=
  lift rx (λ r s, SrvState (server_tcp s) (net s) r (active s) (upload_countdown s)
                    (ephemeral_seq s)) m.
Definition set_upload (a c : Z) : M S unit :=
  modify (λ s, SrvState (server_tcp s) (net s) (rx s) a c (ephemeral_seq s)).

(** [upload.c]: the close callback. *)
Definition upload_end : M S unit := set_upload 0 UPLOAD_WAIT.

(** [ss] says whether the callback argument is the structure or null. *)
Definition server_tcp_connected (ss : bool) : M S Z :=
  (if ss then set_ss (with_connected CONNECTED);; on_rx reset_http_response_parser
   else mret tt);;
  mret ERR_OK.

Definition server_tcp_close_conn (ss : bool) : M S Z :=
  do_net (tcp_set CbArg false);;
  do_net (tcp_set CbErr false);;
  do_net (tcp_set CbRecv false);;
  do_net (tcp_set CbSent false);;
  err ← on_net tcp_close;
  (if negb (err =? ERR_OK) then mret tt
   else if ss then cb ← gets (close_cb ∘ server_tcp); if cb : bool then upload_end else mret tt
   else fault);;
  mret err.

Definition server_tcp_err (ss : bool) : M S unit :=
  if ss then
    set_ss (with_connected DISCONNECTED);;
    p ← gets (pcb ∘ server_tcp);
    if p : bool then server_tcp_close_conn true;; mret tt else mret tt
  else fault.

(** The [do ... while] loop; [len] is at most 16 bits wide, so that 17 rounds
    of halving suffice. *)
Fixpoint write_loop (fuel : nat) (ptr : list Z) (len : Z) : M S (Z * Z) :=
  match fuel with
  | O => spin
  | Datatypes.S fuel =>
     err ← on_net (tcp_write (take (Z.to_nat len) ptr));
     sndbuf ← gets (tcp_sndbuf ∘ net);
     queuelen ← gets (tcp_sndqueuelen ∘ net);
     if err =? ERR_MEM then
       let len := if (sndbuf =? 0) || (TCP_SND_QUEUELEN <=? queuelen) then 1 else len / 2 in
       if len >? 1 then write_loop fuel ptr len else mret (err, len)
     else mret (err, len)
  end.
Definition server_tcp_write (ptr : list Z) (length : Z) : M S (Z * Z) := write_loop 17 ptr length.

Definition server_current_tcp_out : M S Z :=
  ss ← gets server_tcp;
  let len_val := u16 (current_len ss - current_pos ss) in
  if len_val >? 0 then
    '(err, len_val) ← server_tcp_write (drop (Z.to_nat (current_pos ss)) (output_buffer ss)) len_val;
    if err =? ERR_OK then
      let pos := u16 (current_pos ss + len_val) in
      set_ss (with_block (output_buffer ss) pos (current_len ss));;
      if current_len ss <=? pos then mret 1
      else set_ss (with_write_err 0);; mret 0
    else
      let n := u32 (write_err ss + 1) in
      set_ss (with_write_err n);;
      (if n >? MAX_WRITE_ERR_BEFORE_CLOSE then server_tcp_close_conn true;; mret tt else mret tt);;
      mret 0
  else mret 1.

(** Text and terminator go to the start of the buffer, which must hold both. *)
Definition put_block (text : list Z) : M S unit :=
  ss ← gets server_tcp;
  if decide (length text < OUTPUT_BUFFER)%nat then
    set_ss (with_block (text ++ 0 :: drop (length text + 1) (output_buffer ss))
              (current_pos ss) (Z.of_nat (length text)))
  else fault.

(** The [switch] of [server_tcp_out]: select a new block. *)
Definition select_block : M S unit :=
  ss ← gets server_tcp;
  let phase := output_phase ss in
  if phase =? OP_HTTP_HEADER then
    put_block (http_header stack (host ss) (auth ss) (records_count ss));;
    set_ss (with_phase (u8 (phase + 1)))
  else if phase =? OP_JSON_HEADER then
    put_block json_header;;
    set_ss (with_phase (u8 (phase + 1)))
  else if phase =? OP_JSON_DATA then
    let i := records_index ss in
    set_ss (with_record (u16 (i + 1)) (mem_output_index ss));;
    if i <? records_count ss then
      let n := mem_output_index ss in
      set_ss (with_record (u16 (i + 1)) (u32 (n + 1)));;
      data ← on_rx (on_rx_mem (get_sample n));
      put_block (json_element data (u16 (i + 1) <? records_count ss))
    else set_ss (with_phase (u8 (phase + 1)))
  else if phase =? OP_JSON_FOOTER then
    put_block json_footer;;
    set_ss (with_phase (u8 (phase + 1)))
  else if phase =? OP_WAIT_BEFORE_CLOSE then
    let c := wait_before_close_counter ss in
    set_ss (with_wait (u16 (c + 1)));;
    if c >? WAIT_BEFORE_CLOSE then set_ss (with_phase (u8 (phase + 1))) else mret tt
  else if phase =? OP_CLOSE then
    on_net tcp_close;;
    set_ss (with_phase (u8 (phase + 1)))
  else mret tt.

Definition server_tcp_out : M S unit :=
  ss ← gets server_tcp;
  if negb (connected ss =? DISCONNECTED) then
    empty ← server_current_tcp_out;
    if negb (empty =? 0) then
      set_ss (λ ss, with_block (output_buffer ss) 0 0 ss);;
      select_block;;
      server_current_tcp_out;; mret tt
    else mret tt
  else mret tt.

Definition server_tcp_sent (ss : bool) : M S Z :=
  (if ss then server_tcp_out else mret tt);; mret ERR_OK.

Definition server_tcp_poll : M S Z := mret ERR_OK.

(** [p] is the chain of buffers received, [None] when the peer closed. *)
Definition server_tcp_recv (ss : bool) (p : option (list (list Z))) (err : Z) : M S Z :=
  match p with
  | Some segs =>
     if negb (err =? ERR_OK) || negb ss then
       do_net (tcp_recved (Z.of_nat (length (concat segs))));;
       server_tcp_close_conn ss;; mret ERR_OK
     else
       on_rx (parse_segments segs);;
       do_net (tcp_recved (Z.of_nat (length (concat segs))));;
       mret ERR_OK
  | None => server_tcp_close_conn ss;; mret ERR_OK
  end.

Definition server_tcp_print_hostname : M S (list Z) := gets (host ∘ server_tcp).

Definition server_tcp_service : M S unit :=
  ss ← gets server_tcp;
  if connected ss =? CONNECTED then server_tcp_out else mret tt.

Definition EPHEMERAL_PORT : M S Z :=
  s ← get;
  modify (λ s, SrvState (server_tcp s) (net s) (rx s) (active s) (upload_countdown s)
                 (u32 (ephemeral_seq s + 1)));;
  mret (START_PORT + (ephemeral_seq s) mod (END_PORT - START_PORT)).

(** [while ((err = tcp_bind(...)) != ERR_OK) if (--i == 0) return err;] *)
Fixpoint bind_loop (i : nat) : M S Z :=
  port ← EPHEMERAL_PORT;
  err ← on_net (tcp_bind port);
  if err =? ERR_OK then mret ERR_OK
  else match i with
       | O | Datatypes.S O => mret err
       | Datatypes.S i => bind_loop i
       end.

Definition server_tcp_init (host : list Z) (remote_port : Z) (auth : option (list Z))
    (read_index records_count : Z) (callback : bool) : M S Z :=
  if records_count >? 0 then
    set_ss (λ _, ServerTcpState false 0 host auth remote_port 0 read_index 0 records_count
                   (replicate OUTPUT_BUFFER 0) 0 0 0 callback 0);;
    p ← on_net tcp_new;
    set_ss (with_pcb p);;
    if negb p then mret ERR_MEM
    else
      do_net tcp_setprio;;
      err ← bind_loop 100;
      if negb (err =? ERR_OK) then mret err
      else
        do_net (tcp_set CbArg true);;
        do_net (tcp_set CbErr true);;
        do_net (tcp_set CbPoll true);;
        do_net (tcp_set CbSent true);;
        do_net (tcp_set CbRecv true);;
        on_net (tcp_connect remote_port)
  else mret ERR_ARG.
End Operations.
