(* ===== verification/ServerStream.v ===== *)
(** * The request reaches the network in order

    Whatever the TCP stack accepts and whenever its callbacks run, the octets
    handed to it are a prefix of one HTTP request, built from the records the
    memory held; when the client waits for the answer they are all of it. *)

From S2P Require Import Prelude LwipBase Checksum BlockDev Memory MemoryRing HttpTx HttpRx ServerTcp.
From Stdlib Require Import ZArith Lia.
From stdpp Require Import base numbers list.
Open Scope Z_scope.

(** ** The stack as the client relies on it

    A write is accepted whole or not at all; no other call adds data. *)
Class TcpStream (T : Type) `{TcpApi T} : Type := {
  tcp_stream : T → list Z;
  tcp_write_stream : ∀ data t,
    tcp_stream (tcp_write data t).2
    = tcp_stream t ++ if decide ((tcp_write data t).1 = ERR_OK) then data else [];
  tcp_close_stream : ∀ t, tcp_stream (tcp_close t).2 = tcp_stream t;
  tcp_set_stream : ∀ c b t, tcp_stream (tcp_set c b t) = tcp_stream t;
  tcp_recved_stream : ∀ n t, tcp_stream (tcp_recved n t) = tcp_stream t;
}.

Section Writing.
Context {T B : Type} `{TcpStream T} `{BlockDevLaws B}.
Implicit Types s : srv_state T B.

Definition stream s : list Z := tcp_stream (net s).

(** Only the network has changed. *)
Definition net_only s s' : Prop :=
  server_tcp s' = server_tcp s ∧ rx s' = rx s ∧ active s' = active s ∧
  upload_countdown s' = upload_countdown s ∧ ephemeral_seq s' = ephemeral_seq s.

Lemma on_net_unfold {A} (f : T → A * T) s :
  on_net f s = Ok ((f (net s)).1, SrvState (server_tcp s) (f (net s)).2 (rx s) (active s)
                     (upload_countdown s) (ephemeral_seq s)).
Proof. unfold on_net. by destruct (f (net s)). Qed.

Lemma write_loop_ok fuel ptr len s :
  0 < len < 2 ^ Z.of_nat fuel → len ≤ Z.of_nat (length ptr) →
  runs (write_loop fuel ptr len) s (λ r s', net_only s s' ∧
    if decide (r.1 = ERR_OK) then 0 < r.2 ≤ len ∧ stream s' = stream s ++ take (Z.to_nat r.2) ptr
    else stream s' = stream s).
Proof.
  revert len s. induction fuel as [|fuel IH]; intros len s Hlen Hptr; [simpl in Hlen; lia|].
  simpl write_loop. apply runs_bind. unfold runs at 1. rewrite on_net_unfold.
  pose proof (tcp_write_stream (take (Z.to_nat len) ptr) (net s)) as Hw.
  destruct (tcp_write (take (Z.to_nat len) ptr) (net s)) as [err t] eqn:E. simpl in Hw |- *.
  apply runs_bind. unfold runs at 1, gets at 1. apply runs_bind. unfold runs at 1, gets at 1.
  set (s1 := SrvState (server_tcp s) t (rx s) (active s) (upload_countdown s) (ephemeral_seq s)).
  assert (net_only s s1) as Hno by by unfold net_only.
  destruct (Z.eqb_spec err ERR_MEM) as [->|Hne].
  - rewrite decide_False, app_nil_r in Hw by done.
    assert (stream s1 = stream s) as Hs1 by done.
    set (len' := if _ || _ then 1 else len / 2). destruct (len' >? 1) eqn:Egt.
    + assert (1 < len' < 2 ^ Z.of_nat fuel ∧ len' ≤ len) as [Hl1 Hl2].
      { subst len'. destruct (_ || _); [lia|]. rewrite Nat2Z.inj_succ, Z.pow_succ_r in Hlen by lia.
        split; [|Z.to_euclidean_division_equations; lia]. split; [lia|].
        apply Z.div_lt_upper_bound; lia. }
      eapply runs_mono, (IH len' s1); [|lia|lia]. intros [e n] s2 [(A1 & A2 & A3 & A4 & A5) Hr].
      split; [by unfold net_only; rewrite A1, A2, A3, A4, A5|]. simpl in *. rewrite Hs1 in Hr.
      destruct (decide (e = ERR_OK)); [|done]. destruct Hr. split; [lia|done].
    + eapply runs_intro; [done|]. by split.
  - eapply runs_intro; [done|]. split; [done|]. simpl. unfold stream. simpl. rewrite Hw.
    destruct (decide (err = ERR_OK)); [split; [lia|done]|by rewrite app_nil_r].
Qed.

(** Closing hands over no data and leaves the structure alone. *)
Lemma close_conn_ok s :
  runs (server_tcp_close_conn true) s (λ _ s',
    server_tcp s' = server_tcp s ∧ rx s' = rx s ∧ stream s' = stream s).
Proof.
  unfold server_tcp_close_conn, do_net.
  do 5 (apply runs_bind; unfold runs at 1; rewrite on_net_unfold; simpl).
  match goal with |- runs _ ?x _ => set (s1 := x) end.
  assert (stream s1 = stream s) as Hs1.
  { unfold stream. simpl. by rewrite tcp_close_stream, !tcp_set_stream. }
  destruct (negb _); [by eapply runs_intro|]. apply runs_bind. unfold runs at 1. mstep.
  destruct (close_cb (server_tcp s)); by split.
Qed.

(** The part of the current block that has not been handed over. *)
Definition unsent (ss : server_tcp_state) : list Z :=
  take (Z.to_nat (current_len ss - current_pos ss))
    (drop (Z.to_nat (current_pos ss)) (output_buffer ss)).

Definition block_ok (ss : server_tcp_state) : Prop :=
  0 ≤ current_pos ss ≤ current_len ss ∧ current_len ss < 400 ∧
  current_len ss ≤ Z.of_nat (length (output_buffer ss)).

Lemma length_unsent ss :
  block_ok ss → Z.of_nat (length (unsent ss)) = current_len ss - current_pos ss.
Proof.
  intros (Hp & Hl & Hb). unfold unsent. rewrite length_take, length_drop. lia.
Qed.

(** Writing out moves octets from the block to the stream. *)
Definition out_post s (r : Z) s' : Prop :=
  (∃ pos we, server_tcp s' = with_write_err we (with_block (output_buffer (server_tcp s)) pos
     (current_len (server_tcp s)) (server_tcp s))) ∧
  rx s' = rx s ∧ block_ok (server_tcp s') ∧
  stream s' ++ unsent (server_tcp s') = stream s ++ unsent (server_tcp s) ∧
  stream s `prefix_of` stream s' ∧
  (r = 0 ∨ r = 1 ∧ unsent (server_tcp s') = []).

Lemma unsent_advance ss pos n :
  block_ok ss → 0 < n ≤ current_len ss - current_pos ss → pos = current_pos ss + n →
  take (Z.to_nat n) (drop (Z.to_nat (current_pos ss)) (output_buffer ss)) ++
    unsent (with_block (output_buffer ss) pos (current_len ss) ss) = unsent ss.
Proof.
  intros (Hp & Hl & Hb) Hn ->. unfold unsent. simpl.
  replace (Z.to_nat (current_pos ss + n)) with (Z.to_nat (current_pos ss) + Z.to_nat n)%nat by lia.
  rewrite <-drop_drop, take_take_drop. f_equal. lia.
Qed.

Lemma ss_eta ss :
  ss = with_write_err (write_err ss) (with_block (output_buffer ss) (current_pos ss) (current_len ss) ss).
Proof. by destruct ss. Qed.

Lemma current_out_ok s :
  block_ok (server_tcp s) → runs server_current_tcp_out s (out_post s).
Proof.
  intros Hok. pose proof Hok as (Hp & Hl & Hb). unfold server_current_tcp_out.
  apply runs_bind. unfold runs at 1, gets at 1. set (ss := server_tcp s) in *.
  rewrite u16_small by (unfold is_u16; lia). destruct (_ >? 0) eqn:Epos.
  2:{ eapply runs_intro; [done|]. split; [eexists _, _; apply ss_eta|].
      do 4 (split; [done|]). right. split; [done|].
      apply nil_length_inv. pose proof (length_unsent ss Hok). fold ss. lia. }
  apply runs_bind. eapply runs_mono, (write_loop_ok 17); [|simpl; lia|rewrite length_drop; lia].
  intros [err n] s1 [(A1 & A2 & A3 & A4 & A5) Hr]. simpl in Hr. fold ss in A1.
  destruct (Z.eqb_spec err ERR_OK) as [->|Hne].
  - rewrite decide_True in Hr by done. destruct Hr as [Hn Hst].
    rewrite u16_small by (unfold is_u16; lia).
    pose proof (unsent_advance ss (current_pos ss + n) n Hok Hn eq_refl) as Hadv.
    set (ss' := with_block (output_buffer ss) (current_pos ss + n) (current_len ss) ss) in *.
    assert (∀ we, block_ok (with_write_err we ss')) as Hok'.
    { intros we. unfold block_ok. simpl. lia. }
    apply runs_bind. unfold runs at 1, set_ss at 1, modify. rewrite A1. fold ss'.
    destruct (_ <=? _) eqn:Ele.
    + eapply runs_intro; [done|]. split; [by exists (current_pos ss + n), (write_err ss)|].
      split; [done|]. split; [apply (Hok' (write_err ss))|].
      unfold stream in *. simpl. rewrite Hst, <-app_assoc. fold ss. rewrite Hadv. split; [done|].
      split; [by apply prefix_app_r|]. right. split; [done|]. apply nil_length_inv.
      pose proof (length_unsent ss' (Hok' (write_err ss))) as HL. simpl in HL. lia.
    + eapply runs_intro; [done|]. split; [exists (current_pos ss + n), 0; done|].
      split; [done|]. split; [apply Hok'|]. unfold stream in *. simpl.
      change (unsent (with_write_err 0 ss')) with (unsent ss').
      rewrite Hst, <-app_assoc. fold ss. rewrite Hadv. split; [done|].
      split; [by apply prefix_app_r|by left].
  - rewrite decide_False in Hr by done. apply runs_bind. unfold runs at 1, set_ss at 1, modify.
    rewrite A1. set (we := u32 (write_err ss + 1)). apply runs_bind.
    set (s2 := SrvState _ _ _ _ _ _).
    assert (∀ s', server_tcp s' = server_tcp s2 → rx s' = rx s2 → stream s' = stream s2 →
      out_post s 0 s') as Hpost.
    { intros s' E1 E2 E3. unfold out_post. rewrite E1, E2, E3. fold ss.
      split; [by exists (current_pos ss), we|]. split; [done|]. split; [done|].
      unfold stream in *. simpl. rewrite Hr. split; [done|]. split; [done|by left]. }
    destruct (_ >? MAX_WRITE_ERR_BEFORE_CLOSE).
    + apply runs_bind. eapply runs_mono, close_conn_ok. intros _ s' (E1 & E2 & E3).
      eapply runs_intro; [done|]. eapply runs_intro; [done|]. by apply Hpost.
    + eapply runs_intro; [done|]. eapply runs_intro; [done|]. by apply Hpost.
Qed.
End Writing.

(** ** The memory below the parser *)

Section Below.
Context {B : Type} `{BlockDevLaws B}.

(** A record as the client sees it: nothing when its checksum is wrong. *)
Definition sample_of (m : mem_state B) (n : Z) : option (list Z) :=
  let rec := record_at m n in
  if evaluate_checksum rec =? CHECKSUM_FAIL then None else Some rec.

(** The parser's indexes are in range, and the records are those of [m0]. *)
Definition rx_ok (m0 : mem_state B) (r : rx_state B) : Prop :=
  (∃ g, (g < 5)%nat ∧ good_index r = Z.of_nat g) ∧ bad_index r = 0 ∧ mem_ok (rx_mem r) ∧
  ring_top (rx_mem r) = ring_top m0 ∧ ∀ n, n ≠ 0 → m_page (rx_mem r) n = m_page m0 n.

Lemma parse_buffer_keeps m0 l r :
  1 ≤ ring_top m0 → rx_ok m0 r → runs (parse_http_response_buffer l) r (λ _, rx_ok m0).
Proof.
  intros Ht. revert r. induction l as [|c l IH]; intros r Hr; [by eapply runs_intro|].
  simpl. apply runs_bind. destruct r as [gi bi m]. destruct Hr as ((g & Hg & Eg) & Eb & Hm & Et & Hp).
  simpl in *. subst. unfold runs at 1. rewrite parse_octet_ok by done.
  pose proof (scan_step_range g c Hg) as Hg'. destruct (scan_step g c) as [g' [|]]; simpl in Hg' |- *.
  - destruct (good_upload_done_ok m Hm ltac:(rewrite Et; done)) as (m' & -> & Hm' & _ & _ & Et' & _ & Hp').
    apply IH. split; [by exists g'|]. split; [done|]. split; [done|]. simpl. split; [congruence|].
    intros n Hn. rewrite Hp', decide_False by done. by apply Hp.
  - apply IH. split; [by exists g'|]. by split.
Qed.

Lemma parse_segments_keeps m0 segs r :
  1 ≤ ring_top m0 → rx_ok m0 r → runs (parse_segments segs) r (λ _, rx_ok m0).
Proof.
  intros Ht. revert r. induction segs as [|l segs IH]; intros r Hr; [by eapply runs_intro|].
  simpl. apply runs_bind. eapply runs_mono, (parse_buffer_keeps m0 l r Ht Hr). intros ? r' Hr'. by apply IH.
Qed.

Lemma get_sample_keeps m0 n r :
  rx_ok m0 r → 1 ≤ n ≤ ring_top m0 →
  runs (on_rx_mem (get_sample n)) r (λ o r', o = sample_of m0 n ∧ rx_ok m0 r').
Proof.
  intros (Hg & Hb & Hm & Et & Hp) Hn. rewrite <-Et in Hn.
  destruct (get_sample_ok n (rx_mem r) Hm ltac:(clear -Hn; lia)) as (m' & Hrun & Hm' & _ & _ & Et' & _ & Hp').
  eapply runs_intro; [unfold on_rx_mem, lift; by rewrite Hrun|]. split.
  - unfold sample_of, record_at. by rewrite <-Hp by lia.
  - split; [done|]. split; [done|]. split; [done|]. simpl. split; [congruence|].
    intros k Hk. by rewrite Hp', Hp.
Qed.
End Below.

(** ** The request *)

Section Request.
Context {T B : Type} `{TcpStream T} `{BlockDevLaws B}.
Implicit Types s : srv_state T B.

(** One upload: the encoder's stack, the host and authorization strings, the
    number of records, the first block, the memory at the start and what had
    been sent before. *)
Context (stack host0 : list Z) (auth0 : option (list Z)) (count read0 : Z) (m0 : mem_state B)
  (sent0 : list Z).

Definition header : list Z := http_header stack host0 auth0 count.
Definition element (i : nat) : list Z :=
  json_element (sample_of m0 (read0 + Z.of_nat i)) (Z.of_nat (S i) <? count).
Definition elements (n : nat) : list Z := concat (map element (seq 0 n)).

(** The blocks issued once a phase has been entered. *)
Definition issued (phase : Z) (index : nat) : list Z :=
  if phase =? 0 then []
  else if phase =? 1 then header
  else if phase =? 2 then header ++ json_header ++ elements index
  else if phase =? 3 then header ++ json_header ++ elements (Z.to_nat count)
  else header ++ json_header ++ elements (Z.to_nat count) ++ json_footer.

(** The records of the request. *)
Definition records : list (option (list Z)) :=
  map (λ i, sample_of m0 (read0 + Z.of_nat i)) (seq 0 (Z.to_nat count)).
Definition request : list Z := header ++ json_body records.

Hypothesis count_range : 0 < count < 2 ^ 16 - 1.
Hypothesis blocks_range : 1 ≤ read0 ∧ read0 + count ≤ ring_top m0 + 1 ∧ ring_top m0 < 2 ^ 31.
Hypothesis header_fits : (length header < OUTPUT_BUFFER)%nat.

Record upload_inv s : Prop := UploadInv {
  inv_block : block_ok (server_tcp s);
  inv_host : host (server_tcp s) = host0;
  inv_auth : auth (server_tcp s) = auth0;
  inv_count : records_count (server_tcp s) = count;
  inv_phase : 0 ≤ output_phase (server_tcp s) ≤ 6;
  inv_index : 0 ≤ records_index (server_tcp s) ∧
    (output_phase (server_tcp s) < 2 → records_index (server_tcp s) = 0) ∧
    (output_phase (server_tcp s) = 2 → records_index (server_tcp s) ≤ count);
  inv_mem : output_phase (server_tcp s) ≤ 2 →
    mem_output_index (server_tcp s) = read0 + records_index (server_tcp s);
  inv_rx : rx_ok m0 (rx s);
  inv_sent : sent0 `prefix_of` stream s;
  inv_stream : stream s ++ unsent (server_tcp s)
    = sent0 ++ issued (output_phase (server_tcp s)) (Z.to_nat (records_index (server_tcp s)));
}.

Lemma elements_json_from k n :
  Z.of_nat (k + n) = count →
  concat (map element (seq k n))
  = json_elements (map (λ i, sample_of m0 (read0 + Z.of_nat i)) (seq k n)).
Proof.
  revert k. induction n as [|n IH]; intros k Hk; [done|].
  change (concat (map element (seq k (S n)))) with (element k ++ concat (map element (seq (S k) n))).
  rewrite IH by lia. unfold element. destruct n as [|n].
  - replace (Z.of_nat (S k) <? count) with false by (symmetry; apply Z.ltb_ge; lia).
    apply app_nil_r.
  - replace (Z.of_nat (S k) <? count) with true by (symmetry; apply Z.ltb_lt; lia). done.
Qed.

Lemma elements_json : elements (Z.to_nat count) = json_elements records.
Proof. apply elements_json_from. lia. Qed.

Lemma issued_all phase index : 4 ≤ phase → issued phase index = request.
Proof.
  intros Hp. unfold issued, request, json_body. rewrite elements_json.
  repeat match goal with |- context [phase =? ?k] => destruct (Z.eqb_spec phase k); [lia|] end. done.
Qed.

Lemma elements_app n k : ∃ l, elements (n + k) = elements n ++ l.
Proof.
  unfold elements. rewrite seq_app, map_app, concat_app. by eexists.
Qed.

(** What has been issued is always the beginning of the request. *)
Lemma issued_prefix phase index :
  (phase = 2 → Z.of_nat index ≤ count) → issued phase index `prefix_of` request.
Proof.
  intros Hi. destruct (decide (4 ≤ phase)); [by rewrite issued_all|].
  unfold issued, request, json_body. rewrite <-elements_json.
  destruct (phase =? 0); [apply prefix_nil|]. destruct (phase =? 1); [by apply prefix_app_r|].
  destruct (Z.eqb_spec phase 2) as [E|].
  - destruct (elements_app index (Z.to_nat count - index)) as [l Hl]. specialize (Hi E).
    replace (index + (Z.to_nat count - index))%nat with (Z.to_nat count) in Hl by lia.
    apply prefix_app, prefix_app. rewrite Hl, <-app_assoc. by apply prefix_app_r.
  - destruct (Z.eqb_spec phase 3).
    + apply prefix_app, prefix_app. by apply prefix_app_r.
    + by rewrite !app_assoc.
Qed.

(** *** Preservation *)

Lemma out_keeps s r s' : upload_inv s → out_post s r s' → upload_inv s'.
Proof.
  intros [] ((pos & we & E) & Erx & Hb & Hst & Hpre & _).
  constructor; rewrite ?Erx; try done; [..|by etrans|]; rewrite E in *; simpl in *; try done.
  change (stream s' ++ unsent (with_write_err we (with_block (output_buffer (server_tcp s)) pos
    (current_len (server_tcp s)) (server_tcp s))) =
    sent0 ++ issued (output_phase (server_tcp s)) (Z.to_nat (records_index (server_tcp s)))).
  by rewrite Hst.
Qed.

(** A new block is the next part of the request. *)
Lemma inv_issue s s' text :
  let ss := server_tcp s in let ss' := server_tcp s' in
  upload_inv s → unsent ss = [] →
  stream s' = stream s → rx_ok m0 (rx s') → block_ok ss' →
  host ss' = host ss → auth ss' = auth ss → records_count ss' = records_count ss →
  0 ≤ output_phase ss' ≤ 6 →
  (0 ≤ records_index ss' ∧ (output_phase ss' < 2 → records_index ss' = 0) ∧
    (output_phase ss' = 2 → records_index ss' ≤ count)) →
  (output_phase ss' ≤ 2 → mem_output_index ss' = read0 + records_index ss') →
  unsent ss' = text →
  issued (output_phase ss') (Z.to_nat (records_index ss'))
    = issued (output_phase ss) (Z.to_nat (records_index ss)) ++ text →
  upload_inv s'.
Proof.
  intros ss ss' [] Hun Hst Hrx Hb Eh Ea Ec Hph Hix Hmem Ht Hiss. subst ss ss'.
  constructor; try done; try congruence. rewrite Hst, Ht, Hiss, (assoc app). f_equal.
  by rewrite Hun, app_nil_r in inv_stream0.
Qed.

Lemma put_block_ok text s :
  (length text < OUTPUT_BUFFER)%nat → current_pos (server_tcp s) = 0 →
  runs (put_block text) s (λ _ s', stream s' = stream s ∧ rx s' = rx s ∧
    ∃ buf, let ss' := with_block buf 0 (Z.of_nat (length text)) (server_tcp s) in
      server_tcp s' = ss' ∧ block_ok ss' ∧ unsent ss' = text).
Proof.
  intros Hl Hp. unfold put_block. apply runs_bind. unfold runs at 1, gets. rewrite decide_True by done.
  eapply runs_intro; [done|]. split; [done|]. split; [done|]. eexists.
  split; [simpl; by rewrite Hp|]. unfold block_ok, unsent, OUTPUT_BUFFER in *. simpl. split.
  - rewrite length_app. simpl length. lia.
  - rewrite Z.sub_0_r, Nat2Z.id. apply take_app_length.
Qed.

Lemma elements_S n : elements (S n) = elements n ++ element n.
Proof. unfold elements. rewrite seq_S, map_app, concat_app. simpl. by rewrite app_nil_r. Qed.

(** The phases that issue one fixed block. *)
Lemma issue_fixed text s :
  let ss := server_tcp s in
  upload_inv s → unsent ss = [] → current_pos ss = 0 → (length text < OUTPUT_BUFFER)%nat →
  output_phase ss = 0 ∨ output_phase ss = 1 ∨ output_phase ss = 3 →
  issued (output_phase ss + 1) (Z.to_nat (records_index ss))
    = issued (output_phase ss) (Z.to_nat (records_index ss)) ++ text →
  runs (put_block text;; set_ss (with_phase (u8 (output_phase ss + 1)))) s (λ _, upload_inv).
Proof.
  intros ss Hinv Hun Hpos Hl Hph Hiss. rewrite u8_small by (unfold is_u8; lia).
  apply runs_bind. eapply runs_mono, (put_block_ok text s Hl Hpos).
  intros _ s1 (Hst & Hrx & buf & E & Hb & Hu). eapply runs_intro; [done|].
  pose proof Hinv as [? ? ? ? ? Hix Hmem ? ? ?]. fold ss in Hix, Hmem.
  apply (inv_issue s _ text); simpl; rewrite ?E, ?Hrx; simpl; try done; fold ss; try lia.
Qed.

Lemma issue_element s :
  let ss := server_tcp s in
  upload_inv s → unsent ss = [] → current_pos ss = 0 →
  output_phase ss = 2 → records_index ss < count →
  runs (set_ss (with_record (u16 (records_index ss + 1)) (u32 (mem_output_index ss + 1)));;
        data ← on_rx (on_rx_mem (get_sample (mem_output_index ss)));
        put_block (json_element data (u16 (records_index ss + 1) <? records_count ss))) s
    (λ _, upload_inv).
Proof.
  intros ss Hinv Hun Hpos Hph Hlt. pose proof Hinv as [_ _ _ Hc _ Hix Hmem Hrx _ _].
  fold ss in Hc, Hix, Hmem. specialize (Hmem ltac:(lia)). rewrite Hc, Hmem.
  rewrite (u16_small (records_index ss + 1)) by (unfold is_u16; lia).
  rewrite u32_small by (unfold is_u32; lia).
  apply runs_bind. unfold runs at 1, set_ss, modify. set (s1 := SrvState _ _ _ _ _ _).
  apply runs_bind. pose proof (get_sample_keeps m0 (read0 + records_index ss) (rx s) Hrx ltac:(lia)) as Hg.
  unfold runs at 1, on_rx, lift. simpl rx. unfold runs in Hg.
  destruct (on_rx_mem _ (rx s)) as [[o r']| |]; [|done|done]. destruct Hg as [-> Hrx'].
  eapply runs_mono, put_block_ok; [|pose proof (length_json_element
    (sample_of m0 (read0 + records_index ss)) (records_index ss + 1 <? count)) as Hle;
    unfold JSON_RECORD_CHARS, OUTPUT_BUFFER in *; case_match; lia|done].
  simpl. intros _ s2 (Hst & Hr2 & buf & E & Hb & Hu).
  eapply (inv_issue s s2 _ Hinv Hun); rewrite ?E, ?Hr2; try done; simpl; fold ss; rewrite ?Hph; try lia.
  change (records_index ss + 1) with (records_index ss + 1).
  unfold issued. change (2 =? 0) with false. change (2 =? 1) with false. change (2 =? 2) with true.
  cbv iota. rewrite <-!app_assoc. do 2 f_equal.
  replace (Z.to_nat (records_index ss + 1)) with (S (Z.to_nat (records_index ss))) by lia.
  rewrite elements_S. unfold element. rewrite Nat2Z.inj_succ, Z2Nat.id by lia. done.
Qed.

(** The phases that issue nothing. *)
Lemma issue_nothing s ph wait t :
  let ss := server_tcp s in
  upload_inv s → unsent ss = [] → tcp_stream t = stream s →
  (output_phase ss = 2 ∧ records_index ss = count ∧ ph = 3) ∨ (4 ≤ output_phase ss ∧ 4 ≤ ph ≤ 6) →
  ∀ idx, (output_phase ss = 2 → idx = records_index ss + 1) →
  (4 ≤ output_phase ss → idx = records_index ss) →
  upload_inv (SrvState (with_phase ph (with_wait wait (with_record idx (mem_output_index ss) ss)))
    t (rx s) (active s) (upload_countdown s) (ephemeral_seq s)).
Proof.
  intros ss Hinv Hun Ht Hph idx Hi2 Hi4. pose proof Hinv as [Hb _ _ _ _ Hix _ Hrx _ _]. fold ss in Hix.
  apply (inv_issue s _ [] Hinv Hun); simpl; try done; fold ss; try lia.
  rewrite app_nil_r. destruct Hph as [(E & Ei & ->)|[E Ep]].
  - rewrite E, Ei. done.
  - by rewrite !issued_all by lia.
Qed.

Lemma ss_record_eta ss :
  with_wait (wait_before_close_counter ss)
    (with_record (records_index ss) (mem_output_index ss) ss) = ss.
Proof. by destruct ss. Qed.

Lemma select_block_ok s :
  upload_inv s → current_pos (server_tcp s) = 0 → current_len (server_tcp s) = 0 →
  runs (select_block stack) s (λ _, upload_inv).
Proof.
  intros Hinv Hpos Hlen. pose proof Hinv as [Hb Hh Ha Hc Hp Hi Hm Hr _ _].
  assert (unsent (server_tcp s) = []) as Hun by (unfold unsent; by rewrite Hpos, Hlen).
  unfold select_block. apply runs_bind. unfold runs at 1, gets. rewrite Hh, Ha, Hc. fold header.
  pose proof (issue_nothing s) as Hnone. cbv zeta in Hnone. specialize Hnone with (1 := Hinv) (2 := Hun).
  unfold OP_HTTP_HEADER, OP_JSON_HEADER, OP_JSON_DATA, OP_JSON_FOOTER, OP_WAIT_BEFORE_CLOSE, OP_CLOSE.
  destruct (Z.eqb_spec (output_phase (server_tcp s)) 0) as [E|N0].
  { apply issue_fixed; try done; [by left|]. by rewrite E. }
  destruct (Z.eqb_spec (output_phase (server_tcp s)) 1) as [E|N1].
  { apply issue_fixed; try done; [unfold OUTPUT_BUFFER; simpl; lia|auto|].
    destruct Hi as (_ & Hi & _). rewrite E, (Hi ltac:(lia)). done. }
  destruct (Z.eqb_spec (output_phase (server_tcp s)) 2) as [E|N2].
  { apply runs_bind. unfold runs at 1, set_ss at 1, modify.
    destruct (Z.ltb_spec (records_index (server_tcp s)) count).
    - pose proof (issue_element s Hinv Hun Hpos E ltac:(lia)) as He. rewrite Hc in He. exact He.
    - eapply runs_intro; [done|]. rewrite E, (u16_small (_ + 1)) by (unfold is_u16; lia).
      apply (Hnone 3 (wait_before_close_counter (server_tcp s)) (net s)); lia || done. }
  destruct (Z.eqb_spec (output_phase (server_tcp s)) 3) as [E|N3].
  { apply issue_fixed; try done; [unfold OUTPUT_BUFFER; simpl; lia|auto|].
    rewrite E. unfold issued. simpl. by rewrite <-!app_assoc. }
  destruct (Z.eqb_spec (output_phase (server_tcp s)) 4) as [E|N4].
  { apply runs_bind. unfold runs at 1, set_ss at 1, modify. destruct (_ >? _).
    - eapply runs_intro; [done|]. rewrite E.
      specialize (Hnone 5 (u16 (wait_before_close_counter (server_tcp s) + 1)) (net s) eq_refl
        ltac:(lia) (records_index (server_tcp s)) ltac:(lia) ltac:(lia)). exact Hnone.
    - eapply runs_intro; [done|].
      specialize (Hnone 4 (u16 (wait_before_close_counter (server_tcp s) + 1)) (net s) eq_refl
        ltac:(lia) (records_index (server_tcp s)) ltac:(lia) ltac:(lia)). rewrite <-E in Hnone. exact Hnone. }
  destruct (Z.eqb_spec (output_phase (server_tcp s)) 5) as [E|N5].
  { apply runs_bind. unfold runs at 1. rewrite on_net_unfold. eapply runs_intro; [done|]. rewrite E.
    specialize (Hnone 6 (wait_before_close_counter (server_tcp s)) (tcp_close (net s)).2
      (tcp_close_stream _) ltac:(lia) (records_index (server_tcp s)) ltac:(lia) ltac:(lia)).
    rewrite ss_record_eta in Hnone. exact Hnone. }
  by eapply runs_intro.
Qed.

(** *** The service and the callbacks *)

Lemma tcp_out_ok s : upload_inv s → runs (server_tcp_out stack) s (λ _, upload_inv).
Proof.
  intros Hinv. unfold server_tcp_out. apply runs_bind. unfold runs at 1, gets.
  destruct (negb _); [|by eapply runs_intro]. apply runs_bind.
  eapply runs_mono, (current_out_ok s (inv_block _ Hinv)). intros r s1 Hpost.
  pose proof (out_keeps s r s1 Hinv Hpost) as Hinv1. destruct Hpost as (_ & _ & _ & _ & _ & Hr).
  destruct Hr as [->|[-> Hun]]; [by eapply runs_intro|]. change (negb (1 =? 0)) with true. cbv iota.
  apply runs_bind. unfold runs at 1, set_ss, modify. set (s2 := SrvState _ _ _ _ _ _).
  assert (upload_inv s2) as Hinv2.
  { pose proof Hinv1 as [Hb Hh Ha Hc Hp Hi Hm Hrx _ _].
    apply (inv_issue s1 s2 [] Hinv1 Hun); try done; [|by rewrite app_nil_r].
    unfold block_ok in *. simpl. lia. }
  apply runs_bind. eapply runs_mono, (select_block_ok s2 Hinv2); [|done|done].
  intros ? s3 Hinv3. apply runs_bind. eapply runs_mono, (current_out_ok s3 (inv_block _ Hinv3)).
  intros r' s4 Hpost4. eapply runs_intro; [done|]. by eapply out_keeps.
Qed.

(** What the main loop and the stack call, on the client's structure. *)
Inductive tcp_event : Type :=
  | EvService
  | EvConnected
  | EvSent
  | EvPoll
  | EvErr
  | EvRecv (p : option (list (list Z))) (err : Z).

Definition run_event (ev : tcp_event) : M (srv_state T B) unit :=
  match ev with
  | EvService => server_tcp_service stack
  | EvConnected => server_tcp_connected true;; mret tt
  | EvSent => server_tcp_sent stack true;; mret tt
  | EvPoll => server_tcp_poll;; mret tt
  | EvErr => server_tcp_err true
  | EvRecv p err => server_tcp_recv true p err;; mret tt
  end.
Fixpoint run_events (evs : list tcp_event) : M (srv_state T B) unit :=
  match evs with [] => mret tt | ev :: evs => run_event ev;; run_events evs end.

(** The invariant does not look at the connection flag or the upload timer. *)
Lemma inv_transport s s' :
  upload_inv s → (∃ c, server_tcp s' = with_connected c (server_tcp s)) →
  rx_ok m0 (rx s') → stream s' = stream s → upload_inv s'.
Proof.
  intros [] (c & E) Hrx Hst. constructor; rewrite ?E, ?Hst; done.
Qed.

Lemma ss_connected_eta ss : ss = with_connected (connected ss) ss.
Proof. by destruct ss. Qed.

Lemma close_keeps s : upload_inv s → runs (server_tcp_close_conn true) s (λ _, upload_inv).
Proof.
  intros Hinv. eapply runs_mono, close_conn_ok. intros ? s' (E1 & E2 & E3).
  eapply (inv_transport s); [done| |rewrite E2; apply Hinv|done].
  rewrite E1. eexists. apply ss_connected_eta.
Qed.

Lemma recv_keeps p err s : upload_inv s → runs (server_tcp_recv true p err) s (λ _, upload_inv).
Proof.
  intros Hinv. unfold server_tcp_recv.
  assert (∀ n s, upload_inv s → upload_inv (SrvState (server_tcp s) (tcp_recved n (net s)) (rx s)
    (active s) (upload_countdown s) (ephemeral_seq s))) as Hack.
  { intros n s' Hinv'. apply (inv_transport s'); [done|eexists; apply ss_connected_eta|apply Hinv'|].
    apply tcp_recved_stream. }
  destruct p as [segs|]; [destruct (negb _ || _)|].
  - apply runs_bind. unfold runs at 1, do_net. rewrite on_net_unfold. apply runs_bind.
    eapply runs_mono, close_keeps, Hack, Hinv. intros ? s' Hs'. by eapply runs_intro.
  - apply runs_bind. unfold runs at 1, on_rx, lift.
    assert (1 ≤ ring_top m0) as Ht by lia.
    pose proof (parse_segments_keeps m0 segs (rx s) Ht (inv_rx _ Hinv)) as Hp. unfold runs in Hp.
    destruct (parse_segments segs (rx s)) as [[u r']| |]; [|done|done].
    apply runs_bind. unfold runs at 1, do_net. rewrite on_net_unfold. eapply runs_intro; [done|].
    apply Hack. apply (inv_transport s); [done|eexists; apply ss_connected_eta|done|done].
  - apply runs_bind. eapply runs_mono, close_keeps, Hinv. intros ? s' Hs'. by eapply runs_intro.
Qed.

Lemma event_keeps ev s : upload_inv s → runs (run_event ev) s (λ _, upload_inv).
Proof.
  intros Hinv. pose proof (inv_rx _ Hinv) as (Hg & Hb & Hm). destruct ev as [| | | | |p err]; simpl.
  - unfold server_tcp_service. apply runs_bind. unfold runs at 1, gets.
    destruct (_ =? _); [by apply tcp_out_ok|by eapply runs_intro].
  - eapply runs_intro; [done|]. apply (inv_transport s); [done|by eexists| |done].
    split; [by exists 0%nat; split; [lia|]|]. by split.
  - apply runs_bind. unfold server_tcp_sent. apply runs_bind. eapply runs_mono, tcp_out_ok, Hinv.
    intros ? s' Hs'. eapply runs_intro; [done|]. by eapply runs_intro.
  - by eapply runs_intro.
  - unfold server_tcp_err. apply runs_bind. unfold runs at 1, set_ss, modify. set (s1 := SrvState _ _ _ _ _ _).
    assert (upload_inv s1) by (apply (inv_transport s); [done|by eexists|apply Hinv|done]).
    apply runs_bind. unfold runs at 1. simpl. destruct (pcb (server_tcp s)); [|by eapply runs_intro].
    apply runs_bind. eapply runs_mono, (close_keeps s1); [|done]. intros ? s' Hs'. by eapply runs_intro.
  - apply runs_bind. eapply runs_mono, recv_keeps, Hinv. intros ? s' Hs'. by eapply runs_intro.
Qed.

Lemma events_keep evs s : upload_inv s → runs (run_events evs) s (λ _, upload_inv).
Proof.
  revert s. induction evs as [|ev evs IH]; intros s Hinv; [by eapply runs_intro|].
  simpl. apply runs_bind. eapply runs_mono, event_keeps, Hinv. intros ? s' Hs'. by apply IH.
Qed.

(** What the invariant says about the stream. *)
Definition stream_post s' : Prop :=
  ∃ x, stream s' = sent0 ++ x ∧ x `prefix_of` request ∧
    (4 ≤ output_phase (server_tcp s') → unsent (server_tcp s') = [] → x = request).

Lemma inv_stream_post s : upload_inv s → stream_post s.
Proof.
  intros Hinv. pose proof Hinv as [_ _ _ _ Hp Hi _ _ [x Ex] Hst].
  rewrite Ex, <-app_assoc in Hst. apply app_inv_head in Hst.
  exists x. split; [done|]. split.
  - transitivity (x ++ unsent (server_tcp s)); [by apply prefix_app_r|]. rewrite Hst.
    apply issued_prefix. lia.
  - intros H4 Hun. by rewrite Hun, app_nil_r, issued_all in Hst.
Qed.

(** *** Progress on a stack that accepts everything *)

Hypothesis accepts : ∀ data t, (tcp_write data t).1 = ERR_OK.

Lemma write_loop_accepts fuel ptr len s :
  runs (write_loop (S fuel) ptr len) s (λ r _, r = (ERR_OK, len)).
Proof.
  simpl. apply runs_bind. unfold runs at 1. rewrite on_net_unfold, accepts. by eapply runs_intro.
Qed.

Lemma current_out_accepts s :
  block_ok (server_tcp s) → runs server_current_tcp_out s (λ r s', out_post s r s' ∧ r = 1).
Proof.
  intros Hok. apply runs_and; [by apply current_out_ok|]. pose proof Hok as (Hp & Hl & Hb).
  unfold server_current_tcp_out. apply runs_bind. unfold runs at 1, gets.
  rewrite u16_small by (unfold is_u16; lia). destruct (_ >? 0) eqn:Epos; [|by eapply runs_intro].
  apply runs_bind. eapply runs_mono, (write_loop_accepts 16). intros ? s1 ->.
  change (ERR_OK =? ERR_OK) with true. cbv iota. rewrite u16_small by (unfold is_u16; lia).
  replace (current_pos (server_tcp s) + (current_len (server_tcp s) - current_pos (server_tcp s)))
    with (current_len (server_tcp s)) by lia.
  rewrite Z.leb_refl. by eapply runs_intro.
Qed.

(** How many services have been spent. *)
Definition progress (ss : server_tcp_state) : Z :=
  if output_phase ss <? 2 then output_phase ss
  else if output_phase ss =? 2 then 2 + records_index ss
  else if output_phase ss =? 3 then count + 3 else count + 4.

Lemma put_block_frame text s :
  (length text < OUTPUT_BUFFER)%nat →
  runs (put_block text) s (λ _ s', output_phase (server_tcp s') = output_phase (server_tcp s) ∧
    records_index (server_tcp s') = records_index (server_tcp s) ∧
    connected (server_tcp s') = connected (server_tcp s)).
Proof.
  intros Hl. unfold put_block. apply runs_bind. unfold runs at 1, gets. rewrite decide_True by done.
  by eapply runs_intro.
Qed.

Lemma select_progress s :
  upload_inv s → progress (server_tcp s) < count + 4 →
  runs (select_block stack) s (λ _ s', connected (server_tcp s') = connected (server_tcp s) ∧
    progress (server_tcp s') = progress (server_tcp s) + 1).
Proof.
  intros Hinv Hlt. pose proof Hinv as [_ Hh Ha Hc Hp Hi Hm Hr _ _].
  unfold select_block. apply runs_bind. unfold runs at 1, gets. rewrite Hh, Ha, Hc. fold header.
  assert (∀ text, (length text < OUTPUT_BUFFER)%nat →
    output_phase (server_tcp s) = 0 ∨ output_phase (server_tcp s) = 1 ∨ output_phase (server_tcp s) = 3 →
    runs (put_block text;; set_ss (with_phase (u8 (output_phase (server_tcp s) + 1)))) s (λ _ s',
      connected (server_tcp s') = connected (server_tcp s) ∧
      progress (server_tcp s') = progress (server_tcp s) + 1)) as Hfix.
  { intros text Hl Hph. apply runs_bind. eapply runs_mono, (put_block_frame text s Hl).
    intros _ s' (E1 & E2 & E3). eapply runs_intro; [done|]. simpl. split; [done|].
    rewrite u8_small by (unfold is_u8; lia). unfold progress in *. simpl. rewrite E2.
    destruct Hph as [E|[E|E]]; rewrite E; simpl; lia. }
  unfold OP_HTTP_HEADER, OP_JSON_HEADER, OP_JSON_DATA, OP_JSON_FOOTER.
  destruct (Z.eqb_spec (output_phase (server_tcp s)) 0); [by apply Hfix; auto|].
  destruct (Z.eqb_spec (output_phase (server_tcp s)) 1).
  { apply Hfix; [unfold OUTPUT_BUFFER; simpl; lia|auto]. }
  destruct (Z.eqb_spec (output_phase (server_tcp s)) 2) as [E|].
  2:{ destruct (Z.eqb_spec (output_phase (server_tcp s)) 3).
      - apply Hfix; [unfold OUTPUT_BUFFER; simpl; lia|auto].
      - unfold progress in Hlt. repeat case_match; lia. }
  apply runs_bind. unfold runs at 1, set_ss at 1, modify.
  assert (is_u16 (records_index (server_tcp s) + 1)) as H16 by (unfold is_u16; lia).
  unfold progress. rewrite E, (u16_small _ H16). change (2 <? 2) with false. change (2 =? 2) with true.
  cbv iota. destruct (Z.ltb_spec (records_index (server_tcp s)) count).
  - apply runs_bind. unfold runs at 1, set_ss, modify. apply runs_bind.
    pose proof (get_sample_keeps m0 (read0 + records_index (server_tcp s)) (rx s) Hr ltac:(lia)) as Hg.
    rewrite (Hm ltac:(lia)). unfold runs at 1, on_rx, lift. simpl rx. unfold runs in Hg.
    destruct (on_rx_mem _ (rx s)) as [[o r']| |]; [|done|done].
    eapply runs_mono, put_block_frame; [|pose proof (length_json_element o
      (records_index (server_tcp s) + 1 <? count)) as Hle;
      unfold JSON_RECORD_CHARS, OUTPUT_BUFFER in *; case_match; lia].
    simpl. intros _ s' (E1 & E2 & E3). rewrite E1, E2, E3, E. simpl. split; [done|lia].
  - eapply runs_intro; [done|]. simpl. split; [done|lia].
Qed.

Definition sending s : Prop :=
  upload_inv s ∧ connected (server_tcp s) = CONNECTED ∧ unsent (server_tcp s) = [].

Lemma service_progress s :
  sending s → progress (server_tcp s) < count + 4 →
  runs (server_tcp_service stack) s (λ _ s', sending s' ∧
    progress (server_tcp s') = progress (server_tcp s) + 1).
Proof.
  intros (Hinv & Hcon & Hun) Hlt. unfold server_tcp_service, server_tcp_out.
  apply runs_bind. unfold runs at 1, gets at 1. rewrite Hcon. change (CONNECTED =? CONNECTED) with true.
  cbv iota. apply runs_bind. unfold runs at 1, gets at 1. rewrite Hcon.
  change (negb (CONNECTED =? DISCONNECTED)) with true. cbv iota. apply runs_bind.
  eapply runs_mono, (current_out_accepts s (inv_block _ Hinv)). intros ? s1 [Hpost ->].
  pose proof (out_keeps _ _ _ Hinv Hpost) as Hinv1.
  destruct Hpost as ((pos & we & E1) & _ & _ & _ & _ & [?|[_ Hun1]]); [done|].
  change (negb (1 =? 0)) with true. cbv iota.
  apply runs_bind. unfold runs at 1, set_ss, modify. set (s2 := SrvState _ _ _ _ _ _).
  assert (upload_inv s2) as Hinv2.
  { pose proof Hinv1 as [Hb Hh Ha Hc Hp Hi Hm Hrx _ _].
    apply (inv_issue s1 s2 [] Hinv1 Hun1); try done; [|by rewrite app_nil_r].
    unfold block_ok in *. simpl. lia. }
  assert (progress (server_tcp s2) = progress (server_tcp s) ∧ connected (server_tcp s2) = CONNECTED)
    as [Hpr Hcon2] by (simpl; rewrite E1; by split).
  apply runs_bind. eapply runs_mono, runs_and;
    [|apply (select_block_ok s2 Hinv2); done|apply (select_progress s2 Hinv2); lia].
  intros ? s3 (Hinv3 & Hcon3 & Hpr3). apply runs_bind.
  eapply runs_mono, (current_out_accepts s3 (inv_block _ Hinv3)). intros ? s4 [Hpost4 ->].
  eapply runs_intro; [done|]. pose proof (out_keeps _ _ _ Hinv3 Hpost4) as Hinv4.
  destruct Hpost4 as ((pos4 & we4 & E4) & _ & _ & _ & _ & [?|[_ Hun4]]); [done|].
  split; [split; [done|]; split; [|done]|]; rewrite E4; simpl; [congruence|].
  change (progress (server_tcp s3) = progress (server_tcp s) + 1). lia.
Qed.

Lemma services_progress n s :
  sending s → progress (server_tcp s) + Z.of_nat n ≤ count + 4 →
  runs (run_events (replicate n EvService)) s (λ _ s', sending s' ∧
    progress (server_tcp s') = progress (server_tcp s) + Z.of_nat n).
Proof.
  revert s. induction n as [|n IH]; intros s Hs Hn.
  { eapply runs_intro; [done|]. split; [done|lia]. }
  simpl. apply runs_bind. eapply runs_mono, (service_progress s Hs); [|lia].
  intros ? s1 [Hs1 Hp1]. eapply runs_mono, (IH s1 Hs1); [|lia].
  intros ? s2 [Hs2 Hp2]. split; [done|lia].
Qed.

Lemma complete_stream s :
  sending s → progress (server_tcp s) = count + 4 → stream s = sent0 ++ request.
Proof.
  intros (Hinv & _ & Hun) Hpr. destruct (inv_stream_post s Hinv) as (x & Ex & _ & Hall).
  rewrite Ex, Hall; [done| |done]. pose proof (inv_index _ Hinv). pose proof (inv_phase _ Hinv).
  unfold progress in Hpr. repeat case_match; lia.
Qed.
End Request.
