(* ===== verification/ServerClaims.v ===== *)
(** * What the upload promises

    The theorems on whole uploads, from [server_tcp_init] on, and a TCP stack
    to evaluate them with. *)

From S2P Require Import Prelude LwipBase Checksum BlockDev Memory MemoryRing HttpTx HttpRx ServerTcp ServerStream.
From Stdlib Require Import Ascii String ZArith Lia.
From stdpp Require Import base numbers list.
Open Scope Z_scope.

Section Claims.
Context {T B : Type} `{TcpStream T} `{BlockDevLaws B}.
Implicit Types s : srv_state T B.

(** ** Opening the connection *)

Lemma bind_loop_frame i s :
  runs (bind_loop i) s (λ _ s', server_tcp s' = server_tcp s ∧ rx s' = rx s).
Proof.
  revert s. induction i as [|i IH]; intros s; simpl bind_loop.
  - do 2 apply runs_bind. unfold runs at 1, get. apply runs_bind. unfold runs at 1, modify.
    eapply runs_intro; [done|]. apply runs_bind. unfold runs at 1. rewrite on_net_unfold.
    destruct (_ =? _); by eapply runs_intro.
  - do 2 apply runs_bind. unfold runs at 1, get. apply runs_bind. unfold runs at 1, modify.
    eapply runs_intro; [done|]. apply runs_bind. unfold runs at 1. rewrite on_net_unfold.
    destruct (_ =? _); [by eapply runs_intro|]. destruct i as [|i]; [by eapply runs_intro|].
    eapply runs_mono, IH. intros ? s' [E1 E2]. by rewrite E1, E2.
Qed.

#[local] Arguments bind_loop : simpl never.
#[local] Arguments OUTPUT_BUFFER : simpl never.

(** A successful start leaves a fresh structure and an untouched parser. *)
Lemma init_ok host0 port auth0 read0 count cb s :
  runs (server_tcp_init host0 port auth0 read0 count cb) s (λ err s', rx s' = rx s ∧
    (err = ERR_OK → 0 < count ∧ server_tcp s' =
       ServerTcpState true 0 host0 auth0 port 0 read0 0 count (replicate OUTPUT_BUFFER 0) 0 0 0 cb 0)).
Proof.
  unfold server_tcp_init. destruct (count >? 0) eqn:Ec; [|by eapply runs_intro].
  apply runs_bind. unfold runs at 1, set_ss, modify.
  apply runs_bind. unfold runs at 1. rewrite on_net_unfold. simpl.
  destruct (tcp_new (net s)) as [p t]. simpl.
  apply runs_bind. unfold runs at 1. simpl. destruct p; [|by eapply runs_intro].
  apply runs_bind. unfold runs at 1, do_net. rewrite on_net_unfold. simpl.
  apply runs_bind. eapply runs_mono, bind_loop_frame. simpl. intros err s1 [E1 E2].
  destruct (negb (err =? ERR_OK)) eqn:En.
  { eapply runs_intro; [done|]. split; [done|]. intros ->. done. }
  do 5 (apply runs_bind; unfold runs at 1, do_net; rewrite on_net_unfold; simpl).
  unfold runs. rewrite on_net_unfold. simpl. split; [done|]. intros _. split; [lia|done].
Qed.

(** The state after a successful start satisfies the invariant. *)
Lemma init_inv stack host0 port auth0 read0 count cb m0 s' :
  0 < count →
  server_tcp s' = ServerTcpState true 0 host0 auth0 port 0 read0 0 count
    (replicate OUTPUT_BUFFER 0) 0 0 0 cb 0 →
  rx_ok m0 (rx s') → upload_inv stack host0 auth0 count read0 m0 (stream s') s'.
Proof.
  intros Hc E Hrx. constructor; rewrite ?E; simpl; try done; try lia.
Qed.

(** The conditions under which an upload is well formed: the parser's state
    and the memory are sound, the blocks exist and the header, which contains
    the host and the credentials, fits the output buffer. *)
Definition upload_ok stack (host0 : list Z) (auth0 : option (list Z)) (read0 count : Z) s : Prop :=
  rx_ok (rx_mem (rx s)) (rx s) ∧ count < 2 ^ 16 - 1 ∧ 1 ≤ read0 ∧
  read0 + count ≤ ring_top (rx_mem (rx s)) + 1 ∧ ring_top (rx_mem (rx s)) < 2 ^ 31 ∧
  (length (header stack host0 auth0 count) < OUTPUT_BUFFER)%nat.

(** The request for the records the memory holds when the upload starts. *)
Definition upload_request stack host0 auth0 read0 count s : list Z :=
  request stack host0 auth0 count read0 (rx_mem (rx s)).


(** C11. Completion.  If the stack accepts every write, then once connected
    exactly [count + 4] service calls write the whole request, and nothing
    else. *)
Theorem upload_completes stack host0 port auth0 read0 count cb s :
  (∀ data t, (tcp_write data t).1 = ERR_OK) →
  upload_ok stack host0 auth0 read0 count s →
  runs (server_tcp_init host0 port auth0 read0 count cb) s (λ err s1, err = ERR_OK →
    runs (run_events stack (EvConnected :: replicate (Z.to_nat (count + 4)) EvService)) s1
      (λ _ s2, stream s2 = stream s1 ++ upload_request stack host0 auth0 read0 count s)).
Proof.
  intros Hacc (Hrx & Hc & Hr1 & Hr2 & Ht & Hh). eapply runs_mono, init_ok.
  intros err s1 [Erx Hok] ->. destruct (Hok eq_refl) as [Hc0 E1]. rewrite <-Erx in Hrx at 2.
  assert (upload_inv stack host0 auth0 count read0 (rx_mem (rx s)) (stream s1) s1) as Hinv
    by by eapply init_inv.
  change (run_events stack (EvConnected :: replicate (Z.to_nat (count + 4)) EvService))
    with (run_event stack EvConnected;; run_events stack (replicate (Z.to_nat (count + 4)) EvService)).
  apply runs_bind. eapply runs_mono, runs_and;
    [|apply (event_keeps stack host0 auth0 count read0 (rx_mem (rx s)) (stream s1)); try done
     |apply (runs_intro _ _ _ _ (λ _ s', connected (server_tcp s') = CONNECTED ∧
        unsent (server_tcp s') = unsent (server_tcp s1) ∧ output_phase (server_tcp s') = 0) eq_refl)].
  - intros ? s2 (Hinv2 & Hcon & Hun & Hph). rewrite E1 in Hun. change (unsent (ServerTcpState _ _ _ _ _ _ _ _ _ _ _ _ _ _ _)) with (@nil Z) in Hun.
    assert (progress count (server_tcp s2) = 0) as Hpr by (unfold progress; by rewrite Hph).
    eapply runs_mono, (services_progress stack host0 auth0 count read0 (rx_mem (rx s)) (stream s1));
      try done; [|lia].
    intros ? s3 [Hs3 Hp3]. eapply complete_stream; try done. lia.
  - simpl. rewrite E1. done.
Qed.
End Claims.

(** The argument of the receive callback is cleared when a connection is
    closed; data that arrives afterwards reaches the branch for a null
    argument, which follows the null pointer once the close succeeds. *)
Lemma recv_null_faults {T B} `{TcpApi T} `{BlockDev B} (s : srv_state T B) :
  (∀ t, (tcp_close t).1 = ERR_OK) → server_tcp_recv false None ERR_OK s = Fault.
Proof.
  intros Hc. unfold server_tcp_recv, server_tcp_close_conn, do_net.
  repeat (rewrite bind_unfold || rewrite on_net_unfold). rewrite Hc. done.
Qed.

(** ** Two TCP stacks *)

(** One that answers writes from a script (and then accepts) and one that
    accepts everything. *)
Record scripted : Type := Scripted { script : list Z; taken : list Z }.
#[export] Instance scripted_api : TcpApi scripted := {
  tcp_new t := (true, t);
  tcp_setprio t := t;
  tcp_bind _ t := (0, t);
  tcp_set _ _ t := t;
  tcp_connect _ t := (0, t);
  tcp_write data t :=
    let err := default 0 (head (script t)) in
    (err, Scripted (tail (script t)) (taken t ++ if decide (err = ERR_OK) then data else []));
  tcp_close t := (0, t);
  tcp_recved _ t := t;
  tcp_sndbuf _ := 1000;
  tcp_sndqueuelen _ := 3;
}.
#[export] Instance scripted_stream : TcpStream scripted.
Proof. by refine {| tcp_stream := taken |}. Defined.

Record sink : Type := Sink { sunk : list Z }.
#[export] Instance sink_api : TcpApi sink := {
  tcp_new t := (true, t);
  tcp_setprio t := t;
  tcp_bind _ t := (0, t);
  tcp_set _ _ t := t;
  tcp_connect _ t := (0, t);
  tcp_write data t := (0, Sink (sunk t ++ data));
  tcp_close t := (0, t);
  tcp_recved _ t := t;
  tcp_sndbuf _ := 1000;
  tcp_sndqueuelen _ := 3;
}.
#[export] Instance sink_stream : TcpStream sink.
Proof. by refine {| tcp_stream := sunk |}. Defined.

Definition blank_server : server_tcp_state :=
  ServerTcpState false 0 [] None 0 0 0 0 0 [] 0 0 0 false 0.
Definition demo_srv {T} (t : T) : srv_state T ram_disk :=
  SrvState blank_server t (RxState 0 0 demo_ring) 0 0 0.

Lemma demo_upload_ok {T} `{TcpApi T} (t : T) :
  upload_ok [0; 0; 0] (str "192.168.1.8") None 9 3 (demo_srv t).
Proof.
  split; [|repeat (split; [by_decision|]); by_decision].
  split; [by exists 0%nat; split; [lia|]|]. split; [done|].
  split; [apply demo_ring_ok|]. by split.
Qed.


Lemma upload_completes_witness :
  runs (server_tcp_init (str "192.168.1.8") 5984 None 9 3 true) (demo_srv (Sink [])) (λ err s1,
    err = ERR_OK →
    runs (run_events [0; 0; 0] (EvConnected :: replicate (Z.to_nat (3 + 4)) EvService)) s1
      (λ _ s2, stream s2 = stream s1 ++
         upload_request [0; 0; 0] (str "192.168.1.8") None 9 3 (demo_srv (Sink [])))).
Proof. apply upload_completes; [done|apply demo_upload_ok]. Defined.
