(* ===== verification/IpAddr.v ===== *)
(** * Internet addresses ([src/lwip/core/ipv4/ip_addr.c], [src/lwip/core/def.c])

    The conversions between the text and the binary form of an address that
    the upload and the DNS client use, and the byte-order helpers below them.
    A string is a list of octets; reading past its end yields the
    terminator. *)

From S2P Require Import Prelude HttpTx.
From Stdlib Require Import Ascii String ZArith Lia.
From stdpp Require Import base numbers list.
Open Scope Z_scope.

(** ** Byte order ([def.c]) *)

Definition lwip_htons (n : Z) : Z :=
  u16 (Z.lor (Z.shiftl (Z.land n 0xff) 8) (Z.shiftr (Z.land n 0xff00) 8)).
Definition lwip_ntohs (n : Z) : Z := lwip_htons n.
Definition lwip_htonl (n : Z) : Z :=
  u32 (Z.lor (Z.lor (Z.lor (Z.shiftl (Z.land n 0xff) 24) (Z.shiftl (Z.land n 0xff00) 8))
         (Z.shiftr (Z.land n 0xff0000) 8)) (Z.shiftr (Z.land n 0xff000000) 24)).
Definition lwip_ntohl (n : Z) : Z := lwip_htonl n.

(** ** Predicates on addresses *)

Definition IPADDR_ANY : Z := 0.
Definition IPADDR_BROADCAST : Z := 0xffffffff.
Definition IPADDR_NONE : Z := 0xffffffff.
Definition NETIF_FLAG_UP : Z := 0x01.
Definition NETIF_FLAG_BROADCAST : Z := 0x02.
Definition NETIF_FLAG_LINK_UP : Z := 0x10.

(** [flags], [ip] and [netmask] are the fields of the interface. *)
Definition ip4_addr_isbroadcast (addr flags ip netmask : Z) : Z :=
  if (unot 32 addr =? IPADDR_ANY) || (addr =? IPADDR_ANY) then 1
  else if Z.land flags NETIF_FLAG_BROADCAST =? 0 then 0
  else if addr =? ip then 0
  else if (Z.land addr netmask =? Z.land ip netmask) &&
          (Z.land addr (unot 32 netmask) =? Z.land IPADDR_BROADCAST (unot 32 netmask)) then 1
  else 0.

(** The first loop stops at the first zero bit, the second looks for a one
    below it; [bits] is the number of positions left. *)
Fixpoint no_ones_below (bits : nat) (nm : Z) : bool :=
  match bits with
  | O => true
  | S b => if negb (Z.land nm (Z.shiftl 1 (Z.of_nat b)) =? 0) then false else no_ones_below b nm
  end.
Fixpoint first_zero (bits : nat) (nm : Z) : nat :=
  match bits with
  | O => O
  | S b => if Z.land nm (Z.shiftl 1 (Z.of_nat b)) =? 0 then bits else first_zero b nm
  end.
Definition ip4_addr_netmask_valid (netmask : Z) : Z :=
  let nm := lwip_htonl netmask in
  if no_ones_below (first_zero 32 nm) nm then 1 else 0.

(** ** From text *)

Definition isdigit (c : Z) : bool := (char "0" <=? c) && (c <=? char "9").
Definition islower (c : Z) : bool := (char "a" <=? c) && (c <=? char "z").
Definition isxdigit (c : Z) : bool :=
  isdigit c || ((char "a" <=? c) && (c <=? char "f")) || ((char "A" <=? c) && (c <=? char "F")).
Definition isspace (c : Z) : bool :=
  (c =? 32) || (c =? 12) || (c =? 10) || (c =? 13) || (c =? 9) || (c =? 11).

(** The character under the pointer. *)
Definition at_cp (cp : list Z) : Z := default 0 (head cp).

(** The inner loop: accumulate a number. *)
Fixpoint collect (base val : Z) (cp : list Z) : Z * list Z :=
  match cp with
  | [] => (val, [])
  | c :: cp' =>
     if isdigit c then collect base (u32 (val * base + (c - char "0"))) cp'
     else if (base =? 16) && isxdigit c then
       collect base (u32 (Z.lor (Z.shiftl val 4) (c + 10 - (if islower c then char "a" else char "A")))) cp'
     else (val, cp)
  end.

(** The outer loop: the parts before the last number, that number and the
    rest of the text.  At most three parts are stored, so that four rounds
    suffice. *)
Fixpoint aton_loop (fuel : nat) (parts : list Z) (cp : list Z) : option (list Z * Z * list Z) :=
  match fuel with
  | O => None
  | S fuel =>
     if negb (isdigit (at_cp cp)) then None
     else
       let '(base, cp) :=
         if at_cp cp =? char "0" then
           let cp := tail cp in
           if (at_cp cp =? char "x") || (at_cp cp =? char "X") then (16, tail cp) else (8, cp)
         else (10, cp) in
       let '(val, cp) := collect base 0 cp in
       if at_cp cp =? char "." then
         if (3 <=? length parts)%nat then None else aton_loop fuel (parts ++ [val]) (tail cp)
       else Some (parts, val, cp)
  end.

(** The address, or [None] for the result 0. *)
Definition ipaddr_aton (cp : list Z) : option Z :=
  '(parts, val, cp) ← aton_loop 4 [] cp;
  if negb (at_cp cp =? 0) && negb (isspace (at_cp cp)) then None
  else
    match length parts with
    | 0%nat => Some (lwip_htonl val)
    | 1%nat =>
       if val >? 0xffffff then None
       else Some (lwip_htonl (u32 (Z.lor val (Z.shiftl parts.[0] 24))))
    | 2%nat =>
       if val >? 0xffff then None
       else Some (lwip_htonl (u32 (Z.lor val (Z.lor (Z.shiftl parts.[0] 24) (Z.shiftl parts.[1] 16)))))
    | _ =>
       if val >? 0xff then None
       else Some (lwip_htonl (u32 (Z.lor val
              (Z.lor (Z.lor (Z.shiftl parts.[0] 24) (Z.shiftl parts.[1] 16)) (Z.shiftl parts.[2] 8)))))
    end.

Definition ipaddr_addr (cp : list Z) : Z := default IPADDR_NONE (ipaddr_aton cp).

(** ** To text *)

(** The digits of an octet, least significant first. *)
Fixpoint inv_digits (fuel : nat) (ap : Z) : list Z :=
  match fuel with
  | O => []
  | S fuel =>
     let rem := ap mod 10 in
     let ap := ap / 10 in
     (char "0" + rem) :: if ap =? 0 then [] else inv_digits fuel ap
  end.

(** [if (len++ >= buflen) return NULL; *rp++ = c;] for a run of characters. *)
Fixpoint put_chars (buflen : Z) (cs : list Z) (st : list Z * Z) : option (list Z * Z) :=
  match cs with
  | [] => Some st
  | c :: cs =>
     let '(rp, len) := st in
     if buflen <=? len then None else put_chars buflen cs (rp ++ [c], len + 1)
  end.

Fixpoint ntoa_octets (buflen : Z) (aps : list Z) (st : list Z * Z) : option (list Z * Z) :=
  match aps with
  | [] => Some st
  | ap :: aps =>
     st ← put_chars buflen (reverse (inv_digits 3 ap) ++ [char "."]) st;
     ntoa_octets buflen aps st
  end.

(** The text without its terminator, which replaces the last dot. *)
Definition ipaddr_ntoa_r (addr buflen : Z) : option (list Z) :=
  '(rp, _) ← ntoa_octets buflen (le_bytes 4 addr) ([], 0);
  Some (removelast rp).
Definition ipaddr_ntoa (addr : Z) : option (list Z) := ipaddr_ntoa_r addr 16.

(** ** Byte order lemmas *)

Lemma land_high x w lo m :
  0 ≤ w → 0 ≤ lo → m = Z.shiftl (Z.ones w) lo → Z.land x m = Z.shiftl ((x / 2 ^ lo) mod 2 ^ w) lo.
Proof.
  intros Hw Hlo ->. apply Z.bits_inj'. intros i Hi.
  rewrite Z.land_spec, !Z.shiftl_spec by lia. destruct (decide (i < lo)).
  - rewrite !(Z.testbit_neg_r _ (i - lo)) by lia. apply andb_false_r.
  - rewrite mod_pow2_testbit, ones_testbit, Z.div_pow2_bits by lia.
    replace (i - lo + lo) with i by lia. apply andb_comm.
Qed.

(** Reversing the octets of a word. *)
Lemma lwip_htonl_rev n : is_u32 n → lwip_htonl n = le_word (rev (le_bytes 4 n)).
Proof.
  intros Hn. unfold lwip_htonl.
  rewrite (land_high n 8 0 0xff), (land_high n 8 8 0xff00), (land_high n 8 16 0xff0000),
    (land_high n 8 24 0xff000000) by done.
  rewrite Z.shiftl_0_r, !Z.shiftl_shiftl, !Z.shiftr_shiftl_l by lia.
  set (a := _ mod 2 ^ 8). set (b := _ mod 2 ^ 8). set (c := _ mod 2 ^ 8). set (d := _ mod 2 ^ 8).
  assert (is_u8 a ∧ is_u8 b ∧ is_u8 c ∧ is_u8 d) as (Ha & Hb & Hc & Hd).
  { subst a b c d. unfold is_u8. repeat split; apply Z.mod_pos_bound; lia. }
  change (8 + 8) with 16. change (24 - 24) with 0. change (16 - 8) with 8. rewrite Z.shiftl_0_r.
  replace (Z.lor _ d) with (Z.lor (Z.lor (Z.lor d (Z.shiftl c 8)) (Z.shiftl b 16)) (Z.shiftl a 24)).
  2:{ rewrite (Z.lor_comm _ d), (Z.lor_comm (Z.lor (Z.shiftl a 24) _)), (Z.lor_comm (Z.shiftl a 24)).
      by rewrite !Z.lor_assoc. }
  rewrite le_word4_lor, u32_small by auto using le_word4_u32. subst a b c d.
  simpl rev. rewrite Z.pow_0_r, Z.div_1_r. unfold u8. rewrite !Z.div_div by lia. done.
Qed.

Lemma htonl_bytes a b c d :
  is_u8 a → is_u8 b → is_u8 c → is_u8 d → lwip_htonl (le_word [a; b; c; d]) = le_word [d; c; b; a].
Proof.
  intros. rewrite lwip_htonl_rev by by apply le_word4_u32.
  assert (le_bytes 4 (le_word [a; b; c; d]) = [a; b; c; d]) as ->; [|done].
  apply (le_bytes_word [a; b; c; d]). unfold bytes_ok. rewrite !Forall_cons. auto using Forall_nil_2.
Qed.

Lemma lwip_htonl_invol n : is_u32 n → lwip_htonl (lwip_htonl n) = n.
Proof.
  intros Hn. rewrite (lwip_htonl_rev n Hn).
  change (rev (le_bytes 4 n)) with [(le_bytes 4 n).[3]; (le_bytes 4 n).[2]; (le_bytes 4 n).[1]; (le_bytes 4 n).[0]].
  rewrite htonl_bytes by auto with cint.
  change (le_word (le_bytes 4 n) = n). rewrite le_word_bytes. by apply Z.mod_small.
Qed.

(** ** The text of an octet *)

Definition octet_text (a : Z) : list Z := reverse (inv_digits 3 a).

(** What is needed of it, for each of the 256 values. *)
Definition octet_text_facts (a : Z) : Prop :=
  Forall (λ c, isdigit c = true) (octet_text a) ∧
  fold_left (λ v c, u32 (v * 10 + (c - char "0"))) (octet_text a) 0 = a ∧
  (1 ≤ length (octet_text a) ≤ 3)%nat ∧
  (octet_text a = [char "0"] ∧ a = 0 ∨ head (octet_text a) ≠ Some (char "0")).

Lemma octet_text_ok a : is_u8 a → octet_text_facts a.
Proof. apply (all_octets octet_text_facts). by vm_compute. Qed.

Lemma collect_digits base v l rest :
  Forall (λ c, isdigit c = true) l →
  collect base v (l ++ rest)
  = collect base (fold_left (λ v c, u32 (v * base + (c - char "0"))) l v) rest.
Proof.
  intros Hl. revert v. induction Hl as [|c l Hc _ IH]; intros v; [done|].
  simpl. rewrite Hc. apply IH.
Qed.

(** A number ends at a dot or at the end of the text. *)
Definition stops (rest : list Z) : Prop := rest = [] ∨ ∃ r, rest = char "." :: r.

Lemma collect_stops base v rest : stops rest → collect base v rest = (v, rest).
Proof. intros [->|[r ->]]; [done|]. simpl. by rewrite andb_false_r. Qed.

Lemma aton_number fuel parts a rest :
  is_u8 a → stops rest →
  aton_loop (S fuel) parts (octet_text a ++ rest) =
  if at_cp rest =? char "." then
    if (3 <=? length parts)%nat then None else aton_loop fuel (parts ++ [a]) (tail rest)
  else Some (parts, a, rest).
Proof.
  intros Ha Hrest. destruct (octet_text_ok a Ha) as (Hdig & Hval & Hlen & Hhead).
  destruct Hhead as [[Ht ->]|Hhead].
  { rewrite Ht. by destruct Hrest as [->|[r ->]]. }
  destruct (octet_text a) as [|c l] eqn:E; [simpl in Hlen; lia|]. cbn [aton_loop].
  change (at_cp ((c :: l) ++ rest)) with c.
  assert (isdigit c = true) as -> by by inversion Hdig.
  destruct (Z.eqb_spec c (char "0")) as [->|_]; [done|]. cbv iota. simpl negb. cbv iota.
  rewrite collect_digits, Hval, collect_stops by done. done.
Qed.

(** ** Round trip *)

Lemma put_chars_fits buflen cs rp len :
  len + Z.of_nat (length cs) ≤ buflen →
  put_chars buflen cs (rp, len) = Some (rp ++ cs, len + Z.of_nat (length cs)).
Proof.
  revert rp len. induction cs as [|c cs IH]; intros rp len Hfit; simpl in *.
  { by rewrite app_nil_r, Z.add_0_r. }
  destruct (buflen <=? len) eqn:E; [lia|]. rewrite IH, <-app_assoc by lia. do 2 f_equal. lia.
Qed.

Definition dotted (a b c d : Z) : list Z :=
  octet_text a ++ char "." :: octet_text b ++ char "." :: octet_text c ++ char "." :: octet_text d.

Lemma ntoa_text a b c d :
  is_u8 a → is_u8 b → is_u8 c → is_u8 d →
  ntoa_octets 16 [a; b; c; d] ([], 0) =
    Some (dotted a b c d ++ [char "."], Z.of_nat (length (dotted a b c d)) + 1) ∧
  Z.of_nat (length (dotted a b c d)) ≤ 15.
Proof.
  intros Ha Hb Hc Hd.
  destruct (octet_text_ok a Ha) as (_ & _ & La & _). destruct (octet_text_ok b Hb) as (_ & _ & Lb & _).
  destruct (octet_text_ok c Hc) as (_ & _ & Lc & _). destruct (octet_text_ok d Hd) as (_ & _ & Ld & _).
  assert (Z.of_nat (length (dotted a b c d)) = Z.of_nat (length (octet_text a)) +
    Z.of_nat (length (octet_text b)) + Z.of_nat (length (octet_text c)) +
    Z.of_nat (length (octet_text d)) + 3) as Hlen.
  { unfold dotted. rewrite !length_app. simpl length. rewrite !length_app. simpl length.
    rewrite !length_app. simpl length. lia. }
  split; [|lia]. cbn [ntoa_octets]. fold (octet_text a) (octet_text b) (octet_text c) (octet_text d).
  do 4 (rewrite put_chars_fits by (rewrite ?length_app; simpl length; lia); cbn [mbind option_bind]).
  f_equal. f_equal.
  - unfold dotted. simpl app at 1. rewrite <-!app_assoc. simpl. rewrite <-!app_assoc. simpl.
    rewrite <-!app_assoc. done.
  - rewrite !length_app. simpl length. lia.
Qed.

Lemma aton_dotted a b c d :
  is_u8 a → is_u8 b → is_u8 c → is_u8 d →
  ipaddr_aton (dotted a b c d) = Some (le_word [a; b; c; d]).
Proof.
  intros Ha Hb Hc Hd. unfold ipaddr_aton, dotted.
  assert (∀ r, stops (char "." :: r)) as Hs by (intros r; right; by exists r).
  rewrite (aton_number 3 [] a) by done. simpl (at_cp _ =? _). cbv iota. simpl (3 <=? _)%nat. cbv iota.
  simpl tail. rewrite (aton_number 2 _ b) by done. simpl (at_cp _ =? _). cbv iota.
  simpl (3 <=? _)%nat. cbv iota. simpl tail. rewrite (aton_number 1 _ c) by done.
  simpl (at_cp _ =? _). cbv iota. simpl (3 <=? _)%nat. cbv iota. simpl tail.
  rewrite <-(app_nil_r (octet_text d)), (aton_number 0 _ d) by (done || by left).
  simpl. destruct (d >? 255) eqn:E; [unfold is_u8 in Hd; lia|]. f_equal.
  replace (Z.lor d _) with (Z.lor (Z.lor (Z.lor d (Z.shiftl c 8)) (Z.shiftl b 16)) (Z.shiftl a 24)).
  2:{ rewrite <-!Z.lor_assoc. f_equal. unfold octet. simpl.
      rewrite (Z.lor_comm (Z.shiftl c 8)), <-!Z.lor_assoc.
      rewrite (Z.lor_comm (Z.shiftl b 16)), <-!Z.lor_assoc. f_equal. apply Z.lor_comm. }
  rewrite le_word4_lor, u32_small by auto using le_word4_u32. by apply htonl_bytes.
Qed.

(** Addresses survive printing and parsing.  Every 32-bit address has a
    text in a 16-character buffer, and parsing that text yields the address
    again. *)
Theorem ipaddr_round_trip addr :
  is_u32 addr → ∃ text, ipaddr_ntoa addr = Some text ∧ (length text ≤ 15)%nat ∧
    ipaddr_aton text = Some addr.
Proof.
  intros Ha. pose proof (le_bytes_ok 4 addr) as Hok. set (l := le_bytes 4 addr) in Hok.
  assert (l = [l.[0]; l.[1]; l.[2]; l.[3]]) as El by done.
  destruct (ntoa_text l.[0] l.[1] l.[2] l.[3]) as [Hn Hlen]; [auto with cint..|].
  exists (dotted l.[0] l.[1] l.[2] l.[3]). split.
  - unfold ipaddr_ntoa, ipaddr_ntoa_r. fold l. rewrite El, Hn. simpl. f_equal. apply removelast_last.
  - split; [lia|]. rewrite aton_dotted, <-El by auto with cint. subst l. f_equal.
    rewrite le_word_bytes. by apply Z.mod_small.
Qed.

Lemma ipaddr_round_trip_witness :
  ∃ text, ipaddr_ntoa 0x0801A8C0 = Some text ∧ (length text ≤ 15)%nat ∧
    ipaddr_aton text = Some 0x0801A8C0.
Proof. apply (ipaddr_round_trip 0x0801A8C0). by_decision. Defined.

Example aton_server : ipaddr_aton (str "192.168.1.8") = Some 0x0801A8C0.
Proof. by vm_compute. Qed.

(** ** Network masks *)

Lemma bit_test x b : 0 ≤ b → (Z.land x (Z.shiftl 1 b) =? 0) = negb (Z.testbit x b).
Proof.
  intros Hb. rewrite Z.shiftl_1_l. destruct (Z.testbit x b) eqn:E; simpl.
  - apply Z.eqb_neq. intros E0. apply (f_equal (λ y, Z.testbit y b)) in E0.
    rewrite Z.land_spec, E, Z.pow2_bits_true, Z.bits_0 in E0 by lia. done.
  - apply Z.eqb_eq. apply Z.bits_inj'. intros i Hi. rewrite Z.land_spec, Z.bits_0, Z.pow2_bits_eqb by lia.
    destruct (Z.eqb_spec b i) as [<-|]; [by rewrite E|apply andb_false_r].
Qed.

Lemma no_ones_below_spec n x :
  no_ones_below n x = true ↔ ∀ i, 0 ≤ i < Z.of_nat n → Z.testbit x i = false.
Proof.
  induction n as [|n IH]; simpl no_ones_below; [split; [lia|done]|].
  rewrite bit_test, negb_involutive by lia. destruct (Z.testbit x (Z.of_nat n)) eqn:E.
  - split; [done|]. intros Hall. rewrite Hall in E by lia. done.
  - rewrite IH. split; [|intros Hall i Hi; apply Hall; lia]. intros Hall i Hi.
    destruct (decide (i = Z.of_nat n)) as [->|]; [done|]. apply Hall. lia.
Qed.

Lemma first_zero_spec n x :
  (first_zero n x ≤ n)%nat ∧
  (∀ i, Z.of_nat (first_zero n x) ≤ i < Z.of_nat n → Z.testbit x i = true) ∧
  (∀ m, first_zero n x = S m → Z.testbit x (Z.of_nat m) = false).
Proof.
  induction n as [|n IH]; simpl first_zero; [repeat split; [lia|lia|done]|].
  rewrite bit_test by lia. destruct (Z.testbit x (Z.of_nat n)) eqn:E; simpl.
  - destruct IH as (H1 & H2 & H3). split; [lia|]. split; [|done]. intros i Hi.
    destruct (decide (i = Z.of_nat n)) as [->|]; [done|]. apply H2. lia.
  - split; [lia|]. split; [lia|]. by intros m [= ->].
Qed.

(** The mask of [32 - m] leading ones. *)
Lemma mask_testbit m i :
  0 ≤ m ≤ 32 → 0 ≤ i → Z.testbit (2 ^ 32 - 2 ^ m) i = bool_decide (m ≤ i < 32).
Proof.
  intros Hm Hi. replace (2 ^ 32 - 2 ^ m) with (Z.shiftl (Z.ones (32 - m)) m).
  - rewrite Z.shiftl_spec by lia. destruct (decide (i < m)).
    + rewrite Z.testbit_neg_r by lia. by rewrite bool_decide_eq_false_2 by lia.
    + rewrite ones_testbit by lia. apply bool_decide_ext. lia.
  - rewrite Z.shiftl_mul_pow2, Z.ones_equiv by lia.
    replace 32 with ((32 - m) + m) at 2 by lia. rewrite Z.pow_add_r by lia. lia.
Qed.

(** A network mask is accepted exactly when, in host order, it is some
    number of ones followed only by zeros. *)
Theorem netmask_valid_iff netmask :
  ip4_addr_netmask_valid netmask = 1 ↔
  ∃ m, 0 ≤ m ≤ 32 ∧ lwip_htonl netmask = 2 ^ 32 - 2 ^ m.
Proof.
  unfold ip4_addr_netmask_valid. set (x := lwip_htonl netmask).
  assert (is_u32 x) as Hx by apply u32_range.
  destruct (first_zero_spec 32 x) as (H1 & H2 & H3).
  destruct (no_ones_below (first_zero 32 x) x) eqn:E.
  - split; [intros _|done]. pose proof (proj1 (no_ones_below_spec _ _) E) as H4.
    exists (Z.of_nat (first_zero 32 x)). split; [lia|]. apply Z.bits_inj'. intros i Hi.
    rewrite mask_testbit by lia. case_bool_decide; [apply H2; lia|].
    destruct (decide (i < 32)); [apply H4; lia|]. by apply (testbit_above 32); [apply Hx|lia].
  - split; [done|]. intros (m & Hm & Em). exfalso.
    assert (no_ones_below (first_zero 32 x) x = true); [|congruence].
    apply no_ones_below_spec. intros i Hi. rewrite Em, mask_testbit by lia.
    apply bool_decide_eq_false_2. intros Hmi. destruct (first_zero 32 x) as [|f]; [lia|].
    specialize (H3 f eq_refl). rewrite Em, mask_testbit in H3 by lia.
    apply bool_decide_eq_false_1 in H3. lia.
Qed.
