(* ===== verification/InetChksum.v ===== *)
(** * The Internet checksum ([src/lwip/core/ipv4/inet_chksum.c])

    The three versions of [lwip_standard_chksum] the file offers ([cc.h]
    selects the first), the functions on a single buffer, and the reference
    they implement: the one's complement sum of RFC 1071.  The octets a
    pointer refers to are a list; the second and third version also depend on
    whether the address is aligned.  The functions on chains of buffers are in
    [PbufChksum]. *)

From S2P Require Import Prelude HttpTx IpAddr.
From Stdlib Require Import ZArith Lia.
From stdpp Require Import base numbers list.
Open Scope Z_scope.

(** ** Macros ([inet_chksum.h]) *)

Definition SWAP_BYTES_IN_WORD (w : Z) : Z :=
  Z.lor (Z.shiftl (Z.land w 0xff) 8) (Z.shiftr (Z.land w 0xff00) 8).
Definition FOLD_U32T (u : Z) : Z := Z.shiftr u 16 + Z.land u 0x0000ffff.

(** ** Version 1: octet by octet *)

Fixpoint chksum1_loop (acc : Z) (octetptr : list Z) : Z :=
  match octetptr with
  | a :: b :: octetptr =>
     let src := u16 (Z.shiftl a 8) in
     let src := Z.lor src b in
     chksum1_loop (u32 (acc + src)) octetptr
  | [a] => u32 (acc + u16 (Z.shiftl a 8))
  | [] => acc
  end.

Definition lwip_standard_chksum (data : list Z) : Z :=
  let acc := chksum1_loop 0 data in
  let acc := u32 (Z.shiftr acc 16 + Z.land acc 0x0000ffff) in
  let acc := if negb (Z.land acc 0xffff0000 =? 0)
             then u32 (Z.shiftr acc 16 + Z.land acc 0x0000ffff) else acc in
  lwip_htons (u16 acc).

(** ** Version 2: two octets at a time *)

(** The loop over aligned half-words, with what it leaves. *)
Fixpoint half_words (sum : Z) (ps : list Z) : Z * list Z :=
  match ps with
  | a :: b :: ps => half_words (u32 (sum + le_word [a; b])) ps
  | _ => (sum, ps)
  end.

(** The half-word [t] that holds the octets at the two ends. *)
Definition end_octets (hi : Z) (ps : list Z) : Z :=
  le_word [match ps with b :: _ => b | [] => 0 end; hi].

(** Step over an octet at an odd address: its value and the rest. *)
Definition align_half (odd : bool) (pb : list Z) : Z * list Z :=
  match pb with
  | b :: pb' => if odd then (b, pb') else (0, pb)
  | [] => (0, [])
  end.

(** Add the end octets, fold, and undo the effect of an odd address. *)
Definition chksum_finish (odd : bool) (hi sum : Z) (ps : list Z) : Z :=
  let sum := u32 (sum + end_octets hi ps) in
  let sum := u32 (FOLD_U32T sum) in
  let sum := u32 (FOLD_U32T sum) in
  let sum := if odd then SWAP_BYTES_IN_WORD sum else sum in
  u16 sum.

Definition lwip_standard_chksum_v2 (dataptr : Z) (data : list Z) : Z :=
  let odd := negb (Z.land dataptr 1 =? 0) in
  let '(hi, pb) := align_half odd data in
  let '(sum, ps) := half_words 0 pb in
  chksum_finish odd hi sum ps.

(** ** Version 3: eight octets at a time *)

(** An addition that adds its carry back. *)
Definition add_carry (sum w : Z) : Z :=
  let tmp := u32 (sum + w) in
  if tmp <? sum then u32 (tmp + 1) else tmp.

Fixpoint double_words (sum : Z) (pl : list Z) : Z * list Z :=
  match pl with
  | a :: b :: c :: d :: e :: f :: g :: h :: pl =>
     let tmp := add_carry sum (le_word [a; b; c; d]) in
     double_words (add_carry tmp (le_word [e; f; g; h])) pl
  | _ => (sum, pl)
  end.

(** Step over a half-word that is not at a word boundary. *)
Definition align_word (ps_addr : Z) (ps : list Z) : Z * list Z :=
  match ps with
  | a :: b :: ps' =>
     if negb (Z.land ps_addr 3 =? 0) then (u32 (0 + le_word [a; b]), ps') else (0, ps)
  | _ => (0, ps)
  end.

Definition lwip_standard_chksum_v3 (dataptr : Z) (data : list Z) : Z :=
  let odd := negb (Z.land dataptr 1 =? 0) in
  let '(hi, ps) := align_half odd data in
  let ps_addr := dataptr + Z.of_nat (length data - length ps) in
  let '(sum, pl) := align_word ps_addr ps in
  let '(sum, ps) := double_words sum pl in
  let sum := u32 (FOLD_U32T sum) in
  let '(sum, ps) := half_words sum ps in
  chksum_finish odd hi sum ps.

(** ** One buffer *)

Definition inet_chksum (data : list Z) : Z := u16 (unot 16 (lwip_standard_chksum data)).

(** ** The reference (RFC 1071)

    Octets are paired to 16-bit words in network order, an odd last octet is
    padded with zero, and the words are added with end-around carry. *)

Fixpoint net_words (l : list Z) : list Z :=
  match l with
  | a :: b :: l => 2 ^ 8 * a + b :: net_words l
  | [a] => [2 ^ 8 * a]
  | [] => []
  end.
Definition oc_add (a b : Z) : Z :=
  if a + b <? 2 ^ 16 then a + b else a + b - 2 ^ 16 + 1.
Definition rfc1071_sum (l : list Z) : Z := fold_left oc_add (net_words l) 0.

(** ** One's complement numbers

    [oc x] is the 16-bit one's complement representation of a natural number:
    the residue modulo 65535, with 65535 itself for the multiples other than
    zero. *)

Definition oc (x : Z) : Z := if decide (x = 0) then 0 else (x - 1) mod 65535 + 1.

Lemma oc_u16 x : is_u16 (oc x).
Proof. unfold oc. case_decide; cint. Qed.
Lemma oc_0 : oc 0 = 0.
Proof. done. Qed.
#[export] Hint Resolve oc_u16 : cint.

(** What determines it. *)
Lemma oc_unique r x :
  0 ≤ x → is_u16 r → (∃ k, r = x + 65535 * k) → (r = 0 ↔ x = 0) → oc x = r.
Proof.
  intros Hx Hr [k Hk] Hz. unfold oc, is_u16 in *. case_decide; [lia|].
  assert (r ≠ 0) by lia.
  replace (x - 1) with (r - 1 + (-k) * 65535) by lia.
  rewrite Z.mod_add, Z.mod_small by lia. lia.
Qed.

Lemma oc_spec x : 0 ≤ x → ∃ k, oc x = x + 65535 * k.
Proof.
  intros Hx. unfold oc. case_decide as H; [exists 0; lia|].
  exists (- ((x - 1) / 65535)). Z.to_euclidean_division_equations; lia.
Qed.
Lemma oc_zero x : 0 ≤ x → oc x = 0 ↔ x = 0.
Proof. unfold oc. intros. case_decide; [done|]. split; cint. Qed.
Lemma oc_nonneg x : 0 ≤ oc x.
Proof. pose proof (oc_u16 x) as H. unfold is_u16 in H. lia. Qed.

Lemma oc_eq x y : 0 ≤ x → 0 ≤ y → (∃ k, x = y + 65535 * k) → (x = 0 ↔ y = 0) → oc x = oc y.
Proof.
  intros Hx Hy [k Hk] Hz. symmetry. destruct (oc_spec x Hx) as [j Hj].
  apply oc_unique; [done|apply oc_u16| |].
  - exists (k + j). lia.
  - rewrite oc_zero by done. tauto.
Qed.

Lemma oc_add_l x y : 0 ≤ x → 0 ≤ y → oc (oc x + y) = oc (x + y).
Proof.
  intros Hx Hy. pose proof (oc_nonneg x). destruct (oc_spec x Hx) as [k Hk].
  apply oc_eq; [lia|lia|exists k; lia|]. pose proof (oc_zero x Hx). lia.
Qed.
Lemma oc_mul c x : 0 < c → 0 ≤ x → oc (c * oc x) = oc (c * x).
Proof.
  intros Hc Hx. pose proof (oc_nonneg x). destruct (oc_spec x Hx) as [k Hk].
  apply oc_eq; [nia|nia|exists (c * k); nia|]. pose proof (oc_zero x Hx).
  rewrite !Z.mul_eq_0. lia.
Qed.
Lemma oc_mul_add c x y : 0 < c → 0 ≤ x → 0 ≤ y → oc (c * oc x + y) = oc (c * x + y).
Proof.
  intros Hc Hx Hy. pose proof (oc_nonneg x).
  rewrite <-oc_add_l, oc_mul, oc_add_l by (done || nia). done.
Qed.
Lemma oc_small x : is_u16 x → oc x = x.
Proof. intros H. apply oc_unique; [cint|done|exists 0; lia|done]. Qed.
Lemma oc_idem x : oc (oc x) = oc x.
Proof. apply oc_small, oc_u16. Qed.

(** Half-words of weight [2 ^ 16] count as if they had weight one. *)
Lemma oc_wrap x y : 0 ≤ x → 0 ≤ y → oc (x + 2 ^ 16 * y) = oc (x + y).
Proof. intros. apply oc_eq; [lia|lia|exists y; lia|lia]. Qed.

(** ** The building blocks in one's complement *)

Lemma FOLD_value u : 0 ≤ u → FOLD_U32T u = u / 2 ^ 16 + u mod 2 ^ 16.
Proof.
  intros. unfold FOLD_U32T. rewrite Z.shiftr_div_pow2 by lia.
  change 65535 with (Z.ones 16). by rewrite Z.land_ones by lia.
Qed.
Lemma FOLD_oc u : 0 ≤ u → oc (FOLD_U32T u) = oc u.
Proof.
  intros Hu. rewrite FOLD_value by done. pose proof (Z.div_mod u (2 ^ 16)).
  rewrite (Z.add_comm (u / _)), <-(oc_wrap (u mod 2 ^ 16)) by (Z.to_euclidean_division_equations; lia).
  f_equal. lia.
Qed.

(** Folding a 32-bit sum twice normalises it. *)
Lemma FOLD_twice u : is_u32 u → u32 (FOLD_U32T (u32 (FOLD_U32T u))) = oc u.
Proof.
  intros Hu. assert (0 ≤ u) by cint.
  assert (0 ≤ FOLD_U32T u ≤ 131070) as Hf by (rewrite FOLD_value by done; cint).
  rewrite (u32_small (FOLD_U32T u)) by cint.
  assert (is_u16 (FOLD_U32T (FOLD_U32T u))) as Hff by (rewrite (FOLD_value (FOLD_U32T u)) by lia; cint).
  rewrite u32_small by cint. rewrite <-(oc_small _ Hff), !FOLD_oc by lia. done.
Qed.

Lemma SWAP_value w : is_u16 w → SWAP_BYTES_IN_WORD w = 2 ^ 8 * (w mod 2 ^ 8) + w / 2 ^ 8.
Proof.
  intros Hw. unfold SWAP_BYTES_IN_WORD. change 255 with (Z.ones 8). rewrite Z.land_ones by lia.
  replace (Z.shiftr (Z.land w 65280) 8) with (w / 2 ^ 8).
  2:{ rewrite Z.shiftr_land. change (Z.shiftr 65280 8) with (Z.ones 8).
      rewrite Z.land_ones, Z.shiftr_div_pow2 by lia. symmetry. apply Z.mod_small. cint. }
  rewrite Z.lor_comm, lor_add_disjoint by cint. lia.
Qed.
Lemma SWAP_u16 w : is_u16 w → is_u16 (SWAP_BYTES_IN_WORD w).
Proof. intros. rewrite SWAP_value by done. cint. Qed.

(** Exchanging the octets multiplies by [2 ^ 8]. *)
Lemma SWAP_oc x : 0 ≤ x → SWAP_BYTES_IN_WORD (oc x) = oc (2 ^ 8 * x).
Proof.
  intros Hx. pose proof (oc_u16 x) as Hr. rewrite <-oc_mul by lia.
  symmetry. apply oc_unique; [cint|by apply SWAP_u16| |]; rewrite SWAP_value by done.
  - exists (- (oc x / 2 ^ 8)). Z.to_euclidean_division_equations; lia.
  - cint.
Qed.
Lemma htons_swap n : is_u16 n → lwip_htons n = SWAP_BYTES_IN_WORD n.
Proof. intros H. apply u16_small. by apply SWAP_u16. Qed.
Lemma oc_swap_twice x : 0 ≤ x → oc (2 ^ 8 * (2 ^ 8 * x)) = oc x.
Proof. intros. replace (2 ^ 8 * (2 ^ 8 * x)) with (0 + 2 ^ 16 * x) by lia. by rewrite oc_wrap by lia. Qed.

Lemma add_carry_oc s w :
  is_u32 s → is_u32 w → is_u32 (add_carry s w) ∧ oc (add_carry s w) = oc (s + w).
Proof.
  intros Hs Hw. unfold add_carry. destruct (Z.ltb_spec (u32 (s + w)) s) as [H|H].
  - assert (u32 (s + w) = s + w - 2 ^ 32) as E by cint. rewrite E. split; [cint|].
    rewrite u32_small by cint. apply oc_eq; [cint|cint|exists (- 65537); lia|cint].
  - assert (u32 (s + w) = s + w) as E by cint. rewrite E. split; [cint|done].
Qed.

(** ** The loops

    The sum of a list of octets is its little-endian value, because the
    weight of every second octet is one. *)

Lemma le_word_nonneg l : bytes_ok l → 0 ≤ le_word l.
Proof. intros H. pose proof (le_word_bound l H). lia. Qed.

(** Induction two elements at a time. *)
Lemma list_ind2 {A} (P : list A → Prop) :
  P [] → (∀ a, P [a]) → (∀ a b l, P l → P (a :: b :: l)) → ∀ l, P l.
Proof.
  intros H0 H1 H2 l. cut (P l ∧ ∀ a, P (a :: l)); [tauto|].
  induction l as [|b l [IH IH']]; auto.
Qed.

Lemma le_word_cons a l : le_word (a :: l) = a + 2 ^ 8 * le_word l.
Proof. done. Qed.

Lemma le_word_app l k : le_word (l ++ k) = le_word l + 2 ^ (8 * Z.of_nat (length l)) * le_word k.
Proof.
  induction l as [|a l IH]; [simpl; lia|]. simpl app. rewrite !le_word_cons, IH. simpl length.
  replace (8 * Z.of_nat (S (length l))) with (8 + 8 * Z.of_nat (length l)) by lia.
  rewrite Z.pow_add_r by lia. lia.
Qed.

(** What a loop leaves of its data: [s'] and the rest [tl] stand for [s] and
    all of [l]. *)
Definition summed (s : Z) (l : list Z) (s' : Z) (tl : list Z) : Prop :=
  is_u32 s' ∧ bytes_ok tl ∧ ∀ c, 0 ≤ c → oc (s' + c + le_word tl) = oc (s + c + le_word l).

Lemma summed_step s w l s1 s' tl :
  is_u32 s1 → 0 ≤ s → 0 ≤ w → bytes_ok l → oc s1 = oc (s + w) → summed s1 l s' tl →
  ∀ c, 0 ≤ c → oc (s' + c + le_word tl) = oc (s + c + (w + 2 ^ 16 * le_word l)).
Proof.
  intros Hs1 Hs Hw Hl E (_ & _ & H) c Hc. pose proof (le_word_nonneg l Hl).
  rewrite H, <-Z.add_assoc, <-oc_add_l, E, oc_add_l by (cint || lia).
  replace (s + c + (w + 2 ^ 16 * le_word l)) with (s + w + c + 2 ^ 16 * le_word l) by lia.
  rewrite oc_wrap by lia. f_equal. lia.
Qed.

Lemma half_words_spec sum ps :
  bytes_ok ps → 0 ≤ sum → 2 * sum + 65535 * Z.of_nat (length ps) < 2 ^ 33 →
  let '(s', tl) := half_words sum ps in
  summed sum ps s' tl ∧ (length tl ≤ 1)%nat ∧
  2 * s' + 65535 * Z.of_nat (length tl) ≤ 2 * sum + 65535 * Z.of_nat (length ps).
Proof.
  revert sum. induction ps as [|a|a b ps IH] using list_ind2; intros sum Hok Hs Hlen.
  - simpl in *. split; [|lia]. split; [cint|done].
  - simpl in *. split; [|lia]. split; [cint|done].
  - cbn [half_words]. forall_inv. simpl length in Hlen.
    assert (is_u16 (le_word [a; b])) as Hw by (simpl; cint).
    assert (is_u32 (sum + le_word [a; b])) as Hu by (unfold is_u16, is_u32 in *; lia).
    rewrite u32_small by done. specialize (IH (sum + le_word [a; b])).
    destruct (half_words (sum + le_word [a; b]) ps) as [s' tl].
    destruct IH as (Hsum & Htl & Hb); [done|cint|unfold is_u16 in *; lia|].
    split; [|simpl length; unfold is_u16 in *; lia].
    split; [apply Hsum|]. split; [apply Hsum|]. intros c Hc.
    rewrite (summed_step sum (le_word [a; b]) ps _ _ _ Hu) by (done || cint || apply Hsum).
    f_equal. simpl le_word. lia.
Qed.

Lemma double_words_spec sum pl :
  bytes_ok pl → is_u32 sum →
  let '(s', tl) := double_words sum pl in
  summed sum pl s' tl ∧ (length tl < 8)%nat.
Proof.
  remember (length pl) as n eqn:Hn. revert sum pl Hn.
  induction (lt_wf n) as [n _ IH]. intros sum pl Hn Hok Hs.
  do 8 (destruct pl as [|? pl]; [simpl; split; [split; [done|split; done]|simpl; lia]|]).
  cbn [double_words]. forall_inv. simpl in Hn.
  set (w := le_word [z; z0; z1; z2]). set (w' := le_word [z3; z4; z5; z6]).
  assert (is_u32 w) as Hw by (apply le_word4_u32; done).
  assert (is_u32 w') as Hw' by (apply le_word4_u32; done).
  destruct (add_carry_oc sum w) as [Hc1 E1]; [done|done|].
  destruct (add_carry_oc (add_carry sum w) w') as [Hc2 E2]; [done|done|].
  specialize (IH (length pl) ltac:(lia) (add_carry (add_carry sum w) w') pl eq_refl Hok Hc2).
  destruct (double_words _ pl) as [s' tl]. destruct IH as [IH Hl]. split; [|done].
  split; [apply IH|]. split; [apply IH|]. intros c Hc.
  rewrite (summed_step sum (w + w') pl _ _ _ Hc2); [|cint|cint|done| |done|done].
  - pose proof (le_word_nonneg pl Hok).
    replace (sum + c + le_word _) with (sum + c + w + 2 ^ 32 * w' + 2 ^ 64 * le_word pl)
      by (unfold w, w'; simpl le_word; lia).
    apply oc_eq; [cint|cint| |cint].
    exists (- (w' * 65537 + le_word pl * (2 ^ 16 * (2 ^ 32 + 2 ^ 16 + 1)))). lia.
  - rewrite E2, <-oc_add_l, E1, oc_add_l by cint. f_equal. lia.
Qed.

Lemma chksum1_loop_spec acc l :
  bytes_ok l → 0 ≤ acc → 2 * acc + 65535 * (Z.of_nat (length l) + 1) < 2 ^ 33 →
  is_u32 (chksum1_loop acc l) ∧
  oc (2 ^ 8 * chksum1_loop acc l) = oc (2 ^ 8 * acc + le_word l).
Proof.
  revert acc. induction l as [|a|a b l IH] using list_ind2; intros acc Hok Hacc Hlen;
    cbn [chksum1_loop]; simpl length in Hlen; forall_inv.
  - simpl. split; [cint|f_equal; lia].
  - rewrite Z.shiftl_mul_pow2, (u16_small (a * 2 ^ 8)), u32_small by (cint || lia).
    split; [cint|]. simpl le_word.
    replace (2 ^ 8 * (acc + a * 2 ^ 8)) with (2 ^ 8 * acc + 2 ^ 16 * a) by lia.
    rewrite oc_wrap by cint. f_equal. lia.
  - rewrite Z.shiftl_mul_pow2, (u16_small (a * 2 ^ 8)) by (cint || lia).
    rewrite <-Z.shiftl_mul_pow2, Z.lor_comm, lor_add_disjoint by (cint || lia).
    rewrite u32_small by cint.
    destruct (IH (acc + (b + 2 ^ 8 * a))) as [Hr E]; [done|cint|cint|]. split; [done|]. rewrite E.
    pose proof (le_word_nonneg l Hok). simpl le_word.
    replace (2 ^ 8 * acc + (a + 2 ^ 8 * (b + 2 ^ 8 * le_word l)))
      with (2 ^ 8 * acc + a + 2 ^ 8 * b + 2 ^ 16 * le_word l) by lia.
    replace (2 ^ 8 * (acc + (b + 2 ^ 8 * a)) + le_word l)
      with (2 ^ 8 * acc + 2 ^ 8 * b + le_word l + 2 ^ 16 * a) by lia.
    rewrite !oc_wrap by cint. f_equal. lia.
Qed.

(** The conditional second fold of version 1. *)
Lemma fold_if_needed f :
  0 ≤ f ≤ 131070 →
  (if negb (Z.land f 0xffff0000 =? 0) then u32 (FOLD_U32T f) else f) = u32 (FOLD_U32T f).
Proof.
  intros Hf. destruct (Z.eqb_spec (Z.land f 0xffff0000) 0) as [E|]; [|done]. simpl.
  rewrite FOLD_value by lia. destruct (decide (f < 2 ^ 16)); [cint|].
  exfalso. assert (Z.testbit (Z.land f 0xffff0000) 16 = false) as Hb by (rewrite E; apply Z.bits_0).
  rewrite Z.land_spec in Hb. change (Z.testbit 0xffff0000 16) with true in Hb.
  rewrite andb_true_r in Hb. rewrite Z.testbit_false in Hb by lia. cint.
Qed.

(** ** The sum of a buffer *)

Lemma lwip_standard_chksum_oc data :
  bytes_ok data → Z.of_nat (length data) < 2 ^ 16 →
  lwip_standard_chksum data = oc (le_word data).
Proof.
  intros Hok Hlen. unfold lwip_standard_chksum.
  destruct (chksum1_loop_spec 0 data Hok) as [Hr E]; [lia|lia|].
  set (r := chksum1_loop 0 data) in *. change (Z.shiftr r 16 + Z.land r 65535) with (FOLD_U32T r).
  assert (0 ≤ FOLD_U32T r ≤ 131070) as Hf by (rewrite FOLD_value by cint; cint).
  rewrite (u32_small (FOLD_U32T r)) by cint.
  change (Z.shiftr (FOLD_U32T r) 16 + Z.land (FOLD_U32T r) 65535) with (FOLD_U32T (FOLD_U32T r)).
  rewrite fold_if_needed by done.
  rewrite <-(u32_small (FOLD_U32T r)) by cint. rewrite FOLD_twice by done.
  rewrite u16_small, htons_swap, SWAP_oc by (auto with cint; cint). by rewrite E.
Qed.

Lemma summed_refl s l : is_u32 s → bytes_ok l → summed s l s l.
Proof. intros. split; [done|]. by split. Qed.
Lemma summed_trans s l s1 l1 s2 l2 : summed s l s1 l1 → summed s1 l1 s2 l2 → summed s l s2 l2.
Proof.
  intros (_ & _ & H1) (Hs & Hl & H2). split; [done|]. split; [done|].
  intros c Hc. by rewrite H2, H1.
Qed.
Lemma summed_fold s l s1 l1 : summed s l s1 l1 → summed s l (u32 (FOLD_U32T s1)) l1.
Proof.
  intros (Hs & Hl & H). assert (0 ≤ FOLD_U32T s1 ≤ 131070) as Hf by (rewrite FOLD_value by cint; cint).
  rewrite u32_small by cint. split; [cint|]. split; [done|]. intros c Hc.
  pose proof (le_word_nonneg _ Hl). rewrite <-H by done.
  rewrite <-!Z.add_assoc, <-oc_add_l, FOLD_oc, oc_add_l by cint. done.
Qed.

Lemma end_octets_value hi tl : (length tl ≤ 1)%nat → end_octets hi tl = 2 ^ 8 * hi + le_word tl.
Proof.
  intros H. destruct tl as [|a [|b tl]]; [| |simpl in H; lia]; unfold end_octets; cbn [le_word]; lia.
Qed.

Lemma align_half_spec odd data :
  bytes_ok data →
  let '(hi, pb) := align_half odd data in
  is_u8 hi ∧ bytes_ok pb ∧ (length pb ≤ length data)%nat ∧
  oc (le_word data) = oc (if odd then 2 ^ 8 * (2 ^ 8 * hi + le_word pb) else 2 ^ 8 * hi + le_word pb).
Proof.
  intros Hok. destruct data as [|b pb]; cbn [align_half].
  { split; [by cbv|]. split; [done|]. split; [done|]. by destruct odd. }
  forall_inv. pose proof (le_word_nonneg pb Hok). destruct odd.
  - split; [done|]. split; [done|]. split; [simpl; lia|]. simpl le_word.
    replace (2 ^ 8 * (2 ^ 8 * b + le_word pb)) with (2 ^ 8 * le_word pb + 2 ^ 16 * b) by lia.
    rewrite oc_wrap by cint. f_equal. lia.
  - split; [by cbv|]. split; [by constructor|]. split; [done|]. done.
Qed.

Lemma chksum_finish_oc odd hi ps s tl :
  is_u8 hi → bytes_ok ps → summed 0 ps s tl → (length tl ≤ 1)%nat →
  s + end_octets hi tl < 2 ^ 32 →
  chksum_finish odd hi s tl
  = oc (if odd then 2 ^ 8 * (2 ^ 8 * hi + le_word ps) else 2 ^ 8 * hi + le_word ps).
Proof.
  intros Hhi Hps (Hs & Htl & H) Hlen Hb. unfold chksum_finish.
  pose proof (le_word_nonneg _ Htl). pose proof (le_word_nonneg _ Hps).
  rewrite end_octets_value in Hb |- * by done.
  rewrite (u32_small (s + _)), FOLD_twice by cint.
  rewrite Z.add_assoc, H by cint. rewrite Z.add_0_l. destruct odd.
  - rewrite SWAP_oc by cint. apply u16_small, oc_u16.
  - apply u16_small, oc_u16.
Qed.

Lemma lwip_standard_chksum_v2_oc dataptr data :
  bytes_ok data → Z.of_nat (length data) ≤ 0x20000 →
  lwip_standard_chksum_v2 dataptr data = oc (le_word data).
Proof.
  intros Hok Hlen. unfold lwip_standard_chksum_v2. set (odd := negb _). clearbody odd.
  pose proof (align_half_spec odd data Hok) as Ha.
  destruct (align_half odd data) as [hi pb] eqn:Ea. destruct Ha as (Hhi & Hpb & Hl & E).
  pose proof (half_words_spec 0 pb Hpb ltac:(lia)) as Hw.
  destruct (half_words 0 pb) as [s tl]. destruct Hw as (Hs & Htl & Hb); [lia|].
  rewrite E. apply chksum_finish_oc; try done.
  rewrite end_octets_value by done. destruct Hs as (Hs & Hok' & _).
  pose proof (le_word_bound tl Hok').
  assert (hi = 0 ∨ (length pb < length data)%nat) as Hhi'.
  { destruct data as [|b d]; simpl in Ea; [by injection Ea as <- <-; left|].
    destruct odd; injection Ea as <- <-; [right; simpl; lia|by left]. }
  destruct tl as [|x [|y tl]]; simpl length in *; [simpl le_word| |lia]; cint.
Qed.

Lemma align_word_spec addr ps :
  bytes_ok ps → let '(s, pl) := align_word addr ps in summed 0 ps s pl.
Proof.
  intros Hok. destruct ps as [|a [|b ps]]; cbn [align_word]; [by apply summed_refl|by apply summed_refl|].
  destruct (negb _); [|by apply summed_refl].
  forall_inv. assert (is_u16 (le_word [a; b])) by (simpl; cint). rewrite u32_small by cint.
  split; [cint|]. split; [done|]. intros c Hc. pose proof (le_word_nonneg _ Hok).
  replace (le_word (a :: b :: ps)) with (le_word [a; b] + 2 ^ 16 * le_word ps) by (simpl; lia).
  rewrite Z.add_assoc, oc_wrap by cint. f_equal. lia.
Qed.

Lemma lwip_standard_chksum_v3_oc dataptr data :
  bytes_ok data → lwip_standard_chksum_v3 dataptr data = oc (le_word data).
Proof.
  intros Hok. unfold lwip_standard_chksum_v3. set (odd := negb _). clearbody odd.
  pose proof (align_half_spec odd data Hok) as Ha.
  destruct (align_half odd data) as [hi ps]. destruct Ha as (Hhi & Hps & Hl & E). rewrite E.
  set (addr := dataptr + _). clearbody addr. pose proof (align_word_spec addr ps Hps) as Hw.
  destruct (align_word addr ps) as [s0 pl].
  pose proof (double_words_spec s0 pl (proj1 (proj2 Hw)) (proj1 Hw)) as Hd.
  destruct (double_words s0 pl) as [s1 l1]. destruct Hd as [Hd Hl1].
  assert (summed 0 ps (u32 (FOLD_U32T s1)) l1) as H1 by (eapply summed_fold, summed_trans; done).
  assert (0 ≤ u32 (FOLD_U32T s1) ≤ 131070) as Hf.
  { pose proof (proj1 Hd). rewrite FOLD_value by cint. cint. }
  pose proof (half_words_spec (u32 (FOLD_U32T s1)) l1 (proj1 (proj2 H1)) (proj1 Hf) ltac:(lia)) as H2.
  destruct (half_words _ l1) as [s2 tl]. destruct H2 as (H2 & Htl & Hb).
  apply chksum_finish_oc; [done|done|by eapply summed_trans|done|].
  rewrite end_octets_value by done. destruct H2 as (_ & Hok' & _).
  pose proof (le_word_bound tl Hok').
  destruct tl as [|x [|y tl]]; simpl length in *; [simpl le_word| |lia]; cint.
Qed.

(** ** The reference in the same terms *)

Lemma oc_add_oc a b : is_u16 a → is_u16 b → oc_add a b = oc (a + b).
Proof.
  intros Ha Hb. unfold oc_add. symmetry. destruct (Z.ltb_spec (a + b) (2 ^ 16)).
  - apply oc_small. cint.
  - apply oc_unique; [cint|cint|exists (-1); lia|cint].
Qed.

Lemma rfc1071_sum_oc l :
  bytes_ok l → is_u16 (rfc1071_sum l) ∧ oc (2 ^ 8 * rfc1071_sum l) = oc (le_word l).
Proof.
  intros Hok. cut (∀ acc, is_u16 acc → is_u16 (fold_left oc_add (net_words l) acc) ∧
    oc (2 ^ 8 * fold_left oc_add (net_words l) acc) = oc (2 ^ 8 * acc + le_word l)).
  { intros H. apply (H 0). by cbv. }
  induction l as [|a|a b l IH] using list_ind2; intros acc Hacc; cbn [net_words fold_left]; forall_inv.
  - split; [done|f_equal; simpl; lia].
  - rewrite oc_add_oc by (done || cint). split; [apply oc_u16|]. rewrite oc_mul by cint.
    replace (2 ^ 8 * (acc + 2 ^ 8 * a)) with (2 ^ 8 * acc + 2 ^ 16 * a) by lia.
    rewrite oc_wrap by cint. f_equal. simpl. lia.
  - pose proof (le_word_nonneg l Hok). rewrite oc_add_oc by (done || cint).
    destruct (IH Hok (oc (acc + (2 ^ 8 * a + b)))) as [Hu E]; [apply oc_u16|].
    split; [done|]. rewrite E, oc_mul_add by cint. cbn [le_word].
    replace (2 ^ 8 * (acc + (2 ^ 8 * a + b)) + le_word l)
      with (2 ^ 8 * acc + 2 ^ 8 * b + le_word l + 2 ^ 16 * a) by lia.
    replace (2 ^ 8 * acc + (a + 2 ^ 8 * (b + 2 ^ 8 * le_word l)))
      with (2 ^ 8 * acc + 2 ^ 8 * b + a + 2 ^ 16 * le_word l) by lia.
    rewrite !oc_wrap by cint. f_equal. lia.
Qed.

Lemma rfc1071_htons l : bytes_ok l → lwip_htons (rfc1071_sum l) = oc (le_word l).
Proof.
  intros Hok. destruct (rfc1071_sum_oc l Hok) as [Hu E].
  rewrite htons_swap by done. rewrite <-(oc_small _ Hu), SWAP_oc by cint. done.
Qed.

(** C20.  The checksum is the one of RFC 1071.  The octet-wise routine that
    the configuration selects computes the one's complement sum of the data,
    in host order, for every buffer of 16-bit length; so do the half-word
    routine, for the lengths up to 0x20000 its comment promises, and the
    unrolled one for every length, whatever the alignment of the buffer. *)
Theorem chksum_versions_are_rfc1071 dataptr data :
  bytes_ok data →
  (Z.of_nat (length data) < 2 ^ 16 → lwip_standard_chksum data = lwip_htons (rfc1071_sum data)) ∧
  (Z.of_nat (length data) ≤ 0x20000 → lwip_standard_chksum_v2 dataptr data = lwip_htons (rfc1071_sum data)) ∧
  lwip_standard_chksum_v3 dataptr data = lwip_htons (rfc1071_sum data).
Proof.
  intros Hok. rewrite rfc1071_htons by done.
  auto using lwip_standard_chksum_oc, lwip_standard_chksum_v2_oc, lwip_standard_chksum_v3_oc.
Qed.

Lemma chksum_versions_are_rfc1071_witness :
  lwip_standard_chksum [0x45; 0; 0; 0x54; 0xff; 1; 2] = 0x0045 + 0x5400 + 0x01ff + 0x0002 ∧
  lwip_standard_chksum_v3 3 [0x45; 0; 0; 0x54; 0xff; 1; 2] = lwip_htons (rfc1071_sum [0x45; 0; 0; 0x54; 0xff; 1; 2]).
Proof.
  split; [vm_compute; done|].
  apply (chksum_versions_are_rfc1071 3 [0x45; 0; 0; 0x54; 0xff; 1; 2]). by_decision.
Defined.

(** ** Checking a message *)

Lemma inet_chksum_oc data :
  bytes_ok data → Z.of_nat (length data) < 2 ^ 16 →
  inet_chksum data = 65535 - oc (le_word data).
Proof.
  intros Hok Hlen. unfold inet_chksum. rewrite lwip_standard_chksum_oc by done.
  pose proof (oc_u16 (le_word data)) as Hu. rewrite unot_value by (cint || lia). cint.
Qed.

Lemma inet_chksum_zero data :
  bytes_ok data → Z.of_nat (length data) < 2 ^ 16 →
  inet_chksum data = 0 ↔ oc (le_word data) = 65535.
Proof. intros. rewrite inet_chksum_oc by done. lia. Qed.

(** A message with a 16-bit field between [pre] and [post]. *)
Definition with_field (pre : list Z) (w : Z) (post : list Z) : list Z := pre ++ le_bytes 2 w ++ post.

Lemma with_field_ok pre w post : bytes_ok pre → bytes_ok post → bytes_ok (with_field pre w post).
Proof. intros. unfold with_field. auto using bytes_ok_app, le_bytes_ok. Qed.
Lemma length_with_field pre w post :
  length (with_field pre w post) = (length pre + 2 + length post)%nat.
Proof. unfold with_field. rewrite !length_app, length_le_bytes. lia. Qed.

Lemma le_word_with_field pre w post :
  is_u16 w →
  le_word (with_field pre w post)
  = le_word (with_field pre 0 post) + 2 ^ (8 * Z.of_nat (length pre)) * w.
Proof.
  intros Hw. unfold with_field. rewrite !le_word_app, !le_word_bytes, !length_le_bytes.
  rewrite !Z.mod_small by (unfold is_u16 in *; simpl; lia). lia.
Qed.

(** Octets at even offsets have weight one. *)
Lemma oc_pow16 x n y : 0 ≤ x → 0 ≤ y → 0 ≤ n → oc (x + 2 ^ (16 * n) * y) = oc (x + y).
Proof.
  intros Hx Hy Hn. revert y Hy. pattern n. apply natlike_ind; [|clear n Hn; intros n Hn IH|done]; intros y Hy.
  - f_equal. lia.
  - replace (16 * Z.succ n) with (16 * n + 16) by lia. rewrite Z.pow_add_r, <-Z.mul_assoc, IH by lia.
    by apply oc_wrap.
Qed.

(** Sealing and checking.  Put into a 16-bit field at an even offset that
    was zero, [inet_chksum] makes the whole message sum to zero, which is what
    the receiver tests. *)
Theorem inet_chksum_seals pre post :
  bytes_ok pre → bytes_ok post → Nat.Even (length pre) →
  Z.of_nat (length pre + 2 + length post) < 2 ^ 16 →
  inet_chksum (with_field pre (inet_chksum (with_field pre 0 post)) post) = 0.
Proof.
  intros Hpre Hpost [n Hn] Hlen. pose proof (with_field_ok pre 0 post Hpre Hpost) as Hok.
  pose proof (le_word_nonneg _ Hok). pose proof (oc_u16 (le_word (with_field pre 0 post))).
  rewrite (inet_chksum_oc (with_field pre 0 post)) by (done || rewrite length_with_field; lia).
  apply inet_chksum_zero; [by apply with_field_ok|rewrite length_with_field; lia|].
  rewrite le_word_with_field by cint.
  replace (8 * Z.of_nat (length pre)) with (16 * Z.of_nat n) by lia.
  rewrite oc_pow16, <-oc_add_l by cint. by replace (oc _ + _) with 65535 by lia.
Qed.

Lemma inet_chksum_seals_witness :
  inet_chksum (with_field [0x45; 0; 0; 0x1c] (inet_chksum (with_field [0x45; 0; 0; 0x1c] 0 [10; 0; 0; 1])) [10; 0; 0; 1]) = 0.
Proof.
  apply (inet_chksum_seals [0x45; 0; 0; 0x1c] [10; 0; 0; 1]);
    [by_decision|by_decision|by exists 2%nat|vm_compute; done].
Defined.

(** Error detection.  In a message that checks, no change of two adjacent
    octets, at whatever offset, passes unnoticed, unless it exchanges 0x0000
    and 0xffff, the two zeros of one's complement. *)
Theorem inet_chksum_detects pre w w' post :
  bytes_ok pre → bytes_ok post → is_u16 w → is_u16 w' →
  Z.of_nat (length pre + 2 + length post) < 2 ^ 16 →
  w ≠ w' → Z.abs (w - w') ≠ 65535 →
  inet_chksum (with_field pre w post) = 0 → inet_chksum (with_field pre w' post) ≠ 0.
Proof.
  intros Hpre Hpost Hw Hw' Hlen Hne Habs H H'.
  rewrite inet_chksum_zero in H, H' by first [by apply with_field_ok|rewrite length_with_field; lia].
  rewrite le_word_with_field in H, H' by done.
  pose proof (le_word_nonneg _ (with_field_ok pre 0 post Hpre Hpost)) as Hx.
  set (x := le_word (with_field pre 0 post)) in *. set (p := 2 ^ (8 * Z.of_nat (length pre))) in *.
  assert (0 < p) by (apply Z.pow_pos_nonneg; lia).
  destruct (oc_spec (x + p * w)) as [k Hk]; [cint|]. destruct (oc_spec (x + p * w')) as [k' Hk']; [cint|].
  assert (65535 | w - w') as [d Hd]; [|cint].
  apply Z.gauss with p; [exists (k' - k); lia|]. apply Z.coprime_pow_r; [lia|done].
Qed.

Lemma inet_chksum_detects_witness :
  inet_chksum (with_field [10; 0; 0; 1] 0x1234 [0xc1; 0xec]) = 0 ∧
  inet_chksum (with_field [10; 0; 0; 1] 0x1235 [0xc1; 0xec]) ≠ 0.
Proof.
  assert (inet_chksum (with_field [10; 0; 0; 1] 0x1234 [0xc1; 0xec]) = 0) as H by (vm_compute; done).
  split; [exact H|].
  refine (inet_chksum_detects [10; 0; 0; 1] 0x1234 0x1235 [0xc1; 0xec] _ _ _ _ _ _ _ H);
    [by_decision|by_decision|by cbv|by cbv|vm_compute; done|done|done].
Defined.
