(* ===== verification/Heap.v ===== *)
(** * The heap of the network stack ([src/lwip/core/mem.c])

    The allocator keeps its book-keeping inside the memory it hands out: every
    block starts with a [struct mem] of two 16-bit offsets, to the next and
    the previous block, and a flag.  The model has the memory as octets, so
    that a structure overwritten by data, or data by a structure, would show.
    Pointers to a [struct mem] are offsets from [ram]; pointers of the callers
    are addresses. *)

From S2P Require Import Prelude LwipBase.
From Stdlib Require Import ZArith Lia.
From stdpp Require Import base numbers list.
Open Scope Z_scope.

(** ** Sizes *)

Definition MEM_SIZE : Z := 0x7E94.
Definition MIN_SIZE : Z := 12.
Definition MIN_SIZE_ALIGNED : Z := LWIP_MEM_ALIGN_SIZE MIN_SIZE.
Definition SIZEOF_STRUCT_MEM : Z := LWIP_MEM_ALIGN_SIZE 6.
Definition MEM_SIZE_ALIGNED : Z := LWIP_MEM_ALIGN_SIZE MEM_SIZE.

(** ** State

    [ram] is the octets of [ram_heap] from the aligned start on, two
    structures more than the heap proper; [ram_addr] is the address of the
    first; [ram_end] is at [MEM_SIZE_ALIGNED]. *)

Record heap := Heap {
  ram : list Z;
  ram_addr : Z;
  lfree : Z;
  mem_stats : stats_mem }.

Definition RAM_LEN : Z := MEM_SIZE_ALIGNED + 2 * SIZEOF_STRUCT_MEM.
Definition ram_end : Z := MEM_SIZE_ALIGNED.

Definition set_ram (r : list Z) (h : heap) : heap := Heap r (ram_addr h) (lfree h) (mem_stats h).
Definition set_lfree (p : Z) (h : heap) : heap := Heap (ram h) (ram_addr h) p (mem_stats h).
Definition on_stats (f : stats_mem → stats_mem) (h : heap) : heap :=
  Heap (ram h) (ram_addr h) (lfree h) (f (mem_stats h)).

(** ** [struct mem] in memory

    [next] at offset 0, [prev] at 2, [used] at 4; little endian. *)

Definition rd8 (r : list Z) (a : Z) : Z := r.[Z.to_nat a].
Definition wr8 (r : list Z) (a v : Z) : list Z := <[Z.to_nat a := v]> r.
Definition rd16 (r : list Z) (a : Z) : Z := le_word [rd8 r a; rd8 r (a + 1)].
Definition wr16 (r : list Z) (a v : Z) : list Z := wr8 (wr8 r a (u8 v)) (a + 1) (u8 (v / 2 ^ 8)).

Definition in_ram (r : list Z) (p : Z) : bool :=
  (0 <=? p) && (p + SIZEOF_STRUCT_MEM <=? Z.of_nat (length r)).

Definition load (f : list Z → Z) (p : Z) : M heap Z := λ h,
  if in_ram (ram h) p then Ok (f (ram h), h) else Fault.
Definition store (f : list Z → list Z) (p : Z) : M heap unit := λ h,
  if in_ram (ram h) p then Ok (tt, set_ram (f (ram h)) h) else Fault.

Definition get_next (p : Z) : M heap Z := load (λ r, rd16 r p) p.
Definition get_prev (p : Z) : M heap Z := load (λ r, rd16 r (p + 2)) p.
Definition get_used (p : Z) : M heap Z := load (λ r, rd8 r (p + 4)) p.
Definition set_next (p v : Z) : M heap unit := store (λ r, wr16 r p (u16 v)) p.
Definition set_prev (p v : Z) : M heap unit := store (λ r, wr16 r (p + 2) (u16 v)) p.
Definition set_used (p v : Z) : M heap unit := store (λ r, wr8 r (p + 4) (u8 v)) p.

(** ** Operations *)

(** Plug hole forward: if [mem->next] is unused and not the end of [ram],
    combine [mem] and [mem->next]. *)
Definition plug_forward (mem : Z) : M heap unit :=
  next ← get_next mem;
  LWIP_ASSERT (next <=? MEM_SIZE_ALIGNED);;
  let nmem := next in
  nused ← (if negb (mem =? nmem) then get_used nmem else mret 1);
  if negb (mem =? nmem) && (nused =? 0) && negb (nmem =? ram_end) then
    lf ← gets lfree;
    (if lf =? nmem then modify (set_lfree mem) else mret tt);;
    nnext ← get_next nmem;
    set_next mem nnext;;
    nnext ← get_next nmem;
    set_prev nnext mem
  else mret tt.

(** Plug hole backward: if [mem->prev] is unused, combine [mem] and
    [mem->prev]. *)
Definition plug_backward (mem : Z) : M heap unit :=
  pmem ← get_prev mem;
  pused ← (if negb (pmem =? mem) then get_used pmem else mret 1);
  if negb (pmem =? mem) && (pused =? 0) then
    lf ← gets lfree;
    (if lf =? mem then modify (set_lfree pmem) else mret tt);;
    next ← get_next mem;
    set_next pmem next;;
    next ← get_next mem;
    set_prev next pmem
  else mret tt.

Definition plug_holes (mem : Z) : M heap unit :=
  LWIP_ASSERT (0 <=? mem);;
  LWIP_ASSERT (mem <? ram_end);;
  used ← get_used mem;
  LWIP_ASSERT (used =? 0);;
  plug_forward mem;;
  plug_backward mem.

(** [ram_heap] is the address of the array, [octets] what it holds. *)
Definition mem_init (ram_heap : Z) (octets : list Z) (stats : stats_mem) : M unit heap := λ u,
  match (
    LWIP_ASSERT (Z.land SIZEOF_STRUCT_MEM (MEM_ALIGNMENT - 1) =? 0);;
    set_next 0 MEM_SIZE_ALIGNED;;
    set_prev 0 0;;
    set_used 0 0;;
    set_used ram_end 1;;
    set_next ram_end MEM_SIZE_ALIGNED;;
    set_prev ram_end MEM_SIZE_ALIGNED;;
    modify (set_lfree 0);;
    modify (on_stats (stats_avail MEM_SIZE_ALIGNED)))
    (Heap octets (LWIP_MEM_ALIGN ram_heap) 0 stats) with
  | Ok (_, h) => Ok (h, u)
  | Spin => Spin
  | Fault => Fault
  end.

Definition mem_free (rmem : Z) : M heap unit :=
  if rmem =? 0 then mret tt
  else
    LWIP_ASSERT (Z.land rmem (MEM_ALIGNMENT - 1) =? 0);;
    base ← gets ram_addr;
    LWIP_ASSERT ((base <=? rmem) && (rmem <? base + ram_end));;
    if (rmem <? base) || (base + ram_end <=? rmem) then modify (on_stats stats_inc_illegal)
    else
      let mem := rmem - base - SIZEOF_STRUCT_MEM in
      used ← get_used mem;
      LWIP_ASSERT (negb (used =? 0));;
      set_used mem 0;;
      lf ← gets lfree;
      (if mem <? lf then modify (set_lfree mem) else mret tt);;
      next ← get_next mem;
      modify (on_stats (STATS_DEC_USED (next - mem)));;
      plug_holes mem.

(** The size every request is brought to. *)
Definition request_size (size : Z) : Z :=
  let size := u16 (LWIP_MEM_ALIGN_SIZE size) in
  if size <? MIN_SIZE_ALIGNED then MIN_SIZE_ALIGNED else size.

(** Create the structure of an unused block at [ptr2], between [ptr] and the
    block at [next]. *)
Definition insert_unused (ptr ptr2 next : Z) : M heap unit :=
  set_used ptr2 0;;
  set_next ptr2 next;;
  set_prev ptr2 ptr;;
  set_next ptr ptr2.
Definition link_back (ptr2 : Z) : M heap unit :=
  next ← get_next ptr2;
  if negb (next =? MEM_SIZE_ALIGNED) then set_prev next ptr2 else mret tt.

(** The end of the block at [mem], of [size] octets, from [newsize] on. *)
Definition trim_tail (mem size newsize : Z) : M heap unit :=
  let ptr := u16 mem in
  next ← get_next mem;
  let mem2 := next in
  used2 ← get_used mem2;
  if used2 =? 0 then
    next2 ← get_next mem2;
    let ptr2 := u16 (ptr + SIZEOF_STRUCT_MEM + newsize) in
    lf ← gets lfree;
    (if lf =? mem2 then modify (set_lfree ptr2) else mret tt);;
    insert_unused mem ptr2 next2;;
    link_back ptr2;;
    modify (on_stats (STATS_DEC_USED (size - newsize)))
  else if newsize + SIZEOF_STRUCT_MEM + MIN_SIZE_ALIGNED <=? size then
    let ptr2 := u16 (ptr + SIZEOF_STRUCT_MEM + newsize) in
    lf ← gets lfree;
    (if ptr2 <? lf then modify (set_lfree ptr2) else mret tt);;
    next ← get_next mem;
    insert_unused mem ptr2 next;;
    link_back ptr2;;
    modify (on_stats (STATS_DEC_USED (size - newsize)))
  else mret tt.

Definition mem_trim (rmem newsize : Z) : M heap Z :=
  let newsize := request_size newsize in
  if MEM_SIZE_ALIGNED <? newsize then mret 0
  else
    base ← gets ram_addr;
    LWIP_ASSERT ((base <=? rmem) && (rmem <? base + ram_end));;
    if (rmem <? base) || (base + ram_end <=? rmem) then
      modify (on_stats stats_inc_illegal);; mret rmem
    else
      let mem := rmem - base - SIZEOF_STRUCT_MEM in
      let ptr := u16 mem in
      next ← get_next mem;
      let size := u16 (next - ptr - SIZEOF_STRUCT_MEM) in
      LWIP_ASSERT (newsize <=? size);;
      if size <? newsize then mret 0
      else if newsize =? size then mret rmem
      else
        trim_tail mem size newsize;;
        mret rmem.

(** [while (lfree->used && lfree != ram_end) lfree = &ram[lfree->next];] *)
Fixpoint next_free (fuel : nat) : M heap unit :=
  match fuel with
  | O => spin
  | S fuel =>
     lf ← gets lfree;
     used ← get_used lf;
     if negb (used =? 0) && negb (lf =? ram_end) then
       next ← get_next lf;
       modify (set_lfree next);;
       next_free fuel
     else mret tt
  end.

(** The block at [ptr] is unused and big enough. *)
Definition take_block (fuel : nat) (ptr size : Z) : M heap Z :=
  next ← get_next ptr;
  (if size + SIZEOF_STRUCT_MEM + MIN_SIZE_ALIGNED <=? u32 (next - (ptr + SIZEOF_STRUCT_MEM)) then
     let ptr2 := u16 (ptr + SIZEOF_STRUCT_MEM + size) in
     insert_unused ptr ptr2 next;;
     set_used ptr 1;;
     link_back ptr2;;
     modify (on_stats (STATS_INC_USED (size + SIZEOF_STRUCT_MEM)))
   else
     set_used ptr 1;;
     next ← get_next ptr;
     modify (on_stats (STATS_INC_USED (next - ptr))));;
  lf ← gets lfree;
  (if ptr =? lf then
     next_free fuel;;
     lf ← gets lfree;
     used ← get_used lf;
     LWIP_ASSERT ((lf =? ram_end) || (used =? 0))
   else mret tt);;
  base ← gets ram_addr;
  LWIP_ASSERT (base + ptr + SIZEOF_STRUCT_MEM + size <=? base + ram_end);;
  LWIP_ASSERT ((base + ptr + SIZEOF_STRUCT_MEM) mod MEM_ALIGNMENT =? 0);;
  LWIP_ASSERT (Z.land (base + ptr) (MEM_ALIGNMENT - 1) =? 0);;
  mret (base + ptr + SIZEOF_STRUCT_MEM).

(** The scan from the lowest unused block on. *)
Fixpoint malloc_scan (fuel : nat) (size ptr : Z) : M heap Z :=
  match fuel with
  | O => spin
  | S fuel =>
     if ptr <? MEM_SIZE_ALIGNED - size then
       used ← get_used ptr;
       next ← get_next ptr;
       if (used =? 0) && (size <=? u32 (next - (ptr + SIZEOF_STRUCT_MEM)))
       then take_block (S fuel) ptr size
       else malloc_scan fuel size next
     else
       modify (on_stats stats_inc_err);;
       mret 0
  end.

(** Every block has at least 20 octets: the fuel is enough for any heap. *)
Definition heap_fuel : nat := Z.to_nat MEM_SIZE_ALIGNED.

Definition mem_malloc (size : Z) : M heap Z :=
  if size =? 0 then mret 0
  else
    let size := request_size size in
    if MEM_SIZE_ALIGNED <? size then mret 0
    else
      ptr ← gets lfree;
      malloc_scan heap_fuel size (u16 ptr).

(** [memset] on the heap. *)
Definition heap_memset (p v n : Z) : M heap unit := λ h,
  let o := p - ram_addr h in
  if (0 <=? o) && (o + n <=? Z.of_nat (length (ram h))) then
    Ok (tt, set_ram (take (Z.to_nat o) (ram h) ++ replicate (Z.to_nat n) v ++ drop (Z.to_nat (o + n)) (ram h)) h)
  else Fault.

(** The product is an [int]: it is cut to 16 bits for [mem_malloc], not for
    [memset], and overflows beyond [2 ^ 31]. *)
Definition mem_calloc (count size : Z) : M heap Z :=
  if 2 ^ 31 <=? count * size then fault
  else
    p ← mem_malloc (u16 (count * size));
    (if negb (p =? 0) then heap_memset p 0 (count * size) else mret tt);;
    mret p.

(** ** Concrete runs *)

Definition no_stats : stats_mem := StatsMem 0 0 0 0 0.
Definition fresh_heap : outcome (heap * unit) :=
  mem_init 0x2007C001 (replicate (Z.to_nat RAM_LEN) 0) no_stats tt.
Definition on_fresh {A} (m : M heap A) : outcome (A * (Z * Z * Z)) :=
  match fresh_heap with
  | Ok (h, _) =>
     match m h with
     | Ok (a, h) => Ok (a, (lfree h, st_used (mem_stats h), st_err (mem_stats h)))
     | Spin => Spin
     | Fault => Fault
     end
  | Spin => Spin
  | Fault => Fault
  end.

Example malloc_malloc_free :
  on_fresh (p ← mem_malloc 100; q ← mem_malloc 30; mem_free p;; r ← mem_malloc 101; s ← mem_malloc 1; mret (p, q, r, s))
  = Ok ((0x2007C00C, 0x2007C078, 0x2007C0A0, 0x2007C00C), (20, 172, 0)).
Proof. vm_compute. reflexivity. Qed.

(** A request for nearly 64 KiB wraps around and is served with the smallest
    block. *)
Example malloc_wraps : on_fresh (mem_malloc 65535) = Ok (0x2007C00C, (20, 20, 0)).
Proof. vm_compute. reflexivity. Qed.

(** [mem_calloc] then clears more than it got. *)
Example calloc_overruns :
  on_fresh (p ← mem_calloc 256 256; mret p) = Ok (0, (0, 0, 0)) ∧
  on_fresh (p ← mem_calloc 2 32770; mret p) = Fault.
Proof. vm_compute. done. Qed.
