(* ===== verification/HeapInv.v ===== *)
(** * The heap as a list of blocks

    The abstract view of [Heap]: a heap is a list of blocks, each with its
    length (structure included) and whether it is in use.  [seg] relates a
    stretch of memory to such a list, [heap_inv] the whole heap; the
    operations of [mem.c] are shown to be the operations [alloc], [release]
    and [shrink] on the list. *)

From S2P Require Import Prelude LwipBase Heap.
From Stdlib Require Import ZArith Lia.
From stdpp Require Import base numbers list.
Open Scope Z_scope.

(** ** Octets in memory *)

Lemma length_wr8 r a v : length (wr8 r a v) = length r.
Proof. apply length_insert. Qed.
Lemma length_wr16 r a v : length (wr16 r a v) = length r.
Proof. unfold wr16. by rewrite !length_wr8. Qed.

Lemma rd8_wr8_eq r a v : 0 ≤ a < Z.of_nat (length r) → rd8 (wr8 r a v) a = v.
Proof. intros. unfold rd8, wr8. rewrite octet_insert by lia. by rewrite decide_True. Qed.
Lemma rd8_wr8_ne r a b v : 0 ≤ a → 0 ≤ b → a ≠ b → rd8 (wr8 r a v) b = rd8 r b.
Proof.
  intros. unfold rd8, wr8, octet. rewrite !nth_lookup, list_lookup_insert_ne by lia. done.
Qed.
Lemma rd8_wr16_ne r a b v : 0 ≤ a → 0 ≤ b → b < a ∨ a + 1 < b → rd8 (wr16 r a v) b = rd8 r b.
Proof. intros. unfold wr16. rewrite !rd8_wr8_ne by lia. done. Qed.
Lemma rd16_wr8_ne r a b v : 0 ≤ a → 0 ≤ b → a < b ∨ b + 1 < a → rd16 (wr8 r a v) b = rd16 r b.
Proof. intros. unfold rd16. rewrite !rd8_wr8_ne by lia. done. Qed.
Lemma rd16_wr16_ne r a b v : 0 ≤ a → 0 ≤ b → a + 1 < b ∨ b + 1 < a → rd16 (wr16 r a v) b = rd16 r b.
Proof. intros. unfold wr16. rewrite !rd16_wr8_ne by lia. done. Qed.
Lemma rd16_wr16_eq r a v :
  0 ≤ a → a + 1 < Z.of_nat (length r) → is_u16 v → rd16 (wr16 r a v) a = v.
Proof.
  intros Ha Hl Hv. unfold rd16, wr16.
  rewrite (rd8_wr8_ne _ (a + 1)), rd8_wr8_eq, rd8_wr8_eq by (rewrite ?length_wr8; lia).
  change [u8 v; u8 (v / 2 ^ 8)] with (le_bytes 2 v). rewrite le_word_bytes.
  apply Z.mod_small. simpl. cint.
Qed.

Ltac lens := repeat first [rewrite length_wr8|rewrite length_wr16].

(** Evaluate reads over writes at addresses that [lia] can compare. *)
Ltac rd_step :=
  first [ rewrite rd8_wr8_ne by lia | rewrite rd8_wr16_ne by lia
        | rewrite rd16_wr8_ne by lia | rewrite rd16_wr16_ne by lia
        | rewrite rd8_wr8_eq by (lens; lia)
        | rewrite rd16_wr16_eq by (lens; lia || (unfold is_u16; lia)) ].
Ltac rd := repeat rd_step.

(** ** Blocks *)

Abbreviation blk := (Z * bool)%type.

Fixpoint extent (l : list blk) : Z :=
  match l with [] => 0 | (n, _) :: l => n + extent l end.

(** The memory from [p] to [p'] holds the blocks [l]; [pr] is where the first
    structure points back to, [pr'] the start of the last block. *)
Fixpoint seg (r : list Z) (pr p : Z) (l : list blk) (pr' p' : Z) : Prop :=
  match l with
  | [] => pr' = pr ∧ p' = p
  | (n, u) :: l =>
     20 ≤ n ∧ (4 | n) ∧ rd16 r p = p + n ∧ rd16 r (p + 2) = pr ∧ rd8 r (p + 4) = Z.b2z u ∧
     seg r p (p + n) l pr' p'
  end.

Lemma extent_app l k : extent (l ++ k) = extent l + extent k.
Proof. induction l as [|[n u] l IH]; simpl; lia. Qed.

Lemma seg_total r pr p l pr' p' : seg r pr p l pr' p' → p' = p + extent l ∧ 20 * Z.of_nat (length l) ≤ extent l.
Proof.
  revert pr p. induction l as [|[n u] l IH]; intros pr p; simpl; [lia|].
  intros (Hn & _ & _ & _ & _ & H). apply IH in H. lia.
Qed.

Lemma seg_app r pr p l k pr' p' :
  seg r pr p (l ++ k) pr' p' ↔ ∃ pm, seg r pr p l pm (p + extent l) ∧ seg r pm (p + extent l) k pr' p'.
Proof.
  revert pr p. induction l as [|[n u] l IH]; intros pr p; simpl.
  - rewrite Z.add_0_r. split; [by exists pr|]. intros (pm & [-> _] & H). done.
  - rewrite IH. rewrite Z.add_assoc. split.
    + intros (H1 & H2 & H3 & H4 & H5 & pm & H6 & H7). exists pm. tauto.
    + intros (pm & (H1 & H2 & H3 & H4 & H5 & H6) & H7). repeat (split; [done|]). by exists pm.
Qed.

(** A stretch is not affected by writes elsewhere. *)
Lemma seg_frame r r' pr p l pr' p' :
  (∀ a, p ≤ a < p' → rd8 r' a = rd8 r a) → seg r pr p l pr' p' → seg r' pr p l pr' p'.
Proof.
  revert pr p. induction l as [|[n u] l IH]; intros pr p Hr; simpl; [done|].
  intros (Hn & Hd & H1 & H2 & H3 & H). pose proof (seg_total _ _ _ _ _ _ H) as Ht.
  unfold rd16 in *. rewrite !Hr by lia. repeat (split; [done|]). apply IH; [|done].
  intros a Ha. apply Hr. lia.
Qed.

(** Changing where the first structure points back to. *)
Lemma seg_relink r r' pr pr2 p l pr' p' :
  (∀ a, p ≤ a < p' → a ≠ p + 2 → a ≠ p + 3 → rd8 r' a = rd8 r a) →
  (l ≠ [] → rd16 r' (p + 2) = pr2) →
  seg r pr p l pr' p' → ∃ pr'', seg r' pr2 p l pr'' p'.
Proof.
  intros Hr Hp H. destruct l as [|[n u] l]; [destruct H as [_ ->]; by exists pr2|].
  destruct H as (Hn & Hd & H1 & H2 & H3 & H). pose proof (seg_total _ _ _ _ _ _ H) as Ht.
  exists pr'. split; [done|]. split; [done|]. split.
  { unfold rd16 in *. rewrite !Hr by lia. done. }
  split; [by apply Hp|]. split; [rewrite Hr by lia; done|].
  eapply seg_frame, H. intros a Ha. apply Hr; lia.
Qed.

(** ** The invariant *)

(** Where the lowest unused block is. *)
Fixpoint lowest (p : Z) (l : list blk) : Z :=
  match l with
  | [] => p
  | (n, u) :: l => if u then lowest (p + n) l else p
  end.

(** No two unused blocks are neighbours; [v] tells whether the block before
    the list is in use. *)
Fixpoint separated (v : bool) (l : list blk) : Prop :=
  match l with
  | [] => True
  | (_, u) :: l => (v || u = true) ∧ separated u l
  end.
Fixpoint last_used (v : bool) (l : list blk) : bool :=
  match l with [] => v | (_, u) :: l => last_used u l end.

Lemma separated_app v l k : separated v (l ++ k) ↔ separated v l ∧ separated (last_used v l) k.
Proof.
  revert v. induction l as [|[n u] l IH]; intros v; simpl; [tauto|]. rewrite IH. tauto.
Qed.
Lemma separated_true v l : separated v l → separated true l.
Proof. destruct l as [|[n u] l]; simpl; tauto. Qed.

Lemma lowest_app p l k :
  lowest p (l ++ k) = if forallb snd l then lowest (p + extent l) k else lowest p l.
Proof.
  revert p. induction l as [|[n u] l IH]; intros p; simpl; [by rewrite Z.add_0_r|].
  destruct u; simpl; [|done]. rewrite IH. by rewrite Z.add_assoc.
Qed.
Lemma lowest_lt r pr p l pr' p' :
  seg r pr p l pr' p' → forallb snd l = false → lowest p l < p'.
Proof.
  revert pr p. induction l as [|[n u] l IH]; intros pr p; simpl; [done|].
  intros (Hn & _ & _ & _ & _ & H) Hu. pose proof (seg_total _ _ _ _ _ _ H).
  destruct u; simpl in Hu; [by eapply IH|lia].
Qed.

Fixpoint in_use (l : list blk) : Z :=
  match l with [] => 0 | (n, u) :: l => (if u then n else 0) + in_use l end.

Record heap_inv (h : heap) (bs : list blk) : Prop := {
  inv_len : Z.of_nat (length (ram h)) = RAM_LEN;
  inv_addr : (4 | ram_addr h) ∧ 0 < ram_addr h ∧ ram_addr h + RAM_LEN ≤ 2 ^ 32;
  inv_seg : ∃ pr, seg (ram h) 0 0 bs pr MEM_SIZE_ALIGNED;
  inv_end : rd8 (ram h) (MEM_SIZE_ALIGNED + 4) = 1;
  inv_sep : separated true bs;
  inv_lfree : lfree h = lowest 0 bs;
  inv_used : st_used (mem_stats h) = u16 (in_use bs) }.

Lemma in_use_app l k : in_use (l ++ k) = in_use l + in_use k.
Proof. induction l as [|[n u] l IH]; simpl; lia. Qed.

(** The octets a client may use. *)
Fixpoint owned (p : Z) (l : list blk) (a : Z) : Prop :=
  match l with
  | [] => False
  | (n, u) :: l => (u = true ∧ p + 8 ≤ a < p + n) ∨ owned (p + n) l a
  end.

Lemma owned_app p l k a : owned p (l ++ k) a ↔ owned p l a ∨ owned (p + extent l) k a.
Proof.
  revert p. induction l as [|[n u] l IH]; intros p; simpl.
  - rewrite Z.add_0_r. tauto.
  - rewrite IH, Z.add_assoc. tauto.
Qed.
Lemma owned_bounds r pr p l pr' p' a : seg r pr p l pr' p' → owned p l a → p + 8 ≤ a < p'.
Proof.
  revert pr p. induction l as [|[n u] l IH]; intros pr p; simpl; [done|].
  intros (Hn & _ & _ & _ & _ & H) Ho. pose proof (seg_total _ _ _ _ _ _ H).
  destruct Ho as [|Ho]; [lia|]. apply (IH _ _ H) in Ho. lia.
Qed.

(** ** Stepping through the code *)

Ltac hconst :=
  change MEM_SIZE_ALIGNED with 32404 in *; change RAM_LEN with 32420 in *;
  change SIZEOF_STRUCT_MEM with 8 in *; change MIN_SIZE_ALIGNED with 12 in *;
  change ram_end with 32404 in *; change MEM_ALIGNMENT with 4 in *.

Section Steps.
Context {A : Type} (r : list Z) (b lf : Z) (st : stats_mem).
Implicit Types (p v : Z).

Lemma in_ram_true p : 0 ≤ p → p + 8 ≤ Z.of_nat (length r) → in_ram r p = true.
Proof. intros. unfold in_ram. hconst. apply andb_true_intro. split; apply Z.leb_le; lia. Qed.

Lemma load_step f p (k : Z → M heap A) :
  0 ≤ p → p + 8 ≤ Z.of_nat (length r) →
  (load f p ≫= k) (Heap r b lf st) = k (f r) (Heap r b lf st).
Proof. intros. rewrite bind_unfold. unfold load. simpl ram. by rewrite in_ram_true. Qed.
Lemma store_step f p (k : unit → M heap A) :
  0 ≤ p → p + 8 ≤ Z.of_nat (length r) →
  (store f p ≫= k) (Heap r b lf st) = k tt (Heap (f r) b lf st).
Proof. intros. rewrite bind_unfold. unfold store. simpl ram. by rewrite in_ram_true. Qed.
Lemma store_last f p :
  0 ≤ p → p + 8 ≤ Z.of_nat (length r) →
  store f p (Heap r b lf st) = Ok (tt, Heap (f r) b lf st).
Proof. intros. unfold store. simpl ram. by rewrite in_ram_true. Qed.
Lemma modify_step f (k : unit → M heap A) h : (modify f ≫= k) h = k tt (f h).
Proof. done. Qed.
Lemma gets_step {B} (f : heap → B) (k : B → M heap A) h : (gets f ≫= k) h = k (f h) h.
Proof. done. Qed.
Lemma bind_assoc {B C} (m : M heap B) (k : B → M heap C) (k' : C → M heap A) h :
  ((m ≫= k) ≫= k') h = (m ≫= λ x, k x ≫= k') h.
Proof. rewrite !bind_unfold. by destruct (m h) as [[]| |]. Qed.
End Steps.

Ltac hlen := lens; lia.
Ltac hstep :=
  first [ rewrite bind_assoc
        | rewrite load_step by hlen
        | rewrite store_step by hlen
        | rewrite store_last by hlen
        | rewrite modify_step | rewrite gets_step | rewrite ret_bind ].
Ltac hsteps :=
  unfold get_next, get_prev, get_used, set_next, set_prev, set_used;
  repeat (hstep; cbn [ram ram_addr lfree mem_stats set_lfree on_stats set_ram]).

(** The search for the next unused block. *)
Lemma next_free_ok fuel r b lf st pr l pr' :
  seg r pr lf l pr' MEM_SIZE_ALIGNED → 0 ≤ lf → rd8 r (MEM_SIZE_ALIGNED + 4) = 1 →
  Z.of_nat (length r) = RAM_LEN → (length l < fuel)%nat →
  next_free fuel (Heap r b lf st) = Ok (tt, Heap r b (lowest lf l) st).
Proof.
  revert pr lf fuel. induction l as [|[n u] l IH]; intros pr lf [|fuel] Hs Hlf He Hlen Hf;
    try (simpl in Hf; lia); cbn [next_free]; hconst.
  - destruct Hs as [_ <-]. hsteps. rewrite He. done.
  - pose proof (seg_total _ _ _ _ _ _ Hs) as Ht. destruct Hs as (Hn & Hd & H1 & H2 & H3 & Hs).
    pose proof (seg_total _ _ _ _ _ _ Hs) as Ht'. simpl in Ht.
    hsteps. rewrite H3. destruct u; [|done]. simpl Z.b2z.
    rewrite (proj2 (Z.eqb_neq lf 32404)) by lia. simpl. hsteps. rewrite H1.
    apply (IH _ _ _ Hs); simpl in Hf; lia.
Qed.

(** ** Allocation *)

(** What becomes of a block of length [n] that serves a request. *)
Definition carve (size n : Z) : list blk :=
  if decide (size + 28 ≤ n) then [(size + 8, true); (n - size - 8, false)] else [(n, true)].

(** First fit. *)
Fixpoint alloc (size p : Z) (l : list blk) : option (Z * list blk) :=
  match l with
  | [] => None
  | (n, u) :: l =>
     if negb u && (size + 8 <=? n) then Some (p, carve size n ++ l)
     else match alloc size (p + n) l with
          | Some (q, l') => Some (q, (n, u) :: l')
          | None => None
          end
  end.

Lemma extent_carve size n : extent (carve size n) = n.
Proof. unfold carve. case_decide; simpl; lia. Qed.

(** What the first half of [take_block] leaves in memory. *)
Definition taken (r : list Z) (p size n : Z) (l2 : list blk) : list Z :=
  if decide (size + 28 ≤ n) then
    let r1 := wr8 (wr16 (wr16 (wr16 (wr8 r (p + 8 + size + 4) 0) (p + 8 + size) (p + n))
                              (p + 8 + size + 2) p) p (p + 8 + size)) (p + 4) 1 in
    match l2 with [] => r1 | _ => wr16 r1 (p + n + 2) (p + 8 + size) end
  else wr8 r (p + 4) 1.

Lemma taken_length r p size n l2 : length (taken r p size n l2) = length r.
Proof. unfold taken. case_decide; [destruct l2|]; lens; done. Qed.
Lemma taken_frame r p size n l2 a :
  0 ≤ p → 0 ≤ size → 20 ≤ n → 0 ≤ a → a < p ∨ p + n + 4 ≤ a →
  rd8 (taken r p size n l2) a = rd8 r a.
Proof. intros. unfold taken. case_decide; [destruct l2|]; cbn zeta; rd; done. Qed.

(** The memory after a block at [p] was taken, up to the link back. *)
Lemma carve_seg r r' p pm size n l2 pr' :
  Z.of_nat (length r) = RAM_LEN → 0 ≤ p → 12 ≤ size → (4 | size) → size + 8 ≤ n →
  seg r pm p ((n, false) :: l2) pr' MEM_SIZE_ALIGNED →
  r' = taken r p size n l2 →
  ∃ pr'', seg r' pm p (carve size n ++ l2) pr'' MEM_SIZE_ALIGNED.
Proof.
  intros Hlen Hp Hs Hd Hfit (Hn & Hdn & H1 & H2 & H3 & H) Hr'. hconst.
  pose proof (seg_total _ _ _ _ _ _ H) as Ht.
  unfold carve. unfold taken in Hr'. case_decide as Hc.
  - assert (rd16 r' p = p + (size + 8) ∧ rd16 r' (p + 2) = pm ∧ rd8 r' (p + 4) = 1 ∧
            rd16 r' (p + 8 + size) = p + n ∧ rd16 r' (p + 8 + size + 2) = p ∧
            rd8 r' (p + 8 + size + 4) = 0 ∧ (l2 ≠ [] → rd16 r' (p + n + 2) = p + 8 + size) ∧
            ∀ a, p + n ≤ a < 32404 → a ≠ p + n + 2 → a ≠ p + n + 3 → rd8 r' a = rd8 r a)
      as (E1 & E2 & E3 & E4 & E5 & E6 & E7 & E8).
    { subst r'. destruct l2 as [|b0 l2]; cbn zeta;
        [|assert (p + n + 20 ≤ 32404) by (simpl in Ht; lia)];
        repeat (split; [first [by intros ?|rd; lia]|]); intros a Ha Ha2 Ha3; rd; done. }
    assert (∃ pr'', seg r' (p + 8 + size) (p + n) l2 pr'' 32404) as [pr'' Hl2]
      by (eapply seg_relink; [exact E8|exact E7|exact H]).
    exists pr''. cbn [app seg].
    replace (p + (size + 8)) with (p + 8 + size) in * by lia.
    replace (p + 8 + size + (n - size - 8)) with (p + n) by lia.
    repeat (split; [first [done|lia|idtac]|]); try done.
    + apply Z.divide_add_r; [done|by exists 2].
    + apply Z.divide_sub_r; [apply Z.divide_sub_r; done|by exists 2].
  - subst r'. exists pr'. cbn [app seg]. rd. repeat (split; [done|]).
    eapply seg_frame, H. intros a Ha. rd. done.
Qed.

Lemma in_use_carve size n : in_use (carve size n) = if decide (size + 28 ≤ n) then size + 8 else n.
Proof. unfold carve. case_decide; simpl; lia. Qed.
Lemma separated_carve v size n l : separated v ((n, false) :: l) → separated v (carve size n ++ l).
Proof.
  intros [Hv H]. rewrite orb_false_r in Hv. subst v. unfold carve.
  case_decide; simpl; [tauto|]. eauto using separated_true.
Qed.

(** ** [take_block] *)

(** What an operation leaves of a heap: the list of blocks it is now, at the
    same place, with the octets that are in use before and after unchanged. *)
Definition becomes (h : heap) (bs : list blk) (h' : heap) (bs' : list blk) : Prop :=
  heap_inv h' bs' ∧ ram_addr h' = ram_addr h ∧
  ∀ a, owned 0 bs a → owned 0 bs' a → rd8 (ram h') a = rd8 (ram h) a.

Lemma becomes_refl h bs : heap_inv h bs → becomes h bs h bs.
Proof. intros H. split; [done|]. by split. Qed.

Lemma aligned_mod x : (4 | x) → x mod 4 = 0.
Proof. intros [k ->]. apply Z.mod_mul. lia. Qed.
Lemma aligned_land x : (4 | x) → Z.land x 3 = 0.
Proof. intros H. change 3 with (Z.ones 2). rewrite Z.land_ones by lia. by apply aligned_mod. Qed.

Lemma seg_divide r pr p l pr' p' : seg r pr p l pr' p' → (4 | p) → (4 | p').
Proof.
  revert pr p. induction l as [|[n u] l IH]; intros pr p; simpl; [by intros [_ ->]|].
  intros (_ & Hd & _ & _ & _ & H) Hp. eapply IH; [exact H|]. by apply Z.divide_add_r.
Qed.

Lemma take_mark r b lf st pm p size n l2 pr' :
  Z.of_nat (length r) = RAM_LEN → 0 ≤ p → 12 ≤ size → size + 8 ≤ n →
  seg r pm p ((n, false) :: l2) pr' MEM_SIZE_ALIGNED →
  ∀ {A} (k : unit → M heap A),
  ((next ← get_next p;
    if size + SIZEOF_STRUCT_MEM + MIN_SIZE_ALIGNED <=? u32 (next - (p + SIZEOF_STRUCT_MEM)) then
     let ptr2 := u16 (p + SIZEOF_STRUCT_MEM + size) in
     insert_unused p ptr2 next;;
     set_used p 1;;
     link_back ptr2;;
     modify (on_stats (STATS_INC_USED (size + SIZEOF_STRUCT_MEM)))
   else
     set_used p 1;;
     next ← get_next p;
     modify (on_stats (STATS_INC_USED (next - p)))) ≫= k) (Heap r b lf st)
  = k tt (Heap (taken r p size n l2) b lf (STATS_INC_USED (in_use (carve size n)) st)).
Proof.
  intros Hlen Hp Hs Hfit Hseg A k. pose proof (seg_total _ _ _ _ _ _ Hseg) as Ht.
  destruct Hseg as (Hn & _ & H1 & _ & _ & H). pose proof (seg_total _ _ _ _ _ _ H) as Ht'.
  simpl in Ht. rewrite in_use_carve. unfold taken, insert_unused, link_back. hconst.
  hsteps. rewrite H1. replace (u32 (p + n - (p + 8))) with (n - 8) by (cint).
  rewrite (u16_small (p + 8 + size)) by cint.
  destruct (decide (size + 28 ≤ n)); [rewrite (proj2 (Z.leb_le _ _)) by lia|rewrite (proj2 (Z.leb_gt _ _)) by lia].
  - hsteps. rewrite (u16_small (p + n)), (u16_small (p + 8 + size)), (u16_small p), (u8_small 0), (u8_small 1) by cint.
    rd. destruct l2 as [|b0 l2].
    + simpl in Ht'. rewrite (proj2 (Z.eqb_eq (p + n) 32404)) by lia. simpl negb. hsteps. done.
    + simpl in Ht'. rewrite (proj2 (Z.eqb_neq (p + n) 32404)) by lia. simpl negb. hsteps. done.
  - hsteps. rewrite (u8_small 1) by cint. rd. rewrite H1.
    replace (p + n - p) with n by lia. done.
Qed.

Lemma inv_length h bs : heap_inv h bs → (length bs < heap_fuel)%nat.
Proof.
  intros [_ _ [pr H] _ _ _ _]. apply seg_total in H. unfold heap_fuel. hconst. lia.
Qed.

Lemma lowest_unused r pr p l pr' p' :
  seg r pr p l pr' p' → p ≤ lowest p l ≤ p' ∧ (lowest p l = p' ∨ rd8 r (lowest p l + 4) = 0).
Proof.
  revert pr p. induction l as [|[n u] l IH]; intros pr p; simpl; [lia|].
  intros (Hn & _ & _ & _ & Hu & H). pose proof (seg_total _ _ _ _ _ _ H).
  destruct u; [apply IH in H; lia|]. simpl in Hu. lia.
Qed.

(** The lowest unused block after the one that was lowest has been taken. *)
Lemma refresh_lfree fuel r b st l1 n l2 l pm p pr :
  seg r 0 0 l1 pm p → seg r pm p l pr MEM_SIZE_ALIGNED → (length l < fuel)%nat →
  rd8 r (MEM_SIZE_ALIGNED + 4) = 1 → Z.of_nat (length r) = RAM_LEN →
  (if p =? lowest 0 (l1 ++ (n, false) :: l2) then
     next_free fuel;; lf ← gets lfree; used ← get_used lf;
     LWIP_ASSERT ((lf =? ram_end) || (used =? 0))
   else mret tt) (Heap r b (lowest 0 (l1 ++ (n, false) :: l2)) st)
  = Ok (tt, Heap r b (lowest 0 (l1 ++ l)) st).
Proof.
  intros H1 H2 Hf He Hlen. pose proof (seg_total _ _ _ _ _ _ H1) as T1. rewrite Z.add_0_l in T1.
  pose proof (seg_total _ _ _ _ _ _ H2) as T2. rewrite !lowest_app.
  destruct (forallb snd l1) eqn:Ef.
  - replace (0 + extent l1) with p by lia. simpl lowest at 1 2. rewrite Z.eqb_refl.
    rewrite (bind_ok _ _ _ _ _ (next_free_ok fuel r b p st pm l pr H2 ltac:(lia) He Hlen Hf)).
    destruct (lowest_unused _ _ _ _ _ _ H2) as [Hb Hl]. hconst. hsteps.
    destruct Hl as [-> | ->]; [by rewrite Z.eqb_refl|]. by rewrite orb_true_r.
  - pose proof (lowest_lt _ _ _ _ _ _ H1 Ef). by rewrite (proj2 (Z.eqb_neq _ _)) by lia.
Qed.

Lemma take_block_ok fuel h l1 n l2 size :
  heap_inv h (l1 ++ (n, false) :: l2) → 12 ≤ size → (4 | size) → size + 8 ≤ n →
  (2 + length l2 < fuel)%nat →
  ∃ h', take_block fuel (extent l1) size h = Ok (ram_addr h + extent l1 + 8, h') ∧
    becomes h (l1 ++ (n, false) :: l2) h' (l1 ++ carve size n ++ l2).
Proof.
  intros [Hlen [Ha Hb] [pr Hseg] Hend Hsep Hlf Hused] Hs Hd Hfit Hfuel.
  destruct h as [r b lf st]. cbn [ram ram_addr lfree mem_stats] in *.
  rewrite seg_app in Hseg. destruct Hseg as (pm & H1 & H2). rewrite Z.add_0_l in *.
  pose proof (seg_total _ _ _ _ _ _ H1) as T1. pose proof (seg_total _ _ _ _ _ _ H2) as T2.
  assert (20 ≤ n) as Hn by apply H2. set (p := extent l1) in *. assert (0 ≤ p) as Hp by lia.
  assert (4 | p) as Hpd by (eapply seg_divide; [exact H1|apply Z.divide_0_r]).
  set (bs' := l1 ++ carve size n ++ l2). set (r' := taken r p size n l2).
  assert (length r' = length r) as Hlen' by apply taken_length.
  assert (p + n ≤ 32404) as Hpn by (simpl in T2; hconst; destruct H2 as (_ & _ & _ & _ & _ & H2);
    apply seg_total in H2; lia).
  assert (seg r' 0 0 l1 pm p) as H1'.
  { eapply seg_frame, H1. intros a Ha'. apply taken_frame; lia. }
  destruct (carve_seg r r' p pm size n l2 pr) as [pr'' H2']; try done.
  assert (∃ pr2, seg r' 0 0 bs' pr2 MEM_SIZE_ALIGNED) as Hseg'.
  { exists pr''. apply seg_app. exists pm. rewrite Z.add_0_l. done. }
  assert (rd8 r' (MEM_SIZE_ALIGNED + 4) = 1) as Hend'.
  { rewrite <-Hend. apply taken_frame; hconst; lia. }
  exists (Heap r' b (lowest 0 bs') (STATS_INC_USED (in_use (carve size n)) st)). split.
  - unfold take_block. rewrite <-bind_assoc, (take_mark r b lf st pm p size n l2 pr Hlen Hp Hs Hfit H2).
    fold r'. rewrite gets_step. cbn [lfree].
    assert (length (carve size n ++ l2) < fuel)%nat as Hf by (rewrite length_app; unfold carve; case_decide; simpl length; lia).
    assert (Z.of_nat (length r') = RAM_LEN) as Hr by by rewrite Hlen'.
    rewrite Hlf, (bind_ok _ _ _ _ _ (refresh_lfree fuel r' b _ l1 n l2 _ pm p pr'' H1' H2' Hf Hend' Hr)).
    rewrite gets_step. cbn [ram_addr].
    hconst. rewrite !assert_true; [done| | |].
    + apply Z.eqb_eq. apply aligned_land. by apply Z.divide_add_r.
    + apply Z.eqb_eq, aligned_mod. do 2 (apply Z.divide_add_r; [|done || by exists 2]). done.
    + apply Z.leb_le. lia.
  - split; [|split; [done|]].
    + split; cbn [ram ram_addr lfree mem_stats]; try done.
      * by rewrite Hlen'.
      * unfold bs'. rewrite separated_app in Hsep |- *. destruct Hsep as [? ?]. split; [done|].
        by apply separated_carve.
      * rewrite (STATS_INC_used _ _ _ Hused). unfold bs'. rewrite !in_use_app. simpl. f_equal. lia.
    + intros a Ho _. cbn [ram]. apply owned_app in Ho. destruct Ho as [Ho|Ho].
      * apply (owned_bounds _ _ _ _ _ _ _ H1) in Ho. apply taken_frame; lia.
      * rewrite Z.add_0_l in Ho. fold p in Ho. destruct Ho as [[? _]|Ho]; [done|].
        destruct H2 as (_ & _ & _ & _ & _ & H2). apply (owned_bounds _ _ _ _ _ _ _ H2) in Ho.
        apply taken_frame; lia.
Qed.

(** ** [mem_malloc] *)

Lemma alloc_short size p l r pr pr' p' :
  seg r pr p l pr' p' → extent l < size + 8 → alloc size p l = None.
Proof.
  revert pr p. induction l as [|[n u] l IH]; intros pr p; simpl; [done|].
  intros (Hn & _ & _ & _ & _ & H) Ht. pose proof (seg_total _ _ _ _ _ _ H).
  rewrite (proj2 (Z.leb_gt _ _)), andb_false_r by lia. rewrite (IH _ _ H) by lia. done.
Qed.

Lemma malloc_scan_ok fuel h l1 l2 size :
  heap_inv h (l1 ++ l2) → 12 ≤ size → (4 | size) → (2 + length l2 < fuel)%nat →
  match alloc size (extent l1) l2 with
  | Some (q, l2') => ∃ h', malloc_scan fuel size (extent l1) h = Ok (ram_addr h + q + 8, h') ∧
                      becomes h (l1 ++ l2) h' (l1 ++ l2')
  | None => malloc_scan fuel size (extent l1) h = Ok (0, on_stats stats_inc_err h)
  end.
Proof.
  revert l1 fuel. induction l2 as [|[n u] l2 IH]; intros l1 fuel Hinv Hs Hd Hf;
    (destruct fuel as [|fuel]; [lia|]); cbn [malloc_scan];
    destruct (inv_seg _ _ Hinv) as [pr Hseg]; pose proof (seg_total _ _ _ _ _ _ Hseg) as T;
    rewrite extent_app in T; rewrite Z.add_0_l in T.
  { simpl in *. rewrite (proj2 (Z.ltb_ge _ _)) by lia. done. }
  apply seg_app in Hseg as (pm & H1 & H2). rewrite Z.add_0_l in *.
  pose proof (seg_total _ _ _ _ _ _ H1) as T1. pose proof (seg_total _ _ _ _ _ _ H2) as T2.
  destruct (Z.ltb_spec (extent l1) (MEM_SIZE_ALIGNED - size)) as [Hlt|Hge].
  2:{ rewrite (alloc_short _ _ _ _ _ _ _ H2) by lia. done. }
  destruct H2 as (Hn & Hdn & E1 & E2 & E3 & H2). pose proof (seg_total _ _ _ _ _ _ H2) as T3.
  pose proof (inv_len _ _ Hinv) as Hlen. cbn [alloc]. destruct h as [r b lf st].
  cbn [ram] in *. hconst. hsteps. rewrite E1, E3.
  replace (u32 (extent l1 + n - (extent l1 + 8))) with (n - 8) by cint.
  replace ((Z.b2z u =? 0) && (size <=? n - 8)) with (negb u && (size + 8 <=? n))
    by (destruct u; [done|]; simpl; destruct (Z.leb_spec (size + 8) n), (Z.leb_spec size (n - 8)); lia || done).
  simpl length in Hf. destruct (negb u && (size + 8 <=? n)) eqn:Efit.
  { apply andb_prop in Efit as [Hu Hfit%Z.leb_le]. destruct u; [done|].
    destruct (take_block_ok (S fuel) _ l1 n l2 size Hinv) as (h' & E & Hb); [done|done|lia|lia|].
    by exists h'. }
  specialize (IH (l1 ++ [(n, u)]) fuel). rewrite <-app_assoc in IH.
  specialize (IH Hinv Hs Hd ltac:(lia)). rewrite extent_app in IH. simpl extent in IH.
  rewrite Z.add_0_r in IH. destruct (alloc size (extent l1 + n) l2) as [[q l2']|]; [|done].
  destruct IH as (h' & E & Hb). exists h'. by rewrite <-app_assoc in Hb.
Qed.

Lemma alloc_skip size p l k :
  forallb snd l = true →
  alloc size p (l ++ k) = match alloc size (p + extent l) k with
                          | Some (q, k') => Some (q, l ++ k')
                          | None => None
                          end.
Proof.
  revert p. induction l as [|[n u] l IH]; intros p; simpl.
  - intros _. rewrite Z.add_0_r. by destruct (alloc size p k) as [[]|].
  - destruct u; [|done]. simpl. intros H. rewrite IH, Z.add_assoc by done.
    by destruct (alloc size (p + n + extent l) k) as [[]|].
Qed.

Lemma lowest_split p l :
  ∃ l1 l2, l = l1 ++ l2 ∧ forallb snd l1 = true ∧ lowest p l = p + extent l1.
Proof.
  revert p. induction l as [|[n u] l IH]; intros p.
  - exists [], []. simpl. split; [done|]. split; [done|lia].
  - destruct u; [|exists [], ((n, false) :: l); simpl; split; [done|]; split; [done|lia]].
    destruct (IH (p + n)) as (l1 & l2 & -> & Hl & E). exists ((n, true) :: l1), l2.
    split; [done|]. split; [done|]. simpl. lia.
Qed.

Lemma request_size_spec size :
  is_u16 size → 12 ≤ request_size size < 2 ^ 16 ∧ (4 | request_size size) ∧
  (size ≤ 65532 → size ≤ request_size size ≤ size + 12).
Proof.
  intros Hs. unfold request_size. hconst. pose proof (align_size_bounds size) as Hb.
  destruct (Z.ltb_spec (u16 (LWIP_MEM_ALIGN_SIZE size)) 12) as [H|H].
  - split; [lia|]. split; [by exists 3|]. intros Hs'. rewrite u16_small in H by cint. cint.
  - split; [cint|]. split.
    + destruct (align_size_divides size) as [k Hk]. rewrite Hk. exists (k - k * 4 / 65536 * 16384).
      cint.
    + intros Hs'. rewrite u16_small by cint. lia.
Qed.

Lemma inv_stats h bs f :
  (∀ s, st_used (f s) = st_used s) → heap_inv h bs → heap_inv (on_stats f h) bs.
Proof. intros Hf [? ? ? ? ? ? ?]. split; simpl; try done. by rewrite Hf. Qed.

Theorem mem_malloc_ok h bs size :
  heap_inv h bs → is_u16 size → size ≠ 0 →
  match alloc (request_size size) 0 bs with
  | Some (q, bs') => ∃ h', mem_malloc size h = Ok (ram_addr h + q + 8, h') ∧ becomes h bs h' bs'
  | None => ∃ h', mem_malloc size h = Ok (0, h') ∧ becomes h bs h' bs
  end.
Proof.
  intros Hinv Hs Hnz. destruct (request_size_spec size Hs) as ([H12 H16] & Hd & _).
  unfold mem_malloc. rewrite (proj2 (Z.eqb_neq _ _) Hnz).
  pose proof (inv_length _ _ Hinv) as Hfuel. destruct (inv_seg _ _ Hinv) as [pr Hseg].
  pose proof (seg_total _ _ _ _ _ _ Hseg) as T. rewrite Z.add_0_l in T.
  destruct (Z.ltb_spec MEM_SIZE_ALIGNED (request_size size)) as [Hbig|Hsmall].
  { rewrite (alloc_short _ _ _ _ _ _ _ Hseg) by lia. exists h. auto using becomes_refl. }
  rewrite gets_step. pose proof (inv_lfree _ _ Hinv) as Hlf.
  destruct (lowest_split 0 bs) as (l1 & l2 & Ebs & Hl1 & El). rewrite Hlf, El, Z.add_0_l.
  subst bs. rewrite extent_app in T. rewrite alloc_skip, Z.add_0_l by done.
  apply seg_app in Hseg as (pm & H1 & H2). apply seg_total in H1, H2.
  rewrite u16_small by (unfold is_u16; hconst; lia).
  assert (2 + length l2 < heap_fuel)%nat as Hf.
  { unfold heap_fuel. hconst. lia. }
  pose proof (malloc_scan_ok heap_fuel h l1 l2 (request_size size) Hinv H12 Hd Hf) as Hscan.
  destruct (alloc (request_size size) (extent l1) l2) as [[q l2']|]; [done|].
  eexists. split; [exact Hscan|]. split; [by apply inv_stats|done].
Qed.
