(* ===== verification/HeapFree.v ===== *)
(** * Giving memory back

    [mem_free] and [mem_trim] as operations on the list of blocks: a block
    that is released joins its unused neighbours; one that shrinks gives its
    end to an unused neighbour or makes a new block of it. *)

From S2P Require Import Prelude LwipBase Heap HeapInv.
From Stdlib Require Import ZArith Lia.
From stdpp Require Import base numbers list.
Open Scope Z_scope.

(** ** The abstract operation *)

(** Join neighbouring unused blocks. *)
Fixpoint coalesce (l : list blk) : list blk :=
  match l with
  | [] => []
  | (n, u) :: l =>
     match coalesce l with
     | (m, false) :: l' => if u then (n, true) :: (m, false) :: l' else (n + m, false) :: l'
     | l' => (n, u) :: l'
     end
  end.

(** Mark the block that starts at [q] as unused. *)
Fixpoint unmark (q p : Z) (l : list blk) : list blk :=
  match l with
  | [] => []
  | (n, u) :: l => if p =? q then (n, false) :: l else (n, u) :: unmark q (p + n) l
  end.

Definition release (q : Z) (l : list blk) : list blk := coalesce (unmark q 0 l).

Lemma coalesce_separated v l : separated v l → coalesce l = l.
Proof.
  revert v. induction l as [|[n u] l IH]; intros v; simpl; [done|]. intros [_ H].
  rewrite (IH _ H). destruct l as [|[m w] l]; [done|]. destruct w; [done|].
  simpl in H. destruct u; [done|]. by destruct H.
Qed.

(** Nothing happens before a block in use. *)
Lemma coalesce_app v l k :
  separated v l → last_used v l = true → l ≠ [] ∨ v = true → coalesce (l ++ k) = l ++ coalesce k.
Proof.
  revert v. induction l as [|[n u] l IH]; intros v; simpl; [done|]. intros [Hv H] Hlast _.
  destruct l as [|[m w] l]; simpl in Hlast.
  - subst u. simpl. by destruct (coalesce k) as [|[? []] ?].
  - rewrite (IH u); [|done|done|left; done]. simpl. destruct w; [done|].
    destruct u; [done|]. by destruct H.
Qed.

(** Join with the block behind. *)
Definition forward (n : Z) (l : list blk) : Z * list blk :=
  match l with (m, false) :: l => (n + m, l) | _ => (n, l) end.

Lemma coalesce_forward n l :
  separated true l → coalesce ((n, false) :: l) = ((forward n l).1, false) :: (forward n l).2.
Proof.
  intros H. cbn [coalesce]. rewrite (coalesce_separated _ _ H). by destruct l as [|[m []] l].
Qed.

(** Join with the block in front. *)
Definition backward (l1 : list blk) (n : Z) : list blk :=
  match last l1 with
  | Some (k, false) => removelast l1 ++ [(k + n, false)]
  | _ => l1 ++ [(n, false)]
  end.

Lemma last_used_last v l : last_used v l = match last l with Some (_, u) => u | None => v end.
Proof.
  revert v. induction l as [|[n u] l IH]; intros v; [done|]. simpl last_used. rewrite IH.
  destruct l as [|b l]; [done|]. change (last ((n, u) :: b :: l)) with (last (b :: l)).
  destruct (last (b :: l)) as [[]|] eqn:E; [done|]. by apply last_None in E.
Qed.

Lemma unmark_at l1 n u l2 p :
  (∀ x, x ∈ l1 → 0 < x.1) → unmark (p + extent l1) p (l1 ++ (n, u) :: l2) = l1 ++ (n, false) :: l2.
Proof.
  revert p. induction l1 as [|[m w] l1 IH]; intros p Hpos.
  { simpl. rewrite Z.add_0_r, Z.eqb_refl. done. }
  simpl. assert (0 < m) by (apply (Hpos (m, w)); left).
  assert (0 ≤ extent l1).
  { assert (∀ x, x ∈ l1 → 0 < x.1) as Hl by (intros; apply Hpos; by right). clear -Hl.
    induction l1 as [|[a b] l1 IH]; simpl; [lia|]. pose proof (Hl (a, b) ltac:(left)) as Ha.
    assert (0 ≤ extent l1) by (apply IH; intros; apply Hl; by right). simpl in Ha. lia. }
  rewrite (proj2 (Z.eqb_neq _ _)) by lia. rewrite Z.add_assoc, IH; [done|].
  intros x Hx. apply Hpos. by right.
Qed.

(** The released block with its neighbours. *)
Lemma release_eq l1 n l2 :
  (∀ x, x ∈ l1 → 0 < x.1) → separated true (l1 ++ (n, true) :: l2) →
  release (extent l1) (l1 ++ (n, true) :: l2)
  = backward l1 (forward n l2).1 ++ (forward n l2).2.
Proof.
  intros Hpos Hsep. unfold release. rewrite <-(Z.add_0_l (extent l1)), unmark_at by done.
  apply separated_app in Hsep as (H1 & _ & H2).
  unfold backward. pose proof (last_used_last true l1) as El.
  destruct (last l1) as [[k [|]]|] eqn:Elast.
  - rewrite (coalesce_app true), coalesce_forward by auto. by rewrite <-app_assoc.
  - apply last_Some in Elast as [l1' ->]. rewrite removelast_last.
    apply separated_app in H1 as (H1 & Hk & _). rewrite orb_false_r in Hk.
    rewrite <-!app_assoc, (coalesce_app true) by auto. f_equal. simpl app at 1.
    change (coalesce ((k, false) :: (n, false) :: l2)) with
      (match coalesce ((n, false) :: l2) with
       | (m, false) :: l' => (k + m, false) :: l'
       | l' => (k, false) :: l'
       end).
    by rewrite coalesce_forward.
  - apply last_None in Elast as ->. by apply coalesce_forward.
Qed.

(** ** Joining two blocks in memory *)

Definition joined (r : list Z) (p len : Z) : list Z := wr16 (wr16 r p (p + len)) (p + len + 2) p.

Lemma joined_length r p len : length (joined r p len) = length r.
Proof. unfold joined. by lens. Qed.
Lemma joined_frame r p len a :
  0 ≤ p → 8 ≤ len → 0 ≤ a → a < p ∨ p + len + 4 ≤ a → rd8 (joined r p len) a = rd8 r a.
Proof. intros. unfold joined. by rd. Qed.

Lemma joined_seg r pm p k u n v l pr :
  Z.of_nat (length r) = RAM_LEN → 0 ≤ p →
  seg r pm p ((k, u) :: (n, v) :: l) pr MEM_SIZE_ALIGNED →
  ∃ pr', seg (joined r p (k + n)) pm p ((k + n, u) :: l) pr' MEM_SIZE_ALIGNED.
Proof.
  intros Hlen Hp (Hk & Hdk & E1 & E2 & E3 & Hn & Hdn & E4 & E5 & E6 & H).
  pose proof (seg_total _ _ _ _ _ _ H) as T. hconst. rewrite <-Z.add_assoc in H.
  destruct (seg_relink r (joined r p (k + n)) (p + k) p (p + (k + n)) l pr 32404) as [pr' H']; [| |done|].
  - intros a Ha Ha2 Ha3. unfold joined. by rd.
  - intros Hl. assert (p + k + n + 20 ≤ 32404) by (destruct l; [done|simpl in T; lia]).
    unfold joined. rd. lia.
  - exists pr'. cbn [seg]. split; [lia|]. split; [by apply Z.divide_add_r|].
    unfold joined at 1 2 3. rd. done.
Qed.

Definition fwd_ram (r : list Z) (p n : Z) (l2 : list blk) : list Z :=
  match l2 with (m, false) :: _ => joined r p (n + m) | _ => r end.

Lemma fwd_ram_length r p n l2 : length (fwd_ram r p n l2) = length r.
Proof. destruct l2 as [|[m []] l2]; simpl; auto using joined_length. Qed.

Lemma plug_forward_ok r b lf st pm p n l2 pr :
  Z.of_nat (length r) = RAM_LEN → 0 ≤ p → lf ≤ p → rd8 r (MEM_SIZE_ALIGNED + 4) = 1 →
  seg r pm p ((n, false) :: l2) pr MEM_SIZE_ALIGNED →
  plug_forward p (Heap r b lf st) = Ok (tt, Heap (fwd_ram r p n l2) b lf st).
Proof.
  intros Hlen Hp Hlf He (Hn & Hd & E1 & E2 & E3 & H). pose proof (seg_total _ _ _ _ _ _ H) as T.
  unfold plug_forward. hconst. hsteps. rewrite E1.
  rewrite assert_true by (apply Z.leb_le; lia). rewrite (proj2 (Z.eqb_neq _ _)) by lia. simpl negb.
  hsteps. destruct l2 as [|[m u] l2].
  - simpl in T. replace (p + n) with 32404 by lia. rewrite He. done.
  - destruct H as (Hm & Hdm & F1 & F2 & F3 & H). pose proof (seg_total _ _ _ _ _ _ H) as T'.
    rewrite F3. destruct u; [done|]. simpl. rewrite (proj2 (Z.eqb_neq (p + n) 32404)) by lia. simpl.
    hsteps. rewrite (proj2 (Z.eqb_neq lf (p + n))) by lia. hsteps. rd.
    rewrite F1, !u16_small by cint. unfold joined. rewrite ?store_last by hlen. by replace (p + n + m) with (p + (n + m)) by lia.
Qed.

Definition bwd_ram (r : list Z) (p : Z) (l1 : list blk) (n : Z) : list Z :=
  match last l1 with Some (k, false) => joined r (p - k) (k + n) | _ => r end.

Lemma seg_last r pr p l1 k u pm q :
  seg r pr p (l1 ++ [(k, u)]) pm q →
  q = pm + k ∧ pm = p + extent l1 ∧ rd16 r pm = pm + k ∧ rd8 r (pm + 4) = Z.b2z u ∧ 20 ≤ k ∧
  0 ≤ extent l1.
Proof.
  intros H. apply seg_app in H as (pm' & H1 & Hk & _ & E1 & _ & E3 & [-> ->]).
  apply seg_total in H1. split; [done|]. split; [done|]. split; [done|]. split; [done|]. lia.
Qed.

Lemma lowest_le_here r l1 n l2 pm p :
  seg r 0 0 l1 pm p → lowest 0 (l1 ++ (n, false) :: l2) ≤ p.
Proof.
  intros H1. pose proof (seg_total _ _ _ _ _ _ H1) as T1. rewrite lowest_app.
  destruct (forallb snd l1) eqn:Ef; [simpl; lia|]. pose proof (lowest_lt _ _ _ _ _ _ H1 Ef). lia.
Qed.

Lemma plug_backward_ok r b st l1 pm p n l2 pr :
  Z.of_nat (length r) = RAM_LEN → seg r 0 0 l1 pm p →
  seg r pm p ((n, false) :: l2) pr MEM_SIZE_ALIGNED →
  plug_backward p (Heap r b (lowest 0 (l1 ++ (n, false) :: l2)) st)
  = Ok (tt, Heap (bwd_ram r p l1 n) b (lowest 0 (l1 ++ (n, false) :: l2)) st).
Proof.
  intros Hlen H1 (Hn & Hd & E1 & E2 & E3 & H). pose proof (seg_total _ _ _ _ _ _ H) as T.
  pose proof (seg_total _ _ _ _ _ _ H1) as T1. unfold plug_backward, bwd_ram. hconst. hsteps. rewrite E2.
  destruct l1 as [|[k u] l1 _] using rev_ind.
  { destruct H1 as [-> ->]. done. }
  rewrite last_snoc. destruct (seg_last _ _ _ _ _ _ _ _ H1) as (Ep & Epm & F1 & F2 & Hk & Hx).
  rewrite (proj2 (Z.eqb_neq pm p)) by lia. simpl negb. hsteps. rewrite F2.
  destruct u; [done|]. cbn [Z.b2z negb andb Z.eqb]. hsteps.
  assert (lowest 0 ((l1 ++ [(k, false)]) ++ (n, false) :: l2) ≤ pm) as Hlow.
  { rewrite <-app_assoc. apply seg_app in H1 as (pq & H1 & _).
    pose proof (lowest_le_here _ _ k ((n, false) :: l2) _ _ H1). simpl in *. lia. }
  rewrite (proj2 (Z.eqb_neq _ p)) by lia. hsteps. rd. rewrite E1, !u16_small by cint.
  unfold joined. replace (p - k) with pm by lia. replace (pm + (k + n)) with (p + n) by lia.
  by rewrite ?store_last by hlen.
Qed.

(** ** What joining blocks preserves *)

Lemma separated_coalesce l : separated true (coalesce l).
Proof.
  induction l as [|[n u] l IH]; [done|]. cbn [coalesce].
  destruct (coalesce l) as [|[m [|]] l']; simpl in *; [tauto|destruct u; simpl; tauto|].
  destruct u; simpl; tauto.
Qed.
Lemma in_use_coalesce l : in_use (coalesce l) = in_use l.
Proof.
  induction l as [|[n u] l IH]; [done|]. cbn [coalesce in_use]. rewrite <-IH.
  destruct (coalesce l) as [|[m [|]] l']; destruct u; simpl; lia.
Qed.
Lemma lowest_coalesce p l : lowest p (coalesce l) = lowest p l.
Proof.
  revert p. induction l as [|[n u] l IH]; intros p; [done|]. cbn [coalesce lowest]. rewrite <-IH.
  by destruct (coalesce l) as [|[m [|]] l']; destruct u.
Qed.
Lemma owned_coalesce r pr p l pr' p' a :
  seg r pr p l pr' p' → owned p (coalesce l) a ↔ owned p l a.
Proof.
  revert pr p. induction l as [|[n u] l IH]; intros pr p; [done|].
  intros (_ & _ & _ & _ & _ & H). cbn [coalesce owned]. rewrite <-(IH _ _ H).
  destruct (coalesce l) as [|[m [|]] l']; destruct u; simpl; try tauto.
  rewrite Z.add_assoc. intuition discriminate.
Qed.

Lemma seg_pos r pr p l pr' p' x : seg r pr p l pr' p' → x ∈ l → 0 < x.1.
Proof.
  revert pr p. induction l as [|[n u] l IH]; intros pr p; [by intros _ ?%elem_of_nil|].
  intros (Hn & _ & _ & _ & _ & H) [->|Hx]%elem_of_cons; [simpl; lia|]. by eapply IH.
Qed.

(** Marking a block in memory. *)
Lemma marked_seg r pm p n u v l pr x :
  Z.of_nat (length r) = RAM_LEN → 0 ≤ p → x = Z.b2z v →
  seg r pm p ((n, u) :: l) pr MEM_SIZE_ALIGNED →
  seg (wr8 r (p + 4) x) pm p ((n, v) :: l) pr MEM_SIZE_ALIGNED.
Proof.
  intros Hlen Hp -> (Hn & Hd & E1 & E2 & E3 & H). pose proof (seg_total _ _ _ _ _ _ H) as T. hconst.
  cbn [seg]. rd. repeat (split; [done|]). eapply seg_frame, H. intros a Ha. by rd.
Qed.

Lemma fwd_seg r pm p n l2 pr :
  Z.of_nat (length r) = RAM_LEN → 0 ≤ p → seg r pm p ((n, false) :: l2) pr MEM_SIZE_ALIGNED →
  ∃ pr', seg (fwd_ram r p n l2) pm p (((forward n l2).1, false) :: (forward n l2).2) pr' MEM_SIZE_ALIGNED.
Proof.
  intros Hlen Hp H. destruct l2 as [|[m [|]] l2]; [by exists pr|by exists pr|]. by apply (joined_seg r pm p n false m false l2 pr).
Qed.
Lemma fwd_frame r p n l2 a :
  0 ≤ p → 20 ≤ n → (∀ x, x ∈ l2 → 0 < x.1) → 0 ≤ a → a < p ∨ p + (forward n l2).1 + 4 ≤ a →
  rd8 (fwd_ram r p n l2) a = rd8 r a.
Proof.
  intros Hp Hn Hpos Ha Hr. destruct l2 as [|[m [|]] l2]; [done|done|]. simpl in *.
  assert (0 < m) by (apply (Hpos (m, false)); left). apply joined_frame; lia.
Qed.

Lemma bwd_seg r l1 pm p n l2 pr :
  Z.of_nat (length r) = RAM_LEN → seg r 0 0 l1 pm p →
  seg r pm p ((n, false) :: l2) pr MEM_SIZE_ALIGNED →
  ∃ pr', seg (bwd_ram r p l1 n) 0 0 (backward l1 n ++ l2) pr' MEM_SIZE_ALIGNED.
Proof.
  intros Hlen H1 H2. pose proof (seg_total _ _ _ _ _ _ H1) as T1.
  assert (seg r 0 0 (l1 ++ (n, false) :: l2) pr MEM_SIZE_ALIGNED) as H.
  { apply seg_app. exists pm. by replace (0 + extent l1) with p by lia. }
  unfold bwd_ram, backward. destruct l1 as [|[k u] l1 _] using rev_ind; [by exists pr|].
  rewrite last_snoc, removelast_last. destruct u; [exists pr; by rewrite <-app_assoc|].
  destruct (seg_last _ _ _ _ _ _ _ _ H1) as (Ep & Epm & _ & _ & Hk & Hx).
  apply seg_app in H1 as (pq & H1 & H1'). rewrite Z.add_0_l in *. replace (p - k) with (extent l1) by lia.
  assert (seg r pq (extent l1) ((k, false) :: (n, false) :: l2) pr MEM_SIZE_ALIGNED) as H3.
  { rewrite <-app_assoc in H. destruct H1' as (? & ? & ? & ? & ? & [-> Ep']). cbn [seg].
    repeat (split; [done|]). by replace (extent l1 + k) with p by lia. }
  destruct (joined_seg r pq (extent l1) k false n false l2 pr) as [pr' H4]; [done|lia|done|].
  exists pr'. rewrite <-app_assoc. apply seg_app. exists pq. rewrite Z.add_0_l. split; [|done].
  eapply seg_frame, H1. intros a Ha. assert (20 ≤ n) by apply H2. apply joined_frame; lia.
Qed.
Lemma bwd_frame r l1 pm p n a :
  seg r 0 0 l1 pm p → 20 ≤ n → owned 0 l1 a ∨ p + n + 4 ≤ a →
  rd8 (bwd_ram r p l1 n) a = rd8 r a.
Proof.
  intros H1 Hn Ha. pose proof (seg_total _ _ _ _ _ _ H1) as T1.
  unfold bwd_ram. destruct l1 as [|[k u] l1 _] using rev_ind; [done|]. rewrite last_snoc.
  destruct u; [done|]. destruct (seg_last _ _ _ _ _ _ _ _ H1) as (Ep & Epm & _ & _ & Hk & Hx).
  apply seg_app in H1 as (pq & H1 & _). destruct Ha as [Ha|Ha].
  - apply owned_app in Ha as [Ha|Ha]; [|by destruct Ha as [[? _]|[]]].
    apply (owned_bounds _ _ _ _ _ _ _ H1) in Ha. apply joined_frame; lia.
  - apply joined_frame; lia.
Qed.
Lemma bwd_ram_length r p l1 n : length (bwd_ram r p l1 n) = length r.
Proof. unfold bwd_ram. destruct (last l1) as [[k [|]]|]; auto using joined_length. Qed.

(** ** [mem_free] *)

Lemma lowest_released r pm p pr l1 n l2 :
  seg r 0 0 l1 pm p → seg r pm p ((n, true) :: l2) pr MEM_SIZE_ALIGNED →
  (if p <? lowest 0 (l1 ++ (n, true) :: l2) then p else lowest 0 (l1 ++ (n, true) :: l2))
  = lowest 0 (l1 ++ (n, false) :: l2).
Proof.
  intros H1 (Hn & _ & _ & _ & _ & H2). pose proof (seg_total _ _ _ _ _ _ H1) as T1.
  rewrite !lowest_app. replace (0 + extent l1) with p by lia. destruct (forallb snd l1) eqn:Ef.
  - simpl. destruct (lowest_unused _ _ _ _ _ _ H2) as [? _]. rewrite (proj2 (Z.ltb_lt _ _)) by lia. done.
  - pose proof (lowest_lt _ _ _ _ _ _ H1 Ef). by rewrite (proj2 (Z.ltb_ge _ _)) by lia.
Qed.

Lemma lowest_front l1 n n' l2 l2' :
  lowest 0 (l1 ++ (n, false) :: l2) = lowest 0 (l1 ++ (n', false) :: l2').
Proof. by rewrite !lowest_app. Qed.

Lemma plug_holes_ok r b st l1 n l2 pm p pr :
  Z.of_nat (length r) = RAM_LEN → seg r 0 0 l1 pm p →
  seg r pm p ((n, false) :: l2) pr MEM_SIZE_ALIGNED → rd8 r (MEM_SIZE_ALIGNED + 4) = 1 →
  plug_holes p (Heap r b (lowest 0 (l1 ++ (n, false) :: l2)) st)
  = Ok (tt, Heap (bwd_ram (fwd_ram r p n l2) p l1 (forward n l2).1) b (lowest 0 (l1 ++ (n, false) :: l2)) st).
Proof.
  intros Hlen H1 H2 He. pose proof (seg_total _ _ _ _ _ _ H1) as T1.
  assert (20 ≤ n) as Hn by apply H2. assert (rd8 r (p + 4) = 0) as Hu by apply H2.
  assert (p + n ≤ 32404) as Hpn.
  { destruct H2 as (_ & _ & _ & _ & _ & H2). apply seg_total in H2. hconst. lia. }
  unfold plug_holes. hconst. rewrite !assert_true by (apply Z.leb_le || apply Z.ltb_lt; lia).
  unfold get_used. rewrite load_step by lia. rewrite Hu, assert_true by done.
  rewrite (bind_ok _ _ _ _ _ (plug_forward_ok r b _ st pm p n l2 pr Hlen ltac:(lia)
    (lowest_le_here r l1 n l2 pm p H1) He H2)).
  destruct (fwd_seg r pm p n l2 pr Hlen ltac:(lia) H2) as [pr' H2'].
  rewrite (lowest_front l1 n (forward n l2).1 l2 (forward n l2).2).
  apply (plug_backward_ok _ _ _ _ pm _ _ _ pr'); [by rewrite fwd_ram_length| |done].
  eapply seg_frame, H1. intros a Ha. apply fwd_frame; [lia|done| |lia|lia].
  intros x Hx. destruct H2 as (_ & _ & _ & _ & _ & H2). by apply (seg_pos _ _ _ _ _ _ _ H2).
Qed.

(** The memory after [plug_holes]. *)
Lemma plugged r l1 n l2 pm p pr :
  Z.of_nat (length r) = RAM_LEN → seg r 0 0 l1 pm p →
  seg r pm p ((n, false) :: l2) pr MEM_SIZE_ALIGNED → rd8 r (MEM_SIZE_ALIGNED + 4) = 1 →
  let r2 := bwd_ram (fwd_ram r p n l2) p l1 (forward n l2).1 in
  length r2 = length r ∧
  (∃ pr2, seg r2 0 0 (backward l1 (forward n l2).1 ++ (forward n l2).2) pr2 MEM_SIZE_ALIGNED) ∧
  rd8 r2 (MEM_SIZE_ALIGNED + 4) = 1 ∧
  ∀ a, owned 0 (l1 ++ (n, false) :: l2) a → rd8 r2 a = rd8 r a.
Proof.
  intros Hlen H1 H2 He. pose proof (seg_total _ _ _ _ _ _ H1) as T1.
  assert (20 ≤ n) as Hn by apply H2. assert (0 ≤ p) as Hp by lia.
  assert (∀ x, x ∈ l2 → 0 < x.1) as Hpos2.
  { destruct H2 as (_ & _ & _ & _ & _ & H2). intros x. by apply (seg_pos _ _ _ _ _ _ _ H2). }
  destruct (fwd_seg r pm p n l2 pr Hlen Hp H2) as [pr1 H3].
  assert (seg (fwd_ram r p n l2) 0 0 l1 pm p) as H3'.
  { eapply seg_frame, H1. intros a Ha'. apply fwd_frame; (done || lia). }
  assert (20 ≤ (forward n l2).1 ∧ p + (forward n l2).1 ≤ 32404) as [Hn' Hb].
  { split; [apply H3|]. destruct H3 as (_ & _ & _ & _ & _ & H3). apply seg_total in H3. hconst. lia. }
  cbn zeta. rewrite bwd_ram_length, fwd_ram_length. split; [done|]. split; [|split].
  - eapply bwd_seg; [by rewrite fwd_ram_length|done|exact H3].
  - rewrite (bwd_frame _ _ pm), fwd_frame; hconst; try done; lia.
  - intros a Ho. assert (owned 0 l1 a ∨ p + (forward n l2).1 + 4 ≤ a) as Ha.
    { apply owned_app in Ho. replace (0 + extent l1) with p in Ho by lia.
      destruct Ho as [Ho|[[Ho _]|Ho]]; [by left|done|right].
      destruct l2 as [|[m [|]] l2]; [done| |]; destruct H2 as (_ & _ & _ & _ & _ & H2).
      - apply (owned_bounds _ _ _ _ _ _ _ H2) in Ho. simpl. lia.
      - destruct Ho as [[? _]|Ho]; [done|]. destruct H2 as (_ & _ & _ & _ & _ & H2).
        apply (owned_bounds _ _ _ _ _ _ _ H2) in Ho. simpl. lia. }
    rewrite (bwd_frame _ _ pm), fwd_frame; try done; destruct Ha as [Ha|Ha]; try lia;
      apply (owned_bounds _ _ _ _ _ _ _ H1) in Ha; lia.
Qed.

Lemma mem_free_runs r b st l1 n l2 pm p pr :
  Z.of_nat (length r) = RAM_LEN → (4 | b) → 0 < b → seg r 0 0 l1 pm p →
  seg r pm p ((n, true) :: l2) pr MEM_SIZE_ALIGNED → rd8 r (MEM_SIZE_ALIGNED + 4) = 1 →
  mem_free (b + p + 8) (Heap r b (lowest 0 (l1 ++ (n, true) :: l2)) st)
  = Ok (tt, Heap (bwd_ram (fwd_ram (wr8 r (p + 4) 0) p n l2) p l1 (forward n l2).1) b
                 (lowest 0 (l1 ++ (n, false) :: l2)) (STATS_DEC_USED n st)).
Proof.
  intros Hlen Hb Hb0 H1 H2 He. pose proof (seg_total _ _ _ _ _ _ H1) as T1.
  assert (20 ≤ n) as Hn by apply H2. assert (rd16 r p = p + n) as En by apply H2.
  assert (rd8 r (p + 4) = 1) as Eu by apply H2.
  assert (p + n ≤ 32404) as Hpn.
  { destruct H2 as (_ & _ & _ & _ & _ & H2). apply seg_total in H2. hconst. lia. }
  assert (4 | p) as Hpd by (eapply seg_divide; [exact H1|apply Z.divide_0_r]).
  unfold mem_free. hconst. rewrite (proj2 (Z.eqb_neq _ 0)) by lia.
  rewrite assert_true by (apply Z.eqb_eq, aligned_land; do 2 (apply Z.divide_add_r; [|done || by exists 2]); done).
  rewrite gets_step. cbn [ram_addr].
  rewrite assert_true by (apply andb_true_intro; split; [apply Z.leb_le|apply Z.ltb_lt]; lia).
  rewrite (proj2 (Z.ltb_ge _ _)), (proj2 (Z.leb_gt _ _)) by lia. cbn [orb].
  replace (b + p + 8 - b - 8) with p by lia. hsteps. rewrite Eu. rewrite assert_true by done.
  hsteps. change (u8 0) with 0. rewrite <-(lowest_released r pm p pr l1 n l2 H1 H2).
  set (lf := lowest 0 (l1 ++ (n, true) :: l2)). 
  rewrite (bind_ok _ _ _ tt (Heap (wr8 r (p + 4) 0) b (if p <? lf then p else lf) st)) by (by destruct (p <? lf)).
  hsteps. replace (rd16 _ p - p) with n by (rd; lia).
  assert ((if p <? lf then p else lf) = lowest 0 (l1 ++ (n, false) :: l2)) as El
    by (apply (lowest_released r pm p pr l1 n l2 H1 H2)).
  rewrite El. apply (plug_holes_ok _ _ _ _ _ _ pm p pr).
  - cbn [ram]; hconst; lens; done.
  - eapply seg_frame, H1. intros a Ha'. cbn [ram]. by rd.
  - eapply marked_seg; [done|lia|done|exact H2].
  - hconst. cbn [ram]; by rd.
Qed.

Lemma mem_free_ok h l1 n l2 :
  heap_inv h (l1 ++ (n, true) :: l2) →
  ∃ h', mem_free (ram_addr h + extent l1 + 8) h = Ok (tt, h') ∧
    becomes h (l1 ++ (n, true) :: l2) h' (release (extent l1) (l1 ++ (n, true) :: l2)).
Proof.
  intros [Hlen [Ha Hb] [pr Hseg] Hend Hsep Hlf Hused]. destruct h as [r b lf st].
  cbn [ram ram_addr lfree mem_stats] in *.
  rewrite seg_app in Hseg. destruct Hseg as (pm & H1 & H2). rewrite Z.add_0_l in *.
  pose proof (seg_total _ _ _ _ _ _ H1) as T1.
  assert (∀ x, x ∈ l1 → 0 < x.1) as Hpos by (intros x; by apply (seg_pos _ _ _ _ _ _ _ H1)).
  assert (unmark (extent l1) 0 (l1 ++ (n, true) :: l2) = l1 ++ (n, false) :: l2) as Eun
    by (rewrite <-(Z.add_0_l (extent l1)); by apply unmark_at).
  rewrite Hlf. eexists. split; [apply (mem_free_runs r b st l1 n l2 pm _ pr); done || apply Hb|].
  set (p := extent l1) in *. assert (20 ≤ n) as Hn by apply H2.
  assert (p + n ≤ 32404) as Hpn.
  { destruct H2 as (_ & _ & _ & _ & _ & H2). apply seg_total in H2. hconst. lia. }
  set (r0 := wr8 r (p + 4) 0). assert (length r0 = length r) as Hl0 by apply length_wr8.
  assert (seg r0 0 0 l1 pm p) as H1' by (eapply seg_frame, H1; intros a Ha'; unfold r0; by rd).
  assert (seg r0 pm p ((n, false) :: l2) pr MEM_SIZE_ALIGNED) as H2'
    by (eapply marked_seg; [done|lia|done|exact H2]).
  destruct (plugged r0 l1 n l2 pm p pr) as (Hl & Hs & He & Hf);
    [by rewrite Hl0|done|done|unfold r0; hconst; by rd|].
  fold r0. set (r2 := bwd_ram _ _ _ _) in *. rewrite Hl0 in Hl.
  split; [split; cbn [ram ram_addr lfree mem_stats]; unfold release|split; [done|]].
  - by rewrite Hl.
  - done.
  - fold (release p (l1 ++ (n, true) :: l2)). unfold p. by rewrite release_eq.
  - done.
  - apply separated_coalesce.
  - by rewrite lowest_coalesce, Eun.
  - rewrite (STATS_DEC_used _ _ _ Hused), in_use_coalesce, Eun, !in_use_app. simpl. f_equal. lia.
  - intros a _ Ho. cbn [ram]. unfold release in Ho. rewrite Eun in Ho.
    rewrite (owned_coalesce r0 0 0 _ pr MEM_SIZE_ALIGNED) in Ho
      by (apply seg_app; exists pm; by rewrite Z.add_0_l).
    rewrite Hf by done. unfold r0. apply owned_app in Ho as [Ho|[[Ho _]|Ho]]; [|done|].
    + apply (owned_bounds _ _ _ _ _ _ _ H1) in Ho. rd; done.
    + rewrite Z.add_0_l in Ho. destruct H2 as (_ & _ & _ & _ & _ & H2).
      apply (owned_bounds _ _ _ _ _ _ _ H2) in Ho. rd; done.
Qed.
