(* ===== verification/HeapTrim.v ===== *)
(** * Shrinking a block: [mem_trim] *)

From S2P Require Import Prelude LwipBase Heap HeapInv HeapFree.
From Stdlib Require Import ZArith Lia.
From stdpp Require Import base numbers list.
Open Scope Z_scope.

(** ** The abstract operation

    The block of length [n] in front of [l2] shrinks to [ns] octets: its end
    goes to an unused neighbour, or becomes a block if it is long enough. *)
Definition trimmed (ns n : Z) (l2 : list blk) : list blk :=
  if decide (ns = n - 8) then (n, true) :: l2
  else match l2 with
       | (m, false) :: l2 => (ns + 8, true) :: (n - ns - 8 + m, false) :: l2
       | _ => if decide (ns + 28 ≤ n) then (ns + 8, true) :: (n - ns - 8, false) :: l2
              else (n, true) :: l2
       end.

(** ** The memory *)

Definition inserted (r : list Z) (p ns nxt : Z) (l : list blk) : list Z :=
  let r1 := wr16 (wr16 (wr16 (wr8 r (p + 8 + ns + 4) 0) (p + 8 + ns) nxt)
                       (p + 8 + ns + 2) p) p (p + 8 + ns) in
  match l with [] => r1 | _ => wr16 r1 (nxt + 2) (p + 8 + ns) end.

Lemma inserted_length r p ns nxt l : length (inserted r p ns nxt l) = length r.
Proof. unfold inserted. destruct l; lens; done. Qed.
Lemma inserted_frame r p ns nxt l a :
  0 ≤ p → 0 ≤ ns → p + 8 + ns + 20 ≤ nxt → 0 ≤ a → a < p ∨ p + 8 ≤ a < p + 8 + ns ∨ nxt + 4 ≤ a →
  rd8 (inserted r p ns nxt l) a = rd8 r a.
Proof. intros. unfold inserted. destruct l; cbn zeta; by rd. Qed.

Lemma inserted_seg r pm p ns nxt q l pr :
  Z.of_nat (length r) = RAM_LEN → 0 ≤ p → 12 ≤ ns → (4 | ns) → p + 8 + ns + 20 ≤ nxt → (4 | p) → (4 | nxt) →
  rd16 r (p + 2) = pm → rd8 r (p + 4) = 1 → seg r q nxt l pr MEM_SIZE_ALIGNED →
  ∃ pr', seg (inserted r p ns nxt l) pm p ((ns + 8, true) :: (nxt - p - ns - 8, false) :: l) pr' MEM_SIZE_ALIGNED.
Proof.
  intros Hlen Hp Hns Hd Hnxt Hpd Hnd E1 E2 H. pose proof (seg_total _ _ _ _ _ _ H) as T. hconst.
  set (r' := inserted r p ns nxt l).
  assert (rd16 r' p = p + (ns + 8) ∧ rd16 r' (p + 2) = pm ∧ rd8 r' (p + 4) = 1 ∧
          rd16 r' (p + 8 + ns) = nxt ∧ rd16 r' (p + 8 + ns + 2) = p ∧
          rd8 r' (p + 8 + ns + 4) = 0 ∧ (l ≠ [] → rd16 r' (nxt + 2) = p + 8 + ns) ∧
          ∀ a, nxt ≤ a < 32404 → a ≠ nxt + 2 → a ≠ nxt + 3 → rd8 r' a = rd8 r a)
    as (F1 & F2 & F3 & F4 & F5 & F6 & F7 & F8).
  { unfold r', inserted. destruct l as [|b0 l]; cbn zeta;
      [|assert (nxt + 20 ≤ 32404) by (simpl in T; lia)];
      repeat (split; [first [by intros ?|rd; lia]|]); intros a Ha Ha2 Ha3; by rd. }
  destruct (seg_relink r r' q (p + 8 + ns) nxt l pr 32404 F8 F7 H) as [pr' H'].
  exists pr'. cbn [seg]. replace (p + (ns + 8)) with (p + 8 + ns) in * by lia.
  replace (p + 8 + ns + (nxt - p - ns - 8)) with nxt by lia.
  repeat (split; [first [done|lia|idtac]|]); try done.
  - apply Z.divide_add_r; [done|by exists 2].
  - repeat (apply Z.divide_sub_r; [|done || by exists 2]). done.
Qed.

(** The code that writes it. *)
Lemma insert_link r b lf st p ns nxt l q pr :
  Z.of_nat (length r) = RAM_LEN → 0 ≤ p → 12 ≤ ns → p + 8 + ns + 20 ≤ nxt →
  seg r q nxt l pr MEM_SIZE_ALIGNED →
  ∀ {A} (k : unit → M heap A),
  ((insert_unused p (p + 8 + ns) nxt;; link_back (p + 8 + ns)) ≫= k) (Heap r b lf st)
  = k tt (Heap (inserted r p ns nxt l) b lf st).
Proof.
  intros Hlen Hp Hns Hnxt H A k. pose proof (seg_total _ _ _ _ _ _ H) as T.
  unfold insert_unused, link_back, inserted. hconst. hsteps.
  rewrite (u16_small nxt), (u16_small (p + 8 + ns)), (u16_small p), (u8_small 0) by cint.
  rd. destruct l as [|b0 l].
  - simpl in T. rewrite (proj2 (Z.eqb_eq nxt 32404)) by lia. simpl negb. hsteps. done.
  - simpl in T. rewrite (proj2 (Z.eqb_neq nxt 32404)) by lia. simpl negb. hsteps. done.
Qed.

Lemma seg_extent_divide r pr p l pr' p' : seg r pr p l pr' p' → (4 | extent l).
Proof.
  revert pr p. induction l as [|[n u] l IH]; intros pr p; simpl; [intros; apply Z.divide_0_r|].
  intros (_ & Hd & _ & _ & _ & H). apply Z.divide_add_r; eauto.
Qed.

(** The new state after the end of the block has been cut off. *)
Lemma trim_becomes r b lf st l1 n l2 pm p pr ns nxt l q pr1 :
  heap_inv (Heap r b lf st) (l1 ++ (n, true) :: l2) →
  seg r 0 0 l1 pm p → seg r pm p ((n, true) :: l2) pr MEM_SIZE_ALIGNED →
  seg r q nxt l pr1 MEM_SIZE_ALIGNED →
  12 ≤ ns → (4 | ns) → p + 8 + ns + 20 ≤ nxt → ns + 8 ≤ n → separated false l →
  in_use l = in_use l2 →
  lf = lowest 0 (l1 ++ (n, true) :: l2) →
  becomes (Heap r b lf st) (l1 ++ (n, true) :: l2)
          (Heap (inserted r p ns nxt l) b (if forallb snd l1 then p + 8 + ns else lf) (STATS_DEC_USED (n - 8 - ns) st))
          (l1 ++ (ns + 8, true) :: (nxt - p - ns - 8, false) :: l).
Proof.
  intros Hinv H1 H2 H3 Hns Hd Hnxt Hfit Hsep Huse Hlf.
  pose proof (inv_len _ _ Hinv) as Hlen. pose proof (inv_sep _ _ Hinv) as Hs.
  pose proof (inv_used _ _ Hinv) as Hu. pose proof (inv_end _ _ Hinv) as He.
  destruct (inv_addr _ _ Hinv) as [Hb Hb']. cbn [ram ram_addr mem_stats] in *.
  pose proof (seg_total _ _ _ _ _ _ H1) as T1. pose proof (seg_total _ _ _ _ _ _ H3) as T3.
  assert (4 | p) as Hpd by (eapply seg_divide; [exact H1|apply Z.divide_0_r]).
  assert (4 | nxt) as Hnd.
  { destruct T3 as [T3 _]. replace nxt with (MEM_SIZE_ALIGNED - extent l) by lia.
    apply Z.divide_sub_r; [by exists 8101|]. by eapply seg_extent_divide. }
  destruct (inserted_seg r pm p ns nxt q l pr1) as [pr' H4]; try done; [lia|apply H2|apply H2|].
  split; [split; cbn [ram ram_addr lfree mem_stats]|split; [done|]].
  - by rewrite inserted_length.
  - done.
  - exists pr'. apply seg_app. exists pm. replace (0 + extent l1) with p by lia. split; [|done].
    eapply seg_frame, H1. intros a Ha. apply inserted_frame; lia.
  - rewrite <-He. apply inserted_frame; hconst; lia.
  - apply separated_app in Hs as [Hs _]. apply separated_app. split; [done|]. simpl.
    rewrite orb_true_r. done.
  - rewrite lowest_app. replace (0 + extent l1) with p by lia. subst lf. rewrite lowest_app.
    destruct (forallb snd l1); simpl; lia.
  - rewrite (STATS_DEC_used _ _ _ Hu), !in_use_app. simpl. f_equal. lia.
  - intros a _ Ho. cbn [ram]. apply owned_app in Ho. replace (0 + extent l1) with p in Ho by lia.
    destruct Ho as [Ho|[[_ Ho]|[[Ho _]|Ho]]]; [| |done|].
    + apply (owned_bounds _ _ _ _ _ _ _ H1) in Ho. apply inserted_frame; lia.
    + apply inserted_frame; lia.
    + replace (p + (ns + 8) + (nxt - p - ns - 8)) with nxt in Ho by lia.
      apply (owned_bounds _ _ _ _ _ _ _ H3) in Ho. apply inserted_frame; lia.
Qed.

(** The two ways the end can go. *)
Section Tail.
Context (r : list Z) (b lf : Z) (st : stats_mem) (l1 l2 : list blk) (n ns pm p pr : Z).
Hypothesis Hinv : heap_inv (Heap r b lf st) (l1 ++ (n, true) :: l2).
Hypothesis H1 : seg r 0 0 l1 pm p.
Hypothesis H2 : seg r pm p ((n, true) :: l2) pr MEM_SIZE_ALIGNED.
Hypothesis H12 : 12 ≤ ns.
Hypothesis Hd : (4 | ns).
Hypothesis Hfit : ns < n - 8.

Lemma tail_facts :
  Z.of_nat (length r) = 32420 ∧ 0 ≤ p ∧ p + n ≤ 32404 ∧ rd16 r p = p + n ∧
  lf = (if forallb snd l1 then lowest (p + n) l2 else lowest 0 l1) ∧
  seg r p (p + n) l2 pr MEM_SIZE_ALIGNED ∧ separated true l2 ∧ 4 ≤ n - 8 - ns.
Proof.
  pose proof (seg_total _ _ _ _ _ _ H1) as T1. pose proof H2 as (Hn & Hdn & En & _ & _ & H3).
  pose proof (seg_total _ _ _ _ _ _ H3) as T3. pose proof (inv_lfree _ _ Hinv) as Hlf.
  pose proof (inv_sep _ _ Hinv) as Hs. apply separated_app in Hs as [_ [_ Hs]].
  simpl in Hlf. rewrite lowest_app in Hlf. replace (0 + extent l1) with p in Hlf by lia.
  pose proof (inv_len _ _ Hinv) as Hlen. cbn [ram] in Hlen. hconst.
  assert (4 | n - 8 - ns) as [j Hj].
  { repeat (apply Z.divide_sub_r; [|done || by exists 2]). done. }
  repeat (split; [first [done|lia]|]). lia.
Qed.

Lemma trim_tail_free m l3 :
  l2 = (m, false) :: l3 →
  ∃ h', trim_tail p (n - 8) ns (Heap r b lf st) = Ok (tt, h') ∧
    becomes (Heap r b lf st) (l1 ++ (n, true) :: l2) h' (l1 ++ (ns + 8, true) :: (n - ns - 8 + m, false) :: l3).
Proof.
  intros E2. destruct tail_facts as (Hlen & Hp & Hpn & En & Elf & H3 & Hsep & Hge).
  rewrite E2 in H3, Elf, Hsep. destruct H3 as (Hm & Hdm & F1 & F2 & F3 & H3).
  destruct Hsep as [_ Hsep]. pose proof (seg_total _ _ _ _ _ _ H3) as T4. cbn [lowest] in Elf.
  unfold trim_tail. hconst. rewrite (u16_small p), (u16_small (p + 8 + ns)) by cint.
  hsteps. rewrite En. hsteps. rewrite F3. cbn [Z.b2z Z.eqb]. hsteps. rewrite F1.
  rewrite (bind_ok _ _ _ tt (Heap r b (if forallb snd l1 then p + 8 + ns else lf) st)).
  2:{ destruct (forallb snd l1) eqn:Ef; [by rewrite Elf, Z.eqb_refl|].
      pose proof (lowest_lt _ _ _ _ _ _ H1 Ef). by rewrite (proj2 (Z.eqb_neq _ _)) by lia. }
  rewrite <-bind_assoc, (insert_link r b _ st p ns (p + n + m) l3 _ _ Hlen Hp H12 ltac:(lia) H3).
  eexists. split; [done|]. replace (n - ns - 8 + m) with (p + n + m - p - ns - 8) by lia.
  apply (trim_becomes r b lf st l1 n l2 pm p pr ns _ l3 _ _ Hinv H1 H2 H3); try done; try lia.
  - by rewrite E2.
  - apply (inv_lfree _ _ Hinv).
Qed.

Lemma trim_tail_used :
  separated false l2 → rd8 r (p + n + 4) = 1 →
  ∃ h', trim_tail p (n - 8) ns (Heap r b lf st) = Ok (tt, h') ∧
    becomes (Heap r b lf st) (l1 ++ (n, true) :: l2) h'
      (l1 ++ if decide (ns + 28 ≤ n) then (ns + 8, true) :: (n - ns - 8, false) :: l2 else (n, true) :: l2).
Proof.
  intros Hsep Eu. destruct tail_facts as (Hlen & Hp & Hpn & En & Elf & H3 & _ & Hge).
  pose proof (seg_total _ _ _ _ _ _ H3) as T4. destruct (lowest_unused _ _ _ _ _ _ H3) as [Hlow _].
  unfold trim_tail. hconst. rewrite (u16_small p), (u16_small (p + 8 + ns)) by cint.
  hsteps. rewrite En. hsteps. rewrite Eu. cbn [Z.eqb].
  case_decide as Hc; [rewrite (proj2 (Z.leb_le _ _)) by lia|rewrite (proj2 (Z.leb_gt _ _)) by lia].
  2:{ eexists. split; [done|]. by apply becomes_refl. }
  hsteps. rewrite (bind_ok _ _ _ tt (Heap r b (if forallb snd l1 then p + 8 + ns else lf) st)).
  2:{ destruct (forallb snd l1) eqn:Ef; [by rewrite Elf, (proj2 (Z.ltb_lt _ _)) by lia|].
      pose proof (lowest_lt _ _ _ _ _ _ H1 Ef). by rewrite (proj2 (Z.ltb_ge _ _)) by lia. }
  hsteps. rewrite En.
  rewrite <-bind_assoc, (insert_link r b _ st p ns (p + n) l2 _ _ Hlen Hp H12 ltac:(lia) H3).
  eexists. split; [done|]. replace (n - ns - 8) with (p + n - p - ns - 8) by lia.
  apply (trim_becomes r b lf st l1 n l2 pm p pr ns _ l2 _ _ Hinv H1 H2 H3); try done; try lia.
  apply (inv_lfree _ _ Hinv).
Qed.

End Tail.

Lemma trim_tail_ok r b lf st l1 l2 n ns pm p pr :
  heap_inv (Heap r b lf st) (l1 ++ (n, true) :: l2) → seg r 0 0 l1 pm p →
  seg r pm p ((n, true) :: l2) pr MEM_SIZE_ALIGNED → 12 ≤ ns → (4 | ns) → ns < n - 8 →
  ∃ h', trim_tail p (n - 8) ns (Heap r b lf st) = Ok (tt, h') ∧
    becomes (Heap r b lf st) (l1 ++ (n, true) :: l2) h' (l1 ++ trimmed ns n l2).
Proof.
  intros Hinv H1 H2 H12 Hd Hfit.
  destruct (tail_facts r b lf st l1 l2 n ns pm p pr Hinv H1 H2 Hd Hfit)
    as (Hlen & Hp & Hpn & En & Elf & H3 & Hsep & Hge).
  unfold trimmed. rewrite decide_False by lia. destruct l2 as [|[m [|]] l3].
  - apply (trim_tail_used _ _ _ _ _ _ _ _ pm _ pr); try done.
    pose proof (inv_end _ _ Hinv) as He. destruct H3 as [_ <-]. apply He.
  - apply (trim_tail_used _ _ _ _ _ _ _ _ pm _ pr); try done. apply H3.
  - by apply (trim_tail_free _ _ _ _ _ _ _ _ pm _ pr).
Qed.

Lemma mem_trim_ok h l1 n l2 newsize :
  heap_inv h (l1 ++ (n, true) :: l2) → is_u16 newsize → request_size newsize ≤ n - 8 →
  ∃ h', mem_trim (ram_addr h + extent l1 + 8) newsize h = Ok (ram_addr h + extent l1 + 8, h') ∧
    becomes h (l1 ++ (n, true) :: l2) h' (l1 ++ trimmed (request_size newsize) n l2).
Proof.
  intros Hinv Hsz Hfit. destruct (request_size_spec newsize Hsz) as ([H12 _] & Hd & _).
  destruct h as [r b lf st]. cbn [ram_addr] in *. pose proof (inv_len _ _ Hinv) as Hlen.
  destruct (inv_seg _ _ Hinv) as [pr Hseg]. cbn [ram] in *.
  apply seg_app in Hseg as (pm & H1 & H2). rewrite Z.add_0_l in *.
  pose proof (seg_total _ _ _ _ _ _ H1) as T1. set (p := extent l1) in *. set (ns := request_size newsize) in *.
  pose proof H2 as (Hn & _ & En & _ & _ & H3). pose proof (seg_total _ _ _ _ _ _ H3) as T3.
  unfold mem_trim. fold ns. hconst. rewrite (proj2 (Z.ltb_ge _ _)) by lia. rewrite gets_step. cbn [ram_addr].
  rewrite assert_true by (apply andb_true_intro; split; [apply Z.leb_le|apply Z.ltb_lt]; lia).
  rewrite (proj2 (Z.ltb_ge _ _)), (proj2 (Z.leb_gt _ _)) by lia. cbn [orb].
  replace (b + p + 8 - b - 8) with p by lia. rewrite (u16_small p) by cint. hsteps. rewrite En.
  replace (p + n - p - 8) with (n - 8) by lia. rewrite (u16_small (n - 8)) by cint.
  rewrite assert_true by (apply Z.leb_le; lia). rewrite (proj2 (Z.ltb_ge (n - 8) ns)) by lia.
  destruct (Z.eqb_spec ns (n - 8)) as [Heq|Hne].
  { unfold trimmed. rewrite decide_True by done. eexists. split; [done|]. by apply becomes_refl. }
  destruct (trim_tail_ok r b lf st l1 l2 n ns pm p pr Hinv H1 H2 H12 Hd ltac:(lia)) as (h' & E & Hb).
  rewrite (bind_ok _ _ _ _ _ E). by exists h'.
Qed.
