(* ===== verification/HeapClaims.v ===== *)
(** * What the heap promises its clients

    A client calls [mem_malloc], [mem_free] and [mem_trim], and writes what it
    likes into the blocks it holds.  [client] collects the heaps it can bring
    about, with the blocks it then holds; the theorems are about all of
    them. *)

From S2P Require Import Prelude LwipBase Heap HeapInv HeapFree HeapTrim.
From Stdlib Require Import ZArith Lia.
From stdpp Require Import base numbers list gmap.
Open Scope Z_scope.

(** ** Blocks in use *)

(** Start and length of the blocks in use. *)
Fixpoint used_at (p : Z) (l : list blk) : list (Z * Z) :=
  match l with
  | [] => []
  | (n, u) :: l => (if u then [(p, n)] else []) ++ used_at (p + n) l
  end.

Lemma used_at_app p l k : used_at p (l ++ k) = used_at p l ++ used_at (p + extent l) k.
Proof.
  revert p. induction l as [|[n u] l IH]; intros p; simpl; [by rewrite Z.add_0_r|].
  by rewrite IH, app_assoc, Z.add_assoc.
Qed.
Lemma used_at_coalesce p l : used_at p (coalesce l) = used_at p l.
Proof.
  revert p. induction l as [|[n u] l IH]; intros p; [done|]. cbn [coalesce used_at]. rewrite <-IH.
  destruct (coalesce l) as [|[m [|]] l']; destruct u; simpl; try done. by rewrite Z.add_assoc.
Qed.
Lemma used_at_carve p size n :
  used_at p (carve size n) = [(p, if decide (size + 28 ≤ n) then size + 8 else n)].
Proof. unfold carve. by case_decide. Qed.

Lemma used_at_split p l q n :
  (q, n) ∈ used_at p l ↔ ∃ l1 l2, l = l1 ++ (n, true) :: l2 ∧ q = p + extent l1.
Proof.
  revert p. induction l as [|[m u] l IH]; intros p; simpl.
  - split; [by intros ?%elem_of_nil|]. by intros ([|[]] & ? & ? & _).
  - rewrite elem_of_app, IH. split.
    + intros [H|(l1 & l2 & -> & ->)].
      * destruct u; [|by apply elem_of_nil in H]. apply list_elem_of_singleton in H as [= -> ->].
        exists [], l. split; [done|]. simpl. lia.
      * exists ((m, u) :: l1), l2. split; [done|]. simpl. lia.
    + intros ([|[m' u'] l1] & l2 & E & ->); injection E as -> -> ->.
      * left. apply list_elem_of_singleton. f_equal. simpl. lia.
      * right. exists l1, l2. split; [done|]. simpl. lia.
Qed.

Lemma used_at_bounds r pr p l pr' p' q n :
  seg r pr p l pr' p' → (q, n) ∈ used_at p l → p ≤ q ∧ 20 ≤ n ∧ q + n ≤ p'.
Proof.
  intros H (l1 & l2 & -> & ->)%used_at_split. apply seg_app in H as (pm & H1 & H2).
  pose proof (seg_total _ _ _ _ _ _ H1). pose proof (seg_total _ _ _ _ _ _ H2) as T2.
  destruct H2 as (Hn & _ & _ & _ & _ & H2). apply seg_total in H2. lia.
Qed.

(** Blocks in use do not overlap. *)
Lemma used_at_disjoint r pr p l pr' p' q n q' n' :
  seg r pr p l pr' p' → (q, n) ∈ used_at p l → (q', n') ∈ used_at p l →
  (q = q' ∧ n = n') ∨ q + n ≤ q' ∨ q' + n' ≤ q.
Proof.
  revert pr p. induction l as [|[m u] l IH]; intros pr p; simpl; [by intros _ ?%elem_of_nil|].
  intros (Hm & _ & _ & _ & _ & H) Hq Hq'. rewrite elem_of_app in Hq, Hq'.
  assert (∀ x y, (x, y) ∈ (if u then [(p, m)] else []) → x = p ∧ y = m) as Hhd.
  { intros x y Hx. destruct u; [|by apply elem_of_nil in Hx].
    apply list_elem_of_singleton in Hx. by injection Hx as -> ->. }
  destruct Hq as [Hq|Hq], Hq' as [Hq'|Hq'].
  - apply Hhd in Hq as [-> ->], Hq' as [-> ->]. by left.
  - apply Hhd in Hq as [-> ->]. apply (used_at_bounds _ _ _ _ _ _ _ _ H) in Hq'. lia.
  - apply Hhd in Hq' as [-> ->]. apply (used_at_bounds _ _ _ _ _ _ _ _ H) in Hq. lia.
  - by apply (IH _ _ H).
Qed.

Lemma owned_used p l a : owned p l a ↔ ∃ q n, (q, n) ∈ used_at p l ∧ q + 8 ≤ a < q + n.
Proof.
  revert p. induction l as [|[m u] l IH]; intros p; simpl.
  - split; [done|]. by intros (q & n & ?%elem_of_nil & _).
  - rewrite IH. split.
    + intros [[-> Ha]|(q & n & Hq & Ha)]; [exists p, m; split; [by left|done]|].
      exists q, n. split; [|done]. apply elem_of_app. by right.
    + intros (q & n & [Hq|Hq]%elem_of_app & Ha); [|right; by exists q, n].
      destruct u; [|by apply elem_of_nil in Hq]. left. split; [done|].
      apply list_elem_of_singleton in Hq. by injection Hq as -> ->.
Qed.

Lemma alloc_split size p l q l' :
  alloc size p l = Some (q, l') →
  ∃ l1 n l2, l = l1 ++ (n, false) :: l2 ∧ q = p + extent l1 ∧ l' = l1 ++ carve size n ++ l2 ∧ size + 8 ≤ n.
Proof.
  revert p l'. induction l as [|[n u] l IH]; intros p l'; simpl; [done|].
  destruct (negb u && (size + 8 <=? n)) eqn:E.
  - intros [= <- <-]. apply andb_prop in E as [Hu Hn%Z.leb_le]. destruct u; [done|].
    exists [], n, l. repeat (split; [done|]). simpl. split; [lia|]. by split.
  - destruct (alloc size (p + n) l) as [[q0 l0]|] eqn:Ea; [|done]. intros [= <- <-].
    destruct (IH _ _ Ea) as (l1 & m & l2 & -> & -> & -> & Hm).
    exists ((n, u) :: l1), m, l2. simpl. split; [done|]. split; [lia|]. by split.
Qed.

(** ** Clients

    [live] maps the address of every block the client holds to the number of
    octets it may use. *)

Definition tracks (base : Z) (bs : list blk) (live : gmap Z Z) : Prop :=
  (∀ a s, live !! a = Some s → ∃ q n, (q, n) ∈ used_at 0 bs ∧ a = base + q + 8 ∧ 0 ≤ s ≤ n - 8) ∧
  (∀ q n, (q, n) ∈ used_at 0 bs → is_Some (live !! (base + q + 8))).

(** [x] is an offset in the heap that belongs to a block of the client. *)
Definition writable (base : Z) (live : gmap Z Z) (x : Z) : Prop :=
  ∃ a s, live !! a = Some s ∧ a ≤ base + x < a + s.

Inductive client : heap → gmap Z Z → Prop :=
  | client_init ram_heap octets stats h :
     0 < ram_heap → ram_heap + RAM_LEN + 3 < 2 ^ 32 →
     Z.of_nat (length octets) = RAM_LEN → st_used stats = 0 →
     mem_init ram_heap octets stats tt = Ok (h, tt) →
     client h ∅
  | client_malloc h live size a h' :
     client h live → is_u16 size → mem_malloc size h = Ok (a, h') → a ≠ 0 →
     client h' (<[a := request_size size]> live)
  | client_refused h live size h' :
     client h live → is_u16 size → mem_malloc size h = Ok (0, h') → client h' live
  | client_free h live a s h' :
     client h live → live !! a = Some s → mem_free a h = Ok (tt, h') → client h' (delete a live)
  | client_trim h live a s newsize b h' :
     client h live → live !! a = Some s → is_u16 newsize → request_size newsize ≤ s →
     mem_trim a newsize h = Ok (b, h') → client h' (<[a := request_size newsize]> live)
  | client_write h live r' :
     client h live → length r' = length (ram h) →
     (∀ x, 0 ≤ x → ¬ writable (ram_addr h) live x → rd8 r' x = rd8 (ram h) x) →
     client (set_ram r' h) live.

(** ** The invariant of clients *)

Lemma mem_init_ok ram_heap octets stats :
  0 < ram_heap → ram_heap + RAM_LEN + 3 < 2 ^ 32 →
  Z.of_nat (length octets) = RAM_LEN → st_used stats = 0 →
  ∃ h, mem_init ram_heap octets stats tt = Ok (h, tt) ∧ heap_inv h [(MEM_SIZE_ALIGNED, false)].
Proof.
  intros Ha Hb Hlen Hst. hconst. unfold mem_init. hconst. rewrite assert_true by done. hsteps.
  eexists. split; [done|]. pose proof (align_size_bounds ram_heap) as Hal.
  assert (LWIP_MEM_ALIGN ram_heap = LWIP_MEM_ALIGN_SIZE ram_heap) as El.
  { unfold LWIP_MEM_ALIGN. fold (LWIP_MEM_ALIGN_SIZE ram_heap). apply u32_small. cint. }
  split; cbn [ram ram_addr lfree mem_stats on_stats set_lfree]; hconst.
  - by lens.
  - rewrite El. split; [apply align_size_divides|lia].
  - change (u16 32404) with 32404. change (u16 0) with 0. change (u8 0) with 0. change (u8 1) with 1.
    exists 0. cbn [seg]. split; [lia|]. split; [by exists 8101|]. rd.
    repeat (split; [done|]). simpl. lia.
  - change (u8 1) with 1. by rd.
  - done.
  - done.
  - simpl. by rewrite Hst.
Qed.

Lemma tracks_live base bs live q n s :
  tracks base bs live → (q, n) ∈ used_at 0 bs → live !! (base + q + 8) = Some s →
  ∀ r pr pr' p', seg r pr 0 bs pr' p' → 0 ≤ s ≤ n - 8.
Proof.
  intros [H1 _] Hq Hs r pr pr' p' Hseg. destruct (H1 _ _ Hs) as (q' & n' & Hq' & E & Hb).
  destruct (used_at_disjoint _ _ _ _ _ _ _ _ _ _ Hseg Hq Hq') as [[_ ->]|Hd]; [done|].
  pose proof (used_at_bounds _ _ _ _ _ _ _ _ Hseg Hq). pose proof (used_at_bounds _ _ _ _ _ _ _ _ Hseg Hq'). lia.
Qed.

(** Blocks in use other than one, before and after it changed. *)
Lemma tracks_insert base bs bs' live q c s :
  (∀ x y, (x, y) ∈ used_at 0 bs' ↔ (x = q ∧ y = c) ∨ (x ≠ q ∧ (x, y) ∈ used_at 0 bs)) →
  0 ≤ s ≤ c - 8 → tracks base bs live → tracks base bs' (<[base + q + 8 := s]> live).
Proof.
  intros Hbs Hs [H1 H2]. split.
  - intros a t [[<- <-]|[Hne Ht]]%lookup_insert_Some.
    + exists q, c. split; [apply Hbs; by left|]. by split.
    + destruct (H1 _ _ Ht) as (x & y & Hx & -> & Hb). exists x, y. split; [|by split].
      apply Hbs. right. split; [|done]. intros ->. done.
  - intros x y [[-> ->]|[Hne Hx]]%Hbs; [by rewrite lookup_insert_eq|].
    rewrite lookup_insert_ne by lia. by eapply H2.
Qed.
Lemma tracks_delete base bs bs' live q :
  (∀ x y, (x, y) ∈ used_at 0 bs' ↔ x ≠ q ∧ (x, y) ∈ used_at 0 bs) →
  tracks base bs live → tracks base bs' (delete (base + q + 8) live).
Proof.
  intros Hbs [H1 H2]. split.
  - intros a t [Hne Ht]%lookup_delete_Some. destruct (H1 _ _ Ht) as (x & y & Hx & -> & Hb).
    exists x, y. split; [|by split]. apply Hbs. split; [|done]. intros ->. done.
  - intros x y [Hne Hx]%Hbs. rewrite lookup_delete_ne by lia. by eapply H2.
Qed.

(** The block of length [n] at [extent l1], and the others. *)
Lemma used_others r pr pr' p' l1 n l2 x y :
  seg r pr 0 (l1 ++ (n, true) :: l2) pr' p' →
  x ≠ extent l1 ∧ (x, y) ∈ used_at 0 (l1 ++ (n, true) :: l2)
  ↔ (x, y) ∈ used_at 0 l1 ++ used_at (extent l1 + n) l2.
Proof.
  intros H. rewrite used_at_app, Z.add_0_l. simpl. rewrite !elem_of_app, elem_of_cons.
  apply seg_app in H as (pm & H1 & Hn & _ & _ & _ & _ & H2). rewrite Z.add_0_l in *. split.
  - intros [Hne [H|[[= -> ->]|H]]]; [by left|done|by right].
  - intros [H|H]; (split; [|tauto]).
    + apply (used_at_bounds _ _ _ _ _ _ _ _ H1) in H. lia.
    + apply (used_at_bounds _ _ _ _ _ _ _ _ H2) in H. lia.
Qed.

Lemma used_at_trimmed p ns n l2 :
  ns ≤ n - 8 → ∃ c, ns + 8 ≤ c ≤ n ∧ used_at p (trimmed ns n l2) = (p, c) :: used_at (p + n) l2.
Proof.
  intros Hns. unfold trimmed. case_decide; [exists n; split; [lia|done]|].
  destruct l2 as [|[m [|]] l2].
  - case_decide; [exists (ns + 8)|exists n]; split; try lia; done.
  - case_decide; [exists (ns + 8)|exists n]; (split; [lia|]); [|done].
    simpl. replace (p + (ns + 8) + (n - ns - 8)) with (p + n) by lia. done.
  - exists (ns + 8). split; [lia|]. simpl.
    by replace (p + (ns + 8) + (n - ns - 8 + m)) with (p + n + m) by lia.
Qed.

(** A call leaves the octets of the blocks held before and after alone. *)
Definition keeps (h h' : heap) (live live' : gmap Z Z) : Prop :=
  ram_addr h' = ram_addr h ∧
  ∀ x, writable (ram_addr h) live x → writable (ram_addr h) live' x → rd8 (ram h') x = rd8 (ram h) x.

Lemma tracks_owned base bs live x : tracks base bs live → writable base live x → owned 0 bs x.
Proof.
  intros [H _] (a & s & Ha & Hx). destruct (H _ _ Ha) as (q & n & Hq & -> & Hs).
  apply owned_used. exists q, n. split; [done|lia].
Qed.
Lemma becomes_keeps h bs h' bs' live live' :
  becomes h bs h' bs' → tracks (ram_addr h) bs live → tracks (ram_addr h) bs' live' → keeps h h' live live'.
Proof.
  intros (_ & E & H) Ht Ht'. split; [done|]. intros x Hx Hx'. apply H; by eapply tracks_owned.
Qed.

Lemma seg_write r r' pr p l pr' p' :
  seg r pr p l pr' p' → (∀ x, p ≤ x < p' → ¬ owned p l x → rd8 r' x = rd8 r x) → seg r' pr p l pr' p'.
Proof.
  revert pr p. induction l as [|[n u] l IH]; intros pr p; [done|].
  intros (Hn & Hd & E1 & E2 & E3 & H) Hw. pose proof (seg_total _ _ _ _ _ _ H) as T.
  assert (∀ x, p ≤ x < p + 8 → rd8 r' x = rd8 r x) as Hhd.
  { intros x Hx. apply Hw; [lia|]. intros [[_ Ho]|Ho]; [lia|].
    apply (owned_bounds _ _ _ _ _ _ _ H) in Ho. lia. }
  unfold rd16 in *. cbn [seg]. unfold rd16. rewrite !Hhd by lia. repeat (split; [done|]).
  apply IH; [done|]. intros x Hx Ho. apply Hw; [lia|]. intros [[_ ?]|?]; [lia|done].
Qed.

Section Calls.
Context (h : heap) (bs : list blk) (live : gmap Z Z).
Hypothesis Hinv : heap_inv h bs.
Hypothesis Htr : tracks (ram_addr h) bs live.

Lemma malloc_call size :
  is_u16 size → ∃ a h' bs', mem_malloc size h = Ok (a, h') ∧ heap_inv h' bs' ∧
    ∃ live', tracks (ram_addr h') bs' live' ∧ keeps h h' live live' ∧
      ((a = 0 ∧ live' = live) ∨ (a ≠ 0 ∧ live !! a = None ∧ live' = <[a := request_size size]> live)).
Proof.
  intros Hs. destruct (decide (size = 0)) as [->|Hnz].
  { exists 0, h, bs. split; [done|]. split; [done|]. exists live. split; [done|].
    split; [by split|by left]. }
  destruct (request_size_spec size Hs) as ([H12 _] & _ & _).
  pose proof (mem_malloc_ok h bs size Hinv Hs Hnz) as H.
  destruct (alloc (request_size size) 0 bs) as [[q bs']|] eqn:Ea.
  2:{ destruct H as (h' & E & Hb). exists 0, h', bs. pose proof Hb as (Hi & Ha & _).
      split; [done|]. split; [done|]. exists live. rewrite Ha. split; [done|].
      split; [by eapply becomes_keeps|by left]. }
  destruct H as (h' & E & Hb). pose proof Hb as (Hi & Ha & _). pose proof (inv_addr _ _ Hinv) as (_ & Hb0 & _).
  apply alloc_split in Ea as (l1 & n & l2 & -> & -> & -> & Hn). rewrite Z.add_0_l in *.
  destruct (inv_seg _ _ Hinv) as [pr Hseg]. apply seg_app in Hseg as (pm & H1 & H2). rewrite Z.add_0_l in *.
  pose proof (seg_total _ _ _ _ _ _ H1) as T1. destruct H2 as (Hn20 & _ & _ & _ & _ & H2).
  assert (∀ x y, (x, y) ∈ used_at 0 (l1 ++ (n, false) :: l2) → x ≠ extent l1) as Hfree.
  { intros x y Hx. rewrite used_at_app in Hx. simpl in Hx. rewrite Z.add_0_l in Hx.
    apply elem_of_app in Hx as [Hx|Hx].
    - apply (used_at_bounds _ _ _ _ _ _ _ _ H1) in Hx. lia.
    - apply (used_at_bounds _ _ _ _ _ _ _ _ H2) in Hx. lia. }
  assert (tracks (ram_addr h) (l1 ++ carve (request_size size) n ++ l2)
            (<[ram_addr h + extent l1 + 8 := request_size size]> live)) as Htr'.
  { eapply tracks_insert; [|split; [lia|]|exact Htr].
    - intros x y. rewrite !used_at_app, used_at_carve, extent_carve, !elem_of_app, list_elem_of_singleton.
      simpl. rewrite Z.add_0_l. split.
      + intros [Hx|[[= -> ->]|Hx]]; [right|by left|right]; (split; [|tauto]);
          apply (Hfree x y); rewrite used_at_app, elem_of_app; simpl; rewrite Z.add_0_l; tauto.
      + intros [[-> ->]|[_ [Hx|Hx]]]; tauto.
    - case_decide; lia. }
  eexists _, h', _. split; [exact E|]. split; [exact Hi|]. eexists. rewrite Ha. split; [exact Htr'|].
  split; [by eapply becomes_keeps|]. right. split; [lia|]. split; [|done].
  destruct (live !! (ram_addr h + extent l1 + 8)) as [s|] eqn:El; [|done].
  destruct (proj1 Htr _ _ El) as (q & m & Hq & Eq & _). destruct (Hfree _ _ Hq). lia.
Qed.
(** A block the client holds, in the list. *)
Lemma live_block a s :
  live !! a = Some s →
  ∃ l1 n l2, bs = l1 ++ (n, true) :: l2 ∧ a = ram_addr h + extent l1 + 8 ∧ 0 ≤ s ≤ n - 8.
Proof.
  intros Hs. destruct (proj1 Htr _ _ Hs) as (q & n & Hq & -> & Hb).
  apply used_at_split in Hq as (l1 & l2 & E & ->). exists l1, n, l2. by rewrite Z.add_0_l.
Qed.

Lemma free_call a s :
  live !! a = Some s → ∃ h' bs', mem_free a h = Ok (tt, h') ∧ heap_inv h' bs' ∧
    tracks (ram_addr h') bs' (delete a live) ∧ keeps h h' live (delete a live).
Proof.
  intros Hs. destruct (live_block a s Hs) as (l1 & n & l2 & E & -> & _).
  pose proof Hinv as Hinv'. rewrite E in Hinv'.
  destruct (mem_free_ok h l1 n l2 Hinv') as (h' & Ef & Hb). pose proof Hb as (Hi & Ha & _).
  destruct (inv_seg _ _ Hinv') as [pr Hseg].
  assert (tracks (ram_addr h) (release (extent l1) (l1 ++ (n, true) :: l2))
            (delete (ram_addr h + extent l1 + 8) live)) as Htr'.
  { eapply tracks_delete, Htr. intros x y. rewrite E, (used_others _ _ _ _ _ _ _ _ _ Hseg).
    unfold release. rewrite used_at_coalesce. rewrite <-(Z.add_0_l (extent l1)) at 1.
    rewrite unmark_at, used_at_app; [done|]. intros z Hz.
    apply seg_app in Hseg as (pm & Hseg & _). by apply (seg_pos _ _ _ _ _ _ _ Hseg). }
  eexists h', _. split; [done|]. split; [exact Hi|]. rewrite Ha. split; [done|].
  eapply becomes_keeps; [exact Hb|by rewrite <-E|exact Htr'].
Qed.

Lemma trim_call a s newsize :
  live !! a = Some s → is_u16 newsize → request_size newsize ≤ s →
  ∃ h' bs', mem_trim a newsize h = Ok (a, h') ∧ heap_inv h' bs' ∧
    tracks (ram_addr h') bs' (<[a := request_size newsize]> live) ∧
    keeps h h' live (<[a := request_size newsize]> live).
Proof.
  intros Hs Hsz Hle. destruct (live_block a s Hs) as (l1 & n & l2 & E & -> & Hn).
  pose proof Hinv as Hinv'. rewrite E in Hinv'. destruct (request_size_spec newsize Hsz) as ([H12 _] & _ & _).
  destruct (mem_trim_ok h l1 n l2 newsize Hinv' Hsz ltac:(lia)) as (h' & Ef & Hb).
  pose proof Hb as (Hi & Ha & _). destruct (inv_seg _ _ Hinv') as [pr Hseg].
  assert (tracks (ram_addr h) (l1 ++ trimmed (request_size newsize) n l2)
            (<[ram_addr h + extent l1 + 8 := request_size newsize]> live)) as Htr'.
  { destruct (used_at_trimmed (extent l1) (request_size newsize) n l2 ltac:(lia)) as (c & Hc & Eu).
    eapply tracks_insert; [|split; [lia|]|exact Htr].
    - intros x y. rewrite E, (used_others _ _ _ _ _ _ _ _ _ Hseg), used_at_app, Z.add_0_l, Eu.
      rewrite !elem_of_app, elem_of_cons. split.
      + intros [Hx|[[= -> ->]|Hx]]; tauto.
      + intros [[-> ->]|[Hx|Hx]]; tauto.
    - lia. }
  eexists h', _. split; [done|]. split; [exact Hi|]. rewrite Ha. split; [done|].
  eapply becomes_keeps; [exact Hb|by rewrite <-E|exact Htr'].
Qed.

(** Writing into one's own blocks does not touch the structures. *)
Lemma write_call r' :
  length r' = length (ram h) →
  (∀ x, 0 ≤ x → ¬ writable (ram_addr h) live x → rd8 r' x = rd8 (ram h) x) →
  heap_inv (set_ram r' h) bs.
Proof.
  intros Hlen Hw. assert (∀ x, 0 ≤ x → ¬ owned 0 bs x → rd8 r' x = rd8 (ram h) x) as Hw'.
  { intros x Hx Ho. apply Hw; [done|]. intros Hx'. apply Ho. by eapply tracks_owned. }
  clear Hw Htr. destruct Hinv as [Hl Ha [pr Hseg] He Hsep Hlf Hu].
  split; cbn [ram ram_addr lfree mem_stats set_ram]; try done.
  - by rewrite Hlen.
  - exists pr. eapply seg_write; [done|]. intros x Hx. apply Hw'. lia.
  - rewrite <-He. apply Hw'; [by hconst|]. intros Ho.
    apply (owned_bounds _ _ _ _ _ _ _ Hseg) in Ho. lia.
Qed.
End Calls.

Lemma client_inv h live : client h live → ∃ bs, heap_inv h bs ∧ tracks (ram_addr h) bs live.
Proof.
  induction 1 as [ram_heap octets stats h Ha Hb Hl Hs E|h live size a h' _ (bs & Hi & Ht) Hs E Hne
    |h live size h' _ (bs & Hi & Ht) Hs E|h live a s h' _ (bs & Hi & Ht) Hs E
    |h live a s newsize b h' _ (bs & Hi & Ht) Hs Hsz Hle E|h live r' _ (bs & Hi & Ht) Hl Hw].
  - destruct (mem_init_ok ram_heap octets stats Ha Hb Hl Hs) as (h0 & E0 & Hi).
    rewrite E0 in E. injection E as ->. exists [(MEM_SIZE_ALIGNED, false)]. split; [done|].
    split; [by intros a s ?%lookup_empty_Some|]. by intros q n ?%elem_of_nil.
  - destruct (malloc_call h bs live Hi Ht size Hs) as (a0 & h0 & bs' & E0 & Hi' & live' & Ht' & _ & Hc).
    rewrite E0 in E. injection E as -> ->. exists bs'. split; [done|].
    destruct Hc as [[? _]|(_ & _ & <-)]; done.
  - destruct (malloc_call h bs live Hi Ht size Hs) as (a0 & h0 & bs' & E0 & Hi' & live' & Ht' & _ & Hc).
    rewrite E0 in E. injection E as -> ->. exists bs'. split; [done|].
    destruct Hc as [[_ <-]|(? & _)]; done.
  - destruct (free_call h bs live Hi Ht a s Hs) as (h0 & bs' & E0 & Hi' & Ht' & _).
    rewrite E0 in E. injection E as ->. by exists bs'.
  - destruct (trim_call h bs live Hi Ht a s newsize Hs Hsz Hle) as (h0 & bs' & E0 & Hi' & Ht' & _).
    rewrite E0 in E. injection E as -> ->. by exists bs'.
  - exists bs. split; [by eapply write_call|done].
Qed.

(** A heap without blocks in use is one block. *)
Lemma all_unused r pr bs pr' :
  seg r pr 0 bs pr' MEM_SIZE_ALIGNED → separated true bs → (∀ q n, (q, n) ∉ used_at 0 bs) →
  bs = [(MEM_SIZE_ALIGNED, false)].
Proof.
  intros H Hs Hu. pose proof (seg_total _ _ _ _ _ _ H) as T. destruct bs as [|[n [|]] bs].
  - simpl in T. hconst. lia.
  - destruct (Hu 0 n). by left.
  - destruct bs as [|[m [|]] bs].
    + simpl in T. do 2 f_equal. lia.
    + destruct (Hu n m). simpl. by left.
    + destruct Hs as (_ & ? & _). done.
Qed.

(** ** Claims *)

(** Where the blocks a client holds lie. *)
Lemma held_block h bs live a s :
  heap_inv h bs → tracks (ram_addr h) bs live → live !! a = Some s →
  (4 | a) ∧ ram_addr h + 8 ≤ a ∧ a + s ≤ ram_addr h + MEM_SIZE_ALIGNED.
Proof.
  intros Hi Ht Hs. destruct (inv_seg _ _ Hi) as [pr Hseg]. destruct (proj1 Ht _ _ Hs) as (q & n & Hq & -> & Hb).
  pose proof (used_at_bounds _ _ _ _ _ _ _ _ Hseg Hq). split; [|lia].
  apply used_at_split in Hq as (l1 & l2 & -> & ->). apply seg_app in Hseg as (pm & H1 & _).
  apply Z.divide_add_r; [|by exists 2]. apply Z.divide_add_r; [apply (inv_addr _ _ Hi)|].
  eapply seg_divide; [exact H1|apply Z.divide_0_r].
Qed.
Lemma held_apart h bs live a s b t :
  heap_inv h bs → tracks (ram_addr h) bs live → live !! a = Some s → live !! b = Some t → a ≠ b →
  a + s ≤ b ∨ b + t ≤ a.
Proof.
  intros Hi Ht Hs Hs' Hne. destruct (inv_seg _ _ Hi) as [pr Hseg].
  destruct (proj1 Ht _ _ Hs) as (q & n & Hq & -> & Hb). destruct (proj1 Ht _ _ Hs') as (q' & n' & Hq' & -> & Hb').
  destruct (used_at_disjoint _ _ _ _ _ _ _ _ _ _ Hseg Hq Hq') as [[-> _]|?]; [done|lia].
Qed.

(** C17.  Memory safety of the heap.  Whatever a client asks for, gives back,
    shrinks and writes into the blocks it holds: these blocks are aligned, lie
    in the heap and do not overlap; and once it holds none, the heap is the
    single unused block it was at the start. *)
Theorem heap_blocks_safe h live :
  client h live →
  (∀ a s, live !! a = Some s → (4 | a) ∧ ram_addr h + 8 ≤ a ∧ a + s ≤ ram_addr h + MEM_SIZE_ALIGNED) ∧
  (∀ a s b t, live !! a = Some s → live !! b = Some t → a ≠ b → a + s ≤ b ∨ b + t ≤ a) ∧
  (live = ∅ → heap_inv h [(MEM_SIZE_ALIGNED, false)]).
Proof.
  intros (bs & Hi & Ht)%client_inv. destruct (inv_seg _ _ Hi) as [pr Hseg]. split; [|split].
  - intros a s. by apply (held_block h bs).
  - intros a s b t. by apply (held_apart h bs).
  - intros ->. replace [(MEM_SIZE_ALIGNED, false)] with bs; [done|].
    apply (all_unused _ _ _ _ Hseg (inv_sep _ _ Hi)).
    intros q n Hq. destruct (proj2 Ht _ _ Hq) as [s Hs]. by rewrite lookup_empty in Hs.
Qed.

(** A heap as after start-up, and after a first request. *)
Definition boot_heap : heap :=
  match fresh_heap with Ok (h, _) => h | _ => Heap [] 0 0 no_stats end.
Definition first_heap : heap :=
  match mem_malloc 100 boot_heap with Ok (_, h) => h | _ => boot_heap end.

Lemma boot_client : client boot_heap ∅.
Proof.
  apply (client_init 0x2007C001 (replicate (Z.to_nat RAM_LEN) 0) no_stats);
    [done|done|by rewrite length_replicate, Z2Nat.id by done|done|].
  vm_cast_no_check (eq_refl (@Ok (heap * unit) (boot_heap, tt))).
Qed.
Lemma first_client : client first_heap {[0x2007C00C := 100]}.
Proof.
  change {[0x2007C00C := 100]} with (<[0x2007C00C := request_size 100]> ∅ : gmap Z Z).
  apply (client_malloc boot_heap ∅ 100); [apply boot_client|done| |done].
  vm_cast_no_check (eq_refl (@Ok (Z * heap) (0x2007C00C, first_heap))).
Qed.

Lemma heap_blocks_safe_witness :
  (4 | 0x2007C00C) ∧ ram_addr first_heap + 8 ≤ 0x2007C00C ∧
  0x2007C00C + 100 ≤ ram_addr first_heap + MEM_SIZE_ALIGNED.
Proof.
  apply (proj1 (heap_blocks_safe first_heap {[0x2007C00C := 100]} first_client) 0x2007C00C 100).
  apply lookup_singleton_eq.
Defined.

(** The heap never fails its client.  [mem_malloc] returns for every
    size, with a block that was not in use or with none; [mem_free] and
    [mem_trim] return for every block the client holds.  None of them trips an
    assertion or strays from the heap, and none changes an octet of a block
    that is held before and after. *)
Theorem heap_calls_return h live :
  client h live →
  (∀ size, is_u16 size → ∃ a h', mem_malloc size h = Ok (a, h') ∧
     ((a = 0 ∧ keeps h h' live live) ∨
      (live !! a = None ∧ keeps h h' live (<[a := request_size size]> live)))) ∧
  (∀ a s, live !! a = Some s → ∃ h', mem_free a h = Ok (tt, h') ∧ keeps h h' live (delete a live)) ∧
  (∀ a s newsize, live !! a = Some s → is_u16 newsize → request_size newsize ≤ s →
     ∃ h', mem_trim a newsize h = Ok (a, h') ∧ keeps h h' live (<[a := request_size newsize]> live)).
Proof.
  intros (bs & Hi & Ht)%client_inv. split; [|split].
  - intros size Hs. destruct (malloc_call h bs live Hi Ht size Hs) as (a & h' & bs' & E & _ & live' & _ & Hk & Hc).
    exists a, h'. split; [done|]. destruct Hc as [[-> ->]|(_ & Hn & ->)]; [by left|by right].
  - intros a s Hs. destruct (free_call h bs live Hi Ht a s Hs) as (h' & bs' & E & _ & _ & Hk). by exists h'.
  - intros a s ns Hs Hsz Hle.
    destruct (trim_call h bs live Hi Ht a s ns Hs Hsz Hle) as (h' & bs' & E & _ & _ & Hk). by exists h'.
Qed.

Lemma heap_calls_return_witness :
  ∃ h', mem_free 0x2007C00C first_heap = Ok (tt, h') ∧
        keeps first_heap h' {[0x2007C00C := 100]} (delete 0x2007C00C {[0x2007C00C := 100]}).
Proof.
  apply (proj1 (proj2 (heap_calls_return first_heap {[0x2007C00C := 100]} first_client)) 0x2007C00C 100).
  apply lookup_singleton_eq.
Defined.

(** [mem_malloc] is first fit.  On a well-formed heap it takes the lowest
    unused block that is long enough, splits it when the rest can hold a block
    of its own, and answers NULL exactly when there is none; the request is
    rounded up to a multiple of four of at least twelve, unless it exceeds
    65532, in which case the rounding wraps around and the smallest block is
    handed out. *)
Theorem mem_malloc_first_fit h bs size :
  heap_inv h bs → is_u16 size → size ≠ 0 →
  match alloc (request_size size) 0 bs with
  | Some (q, bs') => ∃ h', mem_malloc size h = Ok (ram_addr h + q + 8, h') ∧ becomes h bs h' bs'
  | None => ∃ h', mem_malloc size h = Ok (0, h') ∧ becomes h bs h' bs
  end ∧
  (size ≤ 65532 → size ≤ request_size size ≤ size + 12) ∧
  (65532 < size → request_size size = 12).
Proof.
  intros Hi Hs Hnz. split; [by apply mem_malloc_ok|]. split; [by apply request_size_spec|].
  intros Hb. unfold request_size. hconst. rewrite align_size_value.
  replace (4 * ((size + 3) / 4)) with 65536 by cint. done.
Qed.

Lemma boot_inv : heap_inv boot_heap [(MEM_SIZE_ALIGNED, false)].
Proof.
  destruct (client_inv _ _ boot_client) as (bs & Hi & Ht). destruct (inv_seg _ _ Hi) as [pr Hseg].
  replace [(MEM_SIZE_ALIGNED, false)] with bs; [done|].
  apply (all_unused _ _ _ _ Hseg (inv_sep _ _ Hi)).
  intros q n Hq. destruct (proj2 Ht _ _ Hq) as [s Hs]. by rewrite lookup_empty in Hs.
Qed.

Lemma mem_malloc_first_fit_witness :
  ∃ h', mem_malloc 65535 boot_heap = Ok (ram_addr boot_heap + 0 + 8, h') ∧
        becomes boot_heap [(MEM_SIZE_ALIGNED, false)] h' [(20, true); (MEM_SIZE_ALIGNED - 12 - 8, false)].
Proof.
  assert (is_u16 65535) as Hs by by cbv. assert (65535 ≠ 0) as Hnz by done.
  exact (proj1 (mem_malloc_first_fit boot_heap [(MEM_SIZE_ALIGNED, false)] 65535 boot_inv Hs Hnz)).
Defined.
