(* ===== verification/Memp.v ===== *)
(** * Memory pools ([src/lwip/core/memp.c])

    Every kind of control block has a pool of elements of fixed size.  The
    unused elements of a pool form a list linked through their first word,
    which the client overwrites as long as it holds the element.  Elements are
    addresses; [memp_next] is the first word of each. *)

From S2P Require Import Prelude LwipBase.
From Stdlib Require Import ZArith Lia.
From stdpp Require Import base numbers list gmap.
Open Scope Z_scope.

(** ** The pools ([memp_std.h] with the options of [lwipopts.h]) *)

Definition MEMP_RAW_PCB : Z := 0.
Definition MEMP_UDP_PCB : Z := 1.
Definition MEMP_TCP_PCB : Z := 2.
Definition MEMP_TCP_PCB_LISTEN : Z := 3.
Definition MEMP_TCP_SEG : Z := 4.
Definition MEMP_REASSDATA : Z := 5.
Definition MEMP_SYS_TIMEOUT : Z := 6.
Definition MEMP_PBUF : Z := 7.
Definition MEMP_PBUF_POOL : Z := 8.
Definition MEMP_MAX : Z := 9.

Definition SIZEOF_STRUCT_PBUF : Z := LWIP_MEM_ALIGN_SIZE 16.
Definition PBUF_LINK_HLEN : Z := 14.
Definition PBUF_POOL_BUFSIZE : Z := LWIP_MEM_ALIGN_SIZE (1460 + 40 + PBUF_LINK_HLEN).

(** Number of elements and their sizes; the sizes of the structures are those
    of the 32-bit ABI. *)
Definition memp_num : list Z := [4; 4; 5; 8; 16; 5; 300; 16; 10].
Definition memp_sizes : list Z :=
  map LWIP_MEM_ALIGN_SIZE
    [28; 32; 164; 32; 20; 32; 16;
     SIZEOF_STRUCT_PBUF + LWIP_MEM_ALIGN_SIZE 0;
     SIZEOF_STRUCT_PBUF + LWIP_MEM_ALIGN_SIZE PBUF_POOL_BUFSIZE].

(** ** State *)

Record memp_state := Memp {
  memp_tab : list Z;
  memp_next : gmap Z Z;
  memp_stats : list stats_mem }.

Definition set_tab (type p : Z) (s : memp_state) : memp_state :=
  Memp (<[Z.to_nat type := p]> (memp_tab s)) (memp_next s) (memp_stats s).
Definition set_link (memp p : Z) (s : memp_state) : memp_state :=
  Memp (memp_tab s) (<[memp := p]> (memp_next s)) (memp_stats s).
Definition on_memp_stats (type : Z) (f : stats_mem → stats_mem) (s : memp_state) : memp_state :=
  Memp (memp_tab s) (memp_next s) (alter f (Z.to_nat type) (memp_stats s)).

(** [memp->next]: the first word of an element. *)
Definition get_link (memp : Z) : M memp_state Z := λ s,
  match memp_next s !! memp with Some p => Ok (p, s) | None => Fault end.

(** ** Operations *)

(** The inner loop of [memp_init]: [j] elements of pool [i] from [memp] on. *)
Fixpoint init_pool (j : nat) (i memp : Z) (s : memp_state) : Z * memp_state :=
  match j with
  | O => (memp, s)
  | S j =>
     let s := set_link memp (memp_tab s).[Z.to_nat i] s in
     let s := set_tab i memp s in
     init_pool j i (memp + (memp_sizes).[Z.to_nat i]) s
  end.
Fixpoint init_pools (k : nat) (i memp : Z) (s : memp_state) : memp_state :=
  match k with
  | O => s
  | S k =>
     let s := set_tab i 0 s in
     let '(memp, s) := init_pool (Z.to_nat (memp_num).[Z.to_nat i]) i memp s in
     init_pools k (i + 1) memp s
  end.
Definition init_stats (i : nat) : stats_mem := StatsMem (u16 (memp_num).[i]) 0 0 0 0.

(** [memp_memory] is the address of the array of all the pools. *)
Definition memp_init (memp_memory : Z) : memp_state :=
  init_pools (Z.to_nat MEMP_MAX) 0 (LWIP_MEM_ALIGN memp_memory)
    (Memp (replicate (Z.to_nat MEMP_MAX) 0) ∅ (map init_stats (seq 0 (Z.to_nat MEMP_MAX)))).

Definition memp_malloc (type : Z) : M memp_state Z :=
  LWIP_ERROR (type <? MEMP_MAX);;
  memp ← gets (λ s, (memp_tab s).[Z.to_nat type]);
  if negb (memp =? 0) then
    next ← get_link memp;
    modify (set_tab type next);;
    modify (on_memp_stats type (STATS_INC_USED 1));;
    LWIP_ASSERT (memp mod MEM_ALIGNMENT =? 0);;
    mret memp
  else
    modify (on_memp_stats type stats_inc_err);;
    mret memp.

Definition memp_free (type mem : Z) : M memp_state unit :=
  if mem =? 0 then mret tt
  else
    LWIP_ASSERT (mem mod MEM_ALIGNMENT =? 0);;
    modify (on_memp_stats type (STATS_DEC_USED 1));;
    tab ← gets (λ s, (memp_tab s).[Z.to_nat type]);
    modify (set_link mem tab);;
    modify (set_tab type mem).

(** ** Free lists *)

(** The list that starts at [p]. *)
Fixpoint linked (next : gmap Z Z) (p : Z) (l : list Z) : Prop :=
  match l with
  | [] => p = 0
  | a :: l => p = a ∧ a ≠ 0 ∧ (4 | a) ∧ ∃ q, next !! a = Some q ∧ linked next q l
  end.

Lemma linked_frame next next' p l :
  (∀ a, a ∈ l → next' !! a = next !! a) → linked next p l → linked next' p l.
Proof.
  revert p. induction l as [|a l IH]; intros p Hn; simpl; [done|].
  intros (-> & Ha & Hd & q & Hq & H). repeat (split; [done|]). exists q.
  rewrite Hn by (by left). split; [done|]. apply IH; [|done]. intros b Hb. apply Hn. by right.
Qed.

(** The elements of pool [i]: [num] of them from [base] on. *)
Definition elements (base size : Z) (num : nat) : list Z :=
  map (λ j, base + Z.of_nat j * size) (seq 0 num).

(** One pool: [k] are its elements, [l] the free ones, [taken] the elements
    that clients hold, with their pool. *)
Record pool_inv (next : gmap Z Z) (taken : gmap Z Z) (i : nat) (tab : Z) (st : stats_mem) (k l : list Z) : Prop := {
  pi_linked : linked next tab l;
  pi_nodup : NoDup l;
  pi_parts : ∀ a, a ∈ k ↔ a ∈ l ∨ taken !! a = Some (Z.of_nat i);
  pi_excl : ∀ a, a ∈ l → taken !! a = None;
  pi_used : st_used st = u16 (Z.of_nat (length k) - Z.of_nat (length l)) }.

(** All of them; [all] are the elements of every pool. *)
Record memp_inv (all : list (list Z)) (s : memp_state) (taken : gmap Z Z) : Prop := {
  mi_tab : length (memp_tab s) = 9%nat;
  mi_stats : length (memp_stats s) = 9%nat;
  mi_pools : ∀ i k st, all !! i = Some k → memp_stats s !! i = Some st →
     ∃ l, pool_inv (memp_next s) taken i (memp_tab s).[i] st k l }.

(** Pools do not share elements. *)
Record pools_ok (all : list (list Z)) : Prop := {
  po_length : length all = 9%nat;
  po_excl : ∀ i j k l a, all !! i = Some k → all !! j = Some l → a ∈ k → a ∈ l → i = j;
  po_elem : ∀ i k a, all !! i = Some k → a ∈ k → a ≠ 0 ∧ (4 | a) }.

Lemma pool_inv_frame next next' taken taken' i tab st k l :
  (∀ b, b ∈ l → next' !! b = next !! b) →
  (∀ b, b ∈ k → taken' !! b = taken !! b) →
  (∀ b, taken' !! b = Some (Z.of_nat i) → b ∈ k) → 
  pool_inv next taken i tab st k l → pool_inv next' taken' i tab st k l.
Proof.
  intros Hn Ht Hi [H1 H2 H3 H4 H5]. split; [by eapply linked_frame|done| | |done].
  - intros a. rewrite H3. split.
    + intros [H|H]; [by left|]. right. rewrite Ht; [done|]. apply H3. by right.
    + intros [H|H]; [by left|]. right. rewrite <-Ht; [done|]. by apply Hi.
  - intros a Ha. rewrite Ht; [by apply H4|]. apply H3. by left.
Qed.

(** A change of one pool leaves the others alone. *)
Lemma memp_inv_update all s s' taken taken' t a :
  pools_ok all → memp_inv all s taken → (t < 9)%nat →
  length (memp_tab s') = 9%nat → length (memp_stats s') = 9%nat →
  (∀ i, i ≠ t → (memp_tab s').[i] = (memp_tab s).[i] ∧ memp_stats s' !! i = memp_stats s !! i) →
  (∀ b, b ≠ a → memp_next s' !! b = memp_next s !! b ∧ taken' !! b = taken !! b) →
  (∀ k, all !! t = Some k → a ∈ k) → (∀ i, taken' !! a = Some (Z.of_nat i) → i = t) →
  (∀ k st', all !! t = Some k → memp_stats s' !! t = Some st' →
     ∃ l, pool_inv (memp_next s') taken' t (memp_tab s').[t] st' k l) →
  memp_inv all s' taken'.
Proof.
  intros Hok Hinv Ht Hl1 Hl2 Hoth Hb Ha Hat Hnew. split; [done|done|]. intros i k st Hk Hst.
  destruct (decide (i = t)) as [->|Hne]; [by apply Hnew|]. destruct (Hoth i Hne) as [E1 E2]. rewrite E1.
  rewrite E2 in Hst. destruct (mi_pools _ _ _ Hinv i k st Hk Hst) as [l Hl]. exists l.
  assert (a ∉ k) as Hak.
  { intros Hin. destruct (lookup_lt_is_Some_2 all t) as [kt Hkt]; [by rewrite (po_length _ Hok)|].
    apply Hne. by eapply (po_excl _ Hok); [exact Hk|exact Hkt|exact Hin|apply Ha]. }
  eapply pool_inv_frame, Hl.
  - intros b Hin. apply Hb. intros ->. apply Hak. apply (pi_parts _ _ _ _ _ _ _ Hl). by left.
  - intros b Hin. apply Hb. intros ->. done.
  - intros b Hin. assert (b ≠ a) as Hba by (intros ->; by apply Hat in Hin).
    apply (pi_parts _ _ _ _ _ _ _ Hl). right. by rewrite <-(proj2 (Hb b Hba)).
Qed.

(** ** Taking and giving back *)

Lemma pool_lookup all s taken t :
  pools_ok all → memp_inv all s taken → 0 ≤ t < 9 →
  ∃ k st l, all !! Z.to_nat t = Some k ∧ memp_stats s !! Z.to_nat t = Some st ∧
    pool_inv (memp_next s) taken (Z.to_nat t) (memp_tab s).[Z.to_nat t] st k l.
Proof.
  intros Hok Hinv Ht. destruct (lookup_lt_is_Some_2 all (Z.to_nat t)) as [k Hk]; [rewrite (po_length _ Hok); lia|].
  destruct (lookup_lt_is_Some_2 (memp_stats s) (Z.to_nat t)) as [st Hst]; [rewrite (mi_stats _ _ _ Hinv); lia|].
  destruct (mi_pools _ _ _ Hinv _ _ _ Hk Hst) as [l Hl]. by exists k, st, l.
Qed.

(** Counting the errors does not matter. *)
Lemma memp_inv_err all s taken t :
  memp_inv all s taken → memp_inv all (on_memp_stats t stats_inc_err s) taken.
Proof.
  intros [H1 H2 H3]. split; cbn [on_memp_stats memp_tab memp_next memp_stats]; [done|by rewrite length_alter|].
  intros i k st Hk Hst. rewrite list_lookup_alter in Hst. case_decide as E; [|by eapply H3].
  rewrite E in Hst. apply fmap_Some in Hst as (st0 & Hst & ->).
  destruct (H3 _ _ _ Hk Hst) as [l [? ? ? ? ?]]. by exists l.
Qed.

Lemma memp_malloc_ok all s taken t k :
  pools_ok all → memp_inv all s taken → 0 ≤ t < 9 → all !! Z.to_nat t = Some k →
  ∃ a s', memp_malloc t s = Ok (a, s') ∧
    ((a = 0 ∧ memp_inv all s' taken ∧ ∀ b, b ∈ k → taken !! b = Some t) ∨
     (a ≠ 0 ∧ a ∈ k ∧ taken !! a = None ∧ memp_inv all s' (<[a := t]> taken))).
Proof.
  intros Hok Hinv Ht Hk. destruct (pool_lookup all s taken t Hok Hinv Ht) as (k0 & st & l & Hk0 & Hst & Hl).
  rewrite Hk in Hk0. injection Hk0 as <-. pose proof (mi_tab _ _ _ Hinv) as Htab.
  pose proof (mi_stats _ _ _ Hinv) as Hsts.
  unfold memp_malloc. change MEMP_MAX with 9. rewrite error_true by (apply Z.ltb_lt; lia).
  rewrite bind_unfold. unfold gets at 1. pose proof Hl as [H1 H2 H3 H4 H5].
  destruct l as [|a l].
  - simpl in H1. rewrite H1. eexists 0, _. split; [done|]. left. split; [done|].
    split; [by apply memp_inv_err|]. intros b Hb. apply H3 in Hb as [Hb|Hb]; [by apply elem_of_nil in Hb|].
    by rewrite Z2Nat.id in Hb by lia.
  - destruct H1 as (Ea & Hnz & [j Hd] & q & Hq & H1). rewrite Ea, (proj2 (Z.eqb_neq _ _) Hnz). cbn [negb].
    rewrite (bind_ok (get_link a) _ s q s) by (unfold get_link; by rewrite Hq).
    assert (a mod 4 = 0) as Hmod by (rewrite Hd; apply Z.mod_mul; lia).
    eexists a, _. split; [unfold MEM_ALIGNMENT; cbn; by rewrite Hmod|]. right.
    apply NoDup_cons in H2 as [Hal H2]. assert (a ∈ k) as Hak by (apply H3; left; by left).
    split; [done|]. split; [done|]. split; [apply H4; by left|].
    apply (memp_inv_update all s _ taken _ (Z.to_nat t) a Hok Hinv);
      cbn [on_memp_stats set_tab memp_tab memp_next memp_stats]; [lia| | | | | | |].
    + by rewrite length_insert.
    + by rewrite length_alter.
    + intros i Hi. rewrite octet_insert, decide_False, list_lookup_alter_ne by (done || lia || congruence). done.
    + intros b Hb. by rewrite lookup_insert_ne by done.
    + intros k' Hk'. congruence.
    + intros i Hi. rewrite lookup_insert_eq in Hi. injection Hi as ->. lia.
    + intros k' st' Hk' Hst'. rewrite Hk in Hk'. injection Hk' as <-. exists l.
      rewrite list_lookup_alter_eq, Hst in Hst'. injection Hst' as <-.
      rewrite octet_insert, decide_True by (done || lia). split; [done|done| | |].
      * intros b. rewrite H3, elem_of_cons, lookup_insert_Some. rewrite Z2Nat.id by lia. split.
        -- intros [[->|Hb]|Hb]; [right; by left|by left|].
           destruct (decide (a = b)) as [->|]; [right; by left|right; by right].
        -- intros [Hb|[[-> _]|[_ Hb]]]; [left; by right|left; by left|by right].
      * intros b Hb. rewrite lookup_insert_ne by (intros ->; done). apply H4. by right.
      * rewrite (STATS_INC_used 1 _ _ H5). f_equal. simpl length. lia.
Qed.

Lemma memp_free_ok all s taken a t :
  pools_ok all → memp_inv all s taken → 0 ≤ t < 9 → taken !! a = Some t →
  ∃ s', memp_free t a s = Ok (tt, s') ∧ memp_inv all s' (delete a taken).
Proof.
  intros Hok Hinv Ht Ha. destruct (pool_lookup all s taken t Hok Hinv Ht) as (k & st & l & Hk & Hst & Hl).
  pose proof (mi_tab _ _ _ Hinv) as Htab. pose proof (mi_stats _ _ _ Hinv) as Hsts.
  pose proof Hl as [H1 H2 H3 H4 H5].
  assert (a ∈ k) as Hak by (apply H3; right; by rewrite Z2Nat.id by lia).
  assert (a ∉ l) as Hal by (intros Hin; by rewrite (H4 _ Hin) in Ha).
  destruct (po_elem _ Hok _ _ _ Hk Hak) as [Hnz Hd].
  assert (a mod 4 = 0) as Hmod by (destruct Hd as [j ->]; apply Z.mod_mul; lia).
  unfold memp_free. rewrite (proj2 (Z.eqb_neq _ _) Hnz).
  rewrite assert_true by (unfold MEM_ALIGNMENT; by rewrite Hmod).
  eexists. split; [done|].
  apply (memp_inv_update all s _ taken _ (Z.to_nat t) a Hok Hinv);
    cbn [on_memp_stats set_tab set_link memp_tab memp_next memp_stats]; [lia| | | | | | |].
  + by rewrite length_insert.
  + by rewrite length_alter.
  + intros i Hi. rewrite octet_insert, decide_False, list_lookup_alter_ne by (done || lia || congruence). done.
  + intros b Hb. by rewrite lookup_insert_ne, lookup_delete_ne by done.
  + intros k' Hk'. congruence.
  + intros i Hi. by rewrite lookup_delete_eq in Hi.
  + intros k' st' Hk' Hst'. rewrite Hk in Hk'. injection Hk' as <-. exists (a :: l).
    rewrite list_lookup_alter_eq, Hst in Hst'. injection Hst' as <-.
    rewrite octet_insert, decide_True by (done || lia). split.
    * simpl. repeat (split; [done|]). eexists. rewrite lookup_insert_eq. split; [done|].
      eapply linked_frame, H1. intros b Hb. by rewrite lookup_insert_ne by (intros ->; done).
    * by apply NoDup_cons.
    * intros b. rewrite H3, elem_of_cons, lookup_delete_Some. rewrite Z2Nat.id by lia.
      split.
      -- intros [Hb|Hb]; [left; by right|].
         destruct (decide (a = b)) as [->|]; [left; by left|by right].
      -- intros [[->|Hb]|[_ Hb]]; [by right|by left|by right].
    * intros b Hb. apply elem_of_cons in Hb as [->|Hb]; [by rewrite lookup_delete_eq|].
      rewrite lookup_delete_ne by (intros ->; done). by apply H4.
    * rewrite (STATS_DEC_used 1 _ _ H5). f_equal. simpl length. lia.
Qed.

(** ** Start-up *)

(** The elements of the pools from pool [i] on, carved from [memp] on. *)
Fixpoint layout (k : nat) (i memp : Z) : list (list Z) :=
  match k with
  | O => []
  | S k =>
     let num := Z.to_nat (memp_num).[Z.to_nat i] in
     let size := (memp_sizes).[Z.to_nat i] in
     elements memp size num :: layout k (i + 1) (memp + Z.of_nat num * size)
  end.
Definition memp_elements (memp_memory : Z) : list (list Z) :=
  layout (Z.to_nat MEMP_MAX) 0 (LWIP_MEM_ALIGN memp_memory).

Lemma pool_elements_S base size n :
  elements base size (S n) = base :: elements (base + size) size n.
Proof.
  unfold elements. simpl. f_equal; [lia|]. rewrite <-seq_shift, map_map.
  apply map_ext. intros j. lia.
Qed.
Lemma elem_elements base size n a :
  a ∈ elements base size n ↔ ∃ j, (j < n)%nat ∧ a = base + Z.of_nat j * size.
Proof.
  unfold elements. rewrite list_elem_of_In, in_map_iff. split.
  - intros (j & <- & Hj%in_seq). exists j. split; [lia|done].
  - intros (j & Hj & ->). exists j. split; [done|]. apply in_seq. lia.
Qed.
Lemma NoDup_elements base size n : 0 < size → NoDup (elements base size n).
Proof.
  intros Hs. revert base. induction n as [|n IH]; intros base; [constructor|].
  rewrite pool_elements_S. apply NoDup_cons. split; [|apply IH].
  intros (j & Hj & E)%elem_elements. nia.
Qed.

(** One pool. *)
Lemma init_pool_spec j i memp s l :
  (i < 9)%nat → length (memp_tab s) = 9%nat → 0 < memp → (4 | memp) →
  let size := (memp_sizes).[i] in
  0 < size → (4 | size) → (∀ a, a ∈ l → a < memp) → linked (memp_next s) (memp_tab s).[i] l →
  let '(memp', s') := init_pool j (Z.of_nat i) memp s in
  memp' = memp + Z.of_nat j * size ∧ length (memp_tab s') = 9%nat ∧ memp_stats s' = memp_stats s ∧
  (∀ i', i' ≠ i → (memp_tab s').[i'] = (memp_tab s).[i']) ∧
  (∀ a, a < memp → memp_next s' !! a = memp_next s !! a) ∧
  linked (memp_next s') (memp_tab s').[i] (rev (elements memp size j) ++ l).
Proof.
  intros Hi. revert memp s l. induction j as [|j IH]; intros memp s l Htab Hm Hd size Hs Hds Hl Hlink.
  { cbn [init_pool]. split; [lia|]. done. }
  cbn [init_pool]. rewrite Nat2Z.id. fold size.
  set (s1 := set_tab (Z.of_nat i) memp (set_link memp (memp_tab s).[i] s)).
  specialize (IH (memp + size) s1 (memp :: l)). fold size in IH.
  destruct (init_pool j (Z.of_nat i) (memp + size) s1) as [memp' s'].
  assert (length (memp_tab s1) = 9%nat) as Ht1 by (simpl; by rewrite length_insert).
  destruct IH as (E1 & E2 & E3 & E4 & E5 & E6); try done.
  - lia.
  - by apply Z.divide_add_r.
  - intros a [->|Ha]%elem_of_cons; [lia|]. apply Hl in Ha. lia.
  - simpl. rewrite Nat2Z.id, octet_insert, decide_True by (done || lia).
    split; [done|]. split; [lia|]. split; [done|]. eexists. rewrite lookup_insert_eq. split; [done|].
    eapply linked_frame, Hlink. intros a Ha. apply Hl in Ha. by rewrite lookup_insert_ne by lia.
  - split; [lia|]. split; [done|]. split; [done|]. split; [|split].
    + intros i' Hi'. rewrite E4 by done. simpl. rewrite Nat2Z.id, octet_insert by lia.
      by rewrite decide_False by done.
    + intros a Ha. rewrite E5 by lia. simpl. by rewrite lookup_insert_ne by lia.
    + rewrite pool_elements_S. simpl. by rewrite <-app_assoc.
Qed.

(** The free lists of the pools that have been set up. *)
Definition init_done (i : nat) (memp0 memp : Z) (s : memp_state) (all : list (list Z)) : Prop :=
  length (memp_tab s) = 9%nat ∧ length all = i ∧ 0 < memp0 ≤ memp ∧ (4 | memp) ∧
  (∀ j k, all !! j = Some k → NoDup k ∧ linked (memp_next s) (memp_tab s).[j] (rev k) ∧ ∀ a, a ∈ k → memp0 ≤ a < memp) ∧
  (∀ j j' k k' a, all !! j = Some k → all !! j' = Some k' → a ∈ k → a ∈ k' → j = j').

Lemma memp_size_ok i : (i < 9)%nat → 0 < (memp_sizes).[i] ∧ (4 | (memp_sizes).[i]) ∧ 0 < (memp_num).[i].
Proof.
  intros Hi. do 9 (destruct i as [|i]; [split; [done|]; split; [by apply Z.mod_divide|done]|]). lia.
Qed.

Lemma init_pools_spec k i memp0 memp s all :
  (i + k = 9)%nat → init_done i memp0 memp s all →
  let s' := init_pools k (Z.of_nat i) memp s in
  ∃ memp', init_done 9 memp0 memp' s' (all ++ layout k (Z.of_nat i) memp) ∧ memp_stats s' = memp_stats s.
Proof.
  revert i memp s all. induction k as [|k IH]; intros i memp s all Hik Hdone.
  { rewrite app_nil_r. replace 9%nat with i by lia. by exists memp. }
  destruct (memp_size_ok i) as (Hs & Hds & Hn); [lia|].
  destruct Hdone as (Htab & Hall & Hm & Hd & Hlists & Hexcl).
  cbn [init_pools layout]. rewrite Nat2Z.id. set (size := (memp_sizes).[i]) in *.
  set (num := Z.to_nat (memp_num).[i]).
  pose proof (init_pool_spec num i memp (set_tab (Z.of_nat i) 0 s) []) as H. fold size in H.
  cbn [set_tab memp_tab memp_next memp_stats] in H. rewrite Nat2Z.id, length_insert in H.
  rewrite octet_insert, decide_True in H by (done || lia).
  unfold set_tab in *. rewrite Nat2Z.id in *.
  destruct (init_pool num (Z.of_nat i) memp _) as [memp' s1].
  destruct H as (E1 & E2 & E3 & E4 & E5 & E6); try done; [lia|lia|by intros a ?%elem_of_nil|].
  replace (Z.of_nat i + 1) with (Z.of_nat (S i)) by lia.
  specialize (IH (S i) memp' s1 (all ++ [elements memp size num])).
  destruct IH as (memp'' & IH & Est); [lia| |].
  - split; [done|]. split; [rewrite length_app; simpl; lia|]. split; [nia|].
    split; [rewrite E1; apply Z.divide_add_r; [done|by apply Z.divide_mul_r]|].
    assert (∀ a, a ∈ elements memp size num → memp ≤ a < memp') as Hel.
    { intros a (j & Hj & ->)%elem_elements. nia. }
    split.
    + intros j k' [Hj|[Hj Hk']]%lookup_app_Some.
      * destruct (Hlists _ _ Hj) as (H1 & H2 & H3). apply lookup_lt_Some in Hj as Hlt.
        split; [done|]. split; [|intros a Ha; apply H3 in Ha; nia].
        rewrite E4, octet_insert, decide_False by lia. eapply linked_frame, H2.
        intros a Ha. apply E5. apply list_elem_of_In, in_rev, list_elem_of_In in Ha. apply H3 in Ha. lia.
      * apply list_lookup_singleton_Some in Hk' as [Hj0 <-]. replace j with i by lia.
        split; [by apply NoDup_elements|]. rewrite app_nil_r in E6. split; [done|].
        intros a Ha. apply Hel in Ha. lia.
    + intros j j' k1 k2 a [Hj|[Hj Hk1]]%lookup_app_Some [Hj'|[Hj' Hk2]]%lookup_app_Some Ha Ha'.
      * by eapply Hexcl.
      * apply list_lookup_singleton_Some in Hk2 as [_ <-]. apply Hel in Ha'.
        apply (Hlists _ _ Hj) in Ha. lia.
      * apply list_lookup_singleton_Some in Hk1 as [_ <-]. apply Hel in Ha.
        apply (Hlists _ _ Hj') in Ha'. lia.
      * apply list_lookup_singleton_Some in Hk1 as [? _], Hk2 as [? _]. lia.
  - exists memp''. rewrite <-app_assoc in IH. rewrite E1 in IH at 2. split; [done|]. by rewrite Est, E3.
Qed.

Lemma memp_init_ok memory :
  0 < memory → memory + 3 < 2 ^ 32 →
  pools_ok (memp_elements memory) ∧ memp_inv (memp_elements memory) (memp_init memory) ∅.
Proof.
  intros Hm Hb. pose proof (align_size_bounds memory) as Hal.
  assert (LWIP_MEM_ALIGN memory = LWIP_MEM_ALIGN_SIZE memory) as El.
  { unfold LWIP_MEM_ALIGN. fold (LWIP_MEM_ALIGN_SIZE memory). apply u32_small. cint. }
  unfold memp_init, memp_elements. change (Z.to_nat MEMP_MAX) with 9%nat.
  set (A := LWIP_MEM_ALIGN memory) in *. set (s0 := Memp (replicate 9 0) ∅ (map init_stats (seq 0 9))).
  assert (init_done 0 A A s0 []) as H0.
  { split; [done|]. split; [done|]. split; [lia|]. split; [rewrite El; apply align_size_divides|].
    split; [intros j k Hj|intros j j' k k' a Hj]; by rewrite lookup_nil in Hj. }
  destruct (init_pools_spec 9 0 A A s0 [] eq_refl H0) as (memp' & Hd & Est).
  change (Z.of_nat 0) with 0 in Hd, Est. rewrite app_nil_l in Hd.
  set (s' := init_pools 9 0 A s0) in *. clearbody s'. set (all := layout 9 0 A) in *. clearbody all.
  destruct Hd as (H1 & H2 & H3 & _ & H4 & H5). split; split; try done.
  - intros i k a Hk Ha. destruct (H4 _ _ Hk) as (_ & Hl & _). clear -Hl Ha.
    apply list_elem_of_In, in_rev, list_elem_of_In in Ha. revert Hl. generalize (memp_tab s').[i].
    induction (rev k) as [|b l IH]; [by apply elem_of_nil in Ha|]. intros p (_ & ? & ? & q & _ & Hl).
    apply elem_of_cons in Ha as [->|Ha]; [done|by eapply IH].
  - by rewrite Est.
  - intros i k st Hk Hst. exists (rev k). destruct (H4 _ _ Hk) as (Hnd & Hl & _). split; [done| | | |].
    + by rewrite <-Permutation_rev.
    + intros a. rewrite lookup_empty. rewrite !list_elem_of_In, <-in_rev. split; [by left|]. by intros [|].
    + intros a _. apply lookup_empty.
    + rewrite length_rev, Z.sub_diag. rewrite Est in Hst. simpl in Hst.
      apply lookup_lt_Some in Hk. rewrite H2 in Hk.
      do 9 (destruct i as [|i]; [by injection Hst as <-|]). lia.
Qed.

(** ** Claims *)

(** The pools a client can bring about, with the elements it then holds. *)
Inductive pool_client (memory : Z) : memp_state → gmap Z Z → Prop :=
  | pool_boot : pool_client memory (memp_init memory) ∅
  | pool_malloc s taken t a s' :
     pool_client memory s taken → 0 ≤ t < MEMP_MAX → memp_malloc t s = Ok (a, s') → a ≠ 0 →
     pool_client memory s' (<[a := t]> taken)
  | pool_empty s taken t s' :
     pool_client memory s taken → 0 ≤ t < MEMP_MAX → memp_malloc t s = Ok (0, s') →
     pool_client memory s' taken
  | pool_free s taken a t s' :
     pool_client memory s taken → taken !! a = Some t → 0 ≤ t < MEMP_MAX →
     memp_free t a s = Ok (tt, s') → pool_client memory s' (delete a taken)
  | pool_write s taken a t v :
     pool_client memory s taken → taken !! a = Some t → pool_client memory (set_link a v s) taken.

Lemma memp_inv_write all s taken a t v :
  memp_inv all s taken → taken !! a = Some t → memp_inv all (set_link a v s) taken.
Proof.
  intros [H1 H2 H3] Ha. split; [done|done|]. intros i k st Hk Hst.
  destruct (H3 i k st Hk Hst) as [l Hl]. exists l. eapply pool_inv_frame, Hl; [|done|].
  - intros b Hb. simpl. rewrite lookup_insert_ne; [done|]. intros ->.
    by rewrite (pi_excl _ _ _ _ _ _ _ Hl) in Ha.
  - intros b Hb. apply (pi_parts _ _ _ _ _ _ _ Hl). by right.
Qed.

Lemma pool_client_inv memory s taken :
  0 < memory → memory + 3 < 2 ^ 32 → pool_client memory s taken →
  memp_inv (memp_elements memory) s taken.
Proof.
  intros Hm Hb. destruct (memp_init_ok memory Hm Hb) as [Hok Hinit].
  induction 1 as [|s taken t a s' _ IH Ht E Hne|s taken t s' _ IH Ht E|s taken a t s' _ IH Ha Ht E|s taken a t v _ IH Ha].
  - done.
  - destruct (pool_lookup _ _ _ _ Hok IH Ht) as (k & _ & _ & Hk & _).
    destruct (memp_malloc_ok _ _ _ _ _ Hok IH Ht Hk) as (a0 & s0 & E0 & Hc).
    rewrite E0 in E. injection E as -> ->. by destruct Hc as [[? _]|(_ & _ & _ & Hc)].
  - destruct (pool_lookup _ _ _ _ Hok IH Ht) as (k & _ & _ & Hk & _).
    destruct (memp_malloc_ok _ _ _ _ _ Hok IH Ht Hk) as (a0 & s0 & E0 & Hc).
    rewrite E0 in E. injection E as -> ->. by destruct Hc as [(_ & Hc & _)|(? & _)].
  - destruct (memp_free_ok _ _ _ _ _ Hok IH Ht Ha) as (s0 & E0 & Hc). rewrite E0 in E. by injection E as ->.
  - by eapply memp_inv_write.
Qed.

(** Where the elements lie. *)
Lemma layout_bounds n i memp j k a :
  (i + n = 9)%nat → layout n (Z.of_nat i) memp !! j = Some k → a ∈ k → memp ≤ a.
Proof.
  revert i memp j. induction n as [|n IH]; intros i memp j Hi Hk Ha; [by destruct j|].
  destruct (memp_size_ok i) as (Hs & _ & Hn); [lia|]. cbn [layout] in Hk. rewrite Nat2Z.id in Hk.
  destruct j as [|j]; simpl in Hk.
  - injection Hk as <-. apply elem_elements in Ha as (m & Hm & ->). nia.
  - replace (Z.of_nat i + 1) with (Z.of_nat (S i)) in Hk by lia.
    apply (IH (S i) _ _ ltac:(lia) Hk) in Ha. nia.
Qed.

Lemma layout_disjoint n i memp j j' k k' a b :
  (i + n = 9)%nat → layout n (Z.of_nat i) memp !! j = Some k → layout n (Z.of_nat i) memp !! j' = Some k' →
  a ∈ k → b ∈ k' → a ≠ b → a + (memp_sizes).[(i + j)%nat] ≤ b ∨ b + (memp_sizes).[(i + j')%nat] ≤ a.
Proof.
  revert i memp j j'. induction n as [|n IH]; intros i memp j j' Hi Hk Hk' Ha Hb Hne; [by destruct j|].
  destruct (memp_size_ok i) as (Hs & _ & Hn); [lia|]. cbn [layout] in Hk, Hk'. rewrite Nat2Z.id in Hk, Hk'.
  replace (Z.of_nat i + 1) with (Z.of_nat (S i)) in Hk, Hk' by lia.
  destruct j as [|j], j' as [|j']; simpl in Hk, Hk'; rewrite ?Nat.add_0_r.
  - injection Hk as <-. injection Hk' as <-. apply elem_elements in Ha as (m & Hm & ->), Hb as (m' & Hm' & ->).
    assert (m ≠ m') by congruence. nia.
  - injection Hk as <-. apply elem_elements in Ha as (m & Hm & ->).
    apply (layout_bounds n (S i) _ _ _ _ ltac:(lia) Hk') in Hb. nia.
  - injection Hk' as <-. apply elem_elements in Hb as (m & Hm & ->).
    apply (layout_bounds n (S i) _ _ _ _ ltac:(lia) Hk) in Ha. nia.
  - replace (i + S j)%nat with (S i + j)%nat by lia. replace (i + S j')%nat with (S i + j')%nat by lia.
    eapply (IH (S i)); [lia|exact Hk|exact Hk'|done..].
Qed.

(** C18.  The pools hand out each element once.  In whatever order elements are
    taken, written to and given back: a request returns an element of the
    right pool that nobody holds, or NULL, and NULL only when every element of
    the pool is held; an element that is held can be given back; and elements,
    with the size of their pool, do not overlap. *)
Theorem memp_pools_safe memory s taken t k :
  0 < memory → memory + 3 < 2 ^ 32 → pool_client memory s taken →
  0 ≤ t < MEMP_MAX → memp_elements memory !! Z.to_nat t = Some k →
  (∃ a s', memp_malloc t s = Ok (a, s') ∧
     ((a = 0 ∧ ∀ b, b ∈ k → taken !! b = Some t) ∨ (a ≠ 0 ∧ a ∈ k ∧ taken !! a = None))) ∧
  (∀ a, taken !! a = Some t → a ∈ k ∧ ∃ s', memp_free t a s = Ok (tt, s')) ∧
  (∀ j k' a b, memp_elements memory !! j = Some k' → a ∈ k → b ∈ k' → a ≠ b →
     a + (memp_sizes).[Z.to_nat t] ≤ b ∨ b + (memp_sizes).[j] ≤ a).
Proof.
  intros Hm Hb Hc Ht Hk. apply (pool_client_inv _ _ _ Hm Hb) in Hc.
  destruct (memp_init_ok memory Hm Hb) as [Hok _]. split; [|split].
  - destruct (memp_malloc_ok _ _ _ _ _ Hok Hc Ht Hk) as (a & s' & E & H). exists a, s'. split; [done|].
    destruct H as [(? & _ & ?)|(? & ? & ? & _)]; [by left|by right].
  - intros a Ha. destruct (pool_lookup _ _ _ _ Hok Hc Ht) as (k0 & st & l & Hk0 & _ & Hl).
    rewrite Hk in Hk0. injection Hk0 as <-. split.
    + apply (pi_parts _ _ _ _ _ _ _ Hl). right. by rewrite Z2Nat.id by apply Ht.
    + destruct (memp_free_ok _ _ _ _ _ Hok Hc Ht Ha) as (s' & E & _). by exists s'.
  - intros j k' a b Hk' Ha Hb' Hne. by apply (layout_disjoint 9 0 _ _ _ _ _ _ _ eq_refl Hk Hk' Ha Hb' Hne).
Qed.

Definition pbuf_elements : list Z := default [] (memp_elements 0x10000001 !! 7%nat).

Lemma memp_pools_safe_witness :
  ∃ a s', memp_malloc MEMP_PBUF (memp_init 0x10000001) = Ok (a, s') ∧
    ((a = 0 ∧ ∀ b, b ∈ pbuf_elements → (∅ : gmap Z Z) !! b = Some MEMP_PBUF) ∨
     (a ≠ 0 ∧ a ∈ pbuf_elements ∧ (∅ : gmap Z Z) !! a = None)).
Proof.
  assert (memp_elements 0x10000001 !! Z.to_nat MEMP_PBUF = Some pbuf_elements) as Hk
    by (vm_compute; reflexivity).
  assert (0 < 0x10000001) as H1 by lia. assert (0x10000001 + 3 < 2 ^ 32) as H2 by lia.
  assert (0 ≤ MEMP_PBUF < MEMP_MAX) as H3 by (split; [by vm_compute|done]).
  exact (proj1 (memp_pools_safe 0x10000001 (memp_init 0x10000001) ∅ MEMP_PBUF pbuf_elements
    H1 H2 (pool_boot 0x10000001) H3 Hk)).
Defined.
