(* ===== verification/Pbuf.v ===== *)
(** * Packet buffers ([src/lwip/core/pbuf.c])

    A packet is a chain of buffers.  A [struct pbuf] is a record in a store
    indexed by its address, the octets payload pointers refer to are a memory
    of their own, and the heap and the pools that buffers come from are an
    interface ([BufAlloc]), which [PbufAlloc] provides.  Walks along a chain
    have as much fuel as there are buffers.  Custom buffers and the reclaiming
    of out-of-sequence data are not configured. *)

From S2P Require Import Prelude LwipBase InetChksum Heap Memp.
From Stdlib Require Import ZArith Lia.
From stdpp Require Import base numbers list gmap.
Open Scope Z_scope.

(** ** Types *)

Definition PBUF_TRANSPORT_HLEN : Z := 20.
Definition PBUF_IP_HLEN : Z := 20.
Definition PBUF_POOL_BUFSIZE_ALIGNED : Z := LWIP_MEM_ALIGN_SIZE PBUF_POOL_BUFSIZE.

Inductive pbuf_layer := PBUF_TRANSPORT | PBUF_IP | PBUF_LINK | PBUF_RAW.
Inductive pbuf_type := PBUF_RAM | PBUF_ROM | PBUF_REF | PBUF_POOL.
#[export] Instance pbuf_type_eq : EqDecision pbuf_type.
Proof. solve_decision. Defined.

Record pbuf := Pbuf {
  p_next : Z;
  p_payload : Z;
  p_tot_len : Z;
  p_len : Z;
  p_type : pbuf_type;
  p_flags : Z;
  p_ref : Z }.

Definition with_next (x : Z) (b : pbuf) : pbuf :=
  Pbuf x (p_payload b) (p_tot_len b) (p_len b) (p_type b) (p_flags b) (p_ref b).
Definition with_payload (x : Z) (b : pbuf) : pbuf :=
  Pbuf (p_next b) x (p_tot_len b) (p_len b) (p_type b) (p_flags b) (p_ref b).
Definition with_tot_len (x : Z) (b : pbuf) : pbuf :=
  Pbuf (p_next b) (p_payload b) x (p_len b) (p_type b) (p_flags b) (p_ref b).
Definition with_len (x : Z) (b : pbuf) : pbuf :=
  Pbuf (p_next b) (p_payload b) (p_tot_len b) x (p_type b) (p_flags b) (p_ref b).
Definition with_flags (x : Z) (b : pbuf) : pbuf :=
  Pbuf (p_next b) (p_payload b) (p_tot_len b) (p_len b) (p_type b) x (p_ref b).
Definition with_ref (x : Z) (b : pbuf) : pbuf :=
  Pbuf (p_next b) (p_payload b) (p_tot_len b) (p_len b) (p_type b) (p_flags b) x.

(** ** Memory

    The octets at the addresses of the machine. *)

Definition memory : Type := Z → Z.
Definition mem_read (m : memory) (a : Z) (n : nat) : list Z := map (λ i, m (a + Z.of_nat i)) (seq 0 n).
Definition mem_write (m : memory) (a : Z) (l : list Z) : memory := λ x,
  if decide (a ≤ x < a + Z.of_nat (length l)) then l.[Z.to_nat (x - a)] else m x.

(** ** The allocators *)

Class BufAlloc (A : Type) := {
  ba_mem_malloc : Z → M A Z;
  ba_mem_free : Z → M A unit;
  ba_mem_trim : Z → Z → M A Z;
  ba_memp_malloc : Z → M A Z;
  ba_memp_free : Z → Z → M A unit }.

(** ** State *)

Record pbufs_state (A : Type) := Pbufs {
  pb_store : gmap Z pbuf;
  pb_data : memory;
  pb_alloc : A }.
Arguments Pbufs {A} pb_store pb_data pb_alloc.
Arguments pb_store {A} p.
Arguments pb_data {A} p.
Arguments pb_alloc {A} p.

Section Pbuf.
Context {A : Type} `{BufAlloc A}.
Abbreviation PM := (M (pbufs_state A)).

Definition on_alloc {B} (m : M A B) : PM B :=
  lift pb_alloc (λ a s, Pbufs (pb_store s) (pb_data s) a) m.

(** [*p], and [p->field = ...]. *)
Definition get_pbuf (p : Z) : PM pbuf := λ s,
  match pb_store s !! p with Some b => Ok (b, s) | None => Fault end.
Definition put_pbuf (p : Z) (b : pbuf) : PM unit := λ s,
  Ok (tt, Pbufs (<[p := b]> (pb_store s)) (pb_data s) (pb_alloc s)).
Definition set_pbuf (p : Z) (f : pbuf → pbuf) : PM unit :=
  b ← get_pbuf p; put_pbuf p (f b).
Definition drop_pbuf (p : Z) : PM unit := λ s,
  Ok (tt, Pbufs (delete p (pb_store s)) (pb_data s) (pb_alloc s)).
Definition load_octets (a : Z) (n : Z) : PM (list Z) := λ s,
  Ok (mem_read (pb_data s) a (Z.to_nat n), s).
Definition store_octets (a : Z) (l : list Z) : PM unit := λ s,
  Ok (tt, Pbufs (pb_store s) (mem_write (pb_data s) a l) (pb_alloc s)).

Definition pbuf_fuel (s : pbufs_state A) : nat := S (size (pb_store s)).

(** ** References *)

(** Give the memory of a buffer back. *)
Definition release_pbuf (p : Z) (type : pbuf_type) : PM unit :=
  drop_pbuf p;;
  match type with
  | PBUF_POOL => on_alloc (ba_memp_free MEMP_PBUF_POOL p)
  | PBUF_ROM | PBUF_REF => on_alloc (ba_memp_free MEMP_PBUF p)
  | PBUF_RAM => on_alloc (ba_mem_free p)
  end.

Fixpoint free_loop (fuel : nat) (p count : Z) : PM Z :=
  match fuel with
  | O => spin
  | S fuel =>
     if p =? 0 then mret count
     else
       b ← get_pbuf p;
       LWIP_ASSERT (0 <? p_ref b);;
       let ref := u16 (p_ref b - 1) in
       set_pbuf p (with_ref ref);;
       if ref =? 0 then
         let q := p_next b in
         release_pbuf p (p_type b);;
         free_loop fuel q (u8 (count + 1))
       else free_loop fuel 0 count
  end.

(** One more round than buffers, to see the end of the chain. *)
Definition pbuf_free (p : Z) : PM Z :=
  if p =? 0 then LWIP_ASSERT false;; mret 0
  else
    fuel ← gets pbuf_fuel;
    free_loop (S fuel) p 0.

Fixpoint clen_loop (fuel : nat) (p len : Z) : PM Z :=
  match fuel with
  | O => spin
  | S fuel =>
     if p =? 0 then mret len
     else b ← get_pbuf p; clen_loop fuel (p_next b) (u8 (len + 1))
  end.
Definition pbuf_clen (p : Z) : PM Z := fuel ← gets pbuf_fuel; clen_loop fuel p 0.

Definition pbuf_ref (p : Z) : PM unit :=
  if negb (p =? 0) then b ← get_pbuf p; set_pbuf p (with_ref (u16 (p_ref b + 1))) else mret tt.

(** ** Allocation *)

Definition header_offset (layer : pbuf_layer) : Z :=
  match layer with
  | PBUF_TRANSPORT => u16 (PBUF_TRANSPORT_HLEN + PBUF_IP_HLEN + PBUF_LINK_HLEN)
  | PBUF_IP => u16 (PBUF_IP_HLEN + PBUF_LINK_HLEN)
  | PBUF_LINK => u16 PBUF_LINK_HLEN
  | PBUF_RAW => 0
  end.

(** The rest of a chain of pool buffers behind [r]; [p] is its head. *)
Fixpoint alloc_tail (fuel : nat) (p r rem_len : Z) : PM bool :=
  match fuel with
  | O => spin
  | S fuel =>
     if 0 <? rem_len then
       q ← on_alloc (ba_memp_malloc MEMP_PBUF_POOL);
       if q =? 0 then
         pbuf_free p;;
         mret false
       else
         LWIP_ASSERT (rem_len <? 0xffff);;
         let len := Z.min (u16 rem_len) PBUF_POOL_BUFSIZE_ALIGNED in
         put_pbuf q (Pbuf 0 (q + SIZEOF_STRUCT_PBUF) (u16 rem_len) len PBUF_POOL 0 1);;
         set_pbuf r (with_next q);;
         LWIP_ASSERT ((q + SIZEOF_STRUCT_PBUF) mod MEM_ALIGNMENT =? 0);;
         b ← get_pbuf p;
         LWIP_ASSERT (p_payload b + p_len b <=? p + SIZEOF_STRUCT_PBUF + PBUF_POOL_BUFSIZE_ALIGNED);;
         alloc_tail fuel p q (rem_len - len)
     else mret true
  end.

(** A buffer of the pool takes at least one octet: 16 bits of length need no
    more rounds than this. *)
Definition alloc_fuel : nat := Z.to_nat (2 ^ 16).

Definition pbuf_alloc (layer : pbuf_layer) (length : Z) (type : pbuf_type) : PM Z :=
  let offset := header_offset layer in
  match type with
  | PBUF_POOL =>
     p ← on_alloc (ba_memp_malloc MEMP_PBUF_POOL);
     if p =? 0 then mret 0
     else
       let payload := LWIP_MEM_ALIGN (p + (SIZEOF_STRUCT_PBUF + offset)) in
       LWIP_ASSERT (payload mod MEM_ALIGNMENT =? 0);;
       let len := u16 (Z.min length (PBUF_POOL_BUFSIZE_ALIGNED - LWIP_MEM_ALIGN_SIZE offset)) in
       LWIP_ASSERT (payload + len <=? p + SIZEOF_STRUCT_PBUF + PBUF_POOL_BUFSIZE_ALIGNED);;
       LWIP_ASSERT (0 <? PBUF_POOL_BUFSIZE_ALIGNED - LWIP_MEM_ALIGN_SIZE offset);;
       put_pbuf p (Pbuf 0 payload length len PBUF_POOL 0 1);;
       ok ← alloc_tail alloc_fuel p p (length - len);
       if ok : bool then
         set_pbuf p (with_ref 1);;
         set_pbuf p (with_flags 0);;
         mret p
       else mret 0
  | PBUF_RAM =>
     p ← on_alloc (ba_mem_malloc (u16 (LWIP_MEM_ALIGN_SIZE (SIZEOF_STRUCT_PBUF + offset) + LWIP_MEM_ALIGN_SIZE length)));
     if p =? 0 then mret 0
     else
       let payload := LWIP_MEM_ALIGN (p + SIZEOF_STRUCT_PBUF + offset) in
       LWIP_ASSERT (payload mod MEM_ALIGNMENT =? 0);;
       put_pbuf p (Pbuf 0 payload length length PBUF_RAM 0 1);;
       mret p
  | PBUF_ROM | PBUF_REF =>
     p ← on_alloc (ba_memp_malloc MEMP_PBUF);
     if p =? 0 then mret 0
     else
       put_pbuf p (Pbuf 0 0 length length type 0 1);;
       mret p
  end.

(** ** Shrinking *)

(** Step over the buffers that stay whole; the new last one and the octets it
    keeps. *)
Fixpoint realloc_skip (fuel : nat) (q rem_len grow : Z) : PM (Z * Z) :=
  match fuel with
  | O => spin
  | S fuel =>
     b ← get_pbuf q;
     if p_len b <? rem_len then
       LWIP_ASSERT (grow <? 0xffff);;
       set_pbuf q (with_tot_len (u16 (p_tot_len b + u16 grow)));;
       LWIP_ASSERT (negb (p_next b =? 0));;
       realloc_skip fuel (p_next b) (u16 (rem_len - p_len b)) grow
     else mret (q, rem_len)
  end.

Definition pbuf_realloc (p new_len : Z) : PM unit :=
  LWIP_ASSERT (negb (p =? 0));;
  b ← get_pbuf p;
  if p_tot_len b <=? new_len then mret tt
  else
    fuel ← gets pbuf_fuel;
    '(q, rem_len) ← realloc_skip fuel p new_len (new_len - p_tot_len b);
    c ← get_pbuf q;
    q ← (if bool_decide (p_type c = PBUF_RAM) && negb (rem_len =? p_len c) then
           q ← on_alloc (ba_mem_trim q (u16 (u16 (p_payload c - q) + rem_len)));
           LWIP_ASSERT (negb (q =? 0));;
           mret q
         else mret q);
    set_pbuf q (with_len rem_len);;
    set_pbuf q (with_tot_len rem_len);;
    c ← get_pbuf q;
    (if negb (p_next c =? 0) then pbuf_free (p_next c);; mret tt else mret tt);;
    set_pbuf q (with_next 0).

(** ** Headers *)

Definition header_lens (p inc : Z) : PM Z :=
  b ← get_pbuf p;
  set_pbuf p (with_len (u16 (p_len b + inc)));;
  set_pbuf p (with_tot_len (u16 (p_tot_len b + inc)));;
  mret 0.

Definition pbuf_header (p header_size_increment : Z) : PM Z :=
  LWIP_ASSERT (negb (p =? 0));;
  if (header_size_increment =? 0) || (p =? 0) then mret 0
  else
    b ← get_pbuf p;
    let increment_magnitude :=
      if header_size_increment <? 0 then u16 (- header_size_increment) else u16 header_size_increment in
    (if header_size_increment <? 0 then LWIP_ERROR (increment_magnitude <=? p_len b) else mret tt);;
    let payload := p_payload b in
    match p_type b with
    | PBUF_RAM | PBUF_POOL =>
       set_pbuf p (with_payload (payload - header_size_increment));;
       if payload - header_size_increment <? p + SIZEOF_STRUCT_PBUF then
         set_pbuf p (with_payload payload);;
         mret 1
       else header_lens p header_size_increment
    | PBUF_REF | PBUF_ROM =>
       if (header_size_increment <? 0) && (increment_magnitude <=? p_len b) then
         set_pbuf p (with_payload (payload - header_size_increment));;
         header_lens p header_size_increment
       else mret 1
    end.

(** ** Chaining *)

(** To the last buffer of a chain, adding the length [tot_len] of [t] to every
    total length before it. *)
Fixpoint cat_loop (fuel : nat) (p t : Z) : PM Z :=
  match fuel with
  | O => spin
  | S fuel =>
     b ← get_pbuf p;
     if p_next b =? 0 then mret p
     else
       c ← get_pbuf t;
       set_pbuf p (with_tot_len (u16 (p_tot_len b + p_tot_len c)));;
       cat_loop fuel (p_next b) t
  end.

Definition pbuf_cat (h t : Z) : PM unit :=
  LWIP_ERROR (negb (h =? 0) && negb (t =? 0));;
  fuel ← gets pbuf_fuel;
  p ← cat_loop fuel h t;
  b ← get_pbuf p;
  LWIP_ASSERT (p_tot_len b =? p_len b);;
  LWIP_ASSERT (p_next b =? 0);;
  c ← get_pbuf t;
  set_pbuf p (with_tot_len (u16 (p_tot_len b + p_tot_len c)));;
  set_pbuf p (with_next t).

Definition pbuf_chain (h t : Z) : PM unit :=
  pbuf_cat h t;;
  pbuf_ref t.

Definition pbuf_dechain (p : Z) : PM Z :=
  b ← get_pbuf p;
  let q := p_next b in
  tail_gone ← (if negb (q =? 0) then
      c ← get_pbuf q;
      LWIP_ASSERT (p_tot_len c =? p_tot_len b - p_len b);;
      set_pbuf q (with_tot_len (u16 (p_tot_len b - p_len b)));;
      set_pbuf p (with_next 0);;
      set_pbuf p (with_tot_len (p_len b));;
      pbuf_free q
    else mret 1);
  b ← get_pbuf p;
  LWIP_ASSERT (p_tot_len b =? p_len b);;
  mret (if 0 <? tail_gone then 0 else q).

(** ** Copying *)

(** A queue of packets is refused: the last buffer of a packet, whose length is
    its total length, has no successor. *)
Definition not_queue (p : Z) : PM unit :=
  if p =? 0 then mret tt
  else
    b ← get_pbuf p;
    if p_len b =? p_tot_len b then LWIP_ERROR (p_next b =? 0) else mret tt.

Fixpoint copy_loop (fuel : nat) (p_to p_from offset_to offset_from : Z) : PM Z :=
  match fuel with
  | O => spin
  | S fuel =>
     LWIP_ASSERT (negb (p_to =? 0));;
     t ← get_pbuf p_to;
     f ← get_pbuf p_from;
     let len := if p_len f - offset_from <=? p_len t - offset_to
                then u16 (p_len f - offset_from) else u16 (p_len t - offset_to) in
     l ← load_octets (p_payload f + offset_from) len;
     store_octets (p_payload t + offset_to) l;;
     let offset_to := u16 (offset_to + len) in
     let offset_from := u16 (offset_from + len) in
     LWIP_ASSERT (offset_to <=? p_len t);;
     let '(p_to, offset_to) := if offset_to =? p_len t then (p_next t, 0) else (p_to, offset_to) in
     LWIP_ASSERT (offset_from <=? p_len f);;
     let '(p_from, offset_from) :=
       if p_len f <=? offset_from then (p_next f, 0) else (p_from, offset_from) in
     not_queue p_from;;
     not_queue p_to;;
     if p_from =? 0 then mret ERR_OK else copy_loop fuel p_to p_from offset_to offset_from
  end.

(** Every round finishes a buffer of one of the chains. *)
Definition pbuf_copy (p_to p_from : Z) : PM Z :=
  LWIP_ERROR (negb (p_to =? 0) && negb (p_from =? 0));;
  t ← get_pbuf p_to;
  f ← get_pbuf p_from;
  LWIP_ERROR (p_tot_len f <=? p_tot_len t);;
  fuel ← gets pbuf_fuel;
  copy_loop (fuel + fuel) p_to p_from 0 0.

Fixpoint copy_partial_loop (fuel : nat) (p dataptr left len offset copied_total : Z) : PM Z :=
  match fuel with
  | O => spin
  | S fuel =>
     if negb (len =? 0) && negb (p =? 0) then
       b ← get_pbuf p;
       if negb (offset =? 0) && (p_len b <=? offset) then
         copy_partial_loop fuel (p_next b) dataptr left len (u16 (offset - p_len b)) copied_total
       else
         let buf_copy_len := u16 (p_len b - offset) in
         let buf_copy_len := if len <? buf_copy_len then len else buf_copy_len in
         l ← load_octets (p_payload b + offset) buf_copy_len;
         store_octets (dataptr + left) l;;
         copy_partial_loop fuel (p_next b) dataptr (u16 (left + buf_copy_len)) (u16 (len - buf_copy_len)) 0
           (u16 (copied_total + buf_copy_len))
     else mret copied_total
  end.
Definition pbuf_copy_partial (buf dataptr len offset : Z) : PM Z :=
  LWIP_ERROR (negb (buf =? 0));;
  LWIP_ERROR (negb (dataptr =? 0));;
  fuel ← gets pbuf_fuel;
  copy_partial_loop fuel buf dataptr 0 len offset 0.

Fixpoint take_loop (fuel : nat) (p dataptr total_copy_len copied_total : Z) : PM Z :=
  match fuel with
  | O => spin
  | S fuel =>
     if total_copy_len =? 0 then mret copied_total
     else
       LWIP_ASSERT (negb (p =? 0));;
       b ← get_pbuf p;
       let buf_copy_len := if p_len b <? total_copy_len then p_len b else total_copy_len in
       l ← load_octets (dataptr + copied_total) buf_copy_len;
       store_octets (p_payload b) l;;
       take_loop fuel (p_next b) dataptr (u16 (total_copy_len - buf_copy_len)) (u16 (copied_total + buf_copy_len))
  end.
Definition pbuf_take (buf dataptr len : Z) : PM Z :=
  LWIP_ERROR (negb (buf =? 0));;
  LWIP_ERROR (negb (dataptr =? 0));;
  b ← get_pbuf buf;
  if p_tot_len b <? len then mret ERR_ARG
  else
    fuel ← gets pbuf_fuel;
    copied_total ← take_loop fuel buf dataptr len 0;
    LWIP_ASSERT (copied_total =? len);;
    mret ERR_OK.

Definition pbuf_coalesce (p : Z) (layer : pbuf_layer) : PM Z :=
  b ← get_pbuf p;
  if p_next b =? 0 then mret p
  else
    q ← pbuf_alloc layer (p_tot_len b) PBUF_RAM;
    if q =? 0 then mret p
    else
      err ← pbuf_copy q p;
      LWIP_ASSERT (err =? ERR_OK);;
      pbuf_free p;;
      mret q.

(** ** Searching *)

(** The buffer that holds an offset, and the offset in it. *)
Fixpoint at_offset (fuel : nat) (q copy_from : Z) : PM (Z * Z) :=
  match fuel with
  | O => spin
  | S fuel =>
     if q =? 0 then mret (q, copy_from)
     else
       b ← get_pbuf q;
       if p_len b <=? copy_from then at_offset fuel (p_next b) (u16 (copy_from - p_len b))
       else mret (q, copy_from)
  end.

Definition pbuf_get_at (p offset : Z) : PM Z :=
  fuel ← gets pbuf_fuel;
  '(q, copy_from) ← at_offset fuel p offset;
  if q =? 0 then mret 0
  else
    b ← get_pbuf q;
    if copy_from <? p_len b then gets (λ s, pb_data s (p_payload b + copy_from)) else mret 0.

(** [n] more octets, from the [i]-th. *)
Fixpoint memcmp_loop (n : nat) (q start s2 i : Z) : PM Z :=
  match n with
  | O => mret 0
  | S n =>
     a ← pbuf_get_at q (u16 (start + i));
     b ← gets (λ s, pb_data s (s2 + i));
     if negb (a =? b) then mret (u16 (i + 1)) else memcmp_loop n q start s2 (u16 (i + 1))
  end.

Definition pbuf_memcmp (p offset s2 n : Z) : PM Z :=
  fuel ← gets pbuf_fuel;
  '(q, start) ← at_offset fuel p offset;
  if q =? 0 then mret 0xffff
  else
    b ← get_pbuf q;
    if start <? p_len b then memcmp_loop (Z.to_nat n) q start s2 0 else mret 0xffff.

Fixpoint memfind_loop (fuel : nat) (p mem mem_len i max : Z) : PM Z :=
  match fuel with
  | O => spin
  | S fuel =>
     if i <=? max then
       plus ← pbuf_memcmp p i mem mem_len;
       if plus =? 0 then mret i else memfind_loop fuel p mem mem_len (u16 (i + plus)) max
     else mret 0xFFFF
  end.

(** The position grows, but once: 16 bits bound the rounds. *)
Definition memfind_fuel : nat := Z.to_nat (2 ^ 16 + 2).

Definition pbuf_memfind (p mem mem_len start_offset : Z) : PM Z :=
  b ← get_pbuf p;
  let max := u16 (p_tot_len b - mem_len) in
  if mem_len + start_offset <=? p_tot_len b then memfind_loop memfind_fuel p mem mem_len start_offset max
  else mret 0xFFFF.

(** [strlen], as far as [0xFFFF] octets: longer strings are all refused. *)
Fixpoint strlen_to (n : nat) (s2 : Z) (m : memory) : Z :=
  match n with
  | O => 0
  | S n => if m s2 =? 0 then 0 else 1 + strlen_to n (s2 + 1) m
  end.

Definition pbuf_strstr (p substr : Z) : PM Z :=
  if substr =? 0 then mret 0xFFFF
  else
    c ← gets (λ s, pb_data s substr);
    if c =? 0 then mret 0xFFFF
    else
      b ← get_pbuf p;
      if p_tot_len b =? 0xFFFF then mret 0xFFFF
      else
        substr_len ← gets (λ s, strlen_to (Z.to_nat 0xFFFF) substr (pb_data s));
        if 0xFFFF <=? substr_len then mret 0xFFFF
        else pbuf_memfind p substr (u16 substr_len) 0.
End Pbuf.
