(* ===== verification/PbufChain.v ===== *)
(** * Chains of packet buffers

    [chain] relates the address of a buffer to the buffers reached from it;
    [BufAllocLaws] is what the allocators promise, [pbufs_ok] the invariant of
    the buffers with the memory they lie in.  Then the operations on the
    structure of chains: counting, releasing, concatenating, splitting, hiding
    and revealing headers. *)

From S2P Require Import Prelude LwipBase Heap Memp Pbuf.
From Stdlib Require Import ZArith Lia.
From stdpp Require Import base numbers list gmap.
Open Scope Z_scope.

(** ** What the allocators promise *)

Inductive place := InHeap (size : Z) | InPool (type : Z).

Definition place_size (k : place) : Z :=
  match k with InHeap n => n | InPool t => (memp_sizes).[Z.to_nat t] end.

(** [live a L]: the allocator [a] has handed out exactly [L]. *)
Class BufAllocLaws (A : Type) `{BufAlloc A} := {
  live : A → gmap Z place → Prop;
  live_wf a L p k :
     live a L → L !! p = Some k →
     0 < p ∧ (4 | p) ∧ p + place_size k < 2 ^ 32 ∧ 12 ≤ place_size k < 2 ^ 16 ∧ (4 | place_size k);
  live_apart a L p k q j :
     live a L → L !! p = Some k → L !! q = Some j → p ≠ q → p + place_size k ≤ q ∨ q + place_size j ≤ p;
  mem_malloc_law a L n :
     live a L → is_u16 n → ∃ p a', ba_mem_malloc n a = Ok (p, a') ∧
       ((p = 0 ∧ live a' L) ∨ (L !! p = None ∧ live a' (<[p := InHeap (request_size n)]> L)));
  mem_free_law a L p n :
     live a L → L !! p = Some (InHeap n) → ∃ a', ba_mem_free p a = Ok (tt, a') ∧ live a' (delete p L);
  mem_trim_law a L p n newsize :
     live a L → L !! p = Some (InHeap n) → is_u16 newsize → request_size newsize ≤ n →
     ∃ a', ba_mem_trim p newsize a = Ok (p, a') ∧ live a' (<[p := InHeap (request_size newsize)]> L);
  memp_malloc_law a L t :
     live a L → 0 ≤ t < MEMP_MAX → ∃ p a', ba_memp_malloc t a = Ok (p, a') ∧
       ((p = 0 ∧ live a' L) ∨ (L !! p = None ∧ live a' (<[p := InPool t]> L)));
  memp_free_law a L p t :
     live a L → 0 ≤ t < MEMP_MAX → L !! p = Some (InPool t) →
     ∃ a', ba_memp_free t p a = Ok (tt, a') ∧ live a' (delete p L) }.

(** ** Chains *)

Abbreviation cell := (Z * pbuf)%type.
Abbreviation store := (gmap Z pbuf).

Fixpoint chain (st : store) (p : Z) (l : list cell) : Prop :=
  match l with
  | [] => p = 0
  | (a, b) :: l => p = a ∧ a ≠ 0 ∧ st !! a = Some b ∧ chain st (p_next b) l
  end.

Fixpoint total_len (l : list cell) : Z :=
  match l with [] => 0 | c :: l => p_len c.2 + total_len l end.

(** The invariant that [struct pbuf] documents: [tot_len] is the length of the
    buffer and of all those behind it. *)
Fixpoint lens_ok (l : list cell) : Prop :=
  match l with
  | [] => True
  | (_, b) :: l => 0 ≤ p_len b ∧ p_tot_len b = p_len b + total_len l ∧ lens_ok l
  end.

(** A packet that starts at [p]. *)
Record packet (st : store) (p : Z) (l : list cell) : Prop := {
  pk_chain : chain st p l;
  pk_lens : lens_ok l;
  pk_u16 : total_len l < 2 ^ 16;
  pk_ne : l ≠ [] }.

Lemma total_len_app l k : total_len (l ++ k) = total_len l + total_len k.
Proof. induction l as [|[a b] l IH]; simpl; [done|]. rewrite IH. lia. Qed.
Lemma lens_nonneg l : lens_ok l → 0 ≤ total_len l.
Proof. induction l as [|[a b] l IH]; simpl; [lia|]. intros (? & _ & ?%IH). lia. Qed.

Lemma chain_fun st p l k : chain st p l → chain st p k → l = k.
Proof.
  revert p k. induction l as [|[a b] l IH]; intros p [|[c d] k]; simpl; [done|by intros -> (<- & ? & _)|by intros (<- & ? & _) ->|].
  intros (-> & ? & Hb & Hl) (-> & _ & Hd & Hk). rewrite Hb in Hd. injection Hd as ->.
  f_equal. by eapply IH.
Qed.
Lemma chain_app st p l k :
  chain st p (l ++ k) → ∃ q, chain st q k ∧ ∀ c, c ∈ l → st !! c.1 = Some c.2.
Proof.
  revert p. induction l as [|[a b] l IH]; intros p; simpl.
  - intros H. exists p. split; [done|]. by intros c ?%elem_of_nil.
  - intros (-> & ? & Hb & H). destruct (IH _ H) as (q & Hq & Hc). exists q. split; [done|].
    by intros c [->|Hin]%elem_of_cons; [|apply Hc].
Qed.
Lemma chain_lookup st p l a b : chain st p l → (a, b) ∈ l → st !! a = Some b.
Proof.
  intros H Hin. rewrite <-(app_nil_r l) in H. destruct (chain_app _ _ _ _ H) as (_ & _ & Hc).
  by apply (Hc (a, b)).
Qed.

(** A chain that ends does not come back. *)
Lemma chain_nodup st p l : chain st p l → NoDup l.*1.
Proof.
  revert p. induction l as [|[a b] l IH]; intros p; simpl; [constructor|].
  intros (-> & Ha & Hb & Hl). apply NoDup_cons. split; [|by eapply IH].
  intros ([a' b'] & E & Hin)%list_elem_of_fmap. simpl in E. subst a'.
  apply list_elem_of_split in Hin as (l1 & l2 & ->). simpl in *.
  pose proof (chain_lookup _ _ _ a b' Hl ltac:(set_solver)) as Hb'. rewrite Hb in Hb'. injection Hb' as <-.
  assert (∃ q, chain st q ((a, b) :: l2)) as [q Hq] by (destruct (chain_app _ _ _ _ Hl) as (q & ? & _); by exists q).
  simpl in Hq. destruct Hq as (-> & _ & _ & Hq). pose proof (chain_fun _ _ _ _ Hl Hq) as E.
  apply (f_equal length) in E. rewrite length_app in E. simpl in E. lia.
Qed.

Lemma chain_size st p l : chain st p l → (length l ≤ size st)%nat.
Proof.
  intros H. pose proof (chain_nodup _ _ _ H) as Hnd. rewrite <-(length_fmap fst l).
  rewrite <-(size_list_to_set (C := gset Z) _ Hnd), <-size_dom.
  apply subseteq_size. intros a (c & -> & Hc)%elem_of_list_to_set%list_elem_of_fmap.
  apply elem_of_dom. exists c.2. destruct c. by eapply chain_lookup.
Qed.

(** A chain depends on its own buffers only. *)
Lemma chain_frame st st' p l :
  (∀ a, a ∈ l.*1 → st' !! a = st !! a) → chain st p l → chain st' p l.
Proof.
  revert p. induction l as [|[a b] l IH]; intros p Hst; simpl; [done|]. intros (-> & ? & Hb & Hl).
  split; [done|]. split; [done|]. split; [rewrite Hst; [done|by left]|].
  apply IH; [|done]. intros c Hc. apply Hst. by right.
Qed.
Lemma chain_insert st p l a b : a ∉ l.*1 → chain st p l → chain (<[a := b]> st) p l.
Proof.
  intros Ha. apply chain_frame. intros c Hc. rewrite lookup_insert_ne; [done|]. by intros ->.
Qed.
Lemma chain_delete st p l a : a ∉ l.*1 → chain st p l → chain (delete a st) p l.
Proof.
  intros Ha. apply chain_frame. intros c Hc. rewrite lookup_delete_ne; [done|]. by intros ->.
Qed.

(** ** The buffers and their memory *)

(** A buffer lies where its type says, with its payload behind the structure. *)
Definition buf_ok (L : gmap Z place) (p : Z) (b : pbuf) : Prop :=
  is_u16 (p_len b) ∧ is_u16 (p_tot_len b) ∧ is_u16 (p_ref b) ∧
  match p_type b with
  | PBUF_RAM => ∃ n, L !! p = Some (InHeap n) ∧
      p + SIZEOF_STRUCT_PBUF ≤ p_payload b ∧ p_payload b + p_len b ≤ p + n
  | PBUF_POOL => L !! p = Some (InPool MEMP_PBUF_POOL) ∧
      p + SIZEOF_STRUCT_PBUF ≤ p_payload b ∧
      p_payload b + p_len b ≤ p + SIZEOF_STRUCT_PBUF + PBUF_POOL_BUFSIZE_ALIGNED
  | PBUF_ROM | PBUF_REF => L !! p = Some (InPool MEMP_PBUF)
  end.

Section Chains.
Context {A : Type} `{BufAllocLaws A}.
Implicit Types (s : pbufs_state A).

Record pbufs_ok (s : pbufs_state A) (L : gmap Z place) : Prop := {
  pb_live : live (pb_alloc s) L;
  pb_bufs : ∀ p b, pb_store s !! p = Some b → buf_ok L p b }.

(** ** Steps *)

Lemma get_pbuf_step {B} p b (k : pbuf → M (pbufs_state A) B) s :
  pb_store s !! p = Some b → (get_pbuf p ≫= k) s = k b s.
Proof. intros Hp. rewrite bind_unfold. unfold get_pbuf. by rewrite Hp. Qed.
Lemma set_pbuf_step {B} p b f (k : unit → M (pbufs_state A) B) s :
  pb_store s !! p = Some b →
  (set_pbuf p f ≫= k) s = k tt (Pbufs (<[p := f b]> (pb_store s)) (pb_data s) (pb_alloc s)).
Proof. intros Hp. rewrite bind_unfold. unfold set_pbuf. by rewrite (get_pbuf_step _ _ _ _ Hp). Qed.
Lemma gets_bind {St B C} (f : St → B) (k : B → M St C) (t : St) : (gets f ≫= k) t = k (f t) t.
Proof. done. Qed.
Lemma on_alloc_step {B C} (m : M A B) (k : B → M (pbufs_state A) C) s x a' :
  m (pb_alloc s) = Ok (x, a') → (on_alloc m ≫= k) s = k x (Pbufs (pb_store s) (pb_data s) a').
Proof. intros E. rewrite bind_unfold. unfold on_alloc, lift. by rewrite E. Qed.

(** A change of one buffer, of the memory it lies in, of its octets. *)
Lemma pbufs_ok_insert s L p b b' m :
  pbufs_ok s L → pb_store s !! p = Some b → buf_ok L p b' →
  pbufs_ok (Pbufs (<[p := b']> (pb_store s)) m (pb_alloc s)) L.
Proof.
  intros [H1 H2] Hp Hb. split; [done|]. simpl. intros q c [[<- <-]|[_ Hq]]%lookup_insert_Some; [done|by apply H2].
Qed.
Lemma buf_ok_frame L L' p b : L' !! p = L !! p → buf_ok L p b → buf_ok L' p b.
Proof. unfold buf_ok. by intros ->. Qed.
Lemma pbufs_ok_delete s L p m a' :
  pbufs_ok s L → live a' (delete p L) → pbufs_ok (Pbufs (delete p (pb_store s)) m a') (delete p L).
Proof.
  intros [_ H2] Ha. split; [done|]. simpl. intros q c [Hne Hq]%lookup_delete_Some.
  eapply buf_ok_frame, H2; [|done]. by rewrite lookup_delete_ne.
Qed.

(** ** Counting *)

Lemma clen_loop_ok fuel s p l n :
  chain (pb_store s) p l → (length l < fuel)%nat → 0 ≤ n →
  clen_loop fuel p (u8 n) s = Ok (u8 (n + Z.of_nat (length l)), s).
Proof.
  revert fuel p n. induction l as [|[a b] l IH]; intros [|fuel] p n; simpl length; try lia.
  - intros -> _ _. cbn. by rewrite Z.add_0_r.
  - intros (-> & Ha & Hb & Hl) Hf Hn. cbn [clen_loop]. rewrite (proj2 (Z.eqb_neq _ _) Ha).
    rewrite (get_pbuf_step _ _ _ _ Hb).
    replace (u8 (u8 n + 1)) with (u8 (n + 1)) by (unfold u8; by rewrite Z.add_mod_idemp_l).
    rewrite IH by (done || lia). do 3 f_equal. lia.
Qed.
Lemma pbuf_clen_ok s p l :
  chain (pb_store s) p l → pbuf_clen p s = Ok (u8 (Z.of_nat (length l)), s).
Proof.
  intros Hc. unfold pbuf_clen. rewrite gets_bind. pose proof (chain_size _ _ _ Hc).
  change 0 with (u8 0) at 1. rewrite (clen_loop_ok _ _ _ l) by (done || unfold pbuf_fuel; lia). done.
Qed.

(** ** Releasing *)

(** Releasing a chain removes the buffers nobody else refers to, up to the
    first that somebody does. *)
Fixpoint freed (l : list cell) : list cell :=
  match l with
  | [] => []
  | (a, b) :: l => if p_ref b =? 1 then (a, b) :: freed l else []
  end.
Fixpoint kept (l : list cell) : list cell :=
  match l with
  | [] => []
  | (a, b) :: l => if p_ref b =? 1 then kept l else (a, with_ref (p_ref b - 1) b) :: l
  end.
Fixpoint unref (l : list cell) (st : store) : store :=
  match l with
  | [] => st
  | (a, b) :: l => if p_ref b =? 1 then unref l (delete a st) else <[a := with_ref (p_ref b - 1) b]> st
  end.
Fixpoint unlive (l : list cell) (L : gmap Z place) : gmap Z place :=
  match l with
  | [] => L
  | (a, b) :: l => if p_ref b =? 1 then unlive l (delete a L) else L
  end.

Lemma release_step {B} s L p b (k : unit → M (pbufs_state A) B) :
  pbufs_ok s L → buf_ok L p b →
  ∃ a', (release_pbuf p (p_type b) ≫= k) s = k tt (Pbufs (delete p (pb_store s)) (pb_data s) a') ∧
        live a' (delete p L).
Proof.
  intros Hs (_ & _ & _ & Hb). pose proof (pb_live _ _ Hs) as Hl.
  assert (∃ a', (match p_type b with
                 | PBUF_POOL => on_alloc (ba_memp_free MEMP_PBUF_POOL p)
                 | PBUF_ROM | PBUF_REF => on_alloc (ba_memp_free MEMP_PBUF p)
                 | PBUF_RAM => on_alloc (ba_mem_free p) end)
            (Pbufs (delete p (pb_store s)) (pb_data s) (pb_alloc s))
          = Ok (tt, Pbufs (delete p (pb_store s)) (pb_data s) a') ∧ live a' (delete p L)) as (a' & E & Ha').
  { unfold on_alloc, lift. cbn [pb_alloc pb_store pb_data].
    destruct (p_type b); cbn [pb_alloc pb_store pb_data].
    - destruct Hb as (n & Hp & _). destruct (mem_free_law _ _ _ _ Hl Hp) as (a' & -> & ?). by exists a'.
    - destruct (memp_free_law _ _ p MEMP_PBUF Hl ltac:(done) Hb) as (a' & -> & ?). by exists a'.
    - destruct (memp_free_law _ _ p MEMP_PBUF Hl ltac:(done) Hb) as (a' & -> & ?). by exists a'.
    - destruct Hb as [Hp _].
      destruct (memp_free_law _ _ p MEMP_PBUF_POOL Hl ltac:(done) Hp) as (a' & -> & ?). by exists a'. }
  exists a'. split; [|done]. rewrite bind_unfold. unfold release_pbuf. rewrite bind_unfold.
  unfold drop_pbuf. cbn [pb_alloc pb_store pb_data]. by rewrite E.
Qed.

Lemma free_loop_end fuel count s : (0 < fuel)%nat → free_loop fuel 0 count s = Ok (count, s).
Proof. destruct fuel; [lia|done]. Qed.

Lemma free_loop_ok fuel l p s L n :
  pbufs_ok s L → chain (pb_store s) p l → Forall (λ c, 0 < p_ref c.2) l →
  (S (length l) < fuel)%nat →
  ∃ a', free_loop fuel p (u8 n) s =
          Ok (u8 (n + Z.of_nat (length (freed l))), Pbufs (unref l (pb_store s)) (pb_data s) a') ∧
        pbufs_ok (Pbufs (unref l (pb_store s)) (pb_data s) a') (unlive l L).
Proof.
  revert fuel p s L n. induction l as [|[a b] l IH]; intros fuel p s L n Hs Hc Hr Hf.
  { simpl in Hc. subst p. exists (pb_alloc s). rewrite free_loop_end by lia. simpl. rewrite Z.add_0_r.
    by destruct s. }
  destruct Hc as (-> & Ha & Hb & Hc). apply Forall_cons in Hr as [Hr1 Hr]. simpl in Hr1.
  destruct fuel as [|fuel]; [lia|]. cbn [free_loop]. rewrite (proj2 (Z.eqb_neq _ _) Ha).
  rewrite (get_pbuf_step _ _ _ _ Hb), assert_true by (by apply Z.ltb_lt).
  pose proof (pb_bufs _ _ Hs _ _ Hb) as Hok. pose proof Hok as (Hlen & Htot & Hu & Hpl).
  rewrite (u16_small (p_ref b - 1)) by (unfold is_u16 in *; lia). rewrite (set_pbuf_step _ b) by done.
  cbn [freed unref unlive]. destruct (Z.eqb_spec (p_ref b) 1) as [E1|E1].
  - rewrite (proj2 (Z.eqb_eq (p_ref b - 1) 0)) by lia.
    assert (pbufs_ok (Pbufs (<[a := with_ref (p_ref b - 1) b]> (pb_store s)) (pb_data s) (pb_alloc s)) L) as Hs1.
    { apply pbufs_ok_insert with b; [done|done|]. split; [done|]. split; [done|].
      split; [unfold is_u16 in *; simpl; lia|done]. }
    destruct (release_step _ _ a (with_ref (p_ref b - 1) b)
                (λ _, free_loop fuel (p_next b) (u8 (u8 n + 1))) Hs1 (pb_bufs _ _ Hs1 _ _ (lookup_insert_eq _ _ _)))
      as (a' & E & Ha'). cbn [p_type with_ref pb_store pb_data] in E. rewrite E, delete_insert_eq.
    replace (u8 (u8 n + 1)) with (u8 (n + 1)) by (unfold u8; by rewrite Z.add_mod_idemp_l).
    assert (a ∉ l.*1) as Hal.
    { intros Hin. pose proof (chain_nodup (pb_store s) a ((a, b) :: l)) as Hnd.
      cbn in Hnd. apply NoDup_cons in Hnd as [Hn _]; [|done]. done. }
    destruct (IH fuel (p_next b) (Pbufs (delete a (pb_store s)) (pb_data s) a') (delete a L) (n + 1))
      as (a2 & E2 & H2); [by eapply pbufs_ok_delete| by apply chain_delete|done|simpl in Hf; lia|].
    cbn [pb_store pb_data] in E2, H2. exists a2. rewrite E2. split; [|done].
    cbn [length]. do 3 f_equal. lia.
  - rewrite (proj2 (Z.eqb_neq (p_ref b - 1) 0)) by lia. simpl in Hf. rewrite free_loop_end by lia.
    exists (pb_alloc s). split; [simpl; by rewrite Z.add_0_r|].
    apply pbufs_ok_insert with b; [done|done|]. split; [done|]. split; [done|].
    split; [unfold is_u16 in *; simpl; lia|done].
Qed.

Lemma pbuf_free_ok s L p l :
  pbufs_ok s L → chain (pb_store s) p l → l ≠ [] → Forall (λ c, 0 < p_ref c.2) l →
  ∃ a', pbuf_free p s = Ok (u8 (Z.of_nat (length (freed l))), Pbufs (unref l (pb_store s)) (pb_data s) a') ∧
        pbufs_ok (Pbufs (unref l (pb_store s)) (pb_data s) a') (unlive l L).
Proof.
  intros Hs Hc Hne Hr. unfold pbuf_free. assert (p ≠ 0) as Hp by (destruct l as [|[]]; [done|by destruct Hc as (-> & ? & _)]).
  rewrite (proj2 (Z.eqb_neq _ _) Hp), gets_bind. pose proof (chain_size _ _ _ Hc).
  apply (free_loop_ok _ l p s L 0); [done|done|done|]. unfold pbuf_fuel. lia.
Qed.

(** What is left of the chain. *)
Lemma unref_frame l st a : a ∉ l.*1 → unref l st !! a = st !! a.
Proof.
  revert st. induction l as [|[c b] l IH]; intros st Ha; [done|]. cbn in *. apply not_elem_of_cons in Ha as [Hne Ha].
  case_match; [rewrite IH by done; by rewrite lookup_delete_ne|by rewrite lookup_insert_ne].
Qed.
Lemma unref_chain l p st :
  chain st p l → ∃ q, chain (unref l st) q (kept l) ∧ ∀ a, a ∈ (freed l).*1 → unref l st !! a = None.
Proof.
  revert p st. induction l as [|[a b] l IH]; intros p st Hc; [exists 0; split; [done|by intros ? ?%elem_of_nil]|].
  pose proof (chain_nodup _ _ _ Hc) as Hnd. cbn in Hnd. apply NoDup_cons in Hnd as [Ha _].
  destruct Hc as (-> & Hnz & Hb & Hc). cbn [unref kept freed]. case_match.
  - destruct (IH _ (delete a st) (chain_delete _ _ _ _ Ha Hc)) as (q & Hq & Hf). exists q. split; [done|].
    intros c [->|Hin]%elem_of_cons; [|by apply Hf]. simpl. rewrite unref_frame by done. apply lookup_delete_eq.
  - exists a. split; [|by intros ? ?%elem_of_nil]. simpl. rewrite lookup_insert_eq.
    repeat (split; [done|]). by apply chain_insert.
Qed.
Lemma unlive_lookup l L a : unlive l L !! a = if decide (a ∈ (freed l).*1) then None else L !! a.
Proof.
  revert L. induction l as [|[c b] l IH]; intros L; cbn [unlive freed];
    [by rewrite decide_False by (by intros ?%elem_of_nil)|].
  destruct (p_ref b =? 1); [|by rewrite decide_False by (by intros ?%elem_of_nil)].
  rewrite IH. change ((((c, b) :: freed l).*1)) with (c :: (freed l).*1).
  destruct (decide (a = c)) as [->|Hne].
  - rewrite lookup_delete_eq, (decide_True (P := c ∈ c :: _)) by (by left). by case_decide.
  - rewrite lookup_delete_ne by done. by repeat (case_decide; set_unfold); try tauto.
Qed.
End Chains.
