(* ===== verification/PbufLinks.v ===== *)
(** * Joining and splitting chains; headers

    [pbuf_cat], [pbuf_chain], [pbuf_dechain] and [pbuf_header] change the links
    and the lengths of buffers, never their octets. *)

From S2P Require Import Prelude LwipBase Heap Memp Pbuf PbufChain.
From Stdlib Require Import ZArith Lia.
From stdpp Require Import base numbers list gmap.
Open Scope Z_scope.

(** ** Shapes of chains *)

Fixpoint links (p : Z) (l : list cell) (q : Z) : Prop :=
  match l with
  | [] => p = q
  | (a, b) :: l => p = a ∧ a ≠ 0 ∧ links (p_next b) l q
  end.
Definition stored (st : store) (l : list cell) : Prop := ∀ a b, (a, b) ∈ l → st !! a = Some b.

Lemma stored_cons st a b l : stored st ((a, b) :: l) ↔ st !! a = Some b ∧ stored st l.
Proof.
  unfold stored. split.
  - intros Hs. split; [apply Hs; by left|]. intros c d Hin. apply Hs. by right.
  - intros [Hb Hs] c d [[= -> ->]|Hin]%elem_of_cons; [done|by apply Hs].
Qed.
Lemma stored_app st l k : stored st (l ++ k) ↔ stored st l ∧ stored st k.
Proof. unfold stored. setoid_rewrite elem_of_app. split; [intros Hs; split; auto|]. intros [] a b []; auto. Qed.
Lemma chain_links st p l : chain st p l ↔ links p l 0 ∧ stored st l.
Proof.
  revert p. induction l as [|[a b] l IH]; intros p; simpl.
  - split; [|by intros [-> _]]. intros ->. split; [done|]. by intros ? ? ?%elem_of_nil.
  - rewrite IH, stored_cons. tauto.
Qed.
Lemma links_app p l k q : links p (l ++ k) q ↔ ∃ r, links p l r ∧ links r k q.
Proof.
  revert p. induction l as [|[a b] l IH]; intros p; simpl.
  - split; [intros Hk; by exists p|]. by intros (r & -> & Hk).
  - rewrite IH. split; [intros (-> & ? & r & ? & ?); by exists r|]. intros (r & (-> & ? & ?) & ?).
    repeat (split; [done|]). by exists r.
Qed.

(** [l] written to the store. *)
Fixpoint write_cells (l : list cell) (st : store) : store :=
  match l with [] => st | (a, b) :: l => write_cells l (<[a := b]> st) end.

Lemma write_cells_frame l st a : a ∉ l.*1 → write_cells l st !! a = st !! a.
Proof.
  revert st. induction l as [|[c b] l IH]; intros st Ha; [done|]. cbn in *.
  apply not_elem_of_cons in Ha as [Hne Ha]. rewrite IH by done. by rewrite lookup_insert_ne.
Qed.
Lemma write_cells_app l k st : write_cells (l ++ k) st = write_cells k (write_cells l st).
Proof. revert st. induction l as [|[a b] l IH]; intros st; [done|]. apply IH. Qed.
Lemma write_cells_lookup l st a b : write_cells l st !! a = Some b → (a, b) ∈ l ∨ st !! a = Some b.
Proof.
  revert st. induction l as [|[c d] l IH]; intros st Ha; [by right|].
  apply IH in Ha as [Ha|[[-> ->]|[_ Ha]]%lookup_insert_Some]; [left; by right|left; by left|by right].
Qed.
Lemma write_cells_stored l st : NoDup l.*1 → stored (write_cells l st) l.
Proof.
  revert st. induction l as [|[a b] l IH]; intros st Hnd; [by intros ? ? ?%elem_of_nil|].
  cbn in *. apply NoDup_cons in Hnd as [Ha Hnd]. apply stored_cons. split; [|by apply IH].
  rewrite write_cells_frame by done. apply lookup_insert_eq.
Qed.
Lemma stored_frame st st' l : (∀ a, a ∈ l.*1 → st' !! a = st !! a) → stored st l → stored st' l.
Proof.
  intros Hst Hl a b Hin. rewrite Hst; [by apply Hl|]. apply list_elem_of_fmap. by exists (a, b).
Qed.

(** Buffers that agree but for links and total length. *)
Definition same_buf (b c : pbuf) : Prop :=
  p_payload c = p_payload b ∧ p_len c = p_len b ∧ p_type c = p_type b ∧
  p_flags c = p_flags b ∧ p_ref c = p_ref b.
Definition same_bufs (l k : list cell) : Prop := Forall2 (λ x y, y.1 = x.1 ∧ same_buf x.2 y.2) l k.

#[export] Instance same_buf_refl : Reflexive same_buf.
Proof. by intros b. Qed.
#[export] Instance same_bufs_refl : Reflexive same_bufs.
Proof. intros l. apply Forall2_same_length_lookup_2; [done|]. intros i x y Hx Hy. by simplify_eq. Qed.
#[export] Instance same_bufs_trans : Transitive same_bufs.
Proof.
  intros l k j Hlk. revert j. induction Hlk as [|x y l k [E (? & ? & ? & ? & ?)] _ IH]; intros j Hkj.
  - by apply Forall2_nil_inv_l in Hkj as ->.
  - apply Forall2_cons_inv_l in Hkj as (z & j' & [E' (? & ? & ? & ? & ?)] & Hj & ->). constructor; [|by apply IH].
    unfold same_buf. repeat split; congruence.
Qed.
Lemma same_bufs_fst l k : same_bufs l k → k.*1 = l.*1.
Proof. induction 1 as [|x y l k [E _] _ IH]; [done|]. cbn. by rewrite E, IH. Qed.
Lemma same_bufs_total l k : same_bufs l k → total_len k = total_len l.
Proof.
  induction 1 as [|x y l k (_ & _ & E & _) _ IH]; [done|].
  simpl. by rewrite E, IH.
Qed.

(** ** Contents *)

Definition cell_data (m : memory) (c : cell) : list Z :=
  mem_read m (p_payload c.2) (Z.to_nat (p_len c.2)).
Fixpoint contents (m : memory) (l : list cell) : list Z :=
  match l with [] => [] | c :: l => cell_data m c ++ contents m l end.

Lemma length_mem_read m a n : length (mem_read m a n) = n.
Proof. unfold mem_read. by rewrite length_map, length_seq. Qed.
Lemma contents_app m l k : contents m (l ++ k) = contents m l ++ contents m k.
Proof. induction l as [|c l IH]; [done|]. simpl. by rewrite IH, app_assoc. Qed.
Lemma length_contents m l : lens_ok l → Z.of_nat (length (contents m l)) = total_len l.
Proof.
  induction l as [|[a b] l IH]; [done|]. simpl. intros (Hb & _ & Hl). specialize (IH Hl).
  rewrite length_app. unfold cell_data. rewrite length_mem_read. simpl. lia.
Qed.
Lemma same_bufs_contents m l k : same_bufs l k → contents m k = contents m l.
Proof.
  induction 1 as [|[a b] [c d] l k (_ & E1 & E2 & _) _ IH]; [done|]. simpl in *.
  rewrite IH. unfold cell_data. simpl. by rewrite E1, E2.
Qed.

Section Links.
Context {A : Type} `{BufAllocLaws A}.
Implicit Types (s : pbufs_state A).

(** ** Concatenation *)

Definition grow (n : Z) (c : cell) : cell := (c.1, with_tot_len (u16 (p_tot_len c.2 + n)) c.2).
Definition attach (n t : Z) (c : cell) : cell := (c.1, with_next t (with_tot_len (u16 (p_tot_len c.2 + n)) c.2)).

Lemma cat_loop_ok fuel l1 z bz p t bt s :
  chain (pb_store s) p (l1 ++ [(z, bz)]) → t ∉ l1.*1 → pb_store s !! t = Some bt → (length l1 < fuel)%nat →
  cat_loop fuel p t s =
    Ok (z, Pbufs (write_cells (grow (p_tot_len bt) <$> l1) (pb_store s)) (pb_data s) (pb_alloc s)).
Proof.
  revert fuel p s. induction l1 as [|[a b] l1 IH]; intros [|fuel] p s Hc Ht Hbt Hf; simpl in Hf; try lia.
  - destruct Hc as (-> & Hz & Hb & E). simpl in E. cbn [cat_loop]. rewrite (get_pbuf_step _ _ _ _ Hb).
    rewrite E. simpl. by destruct s.
  - pose proof (chain_nodup _ _ _ Hc) as Hnd. cbn in Hnd. apply NoDup_cons in Hnd as [Ha _].
    destruct Hc as (-> & Hz & Hb & Hc). cbn in Ht. apply not_elem_of_cons in Ht as [Hta Ht].
    cbn [cat_loop]. rewrite (get_pbuf_step _ _ _ _ Hb).
    assert (p_next b ≠ 0) as Hn by (destruct l1 as [|[]]; by destruct Hc as (-> & ? & _)).
    rewrite (proj2 (Z.eqb_neq _ _) Hn), (get_pbuf_step _ _ _ _ Hbt), (set_pbuf_step _ b) by done.
    rewrite IH; [done| |done| |lia]; cbn [pb_store].
    + by apply chain_insert.
    + by rewrite lookup_insert_ne.
Qed.

(** The chain after [pbuf_cat]. *)
Definition cat_cells (n t : Z) (l1 : list cell) (z : Z) (bz : pbuf) : list cell :=
  (grow n <$> l1) ++ [attach n t (z, bz)].

Lemma fst_grow n l : (grow n <$> l).*1 = l.*1.
Proof. rewrite <-list_fmap_compose. by apply list_fmap_ext. Qed.
Lemma same_bufs_grow n l : same_bufs l (grow n <$> l).
Proof. induction l as [|c l IH]; constructor; [|done]. by split. Qed.
Lemma same_bufs_cat n t l1 z bz : same_bufs (l1 ++ [(z, bz)]) (cat_cells n t l1 z bz).
Proof. apply Forall2_app; [apply same_bufs_grow|]. repeat constructor. Qed.
Lemma links_grow n p l q : links p l q → links p (grow n <$> l) q.
Proof.
  revert p. induction l as [|[a b] l IH]; intros p; [done|]. simpl. intros (-> & ? & ?). auto.
Qed.
Lemma lens_ok_cat n t l1 z bz k :
  lens_ok (l1 ++ [(z, bz)]) → lens_ok k → total_len k = n → total_len (l1 ++ [(z, bz)]) + n < 2 ^ 16 →
  lens_ok (cat_cells n t l1 z bz ++ k).
Proof.
  intros Hl Hk E Hb. pose proof (lens_nonneg _ Hk) as Hn. induction l1 as [|[a b] l1 IH].
  - destruct Hl as (H1 & H2 & _). simpl in *. rewrite (u16_small _) by cint. split; [done|]. split; [lia|done].
  - destruct Hl as (H1 & H2 & Hl). simpl in *. pose proof (lens_nonneg _ Hl).
    specialize (IH Hl ltac:(lia)). pose proof (same_bufs_total _ _ (same_bufs_cat n t l1 z bz)) as Et.
    change (lens_ok ((a, with_tot_len (u16 (p_tot_len b + n)) b) :: (cat_cells n t l1 z bz ++ k))).
    cbn [lens_ok with_tot_len p_len p_tot_len]. split; [done|]. split; [|done].
    rewrite (total_len_app (cat_cells _ _ _ _ _)), Et, u16_small by cint. lia.
Qed.

Lemma buf_ok_same L p b c :
  same_buf b c → is_u16 (p_tot_len c) → buf_ok L p b → buf_ok L p c.
Proof. intros (E1 & E2 & E3 & _ & E4) Ht. unfold buf_ok. rewrite E1, E2, E3, E4. tauto. Qed.

Lemma pbufs_ok_cells s L l k :
  pbufs_ok s L → stored (pb_store s) l → same_bufs l k → Forall (λ c, is_u16 (p_tot_len c.2)) k →
  pbufs_ok (Pbufs (write_cells k (pb_store s)) (pb_data s) (pb_alloc s)) L.
Proof.
  intros Hs Hl Hlk Hk. split; [apply (pb_live _ _ Hs)|]. cbn [pb_store].
  intros a c [Ha|Ha]%write_cells_lookup; [|by apply (pb_bufs _ _ Hs)].
  apply list_elem_of_lookup in Ha as [i Ha]. destruct (Forall2_lookup_r _ _ _ _ _ Hlk Ha) as ([a' b] & Hb & E & Hsame).
  simpl in E, Hsame. subst a'. eapply buf_ok_same; [exact Hsame| |].
  - by apply (proj1 (Forall_lookup _ _) Hk i (a, c)).
  - apply (pb_bufs _ _ Hs), Hl. by eapply list_elem_of_lookup_2.
Qed.

Lemma last_tot_len l1 z bz : lens_ok (l1 ++ [(z, bz)]) → p_tot_len bz = p_len bz.
Proof. induction l1 as [|[a b] l1 IH]; simpl; [lia|tauto]. Qed.

Lemma cat_runs s h t l1 z bz bt :
  chain (pb_store s) h (l1 ++ [(z, bz)]) → lens_ok (l1 ++ [(z, bz)]) →
  pb_store s !! t = Some bt → t ≠ 0 → t ∉ l1.*1 → t ≠ z →
  pbuf_cat h t s =
    Ok (tt, Pbufs (write_cells (cat_cells (p_tot_len bt) t l1 z bz) (pb_store s)) (pb_data s) (pb_alloc s)).
Proof.
  intros Hc Hl Hbt Ht Ht1 Htz. pose proof (chain_nodup _ _ _ Hc) as Hnd. rewrite fmap_app in Hnd.
  apply NoDup_app in Hnd as (_ & Hz & _).
  assert (z ∉ (grow (p_tot_len bt) <$> l1).*1) as Hz1
    by (rewrite fst_grow; intros Hin; apply (Hz z Hin); by left).
  assert (t ∉ (grow (p_tot_len bt) <$> l1).*1) as Ht2 by by rewrite fst_grow.
  destruct (chain_app _ _ _ _ Hc) as (zq & (-> & Hz0 & Hbz & Enz) & _). simpl in Enz.
  assert (h ≠ 0) as Hh by (destruct l1 as [|[]]; by destruct Hc as (-> & ? & _)).
  pose proof (chain_size _ _ _ Hc) as Hsz. rewrite length_app in Hsz. simpl in Hsz.
  assert (length l1 < pbuf_fuel s)%nat as Hf by (unfold pbuf_fuel; lia).
  unfold pbuf_cat. rewrite error_true by (by rewrite (proj2 (Z.eqb_neq _ _) Hh), (proj2 (Z.eqb_neq _ _) Ht)).
  rewrite gets_bind, (bind_ok _ _ _ _ _ (cat_loop_ok _ l1 z bz h t bt s Hc Ht1 Hbt Hf)).
  rewrite (get_pbuf_step _ bz) by (cbn [pb_store]; by rewrite write_cells_frame).
  rewrite assert_true by (apply Z.eqb_eq; by eapply last_tot_len). rewrite assert_true by (by apply Z.eqb_eq).
  rewrite (get_pbuf_step _ bt) by (cbn [pb_store]; by rewrite write_cells_frame).
  rewrite (set_pbuf_step _ bz) by (cbn [pb_store]; by rewrite write_cells_frame).
  unfold set_pbuf. rewrite (get_pbuf_step _ _ _ _ (lookup_insert_eq _ _ _)).
  unfold put_pbuf. cbn [pb_store pb_data pb_alloc]. unfold cat_cells. rewrite write_cells_app. simpl.
  by rewrite insert_insert_eq.
Qed.

Lemma cat_chain st h t l1 z bz k n :
  chain st h (l1 ++ [(z, bz)]) → chain st t k → (l1 ++ [(z, bz)]).*1 ## k.*1 →
  chain (write_cells (cat_cells n t l1 z bz) st) h (cat_cells n t l1 z bz ++ k).
Proof.
  intros Hc Hk Hd. pose proof (chain_nodup _ _ _ Hc) as Hnd.
  pose proof (same_bufs_fst _ _ (same_bufs_cat n t l1 z bz)) as Hfst.
  apply chain_links in Hc as [Hlk Hst], Hk as [Hlk' Hst']. apply chain_links. split.
  - apply links_app. exists t. split; [|done]. apply links_app in Hlk as (r & Hr & -> & Hz & _). unfold cat_cells.
    apply links_app. exists z. split; [by apply links_grow|]. by simpl.
  - apply stored_app. split; [apply write_cells_stored; by rewrite Hfst|].
    eapply stored_frame; [|exact Hst']. intros a Ha. apply write_cells_frame. rewrite Hfst.
    intros Hin. by apply (Hd a).
Qed.

Lemma pbuf_cat_ok s L h t l k :
  pbufs_ok s L → packet (pb_store s) h l → packet (pb_store s) t k → l.*1 ## k.*1 →
  total_len l + total_len k < 2 ^ 16 →
  ∃ l', same_bufs l l' ∧
    let s' := Pbufs (write_cells l' (pb_store s)) (pb_data s) (pb_alloc s) in
    pbuf_cat h t s = Ok (tt, s') ∧ packet (pb_store s') h (l' ++ k) ∧ pbufs_ok s' L.
Proof.
  intros Hs [Hc Hl Hu Hne] [Hc' Hl' Hu' Hne'] Hd Hb.
  destruct (exists_last Hne) as (l1 & [z bz] & ->). destruct k as [|[t' bt] k]; [done|].
  pose proof Hc' as (<- & Ht & Hbt & Hk). rewrite elem_of_disjoint in Hd.
  assert (∀ a, a ∈ (l1 ++ [(z, bz)]).*1 → a ≠ t) as Hdt by (intros a Ha ->; apply (Hd t Ha); by left).
  rewrite fmap_app in Hdt. set (n := p_tot_len bt).
  pose proof (same_bufs_cat n t l1 z bz) as Hsame. exists (cat_cells n t l1 z bz). split; [done|]. cbv zeta.
  assert (n = total_len ((t, bt) :: k)) as En by apply Hl'. split; [|split].
  - apply cat_runs; [done|done|done|done| |].
    + intros Hin. by apply (Hdt t); [apply elem_of_app; left|].
    + intros ->. apply (Hdt z); [|done]. apply elem_of_app. right. by left.
  - split; [by apply cat_chain; [..|apply elem_of_disjoint]|apply lens_ok_cat; try done; lia| |by destruct l1].
    rewrite total_len_app, (same_bufs_total _ _ Hsame). lia.
  - apply pbufs_ok_cells with (l1 ++ [(z, bz)]); [done|by apply chain_links in Hc as []|done|].
    unfold cat_cells. apply Forall_app. split; [apply Forall_fmap, Forall_true|apply Forall_singleton];
      intros; apply u16_range.
Qed.

(** ** References and splitting *)

Lemma pbuf_ref_ok s p b :
  pb_store s !! p = Some b → p ≠ 0 →
  pbuf_ref p s = Ok (tt, Pbufs (<[p := with_ref (u16 (p_ref b + 1)) b]> (pb_store s)) (pb_data s) (pb_alloc s)).
Proof.
  intros Hb Hp. unfold pbuf_ref. rewrite (proj2 (Z.eqb_neq _ _) Hp). cbn [negb].
  rewrite (get_pbuf_step _ _ _ _ Hb). unfold set_pbuf. by rewrite (get_pbuf_step _ _ _ _ Hb).
Qed.

(** A buffer that others refer to only loses a reference. *)
Lemma pbuf_free_shared s p b :
  pb_store s !! p = Some b → p ≠ 0 → 1 < p_ref b < 2 ^ 16 →
  pbuf_free p s = Ok (0, Pbufs (<[p := with_ref (p_ref b - 1) b]> (pb_store s)) (pb_data s) (pb_alloc s)).
Proof.
  intros Hb Hp Hr. unfold pbuf_free. rewrite (proj2 (Z.eqb_neq _ _) Hp), gets_bind.
  cbn [free_loop]. rewrite (proj2 (Z.eqb_neq _ _) Hp), (get_pbuf_step _ _ _ _ Hb).
  rewrite assert_true by (apply Z.ltb_lt; lia). rewrite u16_small by cint.
  rewrite (set_pbuf_step _ _ _ _ _ Hb), (proj2 (Z.eqb_neq (p_ref b - 1) 0)) by lia.
  apply free_loop_end. unfold pbuf_fuel. lia.
Qed.

(** The store when the first buffer has been detached. *)
Definition detached (b : pbuf) : pbuf := with_tot_len (p_len b) (with_next 0 b).

Lemma with_tot_len_id b : with_tot_len (p_tot_len b) b = b.
Proof. by destruct b. Qed.

Lemma dechain_step s p b q c l :
  chain (pb_store s) p ((p, b) :: (q, c) :: l) → lens_ok ((p, b) :: (q, c) :: l) → p_tot_len c < 2 ^ 16 →
  pbuf_dechain p s =
    (tail_gone ← pbuf_free q; b ← get_pbuf p; LWIP_ASSERT (p_tot_len b =? p_len b);;
     mret (if 0 <? tail_gone then 0 else q))
      (Pbufs (<[p := detached b]> (pb_store s)) (pb_data s) (pb_alloc s)).
Proof.
  intros Hc (Hb0 & Eb & Hc0 & Ec & Hl) Hu. pose proof (chain_nodup _ _ _ Hc) as Hnd. cbn in Hnd.
  apply NoDup_cons in Hnd as [Hpq _]. apply not_elem_of_cons in Hpq as [Hpq _].
  destruct Hc as (_ & Hp & Hb & Eq & Hq & Hcq & _). pose proof (lens_nonneg _ Hl).
  assert (p_tot_len c = p_tot_len b - p_len b) as Et by (simpl in Eb; lia).
  unfold pbuf_dechain. rewrite (get_pbuf_step _ _ _ _ Hb), Eq, (proj2 (Z.eqb_neq _ _) Hq). cbn [negb].
  etransitivity; [apply bind_unfold|]. rewrite (get_pbuf_step _ _ _ _ Hcq), assert_true by (by apply Z.eqb_eq).
  rewrite <-Et, u16_small by cint. rewrite (set_pbuf_step _ _ _ _ _ Hcq), with_tot_len_id.
  rewrite insert_id by done. rewrite (set_pbuf_step _ b) by done.
  rewrite (set_pbuf_step _ _ _ _ _ (lookup_insert_eq _ _ _)).
  cbn [pb_store pb_data pb_alloc]. rewrite insert_insert_eq. done.
Qed.

Lemma dechain_runs s L p b q c l :
  pbufs_ok s L → chain (pb_store s) p ((p, b) :: (q, c) :: l) → lens_ok ((p, b) :: (q, c) :: l) →
  Forall (λ x, 0 < p_ref x.2) ((q, c) :: l) → (length l < 255)%nat →
  ∃ a', let s' := Pbufs (unref ((q, c) :: l) (<[p := detached b]> (pb_store s))) (pb_data s) a' in
    pbuf_dechain p s = Ok (if p_ref c =? 1 then 0 else q, s') ∧ pbufs_ok s' (unlive ((q, c) :: l) L).
Proof.
  intros Hs Hc Hl Hr Hn. pose proof (chain_nodup _ _ _ Hc) as Hnd. cbn in Hnd.
  apply NoDup_cons in Hnd as [Hpq _]. pose proof Hc as (_ & Hp & Hb & Eq & Hq & Hcq & Hcl).
  assert (chain (pb_store s) q ((q, c) :: l)) as Hcq' by by rewrite <-Eq at 1; destruct Hc as (_ & _ & _ & ?).
  pose proof (pb_bufs _ _ Hs _ _ Hb) as (Hb1 & _ & Hb3). pose proof (pb_bufs _ _ Hs _ _ Hcq) as (_ & Hc2 & _).
  rewrite (dechain_step s p b q c l Hc Hl) by apply Hc2.
  assert (pbufs_ok (Pbufs (<[p := detached b]> (pb_store s)) (pb_data s) (pb_alloc s)) L) as Hs1.
  { by apply pbufs_ok_insert with b. }
  destruct (pbuf_free_ok _ _ q ((q, c) :: l) Hs1) as (a' & E & Hok); [by apply chain_insert|done|done|].
  exists a'. cbv zeta. split; [|done]. rewrite (bind_ok _ _ _ _ _ E). cbn [pb_store pb_data].
  rewrite (get_pbuf_step _ (detached b)) by (cbn [pb_store]; rewrite unref_frame by done; apply lookup_insert_eq).
  rewrite assert_true by (by apply Z.eqb_eq). unfold mret, M_ret. do 3 f_equal.
  cbn [freed]. destruct (p_ref c =? 1); [|done].
  assert (length (freed l) ≤ length l)%nat as Hlen.
  { clear. induction l as [|[a b] l IH]; simpl; [lia|]. case_match; simpl; lia. }
  rewrite u8_small by (unfold is_u8; simpl length; lia). by rewrite (proj2 (Z.ltb_lt _ _)) by (simpl length; lia).
Qed.

Lemma chain_dechain s h b t c k :
  pb_store s !! h = Some b → h ≠ 0 → p_next b = 0 → p_tot_len b = p_len b →
  packet (pb_store s) t ((t, c) :: k) → h ∉ t :: k.*1 →
  0 ≤ p_len b → p_len b + p_tot_len c < 2 ^ 16 → 1 ≤ p_ref c < 2 ^ 16 - 1 →
  (pbuf_chain h t;; pbuf_dechain h) s = Ok (t, s).
Proof.
  intros Hb Hh Hn Et [Hc Hl _ _] Hd Hlen Hu Hr. destruct Hc as (_ & Ht & Hct & Hc).
  assert (h ≠ t) as Hht by (intros ->; apply Hd; by left).
  assert (0 ≤ p_tot_len c) as Hc0 by (destruct Hl as (? & -> & ?%lens_nonneg); lia).
  rewrite bind_unfold. unfold pbuf_chain.
  rewrite (bind_ok _ _ _ _ _ (cat_runs s h t [] h b c
    ltac:(by split) ltac:(simpl; lia) Hct Ht ltac:(by apply not_elem_of_nil) ltac:(done))).
  cbn [write_cells cat_cells fmap list_fmap app attach fst snd].
  rewrite (pbuf_ref_ok _ t c) by (done || (cbn [pb_store]; by rewrite lookup_insert_ne)).
  cbn [pb_store pb_data pb_alloc]. rewrite !(u16_small _) by cint.
  set (b1 := with_next t _). set (c1 := with_ref _ _).
  assert (t ∉ k.*1) as Htk.
  { pose proof (chain_nodup (pb_store s) t ((t, c) :: k)) as Hnd. cbn in Hnd.
    apply NoDup_cons in Hnd as [? _]; [done|by simpl]. }
  rewrite (dechain_step _ h b1 t c1 k); cbn [pb_store]; [| | |simpl; lia].
  - set (s1 := Pbufs _ _ _). assert (pb_store s1 !! t = Some c1) as Ht1
      by (cbn; rewrite lookup_insert_ne by done; apply lookup_insert_eq).
    assert (1 < p_ref c1 < 2 ^ 16) as Hr1 by (simpl; lia).
    rewrite (bind_ok _ _ _ _ _ (pbuf_free_shared s1 t c1 Ht1 Ht Hr1)). subst s1. cbn [pb_store pb_data pb_alloc].
    rewrite (get_pbuf_step _ (detached b1))
      by (cbn [pb_store]; rewrite lookup_insert_ne by done; apply lookup_insert_eq).
    rewrite assert_true by (by apply Z.eqb_eq). unfold mret, M_ret. do 2 f_equal.
    replace (detached b1) with b by (subst b1; destruct b; simpl in *; by subst).
    replace (with_ref (p_ref c1 - 1) c1) with c
      by (subst c1; destruct c; unfold with_ref; simpl; f_equal; lia).
    destruct s as [st m a]. cbn in *. f_equal. apply map_eq. intros i.
    destruct (decide (i = t)) as [->|]; [by rewrite lookup_insert_eq|]. rewrite lookup_insert_ne by done.
    destruct (decide (i = h)) as [->|]; [by rewrite lookup_insert_eq|]. by rewrite !lookup_insert_ne by done.
  - simpl. split; [done|]. split; [done|]. rewrite lookup_insert_ne by done. split; [apply lookup_insert_eq|].
    split; [done|]. split; [done|]. split; [apply lookup_insert_eq|].
    apply chain_insert; [done|]. apply chain_insert; [|done]. intros Hin. apply Hd. by right.
  - destruct Hl as (? & ? & ?). simpl. repeat split; done || lia.
Qed.

(** ** Headers *)

Definition moved (inc : Z) (b : pbuf) : pbuf :=
  with_tot_len (p_tot_len b + inc) (with_len (p_len b + inc) (with_payload (p_payload b - inc) b)).

(** There is room for [inc] more octets before the payload, or [- inc] fewer. *)
Definition has_room (inc p : Z) (b : pbuf) : Prop :=
  0 < inc → (p_type b = PBUF_RAM ∨ p_type b = PBUF_POOL) ∧ p + SIZEOF_STRUCT_PBUF ≤ p_payload b - inc.
#[export] Instance has_room_dec inc p b : Decision (has_room inc p b).
Proof. unfold has_room. apply _. Defined.

Lemma header_lens_ok s p b inc :
  pb_store s !! p = Some b → is_u16 (p_len b + inc) → is_u16 (p_tot_len b + inc) →
  header_lens p inc s =
    Ok (0, Pbufs (<[p := with_tot_len (p_tot_len b + inc) (with_len (p_len b + inc) b)]> (pb_store s))
             (pb_data s) (pb_alloc s)).
Proof.
  intros Hb Hl Ht. unfold header_lens. rewrite (get_pbuf_step _ _ _ _ Hb), (set_pbuf_step _ _ _ _ _ Hb).
  rewrite (set_pbuf_step _ _ _ _ _ (lookup_insert_eq _ _ _)), !u16_small by done.
  cbn [pb_store pb_data pb_alloc]. by rewrite insert_insert_eq.
Qed.

(** The three outcomes once the arguments are sane. *)
Section Header.
Context (s : pbufs_state A) (p inc : Z) (b : pbuf).
Hypothesis Hb : pb_store s !! p = Some b.
Hypothesis Hl : is_u16 (p_len b + inc).
Hypothesis Ht : is_u16 (p_tot_len b + inc).

Lemma header_set :
  (set_pbuf p (with_payload (p_payload b - inc));; header_lens p inc) s =
  Ok (0, Pbufs (<[p := moved inc b]> (pb_store s)) (pb_data s) (pb_alloc s)).
Proof.
  rewrite (set_pbuf_step _ _ _ _ _ Hb).
  rewrite (header_lens_ok _ p (with_payload (p_payload b - inc) b)); [|apply lookup_insert_eq|done|done].
  cbn [pb_store pb_data pb_alloc]. by rewrite insert_insert_eq.
Qed.

Lemma header_inside :
  p_type b = PBUF_RAM ∨ p_type b = PBUF_POOL → p + SIZEOF_STRUCT_PBUF ≤ p_payload b →
  (set_pbuf p (with_payload (p_payload b - inc));;
   if p_payload b - inc <? p + SIZEOF_STRUCT_PBUF then
     set_pbuf p (with_payload (p_payload b));;
     mret 1
   else header_lens p inc) s =
  if decide (has_room inc p b)
  then Ok (0, Pbufs (<[p := moved inc b]> (pb_store s)) (pb_data s) (pb_alloc s))
  else Ok (1, s).
Proof.
  intros Hty Hpl. case_decide as Hd.
  { rewrite (proj2 (Z.ltb_ge _ _)) by (destruct (Z_lt_le_dec 0 inc); [by apply Hd|lia]). apply header_set. }
  rewrite (proj2 (Z.ltb_lt _ _)) by (apply Z.nle_gt; intros ?; by apply Hd).
  rewrite (set_pbuf_step _ _ _ _ _ Hb), (set_pbuf_step _ _ _ _ _ (lookup_insert_eq _ _ _)).
  unfold mret, M_ret. destruct s as [st m a]. cbn in *. rewrite insert_insert_eq, insert_id; [done|].
  rewrite Hb. by destruct b.
Qed.

(** A buffer whose octets lie elsewhere only shrinks. *)
Lemma header_outside :
  ¬ (p_type b = PBUF_RAM ∨ p_type b = PBUF_POOL) →
  - 2 ^ 15 ≤ inc < 2 ^ 15 → - inc ≤ p_len b → inc ≠ 0 →
  (if (inc <? 0) && ((if inc <? 0 then u16 (- inc) else u16 inc) <=? p_len b) then
     set_pbuf p (with_payload (p_payload b - inc));;
     header_lens p inc
   else mret 1) s =
  if decide (has_room inc p b)
  then Ok (0, Pbufs (<[p := moved inc b]> (pb_store s)) (pb_data s) (pb_alloc s))
  else Ok (1, s).
Proof.
  intros Hty Hi Hlen Hnz. destruct (Z.ltb_spec inc 0).
  2:{ rewrite decide_False; [done|]. intros Hr. apply Hty, Hr. lia. }
  rewrite decide_True by (intros ?; lia). rewrite (u16_small (- inc)), (proj2 (Z.leb_le _ _)) by (done || cint).
  apply header_set.
Qed.

Lemma header_check (k : unit → M (pbufs_state A) Z) :
  - 2 ^ 15 ≤ inc < 2 ^ 15 → - inc ≤ p_len b →
  ((if inc <? 0 then LWIP_ERROR ((if inc <? 0 then u16 (- inc) else u16 inc) <=? p_len b) else mret tt) ≫= k) s
  = k tt s.
Proof.
  intros Hi Hlen. destruct (Z.ltb_spec inc 0); [|done]. apply error_true. apply Z.leb_le.
  rewrite u16_small by cint. lia.
Qed.
End Header.

Lemma moved_zero b : moved 0 b = b.
Proof. unfold moved. rewrite !Z.add_0_r, Z.sub_0_r. by destruct b. Qed.

Lemma moved_ok L p b inc :
  buf_ok L p b → is_u16 (p_len b + inc) → is_u16 (p_tot_len b + inc) → has_room inc p b →
  buf_ok L p (moved inc b).
Proof.
  intros (_ & _ & Hr & Hpl) Hl Ht Hroom. unfold has_room in Hroom.
  split; [done|]. split; [done|]. split; [done|]. cbn. destruct (p_type b) eqn:Ety; [|done|done|].
  - destruct Hpl as (n & Hn & H1 & H2). exists n. split; [done|]. lia.
  - destruct Hpl as (Hn & H1 & H2). split; [done|]. lia.
Qed.

Lemma pbuf_header_ok s L p b inc :
  pbufs_ok s L → pb_store s !! p = Some b → p ≠ 0 → - 2 ^ 15 ≤ inc < 2 ^ 15 → - inc ≤ p_len b →
  is_u16 (p_len b + inc) → is_u16 (p_tot_len b + inc) →
  if decide (has_room inc p b) then
    let s' := Pbufs (<[p := moved inc b]> (pb_store s)) (pb_data s) (pb_alloc s) in
    pbuf_header p inc s = Ok (0, s') ∧ pbufs_ok s' L
  else pbuf_header p inc s = Ok (1, s).
Proof.
  intros Hs Hb Hp Hi Hlen Hl Ht. pose proof (pb_bufs _ _ Hs _ _ Hb) as Hok.
  assert (has_room inc p b → pbufs_ok (Pbufs (<[p := moved inc b]> (pb_store s)) (pb_data s) (pb_alloc s)) L) as Hok'.
  { intros Hroom. apply pbufs_ok_insert with b; [done..|]. by apply moved_ok. }
  unfold pbuf_header. rewrite assert_true by (by rewrite (proj2 (Z.eqb_neq _ _) Hp)).
  rewrite (proj2 (Z.eqb_neq _ _) Hp), orb_false_r. destruct (Z.eqb_spec inc 0) as [->|Hnz].
  { rewrite decide_True by (intros ?; lia). cbv zeta. split; [|apply Hok'; intros ?; lia].
    rewrite moved_zero, insert_id by done. by destruct s. }
  rewrite (get_pbuf_step _ _ _ _ Hb), header_check by done. cbv zeta.
  destruct Hok as (_ & _ & _ & Hpl). destruct (p_type b) eqn:Ety.
  - destruct Hpl as (n & _ & Hpl & _). rewrite header_inside by auto. case_decide; cbv zeta; auto.
  - rewrite header_outside by (done || intros [|]; congruence). case_decide; cbv zeta; auto.
  - rewrite header_outside by (done || intros [|]; congruence). case_decide; cbv zeta; auto.
  - destruct Hpl as (_ & Hpl & _). rewrite header_inside by auto. case_decide; cbv zeta; auto.
Qed.
End Links.
