(* ===== verification/PbufData.v ===== *)
(** * The octets of packets

    [pbuf_copy_partial], [pbuf_take] and [pbuf_copy] move octets between chains
    and memory; [pbuf_get_at], [pbuf_memcmp] and [pbuf_memfind] look at them.
    The specifications speak of the contents of a chain, the octets of its
    buffers one after the other. *)

From S2P Require Import Prelude LwipBase Heap Memp Pbuf PbufChain PbufLinks.
From Stdlib Require Import ZArith Lia.
From stdpp Require Import base numbers list gmap.
Open Scope Z_scope.

(** ** Memory *)

Lemma mem_read_octet m a n i : (i < n)%nat → (mem_read m a n).[i] = m (a + Z.of_nat i).
Proof.
  intros Hi. unfold mem_read. apply octet_lookup. rewrite list_lookup_fmap, lookup_seq_lt by done. done.
Qed.
Lemma mem_read_ext m m' a n :
  (∀ x, a ≤ x < a + Z.of_nat n → m' x = m x) → mem_read m' a n = mem_read m a n.
Proof.
  intros Hx. apply octet_ext; [by rewrite !length_mem_read|]. rewrite length_mem_read.
  intros i Hi. rewrite !mem_read_octet by done. apply Hx. lia.
Qed.
Lemma mem_read_app m a n k : mem_read m a (n + k) = mem_read m a n ++ mem_read m (a + Z.of_nat n) k.
Proof.
  apply octet_ext; [by rewrite length_app, !length_mem_read|]. rewrite length_mem_read. intros i Hi.
  rewrite mem_read_octet by done. destruct (decide (i < n)%nat).
  - by rewrite octet_app_l, mem_read_octet by (rewrite ?length_mem_read; done).
  - rewrite octet_app_r, length_mem_read, mem_read_octet by (rewrite ?length_mem_read; lia). f_equal. lia.
Qed.
Lemma mem_read_take m a n k : (k ≤ n)%nat → take k (mem_read m a n) = mem_read m a k.
Proof.
  intros Hk. replace n with (k + (n - k))%nat by lia. rewrite mem_read_app.
  by rewrite take_app_length' by (by rewrite length_mem_read).
Qed.
Lemma mem_read_take_min m a n k : take k (mem_read m a n) = mem_read m a (Nat.min k n).
Proof.
  destruct (Nat.le_ge_cases k n) as [Hk|Hk]; [rewrite Nat.min_l by done; by apply mem_read_take|].
  rewrite Nat.min_r by done. apply take_ge. by rewrite length_mem_read.
Qed.
Lemma mem_read_drop m a n k : (k ≤ n)%nat → drop k (mem_read m a n) = mem_read m (a + Z.of_nat k) (n - k).
Proof.
  intros Hk. replace (mem_read m a n) with (mem_read m a (k + (n - k))) by (f_equal; lia). rewrite mem_read_app.
  by rewrite drop_app_length' by (by rewrite length_mem_read).
Qed.
Lemma mem_write_inside m a l x :
  a ≤ x < a + Z.of_nat (length l) → mem_write m a l x = l.[Z.to_nat (x - a)].
Proof. intros Hx. unfold mem_write. by rewrite decide_True. Qed.
Lemma mem_write_outside m a l x : ¬ (a ≤ x < a + Z.of_nat (length l)) → mem_write m a l x = m x.
Proof. intros Hx. unfold mem_write. by rewrite decide_False. Qed.
Lemma mem_write_read m a l n : n = length l → mem_read (mem_write m a l) a n = l.
Proof.
  intros ->. apply octet_ext; [by rewrite length_mem_read|]. rewrite length_mem_read. intros i Hi.
  rewrite mem_read_octet, mem_write_inside by lia. f_equal. lia.
Qed.
Lemma mem_write_app m a l k x :
  mem_write (mem_write m a l) (a + Z.of_nat (length l)) k x = mem_write m a (l ++ k) x.
Proof.
  unfold mem_write. rewrite length_app. repeat case_decide; try lia; try done.
  - rewrite octet_app_r by lia. f_equal. lia.
  - by rewrite octet_app_l by lia.
Qed.

(** [m'] is [m] but for the octets from [lo] to [hi]. *)
Definition changes (m m' : memory) (lo hi : Z) : Prop := ∀ x, ¬ (lo ≤ x < hi) → m' x = m x.

(** The octets of the buffers lie outside. *)
Definition clear_of (lo hi : Z) (l : list cell) : Prop :=
  Forall (λ c, p_payload c.2 + p_len c.2 ≤ lo ∨ hi ≤ p_payload c.2) l.

Lemma clear_of_sub lo hi lo' hi' l : lo ≤ lo' → hi' ≤ hi → clear_of lo hi l → clear_of lo' hi' l.
Proof. intros ? ? Hl. eapply Forall_impl; [exact Hl|]. simpl. lia. Qed.
Lemma cell_data_ext m m' c :
  (∀ x, p_payload c.2 ≤ x < p_payload c.2 + p_len c.2 → m' x = m x) → cell_data m' c = cell_data m c.
Proof. intros Hx. apply mem_read_ext. intros x Hr. apply Hx. lia. Qed.
Lemma contents_changes m m' lo hi l : changes m m' lo hi → clear_of lo hi l → contents m' l = contents m l.
Proof.
  intros Hm. induction 1 as [|c l Hc _ IH]; [done|]. simpl. rewrite IH. f_equal.
  apply cell_data_ext. intros x Hx. apply Hm. lia.
Qed.
Lemma changes_write m a l : changes m (mem_write m a l) a (a + Z.of_nat (length l)).
Proof. intros x Hx. by apply mem_write_outside. Qed.

Lemma length_cell_data m c : 0 ≤ p_len c.2 → Z.of_nat (length (cell_data m c)) = p_len c.2.
Proof. intros. unfold cell_data. rewrite length_mem_read. lia. Qed.

(** An address outside all the buffers. *)
Definition outside (l : list cell) (x : Z) : Prop :=
  Forall (λ c, ¬ (p_payload c.2 ≤ x < p_payload c.2 + p_len c.2)) l.

(** Buffers that do not overlap. *)
Fixpoint no_overlap (l : list cell) : Prop :=
  match l with
  | [] => True
  | c :: l => clear_of (p_payload c.2) (p_payload c.2 + p_len c.2) l ∧ no_overlap l
  end.

Lemma outside_clear lo hi l x : clear_of lo hi l → lo ≤ x < hi → outside l x.
Proof. intros Hl Hx. eapply Forall_impl; [exact Hl|]. simpl. lia. Qed.

(** The start of a buffer overwritten. *)
Lemma cell_data_write m c l :
  Z.of_nat (length l) ≤ p_len c.2 →
  cell_data (mem_write m (p_payload c.2) l) c = l ++ drop (length l) (cell_data m c).
Proof.
  intros Hl. unfold cell_data. rewrite mem_read_drop by lia.
  replace (Z.to_nat (p_len c.2)) with (length l + (Z.to_nat (p_len c.2) - length l))%nat at 1 by lia.
  rewrite mem_read_app, mem_write_read by done. f_equal. apply mem_read_ext. intros x Hx.
  apply mem_write_outside. lia.
Qed.

Lemma refill m c rest d n k :
  0 ≤ p_len c.2 → 0 ≤ n → k = Z.min (p_len c.2) n →
  (mem_read m d (Z.to_nat k) ++ drop (Z.to_nat k) (cell_data m c)) ++
    mem_read m (d + k) (Z.to_nat (n - k)) ++ drop (Z.to_nat (n - k)) rest
  = mem_read m d (Z.to_nat n) ++ drop (Z.to_nat n) (cell_data m c ++ rest).
Proof.
  intros Hc Hn Hk. rewrite drop_app. pose proof (length_cell_data m c Hc) as Hcd.
  replace (Z.to_nat n) with (Z.to_nat k + Z.to_nat (n - k))%nat by lia. rewrite mem_read_app, Z2Nat.id by lia.
  destruct (Z.le_gt_cases n (p_len c.2)).
  - replace (n - k) with 0 by lia. replace k with n by lia. change (Z.to_nat 0) with 0%nat.
    rewrite Nat.add_0_r. replace (Z.to_nat n - length _)%nat with 0%nat by lia.
    simpl. by rewrite app_nil_r, <-app_assoc.
  - rewrite !(drop_ge (cell_data _ _)) by lia. rewrite app_nil_r, <-app_assoc. simpl.
    do 3 f_equal. lia.
Qed.

(** What a copy of [len] octets from [offset] takes out of the first buffer. *)
Lemma first_chunk m c len offset n rest :
  0 ≤ offset ≤ p_len c.2 → 0 ≤ len → n = Z.min len (p_len c.2 - offset) →
  take (Z.to_nat len) (drop (Z.to_nat offset) (cell_data m c ++ rest))
  = mem_read m (p_payload c.2 + offset) (Z.to_nat n) ++ take (Z.to_nat (len - n)) rest.
Proof.
  intros Ho Hl ->. pose proof (length_cell_data m c ltac:(lia)). rewrite drop_app_le by lia.
  unfold cell_data. rewrite mem_read_drop, Z2Nat.id, take_app, length_mem_read, mem_read_take_min by lia.
  f_equal; f_equal; lia.
Qed.

Section Data.
Context {A : Type} `{BufAllocLaws A}.
Implicit Types (s : pbufs_state A).

(** ** Out of a packet *)

Lemma copy_partial_loop_ok fuel l p d left len offset s :
  chain (pb_store s) p l → lens_ok l → (length l < fuel)%nat →
  0 ≤ left → left + total_len l < 2 ^ 16 → is_u16 len → is_u16 offset →
  clear_of (d + left) (d + left + len) l →
  let data := take (Z.to_nat len) (drop (Z.to_nat offset) (contents (pb_data s) l)) in
  ∃ m', copy_partial_loop fuel p d left len offset left s =
          Ok (left + Z.of_nat (length data), Pbufs (pb_store s) m' (pb_alloc s)) ∧
        ∀ x, m' x = mem_write (pb_data s) (d + left) data x.
Proof.
  revert fuel p left len offset s.
  induction l as [|[a b] l IH]; intros [|fuel] p left len offset s Hc Hl Hf Hlf Hu Hn Ho Hcl; simpl in Hf; try lia.
  { simpl in Hc. subst p. cbn [contents]. rewrite drop_nil, take_nil. cbv zeta. exists (pb_data s).
    cbn [copy_partial_loop]. rewrite andb_false_r. split; [unfold mret, M_ret; simpl; rewrite Z.add_0_r; by destruct s|].
    intros x. rewrite mem_write_outside; [done|simpl; lia]. }
  destruct Hc as (-> & Ha & Hb & Hc). destruct Hl as (Hb0 & _ & Hl). pose proof (lens_nonneg _ Hl).
  cbn [copy_partial_loop]. rewrite (proj2 (Z.eqb_neq a 0) Ha). cbn [negb]. rewrite andb_true_r.
  assert (0 ≤ offset ∧ 0 ≤ len) as [Ho0 Hn0'] by (split; [apply Ho|apply Hn]).
  apply Forall_cons in Hcl as [Hcb Hcl]. simpl in Hcb. cbn [total_len snd] in Hu.
  pose proof (length_cell_data (pb_data s) (a, b) Hb0) as Hcd. cbn [snd] in Hcd.
  destruct (Z.eqb_spec len 0) as [->|Hlen]; cbn [negb].
  { cbv zeta. exists (pb_data s). change (Z.to_nat 0) with 0%nat. rewrite take_0. simpl. rewrite Z.add_0_r.
    split; [by destruct s|]. intros x. rewrite mem_write_outside; [done|simpl; lia]. }
  rewrite (get_pbuf_step _ _ _ _ Hb). cbv zeta. cbn [contents].
  destruct (negb (offset =? 0) && (p_len b <=? offset)) eqn:Esk.
  { apply andb_prop in Esk as [_ Hsk%Z.leb_le]. rewrite u16_small by cint.
    rewrite drop_app_ge by lia. replace (_ - length _)%nat with (Z.to_nat (offset - p_len b)) by lia.
    apply IH; try done; [lia|lia|unfold is_u16 in *; lia]. }
  assert (offset ≤ p_len b) as Hob.
  { apply andb_false_iff in Esk as [E|E%Z.leb_gt]; [|lia]. apply negb_false_iff, Z.eqb_eq in E. lia. }
  rewrite (u16_small (p_len b - offset)) by cint. clear Esk.
  set (n := if len <? p_len b - offset then len else p_len b - offset).
  assert (0 ≤ n ∧ n = Z.min len (p_len b - offset)) as [Hn0 En] 
    by (unfold is_u16 in *; subst n; destruct (Z.ltb_spec len (p_len b - offset)); lia).
  clearbody n. rewrite !u16_small by cint.
  set (chunk := mem_read (pb_data s) (p_payload b + offset) (Z.to_nat n)).
  assert (length chunk = Z.to_nat n) as Hch by apply length_mem_read.
  destruct (IH fuel (p_next b) (left + n) (len - n) 0
    (Pbufs (pb_store s) (mem_write (pb_data s) (d + left) chunk) (pb_alloc s)))
    as (m' & E & Hm'); cbn [pb_store pb_data pb_alloc]; try done;
    try (unfold is_u16 in *; lia).
  { eapply clear_of_sub, Hcl; lia. }
  cbn [pb_store pb_data pb_alloc] in E, Hm'. change (Z.to_nat 0) with 0%nat in E, Hm'. rewrite drop_0 in E, Hm'.
  rewrite (contents_changes _ _ _ _ l (changes_write (pb_data s) (d + left) chunk)) in E, Hm'
    by (eapply clear_of_sub, Hcl; lia).
  rewrite (first_chunk (pb_data s) (a, b) len offset n) by (done || simpl; lia). cbn [snd]. fold chunk.
  exists m'. split.
  - transitivity (copy_partial_loop fuel (p_next b) d (left + n) (len - n) 0 (left + n)
      (Pbufs (pb_store s) (mem_write (pb_data s) (d + left) chunk) (pb_alloc s))); [done|].
    by rewrite E, length_app, Nat2Z.inj_add, Hch, Z2Nat.id, Z.add_assoc.
  - intros x. rewrite Hm'. replace (d + (left + n)) with (d + left + Z.of_nat (length chunk)) by lia.
    apply mem_write_app.
Qed.

Lemma pbuf_copy_partial_ok s p l d len offset :
  packet (pb_store s) p l → d ≠ 0 → is_u16 len → is_u16 offset → clear_of d (d + len) l →
  let data := take (Z.to_nat len) (drop (Z.to_nat offset) (contents (pb_data s) l)) in
  ∃ m', pbuf_copy_partial p d len offset s =
          Ok (Z.of_nat (length data), Pbufs (pb_store s) m' (pb_alloc s)) ∧
        ∀ x, m' x = mem_write (pb_data s) d data x.
Proof.
  intros [Hc Hl Hu Hne] Hd Hn Ho Hcl data. unfold pbuf_copy_partial.
  assert (p ≠ 0) as Hp by (destruct l as [|[]]; [done|by destruct Hc as (-> & ? & _)]).
  rewrite error_true by (by rewrite (proj2 (Z.eqb_neq _ _) Hp)).
  rewrite error_true by (by rewrite (proj2 (Z.eqb_neq _ _) Hd)). rewrite gets_bind.
  pose proof (chain_size _ _ _ Hc) as Hsz.
  destruct (copy_partial_loop_ok (pbuf_fuel s) l p d 0 len offset s) as (m' & E & Hm'); try done.
  - unfold pbuf_fuel. lia.
  - by rewrite Z.add_0_r.
  - exists m'. rewrite E. split; [done|]. intros x. rewrite Hm', Z.add_0_r. done.
Qed.

(** ** Into a packet *)

Lemma take_loop_ok fuel l p d n copied s :
  chain (pb_store s) p l → lens_ok l → (length l < fuel)%nat → no_overlap l →
  0 ≤ copied → 0 ≤ n ≤ total_len l → copied + n < 2 ^ 16 → clear_of d (d + copied + n) l →
  ∃ m', take_loop fuel p d n copied s = Ok (copied + n, Pbufs (pb_store s) m' (pb_alloc s)) ∧
    contents m' l = mem_read (pb_data s) (d + copied) (Z.to_nat n) ++ drop (Z.to_nat n) (contents (pb_data s) l) ∧
    ∀ x, outside l x → m' x = pb_data s x.
Proof.
  revert fuel p n copied s.
  induction l as [|[a b] l IH]; intros [|fuel] p n copied s Hc Hl Hf Hno Hc0 Hn Hu Hcl; simpl in Hf; try lia.
  { simpl in Hn. assert (n = 0) as -> by lia. exists (pb_data s). simpl.
    split; [rewrite Z.add_0_r; by destruct s|done]. }
  destruct Hc as (-> & Ha & Hb & Hc). destruct Hl as (Hb0 & _ & Hl). destruct Hno as [Hcb Hno].
  pose proof (lens_nonneg _ Hl) as Hl0. cbn [take_loop]. destruct (Z.eqb_spec n 0) as [->|Hnz].
  { exists (pb_data s). change (Z.to_nat 0) with 0%nat. rewrite Z.add_0_r. by destruct s. }
  rewrite assert_true by (by rewrite (proj2 (Z.eqb_neq _ _) Ha)). rewrite (get_pbuf_step _ _ _ _ Hb). cbv zeta.
  set (k := if p_len b <? n then p_len b else n).
  assert (k = Z.min (p_len b) n) as Ek by (subst k; destruct (Z.ltb_spec (p_len b) n); lia). clearbody k.
  rewrite !u16_small by cint. apply Forall_cons in Hcl as [Hcl1 Hcl]. cbn [snd total_len] in *.
  set (chunk := mem_read (pb_data s) (d + copied) (Z.to_nat k)).
  assert (length chunk = Z.to_nat k) as Hch by apply length_mem_read.
  set (m1 := mem_write (pb_data s) (p_payload b) chunk).
  assert (changes (pb_data s) m1 (p_payload b) (p_payload b + k)) as Hm1.
  { replace k with (Z.of_nat (length chunk)) by lia. apply changes_write. }
  destruct (IH fuel (p_next b) (n - k) (copied + k) (Pbufs (pb_store s) m1 (pb_alloc s)))
    as (m' & E & Hm' & Hout); cbn [pb_store pb_data pb_alloc]; try done; try lia.
  { eapply clear_of_sub, Hcl; lia. }
  exists m'. cbn [pb_store pb_data pb_alloc] in *. split; [|split].
  - transitivity (take_loop fuel (p_next b) d (n - k) (copied + k) (Pbufs (pb_store s) m1 (pb_alloc s))); [done|].
    rewrite E. by replace (copied + k + (n - k)) with (copied + n) by lia.
  - cbn [contents]. rewrite Hm'. rewrite (contents_changes _ _ _ _ l Hm1) by (eapply clear_of_sub, Hcb; simpl; lia).
    assert (cell_data m' (a, b) = chunk ++ drop (Z.to_nat k) (cell_data (pb_data s) (a, b))) as ->.
    { rewrite (cell_data_ext m1) by (intros x Hx; apply Hout; eapply outside_clear; [exact Hcb|exact Hx]).
      rewrite <-Hch. apply (cell_data_write _ (a, b)). simpl. lia. }
    rewrite (mem_read_ext (pb_data s) m1) by (intros x Hx; apply Hm1; lia).
    replace (d + (copied + k)) with (d + copied + k) by lia. apply refill; simpl; lia.
  - intros x [Hx Hxl]%Forall_cons. rewrite Hout by done. apply Hm1. simpl in Hx. lia.
Qed.

Lemma pbuf_take_ok s p l d n :
  packet (pb_store s) p l → no_overlap l → d ≠ 0 → 0 ≤ n ≤ total_len l → clear_of d (d + n) l →
  ∃ m', pbuf_take p d n s = Ok (ERR_OK, Pbufs (pb_store s) m' (pb_alloc s)) ∧
    contents m' l = mem_read (pb_data s) d (Z.to_nat n) ++ drop (Z.to_nat n) (contents (pb_data s) l) ∧
    ∀ x, outside l x → m' x = pb_data s x.
Proof.
  intros [Hc Hl Hu Hne] Hno Hd Hn Hcl. unfold pbuf_take. destruct l as [|[a b] l]; [done|].
  pose proof Hc as (-> & Ha & Hb & _). pose proof Hl as (_ & Et & _).
  rewrite error_true by (by rewrite (proj2 (Z.eqb_neq _ _) Ha)).
  rewrite error_true by (by rewrite (proj2 (Z.eqb_neq _ _) Hd)).
  rewrite (get_pbuf_step _ _ _ _ Hb), (proj2 (Z.ltb_ge _ _)) by (rewrite Et; apply Hn). rewrite gets_bind.
  pose proof (chain_size _ _ _ Hc) as Hsz.
  destruct (take_loop_ok (pbuf_fuel s) ((a, b) :: l) a d n 0 s) as (m' & E & Hm' & Hout);
    rewrite ?Z.add_0_r; try done; try lia; [unfold pbuf_fuel; lia|].
  exists m'. rewrite (bind_ok _ _ _ _ _ E), Z.add_0_l, assert_true by apply Z.eqb_refl.
  split; [done|]. rewrite Z.add_0_r in Hm'. by split.
Qed.

(** ** From packet to packet *)

(** A chain from the [o]-th octet of its first buffer on. *)
Definition advance (o : Z) (l : list cell) : list cell :=
  match l with
  | [] => []
  | (a, b) :: l => (a, with_len (p_len b - o) (with_payload (p_payload b + o) b)) :: l
  end.
(** The position [n] octets further, within the first buffer or at its end. *)
Definition forward (o n : Z) (l : list cell) : Z * list cell :=
  match l with
  | [] => (o, [])
  | (a, b) :: k => if o + n =? p_len b then (0, k) else (o + n, l)
  end.

Lemma advance_0 l : advance 0 l = l.
Proof. destruct l as [|[a []] l]; [done|]. simpl. unfold with_len, with_payload. simpl. by rewrite Z.sub_0_r, Z.add_0_r. Qed.

Lemma forward_contents m o n a b k :
  0 ≤ n → o + n ≤ p_len b →
  contents m (advance o ((a, b) :: k)) =
    mem_read m (p_payload b + o) (Z.to_nat n) ++
    let '(o', l') := forward o n ((a, b) :: k) in contents m (advance o' l').
Proof.
  intros Hn Hb. cbn [forward]. destruct (Z.eqb_spec (o + n) (p_len b)) as [E|E].
  - rewrite advance_0. simpl. unfold cell_data. simpl. do 2 f_equal. lia.
  - simpl. unfold cell_data. simpl. rewrite app_assoc. f_equal.
    replace (Z.to_nat (p_len b - o)) with (Z.to_nat n + Z.to_nat (p_len b - (o + n)))%nat by lia.
    rewrite mem_read_app. do 2 f_equal. lia.
Qed.

Definition nonempty (l : list cell) : Prop := Forall (λ c, 0 < p_len c.2) l.
(** A position in a chain: within the first buffer. *)
Definition position (o : Z) (l : list cell) : Prop :=
  0 ≤ o ∧ match l with [] => o = 0 | (_, b) :: _ => o < p_len b end.

Lemma forward_ok o n a b k :
  nonempty ((a, b) :: k) → position o ((a, b) :: k) → 0 < n → o + n ≤ p_len b →
  let '(o', l') := forward o n ((a, b) :: k) in
  position o' l' ∧ nonempty l' ∧
  total_len (advance o ((a, b) :: k)) = n + total_len (advance o' l') ∧
  (∀ lo hi, clear_of lo hi ((a, b) :: k) → clear_of lo hi (advance o' l')) ∧
  (no_overlap ((a, b) :: k) → clear_of (p_payload b + o) (p_payload b + o + n) (advance o' l')) ∧
  (no_overlap ((a, b) :: k) → no_overlap l') ∧
  (∀ x, outside (advance o ((a, b) :: k)) x → outside (advance o' l') x) ∧
  (∀ P : cell → Prop, Forall P ((a, b) :: k) → Forall P l') ∧
  total_len l' ≤ total_len ((a, b) :: k).
Proof.
  intros Hp [Ho Hlt] Hn Hb. pose proof Hp as [Hb1 Hk]%Forall_cons. simpl in Hb1, Hlt. cbn [forward].
  destruct (Z.eqb_spec (o + n) (p_len b)) as [E|E].
  - rewrite advance_0. split; [|split; [done|split; [simpl; lia|split; [|split; [|split; [|split; [|split]]]]]]].
    + split; [done|]. destruct k as [|[]]; [done|]. by apply Forall_cons in Hk as [? _].
    + by intros lo hi [_ ?]%Forall_cons.
    + intros [Hcl _]. eapply clear_of_sub, Hcl; simpl; lia.
    + by intros [_ ?].
    + by intros x [_ ?]%Forall_cons.
    + by intros P [_ ?]%Forall_cons.
    + simpl. lia.
  - split; [split; [lia|simpl; lia]|]. split; [done|]. split; [simpl; lia|]. split; [|split; [|split; [|split; [|split]]]].
    + intros lo hi [Hc1 Hck]%Forall_cons. apply Forall_cons. split; [simpl in *; lia|done].
    + intros [Hcl _]. apply Forall_cons. split; [simpl; lia|]. eapply clear_of_sub, Hcl; simpl; lia.
    + done.
    + intros x [Hx Hk']%Forall_cons. apply Forall_cons. split; [simpl in *; lia|done].
    + done.
    + done.
Qed.

Lemma not_queue_ok s p l :
  chain (pb_store s) p l → lens_ok l → nonempty l → not_queue p s = Ok (tt, s).
Proof.
  intros Hc Hl Hp. unfold not_queue. destruct l as [|[a b] l]; [by simpl in Hc; subst p|].
  destruct Hc as (-> & Ha & Hb & Hc). rewrite (proj2 (Z.eqb_neq _ _) Ha), (get_pbuf_step _ _ _ _ Hb).
  destruct (Z.eqb_spec (p_len b) (p_tot_len b)) as [E|]; [|done]. destruct Hl as (_ & Et & Hl).
  destruct l as [|[a' b'] l]; [simpl in Hc; by rewrite Hc|].
  apply Forall_cons in Hp as [_ [Hb' _]%Forall_cons]. destruct Hl as (_ & _ & Hl%lens_nonneg).
  cbn [total_len snd] in *. lia.
Qed.

(** The next position of a chain, as the code computes it. *)
Lemma forward_chain st a b k o n :
  chain st a ((a, b) :: k) → lens_ok ((a, b) :: k) →
  let '(o', l') := forward o n ((a, b) :: k) in
  ∃ p', (if o + n =? p_len b then (p_next b, 0) else (a, o + n)) = (p', o') ∧ chain st p' l' ∧ lens_ok l' ∧
        (length l' ≤ S (length k))%nat ∧ (o + n = p_len b → length l' = length k).
Proof.
  intros Hc Hl. cbn [forward]. destruct (Z.eqb_spec (o + n) (p_len b)) as [E|E].
  - exists (p_next b). destruct Hc as (_ & _ & _ & Hc), Hl as (_ & _ & Hl). repeat (split; [done|]). split; [lia|done].
  - exists a. do 4 (split; [done|]). intros ?. by destruct E.
Qed.

(** One round: [n] octets, then on to the next positions. *)
Lemma copy_round fuel ta tb tk fa fb fk ot off n s :
  let lt := (ta, tb) :: tk in let lf := (fa, fb) :: fk in
  chain (pb_store s) ta lt → chain (pb_store s) fa lf → lens_ok lt → lens_ok lf →
  nonempty lt → nonempty lf → position ot lt → position off lf →
  total_len lt < 2 ^ 16 → total_len lf < 2 ^ 16 → n = Z.min (p_len tb - ot) (p_len fb - off) →
  let m1 := mem_write (pb_data s) (p_payload tb + ot) (mem_read (pb_data s) (p_payload fb + off) (Z.to_nat n)) in
  let s1 := Pbufs (pb_store s) m1 (pb_alloc s) in
  ∃ pt pf, let '(ot', lt') := forward ot n lt in let '(off', lf') := forward off n lf in
    chain (pb_store s) pt lt' ∧ chain (pb_store s) pf lf' ∧ lens_ok lt' ∧ lens_ok lf' ∧
    (length lt' + length lf' < length lt + length lf)%nat ∧
    copy_loop (S fuel) ta fa ot off s =
      if pf =? 0 then Ok (ERR_OK, s1) else copy_loop fuel pt pf ot' off' s1.
Proof.
  cbv zeta. intros Hct Hcf Hlt Hlf Hpt Hpf [Hot Hot'] [Hof Hof'] Hut Huf En.
  pose proof Hct as (_ & Hta & Htb & _). pose proof Hcf as (_ & Hfa & Hfb & _).
  assert (p_len tb < 2 ^ 16 ∧ p_len fb < 2 ^ 16) as [Ht16 Hf16].
  { destruct Hlt as (_ & _ & ?%lens_nonneg), Hlf as (_ & _ & ?%lens_nonneg). simpl in Hut, Huf. lia. }
  pose proof (forward_chain _ _ _ _ ot n Hct Hlt) as Ft. pose proof (forward_chain _ _ _ _ off n Hcf Hlf) as Ff.
  pose proof (forward_ok ot n ta tb tk Hpt (conj Hot Hot') ltac:(lia) ltac:(lia)) as Gt.
  pose proof (forward_ok off n fa fb fk Hpf (conj Hof Hof') ltac:(lia) ltac:(lia)) as Gf.
  destruct (forward ot n _) as [ot' lt']. destruct (forward off n _) as [off' lf'].
  destruct Ft as (pt & Et & Hct' & Hlt' & Hn1 & Hn2), Ff as (pf & Ef & Hcf' & Hlf' & Hn3 & Hn4).
  destruct Gt as (_ & Hpt' & _). destruct Gf as (_ & Hpf' & _).
  exists pt, pf. repeat (split; [done|]). split; [simpl; lia|].
  cbn [copy_loop]. rewrite assert_true by (by rewrite (proj2 (Z.eqb_neq _ _) Hta)).
  rewrite (get_pbuf_step _ _ _ _ Htb), (get_pbuf_step _ _ _ _ Hfb). cbv zeta.
  replace (if p_len fb - off <=? p_len tb - ot then u16 (p_len fb - off) else u16 (p_len tb - ot)) with n
    by (destruct (Z.leb_spec (p_len fb - off) (p_len tb - ot)); rewrite u16_small by cint; lia).
  rewrite !u16_small by cint.
  set (s1 := Pbufs (pb_store s) _ (pb_alloc s)).
  etransitivity; [exact (eq_refl ((LWIP_ASSERT (ot + n <=? p_len tb) ≫= _) s1))|].
  rewrite assert_true by (apply Z.leb_le; lia). rewrite Et, assert_true by (apply Z.leb_le; lia).
  replace (if p_len fb <=? off + n then (p_next fb, 0) else (fa, off + n)) with (pf, off')
    by (rewrite <-Ef; destruct (Z.eqb_spec (off + n) (p_len fb)), (Z.leb_spec (p_len fb) (off + n)); lia || done).
  rewrite (bind_ok (not_queue pf) _ s1 tt s1) by (by eapply not_queue_ok).
  rewrite (bind_ok (not_queue pt) _ s1 tt s1) by (by eapply not_queue_ok).
  by destruct (pf =? 0).
Qed.

Lemma copy_loop_ok fuel lt lf pt pf ot off s :
  chain (pb_store s) pt lt → chain (pb_store s) pf lf → lens_ok lt → lens_ok lf →
  nonempty lt → nonempty lf → position ot lt → position off lf → lf ≠ [] →
  total_len lt < 2 ^ 16 → total_len lf < 2 ^ 16 →
  total_len (advance off lf) ≤ total_len (advance ot lt) → (length lt + length lf < fuel)%nat →
  no_overlap lt → Forall (λ c, clear_of (p_payload c.2) (p_payload c.2 + p_len c.2) lf) lt →
  ∃ m', copy_loop fuel pt pf ot off s = Ok (ERR_OK, Pbufs (pb_store s) m' (pb_alloc s)) ∧
    contents m' (advance ot lt) = contents (pb_data s) (advance off lf) ++
      drop (length (contents (pb_data s) (advance off lf))) (contents (pb_data s) (advance ot lt)) ∧
    ∀ x, outside (advance ot lt) x → m' x = pb_data s x.
Proof.
  revert lt lf pt pf ot off s. induction fuel as [|fuel IH]; [lia|].
  intros [|[ta tb] tk] [|[fa fb] fk] pt pf ot off s Hct Hcf Hlt Hlf Hpt Hpf Hot Hof Hne Hut Huf Htot Hf Hno Hcl; try done.
  { destruct Hof as [? Hof]. cbn in Htot, Hof. destruct Hlf as (_ & _ & ?%lens_nonneg). lia. }
  pose proof Hct as (-> & _). pose proof Hcf as (-> & _).
  set (n := Z.min (p_len tb - ot) (p_len fb - off)).
  pose proof (copy_round fuel ta tb tk fa fb fk ot off n s Hct Hcf Hlt Hlf Hpt Hpf Hot Hof Hut Huf eq_refl) as R.
  pose proof Hot as [Hot1 Hot2]. pose proof Hof as [Hof1 Hof2].
  pose proof (λ m, forward_contents m ot n ta tb tk ltac:(lia) ltac:(lia)) as Ct.
  pose proof (λ m, forward_contents m off n fa fb fk ltac:(lia) ltac:(lia)) as Cf.
  pose proof (forward_ok ot n ta tb tk Hpt Hot ltac:(lia) ltac:(lia)) as Gt.
  pose proof (forward_ok off n fa fb fk Hpf Hof ltac:(lia) ltac:(lia)) as Gf.
  destruct R as (pt & pf & R). destruct (forward ot n _) as [ot' lt']. destruct (forward off n _) as [off' lf'].
  destruct R as (Hct' & Hcf' & Hlt' & Hlf' & Hlen & E).
  destruct Gt as (Hpos1 & Hp1 & Htt & _ & Hself & Hno' & Hout & Hsub1 & Hle1).
  destruct Gf as (Hpos2 & Hp2 & Hft & Hclf & _ & _ & _ & Hsub2 & Hle2).
  set (chunk := mem_read (pb_data s) (p_payload fb + off) (Z.to_nat n)) in *.
  set (m1 := mem_write (pb_data s) (p_payload tb + ot) chunk) in *.
  assert (length chunk = Z.to_nat n) as Hch by apply length_mem_read.
  assert (changes (pb_data s) m1 (p_payload tb + ot) (p_payload tb + ot + n)) as Hm1.
  { replace n with (Z.of_nat (length chunk)) by lia. apply changes_write. }
  assert (∃ m', copy_loop (S fuel) ta fa ot off s = Ok (ERR_OK, Pbufs (pb_store s) m' (pb_alloc s)) ∧
    contents m' (advance ot' lt') = contents m1 (advance off' lf') ++
      drop (length (contents m1 (advance off' lf'))) (contents m1 (advance ot' lt')) ∧
    ∀ x, outside (advance ot' lt') x → m' x = m1 x) as (m' & E' & Hm' & Hfr).
  { rewrite E. destruct lf' as [|[fa' fb'] fk'].
    - simpl in Hcf'. subst pf. by exists m1.
    - rewrite (proj2 (Z.eqb_neq pf 0)) by (by destruct Hcf' as (-> & ? & _)).
      apply (IH lt' ((fa', fb') :: fk') pt pf ot' off' (Pbufs (pb_store s) m1 (pb_alloc s))); try done;
        try (cbn [length] in *; lia); [by apply Hno'|].
      apply Hsub1. eapply Forall_impl; [exact Hcl|]. intros c Hc. by apply Hsub2. }
  exists m'. split; [exact E'|].
  assert (contents m1 (advance off' lf') = contents (pb_data s) (advance off' lf')) as Ef.
  { apply (contents_changes _ _ _ _ _ Hm1). eapply clear_of_sub; [| |apply Hclf; apply Forall_cons in Hcl as [Hcl _]; exact Hcl];
      simpl; lia. }
  rewrite (contents_changes _ _ _ _ _ Hm1 (Hself Hno)), Ef in Hm'. split.
  - rewrite Ct, Cf, Hm'. fold chunk. rewrite Ct.
    replace (mem_read m' (p_payload tb + ot) (Z.to_nat n)) with chunk.
    + rewrite <-app_assoc, length_app, drop_app_ge by (rewrite length_mem_read; lia).
      do 3 f_equal. rewrite length_mem_read. lia.
    + symmetry. rewrite <-(mem_write_read (pb_data s) (p_payload tb + ot) chunk (Z.to_nat n)) by done.
      apply mem_read_ext. intros x Hx. apply Hfr. eapply outside_clear; [exact (Hself Hno)|lia].
  - intros x Hx. rewrite Hfr by (by apply Hout). apply Hm1. apply Forall_cons in Hx as [Hx _]. simpl in Hx. lia.
Qed.

Lemma pbuf_copy_ok s pt pf lt lf :
  packet (pb_store s) pt lt → packet (pb_store s) pf lf → nonempty lt → nonempty lf →
  total_len lf ≤ total_len lt → no_overlap lt →
  Forall (λ c, clear_of (p_payload c.2) (p_payload c.2 + p_len c.2) lf) lt →
  ∃ m', pbuf_copy pt pf s = Ok (ERR_OK, Pbufs (pb_store s) m' (pb_alloc s)) ∧
    contents m' lt = contents (pb_data s) lf ++ drop (length (contents (pb_data s) lf)) (contents (pb_data s) lt) ∧
    ∀ x, outside lt x → m' x = pb_data s x.
Proof.
  intros [Hct Hlt Hut Hnt] [Hcf Hlf Huf Hnf] Hpt Hpf Htot Hno Hcl. unfold pbuf_copy.
  destruct lt as [|[ta tb] tk]; [done|]. destruct lf as [|[fa fb] fk]; [done|].
  pose proof Hct as (-> & Hta & Htb & _). pose proof Hcf as (-> & Hfa & Hfb & _).
  rewrite error_true by (by rewrite (proj2 (Z.eqb_neq _ _) Hta), (proj2 (Z.eqb_neq _ _) Hfa)).
  rewrite (get_pbuf_step _ _ _ _ Htb), (get_pbuf_step _ _ _ _ Hfb).
  rewrite error_true by (destruct Hlt as (_ & -> & _), Hlf as (_ & -> & _); by apply Z.leb_le).
  rewrite gets_bind. pose proof (chain_size _ _ _ Hct). pose proof (chain_size _ _ _ Hcf).
  pose proof (copy_loop_ok (pbuf_fuel s + pbuf_fuel s) ((ta, tb) :: tk) ((fa, fb) :: fk) ta fa 0 0 s) as C.
  rewrite !advance_0 in C. apply C; try done; try (by split; [|apply Forall_cons in Hpt as [? _], Hpf as [? _]]).
  unfold pbuf_fuel. lia.
Qed.

(** ** Looking at a packet *)

Lemma at_offset_ok fuel l p off s :
  chain (pb_store s) p l → lens_ok l → (length l < fuel)%nat → is_u16 off →
  ∃ q o l1 l2, at_offset fuel p off s = Ok ((q, o), s) ∧ l = l1 ++ l2 ∧ chain (pb_store s) q l2 ∧ is_u16 o ∧
    match l2 with
    | [] => q = 0 ∧ total_len l ≤ off
    | (_, b) :: _ => o = off - total_len l1 ∧ o < p_len b
    end.
Proof.
  revert fuel p off. induction l as [|[a b] l IH]; intros [|fuel] p off Hc Hl Hf Ho; simpl in Hf; try lia.
  { simpl in Hc. subst p. exists 0, off, [], []. unfold is_u16 in *. simpl. repeat (split; [done|]). lia. }
  pose proof Hc as (-> & Ha & Hb & Hc'). destruct Hl as (Hb0 & _ & Hl). cbn [at_offset].
  rewrite (proj2 (Z.eqb_neq _ _) Ha), (get_pbuf_step _ _ _ _ Hb). destruct (Z.leb_spec (p_len b) off).
  - rewrite u16_small by cint.
    destruct (IH fuel (p_next b) (off - p_len b)) as (q & o & l1 & l2 & E & -> & Hq & Hu & Hm);
      [done|done|lia|unfold is_u16 in *; lia|].
    exists q, o, ((a, b) :: l1), l2. repeat (split; [done|]).
    destruct l2 as [|[a' b'] l2]; cbn [total_len app snd] in *; [|split; [lia|apply Hm]].
    rewrite app_nil_r in *. split; [apply Hm|lia].
  - exists a, off, [], ((a, b) :: l). repeat (split; [done|]). simpl. split; [lia|done].
Qed.

Lemma length_contents_app m l1 l2 :
  lens_ok (l1 ++ l2) → 0 ≤ total_len l1 ∧ Z.of_nat (length (contents m l1)) = total_len l1.
Proof.
  induction l1 as [|[a b] l1 IH]; [done|]. cbn [app lens_ok]. intros (Hb & _ & Hl). specialize (IH Hl).
  cbn [contents total_len snd]. rewrite length_app. pose proof (length_cell_data m (a, b) Hb). simpl in *. lia.
Qed.
Lemma contents_octet_r m l1 l2 i :
  lens_ok (l1 ++ l2) → total_len l1 ≤ i →
  (contents m (l1 ++ l2)).[Z.to_nat i] = (contents m l2).[Z.to_nat (i - total_len l1)].
Proof.
  intros Hl Hi. destruct (length_contents_app m _ _ Hl). rewrite contents_app, octet_app_r by lia. f_equal. lia.
Qed.

Lemma pbuf_get_at_ok s p l off :
  chain (pb_store s) p l → lens_ok l → is_u16 off →
  pbuf_get_at p off s = Ok ((contents (pb_data s) l).[Z.to_nat off], s).
Proof.
  intros Hc Hl Ho. unfold pbuf_get_at. rewrite gets_bind. pose proof (chain_size _ _ _ Hc).
  destruct (at_offset_ok (pbuf_fuel s) l p off s Hc Hl ltac:(unfold pbuf_fuel; lia) Ho)
    as (q & o & l1 & l2 & E & -> & Hq & Hu & Hm). rewrite (bind_ok _ _ _ _ _ E). pose proof Ho as [Ho0 _].
  destruct l2 as [|[a b] l2].
  - destruct Hm as [-> Ht]. simpl. unfold octet. rewrite nth_overflow; [done|].
    pose proof (length_contents (pb_data s) _ Hl). lia.
  - destruct Hm as [-> Hm]. destruct Hq as (-> & Ha & Hb & _). rewrite (proj2 (Z.eqb_neq _ _) Ha).
    rewrite (get_pbuf_step _ _ _ _ Hb), (proj2 (Z.ltb_lt _ _)) by done. unfold gets. do 2 f_equal.
    pose proof Hu as [Hu0 _]. rewrite contents_octet_r by (done || lia). cbn [contents].
    rewrite octet_app_l by (unfold cell_data; rewrite length_mem_read; simpl; lia).
    unfold cell_data. rewrite mem_read_octet by (simpl; lia). simpl. f_equal. lia.
Qed.

(** The octets agree up to [k], and then differ or end. *)
Definition compared (c : list Z) (off : Z) (m : memory) (w n r : Z) : Prop :=
  (r = 0 ∧ ∀ i, 0 ≤ i < n → c.[Z.to_nat (off + i)] = m (w + i)) ∨
  (1 ≤ r ≤ n ∧ (∀ i, 0 ≤ i < r - 1 → c.[Z.to_nat (off + i)] = m (w + i)) ∧
   c.[Z.to_nat (off + (r - 1))] ≠ m (w + (r - 1))).

Lemma memcmp_loop_ok k q l start w i n s :
  chain (pb_store s) q l → lens_ok l → 0 ≤ start → 0 ≤ i → n = i + Z.of_nat k → start + n ≤ 2 ^ 16 →
  n < 2 ^ 16 → (∀ j, 0 ≤ j < i → (contents (pb_data s) l).[Z.to_nat (start + j)] = pb_data s (w + j)) →
  ∃ r, memcmp_loop k q start w i s = Ok (r, s) ∧ compared (contents (pb_data s) l) start (pb_data s) w n r.
Proof.
  intros Hc Hl Hs. revert i. induction k as [|k IH]; intros i Hi En Hn Hn' Heq; cbn [memcmp_loop].
  { exists 0. split; [done|]. left. split; [done|]. intros j Hj. apply Heq. lia. }
  rewrite (u16_small (start + i)) by cint.
  rewrite (bind_ok _ _ _ _ _ (pbuf_get_at_ok s q l (start + i) Hc Hl ltac:(unfold is_u16; lia))).
  rewrite gets_bind, u16_small by cint. destruct (Z.eqb_spec (contents (pb_data s) l).[Z.to_nat (start + i)] (pb_data s (w + i))) as [E|E]; cbn [negb].
  - apply IH; try lia. intros j Hj. destruct (decide (j = i)) as [->|]; [done|]. apply Heq. lia.
  - exists (i + 1). split; [done|]. right. split; [lia|]. replace (i + 1 - 1) with i by lia. by split.
Qed.

Lemma pbuf_memcmp_ok s p l off w n :
  chain (pb_store s) p l → lens_ok l → is_u16 off → 0 ≤ n < 2 ^ 16 → off + n ≤ 2 ^ 16 →
  ∃ r, pbuf_memcmp p off w n s = Ok (r, s) ∧
    if decide (off < total_len l) then compared (contents (pb_data s) l) off (pb_data s) w n r else r = 0xffff.
Proof.
  intros Hc Hl Ho Hn Hon. unfold pbuf_memcmp. rewrite gets_bind. pose proof (chain_size _ _ _ Hc).
  destruct (at_offset_ok (pbuf_fuel s) l p off s Hc Hl ltac:(unfold pbuf_fuel; lia) Ho)
    as (q & o & l1 & l2 & E & -> & Hq & Hu & Hm). rewrite (bind_ok _ _ _ _ _ E).
  destruct (length_contents_app (pb_data s) _ _ Hl) as [Hl1 _].
  destruct l2 as [|[a b] l2].
  - destruct Hm as [-> Ht]. exists 0xffff. split; [done|]. by rewrite decide_False by lia.
  - destruct Hm as [-> Hm]. pose proof Hq as (-> & Ha & Hb & _). rewrite (proj2 (Z.eqb_neq _ _) Ha).
    rewrite (get_pbuf_step _ _ _ _ Hb), (proj2 (Z.ltb_lt _ _)) by done.
    assert (lens_ok ((a, b) :: l2)) as Hl2 by (clear -Hl; induction l1 as [|[] l1 IH]; [done|apply IH, Hl]).
    pose proof Hl2 as (Hb0 & _ & Hl2'%lens_nonneg). pose proof Hu as [Hu0 _].
    destruct (memcmp_loop_ok (Z.to_nat n) a ((a, b) :: l2) (off - total_len l1) w 0 n s Hq Hl2)
      as (r & Er & Hr); try lia. exists r. split; [done|].
    rewrite decide_True by (rewrite total_len_app; simpl; lia).
    assert (∀ i, 0 ≤ i → (contents (pb_data s) (l1 ++ (a, b) :: l2)).[Z.to_nat (off + i)] =
              (contents (pb_data s) ((a, b) :: l2)).[Z.to_nat (off - total_len l1 + i)]) as Hshift.
    { intros i Hi. rewrite contents_octet_r by (done || lia). do 2 f_equal. lia. }
    destruct Hr as [[-> Hr]|(Hr1 & Hr2 & Hr3)].
    + left. split; [done|]. intros i Hi. rewrite Hshift by lia. by apply Hr.
    + right. split; [done|]. rewrite Hshift by lia. split; [|done]. intros i Hi. rewrite Hshift by lia. by apply Hr2.
Qed.

(** [n] octets of memory at [w] occur at [r]. *)
Definition occurs (c : list Z) (m : memory) (w n r : Z) : Prop :=
  0 ≤ r ∧ r + n ≤ Z.of_nat (length c) ∧ ∀ i, 0 ≤ i < n → c.[Z.to_nat (r + i)] = m (w + i).

Lemma memfind_loop_ok fuel p l w n i max s :
  chain (pb_store s) p l → lens_ok l → total_len l < 2 ^ 16 → 1 ≤ n → max = total_len l - n → 0 ≤ i →
  Z.of_nat fuel > max - i + 1 → (0 < fuel)%nat → i < 2 ^ 16 →
  ∃ r, memfind_loop fuel p w n i max s = Ok (r, s) ∧
    (r = 0xFFFF ∨ (i ≤ r ∧ occurs (contents (pb_data s) l) (pb_data s) w n r)).
Proof.
  intros Hc Hl Hu Hn Em. revert i. induction fuel as [|fuel IH]; [lia|]. intros i Hi Hf _ Hi16. cbn [memfind_loop].
  destruct (Z.leb_spec i max); [|exists 0xFFFF; split; [done|by left]].
  destruct (pbuf_memcmp_ok s p l i w n Hc Hl) as (r & E & Hr); [unfold is_u16; lia|lia|lia|].
  rewrite (bind_ok _ _ _ _ _ E), decide_True in * by lia. destruct (Z.eqb_spec r 0) as [->|Hnz].
  - exists i. split; [done|]. right. split; [done|]. split; [done|]. rewrite length_contents by done.
    split; [lia|]. destruct Hr as [[_ Hr]|[? _]]; [done|lia].
  - destruct Hr as [[-> _]|[Hr _]]; [done|]. rewrite u16_small by cint.
    destruct (IH (i + r)) as (r' & E' & Hr'); try lia. exists r'. split; [done|].
    destruct Hr' as [?|[? ?]]; [by left|right]. split; [lia|done].
Qed.

Lemma pbuf_memfind_ok s p l w n start :
  packet (pb_store s) p l → 1 ≤ n → n < 2 ^ 16 → is_u16 start →
  ∃ r, pbuf_memfind p w n start s = Ok (r, s) ∧
    (r = 0xFFFF ∨ (start ≤ r ∧ occurs (contents (pb_data s) l) (pb_data s) w n r)).
Proof.
  intros [Hc Hl Hu Hne] Hn Hn' [Hs0 Hs1]. unfold pbuf_memfind. destruct l as [|[a b] l]; [done|].
  pose proof Hc as (-> & Ha & Hb & _). rewrite (get_pbuf_step _ _ _ _ Hb). pose proof Hl as (_ & Et & _).
  destruct (Z.leb_spec (n + start) (p_tot_len b)); [|exists 0xFFFF; split; [done|by left]].
  cbn [total_len snd] in Hu. rewrite u16_small by cint.
  apply memfind_loop_ok; try done; try lia; try (rewrite Et; done).
  - unfold memfind_fuel. rewrite Z2Nat.id by lia. lia.
  - unfold memfind_fuel. lia.
Qed.
End Data.
