(* ===== verification/PbufMake.v ===== *)
(** * Allocating and shrinking packets

    [pbuf_alloc] either returns a packet of fresh buffers that is as long as
    asked for, with room for the headers of its layer, or nothing at all: a
    chain that cannot be completed is taken apart again.  [pbuf_realloc] cuts a
    packet, [pbuf_coalesce] makes one buffer out of a chain. *)

From S2P Require Import Prelude LwipBase Heap HeapInv Memp Pbuf PbufChain PbufLinks PbufData.
From Stdlib Require Import ZArith Lia.
From stdpp Require Import base numbers list gmap.
Open Scope Z_scope.

(** Alignment of a sum with an aligned address. *)
Lemma align_add x y : (4 | x) → LWIP_MEM_ALIGN_SIZE (x + y) = x + LWIP_MEM_ALIGN_SIZE y.
Proof.
  intros [k ->]. rewrite !align_size_value. replace (k * 4 + y + 3) with (y + 3 + k * 4) by lia.
  rewrite Z.div_add by lia. lia.
Qed.
Lemma align_addr x : 0 ≤ x → LWIP_MEM_ALIGN_SIZE x < 2 ^ 32 → LWIP_MEM_ALIGN x = LWIP_MEM_ALIGN_SIZE x.
Proof.
  intros. pose proof (align_size_bounds x). unfold LWIP_MEM_ALIGN. fold (LWIP_MEM_ALIGN_SIZE x). apply u32_small. cint.
Qed.

Lemma header_offset_bounds layer : 0 ≤ header_offset layer ≤ 54.
Proof. destruct layer; by vm_compute. Qed.
Lemma bufsize_value : PBUF_POOL_BUFSIZE_ALIGNED = 1516.
Proof. done. Qed.
Lemma sizeof_pbuf : SIZEOF_STRUCT_PBUF = 16.
Proof. done. Qed.

Section Make.
Context {A : Type} `{BufAllocLaws A}.
Implicit Types (s : pbufs_state A).

Lemma put_pbuf_step {B} p b (k : unit → M (pbufs_state A) B) s :
  (put_pbuf p b ≫= k) s = k tt (Pbufs (<[p := b]> (pb_store s)) (pb_data s) (pb_alloc s)).
Proof. done. Qed.
Lemma fresh_store s L p : pbufs_ok s L → L !! p = None → pb_store s !! p = None.
Proof.
  intros Hs Hp. destruct (pb_store s !! p) as [b|] eqn:Eb; [|done].
  apply (pb_bufs _ _ Hs) in Eb as (_ & _ & _ & Hb). destruct (p_type b).
  - destruct Hb as (n & Hb & _). congruence.
  - congruence.
  - congruence.
  - destruct Hb as [Hb _]. congruence.
Qed.

(** A buffer as [pbuf_alloc] sets it up. *)
Definition new_cell (ty : pbuf_type) (c : cell) : Prop :=
  p_ref c.2 = 1 ∧ p_flags c.2 = 0 ∧ p_type c.2 = ty.

(** From [s0] to [s], the buffers of [l] are new. *)
Record extends (s0 : pbufs_state A) (L0 : gmap Z place) (s : pbufs_state A) (L : gmap Z place) (l : list cell) : Prop := {
  ex_ok : pbufs_ok s L;
  ex_data : pb_data s = pb_data s0;
  ex_store a : a ∉ l.*1 → pb_store s !! a = pb_store s0 !! a;
  ex_live a : a ∉ l.*1 → L !! a = L0 !! a;
  ex_fresh a : a ∈ l.*1 → pb_store s0 !! a = None ∧ L0 !! a = None }.

Lemma unref_all l st a : Forall (λ c, p_ref c.2 = 1) l → unref l st !! a = if decide (a ∈ l.*1) then None else st !! a.
Proof.
  intros Hl. revert st. induction Hl as [|[c b] l Hb _ IH]; intros st; [by rewrite decide_False by (by intros ?%elem_of_nil)|].
  cbn [unref]. simpl in Hb. rewrite Hb. cbn [Z.eqb Pos.eqb]. rewrite IH.
  change (((c, b) :: l).*1) with (c :: l.*1). destruct (decide (a = c)) as [->|Hne].
  - rewrite lookup_delete_eq, (decide_True (P := c ∈ c :: _)) by (by left). by case_decide.
  - rewrite lookup_delete_ne by done. by repeat (case_decide; set_unfold); try tauto.
Qed.
Lemma freed_all l : Forall (λ c, p_ref c.2 = 1) l → freed l = l.
Proof. induction 1 as [|[a b] l Hb _ IH]; [done|]. cbn [freed]. simpl in Hb. rewrite Hb. cbn. by rewrite IH. Qed.

(** Taking a new chain apart leaves no trace. *)
Lemma undo s0 L0 s L p l ty :
  extends s0 L0 s L l → chain (pb_store s) p l → l ≠ [] → Forall (new_cell ty) l →
  ∃ n s', pbuf_free p s = Ok (n, s') ∧ pb_store s' = pb_store s0 ∧ pb_data s' = pb_data s0 ∧ pbufs_ok s' L0.
Proof.
  intros Hex Hc Hne Hl.
  assert (Forall (λ c, p_ref c.2 = 1) l) as Hr by (eapply Forall_impl; [exact Hl|]; by intros c [? _]).
  destruct (pbuf_free_ok s L p l (ex_ok _ _ _ _ _ Hex) Hc Hne) as (a' & E & Hok).
  { eapply Forall_impl; [exact Hr|]. simpl. lia. }
  eexists _, _. split; [exact E|]. cbn [pb_store pb_data].
  assert (unref l (pb_store s) = pb_store s0) as Est.
  { apply map_eq. intros a. rewrite unref_all by done. case_decide as Ha; [by destruct (ex_fresh _ _ _ _ _ Hex a Ha)|].
    by apply (ex_store _ _ _ _ _ Hex). }
  assert (unlive l L = L0) as EL.
  { apply map_eq. intros a. rewrite unlive_lookup, freed_all by done.
    case_decide as Ha; [by destruct (ex_fresh _ _ _ _ _ Hex a Ha)|]. by apply (ex_live _ _ _ _ _ Hex). }
  split; [done|]. split; [apply (ex_data _ _ _ _ _ Hex)|]. by rewrite <-EL.
Qed.

(** One more buffer. *)
Lemma extends_put s0 L0 s L l p b k a' :
  extends s0 L0 s L l → p ∉ l.*1 → L !! p = None → live a' (<[p := k]> L) → buf_ok (<[p := k]> L) p b →
  extends s0 L0 (Pbufs (<[p := b]> (pb_store s)) (pb_data s) a') (<[p := k]> L) (l ++ [(p, b)]).
Proof.
  intros [Hok Hd Hst HL Hf] Hpl Hp Ha' Hb. assert (∀ a, a ∉ (l ++ [(p, b)]).*1 → a ≠ p ∧ a ∉ l.*1) as Happ.
  { intros a Ha. rewrite fmap_app in Ha. apply not_elem_of_app in Ha as [Ha Hap]. split; [|done].
    intros ->. apply Hap. by left. }
  split; cbn [pb_store pb_data pb_alloc].
  - split; [done|]. cbn [pb_store]. intros q c [[<- <-]|[Hne Hq]]%lookup_insert_Some; [done|].
    eapply buf_ok_frame, (pb_bufs _ _ Hok _ _ Hq). by rewrite lookup_insert_ne.
  - done.
  - intros a [Hap Ha]%Happ. rewrite lookup_insert_ne by done. by apply Hst.
  - intros a [Hap Ha]%Happ. rewrite lookup_insert_ne by done. by apply HL.
  - intros a Ha. rewrite fmap_app in Ha. apply elem_of_app in Ha as [Ha|Ha]; [by apply Hf|].
    apply list_elem_of_singleton in Ha as ->. simpl. pose proof (fresh_store _ _ _ Hok Hp) as Hp'.
    rewrite Hst in Hp' by done. rewrite HL in Hp by done. done.
Qed.

(** A new buffer changed. *)
Lemma extends_set s0 L0 s L l k p b :
  extends s0 L0 s L l → k.*1 = l.*1 → p ∈ l.*1 → buf_ok L p b →
  extends s0 L0 (Pbufs (<[p := b]> (pb_store s)) (pb_data s) (pb_alloc s)) L k.
Proof.
  intros [Hok Hd Hst HL Hf] Ek Hp Hb. split; rewrite ?Ek; cbn [pb_store pb_data pb_alloc]; try done.
  - split; [apply Hok|]. cbn [pb_store]. intros q c [[<- <-]|[_ Hq]]%lookup_insert_Some; [done|by apply (pb_bufs _ _ Hok)].
  - intros a Ha. rewrite lookup_insert_ne by (intros ->; done). by apply Hst.
Qed.

(** ** Chains of pool buffers *)

(** [rem] octets are still to come. *)
Fixpoint lens_rem (rem : Z) (l : list cell) : Prop :=
  match l with
  | [] => True
  | (_, b) :: l => 0 ≤ p_len b ∧ p_tot_len b = p_len b + total_len l + rem ∧ lens_rem rem l
  end.
Lemma lens_rem_0 l : lens_rem 0 l → lens_ok l.
Proof. induction l as [|[a b] l IH]; [done|]. simpl. rewrite Z.add_0_r. tauto. Qed.
Lemma lens_rem_app rem l1 r br q bq n :
  lens_rem rem (l1 ++ [(r, br)]) → 0 ≤ n → p_len bq = n → p_tot_len bq = rem →
  lens_rem (rem - n) (l1 ++ [(r, with_next q br); (q, bq)]).
Proof.
  intros Hl Hn E1 E2. induction l1 as [|[a b] l1 IH]; simpl in *.
  - rewrite E1, E2. lia.
  - destruct Hl as (H1 & H2 & H3). split; [done|]. split; [|by apply IH]. rewrite total_len_app in *. simpl in *. lia.
Qed.

Lemma chain_snoc st p l1 r br q bq :
  chain st p (l1 ++ [(r, br)]) → q ≠ 0 → q ∉ (l1 ++ [(r, br)]).*1 → p_next bq = 0 →
  chain (<[r := with_next q br]> (<[q := bq]> st)) p (l1 ++ [(r, with_next q br); (q, bq)]).
Proof.
  intros Hc Hq Hql Hn. pose proof (chain_nodup _ _ _ Hc) as Hnd. rewrite fmap_app in Hql, Hnd.
  apply not_elem_of_app in Hql as [Hq1 Hqr]. apply NoDup_app in Hnd as (_ & Hr & _).
  assert (r ∉ l1.*1) as Hr1 by (intros Hin; apply (Hr r Hin); by left).
  assert (q ≠ r) as Hqr' by (intros ->; apply Hqr; by left).
  apply chain_links in Hc as [Hlk [Hst1 Hst2]%stored_app]. apply chain_links. split.
  - apply links_app in Hlk as (x & Hx & -> & Hr0 & _). apply links_app. exists r. split; [done|]. simpl. by rewrite Hn.
  - apply stored_app. split.
    + eapply stored_frame; [|exact Hst1]. intros a Ha.
      rewrite !lookup_insert_ne by (intros ->; done). done.
    + apply stored_cons. split; [apply lookup_insert_eq|]. apply stored_cons.
      rewrite lookup_insert_ne, lookup_insert_eq by done. split; [done|]. by intros ? ? ?%elem_of_nil.
Qed.

(** A chain of new pool buffers that starts at [p]. *)
Record building s0 L0 s L (p rem : Z) (l : list cell) : Prop := {
  bd_ext : extends s0 L0 s L l;
  bd_chain : chain (pb_store s) p l;
  bd_lens : lens_rem rem l;
  bd_new : Forall (new_cell PBUF_POOL) l }.

Lemma building_buf s0 L0 s L p rem l a b :
  building s0 L0 s L p rem l → (a, b) ∈ l →
  buf_ok L a b ∧ pb_store s !! a = Some b ∧
  p_payload b + p_len b ≤ a + SIZEOF_STRUCT_PBUF + PBUF_POOL_BUFSIZE_ALIGNED.
Proof.
  intros [Hex Hc _ Hnew] Hin. pose proof (chain_lookup _ _ _ _ _ Hc Hin) as Hb.
  pose proof (pb_bufs _ _ (ex_ok _ _ _ _ _ Hex) _ _ Hb) as Hok. split; [done|]. split; [done|].
  rewrite Forall_forall in Hnew. destruct (Hnew _ Hin) as (_ & _ & Ety). simpl in Ety.
  destruct Hok as (_ & _ & _ & Hpl). rewrite Ety in Hpl. apply Hpl.
Qed.

Lemma building_grow s0 L0 s L p rem l1 r br q a' n :
  building s0 L0 s L p rem (l1 ++ [(r, br)]) → L !! q = None → live a' (<[q := InPool MEMP_PBUF_POOL]> L) →
  0 < n ≤ 1516 → is_u16 rem →
  let bq := Pbuf 0 (q + SIZEOF_STRUCT_PBUF) rem n PBUF_POOL 0 1 in
  building s0 L0 (Pbufs (<[r := with_next q br]> (<[q := bq]> (pb_store s))) (pb_data s) a')
    (<[q := InPool MEMP_PBUF_POOL]> L) p (rem - n) (l1 ++ [(r, with_next q br); (q, bq)]).
Proof.
  intros Hbd Hq Ha' Hn Hrem bq. pose proof Hbd as [Hex Hc Hl Hnew].
  destruct (live_wf _ _ q _ Ha' (lookup_insert_eq _ _ _)) as (Hq0 & Hq4 & _).
  assert (q ∉ (l1 ++ [(r, br)]).*1) as Hql.
  { intros ([a b] & -> & Hin)%list_elem_of_fmap. destruct (building_buf _ _ _ _ _ _ _ _ _ Hbd Hin) as (_ & Hb & _).
    pose proof (fresh_store _ _ _ (ex_ok _ _ _ _ _ Hex) Hq) as Hq'. simpl in Hq'. congruence. }
  assert (buf_ok (<[q := InPool MEMP_PBUF_POOL]> L) q bq) as Hbq.
  { split; [unfold is_u16; simpl; lia|]. split; [done|]. split; [done|]. cbn. rewrite lookup_insert_eq.
    split; [done|]. rewrite bufsize_value. lia. }
  destruct (building_buf _ _ _ _ _ _ _ r br Hbd) as (Hbr & _); [apply elem_of_app; right; by left|].
  assert (q ≠ r) as Hqr by (intros ->; apply Hql; rewrite fmap_app; apply elem_of_app; right; by left).
  pose proof (extends_put _ _ _ _ _ q bq _ a' Hex Hql Hq Ha' Hbq) as Hex1. split.
  - eapply (extends_set _ _ _ _ _ _ r (with_next q br) Hex1).
    + by rewrite <-app_assoc, !fmap_app.
    + rewrite fmap_app, fmap_app. apply elem_of_app. left. apply elem_of_app. right. by left.
    + apply (buf_ok_frame L); [by rewrite lookup_insert_ne|]. eapply buf_ok_same, Hbr; [done|]. apply Hbr.
  - apply chain_snoc; [done|lia|done|done].
  - apply lens_rem_app; [done|lia|done|done].
  - apply Forall_app in Hnew as [Hn1 [Hn2 _]%Forall_cons]. apply Forall_app. split; [done|].
    apply Forall_cons. split; [done|]. by apply Forall_singleton.
Qed.

(** The rest of the chain, or nothing. *)
Lemma alloc_tail_ok fuel s0 L0 s L p rem l1 r br :
  building s0 L0 s L p rem (l1 ++ [(r, br)]) → 0 ≤ rem < 0xffff → (Z.to_nat rem < fuel)%nat →
  ∃ ok s', alloc_tail fuel p r rem s = Ok (ok, s') ∧
    if ok : bool then ∃ L' l k, building s0 L0 s' L' p 0 (l ++ k) ∧ same_bufs (l1 ++ [(r, br)]) l ∧ total_len k = rem
    else pb_store s' = pb_store s0 ∧ pb_data s' = pb_data s0 ∧ pbufs_ok s' L0.
Proof.
  revert s L rem l1 r br. induction fuel as [|fuel IH]; [lia|]. intros s L rem l1 r br Hbd Hrem Hf.
  cbn [alloc_tail]. destruct (Z.ltb_spec 0 rem) as [Hpos|Hz].
  2:{ exists true, s. split; [done|]. assert (rem = 0) as -> by lia. exists L, (l1 ++ [(r, br)]), [].
      rewrite app_nil_r. done. }
  pose proof Hbd as [Hex Hc Hl Hnew].
  destruct (memp_malloc_law _ _ MEMP_PBUF_POOL (pb_live _ _ (ex_ok _ _ _ _ _ Hex)) ltac:(done))
    as (q & a' & E & Hq). rewrite (on_alloc_step _ _ _ _ _ E).
  destruct Hq as [[-> Ha']|[Hq Ha']].
  - simpl (0 =? 0). cbv iota.
    assert (extends s0 L0 (Pbufs (pb_store s) (pb_data s) a') L (l1 ++ [(r, br)])) as Hex'.
    { destruct Hex as [[_ Hb] ? ? ? ?]. by split; [split|..]. }
    destruct (undo _ _ _ _ p _ _ Hex' Hc ltac:(by destruct l1) Hnew) as (n & s' & Ef & Hs').
    exists false, s'. rewrite (bind_ok _ _ _ _ _ Ef). by split.
  - destruct (live_wf _ _ q _ Ha' (lookup_insert_eq _ _ _)) as (Hq0 & Hq4 & _).
    rewrite (proj2 (Z.eqb_neq q 0)) by lia. cbv zeta. rewrite bufsize_value, !u16_small by (unfold is_u16; lia).
    set (n := Z.min rem 1516). set (bq := Pbuf 0 (q + SIZEOF_STRUCT_PBUF) rem n PBUF_POOL 0 1).
    pose proof (building_grow _ _ _ _ _ _ _ _ _ q a' n Hbd Hq Ha' ltac:(lia) ltac:(unfold is_u16; lia)) as Hbd'.
    cbv zeta in Hbd'. fold bq in Hbd'.
    assert (∃ bp, (p, bp) ∈ l1 ++ [(r, with_next q br); (q, bq)]) as [bp Hbp].
    { destruct l1 as [|[a b] l1]; simpl.
      - pose proof Hc as (-> & _). exists (with_next q br). by left.
      - pose proof Hc as (-> & _). exists b. by left. }
    destruct (building_buf _ _ _ _ _ _ _ _ _ Hbd' Hbp) as (_ & Hbp1 & Hbp2).
    destruct (building_buf _ _ _ _ _ _ _ r br Hbd) as (_ & Hbr & _); [apply elem_of_app; right; by left|].
    assert (q ≠ r) as Hqr.
    { intros ->. pose proof (fresh_store _ _ _ (ex_ok _ _ _ _ _ Hex) Hq). congruence. }
    rewrite assert_true by (apply Z.ltb_lt; lia).
    rewrite put_pbuf_step. cbn [pb_store pb_data pb_alloc].
    rewrite (set_pbuf_step _ br) by (cbn [pb_store]; by rewrite lookup_insert_ne).
    rewrite assert_true by (unfold MEM_ALIGNMENT; rewrite sizeof_pbuf; apply Z.eqb_eq, aligned_mod, Z.divide_add_r; [done|by exists 4]).
    cbn [pb_store pb_data pb_alloc]. rewrite (get_pbuf_step _ _ _ _ Hbp1).
    rewrite assert_true by (apply Z.leb_le; rewrite bufsize_value in Hbp2; lia).
    change [(r, with_next q br); (q, bq)] with ([(r, with_next q br)] ++ [(q, bq)]) in Hbd'. rewrite app_assoc in Hbd'.
    destruct (IH _ _ _ _ _ _ Hbd') as (ok & s' & E' & Hs'); [lia|lia|]. exists ok, s'. split; [exact E'|].
    destruct ok; [|done]. destruct Hs' as (L' & l & k & Hl' & Hsame & Hk).
    apply Forall2_app_inv_l in Hsame as (x & y & Hx & Hy & ->). exists L', x, (y ++ k).
    rewrite <-app_assoc in Hl'. split; [done|]. split.
    + etransitivity; [|exact Hx]. apply Forall2_app; [apply same_bufs_refl|]. by repeat constructor.
    + rewrite total_len_app, (same_bufs_total _ _ Hy). simpl. lia.
Qed.

(** ** [pbuf_alloc] *)

Lemma extends_refl s L : pbufs_ok s L → extends s L s L [].
Proof. intros Hs. split; try done. by intros a ?%elem_of_nil. Qed.

(** A single new buffer. *)
Lemma alloc_single s L p b k a' :
  pbufs_ok s L → L !! p = None → live a' (<[p := k]> L) → buf_ok (<[p := k]> L) p b →
  p_next b = 0 → p_tot_len b = p_len b →
  let s' := Pbufs (<[p := b]> (pb_store s)) (pb_data s) a' in
  extends s L s' (<[p := k]> L) [(p, b)] ∧ packet (pb_store s') p [(p, b)].
Proof.
  intros Hs Hp Ha' Hb Hn Ht. cbv zeta. split.
  - apply (extends_put s L s L [] p b k a'); [by apply extends_refl|by apply not_elem_of_nil|done..].
  - destruct (live_wf _ _ p _ Ha' (lookup_insert_eq _ _ _)) as (Hp0 & _). pose proof Hb as (Hlen & _).
    unfold is_u16 in Hlen. split; [|split; [apply Hlen|simpl; split; [lia|done]]|simpl; lia|done].
    simpl. split; [done|]. split; [lia|]. split; [apply lookup_insert_eq|done].
Qed.

(** What [pbuf_alloc] promises. *)
Definition alloc_result s L (layer : pbuf_layer) (length : Z) (type : pbuf_type) (p : Z) s' : Prop :=
  (p = 0 ∧ pb_store s' = pb_store s ∧ pb_data s' = pb_data s ∧ pbufs_ok s' L) ∨
  ∃ L' b l, extends s L s' L' ((p, b) :: l) ∧ packet (pb_store s') p ((p, b) :: l) ∧
    total_len ((p, b) :: l) = length ∧ Forall (new_cell type) ((p, b) :: l) ∧
    match type with
    | PBUF_RAM | PBUF_POOL => p + SIZEOF_STRUCT_PBUF + header_offset layer ≤ p_payload b ∧ (4 | p_payload b)
    | PBUF_ROM | PBUF_REF => p_payload b = 0
    end ∧ (type ≠ PBUF_POOL → l = []).

Lemma alloc_none s L layer length type a' :
  pbufs_ok s L → live a' L → alloc_result s L layer length type 0 (Pbufs (pb_store s) (pb_data s) a').
Proof. intros [_ Hb] Ha. left. do 3 (split; [done|]). by split. Qed.

Lemma payload_align p offset :
  0 < p → (4 | p) → 0 ≤ offset ≤ 54 →
  p + SIZEOF_STRUCT_PBUF + LWIP_MEM_ALIGN_SIZE offset < 2 ^ 32 →
  LWIP_MEM_ALIGN (p + (SIZEOF_STRUCT_PBUF + offset)) = p + SIZEOF_STRUCT_PBUF + LWIP_MEM_ALIGN_SIZE offset ∧
  offset ≤ LWIP_MEM_ALIGN_SIZE offset ≤ 56 ∧ (4 | p + SIZEOF_STRUCT_PBUF + LWIP_MEM_ALIGN_SIZE offset).
Proof.
  intros Hp Hp4 Ho Hb. pose proof (align_size_bounds offset) as Hal. rewrite sizeof_pbuf in *.
  assert (4 | p + 16) as H16 by (apply Z.divide_add_r; [done|by exists 4]).
  replace (p + (16 + offset)) with (p + 16 + offset) by lia.
  rewrite align_addr by (rewrite ?align_add by done; lia). rewrite align_add by done. split; [done|]. pose proof (align_size_divides offset) as [k Hk]. split; [lia|].
  apply Z.divide_add_r; [done|]. by exists k.
Qed.

Lemma alloc_pool s L layer length :
  pbufs_ok s L → is_u16 length →
  ∃ p s', pbuf_alloc layer length PBUF_POOL s = Ok (p, s') ∧ alloc_result s L layer length PBUF_POOL p s'.
Proof.
  intros Hs Hlen. unfold pbuf_alloc.
  destruct (memp_malloc_law _ _ MEMP_PBUF_POOL (pb_live _ _ Hs) ltac:(done)) as (p & a' & E & Hp).
  rewrite (on_alloc_step _ _ _ _ _ E). destruct Hp as [[-> Ha']|[Hp Ha']].
  { eexists 0, _. split; [done|]. by apply alloc_none. }
  destruct (live_wf _ _ p _ Ha' (lookup_insert_eq _ _ _)) as (Hp0 & Hp4 & Hp32 & _).
  change (place_size (InPool MEMP_PBUF_POOL)) with 1532 in Hp32. rewrite (proj2 (Z.eqb_neq p 0)) by lia. cbv zeta.
  pose proof (header_offset_bounds layer) as Ho. set (offset := header_offset layer) in *.
  pose proof (align_size_bounds offset) as Hal0.
  destruct (payload_align p offset Hp0 Hp4 Ho) as (-> & Hal & Hd); [rewrite sizeof_pbuf; lia|].
  set (al := LWIP_MEM_ALIGN_SIZE offset) in *. set (payload := p + SIZEOF_STRUCT_PBUF + al) in *. rewrite bufsize_value.
  unfold is_u16 in Hlen. set (len := u16 _).
  assert (len = Z.min length (1516 - al)) as El by (unfold len; rewrite u16_small by (unfold is_u16; lia); done).
  clearbody len. rewrite assert_true by (by apply Z.eqb_eq, aligned_mod).
  rewrite assert_true by (apply Z.leb_le; lia). rewrite assert_true by (apply Z.ltb_lt; lia).
  rewrite put_pbuf_step. cbn [pb_store pb_data pb_alloc].
  set (b := Pbuf 0 payload length len PBUF_POOL 0 1).
  assert (buf_ok (<[p := InPool MEMP_PBUF_POOL]> L) p b) as Hb.
  { split; [unfold is_u16; simpl; lia|]. split; [done|]. split; [done|]. cbn. rewrite lookup_insert_eq.
    split; [done|]. rewrite bufsize_value. lia. }
  assert (building s L (Pbufs (<[p := b]> (pb_store s)) (pb_data s) a') (<[p := InPool MEMP_PBUF_POOL]> L)
            p (length - len) ([] ++ [(p, b)])) as Hbd.
  { split.
    - apply (extends_put s L s L [] p b); [by apply extends_refl|by apply not_elem_of_nil|done..].
    - simpl. split; [done|]. split; [lia|]. split; [apply lookup_insert_eq|done].
    - simpl. split; [lia|]. split; [lia|done].
    - by apply Forall_singleton. }
  destruct (alloc_tail_ok alloc_fuel _ _ _ _ _ _ _ _ _ Hbd) as (ok & s' & Et & Hs'); [lia|unfold alloc_fuel; lia|].
  rewrite (bind_ok _ _ _ _ _ Et). destruct ok.
  2:{ exists 0, s'. split; [done|]. left. by split. }
  destruct Hs' as (L' & l & k & [Hex Hc Hl Hnew] & Hsame & Hk).
  pose proof (same_bufs_total _ _ Hsame) as Htot. apply Forall2_cons_inv_l in Hsame as ([p' b'] & l' & [Ep Hb'] & Hnil & ->).
  apply Forall2_nil_inv_l in Hnil as ->. simpl in Ep, Hb', Htot. subst p'. cbn [app] in *.
  pose proof Hc as (_ & _ & Hpb & _). pose proof Hnew as [(Hr & Hfl & _) _]%Forall_cons. simpl in Hr, Hfl.
  assert (∀ x : A, Pbufs (<[p := b']> (pb_store s')) (pb_data s') x = Pbufs (pb_store s') (pb_data s') x) as Eid
    by (intros x; by rewrite (insert_id _ _ _ Hpb)).
  rewrite (set_pbuf_step _ _ _ _ _ Hpb). replace (with_ref 1 b') with b' by (rewrite <-Hr; by destruct b').
  rewrite Eid, (set_pbuf_step _ b') by done. replace (with_flags 0 b') with b' by (rewrite <-Hfl; by destruct b').
  cbn [pb_store pb_data pb_alloc]. rewrite Eid.
  exists p, s'. split; [by destruct s'|]. right. exists L', b', k.
  assert (total_len ((p, b') :: k) = length) as Ht by (simpl; lia).
  split; [done|]. split; [split; [done|by apply lens_rem_0|lia|done]|]. split; [done|]. split; [done|].
  destruct Hb' as (-> & _). simpl. unfold payload. split; [split; [lia|done]|done].
Qed.

Lemma alloc_ram s L layer length :
  pbufs_ok s L → is_u16 length →
  LWIP_MEM_ALIGN_SIZE (SIZEOF_STRUCT_PBUF + header_offset layer) + LWIP_MEM_ALIGN_SIZE length ≤ 65532 →
  ∃ p s', pbuf_alloc layer length PBUF_RAM s = Ok (p, s') ∧ alloc_result s L layer length PBUF_RAM p s'.
Proof.
  intros Hs Hlen Hfit. unfold pbuf_alloc. pose proof (header_offset_bounds layer) as Ho.
  set (offset := header_offset layer) in *. pose proof (align_size_bounds length) as Hal.
  rewrite (align_add SIZEOF_STRUCT_PBUF offset) in * by (by exists 4). pose proof (align_size_bounds offset) as Hal'.
  pose proof Hlen as [Hlen0 _]. rewrite sizeof_pbuf in Hfit.
  rewrite u16_small by (unfold is_u16; rewrite sizeof_pbuf; lia).
  set (size := SIZEOF_STRUCT_PBUF + LWIP_MEM_ALIGN_SIZE offset + LWIP_MEM_ALIGN_SIZE length).
  assert (is_u16 size) as Hsz by (unfold is_u16, size; rewrite sizeof_pbuf; lia).
  destruct (mem_malloc_law _ _ size (pb_live _ _ Hs) Hsz) as (p & a' & E & Hp).
  rewrite (on_alloc_step _ _ _ _ _ E). destruct Hp as [[-> Ha']|[Hp Ha']].
  { eexists 0, _. split; [done|]. by apply alloc_none. }
  destruct (live_wf _ _ p _ Ha' (lookup_insert_eq _ _ _)) as (Hp0 & Hp4 & Hp32 & _). cbn [place_size] in Hp32.
  destruct (request_size_spec size Hsz) as (_ & _ & Hreq).
  assert (size ≤ request_size size) as Hreq' by (apply Hreq; unfold size; rewrite sizeof_pbuf; lia).
  rewrite (proj2 (Z.eqb_neq p 0)) by lia. cbv zeta.
  replace (p + SIZEOF_STRUCT_PBUF + offset) with (p + (SIZEOF_STRUCT_PBUF + offset)) by lia.
  destruct (payload_align p offset Hp0 Hp4 Ho) as (-> & _ & Hd); [lia|].
  rewrite assert_true by (by apply Z.eqb_eq, aligned_mod). rewrite put_pbuf_step. cbn [pb_store pb_data pb_alloc].
  set (payload := p + SIZEOF_STRUCT_PBUF + LWIP_MEM_ALIGN_SIZE offset) in *.
  set (b := Pbuf 0 payload length length PBUF_RAM 0 1).
  assert (buf_ok (<[p := InHeap (request_size size)]> L) p b) as Hb.
  { do 3 (split; [done|]). cbn. exists (request_size size). rewrite lookup_insert_eq. split; [done|]. lia. }
  destruct (alloc_single _ _ _ b _ _ Hs Hp Ha' Hb eq_refl eq_refl) as [Hex Hpk].
  eexists p, _. split; [done|]. right. exists (<[p := InHeap (request_size size)]> L), b, [].
  split; [done|]. split; [done|]. split; [simpl; lia|]. split; [by apply Forall_singleton|].
  split; [split; [simpl; lia|done]|done].
Qed.

Lemma alloc_extern s L layer length type :
  pbufs_ok s L → is_u16 length → type = PBUF_ROM ∨ type = PBUF_REF →
  ∃ p s', pbuf_alloc layer length type s = Ok (p, s') ∧ alloc_result s L layer length type p s'.
Proof.
  intros Hs Hlen Hty.
  destruct (memp_malloc_law _ _ MEMP_PBUF (pb_live _ _ Hs) ltac:(done)) as (p & a' & E & Hp).
  assert (pbuf_alloc layer length type s =
    (if p =? 0 then mret 0 else put_pbuf p (Pbuf 0 0 length length type 0 1);; mret p)
      (Pbufs (pb_store s) (pb_data s) a')) as ->.
  { destruct Hty as [-> | ->]; unfold pbuf_alloc; by rewrite (on_alloc_step _ _ _ _ _ E). }
  destruct Hp as [[-> Ha']|[Hp Ha']]; [eexists 0, _; split; [done|]; by apply alloc_none|].
  destruct (live_wf _ _ p _ Ha' (lookup_insert_eq _ _ _)) as (Hp0 & _).
  rewrite (proj2 (Z.eqb_neq p 0)), put_pbuf_step by lia. cbn [pb_store pb_data pb_alloc].
  set (b := Pbuf 0 0 length length type 0 1).
  assert (buf_ok (<[p := InPool MEMP_PBUF]> L) p b) as Hb.
  { do 3 (split; [done|]). cbn. destruct Hty as [-> | ->]; apply lookup_insert_eq. }
  destruct (alloc_single _ _ _ b _ _ Hs Hp Ha' Hb eq_refl eq_refl) as [Hex Hpk].
  eexists p, _. split; [done|]. right. exists (<[p := InPool MEMP_PBUF]> L), b, [].
  split; [done|]. split; [done|]. split; [simpl; lia|]. split; [by apply Forall_singleton|].
  split; [by destruct Hty as [-> | ->]|done].
Qed.

Lemma pbuf_alloc_ok s L layer length type :
  pbufs_ok s L → is_u16 length →
  (type = PBUF_RAM →
   LWIP_MEM_ALIGN_SIZE (SIZEOF_STRUCT_PBUF + header_offset layer) + LWIP_MEM_ALIGN_SIZE length ≤ 65532) →
  ∃ p s', pbuf_alloc layer length type s = Ok (p, s') ∧ alloc_result s L layer length type p s'.
Proof.
  intros Hs Hlen Hfit. destruct type.
  - by apply alloc_ram; [..|apply Hfit].
  - apply alloc_extern; auto.
  - apply alloc_extern; auto.
  - by apply alloc_pool.
Qed.

(** ** [pbuf_realloc] *)

(** The buffers that [n] octets fill, and the rest. *)
Fixpoint cut (n : Z) (l : list cell) : list cell * list cell :=
  match l with
  | [] => ([], [])
  | (a, b) :: k => if p_len b <? n then let '(x, y) := cut (n - p_len b) k in ((a, b) :: x, y) else ([], l)
  end.

Lemma cut_ok n l :
  lens_ok l → 0 ≤ n < total_len l →
  ∃ l1 q b l2, cut n l = (l1, (q, b) :: l2) ∧ l = l1 ++ (q, b) :: l2 ∧ 0 ≤ n - total_len l1 ≤ p_len b.
Proof.
  revert n. induction l as [|[a b] l IH]; intros n; simpl; [lia|]. intros (Hb & _ & Hl) Hn.
  destruct (Z.ltb_spec (p_len b) n).
  - destruct (IH (n - p_len b) Hl ltac:(lia)) as (l1 & q & c & l2 & -> & -> & Hr).
    exists ((a, b) :: l1), q, c, l2. split; [done|]. split; [done|]. simpl. lia.
  - exists [], a, b, l. split; [done|]. split; [done|]. simpl. lia.
Qed.

Lemma realloc_skip_ok fuel l l1 q b l2 p n g s :
  chain (pb_store s) p l → lens_ok l → cut n l = (l1, (q, b) :: l2) → (length l < fuel)%nat →
  0 ≤ n < 2 ^ 16 → g < 0xffff →
  realloc_skip fuel p n g s =
    Ok ((q, n - total_len l1), Pbufs (write_cells (grow g <$> l1) (pb_store s)) (pb_data s) (pb_alloc s)).
Proof.
  revert fuel p n l1 s. induction l as [|[a c] l IH]; intros [|fuel] p n l1 s Hc Hl Hcut Hf Hn Hg; simpl in Hf; try lia; [done|].
  pose proof (chain_nodup _ _ _ Hc) as Hnd. cbn in Hnd. apply NoDup_cons in Hnd as [Ha _].
  destruct Hc as (-> & Hnz & Hb & Hc). destruct Hl as (Hc0 & _ & Hl). cbn [realloc_skip cut] in *.
  rewrite (get_pbuf_step _ _ _ _ Hb). destruct (Z.ltb_spec (p_len c) n).
  - destruct (cut (n - p_len c) l) as [x y] eqn:Ecut. injection Hcut as <- ->.
    rewrite assert_true by (by apply Z.ltb_lt). rewrite (set_pbuf_step _ _ _ _ _ Hb).
    assert (p_next c ≠ 0) as Hnx by (destruct l as [|[]]; [done|by destruct Hc as (-> & ? & _)]).
    rewrite assert_true by (by rewrite (proj2 (Z.eqb_neq _ _) Hnx)). rewrite (u16_small (n - p_len c)) by cint.
    rewrite (IH fuel (p_next c) (n - p_len c) x) by (done || lia || (cbn [pb_store]; by apply chain_insert)).
    cbn [pb_store pb_data pb_alloc]. simpl total_len.
    replace (n - p_len c - total_len x) with (n - (p_len c + total_len x)) by lia.
    replace (u16 (p_tot_len c + u16 g)) with (u16 (p_tot_len c + g)) by (unfold u16; by rewrite Z.add_mod_idemp_r). done.
  - injection Hcut as <- <- <- <-. simpl. rewrite Z.sub_0_r. by destruct s.
Qed.

Lemma request_le n size :
  0 ≤ n ≤ size → (4 | size) → 12 ≤ size < 2 ^ 16 → n ≤ request_size n ≤ size ∧ is_u16 n.
Proof.
  intros Hn [k ->] Hs. assert (is_u16 n) as Hu by (unfold is_u16; lia). split; [|done].
  destruct (request_size_spec n Hu) as (_ & _ & Hr). specialize (Hr ltac:(lia)).
  split; [lia|]. unfold request_size. change MIN_SIZE_ALIGNED with 12.
  assert (LWIP_MEM_ALIGN_SIZE n ≤ k * 4) as Hv.
  { rewrite align_size_value. Z.to_euclidean_division_equations; lia. }
  pose proof (align_size_bounds n). rewrite u16_small by (unfold is_u16; lia).
  destruct (Z.ltb_spec (LWIP_MEM_ALIGN_SIZE n) 12); lia.
Qed.

(** The last buffer with [rem] octets left. *)
Definition shrunk (rem : Z) (b : pbuf) : pbuf := with_tot_len rem (with_len rem b).

Lemma trim_step s L q b rem :
  live (pb_alloc s) L → buf_ok L q b → q ≠ 0 → 0 ≤ rem ≤ p_len b →
  ∃ a' L1, (if bool_decide (p_type b = PBUF_RAM) && negb (rem =? p_len b) then
              q ← on_alloc (ba_mem_trim q (u16 (u16 (p_payload b - q) + rem)));
              LWIP_ASSERT (negb (q =? 0));;
              mret q
            else mret q) s = Ok (q, Pbufs (pb_store s) (pb_data s) a') ∧
    live a' L1 ∧ buf_ok L1 q (shrunk rem b) ∧ ∀ x, x ≠ q → L1 !! x = L !! x.
Proof.
  intros Hl Hb Hq Hrem. destruct Hb as (Hlen & Htot & Href & Hpl).
  assert (is_u16 rem) as Hr by (unfold is_u16 in *; lia). destruct (bool_decide _ && _) eqn:E.
  2:{ exists (pb_alloc s), L. split; [by destruct s|]. split; [done|]. split; [|done].
      do 2 (split; [exact Hr|]). split; [done|]. cbn. destruct (p_type b); try done.
      - destruct Hpl as (n & ? & ? & ?). exists n. split; [done|]. lia.
      - destruct Hpl as (? & ? & ?). split; [done|]. lia. }
  apply andb_prop in E as [Ety%bool_decide_eq_true Hne%negb_true_iff%Z.eqb_neq].
  rewrite Ety in Hpl. destruct Hpl as (n & Hn & H1 & H2).
  rewrite sizeof_pbuf in H1. destruct (live_wf _ _ _ _ Hl Hn) as (_ & _ & _ & Hn16 & Hn4). cbn [place_size] in *.
  destruct (request_le (p_payload b - q + rem) n) as [Hreq Hu]; [lia|done|done|].
  rewrite (u16_small (p_payload b - q)), u16_small by (done || (unfold is_u16 in *; lia)).
  destruct (mem_trim_law _ _ _ _ _ Hl Hn Hu ltac:(lia)) as (a' & E & Ha').
  exists a', (<[q := InHeap (request_size (p_payload b - q + rem))]> L).
  rewrite (on_alloc_step _ _ _ _ _ E), assert_true by (by rewrite (proj2 (Z.eqb_neq q 0))).
  split; [done|]. split; [done|]. split; [|by intros x Hx; rewrite lookup_insert_ne by done].
  do 2 (split; [exact Hr|]). split; [done|]. cbn. rewrite Ety.
  exists (request_size (p_payload b - q + rem)). rewrite lookup_insert_eq, sizeof_pbuf. split; [done|]. lia.
Qed.

Lemma lens_ok_app_r l k : lens_ok (l ++ k) → lens_ok k.
Proof. induction l as [|[a b] l IH]; [done|]. intros (_ & _ & ?). by apply IH. Qed.

(** The shortened chain. *)
Definition realloc_cells (g rem : Z) (l1 : list cell) (q : Z) (b : pbuf) : list cell :=
  (grow g <$> l1) ++ [(q, with_next 0 (shrunk rem b))].

Lemma realloc_lens g n l1 q b l2 :
  lens_ok (l1 ++ (q, b) :: l2) → 0 ≤ n - total_len l1 ≤ p_len b → total_len (l1 ++ (q, b) :: l2) < 2 ^ 16 →
  g = n - total_len (l1 ++ (q, b) :: l2) →
  let l' := realloc_cells g (n - total_len l1) l1 q b in lens_ok l' ∧ total_len l' = n.
Proof.
  cbv zeta. revert n. induction l1 as [|[a c] l1 IH]; intros n Hl Hn Hu Hg.
  - cbn [app total_len snd] in *. rewrite Z.sub_0_r in *. destruct Hl as (_ & _ & ?%lens_nonneg).
    cbn. split; [|lia]. split; [lia|]. split; [lia|done].
  - destruct Hl as (Hc & Et & Hl). cbn [app total_len snd] in *.
    destruct (length_contents_app (λ _, 0) _ _ Hl) as [Hl1 _].
    destruct (lens_ok_app_r _ _ Hl) as (_ & _ & Hr%lens_nonneg). rewrite total_len_app in *.
    assert (total_len ((q, b) :: l2) = p_len b + total_len l2) as Hql by done.
    destruct (IH (n - p_len c) Hl) as [IH1 IH2]; try lia.
    replace (n - (p_len c + total_len l1)) with (n - p_len c - total_len l1) by lia.
    change (realloc_cells g (n - p_len c - total_len l1) ((a, c) :: l1) q b) with
      ((a, with_tot_len (u16 (p_tot_len c + g)) c) :: realloc_cells g (n - p_len c - total_len l1) l1 q b).
    cbn [lens_ok total_len with_tot_len p_len p_tot_len snd]. rewrite IH2. split; [|lia]. split; [done|]. split; [|done].
    rewrite u16_small by cint. lia.
Qed.

Lemma realloc_contents m g n l1 q b l2 :
  lens_ok (l1 ++ (q, b) :: l2) → 0 ≤ n - total_len l1 ≤ p_len b →
  contents m (realloc_cells g (n - total_len l1) l1 q b) = take (Z.to_nat n) (contents m (l1 ++ (q, b) :: l2)).
Proof.
  intros Hl Hn. unfold realloc_cells. rewrite !contents_app, (same_bufs_contents _ _ _ (same_bufs_grow g l1)).
  destruct (length_contents_app m _ _ Hl) as [Hl0 Hlen]. rewrite take_app_ge by lia. f_equal. cbn [contents].
  rewrite app_nil_r, take_app_le by (unfold cell_data; rewrite length_mem_read; simpl; lia).
  unfold cell_data. rewrite mem_read_take_min. cbn. f_equal. lia.
Qed.

Lemma realloc_chain st p g rem l1 q b l2 :
  chain st p (l1 ++ (q, b) :: l2) →
  (∀ a, a ∈ l1.*1 → (a ∉ l2.*1) ∧ a ≠ q) ∧ (q ∉ l2.*1) ∧ q ≠ 0 ∧ st !! q = Some b ∧ chain st (p_next b) l2 ∧
  ∀ st', (∀ a, a ∈ l1.*1 → st' !! a = write_cells (grow g <$> l1) st !! a) →
    st' !! q = Some (with_next 0 (shrunk rem b)) → chain st' p (realloc_cells g rem l1 q b).
Proof.
  intros Hc. pose proof (chain_nodup _ _ _ Hc) as Hnd. rewrite fmap_app in Hnd. cbn in Hnd.
  apply NoDup_app in Hnd as (Hnd1 & Hdis & [Hq Hnd2]%NoDup_cons).
  assert (∀ a, a ∈ l1.*1 → (a ∉ l2.*1) ∧ a ≠ q) as Hd.
  { intros a Ha. specialize (Hdis a Ha). apply not_elem_of_cons in Hdis as [? ?]. done. }
  apply chain_links in Hc as [Hlk [Hst1 Hst2]%stored_app]. apply links_app in Hlk as (r & Hr & -> & Hq0 & Hlk2).
  apply stored_cons in Hst2 as [Hqb Hst2].
  split; [done|]. split; [done|]. split; [done|]. split; [done|]. split; [by apply chain_links|].
  intros st' Hst' Hq'. apply chain_links. split.
  - apply links_app. exists q. split; [by apply links_grow|]. by simpl.
  - apply stored_app. split; [|apply stored_cons; split; [done|by intros ? ? ?%elem_of_nil]].
    eapply stored_frame; [|apply (write_cells_stored (grow g <$> l1) st)]; rewrite fst_grow; done.
Qed.

(** The tail of a chain, if there is one, is released. *)
Lemma free_tail {B} s L p l (k : unit → M (pbufs_state A) B) :
  pbufs_ok s L → chain (pb_store s) p l → Forall (λ c, 0 < p_ref c.2) l →
  ∃ a', ((if negb (p =? 0) then pbuf_free p;; mret tt else mret tt) ≫= k) s =
          k tt (Pbufs (unref l (pb_store s)) (pb_data s) a') ∧
        pbufs_ok (Pbufs (unref l (pb_store s)) (pb_data s) a') (unlive l L).
Proof.
  intros Hs Hc Hr. destruct l as [|[a b] l].
  { simpl in Hc. subst p. exists (pb_alloc s). simpl. by destruct s. }
  destruct (pbuf_free_ok s L p _ Hs Hc ltac:(done) Hr) as (a' & E & Hok). exists a'. split; [|done].
  destruct Hc as (-> & Ha & _). rewrite (proj2 (Z.eqb_neq _ _) Ha). cbn [negb].
  rewrite !bind_unfold. by rewrite E.
Qed.

(** The part of [pbuf_realloc] that works on the new last buffer. *)
Lemma realloc_last s L q b l2 rem :
  pbufs_ok s L → pb_store s !! q = Some b → q ≠ 0 → q ∉ l2.*1 → chain (pb_store s) (p_next b) l2 →
  Forall (λ c, 0 < p_ref c.2) l2 → 0 ≤ rem ≤ p_len b →
  ∃ a' L1, let s' := Pbufs (<[q := with_next 0 (shrunk rem b)]> (unref l2 (<[q := shrunk rem b]> (pb_store s))))
                       (pb_data s) a' in
    (c ← get_pbuf q;
     q ← (if bool_decide (p_type c = PBUF_RAM) && negb (rem =? p_len c) then
            q ← on_alloc (ba_mem_trim q (u16 (u16 (p_payload c - q) + rem)));
            LWIP_ASSERT (negb (q =? 0));;
            mret q
          else mret q);
     set_pbuf q (with_len rem);;
     set_pbuf q (with_tot_len rem);;
     c ← get_pbuf q;
     (if negb (p_next c =? 0) then pbuf_free (p_next c);; mret tt else mret tt);;
     set_pbuf q (with_next 0)) s = Ok (tt, s') ∧ pbufs_ok s' (unlive l2 L1) ∧ ∀ x, x ≠ q → L1 !! x = L !! x.
Proof.
  intros Hs Hb Hq Hq2 Hc Hr Hrem. pose proof (pb_bufs _ _ Hs _ _ Hb) as Hbok.
  destruct (trim_step s L q b rem (pb_live _ _ Hs) Hbok Hq Hrem) as (a1 & L1 & E & Ha1 & Hb1 & HL1).
  set (s2 := Pbufs (<[q := shrunk rem b]> (pb_store s)) (pb_data s) a1).
  assert (pbufs_ok s2 L1) as Hs2.
  { split; [done|]. cbn [pb_store s2]. intros x c [[<- <-]|[Hne Hx]]%lookup_insert_Some; [done|].
    apply (buf_ok_frame L); [by apply HL1|]. by apply (pb_bufs _ _ Hs). }
  assert (pb_store s2 !! q = Some (shrunk rem b)) as Hq2' by apply lookup_insert_eq.
  assert (chain (pb_store s2) (p_next b) l2) as Hc' by (by apply chain_insert).
  destruct (free_tail s2 L1 (p_next b) l2 (λ _, set_pbuf q (with_next 0)) Hs2 Hc' Hr) as (a' & Ef & Hok).
  assert (unref l2 (pb_store s2) !! q = Some (shrunk rem b)) as Hqf by (by rewrite unref_frame).
  exists a', L1. cbv zeta. split; [|split; [|done]].
  - rewrite (get_pbuf_step _ _ _ _ Hb), (bind_ok _ _ _ _ _ E), (set_pbuf_step _ b) by done.
    rewrite (set_pbuf_step _ _ _ _ _ (lookup_insert_eq _ _ _)). cbn [pb_store pb_data pb_alloc].
    rewrite insert_insert_eq. change (Pbufs (<[q := _]> (pb_store s)) (pb_data s) a1) with s2.
    rewrite (get_pbuf_step _ _ _ _ Hq2'). change (p_next (shrunk rem b)) with (p_next b). rewrite Ef.
    unfold set_pbuf. by rewrite (get_pbuf_step q (shrunk rem b) _ (Pbufs (unref l2 (pb_store s2)) (pb_data s2) a') Hqf).
  - refine (pbufs_ok_insert (Pbufs (unref l2 (pb_store s2)) (pb_data s2) a') _ q (shrunk rem b) _ _ Hok Hqf _).
    eapply buf_ok_same, (pb_bufs _ _ Hok _ _ Hqf); [done|]. apply Hb1.
Qed.

(** How the store, the memory in use and the chain change when [l] is cut. *)
Inductive cut_at (st : store) (L : gmap Z place) (l : list cell) : store → gmap Z place → list cell → Prop :=
  | cut_none : cut_at st L l st L l
  | cut_some g rem l1 q b l2 L1 :
      l = l1 ++ (q, b) :: l2 → (∀ x, x ≠ q → L1 !! x = L !! x) →
      cut_at st L l (<[q := with_next 0 (shrunk rem b)]> (unref l2 (<[q := shrunk rem b]> (write_cells (grow g <$> l1) st))))
        (unlive l2 L1) (realloc_cells g rem l1 q b).

Lemma pbuf_realloc_ok s L p l n :
  pbufs_ok s L → packet (pb_store s) p l → Forall (λ c, 0 < p_ref c.2) l → is_u16 n →
  ∃ s' L' l', pbuf_realloc p n s = Ok (tt, s') ∧ pbufs_ok s' L' ∧ packet (pb_store s') p l' ∧
    pb_data s' = pb_data s ∧ contents (pb_data s) l' = take (Z.to_nat n) (contents (pb_data s) l) ∧
    (∀ a, a ∉ l.*1 → pb_store s' !! a = pb_store s !! a) ∧ cut_at (pb_store s) L l (pb_store s') L' l'.
Proof.
  intros Hs [Hc Hl Hu Hne] Hr Hn.
  assert (∃ bp, pb_store s !! p = Some bp ∧ p_tot_len bp = total_len l ∧ p ≠ 0) as (bp & Hbp & Etot & Hp).
  { destruct l as [|[a b] l]; [done|]. destruct Hc as (-> & ? & ? & _). exists b. split; [done|]. by destruct Hl as (_ & ? & _). }
  unfold pbuf_realloc. rewrite assert_true by (by rewrite (proj2 (Z.eqb_neq _ _) Hp)).
  rewrite (get_pbuf_step _ _ _ _ Hbp), Etot. destruct (Z.leb_spec (total_len l) n) as [Hbig|Hsmall].
  { exists s, L, l. do 4 (split; [done|]). split; [|split; [done|constructor]].
    rewrite take_ge; [done|]. pose proof (length_contents (pb_data s) _ Hl). lia. }
  destruct (cut_ok n l Hl ltac:(split; [apply Hn|done])) as (l1 & q & b & l2 & Hcut & -> & Hrem).
  rewrite gets_bind. pose proof (chain_size _ _ _ Hc) as Hsz.
  set (g := n - total_len (l1 ++ (q, b) :: l2)) in *. set (rem := n - total_len l1) in *.
  assert (length (l1 ++ (q, b) :: l2) < pbuf_fuel s)%nat as Hf by (unfold pbuf_fuel; lia).
  rewrite (bind_ok _ _ _ _ _ (realloc_skip_ok _ _ _ _ _ _ p n g s Hc Hl Hcut Hf ltac:(exact Hn) ltac:(lia))). fold rem.
  destruct (realloc_chain _ _ g rem _ _ _ _ Hc) as (Hd & Hq2 & Hq0 & Hqb & Hc2 & Hfin).
  apply Forall_app in Hr as [_ [_ Hr]%Forall_cons]. set (st1 := write_cells (grow g <$> l1) (pb_store s)) in *.
  assert (∀ a, a ∉ l1.*1 → st1 !! a = pb_store s !! a) as Hst1
    by (intros a Ha; unfold st1; apply write_cells_frame; by rewrite fst_grow).
  assert (q ∉ l1.*1) as Hq1 by (intros Hin; by destruct (Hd q Hin)).
  assert (∀ a, a ∈ l2.*1 → a ∉ l1.*1) as Hd21 by (intros a Ha Hin; by destruct (Hd a Hin)).
  destruct (realloc_last (Pbufs st1 (pb_data s) (pb_alloc s)) L q b l2 rem) as (a' & L1 & E & Hok & HL1);
    cbn [pb_store pb_data pb_alloc] in *; try done.
  - apply pbufs_ok_cells with l1; [done| |apply same_bufs_grow|apply Forall_fmap, Forall_true; intros; apply u16_range].
    by apply chain_links in Hc as [_ [? _]%stored_app].
  - by rewrite Hst1.
  - apply (chain_frame (pb_store s)); [|done]. intros a Ha. apply Hst1. by apply Hd21.
  - destruct (realloc_lens g n l1 q b l2 Hl Hrem Hu eq_refl) as [Hl' Ht']. fold rem in Hl', Ht'.
    eexists _, (unlive l2 L1), (realloc_cells g rem l1 q b). split; [exact E|]. split; [exact Hok|]. cbn [pb_store pb_data].
    split; [split; [|done|rewrite Ht'; apply Hn|by destruct l1]|split; [done|split; [by apply realloc_contents|split; [|by constructor]]]].
    + apply Hfin; [|apply lookup_insert_eq]. intros a Ha. destruct (Hd a Ha). rewrite lookup_insert_ne by congruence.
      rewrite unref_frame by done. by rewrite lookup_insert_ne by congruence.
    + intros a Ha. rewrite fmap_app in Ha. apply not_elem_of_app in Ha as [Ha1 [Haq Ha2]%not_elem_of_cons].
      rewrite lookup_insert_ne, unref_frame, lookup_insert_ne by (done || congruence). by apply Hst1.
Qed.
End Make.
