(* ===== verification/PbufAlloc.v ===== *)
(** * The memory behind packet buffers

    The heap and the pools together, as the stack uses them, are a [BufAlloc]
    that keeps the promises of [BufAllocLaws]. *)

From S2P Require Import Prelude LwipBase Heap HeapInv HeapFree HeapTrim HeapClaims Memp Pbuf PbufChain.
From Stdlib Require Import ZArith Lia.
From stdpp Require Import base numbers list gmap.
Open Scope Z_scope.

Record allocators := Alloc { al_heap : heap; al_memp : memp_state }.

Definition on_heap {B} (m : M heap B) : M allocators B := lift al_heap (λ h a, Alloc h (al_memp a)) m.
Definition on_memp {B} (m : M memp_state B) : M allocators B := lift al_memp (λ p a, Alloc (al_heap a) p) m.

#[export] Instance lwip_alloc : BufAlloc allocators := {|
  ba_mem_malloc n := on_heap (mem_malloc n);
  ba_mem_free p := on_heap (mem_free p);
  ba_mem_trim p n := on_heap (mem_trim p n);
  ba_memp_malloc t := on_memp (memp_malloc t);
  ba_memp_free t p := on_memp (memp_free t p) |}.

(** ** Where the pools lie *)

Fixpoint pools_span (n : nat) (i : nat) : Z :=
  match n with
  | O => 0
  | S n => Z.of_nat (Z.to_nat (memp_num).[i]) * (memp_sizes).[i] + pools_span n (S i)
  end.
Definition MEMP_LEN : Z := pools_span 9 0.

Lemma pools_span_nonneg n i : (i + n = 9)%nat → 0 ≤ pools_span n i.
Proof.
  revert i. induction n as [|n IH]; intros i Hi; simpl; [lia|]. destruct (memp_size_ok i) as (? & _ & ?); [lia|].
  specialize (IH (S i) ltac:(lia)). nia.
Qed.
Lemma layout_span n i memp j k a :
  (i + n = 9)%nat → layout n (Z.of_nat i) memp !! j = Some k → a ∈ k →
  memp ≤ a ∧ a + (memp_sizes).[(i + j)%nat] ≤ memp + pools_span n i.
Proof.
  revert i memp j. induction n as [|n IH]; intros i memp j Hi Hk Ha; [by destruct j|].
  destruct (memp_size_ok i) as (Hs & _ & Hn); [lia|]. cbn [layout pools_span] in *. rewrite Nat2Z.id in Hk.
  pose proof (pools_span_nonneg n (S i) ltac:(lia)) as Hsp.
  destruct j as [|j]; simpl in Hk.
  - injection Hk as <-. apply elem_elements in Ha as (m & Hm & ->). rewrite Nat.add_0_r. nia.
  - replace (Z.of_nat i + 1) with (Z.of_nat (S i)) in Hk by lia.
    apply (IH (S i) _ _ ltac:(lia) Hk) in Ha. replace (i + S j)%nat with (S i + j)%nat by lia. nia.
Qed.

(** ** What is handed out *)

Definition heap_part (k : place) : option Z := match k with InHeap n => Some n | InPool _ => None end.
Definition pool_part (k : place) : option Z := match k with InHeap _ => None | InPool t => Some t end.

Record alloc_live (a : allocators) (L : gmap Z place) : Prop := {
  al_inv : ∃ bs, heap_inv (al_heap a) bs ∧ tracks (ram_addr (al_heap a)) bs (omap heap_part L);
  al_pools : ∃ memory, 0 < memory ∧ memory + 3 + MEMP_LEN < 2 ^ 32 ∧
     (memory + 3 + MEMP_LEN ≤ ram_addr (al_heap a) ∨ ram_addr (al_heap a) + RAM_LEN ≤ memory) ∧
     memp_inv (memp_elements memory) (al_memp a) (omap pool_part L);
  al_sizes p n : L !! p = Some (InHeap n) → 12 ≤ n < 2 ^ 16 ∧ (4 | n);
  al_types p t : L !! p = Some (InPool t) → 0 ≤ t < MEMP_MAX }.

Lemma pool_element a L p t :
  alloc_live a L → L !! p = Some (InPool t) →
  ∃ memory k, 0 < memory ∧ memory + 3 + MEMP_LEN < 2 ^ 32 ∧
    (memory + 3 + MEMP_LEN ≤ ram_addr (al_heap a) ∨ ram_addr (al_heap a) + RAM_LEN ≤ memory) ∧
    memp_inv (memp_elements memory) (al_memp a) (omap pool_part L) ∧
    memp_elements memory !! Z.to_nat t = Some k ∧ p ∈ k ∧
    (4 | p) ∧ memory ≤ p ∧ p + (memp_sizes).[Z.to_nat t] ≤ memory + 3 + MEMP_LEN.
Proof.
  intros Ha Hp. destruct (al_pools _ _ Ha) as (memory & Hm & Hb & Hdis & Hinv). exists memory.
  pose proof (al_types _ _ Ha _ _ Hp) as Ht. change MEMP_MAX with 9 in Ht.
  assert (0 ≤ MEMP_LEN) as Hlen by (apply pools_span_nonneg; lia).
  destruct (memp_init_ok memory) as [Hok _]; [done|lia|].
  destruct (pool_lookup _ _ _ t Hok Hinv Ht) as (k & st & l & Hk & _ & Hl). exists k.
  assert (p ∈ k) as Hpk.
  { apply (pi_parts _ _ _ _ _ _ _ Hl). right. rewrite Z2Nat.id by lia. rewrite lookup_omap, Hp. done. }
  destruct (po_elem _ Hok _ _ _ Hk Hpk) as [_ Hd]. destruct (layout_span 9 0 _ _ _ _ eq_refl Hk Hpk) as [H1 H2].
  pose proof (align_size_bounds memory) as Hal.
  assert (LWIP_MEM_ALIGN memory = LWIP_MEM_ALIGN_SIZE memory) as El.
  { unfold LWIP_MEM_ALIGN. fold (LWIP_MEM_ALIGN_SIZE memory). apply u32_small. cint. }
  rewrite El in *. change (0 + Z.to_nat t)%nat with (Z.to_nat t) in H2. fold MEMP_LEN in H2.
  repeat (split; [done|]). split; lia.
Qed.

Lemma memp_size_bounds t : 0 ≤ t < MEMP_MAX → 12 ≤ (memp_sizes).[Z.to_nat t] < 2 ^ 16 ∧ (4 | (memp_sizes).[Z.to_nat t]).
Proof.
  intros Ht. change MEMP_MAX with 9 in Ht. split; [|by apply memp_size_ok; lia].
  assert (∀ i, (i < 9)%nat → 12 ≤ (memp_sizes).[i] < 2 ^ 16) as Hall.
  { intros i Hi. do 9 (destruct i as [|i]; [by vm_compute|]). lia. }
  apply Hall. lia.
Qed.

Lemma heap_element a L p n :
  alloc_live a L → L !! p = Some (InHeap n) →
  (4 | p) ∧ ram_addr (al_heap a) + 8 ≤ p ∧ p + n ≤ ram_addr (al_heap a) + MEM_SIZE_ALIGNED ∧
  0 < ram_addr (al_heap a) ∧ ram_addr (al_heap a) + RAM_LEN ≤ 2 ^ 32.
Proof.
  intros Ha Hp. destruct (al_inv _ _ Ha) as (bs & Hi & Ht).
  destruct (held_block _ _ _ p n Hi Ht) as (H1 & H2 & H3); [by rewrite lookup_omap, Hp|].
  destruct (inv_addr _ _ Hi) as (_ & ? & ?). done.
Qed.

Lemma alloc_live_wf a L p k :
  alloc_live a L → L !! p = Some k →
  0 < p ∧ (4 | p) ∧ p + place_size k < 2 ^ 32 ∧ 12 ≤ place_size k < 2 ^ 16 ∧ (4 | place_size k).
Proof.
  intros Ha Hp. destruct k as [n|t]; cbn [place_size].
  - destruct (heap_element _ _ _ _ Ha Hp) as (H1 & H2 & H3 & H4 & H5). destruct (al_sizes _ _ Ha _ _ Hp).
    change MEM_SIZE_ALIGNED with 32404 in H3. change RAM_LEN with 32420 in H5. split; [lia|]. split; [done|]. split; [lia|done].
  - destruct (pool_element _ _ _ _ Ha Hp) as (memory & kk & Hm & Hb & _ & _ & _ & _ & Hd & H1 & H2).
    destruct (memp_size_bounds t (al_types _ _ Ha _ _ Hp)). split; [lia|]. split; [done|]. split; [lia|done].
Qed.

Lemma alloc_live_apart a L p k q j :
  alloc_live a L → L !! p = Some k → L !! q = Some j → p ≠ q → p + place_size k ≤ q ∨ q + place_size j ≤ p.
Proof.
  intros Ha Hp Hq Hne. destruct k as [n|t], j as [m|u]; cbn [place_size].
  - destruct (al_inv _ _ Ha) as (bs & Hi & Ht). eapply (held_apart _ _ _ _ _ _ _ Hi Ht); rewrite ?lookup_omap, ?Hp, ?Hq; done.
  - destruct (heap_element _ _ _ _ Ha Hp) as (_ & H2 & H3 & _).
    destruct (pool_element _ _ _ _ Ha Hq) as (memory & kk & _ & _ & Hdis & _ & _ & _ & _ & H5 & H6).
    change MEM_SIZE_ALIGNED with 32404 in H3. change RAM_LEN with 32420 in Hdis. lia.
  - destruct (heap_element _ _ _ _ Ha Hq) as (_ & H2 & H3 & _).
    destruct (pool_element _ _ _ _ Ha Hp) as (memory & kk & _ & _ & Hdis & _ & _ & _ & _ & H5 & H6).
    change MEM_SIZE_ALIGNED with 32404 in H3. change RAM_LEN with 32420 in Hdis. lia.
  - destruct (pool_element _ _ _ _ Ha Hp) as (memory & kk & Hm & Hb & _ & Hinv & Hk & Hpk & _).
    pose proof (al_types _ _ Ha _ _ Hq) as Hu. change MEMP_MAX with 9 in Hu.
    assert (0 ≤ MEMP_LEN) as Hlen by (apply pools_span_nonneg; lia).
    destruct (memp_init_ok memory) as [Hok _]; [done|lia|].
    destruct (pool_lookup _ _ _ u Hok Hinv Hu) as (kq & st & l & Hkq & _ & Hl).
    assert (q ∈ kq) as Hqk.
    { apply (pi_parts _ _ _ _ _ _ _ Hl). right. rewrite Z2Nat.id by lia. by rewrite lookup_omap, Hq. }
    apply (layout_disjoint 9 0 _ _ _ _ _ _ _ eq_refl Hk Hkq Hpk Hqk Hne).
Qed.

(** ** The promises *)

Lemma omap_heap_pool (L : gmap Z place) p t : L !! p = None → omap heap_part (<[p := InPool t]> L) = omap heap_part L.
Proof. intros Hp. rewrite omap_insert. simpl. apply delete_id. by rewrite lookup_omap, Hp. Qed.
Lemma omap_pool_heap (L : gmap Z place) p n : (∀ t, L !! p ≠ Some (InPool t)) → omap pool_part (<[p := InHeap n]> L) = omap pool_part L.
Proof.
  intros Hp. rewrite omap_insert. simpl. apply delete_id. rewrite lookup_omap.
  destruct (L !! p) as [[m|t]|] eqn:E; [done|by destruct (Hp t)|done].
Qed.

Lemma live_malloc a L n :
  alloc_live a L → is_u16 n → ∃ p a', on_heap (mem_malloc n) a = Ok (p, a') ∧
    ((p = 0 ∧ alloc_live a' L) ∨ (L !! p = None ∧ alloc_live a' (<[p := InHeap (request_size n)]> L))).
Proof.
  intros Ha Hn. pose proof Ha as [(bs & Hi & Ht) Hpools Hsizes Htypes].
  destruct (malloc_call _ _ _ Hi Ht n Hn) as (p & h' & bs' & E & Hi' & live' & Ht' & [Eaddr _] & Hp).
  exists p, (Alloc h' (al_memp a)). split; [unfold on_heap, lift; by rewrite E|].
  destruct Hp as [[-> ->]|(Hp & Hnone & ->)].
  - left. split; [done|]. split; cbn [al_heap al_memp]; [by exists bs'|by rewrite Eaddr|done|done].
  - right. destruct (request_size_spec n Hn) as (Hr1 & Hr2 & _).
    destruct (held_block _ _ _ p (request_size n) Hi' Ht' (lookup_insert_eq _ _ _)) as (_ & H2 & H3).
    assert (L !! p = None) as Ep.
    { destruct (L !! p) as [[m|t]|] eqn:Ep; [by rewrite lookup_omap, Ep in Hnone| |done].
      destruct (pool_element _ _ _ _ Ha Ep) as (memory & kk & _ & _ & Hdis & _ & _ & _ & _ & H5 & H6).
      destruct (memp_size_bounds t (Htypes _ _ Ep)) as [? _].
      change MEM_SIZE_ALIGNED with 32404 in H3. change RAM_LEN with 32420 in Hdis. lia. }
    split; [done|]. split; cbn [al_heap al_memp].
    + exists bs'. split; [done|]. by rewrite omap_insert.
    + rewrite Eaddr, omap_pool_heap; [done|]. intros t. by rewrite Ep.
    + intros x m [[<- [= <-]]|[_ Hx]]%lookup_insert_Some; [by split|by apply (Hsizes x)].
    + intros x t [[<- [=]]|[_ Hx]]%lookup_insert_Some. by apply (Htypes x).
Qed.

Lemma live_free a L p n :
  alloc_live a L → L !! p = Some (InHeap n) → ∃ a', on_heap (mem_free p) a = Ok (tt, a') ∧ alloc_live a' (delete p L).
Proof.
  intros [(bs & Hi & Ht) Hpools Hsizes Htypes] Hp.
  destruct (free_call _ _ _ Hi Ht p n) as (h' & bs' & E & Hi' & Ht' & [Eaddr _]); [by rewrite lookup_omap, Hp|].
  exists (Alloc h' (al_memp a)). split; [unfold on_heap, lift; by rewrite E|]. split; cbn [al_heap al_memp].
  - exists bs'. by rewrite omap_delete.
  - rewrite Eaddr, omap_delete, delete_id; [done|]. by rewrite lookup_omap, Hp.
  - intros x m [_ Hx]%lookup_delete_Some. by apply (Hsizes x).
  - intros x t [_ Hx]%lookup_delete_Some. by apply (Htypes x).
Qed.

Lemma live_trim a L p n newsize :
  alloc_live a L → L !! p = Some (InHeap n) → is_u16 newsize → request_size newsize ≤ n →
  ∃ a', on_heap (mem_trim p newsize) a = Ok (p, a') ∧ alloc_live a' (<[p := InHeap (request_size newsize)]> L).
Proof.
  intros [(bs & Hi & Ht) Hpools Hsizes Htypes] Hp Hu Hle.
  destruct (trim_call _ _ _ Hi Ht p n newsize) as (h' & bs' & E & Hi' & Ht' & [Eaddr _]);
    [by rewrite lookup_omap, Hp|done|done|].
  exists (Alloc h' (al_memp a)). split; [unfold on_heap, lift; by rewrite E|]. split; cbn [al_heap al_memp].
  - exists bs'. by rewrite omap_insert.
  - rewrite Eaddr, omap_pool_heap; [done|]. intros t. by rewrite Hp.
  - destruct (request_size_spec newsize Hu) as (Hr1 & Hr2 & _).
    intros x m [[<- [= <-]]|[_ Hx]]%lookup_insert_Some; [by split|by apply (Hsizes x)].
  - intros x t [[<- [=]]|[_ Hx]]%lookup_insert_Some. by apply (Htypes x).
Qed.

Lemma live_memp_malloc a L t :
  alloc_live a L → 0 ≤ t < MEMP_MAX → ∃ p a', on_memp (memp_malloc t) a = Ok (p, a') ∧
    ((p = 0 ∧ alloc_live a' L) ∨ (L !! p = None ∧ alloc_live a' (<[p := InPool t]> L))).
Proof.
  intros Ha Ht. pose proof Ha as [Hheap (memory & Hm & Hb & Hdis & Hinv) Hsizes Htypes].
  assert (0 ≤ MEMP_LEN) as Hlen by (apply pools_span_nonneg; lia).
  destruct (memp_init_ok memory) as [Hok _]; [done|lia|].
  destruct (pool_lookup _ _ _ t Hok Hinv Ht) as (k & _ & _ & Hk & _).
  destruct (memp_malloc_ok _ _ _ _ _ Hok Hinv Ht Hk) as (p & m' & E & Hp).
  exists p, (Alloc (al_heap a) m'). split; [unfold on_memp, lift; by rewrite E|].
  destruct Hp as [(-> & Hinv' & _)|(Hp & Hpk & Hnone & Hinv')].
  { left. split; [done|]. split; cbn [al_heap al_memp]; [done|by exists memory|done|done]. }
  right. assert (L !! p = None) as Ep.
  { destruct (L !! p) as [[n|u]|] eqn:Ep; [|by rewrite lookup_omap, Ep in Hnone|done].
    destruct (heap_element _ _ _ _ Ha Ep) as (_ & H2 & H3 & _). destruct (Hsizes _ _ Ep) as [? _].
    destruct (layout_span 9 0 _ _ _ _ eq_refl Hk Hpk) as [H5 H6]. fold MEMP_LEN in H6.
    pose proof (align_size_bounds memory) as Hal.
    assert (LWIP_MEM_ALIGN memory = LWIP_MEM_ALIGN_SIZE memory) as El.
    { unfold LWIP_MEM_ALIGN. fold (LWIP_MEM_ALIGN_SIZE memory). apply u32_small. cint. }
    destruct (memp_size_bounds t Ht) as [? _]. rewrite El in *. change (0 + Z.to_nat t)%nat with (Z.to_nat t) in H6.
    change MEM_SIZE_ALIGNED with 32404 in H3. change RAM_LEN with 32420 in Hdis. lia. }
  split; [done|]. split; cbn [al_heap al_memp].
  - by rewrite omap_heap_pool.
  - exists memory. repeat (split; [done|]). by rewrite omap_insert.
  - intros x n [[<- [=]]|[_ Hx]]%lookup_insert_Some. by apply (Hsizes x).
  - intros x u [[<- [= <-]]|[_ Hx]]%lookup_insert_Some; [done|by apply (Htypes x)].
Qed.

Lemma live_memp_free a L p t :
  alloc_live a L → 0 ≤ t < MEMP_MAX → L !! p = Some (InPool t) →
  ∃ a', on_memp (memp_free t p) a = Ok (tt, a') ∧ alloc_live a' (delete p L).
Proof.
  intros Ha Ht Hp. pose proof Ha as [(bs & Hi & Htr) (memory & Hm & Hb & Hdis & Hinv) Hsizes Htypes].
  assert (0 ≤ MEMP_LEN) as Hlen by (apply pools_span_nonneg; lia).
  destruct (memp_init_ok memory) as [Hok _]; [done|lia|].
  destruct (memp_free_ok _ _ _ p t Hok Hinv Ht) as (m' & E & Hinv'); [by rewrite lookup_omap, Hp|].
  exists (Alloc (al_heap a) m'). split; [unfold on_memp, lift; by rewrite E|]. split; cbn [al_heap al_memp].
  - exists bs. split; [done|]. rewrite omap_delete, delete_id; [done|]. by rewrite lookup_omap, Hp.
  - exists memory. repeat (split; [done|]). by rewrite omap_delete.
  - intros x n [_ Hx]%lookup_delete_Some. by apply (Hsizes x).
  - intros x u [_ Hx]%lookup_delete_Some. by apply (Htypes x).
Qed.

#[export] Instance lwip_alloc_laws : BufAllocLaws allocators := {|
  live := alloc_live;
  live_wf := alloc_live_wf;
  live_apart := alloc_live_apart;
  mem_malloc_law := live_malloc;
  mem_free_law := live_free;
  mem_trim_law := live_trim;
  memp_malloc_law := live_memp_malloc;
  memp_free_law := live_memp_free |}.

(** The allocators after start-up, with the arrays where they may lie. *)
Definition boot_alloc : allocators := Alloc boot_heap (memp_init 0x10000001).
Definition boot_pbufs : pbufs_state allocators := Pbufs ∅ (λ _, 0) boot_alloc.

Lemma boot_alloc_live : alloc_live boot_alloc ∅.
Proof.
  split; cbn [boot_alloc al_heap al_memp].
  - exists [(MEM_SIZE_ALIGNED, false)]. split; [apply boot_inv|]. rewrite omap_empty.
    split; [by intros a s ?%lookup_empty_Some|by intros q n ?%elem_of_nil].
  - exists 0x10000001. split; [done|]. split; [by vm_compute|]. split; [left; by vm_compute|].
    rewrite omap_empty. by apply memp_init_ok.
  - by intros p n ?%lookup_empty_Some.
  - by intros p n ?%lookup_empty_Some.
Qed.
Lemma boot_pbufs_ok : pbufs_ok boot_pbufs ∅.
Proof.
  split; [apply boot_alloc_live|]. intros p b Hb.
  change ((∅ : gmap Z pbuf) !! p = Some b) in Hb. by rewrite lookup_empty in Hb.
Qed.
