(* ===== verification/PbufClaims.v ===== *)
(** * What packet buffers promise

    The theorems hold for every allocator that keeps the promises of
    [BufAllocLaws]; the witnesses run on the heap and the pools of the stack,
    with two packets of 84 octets in the heap. *)

From S2P Require Import Prelude LwipBase Heap HeapInv HeapClaims Memp Pbuf PbufChain PbufLinks PbufData PbufMake PbufAlloc.
From Stdlib Require Import ZArith Lia.
From stdpp Require Import base numbers list gmap.
Open Scope Z_scope.

(** ** Two packets *)

Definition demo_p : Z := 0x2007C00C.
Definition demo_q : Z := 0x2007C078.
Definition demo_alloc1 : allocators :=
  match on_heap (mem_malloc 100) boot_alloc with Ok (_, a) => a | _ => boot_alloc end.
Definition demo_alloc : allocators :=
  match on_heap (mem_malloc 100) demo_alloc1 with Ok (_, a) => a | _ => boot_alloc end.
Definition demo_live : gmap Z place := {[demo_q := InHeap 100; demo_p := InHeap 100]}.
Definition demo_buf (p n : Z) : pbuf := Pbuf 0 (p + 16) n n PBUF_RAM 0 1.
Definition demo : pbufs_state allocators :=
  Pbufs {[demo_q := demo_buf demo_q 4; demo_p := demo_buf demo_p 84]} (λ x, x mod 251) demo_alloc.

Lemma Ok_pair {A B} (a c : A) (b d : B) : Ok (a, b) = Ok (c, d) → a = c ∧ b = d.
Proof. intros E. by injection E. Qed.

Lemma demo_alloc_live : alloc_live demo_alloc demo_live.
Proof.
  destruct (live_malloc boot_alloc ∅ 100 boot_alloc_live ltac:(by split)) as (p & a & E & Hp).
  assert (on_heap (mem_malloc 100) boot_alloc = Ok (demo_p, demo_alloc1)) as E1
    by vm_cast_no_check (eq_refl (@Ok (Z * allocators) (demo_p, demo_alloc1))).
  rewrite E1 in E. apply Ok_pair in E as [<- <-]. destruct Hp as [[Hp0 _]|[_ Hp]]; [discriminate Hp0|].
  destruct (live_malloc _ _ 100 Hp ltac:(by split)) as (q & a' & E & Hq).
  assert (on_heap (mem_malloc 100) demo_alloc1 = Ok (demo_q, demo_alloc)) as E2
    by vm_cast_no_check (eq_refl (@Ok (Z * allocators) (demo_q, demo_alloc))).
  rewrite E2 in E. apply Ok_pair in E as [<- <-]. destruct Hq as [[Hq0 _]|[_ Hq]]; [discriminate Hq0|exact Hq].
Qed.

Lemma demo_ok : pbufs_ok demo demo_live.
Proof.
  split; [apply demo_alloc_live|]. cbn [demo pb_store].
  intros p b [[<- <-]|[_ [<- <-]%lookup_singleton_Some]]%lookup_insert_Some.
  - do 3 (split; [by split|]). exists 100. by split; [|split].
  - do 3 (split; [by split|]). exists 100. by split; [|split].
Qed.

Lemma demo_packet_p : packet (pb_store demo) demo_p [(demo_p, demo_buf demo_p 84)].
Proof. by split; [| |by vm_compute|]. Qed.
Lemma demo_packet_q : packet (pb_store demo) demo_q [(demo_q, demo_buf demo_q 4)].
Proof. by split; [| |by vm_compute|]. Qed.

(** ** Claims *)

Section Claims.
Context {A : Type} `{BufAllocLaws A}.
Implicit Types (s : pbufs_state A).

(** [pbuf_alloc] is all or nothing.  It returns for every layer, length
    and type: either NULL, with no buffer more or less than before (a chain
    of pool buffers that could not be completed has been given back), or a
    packet of new buffers whose lengths add up to the request, whose
    [tot_len] fields are consistent, each with one reference and with its
    octets inside its own memory, and with room for the headers of the layer;
    only the pool gives more than one buffer.
    A request for [PBUF_RAM] must not exceed what 16 bits can count. *)
Theorem pbuf_alloc_all_or_nothing s L layer length type :
  pbufs_ok s L → is_u16 length →
  (type = PBUF_RAM →
   LWIP_MEM_ALIGN_SIZE (SIZEOF_STRUCT_PBUF + header_offset layer) + LWIP_MEM_ALIGN_SIZE length ≤ 65532) →
  ∃ p s', pbuf_alloc layer length type s = Ok (p, s') ∧
    ((p = 0 ∧ pb_store s' = pb_store s ∧ pb_data s' = pb_data s ∧ pbufs_ok s' L) ∨
     ∃ L' b l, extends s L s' L' ((p, b) :: l) ∧ packet (pb_store s') p ((p, b) :: l) ∧
       total_len ((p, b) :: l) = length ∧ Forall (new_cell type) ((p, b) :: l) ∧
       match type with
       | PBUF_RAM | PBUF_POOL => p + SIZEOF_STRUCT_PBUF + header_offset layer ≤ p_payload b ∧ (4 | p_payload b)
       | PBUF_ROM | PBUF_REF => p_payload b = 0
       end ∧ (type ≠ PBUF_POOL → l = [])).
Proof. intros Hs Hl Hf. exact (pbuf_alloc_ok s L layer length type Hs Hl Hf). Qed.

(** [pbuf_free] follows the reference counts.  Of a chain it frees the
    leading buffers that nobody else refers to, takes one reference from the
    first that somebody does, and leaves the rest alone; it returns how many
    it freed, modulo 256.  The freed buffers, and no others, are handed back
    to the allocator they came from. *)
Theorem pbuf_free_follows_references s L p l :
  pbufs_ok s L → chain (pb_store s) p l → l ≠ [] → Forall (λ c, 0 < p_ref c.2) l →
  ∃ s' L' q, pbuf_free p s = Ok (u8 (Z.of_nat (length (freed l))), s') ∧ pbufs_ok s' L' ∧
    chain (pb_store s') q (kept l) ∧
    (∀ a, a ∈ (freed l).*1 → pb_store s' !! a = None) ∧
    (∀ a, a ∉ l.*1 → pb_store s' !! a = pb_store s !! a) ∧
    (∀ a, L' !! a = if decide (a ∈ (freed l).*1) then None else L !! a).
Proof.
  intros Hs Hc Hne Hr. destruct (pbuf_free_ok s L p l Hs Hc Hne Hr) as (a' & E & Hok).
  destruct (unref_chain _ _ _ Hc) as (q & Hq & Hf). eexists _, _, q. split; [exact E|]. split; [exact Hok|].
  split; [done|]. split; [done|]. split; [intros a Ha; by apply unref_frame|]. intros a. apply unlive_lookup.
Qed.

(** [pbuf_cat] concatenates.  The two chains become one packet that
    starts at the head; its contents are those of the head followed by those
    of the tail; the buffers keep their octets, their memory and their
    references, and the total lengths of the head are brought up to date. *)
Theorem pbuf_cat_concatenates s L h t l k :
  pbufs_ok s L → packet (pb_store s) h l → packet (pb_store s) t k → l.*1 ## k.*1 →
  total_len l + total_len k < 2 ^ 16 →
  ∃ s' l', pbuf_cat h t s = Ok (tt, s') ∧ pbufs_ok s' L ∧ packet (pb_store s') h (l' ++ k) ∧ same_bufs l l' ∧
    contents (pb_data s') (l' ++ k) = contents (pb_data s) l ++ contents (pb_data s) k.
Proof.
  intros Hs Hl Hk Hd Hu. destruct (pbuf_cat_ok s L h t l k Hs Hl Hk Hd Hu) as (l' & Hsame & E & Hpk & Hok).
  eexists _, l'. split; [exact E|]. split; [exact Hok|]. split; [exact Hpk|]. split; [done|].
  rewrite contents_app. cbn [pb_data]. by rewrite (same_bufs_contents _ _ _ Hsame).
Qed.

(** [pbuf_dechain] undoes [pbuf_chain].  Chaining a packet behind a single
    buffer and taking the buffer off again returns the packet and restores
    every buffer, reference counts included. *)
Theorem pbuf_dechain_undoes_chain s h b t c k :
  packet (pb_store s) h [(h, b)] → packet (pb_store s) t ((t, c) :: k) → h ∉ t :: k.*1 →
  p_len b + p_tot_len c < 2 ^ 16 → 1 ≤ p_ref c < 2 ^ 16 - 1 →
  (pbuf_chain h t;; pbuf_dechain h) s = Ok (t, s).
Proof.
  intros [(_ & Hh & Hb & Hn) (Hb0 & Et & _) _ _] Hk Hd Hu Hr. simpl in Et.
  apply (chain_dechain s h b t c k); try done. lia.
Qed.

(** [pbuf_header] moves the start of the payload or does nothing.  It
    succeeds exactly when octets are hidden, or when the buffer holds its own
    octets and the new start stays behind the structure; then payload and
    lengths move together and the end of the payload stays.  When it fails
    nothing has changed.  Hiding more octets than the buffer has stops the
    program, although the code goes on to return 1. *)
Theorem pbuf_header_outcome s L p b inc :
  pbufs_ok s L → pb_store s !! p = Some b → p ≠ 0 → - 2 ^ 15 ≤ inc < 2 ^ 15 →
  p_len b ≤ p_tot_len b → p_tot_len b + inc < 2 ^ 16 →
  pbuf_header p inc s =
    (if decide (p_len b < - inc) then Spin
     else if decide (has_room inc p b)
     then Ok (0, Pbufs (<[p := moved inc b]> (pb_store s)) (pb_data s) (pb_alloc s)) else Ok (1, s)) ∧
  (- inc ≤ p_len b → has_room inc p b →
   pbufs_ok (Pbufs (<[p := moved inc b]> (pb_store s)) (pb_data s) (pb_alloc s)) L ∧
   p_payload (moved inc b) + p_len (moved inc b) = p_payload b + p_len b).
Proof.
  intros Hs Hb Hp Hi Hlt Hu. pose proof (pb_bufs _ _ Hs _ _ Hb) as (Hlen & Htot & _). unfold is_u16 in Hlen, Htot.
  destruct (decide (p_len b < - inc)) as [Hbad|Hok].
  - split; [|lia]. unfold pbuf_header. rewrite assert_true by (by rewrite (proj2 (Z.eqb_neq _ _) Hp)).
    rewrite (proj2 (Z.eqb_neq _ _) Hp), orb_false_r, (proj2 (Z.eqb_neq inc 0)) by lia.
    rewrite (get_pbuf_step _ _ _ _ Hb), (proj2 (Z.ltb_lt inc 0)), u16_small by (cint || lia).
    by rewrite (proj2 (Z.leb_gt _ _)) by lia.
  - pose proof (pbuf_header_ok s L p b inc Hs Hb Hp Hi ltac:(lia) ltac:(unfold is_u16; lia) ltac:(unfold is_u16; lia)) as R.
    destruct (decide (has_room inc p b)) as [Hr|Hr]; [|split; [done|by intros _ ?]].
    destruct R as [R1 R2]. split; [done|]. intros _ _. split; [done|]. cbn. lia.
Qed.

(** What [pbuf_take] puts into a packet [pbuf_copy_partial] gets out of it.
    However the packet is split into buffers: after [n] octets at [d] have
    been taken, any part of them can be copied out to another place, and the
    octets behind the first [n] are what they were. *)
Theorem pbuf_take_then_copy s p l d n d' len offset :
  packet (pb_store s) p l → no_overlap l → d ≠ 0 → d' ≠ 0 → 0 ≤ n ≤ total_len l → is_u16 len → is_u16 offset →
  offset + len ≤ n → clear_of d (d + n) l → clear_of d' (d' + len) l →
  ∃ s1 s2, pbuf_take p d n s = Ok (ERR_OK, s1) ∧ pbuf_copy_partial p d' len offset s1 = Ok (len, s2) ∧
    mem_read (pb_data s2) d' (Z.to_nat len) = mem_read (pb_data s) (d + offset) (Z.to_nat len) ∧
    drop (Z.to_nat n) (contents (pb_data s1) l) = drop (Z.to_nat n) (contents (pb_data s) l).
Proof.
  intros Hp Hno Hd Hd' Hn [Hl0 Hlu] [Ho0 Hou] Hle Hcl Hcl'.
  destruct (pbuf_take_ok s p l d n Hp Hno Hd Hn Hcl) as (m1 & E1 & Hm1 & _).
  destruct (pbuf_copy_partial_ok (Pbufs (pb_store s) m1 (pb_alloc s)) p l d' len offset) as (m2 & E2 & Hm2);
    try done.
  cbn [pb_store pb_data pb_alloc] in *. rewrite Hm1 in E2, Hm2.
  rewrite drop_app_le, take_app_le in E2, Hm2 by (rewrite ?length_drop, length_mem_read; lia).
  rewrite mem_read_drop, mem_read_take, Z2Nat.id in E2, Hm2 by lia. rewrite length_mem_read, Z2Nat.id in E2 by lia.
  eexists _, _. split; [exact E1|]. split; [exact E2|]. cbn [pb_data]. split.
  - rewrite (mem_read_ext (mem_write m1 d' (mem_read (pb_data s) (d + offset) (Z.to_nat len)))) by (intros x _; apply Hm2).
    apply mem_write_read. by rewrite length_mem_read.
  - rewrite Hm1. by rewrite drop_app_length' by (by rewrite length_mem_read).
Qed.

(** [pbuf_copy] copies a packet into another one that is at least as long,
    whatever buffers the two consist of; the target keeps its other octets,
    and nothing else changes. *)
Theorem pbuf_copy_copies s pt pf lt lf :
  packet (pb_store s) pt lt → packet (pb_store s) pf lf → nonempty lt → nonempty lf →
  total_len lf ≤ total_len lt → no_overlap lt →
  Forall (λ c, clear_of (p_payload c.2) (p_payload c.2 + p_len c.2) lf) lt →
  ∃ s', pbuf_copy pt pf s = Ok (ERR_OK, s') ∧ pb_store s' = pb_store s ∧
    take (length (contents (pb_data s) lf)) (contents (pb_data s') lt) = contents (pb_data s) lf ∧
    drop (length (contents (pb_data s) lf)) (contents (pb_data s') lt) =
      drop (length (contents (pb_data s) lf)) (contents (pb_data s) lt) ∧
    (∀ x, outside lt x → pb_data s' x = pb_data s x).
Proof.
  intros Ht Hf Hpt Hpf Htot Hno Hcl. destruct (pbuf_copy_ok s pt pf lt lf Ht Hf Hpt Hpf Htot Hno Hcl) as (m' & E & Hm' & Ho).
  eexists. split; [exact E|]. cbn [pb_store pb_data]. rewrite Hm'.
  split; [done|]. split; [by rewrite take_app_length|]. split; [by rewrite drop_app_length|done].
Qed.

(** [pbuf_realloc] cuts a packet.  It leaves the first [n] octets, as a
    packet of that length whose [tot_len] fields are consistent, gives the
    memory that is no longer needed back, and does not touch other buffers; a
    request for more than there is changes nothing. *)
Theorem pbuf_realloc_cuts s L p l n :
  pbufs_ok s L → packet (pb_store s) p l → Forall (λ c, 0 < p_ref c.2) l → is_u16 n →
  ∃ s' L' l', pbuf_realloc p n s = Ok (tt, s') ∧ pbufs_ok s' L' ∧ packet (pb_store s') p l' ∧
    contents (pb_data s') l' = take (Z.to_nat n) (contents (pb_data s) l) ∧
    ∀ a, a ∉ l.*1 → pb_store s' !! a = pb_store s !! a.
Proof.
  intros Hs Hp Hr Hn. destruct (pbuf_realloc_ok s L p l n Hs Hp Hr Hn) as (s' & L' & l' & E & Hok & Hpk & Ed & Hc & Hf & _).
  exists s', L', l'. rewrite Ed. do 4 (split; [done|]). done.
Qed.

(** [pbuf_memfind] returns, and finds only what is there: the position it
    returns is not before the start of the search, and the pattern occurs at
    it.  It does not find everything: see [pbuf_memfind_misses]. *)
Theorem pbuf_memfind_sound s p l mem n start :
  packet (pb_store s) p l → 1 ≤ n < 2 ^ 16 → is_u16 start →
  ∃ r, pbuf_memfind p mem n start s = Ok (r, s) ∧
    (r = 0xFFFF ∨ (start ≤ r ∧ occurs (contents (pb_data s) l) (pb_data s) mem n r)).
Proof. intros Hp [Hn Hn'] Hs. exact (pbuf_memfind_ok s p l mem n start Hp Hn Hn' Hs). Qed.
End Claims.

(** ** Witnesses *)

Lemma pbuf_alloc_all_or_nothing_witness :
  ∃ p s', pbuf_alloc PBUF_TRANSPORT 3000 PBUF_POOL demo = Ok (p, s') ∧
    ((p = 0 ∧ pb_store s' = pb_store demo ∧ pb_data s' = pb_data demo ∧ pbufs_ok s' demo_live) ∨
     ∃ L' b l, extends demo demo_live s' L' ((p, b) :: l) ∧ packet (pb_store s') p ((p, b) :: l) ∧
       total_len ((p, b) :: l) = 3000 ∧ Forall (new_cell PBUF_POOL) ((p, b) :: l) ∧
       (p + SIZEOF_STRUCT_PBUF + header_offset PBUF_TRANSPORT ≤ p_payload b ∧ (4 | p_payload b)) ∧
       (PBUF_POOL ≠ PBUF_POOL → l = [])).
Proof.
  assert (is_u16 3000) as Hn by by split.
  assert (PBUF_POOL = PBUF_RAM → LWIP_MEM_ALIGN_SIZE (SIZEOF_STRUCT_PBUF + header_offset PBUF_TRANSPORT)
            + LWIP_MEM_ALIGN_SIZE 3000 ≤ 65532) as Hf by done.
  exact (pbuf_alloc_all_or_nothing demo demo_live PBUF_TRANSPORT 3000 PBUF_POOL demo_ok Hn Hf).
Defined.

Lemma pbuf_free_follows_references_witness :
  ∃ s' L' q, pbuf_free demo_p demo = Ok (u8 (Z.of_nat (length (freed [(demo_p, demo_buf demo_p 84)]))), s') ∧
    pbufs_ok s' L' ∧ chain (pb_store s') q (kept [(demo_p, demo_buf demo_p 84)]) ∧
    (∀ a, a ∈ (freed [(demo_p, demo_buf demo_p 84)]).*1 → pb_store s' !! a = None) ∧
    (∀ a, a ∉ [(demo_p, demo_buf demo_p 84)].*1 → pb_store s' !! a = pb_store demo !! a) ∧
    (∀ a, L' !! a = if decide (a ∈ (freed [(demo_p, demo_buf demo_p 84)]).*1) then None else demo_live !! a).
Proof.
  assert (Forall (λ c : cell, 0 < p_ref c.2) [(demo_p, demo_buf demo_p 84)]) as Hr by by apply Forall_singleton.
  assert ([(demo_p, demo_buf demo_p 84)] ≠ []) as Hne by done.
  exact (pbuf_free_follows_references demo demo_live demo_p [(demo_p, demo_buf demo_p 84)]
           demo_ok (pk_chain _ _ _ demo_packet_p) Hne Hr).
Defined.

Lemma demo_disjoint : [(demo_p, demo_buf demo_p 84)].*1 ## [(demo_q, demo_buf demo_q 4)].*1.
Proof. intros a Ha Hq. apply list_elem_of_singleton in Ha as ->. by apply list_elem_of_singleton in Hq. Qed.

Lemma pbuf_cat_concatenates_witness :
  ∃ s' l', pbuf_cat demo_p demo_q demo = Ok (tt, s') ∧ pbufs_ok s' demo_live ∧
    packet (pb_store s') demo_p (l' ++ [(demo_q, demo_buf demo_q 4)]) ∧ same_bufs [(demo_p, demo_buf demo_p 84)] l' ∧
    contents (pb_data s') (l' ++ [(demo_q, demo_buf demo_q 4)]) =
      contents (pb_data demo) [(demo_p, demo_buf demo_p 84)] ++ contents (pb_data demo) [(demo_q, demo_buf demo_q 4)].
Proof.
  assert (total_len [(demo_p, demo_buf demo_p 84)] + total_len [(demo_q, demo_buf demo_q 4)] < 2 ^ 16) as Hu by done.
  exact (pbuf_cat_concatenates demo demo_live demo_p demo_q _ _ demo_ok demo_packet_p demo_packet_q demo_disjoint Hu).
Defined.

Lemma pbuf_dechain_undoes_chain_witness :
  (pbuf_chain demo_p demo_q;; pbuf_dechain demo_p) demo = Ok (demo_q, demo).
Proof.
  assert (demo_p ∉ demo_q :: ([] : list cell).*1) as Hd by (by intros ?%list_elem_of_singleton).
  assert (p_len (demo_buf demo_p 84) + p_tot_len (demo_buf demo_q 4) < 2 ^ 16) as Hu by done.
  assert (1 ≤ p_ref (demo_buf demo_q 4) < 2 ^ 16 - 1) as Hr by by split.
  exact (pbuf_dechain_undoes_chain demo demo_p (demo_buf demo_p 84) demo_q (demo_buf demo_q 4) []
           demo_packet_p demo_packet_q Hd Hu Hr).
Defined.

Lemma demo_lookup_p : pb_store demo !! demo_p = Some (demo_buf demo_p 84).
Proof. apply (pk_chain _ _ _ demo_packet_p). Qed.

Lemma pbuf_header_outcome_witness :
  pbuf_header demo_p (-100) demo =
    (if decide (p_len (demo_buf demo_p 84) < - -100) then Spin
     else if decide (has_room (-100) demo_p (demo_buf demo_p 84))
     then Ok (0, Pbufs (<[demo_p := moved (-100) (demo_buf demo_p 84)]> (pb_store demo)) (pb_data demo) (pb_alloc demo))
     else Ok (1, demo)).
Proof.
  assert (demo_p ≠ 0) as Hp by done. assert (- 2 ^ 15 ≤ -100 < 2 ^ 15) as Hi by by split.
  assert (p_len (demo_buf demo_p 84) ≤ p_tot_len (demo_buf demo_p 84)) as Hl by done.
  assert (p_tot_len (demo_buf demo_p 84) + -100 < 2 ^ 16) as Hu by done.
  exact (proj1 (pbuf_header_outcome demo demo_live demo_p (demo_buf demo_p 84) (-100) demo_ok demo_lookup_p Hp Hi Hl Hu)).
Defined.

Lemma pbuf_take_then_copy_witness :
  ∃ s1 s2, pbuf_take demo_p 0x10000 20 demo = Ok (ERR_OK, s1) ∧
    pbuf_copy_partial demo_p 0x20000 7 5 s1 = Ok (7, s2) ∧
    mem_read (pb_data s2) 0x20000 (Z.to_nat 7) = mem_read (pb_data demo) (0x10000 + 5) (Z.to_nat 7) ∧
    drop (Z.to_nat 20) (contents (pb_data s1) [(demo_p, demo_buf demo_p 84)]) =
      drop (Z.to_nat 20) (contents (pb_data demo) [(demo_p, demo_buf demo_p 84)]).
Proof.
  assert (no_overlap [(demo_p, demo_buf demo_p 84)]) as Hno by (by split; [constructor|]).
  assert (0 ≤ 20 ≤ total_len [(demo_p, demo_buf demo_p 84)]) as Hn by by split.
  assert (clear_of 0x10000 (0x10000 + 20) [(demo_p, demo_buf demo_p 84)]) as H1 by (apply Forall_singleton; by right).
  assert (clear_of 0x20000 (0x20000 + 7) [(demo_p, demo_buf demo_p 84)]) as H2 by (apply Forall_singleton; by right).
  assert (0x10000 ≠ 0) as N1 by done. assert (0x20000 ≠ 0) as N2 by done.
  assert (is_u16 7) as U1 by by split. assert (is_u16 5) as U2 by by split. assert (5 + 7 ≤ 20) as Hle by done.
  exact (pbuf_take_then_copy demo demo_p _ 0x10000 20 0x20000 7 5 demo_packet_p Hno N1 N2 Hn U1 U2 Hle H1 H2).
Defined.

Lemma pbuf_copy_copies_witness :
  ∃ s', pbuf_copy demo_p demo_q demo = Ok (ERR_OK, s') ∧ pb_store s' = pb_store demo ∧
    take (length (contents (pb_data demo) [(demo_q, demo_buf demo_q 4)])) (contents (pb_data s') [(demo_p, demo_buf demo_p 84)])
      = contents (pb_data demo) [(demo_q, demo_buf demo_q 4)] ∧
    drop (length (contents (pb_data demo) [(demo_q, demo_buf demo_q 4)])) (contents (pb_data s') [(demo_p, demo_buf demo_p 84)])
      = drop (length (contents (pb_data demo) [(demo_q, demo_buf demo_q 4)])) (contents (pb_data demo) [(demo_p, demo_buf demo_p 84)]) ∧
    (∀ x, outside [(demo_p, demo_buf demo_p 84)] x → pb_data s' x = pb_data demo x).
Proof.
  assert (nonempty [(demo_p, demo_buf demo_p 84)]) as P1 by by apply Forall_singleton.
  assert (nonempty [(demo_q, demo_buf demo_q 4)]) as P2 by by apply Forall_singleton.
  assert (total_len [(demo_q, demo_buf demo_q 4)] ≤ total_len [(demo_p, demo_buf demo_p 84)]) as Ht by done.
  assert (no_overlap [(demo_p, demo_buf demo_p 84)]) as Hno by (by split; [constructor|]).
  assert (Forall (λ c : cell, clear_of (p_payload c.2) (p_payload c.2 + p_len c.2) [(demo_q, demo_buf demo_q 4)])
            [(demo_p, demo_buf demo_p 84)]) as Hc by (apply Forall_singleton, Forall_singleton; by right).
  exact (pbuf_copy_copies demo demo_p demo_q _ _ demo_packet_p demo_packet_q P1 P2 Ht Hno Hc).
Defined.

Lemma pbuf_realloc_cuts_witness :
  ∃ s' L' l', pbuf_realloc demo_p 10 demo = Ok (tt, s') ∧ pbufs_ok s' L' ∧ packet (pb_store s') demo_p l' ∧
    contents (pb_data s') l' = take (Z.to_nat 10) (contents (pb_data demo) [(demo_p, demo_buf demo_p 84)]) ∧
    ∀ a, a ∉ [(demo_p, demo_buf demo_p 84)].*1 → pb_store s' !! a = pb_store demo !! a.
Proof.
  assert (Forall (λ c : cell, 0 < p_ref c.2) [(demo_p, demo_buf demo_p 84)]) as Hr by by apply Forall_singleton.
  assert (is_u16 10) as Hn by by split.
  exact (pbuf_realloc_cuts demo demo_live demo_p _ 10 demo_ok demo_packet_p Hr Hn).
Defined.

Lemma pbuf_memfind_sound_witness :
  ∃ r, pbuf_memfind demo_p 0x10000 3 0 demo = Ok (r, demo) ∧
    (r = 0xFFFF ∨ (0 ≤ r ∧ occurs (contents (pb_data demo) [(demo_p, demo_buf demo_p 84)]) (pb_data demo) 0x10000 3 r)).
Proof.
  assert (1 ≤ 3 < 2 ^ 16) as Hn by by split. assert (is_u16 0) as Hs by by split.
  exact (pbuf_memfind_sound demo demo_p _ 0x10000 3 0 demo_packet_p Hn Hs).
Defined.

(** ** Shortcomings *)

(** The search steps over the octet at which the pattern failed: in the octets
    1, 1, 2 it does not find 1, 2. *)
Definition aab : pbufs_state allocators :=
  Pbufs {[demo_p := demo_buf demo_p 3]}
    (mem_write (mem_write (λ _, 0) (demo_p + 16) [1; 1; 2]) 0x10000 [1; 2]) demo_alloc.
Lemma pbuf_memfind_misses :
  occurs (contents (pb_data aab) [(demo_p, demo_buf demo_p 3)]) (pb_data aab) 0x10000 2 1 ∧
  pbuf_memfind demo_p 0x10000 2 0 aab = Ok (0xFFFF, aab).
Proof.
  split; [|vm_cast_no_check (eq_refl (@Ok (Z * pbufs_state allocators) (0xFFFF, aab)))].
  split; [done|]. split; [done|]. intros i Hi. assert (i = 0 ∨ i = 1) as [-> | ->] by lia; done.
Qed.

(** A request for so much memory that 16 bits do not hold it with the structure
    is granted with a block that does not even hold the structure. *)
Lemma pbuf_alloc_ram_wraps :
  match pbuf_alloc PBUF_RAW 65532 PBUF_RAM boot_pbufs with
  | Ok (p, s') => p = 0x2007C00C ∧ fmap p_len (pb_store s' !! p) = Some 65532
  | _ => False
  end ∧ request_size (u16 (LWIP_MEM_ALIGN_SIZE SIZEOF_STRUCT_PBUF + LWIP_MEM_ALIGN_SIZE 65532)) = 12.
Proof. split; [|done]. vm_compute. by split. Qed.
