(* ===== verification/PbufRefs.v ===== *)
(** * Reference counts of packet buffers

    [p->ref] is the number of references to a buffer: those that parts of the
    program hold, as a multiset of addresses, and the [next] pointers of other
    buffers.  [counted] states this for all buffers at once.  Allocating,
    freeing, referring to and concatenating packets keep the counts exact, so
    that no buffer is lost and none that is held disappears. *)

From S2P Require Import Prelude LwipBase Heap Memp Pbuf PbufChain PbufLinks PbufData PbufMake PbufAlloc PbufClaims.
From Stdlib Require Import ZArith Lia.
From stdpp Require Import base numbers gmultiset list gmap.
Open Scope Z_scope.

(** ** Counting *)

Definition into (st : store) (a : Z) : nat := size (filter (λ c : cell, p_next c.2 = a) st).
Definition references (st : store) (H : gmultiset Z) (a : Z) : Z := Z.of_nat (multiplicity a H + into st a).

(** The references in [H] are all there are. *)
Record counted (st : store) (H : gmultiset Z) : Prop := {
  ct_ref a b : st !! a = Some b → p_ref b = references st H a ∧ 0 < p_ref b;
  ct_null : st !! 0 = None;
  ct_held a : a ∈ H → is_Some (st !! a);
  ct_chain a : is_Some (st !! a) → ∃ l, chain st a l }.

(** Membership in sums. *)
Ltac held_in := intros; repeat rewrite gmultiset_elem_of_disj_union in *; rewrite ?gmultiset_elem_of_singleton in *; tauto.

Ltac mset := clear; multiset_solver.

(** A reference that may be NULL. *)
Definition hold (p : Z) (H : gmultiset Z) : gmultiset Z := if decide (p = 0) then H else {[+ p +]} ⊎ H.

Lemma hold_0 H : hold 0 H = H.
Proof. done. Qed.
Lemma hold_ne p H : p ≠ 0 → hold p H = {[+ p +]} ⊎ H.
Proof. intros. unfold hold. by rewrite decide_False. Qed.
Lemma mult_hold a p H : multiplicity a (hold p H) = ((if decide (a = p ∧ p ≠ 0%Z) then 1 else 0) + multiplicity a H)%nat.
Proof.
  unfold hold. case_decide as Hp; [rewrite decide_False by tauto; done|].
  rewrite multiplicity_disj_union, multiplicity_singleton. by repeat case_decide; try tauto.
Qed.
Lemma elem_hold a p H : a ∈ hold p H ↔ (a = p ∧ p ≠ 0) ∨ a ∈ H.
Proof. rewrite !elem_of_multiplicity, mult_hold. case_decide; lia || tauto. Qed.

Lemma into_put st a b x :
  st !! a = None → into (<[a := b]> st) x = ((if decide (p_next b = x) then 1 else 0) + into st x)%nat.
Proof.
  intros Ha. unfold into. rewrite map_filter_insert. simpl. case_decide.
  - rewrite map_size_insert_None; [done|]. apply map_lookup_filter_None. by left.
  - by rewrite (delete_id _ _ Ha).
Qed.
Lemma into_delete st a b x :
  st !! a = Some b → into st x = ((if decide (p_next b = x) then 1 else 0) + into (delete a st) x)%nat.
Proof. intros Ha. rewrite <-(into_put (delete a st) a b) by apply lookup_delete_eq. by rewrite insert_delete_id. Qed.
Lemma into_set st a b c x :
  st !! a = Some b →
  (into (<[a := c]> st) x + (if decide (p_next b = x) then 1 else 0) =
   into st x + (if decide (p_next c = x) then 1 else 0))%nat.
Proof.
  intros Ha. rewrite <-(insert_delete_eq st a c), into_put by apply lookup_delete_eq.
  rewrite (into_delete st a b x Ha). lia.
Qed.
Lemma into_same st a b c x : st !! a = Some b → p_next c = p_next b → into (<[a := c]> st) x = into st x.
Proof. intros Ha E. pose proof (into_set st a b c x Ha) as Hs. rewrite E in Hs. lia. Qed.

Lemma count_next n x : x ≠ 0 → (if decide (n = x) then 1 else 0)%nat = (if decide (x = n ∧ n ≠ 0%Z) then 1 else 0)%nat.
Proof. intros Hx. apply decide_ext. split; [by intros ->|by intros [-> _]]. Qed.

Lemma into_pos st x : (0 < into st x)%nat ↔ ∃ a b, st !! a = Some b ∧ p_next b = x.
Proof.
  unfold into. split.
  - intros Hs. destruct (map_choose (filter (λ c : cell, p_next c.2 = x) st)) as (a & b & Hab);
      [intros E; rewrite E, map_size_empty in Hs; lia|].
    apply map_lookup_filter_Some in Hab as [Ha E]. by exists a, b.
  - intros (a & b & Ha & E). apply Nat.neq_0_lt_0. intros Hs%map_size_empty_iff.
    pose proof (map_lookup_filter_None_1 (λ c : cell, p_next c.2 = x) st a) as Hn. rewrite Hs in Hn.
    destruct (Hn (lookup_empty _)) as [E'|E']; [congruence|]. by apply (E' b Ha).
Qed.

(** In the middle of a chain there is a pointer to a buffer. *)
Lemma chain_into st p l a : chain st p l → a ∈ l.*1 → a ≠ p → (0 < into st a)%nat.
Proof.
  revert p. induction l as [|[c b] l IH]; intros p Hc Ha Hne; [by apply elem_of_nil in Ha|].
  destruct Hc as (-> & _ & Hb & Hc). cbn in Ha. apply elem_of_cons in Ha as [->|Ha]; [done|].
  destruct (decide (a = p_next b)) as [->|Hn]; [|by apply (IH (p_next b))].
  apply into_pos. by exists c, b.
Qed.

(** ** Buffers apart from their counts *)

Definition bare (b : pbuf) : pbuf := with_ref 0 b.
Definition bares (l : list cell) : list cell := map (λ c, (c.1, bare c.2)) l.

Lemma nonempty_bares l k : bares l = bares k → nonempty l → nonempty k.
Proof.
  revert k. induction l as [|[a b] l IH]; intros [|[c d] k] E Hl; try done. cbn in E. injection E as _ _ _ _ Hlen _ _ E'.
  apply Forall_cons in Hl as [Hb Hl]. constructor; [|exact (IH k E' Hl)]. simpl in *. by rewrite <-Hlen.
Qed.
Lemma bares_fst l k : bares l = bares k → l.*1 = k.*1.
Proof.
  intros E. apply (f_equal (map fst)) in E. unfold bares in E. rewrite !map_map in E. exact E.
Qed.
Lemma bare_fields b c :
  bare b = bare c →
  p_next b = p_next c ∧ p_payload b = p_payload c ∧ p_tot_len b = p_tot_len c ∧ p_len b = p_len c ∧
  p_type b = p_type c ∧ p_flags b = p_flags c.
Proof. unfold bare, with_ref. intros E. by injection E. Qed.

(** What a packet is does not depend on the counts. *)
Lemma bares_packet l k m :
  bares l = bares k → total_len l = total_len k ∧ (lens_ok l ↔ lens_ok k) ∧ contents m l = contents m k.
Proof.
  revert k. induction l as [|[a b] l IH]; intros [|[c d] k] E; try done.
  cbn in E. injection E as Ea _ Hp Htl Hlen _ _ E'. destruct (IH k E') as (Et & Hl & Ec). subst c. cbn.
  unfold cell_data. simpl. rewrite Hp, Hlen, Htl, Et, Hl, Ec. done.
Qed.

(** [st'] has no buffers but those of [st], up to their counts. *)
Definition survives (st st' : store) : Prop :=
  ∀ a b', st' !! a = Some b' → ∃ b, st !! a = Some b ∧ bare b' = bare b.

#[export] Instance survives_refl : Reflexive survives.
Proof. intros st a b Hb. by exists b. Qed.
#[export] Instance survives_trans : Transitive survives.
Proof.
  intros x y z Hxy Hyz a b (b' & Hb' & E)%Hyz. destruct (Hxy _ _ Hb') as (b2 & Hb2 & E2). exists b2. split; [done|congruence].
Qed.

Lemma survives_chain st st' p l' : survives st st' → chain st' p l' → ∃ l, chain st p l ∧ bares l = bares l'.
Proof.
  intros Hst. revert p. induction l' as [|[a b'] l' IH]; intros p; simpl; [intros ->; by exists []|].
  intros (-> & Ha & Hb' & Hc). destruct (Hst _ _ Hb') as (b & Hb & E). destruct (IH _ Hc) as (l & Hl & El).
  exists ((a, b) :: l). unfold bares in *. cbn [map fst snd]. rewrite El, E. split; [|done]. do 3 (split; [done|]).
  by destruct (bare_fields _ _ E) as (<- & _).
Qed.

(** The packets held in [H] are still there. *)
Definition kept_packets (H : gmultiset Z) (st st' : store) : Prop :=
  ∀ h l, h ∈ H → chain st h l → ∃ l', chain st' h l' ∧ bares l' = bares l.

#[export] Instance kept_packets_refl H : Reflexive (kept_packets H).
Proof. intros st h l _ Hl. by exists l. Qed.
#[export] Instance kept_packets_trans H : Transitive (kept_packets H).
Proof.
  intros x y z Hxy Hyz h l Hh (l' & Hl' & E)%Hxy; [|done]. destruct (Hyz h l' Hh Hl') as (l2 & Hl2 & E2).
  exists l2. split; [done|congruence].
Qed.
Lemma kept_subset H H' st st' : (∀ a, a ∈ H' → a ∈ H) → kept_packets H st st' → kept_packets H' st st'.
Proof. intros Hs Hk h l Hh. apply Hk. auto. Qed.

Lemma survives_kept st st' H : counted st' H → survives st st' → kept_packets H st st'.
Proof.
  intros Hct Hs h l Hh Hl. destruct (ct_chain _ _ Hct h (ct_held _ _ Hct h Hh)) as (l' & Hl').
  exists l'. split; [done|]. destruct (survives_chain _ _ _ _ Hs Hl') as (l2 & Hl2 & E).
  by rewrite (chain_fun _ _ _ _ Hl Hl2).
Qed.

(** Packets of which every buffer has one reference stay as they are. *)
Lemma survives_into st st' a : survives st st' → (into st' a ≤ into st a)%nat.
Proof.
  intros Hs. unfold into. rewrite <-!size_dom. apply subseteq_size. intros x Hx. apply elem_of_dom in Hx as [c [Hc E]%map_lookup_filter_Some].
  destruct (Hs _ _ Hc) as (b & Hb & Eb). apply elem_of_dom. exists b. apply map_lookup_filter_Some. split; [done|].
  destruct (bare_fields _ _ Eb) as (En & _). cbn [snd] in *. congruence.
Qed.
Lemma survives_same st st' H H' h l :
  survives st st' → counted st H → counted st' H' → (∀ a, (multiplicity a H' ≤ multiplicity a H)%nat) → h ∈ H' →
  chain st h l → Forall (λ c, p_ref c.2 = 1) l → chain st' h l.
Proof.
  intros Hs Hct Hct' Hsub Hh Hl Hone. destruct (survives_kept st st' H' Hct' Hs h l Hh Hl) as (l' & Hl' & E).
  replace l with l'; [done|]. clear Hh. revert h l Hl Hone Hl' E. induction l' as [|[a b'] l' IH]; intros h [|[a' b] l] Hl Hone Hl' E; try done.
  destruct Hl as (-> & _ & Hb & Hl). destruct Hl' as (-> & _ & Hb' & Hl'). apply Forall_cons in Hone as [Hr Hone]. cbn [snd] in Hr.
  cbn in E. injection E as E1 E2 E3 E4 E5 E6 E7.
  destruct (ct_ref _ _ Hct a b Hb) as [Hrb _]. destruct (ct_ref _ _ Hct' a b' Hb') as [Hrb' Hpos]. unfold references in *.
  pose proof (survives_into _ _ a Hs). specialize (Hsub a). assert (p_ref b' = p_ref b) as Er by lia.
  f_equal; [f_equal; clear -E1 E2 E3 E4 E5 E6 Er; destruct b, b'; simpl in *; congruence|]. apply (IH (p_next b)); [done|done|by rewrite <-E1|done].
Qed.

(** ** Releasing *)

Lemma counted_delete st a b H :
  counted st (hold a H) → a ≠ 0 → st !! a = Some b → p_ref b = 1 → counted (delete a st) (hold (p_next b) H).
Proof.
  intros Hct Ha Hb Hr. destruct (ct_ref _ _ Hct a b Hb) as [Hra _]. unfold references in Hra.
  rewrite mult_hold, decide_True in Hra by done.
  assert (multiplicity a H = 0%nat ∧ into st a = 0%nat) as [HaH Hia] by lia.
  assert (∀ x l, x ≠ a → chain st x l → a ∉ l.*1) as Hout.
  { intros x l Hx Hl Hin. pose proof (chain_into _ _ _ _ Hl Hin ltac:(congruence)). lia. }
  assert (∀ x, x ≠ a → is_Some (st !! x) → is_Some (delete a st !! x)) as Hin
    by (intros x Hx; by rewrite lookup_delete_ne).
  split.
  - intros x c [Hx Hc]%lookup_delete_Some. destruct (ct_ref _ _ Hct x c Hc) as [Hrx Hpos]. split; [|done].
    unfold references in *. rewrite mult_hold, decide_False in Hrx by (by intros [-> _]). rewrite mult_hold.
    rewrite (into_delete st a b x Hb) in Hrx. rewrite Hrx.
    assert (x ≠ 0) by (intros ->; by rewrite (ct_null _ _ Hct) in Hc).
    rewrite (count_next _ x) by done.
    lia.
  - rewrite lookup_delete_ne by done. apply (ct_null _ _ Hct).
  - intros x [[-> Hn]|Hx]%elem_hold.
    + destruct (ct_chain _ _ Hct a) as (l & Hl); [by rewrite Hb|]. destruct l as [|[z y] l]; [done|].
      destruct Hl as (-> & _ & Hy & Hl). rewrite Hb in Hy. injection Hy as <-.
      destruct l as [|[c d] l]; [done|]. destruct Hl as (Ec & _ & Hd & _). rewrite Ec.
      apply Hin; [|by rewrite Hd]. intros Ez. enough (0 < into st z)%nat by lia. apply into_pos. exists z, b. split; [done|congruence].
    + apply Hin; [|apply (ct_held _ _ Hct); rewrite elem_hold; by right].
      intros ->. rewrite elem_of_multiplicity in Hx. lia.
  - intros x [c [Hx Hc]%lookup_delete_Some]. destruct (ct_chain _ _ Hct x) as (l & Hl); [by rewrite Hc|].
    exists l. apply chain_delete; [|done]. by apply (Hout x).
Qed.

(** The count and the references to one buffer change together. *)
Lemma counted_recount st a b r H H' :
  counted st H → st !! a = Some b → 0 < r →
  r + Z.of_nat (multiplicity a H) = p_ref b + Z.of_nat (multiplicity a H') →
  (∀ x, x ≠ a → multiplicity x H' = multiplicity x H) →
  counted (<[a := with_ref r b]> st) H'.
Proof.
  intros Hct Hb Hr Hm Hx. assert (survives (<[a := with_ref r b]> st) st) as Hs.
  { intros x c Hc. destruct (decide (x = a)) as [->|Hne]; [|exists c; by rewrite lookup_insert_ne].
    rewrite lookup_insert_eq. rewrite Hb in Hc. injection Hc as <-. by eexists. }
  assert (a ≠ 0) as Ha by (intros ->; by rewrite (ct_null _ _ Hct) in Hb).
  split.
  - intros x c Hc. unfold references. rewrite (into_same _ _ b) by done.
    apply lookup_insert_Some in Hc as [[<- <-]|[Hne Hc]].
    + destruct (ct_ref _ _ Hct a b Hb) as [Hra _]. unfold references in Hra. simpl. lia.
    + rewrite Hx by done. by apply (ct_ref _ _ Hct x c).
  - rewrite lookup_insert_ne by done. apply (ct_null _ _ Hct).
  - intros x Hin. destruct (decide (x = a)) as [->|Hne]; [rewrite lookup_insert_eq; by eexists|].
    rewrite lookup_insert_ne by done. apply (ct_held _ _ Hct). rewrite elem_of_multiplicity in *. by rewrite <-Hx.
  - intros x [c Hc]. destruct (ct_chain _ _ Hct x) as (l & Hl).
    { apply lookup_insert_Some in Hc as [[<- _]|[_ Hc]]; by eexists. }
    destruct (survives_chain _ _ _ _ Hs Hl) as (l' & Hl' & _). by exists l'.
Qed.

Lemma counted_unref st a b H :
  counted st (hold a H) → a ≠ 0 → st !! a = Some b → p_ref b ≠ 1 →
  counted (<[a := with_ref (p_ref b - 1) b]> st) H.
Proof.
  intros Hct Ha Hb Hr. pose proof (ct_ref _ _ Hct a b Hb) as [_ Hpos].
  apply counted_recount with (hold a H); [done|done|lia| |].
  - rewrite mult_hold, decide_True by done. lia.
  - intros x Hx. rewrite mult_hold, decide_False by tauto. done.
Qed.

Lemma unref_counted l st p H :
  chain st p l → counted st (hold p H) → counted (unref l st) H ∧ survives st (unref l st).
Proof.
  revert p st. induction l as [|[a b] l IH]; intros p st Hc Hct.
  - simpl in Hc. subst p. done.
  - pose proof (chain_nodup _ _ _ Hc) as Hnd. cbn in Hnd. apply NoDup_cons in Hnd as [Hal _].
    destruct Hc as (-> & Ha & Hb & Hc). cbn [unref]. destruct (Z.eqb_spec (p_ref b) 1) as [E|E].
    + destruct (IH (p_next b) (delete a st)) as [Hct' Hs]; [by apply chain_delete|by apply counted_delete|].
      split; [done|]. etrans; [|exact Hs]. intros x c [_ Hc']%lookup_delete_Some. by exists c.
    + split; [by apply counted_unref|]. intros x c [[<- <-]|[_ Hx]]%lookup_insert_Some; by eexists.
Qed.

(** ** Adding *)

Lemma counted_put st a b H :
  counted st (hold (p_next b) H) → a ≠ 0 → st !! a = None → p_ref b = 1 → counted (<[a := b]> st) (hold a H).
Proof.
  intros Hct Ha Hn Hr.
  assert (∀ x, x ∈ hold (p_next b) H → x ≠ a) as Hne.
  { intros x Hx ->. destruct (ct_held _ _ Hct _ Hx). congruence. }
  assert (multiplicity a H = 0%nat) as HaH.
  { apply not_elem_of_multiplicity. intros Hin. apply (Hne a); [|done]. rewrite elem_hold. by right. }
  assert (into st a = 0%nat) as Hia.
  { destruct (Nat.eq_0_gt_0_cases (into st a)) as [?|Hpos]; [done|].
    apply into_pos in Hpos as (c & d & Hd & E). destruct (ct_chain _ _ Hct c) as (l & Hl); [by rewrite Hd|].
    destruct l as [|[c' d'] l]; [simpl in Hl; subst c; by rewrite (ct_null _ _ Hct) in Hd|].
    destruct Hl as (-> & _ & Hd' & Hl). rewrite Hd in Hd'. injection Hd' as <-. rewrite E in Hl.
    destruct l as [|[x y] l]; [simpl in Hl; congruence|]. destruct Hl as (<- & _ & Hy & _). congruence. }
  assert (p_next b ≠ a) as Hna.
  { intros E. apply (Hne a); [|done]. rewrite elem_hold. left. by rewrite E. }
  split.
  - intros x c Hc. unfold references. rewrite into_put, mult_hold by done.
    apply lookup_insert_Some in Hc as [[<- <-]|[Hx Hc]].
    + rewrite decide_True, (decide_False (P := p_next b = a)), HaH, Hia, Hr by done. done.
    + destruct (ct_ref _ _ Hct x c Hc) as [Hrx Hpos]. split; [|done]. rewrite Hrx. unfold references.
      rewrite mult_hold, (decide_False (P := x = a ∧ a ≠ 0)) by (by intros [-> _]).
      assert (x ≠ 0) by (intros ->; by rewrite (ct_null _ _ Hct) in Hc).
      rewrite (count_next _ x) by done. lia.
  - rewrite lookup_insert_ne by done. apply (ct_null _ _ Hct).
  - intros x [[-> _]|Hx]%elem_hold; [rewrite lookup_insert_eq; by eexists|].
    assert (x ∈ hold (p_next b) H) as Hx' by (rewrite elem_hold; by right).
    rewrite lookup_insert_ne by (apply not_eq_sym; by apply Hne). by apply (ct_held _ _ Hct).
  - assert (∀ x l, chain st x l → chain (<[a := b]> st) x l) as Hch.
    { intros x l Hl. apply chain_insert; [|done]. intros ([a' c] & -> & Hc)%list_elem_of_fmap. simpl in Hn.
      by rewrite (chain_lookup _ _ _ _ _ Hl Hc) in Hn. }
    intros x [c Hc]. destruct (decide (x = a)) as [->|Hx].
    + assert (∃ l, chain st (p_next b) l) as (l & Hl).
      { destruct (decide (p_next b = 0)) as [->|Hz]; [by exists []|]. apply (ct_chain _ _ Hct), (ct_held _ _ Hct).
        rewrite elem_hold. by left. }
      exists ((a, b) :: l). split; [done|]. split; [done|]. split; [apply lookup_insert_eq|by apply Hch].
    + rewrite lookup_insert_ne in Hc by done. destruct (ct_chain _ _ Hct x) as (l & Hl); [by rewrite Hc|].
      exists l. by apply Hch.
Qed.

Lemma counted_new st st' p l H :
  counted st H → chain st' p l → Forall (λ c, p_ref c.2 = 1) l →
  (∀ a, a ∉ l.*1 → st' !! a = st !! a) → (∀ a, a ∈ l.*1 → st !! a = None) → counted st' (hold p H).
Proof.
  intros Hct. revert p st'. induction l as [|[a b] l IH]; intros p st' Hc Hr Hout Hin.
  { simpl in Hc. subst p. rewrite hold_0. replace st' with st; [done|]. apply map_eq. intros a. symmetry.
    apply Hout. by intros ?%elem_of_nil. }
  pose proof (chain_nodup _ _ _ Hc) as Hnd. cbn in Hnd, Hout, Hin. apply NoDup_cons in Hnd as [Hal _].
  destruct Hc as (-> & Ha & Hb & Hc). apply Forall_cons in Hr as [Hra Hr].
  rewrite <-(insert_delete_id _ _ _ Hb). apply counted_put; [|done|apply lookup_delete_eq|done].
  apply IH; [by apply chain_delete|done| |].
  - intros x Hx. destruct (decide (x = a)) as [->|Hne].
    + rewrite lookup_delete_eq. symmetry. apply Hin. by left.
    + rewrite lookup_delete_ne by done. apply Hout. by intros [?|?]%elem_of_cons.
  - intros x Hx. apply Hin. by right.
Qed.

Lemma counted_ref st a b H :
  counted st H → st !! a = Some b → counted (<[a := with_ref (p_ref b + 1) b]> st) (hold a H).
Proof.
  intros Hct Hb. assert (a ≠ 0) as Ha by (intros ->; by rewrite (ct_null _ _ Hct) in Hb).
  pose proof (ct_ref _ _ Hct a b Hb) as [_ Hpos]. apply counted_recount with H; [done|done|lia| |].
  - rewrite mult_hold, decide_True by done. lia.
  - intros x Hx. rewrite mult_hold, decide_False by tauto. done.
Qed.

(** ** Changing links *)

Lemma chain_splice st x l z c k :
  z ≠ 0 → chain st x l → chain st (p_next c) k → z ∉ k.*1 → ∃ l', chain (<[z := c]> st) x l'.
Proof.
  intros Hz Hl Hk Hzk. assert (chain (<[z := c]> st) (p_next c) k) as Hk' by by apply chain_insert.
  revert x Hl. induction l as [|[a b] l IH]; intros x Hl; [exists []; done|]. destruct Hl as (-> & Ha & Hb & Hl).
  destruct (decide (a = z)) as [->|Hne].
  - exists ((z, c) :: k). do 2 (split; [done|]). by rewrite lookup_insert_eq.
  - destruct (IH _ Hl) as (l' & Hl'). exists ((a, b) :: l'). do 2 (split; [done|]). by rewrite lookup_insert_ne.
Qed.

(** A [next] pointer takes a reference from [H], or leaves one to it. *)
Lemma counted_relink st z b c k H H' :
  counted st H → st !! z = Some b → p_ref c = p_ref b → hold (p_next c) H' = hold (p_next b) H →
  chain st (p_next c) k → z ∉ k.*1 → counted (<[z := c]> st) H'.
Proof.
  intros Hct Hb Hr EH Hk Hzk. assert (z ≠ 0) as Hz by (intros ->; by rewrite (ct_null _ _ Hct) in Hb).
  split.
  - intros x d Hd. unfold references. assert (x ≠ 0) as Hx.
    { intros ->. rewrite lookup_insert_ne, (ct_null _ _ Hct) in Hd by done. done. }
    pose proof (into_set st z b c x Hb) as Hi. apply (f_equal (multiplicity x)) in EH. rewrite !mult_hold in EH.
    rewrite !(count_next _ x Hx) in Hi. apply lookup_insert_Some in Hd as [[<- <-]|[_ Hd]].
    + destruct (ct_ref _ _ Hct z b Hb) as [Hrz Hpos]. unfold references in Hrz. lia.
    + destruct (ct_ref _ _ Hct x d Hd) as [Hrx Hpos]. unfold references in Hrx. lia.
  - rewrite lookup_insert_ne by done. apply (ct_null _ _ Hct).
  - intros x Hx. destruct (decide (x = z)) as [->|Hne]; [rewrite lookup_insert_eq; by eexists|].
    rewrite lookup_insert_ne by done. assert (x ∈ hold (p_next b) H) as Hin by (rewrite <-EH, elem_hold; by right).
    apply elem_hold in Hin as [[-> Hn]|Hin]; [|by apply (ct_held _ _ Hct)].
    destruct (ct_chain _ _ Hct z) as ([|[z' b'] l] & Hl); [by rewrite Hb|done|].
    destruct Hl as (-> & _ & Hb' & Hl). rewrite Hb in Hb'. injection Hb' as <-.
    destruct l as [|[y d] l]; [done|]. destruct Hl as (-> & _ & Hd & _). by eexists.
  - intros x [d Hd]. destruct (ct_chain _ _ Hct x) as (l & Hl).
    { apply lookup_insert_Some in Hd as [[<- _]|[_ Hd]]; by eexists. }
    by apply (chain_splice _ _ l _ _ k).
Qed.

(** Other fields do not matter. *)
Lemma counted_fields st z b c H :
  counted st H → st !! z = Some b → p_ref c = p_ref b → p_next c = p_next b → counted (<[z := c]> st) H.
Proof.
  intros Hct Hb Hr Hn. destruct (ct_chain _ _ Hct z) as ([|[z' b'] l] & Hl); [by rewrite Hb| |].
  { simpl in Hl. subst z. by rewrite (ct_null _ _ Hct) in Hb. }
  pose proof (chain_nodup _ _ _ Hl) as Hnd. cbn in Hnd. apply NoDup_cons in Hnd as [Hz _].
  destruct Hl as (-> & _ & Hb' & Hl). rewrite Hb in Hb'. injection Hb' as <-.
  apply counted_relink with b l H; [done..|by rewrite Hn|by rewrite Hn|done].
Qed.

(** [pbuf_cat] turns the reference to the tail into a pointer. *)
Lemma counted_cat st n t l1 z bz p k H :
  counted st (hold t H) → chain st p (l1 ++ [(z, bz)]) → chain st t k → (l1 ++ [(z, bz)]).*1 ## k.*1 →
  counted (write_cells (cat_cells n t l1 z bz) st) H.
Proof.
  revert p st. induction l1 as [|[a b] l1 IH]; intros p st Hct Hc Hk Hd.
  - destruct Hc as (-> & Hz & Hbz & Hn). simpl in Hn. cbn. apply counted_relink with bz k (hold t H); [done..| | |].
    + by rewrite Hn.
    + done.
    + intros Hin. apply (Hd z); [by left|done].
  - pose proof (chain_nodup _ _ _ Hc) as Hnd. cbn in Hnd. apply NoDup_cons in Hnd as [Ha _].
    destruct Hc as (-> & Hz & Hb & Hc). apply (IH (p_next b) (<[a := (grow n (a, b)).2]> st)).
    + by apply counted_fields with b.
    + by apply chain_insert.
    + apply chain_insert; [|done]. intros Hin. apply (Hd a); [by left|done].
    + intros x Hx. apply Hd. by right.
Qed.

Lemma freed_elem l c : c ∈ freed l → c ∈ l.
Proof.
  induction l as [|[a b] l IH]; cbn; [done|]. case_match; [|by intros ?%elem_of_nil].
  intros [->|?]%elem_of_cons; [by left|right; by apply IH].
Qed.

(** ** Operations *)

Section Refs.
Context {A : Type} {BA : BufAlloc A} {LA : BufAllocLaws A}.
Implicit Types (s : pbufs_state A).

(** [L] is the memory of the buffers and the memory [R] of everybody else. *)
Definition beside (st : store) (L R : gmap Z place) : Prop :=
  ∀ a, match st !! a with Some _ => R !! a = None | None => L !! a = R !! a end.

(** The buffers, with the memory of everybody else and the references held. *)
Record held_ok s (R : gmap Z place) (H : gmultiset Z) : Prop := {
  ho_ok : ∃ L, pbufs_ok s L ∧ beside (pb_store s) L R;
  ho_refs : counted (pb_store s) H }.

Lemma beside_same st st' L R : (∀ a, is_Some (st' !! a) ↔ is_Some (st !! a)) → beside st L R → beside st' L R.
Proof.
  intros Hd Hb a. specialize (Hd a). specialize (Hb a). destruct (st' !! a), (st !! a); try done.
  - by destruct (proj1 Hd) as [? ?].
  - by destruct (proj2 Hd) as [? ?].
Qed.
Lemma beside_insert st L R a b c : st !! a = Some b → beside st L R → beside (<[a := c]> st) L R.
Proof.
  intros Hb. apply beside_same. intros x. destruct (decide (x = a)) as [->|]; [|by rewrite lookup_insert_ne].
  rewrite lookup_insert_eq, Hb. split; by eexists.
Qed.

Lemma chain_pos st H p l : counted st H → chain st p l → Forall (λ c, 0 < p_ref c.2) l.
Proof.
  intros Hct Hl. apply Forall_forall. intros [a b] Hin. by apply (ct_ref _ _ Hct a b), (chain_lookup _ _ _ _ _ Hl Hin).
Qed.

Lemma held_chain st H p : counted st H → p ∈ H → ∃ b l, chain st p ((p, b) :: l) ∧ p ≠ 0.
Proof.
  intros Hct Hp. destruct (ct_held _ _ Hct _ Hp) as [b Hb]. destruct (ct_chain _ _ Hct p) as (l & Hl); [by rewrite Hb|].
  assert (p ≠ 0) by (intros ->; by rewrite (ct_null _ _ Hct) in Hb). destruct l as [|[p' b'] l]; [done|].
  pose proof Hl as (<- & _). by exists b', l.
Qed.

(** *** Giving up a reference *)

Lemma unref_gone l st p a : chain st p l → unref l st !! a = None → st !! a = None ∨ a ∈ (freed l).*1.
Proof.
  revert p st. induction l as [|[c b] l IH]; intros p st Hc Hn; [by left|]. pose proof (chain_nodup _ _ _ Hc) as Hnd.
  cbn in Hnd. apply NoDup_cons in Hnd as [Hal _]. destruct Hc as (-> & _ & Hb & Hc).
  cbn [unref freed] in *. destruct (p_ref b =? 1).
  - apply (IH (p_next b)) in Hn as [Hn|Hn]; [|right; by right|by apply chain_delete].
    destruct (decide (a = c)) as [->|Hne]; [right; by left|]. rewrite lookup_delete_ne in Hn by done. by left.
  - destruct (decide (a = c)) as [->|Hne]; [by rewrite lookup_insert_eq in Hn|]. rewrite lookup_insert_ne in Hn by done. by left.
Qed.

Lemma unref_none l st p a : chain st p l → st !! a = None → unref l st !! a = None.
Proof.
  revert p st. induction l as [|[c b] l IH]; intros p st Hc Hn; [done|]. pose proof (chain_nodup _ _ _ Hc) as Hnd.
  cbn in Hnd. apply NoDup_cons in Hnd as [Hal _]. destruct Hc as (-> & _ & Hb & Hc). cbn [unref].
  destruct (p_ref b =? 1).
  - apply (IH (p_next b)); [by apply chain_delete|]. apply lookup_delete_None. by right.
  - rewrite lookup_insert_ne; [done|]. intros ->. congruence.
Qed.

Lemma beside_unref st L R p l : chain st p l → beside st L R → beside (unref l st) (unlive l L) R.
Proof.
  intros Hl HR a. specialize (HR a). destruct (unref l st !! a) as [c|] eqn:Ec.
  - destruct (st !! a) eqn:Ea; [done|]. exfalso. by rewrite (unref_none _ _ _ _ Hl Ea) in Ec.
  - rewrite unlive_lookup. case_decide as Hf.
    + assert (is_Some (st !! a)) as [c Hc].
      { apply list_elem_of_fmap in Hf as ([x y] & -> & Hin). exists y. by apply (chain_lookup _ _ _ _ _ Hl), freed_elem. }
      by rewrite Hc in HR.
    + destruct (unref_gone _ _ _ _ Hl Ec) as [Hn|?]; [|done]. by rewrite Hn in HR.
Qed.

Lemma pbuf_free_held s R H p :
  held_ok s R ({[+ p +]} ⊎ H) →
  ∃ n s', pbuf_free p s = Ok (n, s') ∧ held_ok s' R H ∧ pb_data s' = pb_data s ∧
    survives (pb_store s) (pb_store s') ∧ kept_packets H (pb_store s) (pb_store s').
Proof.
  intros [(L & Hok & HR) Hct]. destruct (held_chain _ _ p Hct) as (b & l0 & Hl & Hp); [multiset_solver|].
  set (l := (p, b) :: l0) in *.
  destruct (pbuf_free_ok s L p l Hok Hl ltac:(done) (chain_pos _ _ _ _ Hct Hl)) as (a' & E & Hok').
  rewrite <-hold_ne in Hct by done. destruct (unref_counted _ _ _ _ Hl Hct) as [Hct' Hs].
  eexists _, _. split; [exact E|]. split; [|split; [done|split; [done|by apply survives_kept]]].
  split; [|done]. exists (unlive l L). split; [done|]. by apply beside_unref with p.
Qed.

(** *** A new packet *)

Lemma pbuf_alloc_held s R H layer length type :
  held_ok s R H → is_u16 length →
  (type = PBUF_RAM →
   LWIP_MEM_ALIGN_SIZE (SIZEOF_STRUCT_PBUF + header_offset layer) + LWIP_MEM_ALIGN_SIZE length ≤ 65532) →
  ∃ p s', pbuf_alloc layer length type s = Ok (p, s') ∧ held_ok s' R (hold p H) ∧
    pb_data s' = pb_data s ∧ kept_packets H (pb_store s) (pb_store s') ∧
    (p ≠ 0 → ∃ L L' b l, pbufs_ok s L ∧ extends s L s' L' ((p, b) :: l) ∧ packet (pb_store s') p ((p, b) :: l) ∧
       total_len ((p, b) :: l) = length ∧ Forall (new_cell type) ((p, b) :: l) ∧ (type ≠ PBUF_POOL → l = []) ∧
       (type = PBUF_RAM ∨ type = PBUF_POOL → p + SIZEOF_STRUCT_PBUF + header_offset layer ≤ p_payload b)).
Proof.
  intros [(L & Hok & HR) Hct] Hlen Hfit. destruct (pbuf_alloc_ok s L layer length type Hok Hlen Hfit) as (p & s' & E & Hr).
  destruct Hr as [(-> & Est & Ed & Hok')|(L' & b & l & Hex & Hpk & Ht & Hnew & Hlay & Hone1)].
  { exists 0, s'. rewrite hold_0, Est. split; [exact E|]. split; [split; [exists L|]; by rewrite Est|]. done. }
  exists p, s'. split; [exact E|]. set (k := (p, b) :: l) in *.
  assert (Forall (λ c, p_ref c.2 = 1) k) as Hone by (eapply Forall_impl; [exact Hnew|]; by intros c [? _]).
  split; [split|].
  - exists L'. split; [apply (ex_ok _ _ _ _ _ Hex)|]. intros a. specialize (HR a).
    destruct (decide (a ∈ k.*1)) as [Ha|Ha].
    + destruct (ex_fresh _ _ _ _ _ Hex a Ha) as [Hn HLn]. rewrite Hn in HR.
      apply list_elem_of_fmap in Ha as ([a' c] & -> & Hc). cbn [fst] in *.
      rewrite (chain_lookup _ _ _ _ _ (pk_chain _ _ _ Hpk) Hc). congruence.
    + by rewrite (ex_store _ _ _ _ _ Hex a Ha), (ex_live _ _ _ _ _ Hex a Ha).
  - apply (counted_new _ _ _ k _ Hct (pk_chain _ _ _ Hpk) Hone (ex_store _ _ _ _ _ Hex)).
    intros a Ha. by destruct (ex_fresh _ _ _ _ _ Hex a Ha).
  - split; [apply (ex_data _ _ _ _ _ Hex)|]. split; [|intros _; exists L, L', b, l; do 6 (split; [done|]); by intros [-> | ->]; destruct Hlay].
    intros h j Hh Hj. exists j. split; [|done]. apply chain_frame with (pb_store s); [|done].
    intros a Ha. apply (ex_store _ _ _ _ _ Hex). intros Hin. destruct (ex_fresh _ _ _ _ _ Hex a Hin) as [Hn _].
    apply list_elem_of_fmap in Ha as ([a' c] & -> & Hc). simpl in Hn. by rewrite (chain_lookup _ _ _ _ _ Hj Hc) in Hn.
Qed.

(** *** One more reference *)

Lemma pbuf_ref_held s R H p b :
  held_ok s R H → pb_store s !! p = Some b → p_ref b < 2 ^ 16 - 1 →
  ∃ s', pbuf_ref p s = Ok (tt, s') ∧ held_ok s' R (hold p H) ∧ pb_data s' = pb_data s ∧
    survives (pb_store s) (pb_store s') ∧ kept_packets H (pb_store s) (pb_store s').
Proof.
  intros [(L & Hok & HR) Hct] Hb Hr. assert (p ≠ 0) as Hp by (intros ->; by rewrite (ct_null _ _ Hct) in Hb).
  pose proof (pb_bufs _ _ Hok _ _ Hb) as (Hl & Ht & Hu & Hty). unfold is_u16 in Hu.
  rewrite (pbuf_ref_ok s p b Hb Hp), u16_small by (unfold is_u16; lia). set (st' := <[p := _]> (pb_store s)).
  assert (survives (pb_store s) st') as Hs by (intros x c [[<- <-]|[_ Hx]]%lookup_insert_Some; by eexists).
  assert (counted st' (hold p H)) as Hct' by by apply counted_ref.
  eexists. split; [done|]. split; [split; [exists L|done]|split; [done|split; [done|]]].
  - split; [|by apply beside_insert with b]. apply pbufs_ok_insert with b; [done..|].
    split; [done|]. split; [done|]. split; [unfold is_u16; simpl; lia|done].
  - apply kept_subset with (hold p H); [intros; rewrite elem_hold; by right|]. by apply survives_kept.
Qed.

(** *** Links *)

Lemma write_cells_dom l k st x :
  k.*1 = l.*1 → stored st l → is_Some (write_cells k st !! x) ↔ is_Some (st !! x).
Proof.
  intros E Hl. destruct (decide (x ∈ l.*1)) as [Hx|Hx]; [|by rewrite write_cells_frame by (by rewrite E)].
  split; intros _.
  - apply list_elem_of_fmap in Hx as ([a b] & -> & Hb). exists b. by apply Hl.
  - clear Hl. revert l st E Hx. induction k as [|[a b] k IH]; intros l st E Hx; [rewrite <-E in Hx; by apply elem_of_nil in Hx|].
    cbn [write_cells]. destruct (decide (x ∈ k.*1)) as [Hk|Hk]; [by apply (IH k)|].
    rewrite write_cells_frame by done. rewrite <-E in Hx. cbn in Hx. apply elem_of_cons in Hx as [->|Hx]; [|done].
    rewrite lookup_insert_eq. by eexists.
Qed.

Lemma pbuf_cat_held s R H h t l k :
  held_ok s R (hold t H) → packet (pb_store s) h l → packet (pb_store s) t k → l.*1 ## k.*1 →
  total_len l + total_len k < 2 ^ 16 →
  ∃ s', pbuf_cat h t s = Ok (tt, s') ∧ held_ok s' R H ∧ pb_store s' !! t = pb_store s !! t.
Proof.
  intros [(L & Hok & HR) Hct] Hl Hk Hd Hu. pose proof (pk_ne _ _ _ Hk) as Hkne.
  destruct k as [|[t' bt] k]; [done|]. pose proof (pk_chain _ _ _ Hk) as (<- & Ht & Hbt & _).
  destruct (exists_last (pk_ne _ _ _ Hl)) as (l1 & [z bz] & ->). pose proof (pk_chain _ _ _ Hl) as Hc.
  assert (∀ a, a ∈ (l1 ++ [(z, bz)]).*1 → a ≠ t) as Hdt by (intros a Ha ->; apply (Hd t Ha); by left).
  pose proof Hdt as Hdt'. rewrite fmap_app in Hdt. set (n := p_tot_len bt).
  pose proof (same_bufs_cat n t l1 z bz) as Hsame. pose proof (same_bufs_fst _ _ Hsame) as Hfst.
  assert (stored (pb_store s) (l1 ++ [(z, bz)])) as Hst by by apply chain_links in Hc as [].
  eexists. split; [|split; [split|]].
  - apply (cat_runs s h t l1 z bz bt); [done|apply (pk_lens _ _ _ Hl)|done|done| |].
    + intros Hin. by apply (Hdt t); [apply elem_of_app; left|].
    + intros ->. apply (Hdt z); [|done]. apply elem_of_app. right. by left.
  - exists L. split.
    + apply pbufs_ok_cells with (l1 ++ [(z, bz)]); [done|done|done|].
      unfold cat_cells. apply Forall_app. split; [apply Forall_fmap, Forall_true|apply Forall_singleton];
        intros; apply u16_range.
    + eapply beside_same; [|exact HR]. intros a. by apply write_cells_dom with (l1 ++ [(z, bz)]).
  - eapply counted_cat; [exact Hct|exact Hc|apply Hk|exact Hd].
  - cbn [pb_store]. apply write_cells_frame. fold n. rewrite Hfst. intros Hin. by apply (Hdt' t).
Qed.

Lemma pbuf_chain_held s R H h t l bt k :
  held_ok s R ({[+ t +]} ⊎ H) → packet (pb_store s) h l → packet (pb_store s) t ((t, bt) :: k) → l.*1 ## t :: k.*1 →
  total_len l + total_len ((t, bt) :: k) < 2 ^ 16 → p_ref bt < 2 ^ 16 - 1 →
  ∃ s', pbuf_chain h t s = Ok (tt, s') ∧ held_ok s' R ({[+ t +]} ⊎ H).
Proof.
  intros Hok Hl Hk Hd Hu Hr. pose proof (pk_chain _ _ _ Hk) as (_ & Ht & Hbt & _). rewrite <-hold_ne in * by done.
  destruct (pbuf_cat_held _ _ _ _ _ _ _ Hok Hl Hk Hd Hu) as (s1 & E1 & Hok1 & Ht1). rewrite Hbt in Ht1.
  destruct (pbuf_ref_held _ _ _ _ _ Hok1 Ht1 Hr) as (s2 & E2 & Hok2 & _). exists s2. split; [|done].
  unfold pbuf_chain. by rewrite (bind_ok _ _ _ _ _ E1).
Qed.

Lemma pbuf_dechain_held s R H p b q c l :
  held_ok s R H → packet (pb_store s) p ((p, b) :: (q, c) :: l) → (length l < 255)%nat →
  ∃ r s', pbuf_dechain p s = Ok (r, s') ∧ held_ok s' R H.
Proof.
  intros [(L & Hok & HR) Hct] [Hc Hl Hu _] Hn. pose proof (chain_pos _ _ _ _ Hct Hc) as Hpos.
  apply Forall_cons in Hpos as [_ Hpos]. pose proof (chain_nodup _ _ _ Hc) as Hnd. cbn in Hnd.
  apply NoDup_cons in Hnd as [Hpq _]. pose proof Hc as (_ & Hp & Hb & Hc2). pose proof Hc2 as (Eq & Hq & Hcq & _).
  destruct (dechain_runs s L p b q c l Hok Hc Hl Hpos Hn) as (a' & E & Hok').
  set (st1 := <[p := detached b]> (pb_store s)) in *.
  assert (chain st1 q ((q, c) :: l)) as Hch by (apply chain_insert; [done|by rewrite Eq in Hc2]).
  assert (counted st1 (hold q H)) as Hct1.
  { apply counted_relink with b [] H; [done..|by rewrite Eq|done|by apply not_elem_of_nil]. }
  destruct (unref_counted _ _ _ _ Hch Hct1) as [Hct2 Hs].
  eexists _, _. split; [exact E|]. split; [|done]. exists (unlive ((q, c) :: l) L). split; [done|].
  cbn [pb_store]. by apply beside_unref with q, beside_insert with b.
Qed.
End Refs.

(** ** Sequences of operations *)

(** Nothing is lost: every buffer is reached from a reference that is held. *)
Lemma chain_next st h l c d : chain st h l → c ∈ l.*1 → st !! c = Some d → p_next d ≠ 0 → p_next d ∈ l.*1.
Proof.
  revert h. induction l as [|[a b] l IH]; intros h Hc Hin Hd Hn; [by apply elem_of_nil in Hin|].
  destruct Hc as (_ & _ & Hb & Hc). cbn in *. apply elem_of_cons in Hin as [->|Hin]; [|right; by apply (IH (p_next b))].
  right. rewrite Hb in Hd. injection Hd as ->. destruct l as [|[a' b'] l]; [done|]. destruct Hc as (-> & _). by left.
Qed.

Lemma reached st H a b :
  counted st H → st !! a = Some b → ∃ h l, h ∈ H ∧ chain st h l ∧ a ∈ l.*1.
Proof.
  intros Hct Hb. destruct (ct_chain _ _ Hct a) as (k & Hk); [by rewrite Hb|].
  remember (size st - length k)%nat as n eqn:Hn. revert a b k Hb Hk Hn. induction n as [n IH] using lt_wf_ind.
  intros a b k Hb Hk Hn. assert (a ≠ 0) as Ha by (intros ->; by rewrite (ct_null _ _ Hct) in Hb).
  assert (a ∈ k.*1) as Hak by (destruct k as [|[a' b'] k]; [done|]; destruct Hk as (-> & _); by left).
  destruct (decide (a ∈ H)) as [HaH|HaH]; [by exists a, k|]. apply not_elem_of_multiplicity in HaH.
  destruct (ct_ref _ _ Hct a b Hb) as [Hr Hpos]. unfold references in Hr.
  destruct (proj1 (into_pos st a)) as (c & d & Hd & E); [lia|].
  assert (c ≠ 0) as Hc by (intros ->; by rewrite (ct_null _ _ Hct) in Hd).
  assert (chain st c ((c, d) :: k)) as Hck by (split; [done|]; split; [done|]; by rewrite E).
  pose proof (chain_size _ _ _ Hck) as Hsz. simpl in Hsz.
  destruct (IH (size st - S (length k))%nat ltac:(lia) c d ((c, d) :: k) Hd Hck eq_refl) as (h & l & Hh & Hl & Hin).
  exists h, l. split; [done|]. split; [done|]. rewrite <-E. apply (chain_next _ _ _ _ _ Hl Hin Hd). congruence.
Qed.

(** ** Buffers nobody else refers to *)

(** A buffer nobody else refers to is in no other packet. *)
Lemma sole_chain (st : store) H q b h l :
  counted st H → q ∈ H → st !! q = Some b → p_ref b = 1 → chain st h l → h ≠ q → q ∉ l.*1.
Proof.
  intros Hct Hq Hb Hr Hl Hne Hin. destruct (ct_ref _ _ Hct q b Hb) as [Hrq _]. unfold references in Hrq.
  rewrite elem_of_multiplicity in Hq. pose proof (chain_into _ _ _ _ Hl Hin ltac:(congruence)). lia.
Qed.
Lemma sole_held (st : store) H K q b :
  counted st (H ⊎ K) → q ∈ H → st !! q = Some b → p_ref b = 1 → q ∉ K.
Proof.
  intros Hct Hq Hb Hr Hin. destruct (ct_ref _ _ Hct q b Hb) as [Hrq _]. unfold references in Hrq.
  rewrite elem_of_multiplicity in Hq, Hin. rewrite multiplicity_disj_union in Hrq. lia.
Qed.

(** A packet whose buffers nobody else refers to, such as a received frame. *)
Definition exclusive (l : list cell) : Prop := Forall (λ c, p_ref c.2 = 1) l.
Lemma exclusive_apart (st : store) H K h l q :
  counted st (H ⊎ K) → h ∈ H → chain st h l → exclusive l → q ∈ K → q ∉ l.*1.
Proof.
  intros Hct Hh Hl Hx Hq Hin. destruct (decide (q = h)) as [->|Hne].
  - destruct l as [|[a b] l]; [by apply elem_of_nil in Hin|]. destruct Hl as (-> & _ & Hb & _).
    apply Forall_cons in Hx as [Hr _]. by apply (sole_held st H K a b).
  - apply list_elem_of_fmap in Hin as ([a b] & -> & Hab). cbn [fst] in *.
    pose proof (proj1 (Forall_forall _ _) Hx _ Hab) as Hr. cbn [snd] in Hr.
    eapply (sole_chain st (H ⊎ K) a b h l); [done|held_in|by eapply chain_lookup|done|done|congruence|].
    apply list_elem_of_fmap. by exists (a, b).
Qed.

Lemma into_two st x b y c a :
  st !! x = Some b → st !! y = Some c → x ≠ y → p_next b = a → p_next c = a → (2 ≤ into st a)%nat.
Proof.
  intros Hx Hy Hne Hb Hc. rewrite (into_delete st x b a Hx), decide_True by done.
  enough (0 < into (delete x st) a)%nat by lia. apply into_pos. exists y, c. by rewrite lookup_delete_ne.
Qed.
Lemma chain_before st p l a : chain st p l → a ∈ l.*1 → a ≠ p → ∃ x b, (x, b) ∈ l ∧ p_next b = a.
Proof.
  revert p. induction l as [|[c b] l IH]; intros p Hc Ha Hne; [by apply elem_of_nil in Ha|].
  destruct Hc as (-> & _ & Hb & Hc). cbn in Ha. apply elem_of_cons in Ha as [->|Ha]; [done|].
  destruct (decide (a = p_next b)) as [->|Hn]; [exists c, b; split; [by left|done]|].
  destruct (IH (p_next b) Hc Ha Hn) as (x & d & Hin & E). exists x, d. split; [by right|done].
Qed.

(** No other packet shares a buffer with it. *)
Lemma exclusive_disjoint (st : store) H K h l x k :
  counted st (H ⊎ K) → h ∈ H → chain st h l → exclusive l → x ∈ K → chain st x k → l.*1 ## k.*1.
Proof.
  intros Hct Hh Hl Hx Hxk Hk. pose proof (exclusive_apart st H K h l x Hct Hh Hl Hx Hxk) as Hout. clear Hxk.
  revert x Hk Hout. induction k as [|[c b] k IH]; intros x Hk Hout; [intros a _ ?; by eapply elem_of_nil|].
  destruct Hk as (-> & Hx0 & Hb & Hk). intros a Ha Hin. cbn in Hin. apply elem_of_cons in Hin as [->|Hin]; [done|].
  apply (IH (p_next b) Hk) with a; [|done..]. clear a Ha Hin. intros Hin.
  pose proof Hin as ([y d] & Ey & Hyd)%list_elem_of_fmap. cbn [fst] in Ey.
  pose proof (proj1 (Forall_forall _ _) Hx _ Hyd) as Hr. cbn [snd] in Hr.
  pose proof (chain_lookup _ _ _ _ _ Hl Hyd) as Hd. destruct (ct_ref _ _ Hct y d Hd) as [Href _]. unfold references in Href.
  destruct (decide (p_next b = h)) as [E|E].
  - rewrite multiplicity_disj_union in Href. rewrite elem_of_multiplicity in Hh.
    assert (0 < into st y)%nat by (apply into_pos; exists c, b; split; [done|congruence]). rewrite <-E, Ey in Hh. lia.
  - destruct (chain_before _ _ _ _ Hl Hin E) as (z & e & Hze & En).
    assert (c ≠ z) as Hcz by (intros ->; apply Hout, list_elem_of_fmap; by exists (z, e)).
    pose proof (into_two st c b z e y Hb (chain_lookup _ _ _ _ _ Hl Hze) Hcz ltac:(congruence) ltac:(congruence)). lia.
Qed.

Section Header.
Context {A : Type} {BA : BufAlloc A} {LA : BufAllocLaws A}.

(** *** Cutting *)

Lemma unref_insert l st q c : q ∉ l.*1 → unref l (<[q := c]> st) = <[q := c]> (unref l st).
Proof.
  revert st. induction l as [|[a b] l IH]; intros st Hq; [done|]. cbn in *. apply not_elem_of_cons in Hq as [Hne Hq].
  case_match; [by rewrite delete_insert_ne, IH|by rewrite insert_insert_ne].
Qed.
Lemma grown_counted g l1 k st p H :
  counted st H → chain st p (l1 ++ k) →
  counted (write_cells (grow g <$> l1) st) H ∧ ∃ q, chain (write_cells (grow g <$> l1) st) q k.
Proof.
  revert p st. induction l1 as [|[a b] l1 IH]; intros p st Hct Hc; [split; [done|by exists p]|].
  pose proof (chain_nodup _ _ _ Hc) as Hnd. cbn in Hnd. apply NoDup_cons in Hnd as [Ha _].
  destruct Hc as (-> & Hz & Hb & Hc). apply (IH (p_next b) (<[a := (grow g (a, b)).2]> st)).
  - by apply counted_fields with b.
  - by apply chain_insert.
Qed.
Lemma cut_counted st L l st' L' l' p R H :
  cut_at st L l st' L' l' → chain st p l → counted st H → beside st L R → counted st' H ∧ beside st' L' R.
Proof.
  intros [|g rem l1 q b l2 L1 -> HL1] Hc Hct HR; [done|].
  destruct (grown_counted g l1 ((q, b) :: l2) st p H Hct Hc) as [Hct1 (q' & Eq & Hq0 & Hqb & Hc2)]. subst q'.
  assert (beside (write_cells (grow g <$> l1) st) L R) as HR1.
  { eapply beside_same; [|exact HR]. intros a. apply write_cells_dom with l1; [apply fst_grow|].
    by apply chain_links in Hc as [_ [? _]%stored_app]. }
  set (st1 := write_cells _ st) in *. set (c := with_next 0 (shrunk rem b)).
  pose proof (chain_nodup _ _ _ Hc) as Hnd. rewrite fmap_app in Hnd. apply NoDup_app in Hnd as (_ & _ & [Hq _]%NoDup_cons).
  assert (∀ s, <[q := c]> (unref l2 (<[q := shrunk rem b]> s)) = unref l2 (<[q := c]> s)) as ->.
  { intros s. by rewrite !unref_insert, insert_insert_eq. }
  assert (chain (<[q := c]> st1) (p_next b) l2) as Hc2' by by apply chain_insert.
  split.
  - eapply unref_counted; [exact Hc2'|]. apply counted_relink with b [] H; [done..| |by intros ?%elem_of_nil]. done.
  - apply (beside_unref _ _ _ (p_next b)); [done|]. apply (beside_insert _ _ _ _ b); [done|]. intros a. specialize (HR1 a).
    destruct (st1 !! a) eqn:Ea; [done|]. rewrite HL1; [done|]. intros ->. congruence.
Qed.
Lemma cut_exclusive st L l st' L' l' : cut_at st L l st' L' l' → exclusive l → exclusive l'.
Proof.
  intros [|g rem l1 q b l2 L1 -> HL1] Hx; [done|]. apply Forall_app in Hx as [Hx [Hq _]%Forall_cons].
  apply Forall_app. split; [by apply Forall_fmap|by apply Forall_singleton].
Qed.
Lemma cut_types st L l st' L' l' (P : pbuf_type → Prop) :
  cut_at st L l st' L' l' → Forall (λ c, P (p_type c.2)) l → Forall (λ c, P (p_type c.2)) l'.
Proof.
  intros [|g rem l1 q b l2 L1 -> HL1] Hx; [done|]. apply Forall_app in Hx as [Hx [Hq _]%Forall_cons].
  apply Forall_app. split; [by apply Forall_fmap|by apply Forall_singleton].
Qed.
Lemma cut_first st L p b l st' L' l' :
  cut_at st L ((p, b) :: l) st' L' l' → ∃ b' k, l' = (p, b') :: k ∧ p_payload b' = p_payload b ∧ p_type b' = p_type b.
Proof. intros [|g rem [|c l1] q d l2 L1 E HL1]; [by exists b, l|injection E as <- <- <-; by eexists _, _|injection E as <- ->; by eexists _, _]. Qed.

Lemma cut_length st L l st' L' l' : cut_at st L l st' L' l' → (length l' ≤ length l)%nat.
Proof.
  intros [|g rem l1 q b l2 L1 -> _]; [done|]. unfold realloc_cells. rewrite !length_app, length_fmap. cbn. lia.
Qed.

Lemma pbuf_realloc_held (s : pbufs_state A) R H p l n :
  held_ok s R ({[+ p +]} ⊎ H) → packet (pb_store s) p l → exclusive l → is_u16 n →
  ∃ s' L L' l', pbuf_realloc p n s = Ok (tt, s') ∧ held_ok s' R ({[+ p +]} ⊎ H) ∧ packet (pb_store s') p l' ∧
    pb_data s' = pb_data s ∧ contents (pb_data s) l' = take (Z.to_nat n) (contents (pb_data s) l) ∧ exclusive l' ∧
    cut_at (pb_store s) L l (pb_store s') L' l' ∧ kept_packets H (pb_store s) (pb_store s').
Proof.
  intros [(L & Hok & HR) Hct] Hpk Hx Hn. pose proof (pk_chain _ _ _ Hpk) as Hc.
  destruct (pbuf_realloc_ok s L p l n Hok Hpk (chain_pos _ _ _ _ Hct Hc) Hn) as (s' & L' & l' & E & Hok' & Hpk' & Ed & Ec & Hf & Hcut).
  destruct (cut_counted _ _ _ _ _ _ _ R _ Hcut Hc Hct HR) as [Hct' HR'].
  exists s', L, L', l'. split; [exact E|]. split; [split; [by exists L'|done]|]. do 3 (split; [done|]).
  split; [by eapply cut_exclusive|]. split; [done|]. intros h k Hh Hk. exists k. split; [|done].
  apply (chain_frame (pb_store s)); [|done]. intros a Ha. apply Hf. intros Hin.
  by apply (exclusive_disjoint (pb_store s) {[+ p +]} H p l h k Hct ltac:(held_in) Hc Hx Hh Hk a).
Qed.

(** Moving the payload of such a packet leaves the others as they are. *)
Lemma pbuf_header_held (s : pbufs_state A) R H q b l inc :
  held_ok s R ({[+ q +]} ⊎ H) → packet (pb_store s) q ((q, b) :: l) → p_ref b = 1 →
  - 2 ^ 15 ≤ inc < 2 ^ 15 → - inc ≤ p_len b → total_len ((q, b) :: l) + inc < 2 ^ 16 →
  if decide (has_room inc q b) then
    let s' := Pbufs (<[q := moved inc b]> (pb_store s)) (pb_data s) (pb_alloc s) in
    pbuf_header q inc s = Ok (0, s') ∧ held_ok s' R ({[+ q +]} ⊎ H) ∧ packet (pb_store s') q ((q, moved inc b) :: l) ∧
    kept_packets H (pb_store s) (pb_store s')
  else pbuf_header q inc s = Ok (1, s).
Proof.
  intros [(L & Hok & HR) Hct] Hpk Hr Hi Hlen Hfit.
  pose proof (pk_chain _ _ _ Hpk) as (_ & Hq0 & Hb & Hcl). destruct (pk_lens _ _ _ Hpk) as (Hb0 & Et & Hl). pose proof (lens_nonneg _ Hl).
  change (total_len ((q, b) :: l)) with (p_len b + total_len l) in Hfit.
  pose proof (pbuf_header_ok s L q b inc Hok Hb Hq0 Hi Hlen ltac:(unfold is_u16; lia) ltac:(unfold is_u16; lia)) as Hh.
  destruct (decide (has_room inc q b)) as [Hroom|Hroom]; [|done]. destruct Hh as [Hh Hok1]. cbv zeta in Hok1 |- *.
  pose proof (chain_nodup _ _ _ (pk_chain _ _ _ Hpk)) as Hnd. cbn in Hnd. apply NoDup_cons in Hnd as [Hql _].
  split; [exact Hh|]. split; [split; [exists L; split; [done|]; by apply beside_insert with b|by apply counted_fields with b]|].
  cbn [pb_store]. split.
  - assert (total_len ((q, moved inc b) :: l) = p_len b + inc + total_len l) as Ett by done.
    split; [|split; [|split; [|done]]|rewrite Ett; lia|done].
    + split; [done|]. split; [done|]. split; [apply lookup_insert_eq|]. by apply chain_insert.
    + change (p_len (moved inc b)) with (p_len b + inc). lia.
    + change (p_tot_len (moved inc b)) with (p_tot_len b + inc). change (p_len (moved inc b)) with (p_len b + inc). lia.
  - intros h k Hin Hk. exists k. split; [|done]. assert (h ≠ q) as Hhq.
    { intros ->. by apply (sole_held (pb_store s) {[+ q +]} H q b); [|held_in|..]. }
    apply chain_insert; [|done]. eapply (sole_chain _ _ q b h); [exact Hct|held_in|done..].
Qed.
End Header.

Section Uses.
Context {A : Type} {BA : BufAlloc A} {LA : BufAllocLaws A}.
Abbreviation config := (pbufs_state A * gmultiset Z)%type.

(** The operations on buffers, with the references they take and give. *)
Inductive use : config → config → Prop :=
  | use_alloc s H layer len type p s' :
      is_u16 len →
      (type = PBUF_RAM →
       LWIP_MEM_ALIGN_SIZE (SIZEOF_STRUCT_PBUF + header_offset layer) + LWIP_MEM_ALIGN_SIZE len ≤ 65532) →
      pbuf_alloc layer len type s = Ok (p, s') → use (s, H) (s', hold p H)
  | use_free s H p n s' :
      pbuf_free p s = Ok (n, s') → use (s, {[+ p +]} ⊎ H) (s', H)
  | use_ref s H p b s' :
      pb_store s !! p = Some b → p_ref b < 2 ^ 16 - 1 → pbuf_ref p s = Ok (tt, s') → use (s, H) (s', hold p H)
  | use_cat s H h t l k s' :
      packet (pb_store s) h l → packet (pb_store s) t k → l.*1 ## k.*1 → total_len l + total_len k < 2 ^ 16 →
      pbuf_cat h t s = Ok (tt, s') → use (s, {[+ t +]} ⊎ H) (s', H)
  | use_chain s H h t l bt k s' :
      packet (pb_store s) h l → packet (pb_store s) t ((t, bt) :: k) → l.*1 ## t :: k.*1 →
      total_len l + total_len ((t, bt) :: k) < 2 ^ 16 → p_ref bt < 2 ^ 16 - 1 →
      pbuf_chain h t s = Ok (tt, s') → use (s, {[+ t +]} ⊎ H) (s', {[+ t +]} ⊎ H)
  | use_dechain s H p b q c l r s' :
      packet (pb_store s) p ((p, b) :: (q, c) :: l) → (length l < 255)%nat →
      pbuf_dechain p s = Ok (r, s') → use (s, H) (s', H)
  | use_realloc s H p l n s' :
      packet (pb_store s) p l → is_u16 n → pbuf_realloc p n s = Ok (tt, s') → use (s, H) (s', H).

(** Both equations describe the same call. *)
Ltac same_result E E1 := rewrite E in E1; apply Ok_pair in E1 as [? ?]; subst.

Lemma use_keeps R x y : use x y → held_ok x.1 R x.2 → held_ok y.1 R y.2.
Proof.
  intros Hu Hok. destruct Hu as [s H layer len type p s' Hlen Hf E|s H p n s' E|s H p b s' Hb Hr E|
    s H h t l k s' Hl Hk Hd Hu E|s H h t l bt k s' Hl Hk Hd Hu Hr E|s H p b q c l r s' Hp Hn E|s H p l n s' Hp Hn E]; cbn [fst snd] in *.
  - destruct (pbuf_alloc_held _ _ _ layer len type Hok Hlen Hf) as (p1 & s1 & E1 & Hok1 & _). by same_result E E1.
  - destruct (pbuf_free_held _ _ _ _ Hok) as (n1 & s1 & E1 & Hok1 & _). by same_result E E1.
  - destruct (pbuf_ref_held _ _ _ _ _ Hok Hb Hr) as (s1 & E1 & Hok1 & _). by same_result E E1.
  - rewrite <-hold_ne in Hok
      by (destruct k as [|[t' bt] k]; [by destruct (pk_ne _ _ _ Hk)|]; by destruct (pk_chain _ _ _ Hk) as (-> & ? & _)).
    destruct (pbuf_cat_held _ _ _ _ _ _ _ Hok Hl Hk Hd Hu) as (s1 & E1 & Hok1 & _). by same_result E E1.
  - destruct (pbuf_chain_held _ _ _ _ _ _ _ _ Hok Hl Hk Hd Hu Hr) as (s1 & E1 & Hok1). by same_result E E1.
  - destruct (pbuf_dechain_held _ _ _ _ _ _ _ _ Hok Hp Hn) as (r1 & s1 & E1 & Hok1). by same_result E E1.
  - destruct Hok as [(L & Hok & HR) Hct]. pose proof (pk_chain _ _ _ Hp) as Hc.
    destruct (pbuf_realloc_ok s L p l n Hok Hp (chain_pos _ _ _ _ Hct Hc) Hn) as (s1 & L' & l' & E1 & Hok' & _ & _ & _ & _ & Hcut).
    same_result E E1. destruct (cut_counted _ _ _ _ _ _ _ R _ Hcut Hc Hct HR). split; [by exists L'|done].
Qed.

(** C21.  Reference counts are exact.  Whatever sequence of allocations,
    releases, references, concatenations, cuts and splits the program makes, the
    count of every buffer is the number of references held to it and of
    buffers that point to it; every buffer is reached from a reference that is
    held, so none is lost; giving up any reference succeeds and leaves the
    packets behind the others as they are; and when no reference is left
    there is no buffer, and the allocators have all their memory back. *)
Theorem references_exact s0 R H0 s H :
  held_ok s0 R H0 → rtc use (s0, H0) (s, H) →
  (∀ a b, pb_store s !! a = Some b → p_ref b = references (pb_store s) H a) ∧
  (∀ a b, pb_store s !! a = Some b → ∃ h l, h ∈ H ∧ chain (pb_store s) h l ∧ a ∈ l.*1) ∧
  (∀ p H', H = {[+ p +]} ⊎ H' → ∃ n s', pbuf_free p s = Ok (n, s') ∧ held_ok s' R H' ∧
     pb_data s' = pb_data s ∧ kept_packets H' (pb_store s) (pb_store s')) ∧
  (H = ∅ → pb_store s = ∅ ∧ live (pb_alloc s) R).
Proof.
  intros Hok Hrun. assert (held_ok s R H) as Hs.
  { change (held_ok (s, H).1 R (s, H).2). change (held_ok (s0, H0).1 R (s0, H0).2) in Hok.
    induction Hrun as [|x y z Hxy _ IH]; [done|]. by apply IH, (use_keeps R x). }
  pose proof (ho_refs _ _ _ Hs) as Hct. split; [intros a b Hb; by apply (ct_ref _ _ Hct)|].
  split; [intros a b; by apply reached|]. split.
  - intros p H' ->. destruct (pbuf_free_held _ _ _ _ Hs) as (n & s' & E & Hok' & Ed & _ & Hk). by exists n, s'.
  - intros ->. assert (pb_store s = ∅) as Est.
    { apply map_eq. intros a. rewrite lookup_empty. destruct (pb_store s !! a) as [b|] eqn:Hb; [|done].
      destruct (reached _ _ _ _ Hct Hb) as (h & _ & Hh & _). multiset_solver. }
    split; [done|]. destruct (ho_ok _ _ _ Hs) as (L & [Hlive _] & HR). replace R with L; [done|].
    apply map_eq. intros a. specialize (HR a). by rewrite Est, lookup_empty in HR.
Qed.
End Uses.

(** ** The two packets, one of them released *)

Lemma counted_empty : counted ∅ ∅.
Proof.
  split; [by intros a b ?%lookup_empty_Some|done|intros a; multiset_solver|].
  intros a [b Hb]. by apply lookup_empty_Some in Hb.
Qed.

Lemma demo_held : held_ok demo ∅ ({[+ demo_p +]} ⊎ {[+ demo_q +]}).
Proof.
  split.
  - exists demo_live. split; [apply demo_ok|]. intros a. unfold demo, demo_live. cbn [pb_store].
    destruct (decide (a = demo_q)) as [->|Hq]; [by rewrite lookup_insert_eq|]. rewrite !(lookup_insert_ne _ demo_q) by done.
    destruct (decide (a = demo_p)) as [->|Hp]; [by rewrite lookup_singleton_eq|]. by rewrite !lookup_singleton_ne by done.
  - assert (counted {[demo_p := demo_buf demo_p 84]} (hold demo_p ∅)) as Hp by (by apply counted_put; [apply counted_empty|..]).
    assert (counted (pb_store demo) (hold demo_q (hold demo_p ∅))) as Hq by (by apply counted_put).
    replace ({[+ demo_p +]} ⊎ {[+ demo_q +]}) with (hold demo_q (hold demo_p ∅)); [done|].
    rewrite !hold_ne by done. multiset_solver.
Qed.

Lemma references_exact_witness :
  ∃ n s', pbuf_free demo_p demo = Ok (n, s') ∧
    ∀ a b, pb_store s' !! a = Some b → p_ref b = references (pb_store s') {[+ demo_q +]} a.
Proof.
  destruct (pbuf_free_held demo ∅ {[+ demo_q +]} demo_p demo_held) as (n & s' & E & _). exists n, s'. split; [exact E|].
  exact (proj1 (references_exact demo ∅ ({[+ demo_p +]} ⊎ {[+ demo_q +]}) s' {[+ demo_q +]} demo_held
    (rtc_once _ _ (use_free demo {[+ demo_q +]} demo_p n s' E)))).
Defined.
