(* ===== verification/PbufChksum.v ===== *)
(** * Checksums of packets ([src/lwip/core/ipv4/inet_chksum.c])

    The Internet checksum of a chain of buffers, which may each have an odd
    number of octets, and of a chain behind the pseudo header of UDP and TCP.
    It is the checksum of the contents, whatever the buffers are. *)

From S2P Require Import Prelude LwipBase IpAddr InetChksum Heap Memp Pbuf PbufChain PbufLinks PbufData PbufAlloc PbufClaims.
From Stdlib Require Import ZArith Lia.
From stdpp Require Import base numbers list gmap.
Open Scope Z_scope.

(** ** Operations *)

Section Operations.
Context {A : Type} `{BufAlloc A}.
Abbreviation PM := (M (pbufs_state A)).

(** One buffer: the sum is folded, and turned round after an odd number of
    octets. *)
Definition chksum_step (acc swapped : Z) (data : list Z) (len : Z) : Z * Z :=
  let acc := u32 (acc + lwip_standard_chksum data) in
  let acc := u32 (FOLD_U32T acc) in
  if negb (len mod 2 =? 0) then (SWAP_BYTES_IN_WORD acc, 1 - swapped) else (acc, swapped).

Fixpoint chksum_pbufs (fuel : nat) (q acc swapped : Z) : PM Z :=
  match fuel with
  | O => spin
  | S fuel =>
     if q =? 0 then mret (if negb (swapped =? 0) then SWAP_BYTES_IN_WORD acc else acc)
     else
       b ← get_pbuf q;
       data ← load_octets (p_payload b) (p_len b);
       let '(acc, swapped) := chksum_step acc swapped data (p_len b) in
       chksum_pbufs fuel (p_next b) acc swapped
  end.

Definition inet_chksum_pbuf (p : Z) : PM Z :=
  fuel ← gets pbuf_fuel;
  acc ← chksum_pbufs fuel p 0 0;
  mret (u16 (unot 32 (Z.land acc 0xffff))).

(** The pseudo header added to the sum. *)
Definition pseudo_finish (acc src dest proto proto_len : Z) : Z :=
  let acc := u32 (acc + Z.land src 0xffff) in
  let acc := u32 (acc + Z.land (Z.shiftr src 16) 0xffff) in
  let acc := u32 (acc + Z.land dest 0xffff) in
  let acc := u32 (acc + Z.land (Z.shiftr dest 16) 0xffff) in
  let acc := u32 (acc + lwip_htons (u16 proto)) in
  let acc := u32 (acc + lwip_htons proto_len) in
  let acc := u32 (FOLD_U32T acc) in
  let acc := u32 (FOLD_U32T acc) in
  u16 (unot 32 (Z.land acc 0xffff)).

Definition inet_chksum_pseudo (p src dest proto proto_len : Z) : PM Z :=
  fuel ← gets pbuf_fuel;
  acc ← chksum_pbufs fuel p 0 0;
  mret (pseudo_finish acc src dest proto proto_len).

Fixpoint chksum_partial (fuel : nat) (q acc swapped chksum_len : Z) : PM Z :=
  match fuel with
  | O => spin
  | S fuel =>
     if negb (q =? 0) && (0 <? chksum_len) then
       b ← get_pbuf q;
       let chklen := if chksum_len <? p_len b then chksum_len else p_len b in
       data ← load_octets (p_payload b) chklen;
       let chksum_len := u16 (chksum_len - chklen) in
       LWIP_ASSERT (chksum_len <? 0x7fff);;
       let '(acc, swapped) := chksum_step acc swapped data (p_len b) in
       chksum_partial fuel (p_next b) acc swapped chksum_len
     else mret (if negb (swapped =? 0) then SWAP_BYTES_IN_WORD acc else acc)
  end.

Definition inet_chksum_pseudo_partial (p src dest proto proto_len chksum_len : Z) : PM Z :=
  fuel ← gets pbuf_fuel;
  acc ← chksum_partial fuel p 0 0 chksum_len;
  mret (pseudo_finish acc src dest proto proto_len).

(** Copying and summing in one go: the octets are copied, then summed where
    they arrived. *)
Definition lwip_chksum_copy (dst src len : Z) : PM Z :=
  l ← load_octets src len;
  store_octets dst l;;
  l ← load_octets dst len;
  mret (lwip_standard_chksum l).

(** The result, and what is stored through [chksum]. *)
Definition pbuf_fill_chksum (p start_offset dataptr len chksum : Z) : PM (Z * Z) :=
  LWIP_ASSERT (negb (p =? 0));;
  LWIP_ASSERT (negb (dataptr =? 0));;
  LWIP_ASSERT (negb (len =? 0));;
  b ← get_pbuf p;
  if (p_len b <=? start_offset) || (p_len b <? start_offset + len) then mret (ERR_ARG, chksum)
  else
    let dst_ptr := p_payload b + start_offset in
    copy_chksum ← lwip_chksum_copy dst_ptr dataptr len;
    let copy_chksum := if negb (Z.land start_offset 1 =? 0) then u16 (SWAP_BYTES_IN_WORD copy_chksum) else copy_chksum in
    let acc := u32 (chksum + copy_chksum) in
    mret (ERR_OK, u16 (FOLD_U32T acc)).
End Operations.

(** ** Sums of pieces *)

(** What the loop holds after the octets [d]: their sum, turned round when
    their number is odd. *)
Definition parity (d : list Z) : Z := Z.of_nat (length d) mod 2.
Definition partial_sum (d : list Z) : Z := oc (2 ^ (8 * parity d) * le_word d).

Lemma parity_cases d : parity d = 0 ∨ parity d = 1.
Proof. unfold parity. pose proof (Z.mod_pos_bound (Z.of_nat (length d)) 2). lia. Qed.

Lemma fold_sum a b : 0 ≤ a → 0 ≤ b → u32 (FOLD_U32T (u32 (oc a + oc b))) = oc (a + b).
Proof.
  intros Ha Hb. pose proof (oc_u16 a) as [? ?]. pose proof (oc_u16 b) as [? ?].
  rewrite (u32_small (oc a + oc b)) by cint.
  assert (0 ≤ FOLD_U32T (oc a + oc b) ≤ 65535) as Hf.
  { rewrite FOLD_value by lia. change (2 ^ 16) with 65536 in *. Z.to_euclidean_division_equations; lia. }
  rewrite u32_small by cint. rewrite <-(oc_small (FOLD_U32T _)) by (unfold is_u16; lia).
  rewrite FOLD_oc, oc_add_l, Z.add_comm, oc_add_l by lia. f_equal. lia.
Qed.

(** The sum of [d ++ c], in the orientation of [d]. *)
Lemma weigh d c :
  bytes_ok d → bytes_ok c →
  oc (2 ^ (8 * parity d) * le_word d + le_word c) = oc (2 ^ (8 * parity d) * le_word (d ++ c)).
Proof.
  intros Hd Hc. pose proof (le_word_nonneg _ Hd). pose proof (le_word_nonneg _ Hc). rewrite le_word_app.
  pose proof (parity_cases d) as Hp. unfold parity in *. set (n := Z.of_nat (length d)) in *.
  rewrite Z.mul_add_distr_l, Z.mul_assoc, <-Z.pow_add_r by lia.
  replace (8 * (n mod 2) + 8 * n) with (16 * (n / 2 + n mod 2)) by (pose proof (Z.div_mod n 2); lia).
  rewrite oc_pow16; [done| |done|]; [apply Z.mul_nonneg_nonneg; [apply Z.pow_nonneg|]; lia|].
  pose proof (Z.div_pos n 2). lia.
Qed.

Lemma turn k x : 0 ≤ x → k = 0 ∨ k = 1 → SWAP_BYTES_IN_WORD (oc (2 ^ (8 * k) * x)) = oc (2 ^ (8 * (1 - k)) * x).
Proof.
  intros Hx Hk. rewrite SWAP_oc by (apply Z.mul_nonneg_nonneg; [apply Z.pow_nonneg|]; lia).
  destruct Hk as [-> | ->]; [f_equal; lia|]. change (2 ^ (8 * 1)) with (2 ^ 8). change (2 ^ (8 * (1 - 1))) with 1.
  rewrite oc_swap_twice by done. f_equal. lia.
Qed.

(** What is left to do at the end. *)
Definition finish (acc swapped : Z) : Z := if negb (swapped =? 0) then SWAP_BYTES_IN_WORD acc else acc.

Lemma finish_sum k x : 0 ≤ x → k = 0 ∨ k = 1 → finish (oc (2 ^ (8 * k) * x)) k = oc x.
Proof.
  intros Hx Hk. unfold finish. destruct Hk as [-> | ->]; cbn [Z.eqb negb]; [f_equal; lia|].
  rewrite turn by auto. f_equal. lia.
Qed.

Lemma chksum_step_ok d c len :
  bytes_ok d → bytes_ok c → Z.of_nat (length c) < 2 ^ 16 → 0 ≤ len →
  ∃ k, (k = 0 ∨ k = 1) ∧
    chksum_step (partial_sum d) (parity d) c len = (oc (2 ^ (8 * k) * le_word (d ++ c)), k) ∧
    (len = Z.of_nat (length c) → k = parity (d ++ c)).
Proof.
  intros Hd Hc Hlen Hl. pose proof (parity_cases d) as Hp.
  pose proof (le_word_nonneg _ Hd). pose proof (le_word_nonneg _ Hc).
  pose proof (le_word_nonneg _ (bytes_ok_app _ _ Hd Hc)).
  unfold chksum_step, partial_sum. rewrite lwip_standard_chksum_oc by done.
  assert (0 ≤ 2 ^ (8 * parity d) * le_word d) by (apply Z.mul_nonneg_nonneg; [apply Z.pow_nonneg|]; lia).
  rewrite fold_sum, weigh by done.
  destruct (Z.eqb_spec (len mod 2) 0) as [E|E]; cbn [negb].
  - exists (parity d). split; [done|]. split; [done|]. intros ->. unfold parity. rewrite length_app, Nat2Z.inj_add.
    rewrite <-Z.add_mod_idemp_r, E, Z.add_0_r by lia. done.
  - exists (1 - parity d). split; [lia|]. rewrite turn by done. split; [done|]. intros ->.
    unfold parity in *. rewrite length_app, Nat2Z.inj_add. Z.to_euclidean_division_equations; lia.
Qed.

Lemma bytes_ok_read m a n k : bytes_ok (mem_read m a n) → (k ≤ n)%nat → bytes_ok (mem_read m a k).
Proof. intros Hm Hk. rewrite <-(mem_read_take m a n k Hk). by apply Forall_take. Qed.

Section Chksum.
Context {A : Type} `{BufAllocLaws A}.
Implicit Types (s : pbufs_state A).

Lemma load_octets_step {B} a n (k : list Z → M (pbufs_state A) B) s :
  (load_octets a n ≫= k) s = k (mem_read (pb_data s) a (Z.to_nat n)) s.
Proof. done. Qed.

Lemma chksum_pbufs_ok fuel l q d s :
  chain (pb_store s) q l → lens_ok l → total_len l < 2 ^ 16 → (length l < fuel)%nat →
  bytes_ok d → bytes_ok (contents (pb_data s) l) →
  chksum_pbufs fuel q (partial_sum d) (parity d) s = Ok (oc (le_word (d ++ contents (pb_data s) l)), s).
Proof.
  revert fuel q d. induction l as [|[a b] l IH]; intros [|fuel] q d Hc Hl Hu Hf Hd Hok; simpl in Hf; try lia.
  { simpl in Hc. subst q. cbn [contents]. rewrite app_nil_r. cbn [chksum_pbufs Z.eqb]. unfold mret, M_ret. do 2 f_equal.
    apply finish_sum; [by apply le_word_nonneg|apply parity_cases]. }
  destruct Hc as (-> & Ha & Hb & Hc). destruct Hl as (Hb0 & _ & Hl). pose proof (lens_nonneg _ Hl).
  cbn [contents total_len snd] in *. apply Forall_app in Hok as [Hok1 Hok2]. cbn [chksum_pbufs].
  rewrite (proj2 (Z.eqb_neq _ _) Ha), (get_pbuf_step _ _ _ _ Hb), load_octets_step.
  change (mem_read (pb_data s) (p_payload b) (Z.to_nat (p_len b))) with (cell_data (pb_data s) (a, b)).
  pose proof (length_cell_data (pb_data s) (a, b) Hb0) as Hlen. cbn [snd] in Hlen.
  destruct (chksum_step_ok d (cell_data (pb_data s) (a, b)) (p_len b) Hd Hok1) as (k & Hk & -> & Ek); [lia|done|].
  rewrite (Ek (eq_sym Hlen)). fold (partial_sum (d ++ cell_data (pb_data s) (a, b))).
  rewrite IH by (done || lia || by apply bytes_ok_app). by rewrite app_assoc.
Qed.

Lemma chksum_partial_ok fuel l q d n s :
  chain (pb_store s) q l → lens_ok l → total_len l < 2 ^ 16 → (length l < fuel)%nat → 0 ≤ n < 0x7fff →
  bytes_ok d → bytes_ok (contents (pb_data s) l) →
  chksum_partial fuel q (partial_sum d) (parity d) n s =
    Ok (oc (le_word (d ++ take (Z.to_nat n) (contents (pb_data s) l))), s).
Proof.
  revert fuel q d n. induction l as [|[a b] l IH]; intros [|fuel] q d n Hc Hl Hu Hf Hn Hd Hok; simpl in Hf; try lia.
  { simpl in Hc. subst q. cbn [contents]. rewrite take_nil, app_nil_r. cbn [chksum_partial Z.eqb negb andb].
    unfold mret, M_ret. do 2 f_equal. apply finish_sum; [by apply le_word_nonneg|apply parity_cases]. }
  destruct Hc as (-> & Ha & Hb & Hc). destruct Hl as (Hb0 & _ & Hl). pose proof (lens_nonneg _ Hl).
  cbn [contents total_len snd] in *. apply Forall_app in Hok as [Hok1 Hok2]. cbn [chksum_partial].
  rewrite (proj2 (Z.eqb_neq _ _) Ha). cbn [negb andb]. destruct (Z.ltb_spec 0 n) as [Hpos|Hz].
  2:{ assert (n = 0) as -> by lia. change (Z.to_nat 0) with 0%nat. rewrite take_0, app_nil_r.
      unfold mret, M_ret. do 2 f_equal. apply finish_sum; [by apply le_word_nonneg|apply parity_cases]. }
  rewrite (get_pbuf_step _ _ _ _ Hb). cbv zeta. rewrite load_octets_step.
  pose proof (length_cell_data (pb_data s) (a, b) Hb0) as Hlen. cbn [snd] in Hlen.
  destruct (Z.ltb_spec n (p_len b)) as [Hpart|Hfull].
  - rewrite Z.sub_diag. change (u16 0) with 0. rewrite assert_true by done.
    set (c := mem_read (pb_data s) (p_payload b) (Z.to_nat n)).
    assert (bytes_ok c) as Hcok by (eapply bytes_ok_read; [exact Hok1|simpl; lia]).
    assert (length c = Z.to_nat n) as Hcl by apply length_mem_read.
    destruct (chksum_step_ok d c (p_len b) Hd Hcok) as (k & Hk & -> & _); [lia|done|].
    destruct fuel as [|fuel]; [lia|]. cbn [chksum_partial]. rewrite andb_false_r. unfold mret, M_ret. do 2 f_equal.
    rewrite take_app_le by lia. unfold cell_data. cbn [snd]. rewrite mem_read_take by lia.
    apply finish_sum; [apply le_word_nonneg; by apply bytes_ok_app|done].
  - rewrite u16_small by cint. rewrite assert_true by (apply Z.ltb_lt; lia).
    change (mem_read (pb_data s) (p_payload b) (Z.to_nat (p_len b))) with (cell_data (pb_data s) (a, b)).
    destruct (chksum_step_ok d (cell_data (pb_data s) (a, b)) (p_len b) Hd Hok1) as (k & Hk & -> & Ek); [lia|done|].
    rewrite (Ek (eq_sym Hlen)). fold (partial_sum (d ++ cell_data (pb_data s) (a, b))).
    rewrite IH by (done || lia || by apply bytes_ok_app). rewrite take_app_ge by lia.
    replace (Z.to_nat n - length _)%nat with (Z.to_nat (n - p_len b)) by lia. by rewrite app_assoc.
Qed.
End Chksum.

(** ** Filling a buffer *)

Section Fill.
Context {A : Type} `{BufAllocLaws A}.
Implicit Types (s : pbufs_state A).

Lemma land_1 x : 0 ≤ x → Z.land x 1 = x mod 2.
Proof. intros. change 1 with (Z.ones 1). by rewrite Z.land_ones by lia. Qed.

Lemma join_sum d c :
  bytes_ok d → bytes_ok c → oc (le_word d + 2 ^ (8 * parity d) * le_word c) = oc (le_word (d ++ c)).
Proof.
  intros Hd Hc. pose proof (le_word_nonneg _ Hd). pose proof (le_word_nonneg _ Hc). rewrite le_word_app.
  pose proof (parity_cases d) as Hp. unfold parity in *. set (n := Z.of_nat (length d)) in *.
  replace (8 * n) with (16 * (n / 2) + 8 * (n mod 2)) by (pose proof (Z.div_mod n 2); lia).
  pose proof (Z.div_pos n 2). rewrite Z.pow_add_r, <-Z.mul_assoc by lia.
  rewrite oc_pow16; [done|done| |lia]. apply Z.mul_nonneg_nonneg; [apply Z.pow_nonneg|]; lia.
Qed.

Lemma fold_u16 a b : 0 ≤ a → 0 ≤ b → u16 (FOLD_U32T (u32 (oc a + oc b))) = oc (a + b).
Proof.
  intros Ha Hb. pose proof (fold_sum a b Ha Hb) as E. pose proof (oc_u16 a) as [? ?]. pose proof (oc_u16 b) as [? ?].
  rewrite (u32_small (oc a + oc b)) in * by cint.
  assert (0 ≤ FOLD_U32T (oc a + oc b) ≤ 65535) as Hf.
  { rewrite FOLD_value by lia. change (2 ^ 16) with 65536 in *. Z.to_euclidean_division_equations; lia. }
  rewrite u32_small in E by cint. by rewrite u16_small by (unfold is_u16; lia).
Qed.

(** [pbuf_fill_chksum] on a buffer that holds [start_offset] octets whose sum
    is [chksum]: it then holds the new octets behind them, with their common
    sum. *)
Lemma pbuf_fill_chksum_ok s p b start_offset d len :
  pb_store s !! p = Some b → p ≠ 0 → d ≠ 0 → 0 ≤ start_offset → 0 < len → start_offset + len ≤ p_len b < 2 ^ 16 →
  (d + len ≤ p_payload b ∨ p_payload b + p_len b ≤ d) →
  let pre := mem_read (pb_data s) (p_payload b) (Z.to_nat start_offset) in
  let new := mem_read (pb_data s) d (Z.to_nat len) in
  bytes_ok pre → bytes_ok new →
  ∃ s', pbuf_fill_chksum p start_offset d len (oc (le_word pre)) s = Ok ((ERR_OK, oc (le_word (pre ++ new))), s') ∧
    mem_read (pb_data s') (p_payload b) (Z.to_nat (start_offset + len)) = pre ++ new ∧ pb_store s' = pb_store s.
Proof.
  intros Hb Hp Hd Hso Hlen Hfit Hclear pre new Hpre Hnew. unfold pbuf_fill_chksum.
  rewrite assert_true by (by rewrite (proj2 (Z.eqb_neq _ _) Hp)).
  rewrite assert_true by (by rewrite (proj2 (Z.eqb_neq _ _) Hd)).
  rewrite assert_true by (rewrite (proj2 (Z.eqb_neq len 0)) by lia; done).
  rewrite (get_pbuf_step _ _ _ _ Hb), (proj2 (Z.leb_gt _ _)), (proj2 (Z.ltb_ge _ _)) by lia. cbn [orb]. cbv zeta.
  set (m' := mem_write (pb_data s) (p_payload b + start_offset) new).
  assert (length new = Z.to_nat len) as Hnl by apply length_mem_read.
  assert (length pre = Z.to_nat start_offset) as Hpl by apply length_mem_read.
  assert (mem_read m' (p_payload b + start_offset) (Z.to_nat len) = new) as En by (by apply mem_write_read).
  rewrite (bind_ok (lwip_chksum_copy _ _ _) _ s (lwip_standard_chksum new) (Pbufs (pb_store s) m' (pb_alloc s))).
  2:{ unfold lwip_chksum_copy. rewrite load_octets_step. fold new.
      change ((load_octets (p_payload b + start_offset) len ≫= λ l, mret (lwip_standard_chksum l))
        (Pbufs (pb_store s) m' (pb_alloc s)) = Ok (lwip_standard_chksum new, Pbufs (pb_store s) m' (pb_alloc s))).
      rewrite load_octets_step. cbn [pb_data]. by rewrite En. }
  rewrite lwip_standard_chksum_oc by (done || lia).
  pose proof (le_word_nonneg _ Hpre). pose proof (le_word_nonneg _ Hnew).
  exists (Pbufs (pb_store s) m' (pb_alloc s)). split; [|split; [|done]].
  - unfold mret, M_ret. do 4 f_equal. rewrite land_1 by done.
    replace (start_offset mod 2) with (parity pre) by (unfold parity; f_equal; lia).
    rewrite <-join_sum by done. pose proof (parity_cases pre) as Hk.
    assert (0 ≤ 2 ^ (8 * parity pre) * le_word new) by (apply Z.mul_nonneg_nonneg; [apply Z.pow_nonneg|]; lia).
    rewrite <-fold_u16 by done. do 4 f_equal.
    destruct Hk as [-> | ->]; cbn [Z.eqb negb]; [f_equal; lia|].
    rewrite SWAP_oc by done. by rewrite u16_small by apply oc_u16.
  - cbn [pb_data]. rewrite Z2Nat.inj_add, mem_read_app, Z2Nat.id, En by lia. f_equal.
    apply mem_read_ext. intros x Hx. apply mem_write_outside. lia.
Qed.
End Fill.

(** ** The pseudo header *)

Definition pseudo_header (src dest proto proto_len : Z) : list Z :=
  le_bytes 4 src ++ le_bytes 4 dest ++ [0; proto; proto_len / 2 ^ 8; proto_len mod 2 ^ 8].

Lemma complement x : is_u16 x → u16 (unot 32 (Z.land x 0xffff)) = 65535 - x.
Proof.
  intros Hx. change (Z.land x 0xffff) with (Z.land x (Z.ones 16)). rewrite Z.land_ones by lia.
  rewrite Z.mod_small by exact Hx.
  rewrite unot_value by cint. unfold u16, is_u16 in *.
  symmetry. apply (Z.mod_unique_pos _ _ 65535); lia.
Qed.

(** Six words, one's complement. *)
Lemma oc_six x a b c d e f :
  0 ≤ x → 0 ≤ a → 0 ≤ b → 0 ≤ c → 0 ≤ d → 0 ≤ e → 0 ≤ f →
  oc (x + (a + 2 ^ 16 * (b + 2 ^ 16 * (c + 2 ^ 16 * (d + 2 ^ 16 * (e + 2 ^ 16 * f)))))) = oc (x + (a + b + c + d + e + f)).
Proof.
  intros. rewrite Z.add_assoc, oc_wrap, Z.add_assoc, oc_wrap, Z.add_assoc, oc_wrap, Z.add_assoc, oc_wrap, Z.add_assoc, oc_wrap
    by lia. f_equal. lia.
Qed.

Lemma low_high x : is_u32 x → Z.land x 0xffff = x mod 2 ^ 16 ∧ Z.land (Z.shiftr x 16) 0xffff = x / 2 ^ 16.
Proof.
  intros Hx. change 0xffff with (Z.ones 16). rewrite !Z.land_ones, Z.shiftr_div_pow2 by lia. split; [done|].
  apply Z.mod_small. cint.
Qed.

Lemma pseudo_finish_ok data src dest proto proto_len :
  is_u32 src → is_u32 dest → is_u8 proto → is_u16 proto_len → bytes_ok data →
  pseudo_finish (oc (le_word data)) src dest proto proto_len =
    65535 - oc (le_word (pseudo_header src dest proto proto_len ++ data)).
Proof.
  intros Hs Hd Hp Hl Hdata. pose proof (le_word_nonneg _ Hdata) as Hx. set (x := le_word data) in *.
  unfold pseudo_finish. destruct (low_high src Hs) as [-> ->]. destruct (low_high dest Hd) as [-> ->].
  rewrite (u16_small proto) by cint. rewrite !htons_swap, !SWAP_value by cint.
  set (s0 := src mod 2 ^ 16). set (s1 := src / 2 ^ 16). set (d0 := dest mod 2 ^ 16). set (d1 := dest / 2 ^ 16).
  set (w1 := 2 ^ 8 * (proto mod 2 ^ 8) + proto / 2 ^ 8). set (w2 := 2 ^ 8 * (proto_len mod 2 ^ 8) + proto_len / 2 ^ 8).
  assert (is_u16 s0 ∧ is_u16 s1 ∧ is_u16 d0 ∧ is_u16 d1 ∧ is_u16 w1 ∧ is_u16 w2) as (H1 & H2 & H3 & H4 & H5 & H6)
    by (repeat split; subst s0 s1 d0 d1 w1 w2; cint).
  pose proof (oc_u16 x) as Hox. 
  rewrite (u32_small (oc x + s0)), (u32_small (_ + s1)), (u32_small (_ + d0)), (u32_small (_ + d1)),
    (u32_small (_ + w1)), (u32_small (_ + w2)) by (unfold is_u16, is_u32 in *; lia).
  rewrite FOLD_twice by (unfold is_u16, is_u32 in *; lia). unfold is_u16 in *.
  rewrite complement by apply oc_u16. f_equal.
  replace (oc x + s0 + s1 + d0 + d1 + w1 + w2) with (oc x + (s0 + s1 + d0 + d1 + w1 + w2)) by lia.
  rewrite oc_add_l, <-oc_six by lia. rewrite le_word_app. unfold pseudo_header at 2.
  rewrite !length_app, !length_le_bytes. change (8 * Z.of_nat (4 + (4 + length [0; proto; proto_len / 2 ^ 8; proto_len mod 2 ^ 8])))
    with (16 * 6). fold x.
  assert (le_word (pseudo_header src dest proto proto_len) =
    s0 + 2 ^ 16 * (s1 + 2 ^ 16 * (d0 + 2 ^ 16 * (d1 + 2 ^ 16 * (w1 + 2 ^ 16 * w2))))) as E.
  { unfold pseudo_header. rewrite !le_word_app, !le_word_bytes, !length_le_bytes, !le_word_cons.
    change (le_word []) with 0. rewrite !Z.mod_small by (unfold is_u32 in *; simpl; lia).
    assert (src = s0 + 2 ^ 16 * s1) as Es by (subst s0 s1; cint).
    assert (dest = d0 + 2 ^ 16 * d1) as Ed by (subst d0 d1; cint).
    assert (w1 = 2 ^ 8 * proto) as E1 by (subst w1; cint).
    assert (w2 = proto_len / 2 ^ 8 + 2 ^ 8 * (proto_len mod 2 ^ 8)) as E2 by (subst w2; lia).
    rewrite Es, Ed, E1, E2.
    change (2 ^ (8 * Z.of_nat 4)) with (2 ^ 32). ring. }
  rewrite E, oc_pow16 by lia. f_equal. lia.
Qed.

Section Claims.
Context {A : Type} `{BufAllocLaws A}.
Implicit Types (s : pbufs_state A).

Lemma sum_start (p : Z) l s :
  packet (pb_store s) p l → bytes_ok (contents (pb_data s) l) →
  chksum_pbufs (pbuf_fuel s) p 0 0 s = Ok (oc (le_word (contents (pb_data s) l)), s).
Proof.
  intros [Hc Hl Hu _] Hok. pose proof (chain_size _ _ _ Hc).
  apply (chksum_pbufs_ok (pbuf_fuel s) l p [] s Hc Hl Hu); [unfold pbuf_fuel; lia|constructor|done].
Qed.

Lemma bytes_pseudo_header src dest proto proto_len : is_u8 proto → is_u16 proto_len → bytes_ok (pseudo_header src dest proto proto_len).
Proof.
  intros Hp Hl. unfold pseudo_header. repeat (apply bytes_ok_app; [apply le_bytes_ok|]).
  repeat (constructor; [by cint|]). constructor.
Qed.

Lemma chksum_pbuf_ok s p l :
  packet (pb_store s) p l → bytes_ok (contents (pb_data s) l) →
  inet_chksum_pbuf p s = Ok (inet_chksum (contents (pb_data s) l), s).
Proof.
  intros Hp Hok. pose proof (length_contents (pb_data s) _ (pk_lens _ _ _ Hp)). pose proof (pk_u16 _ _ _ Hp).
  unfold inet_chksum_pbuf. rewrite gets_bind, (bind_ok _ _ _ _ _ (sum_start p l s Hp Hok)).
  by rewrite inet_chksum_oc, complement by (apply oc_u16 || done || lia).
Qed.

Lemma chksum_pseudo_ok s p l src dest proto proto_len :
  packet (pb_store s) p l → bytes_ok (contents (pb_data s) l) → total_len l + 12 < 2 ^ 16 →
  is_u32 src → is_u32 dest → is_u8 proto → is_u16 proto_len →
  inet_chksum_pseudo p src dest proto proto_len s =
    Ok (inet_chksum (pseudo_header src dest proto proto_len ++ contents (pb_data s) l), s).
Proof.
  intros Hp Hok Hu Hs Hd Hpr Hl. pose proof (length_contents (pb_data s) _ (pk_lens _ _ _ Hp)).
  pose proof (bytes_pseudo_header src dest proto proto_len Hpr Hl) as Hh.
  assert (length (pseudo_header src dest proto proto_len) = 12%nat) as Hhl by done.
  unfold inet_chksum_pseudo. rewrite gets_bind, (bind_ok _ _ _ _ _ (sum_start p l s Hp Hok)).
  rewrite pseudo_finish_ok, inet_chksum_oc; try done; [by apply bytes_ok_app|]. rewrite length_app. lia.
Qed.

End Claims.

(** Three octets and two, and the same five octets. *)
Definition split_packet : pbufs_state allocators :=
  Pbufs {[demo_p := with_next demo_q (with_tot_len 7 (demo_buf demo_p 3)); demo_q := demo_buf demo_q 4]}
    (λ x, x mod 251) demo_alloc.
Definition split_cells : list cell :=
  [(demo_p, with_next demo_q (with_tot_len 7 (demo_buf demo_p 3))); (demo_q, demo_buf demo_q 4)].

