(* ===== verification/Netif.v ===== *)
(** * Network interfaces and what protocols share

    The part of [struct netif] that protocols read ([inc/lwip/lwip/netif.h]),
    the macros on addresses ([inc/lwip/ipv4/lwip/ip_addr.h]), the protocol
    statistics ([stats.h]), fields of headers in packet memory, and the driver's
    output function as an interface ([LinkOutput]). *)

From S2P Require Import Prelude LwipBase IpAddr Heap Memp Pbuf PbufChain PbufLinks PbufData PbufMake PbufAlloc PbufClaims PbufRefs.
From Stdlib Require Import ZArith Lia.
From stdpp Require Import base numbers gmultiset list gmap.
Open Scope Z_scope.

(** ** Interfaces *)

Definition NETIF_FLAG_DHCP : Z := 0x08.
Definition NETIF_FLAG_ETHARP : Z := 0x20.

(** Addresses are in network order. *)
Record netif := Netif {
  ni_ip_addr : Z;
  ni_netmask : Z;
  ni_gw : Z;
  ni_mtu : Z;
  ni_hwaddr_len : Z;
  ni_hwaddr : list Z;
  ni_flags : Z;
  ni_name : list Z;
  ni_num : Z }.

(** ** Addresses *)

Definition PP_HTONS (x : Z) : Z :=
  Z.lor (Z.shiftl (Z.land x 0xff) 8) (Z.shiftr (Z.land x 0xff00) 8).
Definition PP_HTONL (x : Z) : Z :=
  Z.lor (Z.lor (Z.lor (Z.shiftl (Z.land x 0xff) 24) (Z.shiftl (Z.land x 0xff00) 8))
    (Z.shiftr (Z.land x 0xff0000) 8)) (Z.shiftr (Z.land x 0xff000000) 24).

Definition ip_addr_isany (addr : Z) : bool := addr =? IPADDR_ANY.
Definition ip_addr_isbroadcast (addr : Z) (n : netif) : bool :=
  negb (ip4_addr_isbroadcast addr (ni_flags n) (ni_ip_addr n) (ni_netmask n) =? 0).
Definition ip_addr_ismulticast (addr : Z) : bool := Z.land addr (PP_HTONL 0xf0000000) =? PP_HTONL 0xe0000000.
Definition ip_addr_islinklocal (addr : Z) : bool := Z.land addr (PP_HTONL 0xffff0000) =? PP_HTONL 0xa9fe0000.
Definition ip_addr_netcmp (addr1 addr2 mask : Z) : bool := Z.land addr1 mask =? Z.land addr2 mask.

(** The octets of an address, as they are in memory. *)
Definition ip4_addr (i : nat) (addr : Z) : Z := (le_bytes 4 addr).[i].

(** ** Protocol statistics *)

Inductive counter :=
  | c_xmit | c_recv | c_fw | c_drop | c_chkerr | c_lenerr | c_memerr | c_rterr | c_proterr | c_opterr | c_err | c_cachehit.
#[export] Instance counter_eq : EqDecision counter.
Proof. solve_decision. Defined.

Definition stats_proto : Type := counter → Z.
Definition STATS_INC (x : counter) (s : stats_proto) : stats_proto :=
  λ y, if decide (x = y) then u16 (s y + 1) else s y.

(** ** Octets of headers *)

Section Fields.
Context {A : Type}.
Abbreviation PM := (M (pbufs_state A)).

Definition load16 (a : Z) : PM Z := l ← load_octets a 2; mret (le_word l).
Definition store16 (a v : Z) : PM unit := store_octets a (le_bytes 2 v).
Definition load32 (a : Z) : PM Z := l ← load_octets a 4; mret (le_word l).
Definition store32 (a v : Z) : PM unit := store_octets a (le_bytes 4 v).
Definition load8 (a : Z) : PM Z := l ← load_octets a 1; mret (le_word l).
Definition store8 (a v : Z) : PM unit := store_octets a (le_bytes 1 v).
End Fields.

(** ** Buffers with their own octets *)

Definition owns (b : pbuf) : Prop := p_type b = PBUF_RAM ∨ p_type b = PBUF_POOL.
Definition own_octets (l : list cell) : Prop := Forall (λ c, owns c.2) l.

Lemma owns_bares l k : bares l = bares k → own_octets l → own_octets k.
Proof.
  revert k. induction l as [|[a b] l IH]; intros [|[c d] k] E Hl; try done. cbn in E. injection E as _ _ _ _ _ Hty _ E'.
  apply Forall_cons in Hl as [Hb Hl]. constructor; [|exact (IH k E' Hl)]. unfold owns in *. simpl in *. by rewrite <-Hty.
Qed.

Section Octets.
Context {A : Type} {BA : BufAlloc A} {LA : BufAllocLaws A}.

(** The octets of a buffer lie in its memory. *)
Lemma owns_place (s : pbufs_state A) L p b :
  pbufs_ok s L → pb_store s !! p = Some b → owns b →
  ∃ k, L !! p = Some k ∧ p ≤ p_payload b ∧ p_payload b + p_len b ≤ p + place_size k.
Proof.
  intros Hs Hb Ho. pose proof (pb_bufs _ _ Hs _ _ Hb) as (_ & _ & _ & Hty). destruct Ho as [Ht|Ht]; rewrite Ht in Hty.
  - destruct Hty as (n & HL & H1 & H2). exists (InHeap n). rewrite sizeof_pbuf in H1. split; [done|]. cbn. lia.
  - destruct Hty as (HL & H1 & H2). exists (InPool MEMP_PBUF_POOL). rewrite sizeof_pbuf, bufsize_value in *. split; [done|].
    change (place_size (InPool MEMP_PBUF_POOL)) with 1532. lia.
Qed.
Lemma owns_apart (s : pbufs_state A) L p b q c :
  pbufs_ok s L → pb_store s !! p = Some b → pb_store s !! q = Some c → owns b → owns c → p ≠ q →
  p_payload c + p_len c ≤ p_payload b ∨ p_payload b + p_len b ≤ p_payload c.
Proof.
  intros Hs Hb Hc Hob Hoc Hne. destruct (owns_place _ _ _ _ Hs Hb Hob) as (k & Hk & ? & ?).
  destruct (owns_place _ _ _ _ Hs Hc Hoc) as (j & Hj & ? & ?).
  pose proof (live_apart _ _ _ _ _ _ (pb_live _ _ Hs) Hk Hj Hne). lia.
Qed.
Lemma owns_clear (s : pbufs_state A) L p b h l :
  pbufs_ok s L → pb_store s !! p = Some b → owns b → chain (pb_store s) h l → own_octets l → p ∉ l.*1 →
  clear_of (p_payload b) (p_payload b + p_len b) l.
Proof.
  intros Hs Hb Hob Hl Hol Hp. apply Forall_forall. intros [q c] Hin. simpl.
  apply (owns_apart s L p b q c Hs Hb (chain_lookup _ _ _ _ _ Hl Hin) Hob).
  - by apply (proj1 (Forall_forall _ _) Hol (q, c)).
  - intros ->. apply Hp. apply list_elem_of_fmap. by exists (q, c).
Qed.

(** The packets in [H] that own their octets keep them. *)
Definition kept_octets (H : gmultiset Z) (b b' : pbufs_state A) : Prop :=
  ∀ h l, h ∈ H → chain (pb_store b) h l → own_octets l → contents (pb_data b') l = contents (pb_data b) l.

Lemma kept_octets_same (H : gmultiset Z) (b b' : pbufs_state A) : pb_data b' = pb_data b → kept_octets H b b'.
Proof. intros E h l _ _ _. by rewrite E. Qed.
Lemma kept_octets_subset (H H' : gmultiset Z) (b b' : pbufs_state A) :
  (∀ a, a ∈ H' → a ∈ H) → kept_octets H b b' → kept_octets H' b b'.
Proof. intros Hs Hk h l Hh. apply Hk. auto. Qed.
Lemma kept_octets_trans (H : gmultiset Z) (b b1 b2 : pbufs_state A) :
  kept_packets H (pb_store b) (pb_store b1) → kept_octets H b b1 → kept_octets H b1 b2 → kept_octets H b b2.
Proof.
  intros Hk H1 H2 h l Hh Hl Ho. destruct (Hk h l Hh Hl) as (l' & Hl' & E).
  destruct (bares_packet l' l (pb_data b2) E) as (_ & _ & <-). rewrite (H2 h l' Hh Hl') by (by apply owns_bares with l).
  destruct (bares_packet l' l (pb_data b1) E) as (_ & _ & ->). by apply (H1 h).
Qed.

(** Octets written into a new buffer only. *)
Lemma extends_chain (b : pbufs_state A) L b1 L' p c h l :
  extends b L b1 L' [(p, c)] → chain (pb_store b) h l → (p ∉ l.*1) ∧ chain (pb_store b1) h l.
Proof.
  intros Hex Hl. assert (p ∉ l.*1) as Hp.
  { intros ([a d] & -> & Hin)%list_elem_of_fmap. destruct (ex_fresh _ _ _ _ _ Hex a) as [Hn _]; [by left|].
    simpl in *. by rewrite (chain_lookup _ _ _ _ _ Hl Hin) in Hn. }
  split; [done|]. apply chain_frame with (pb_store b); [|done]. intros a Ha. apply (ex_store _ _ _ _ _ Hex).
  by intros ->%list_elem_of_singleton.
Qed.
Lemma kept_octets_fresh (H : gmultiset Z) (b : pbufs_state A) L b1 L' p c b2 :
  extends b L b1 L' [(p, c)] → pb_store b1 !! p = Some c → owns c →
  changes (pb_data b) (pb_data b2) (p_payload c) (p_payload c + p_len c) → kept_octets H b b2.
Proof.
  intros Hex Hc Ho Hm h l _ Hl Hol. destruct (extends_chain _ _ _ _ _ _ _ _ Hex Hl) as [Hp Hl1].
  apply (contents_changes _ _ _ _ _ Hm). by apply (owns_clear b1 L' p c h l (ex_ok _ _ _ _ _ Hex)).
Qed.
End Octets.

Lemma changes_in m m' lo hi a l : changes m m' lo hi → lo ≤ a → a + Z.of_nat (length l) ≤ hi → changes m (mem_write m' a l) lo hi.
Proof. intros Hm H1 H2 x Hx. rewrite mem_write_outside by lia. by apply Hm. Qed.

(** ** Output on the link

    [N] is the state of the driver and of the rest of the stack. *)

Record net_state (A N : Type) := Net { nt_bufs : pbufs_state A; nt_rest : N }.
Arguments Net {A N} nt_bufs nt_rest.
Arguments nt_bufs {A N} n.
Arguments nt_rest {A N} n.

(** [netif->linkoutput], the frames the link has taken over, and the references
    the driver holds until it has sent them. *)
Class LinkOutput (A N : Type) := {
  linkoutput : netif → Z → M (net_state A N) Z;
  link_sent : N → list (list Z);
  link_holds : N → gmultiset Z }.

(** What the driver promises: it returns, it takes over the frame or reports
    that it did not, and it leaves the packets of others as they are. *)
Class LinkOutputLaws (A N : Type) {BA : BufAlloc A} {LA : BufAllocLaws A} {LO : LinkOutput A N} := {
  link_ok : netif → N → Prop;
  linkoutput_law ni s R H p l :
     held_ok (nt_bufs s) R (H ⊎ link_holds (nt_rest s)) → link_ok ni (nt_rest s) →
     p ∈ H → packet (pb_store (nt_bufs s)) p l →
     ∃ r s', linkoutput ni p s = Ok (r, s') ∧
       held_ok (nt_bufs s') R (H ⊎ link_holds (nt_rest s')) ∧ link_ok ni (nt_rest s') ∧
       link_sent (nt_rest s') =
         link_sent (nt_rest s) ++ (if decide (r = ERR_OK) then [contents (pb_data (nt_bufs s)) l] else []) ∧
       kept_packets H (pb_store (nt_bufs s)) (pb_store (nt_bufs s')) ∧
       kept_octets H (nt_bufs s) (nt_bufs s') }.
