(* ===== verification/EthArp.v ===== *)
(** * Address resolution ([src/lwip/netif/etharp.c])

    The table that maps Internet addresses to Ethernet addresses, with the
    packet that waits for the answer to a pending request, the packets of the
    protocol, and the output of IP packets on an Ethernet.  As configured: four
    entries, one packet queued per entry ([ARP_QUEUEING] is 0), no static
    entries, no VLAN. *)

From S2P Require Import Prelude LwipBase IpAddr Heap Memp Pbuf PbufChain PbufLinks PbufData PbufAlloc PbufClaims PbufRefs Netif.
From Stdlib Require Import ZArith Lia.
From stdpp Require Import base numbers gmultiset list gmap.
Open Scope Z_scope.

(** ** Constants *)

Definition ARP_TABLE_SIZE : Z := 4.
Definition ARP_MAXAGE : Z := 240.
Definition ARP_MAXPENDING : Z := 2.
Definition HWTYPE_ETHERNET : Z := 1.
Definition ETHARP_HWADDR_LEN : Z := 6.
Definition SIZEOF_ETH_HDR : Z := 14.
Definition SIZEOF_ETHARP_HDR : Z := 28.
Definition SIZEOF_ETHARP_PACKET : Z := SIZEOF_ETH_HDR + SIZEOF_ETHARP_HDR.
Definition ETHTYPE_ARP : Z := 0x0806.
Definition ETHTYPE_IP : Z := 0x0800.
Definition ARP_REQUEST : Z := 1.
Definition ARP_REPLY : Z := 2.
Definition ETHARP_FLAG_TRY_HARD : Z := 1.
Definition ETHARP_FLAG_FIND_ONLY : Z := 2.
Definition ethbroadcast : list Z := replicate 6 0xff.
Definition ethzero : list Z := replicate 6 0.

(** ** The table *)

Inductive etharp_state := ETHARP_STATE_EMPTY | ETHARP_STATE_PENDING | ETHARP_STATE_STABLE.
#[export] Instance etharp_state_eq : EqDecision etharp_state.
Proof. solve_decision. Defined.

Record etharp_entry := Entry {
  ae_q : Z;
  ae_ipaddr : Z;
  ae_ethaddr : list Z;
  ae_state : etharp_state;
  ae_ctime : Z }.

Definition with_q (x : Z) (e : etharp_entry) : etharp_entry :=
  Entry x (ae_ipaddr e) (ae_ethaddr e) (ae_state e) (ae_ctime e).
Definition with_ipaddr (x : Z) (e : etharp_entry) : etharp_entry :=
  Entry (ae_q e) x (ae_ethaddr e) (ae_state e) (ae_ctime e).
Definition with_ethaddr (x : list Z) (e : etharp_entry) : etharp_entry :=
  Entry (ae_q e) (ae_ipaddr e) x (ae_state e) (ae_ctime e).
Definition with_state (x : etharp_state) (e : etharp_entry) : etharp_entry :=
  Entry (ae_q e) (ae_ipaddr e) (ae_ethaddr e) x (ae_ctime e).
Definition with_ctime (x : Z) (e : etharp_entry) : etharp_entry :=
  Entry (ae_q e) (ae_ipaddr e) (ae_ethaddr e) (ae_state e) x.

Record arp_state (A N : Type) := Arp {
  ar_net : net_state A N;
  arp_table : list etharp_entry;
  etharp_cached_entry : Z;
  ar_stats : stats_proto }.
Arguments Arp {A N} ar_net arp_table etharp_cached_entry ar_stats.
Arguments ar_net {A N} a.
Arguments arp_table {A N} a.
Arguments etharp_cached_entry {A N} a.
Arguments ar_stats {A N} a _.

Section Arp.
Context {A N : Type} {BA : BufAlloc A} {LO : LinkOutput A N}.
Abbreviation AM := (M (arp_state A N)).

Definition on_net {B} (m : M (net_state A N) B) : AM B :=
  lift ar_net (λ n s, Arp n (arp_table s) (etharp_cached_entry s) (ar_stats s)) m.
Definition on_bufs {B} (m : M (pbufs_state A) B) : AM B :=
  on_net (lift nt_bufs (λ b n, Net b (nt_rest n)) m).
Definition ETHARP_STATS_INC (x : counter) : AM unit :=
  modify (λ s, Arp (ar_net s) (arp_table s) (etharp_cached_entry s) (STATS_INC x (ar_stats s))).
Definition ETHARP_SET_HINT (hint : Z) : AM unit :=
  modify (λ s, Arp (ar_net s) (arp_table s) (u8 hint) (ar_stats s)).

(** [arp_table[i]], and [arp_table[i].field = ...]. *)
Definition get_entry (i : Z) : AM etharp_entry := λ s,
  match arp_table s !! Z.to_nat i with Some e => Ok (e, s) | None => Fault end.
Definition set_entry (i : Z) (f : etharp_entry → etharp_entry) : AM unit := λ s,
  match arp_table s !! Z.to_nat i with
  | Some e => Ok (tt, Arp (ar_net s) (<[Z.to_nat i := f e]> (arp_table s)) (etharp_cached_entry s) (ar_stats s))
  | None => Fault
  end.

(** With [LWIP_DEBUG] the whole entry is cleaned. *)
Definition free_entry (i : Z) : AM unit :=
  e ← get_entry i;
  (if negb (ae_q e =? 0) then
     on_bufs (pbuf_free (ae_q e));;
     set_entry i (with_q 0)
   else mret tt);;
  set_entry i (with_state ETHARP_STATE_EMPTY);;
  set_entry i (with_ctime 0);;
  set_entry i (with_ipaddr 0);;
  set_entry i (with_ethaddr ethzero).

(** ** Ageing *)

Definition tmr_entry (i : Z) : AM unit :=
  e ← get_entry i;
  if bool_decide (ae_state e ≠ ETHARP_STATE_EMPTY) then
    set_entry i (with_ctime (u8 (ae_ctime e + 1)));;
    e ← get_entry i;
    if (ARP_MAXAGE <=? ae_ctime e) ||
       (bool_decide (ae_state e = ETHARP_STATE_PENDING) && (ARP_MAXPENDING <=? ae_ctime e))
    then free_entry i else mret tt
  else mret tt.

Fixpoint tmr_loop (n : nat) (i : Z) : AM unit :=
  match n with
  | O => mret tt
  | S n => tmr_entry i;; tmr_loop n (i + 1)
  end.
Definition etharp_tmr : AM unit := tmr_loop (Z.to_nat ARP_TABLE_SIZE) 0.

(** ** Looking up *)

(** The candidates for a new entry, [ARP_TABLE_SIZE] for none, and the ages of
    the oldest. *)
Record candidates := Cands {
  cd_empty : Z;
  cd_pending : Z; cd_age_pending : Z;
  cd_stable : Z; cd_age_stable : Z;
  cd_queue : Z; cd_age_queue : Z }.
Definition no_candidates : candidates :=
  Cands ARP_TABLE_SIZE ARP_TABLE_SIZE 0 ARP_TABLE_SIZE 0 ARP_TABLE_SIZE 0.

(** An entry that does not match. *)
Definition consider (i : Z) (e : etharp_entry) (c : candidates) : candidates :=
  match ae_state e with
  | ETHARP_STATE_EMPTY =>
     if cd_empty c =? ARP_TABLE_SIZE
     then Cands i (cd_pending c) (cd_age_pending c) (cd_stable c) (cd_age_stable c) (cd_queue c) (cd_age_queue c)
     else c
  | ETHARP_STATE_PENDING =>
     if negb (ae_q e =? 0) then
       if cd_age_queue c <=? ae_ctime e
       then Cands (cd_empty c) (cd_pending c) (cd_age_pending c) (cd_stable c) (cd_age_stable c) i (ae_ctime e)
       else c
     else
       if cd_age_pending c <=? ae_ctime e
       then Cands (cd_empty c) i (ae_ctime e) (cd_stable c) (cd_age_stable c) (cd_queue c) (cd_age_queue c)
       else c
  | ETHARP_STATE_STABLE =>
     if cd_age_stable c <=? ae_ctime e
     then Cands (cd_empty c) (cd_pending c) (cd_age_pending c) i (ae_ctime e) (cd_queue c) (cd_age_queue c)
     else c
  end.

(** The sweep: the index of a match, or the candidates.  NULL is [None].  (The
    assertion on the state is the type of [ae_state].) *)
Fixpoint sweep (ipaddr : option Z) (i : Z) (tab : list etharp_entry) (c : candidates) : Z + candidates :=
  match tab with
  | [] => inr c
  | e :: tab =>
     if bool_decide (ae_state e ≠ ETHARP_STATE_EMPTY) && bool_decide (ipaddr = Some (ae_ipaddr e)) then inl i
     else sweep ipaddr (i + 1) tab (consider i e c)
  end.

(** Set up entry [i], which must be empty. *)
Definition fresh_entry (ipaddr : option Z) (i : Z) : AM Z :=
  LWIP_ASSERT (i <? ARP_TABLE_SIZE);;
  e ← get_entry i;
  LWIP_ASSERT (bool_decide (ae_state e = ETHARP_STATE_EMPTY));;
  match ipaddr with Some a => set_entry i (with_ipaddr a) | None => mret tt end;;
  set_entry i (with_ctime 0);;
  mret i.

Definition find_entry (ipaddr : option Z) (flags : Z) : AM Z :=
  tab ← gets arp_table;
  match sweep ipaddr 0 tab no_candidates with
  | inl i => mret i
  | inr c =>
     if negb (Z.land flags ETHARP_FLAG_FIND_ONLY =? 0) ||
        ((cd_empty c =? ARP_TABLE_SIZE) && (Z.land flags ETHARP_FLAG_TRY_HARD =? 0))
     then mret ERR_MEM
     else if cd_empty c <? ARP_TABLE_SIZE then fresh_entry ipaddr (cd_empty c)
     else if cd_stable c <? ARP_TABLE_SIZE then
       e ← get_entry (cd_stable c);
       LWIP_ASSERT (ae_q e =? 0);;
       LWIP_ASSERT (cd_stable c <? ARP_TABLE_SIZE);;
       free_entry (cd_stable c);;
       fresh_entry ipaddr (cd_stable c)
     else if cd_pending c <? ARP_TABLE_SIZE then
       LWIP_ASSERT (cd_pending c <? ARP_TABLE_SIZE);;
       free_entry (cd_pending c);;
       fresh_entry ipaddr (cd_pending c)
     else if cd_queue c <? ARP_TABLE_SIZE then
       LWIP_ASSERT (cd_queue c <? ARP_TABLE_SIZE);;
       free_entry (cd_queue c);;
       fresh_entry ipaddr (cd_queue c)
     else mret ERR_MEM
  end.

(** The address of a stable entry, with its index. *)
Definition etharp_find_addr (ipaddr : Z) : AM (option (Z * list Z * Z)) :=
  i ← find_entry (Some ipaddr) ETHARP_FLAG_FIND_ONLY;
  if 0 <=? i then
    e ← get_entry i;
    if bool_decide (ae_state e = ETHARP_STATE_STABLE)
    then mret (Some (i, ae_ethaddr e, ae_ipaddr e)) else mret None
  else mret None.

(** ** Sending *)

(** Offsets in an Ethernet header. *)
Definition ETH_DEST : Z := 0.
Definition ETH_SRC : Z := 6.
Definition ETH_TYPE : Z := 12.

Definition etharp_send_ip (n : netif) (p : Z) (src dst : list Z) : AM Z :=
  b ← on_bufs (get_pbuf p);
  let ethhdr := p_payload b in
  LWIP_ASSERT (ni_hwaddr_len n =? ETHARP_HWADDR_LEN);;
  on_bufs (store_octets (ethhdr + ETH_DEST) dst);;
  on_bufs (store_octets (ethhdr + ETH_SRC) src);;
  on_bufs (store16 (ethhdr + ETH_TYPE) (PP_HTONS ETHTYPE_IP));;
  on_net (linkoutput n p).

Definition update_arp_entry (n : netif) (ipaddr : Z) (ethaddr : list Z) (flags : Z) : AM Z :=
  LWIP_ASSERT (ni_hwaddr_len n =? ETHARP_HWADDR_LEN);;
  if ip_addr_isany ipaddr || ip_addr_isbroadcast ipaddr n || ip_addr_ismulticast ipaddr then mret ERR_ARG
  else
    i ← find_entry (Some ipaddr) flags;
    if i <? 0 then mret i
    else
      set_entry i (with_state ETHARP_STATE_STABLE);;
      set_entry i (with_ethaddr ethaddr);;
      set_entry i (with_ctime 0);;
      e ← get_entry i;
      (if negb (ae_q e =? 0) then
         let p := ae_q e in
         set_entry i (with_q 0);;
         etharp_send_ip n p (ni_hwaddr n) ethaddr;;
         on_bufs (pbuf_free p);;
         mret tt
       else mret tt);;
      mret ERR_OK.

(** Offsets in an ARP header, behind the Ethernet header. *)
Definition ARP_HWTYPE : Z := 0.
Definition ARP_PROTO : Z := 2.
Definition ARP_HWLEN : Z := 4.
Definition ARP_PROTOLEN : Z := 5.
Definition ARP_OPCODE : Z := 6.
Definition ARP_SHWADDR : Z := 8.
Definition ARP_SIPADDR : Z := 14.
Definition ARP_DHWADDR : Z := 18.
Definition ARP_DIPADDR : Z := 24.

Definition etharp_raw (n : netif) (ethsrc_addr ethdst_addr hwsrc_addr : list Z) (ipsrc_addr : Z)
    (hwdst_addr : list Z) (ipdst_addr opcode : Z) : AM Z :=
  p ← on_bufs (pbuf_alloc PBUF_RAW SIZEOF_ETHARP_PACKET PBUF_RAM);
  if p =? 0 then
    ETHARP_STATS_INC c_memerr;;
    mret ERR_MEM
  else
    b ← on_bufs (get_pbuf p);
    LWIP_ASSERT (SIZEOF_ETHARP_PACKET <=? p_len b);;
    let ethhdr := p_payload b in
    let hdr := ethhdr + SIZEOF_ETH_HDR in
    on_bufs (store16 (hdr + ARP_OPCODE) (lwip_htons opcode));;
    LWIP_ASSERT (ni_hwaddr_len n =? ETHARP_HWADDR_LEN);;
    on_bufs (store_octets (hdr + ARP_SHWADDR) hwsrc_addr);;
    on_bufs (store_octets (hdr + ARP_DHWADDR) hwdst_addr);;
    on_bufs (store_octets (ethhdr + ETH_DEST) ethdst_addr);;
    on_bufs (store_octets (ethhdr + ETH_SRC) ethsrc_addr);;
    on_bufs (store32 (hdr + ARP_SIPADDR) ipsrc_addr);;
    on_bufs (store32 (hdr + ARP_DIPADDR) ipdst_addr);;
    on_bufs (store16 (hdr + ARP_HWTYPE) (PP_HTONS HWTYPE_ETHERNET));;
    on_bufs (store16 (hdr + ARP_PROTO) (PP_HTONS ETHTYPE_IP));;
    on_bufs (store8 (hdr + ARP_HWLEN) ETHARP_HWADDR_LEN);;
    on_bufs (store8 (hdr + ARP_PROTOLEN) 4);;
    on_bufs (store16 (ethhdr + ETH_TYPE) (PP_HTONS ETHTYPE_ARP));;
    result ← on_net (linkoutput n p);
    ETHARP_STATS_INC c_xmit;;
    on_bufs (pbuf_free p);;
    mret result.

Definition etharp_request (n : netif) (ipaddr : Z) : AM Z :=
  etharp_raw n (ni_hwaddr n) ethbroadcast (ni_hwaddr n) (ni_ip_addr n) ethzero ipaddr ARP_REQUEST.
Definition etharp_gratuitous (n : netif) : AM Z := etharp_request n (ni_ip_addr n).

(** *** Queueing a packet *)

(** The first buffer that is not in read-only memory, or NULL. *)
Fixpoint copy_needed_from (fuel : nat) (p : Z) : M (pbufs_state A) Z :=
  match fuel with
  | O => spin
  | S fuel =>
     if p =? 0 then mret 0
     else
       b ← get_pbuf p;
       LWIP_ASSERT (negb (p_len b =? p_tot_len b) || (p_next b =? 0));;
       if bool_decide (p_type b ≠ PBUF_ROM) then mret p else copy_needed_from fuel (p_next b)
  end.

(** A packet to keep in place of [q], or NULL. *)
Definition take_over (q : Z) : M (pbufs_state A) Z :=
  fuel ← gets pbuf_fuel;
  p ← copy_needed_from fuel q;
  if negb (p =? 0) then
    b ← get_pbuf p;
    p ← pbuf_alloc PBUF_RAW (p_tot_len b) PBUF_RAM;
    if negb (p =? 0) then
      err ← pbuf_copy p q;
      if negb (err =? ERR_OK) then
        pbuf_free p;;
        mret 0
      else mret p
    else mret p
  else
    pbuf_ref q;;
    mret q.

Definition etharp_query (n : netif) (ipaddr q : Z) : AM Z :=
  if ip_addr_isbroadcast ipaddr n || ip_addr_ismulticast ipaddr || ip_addr_isany ipaddr then mret ERR_ARG
  else
    i ← find_entry (Some ipaddr) ETHARP_FLAG_TRY_HARD;
    if i <? 0 then
      (if negb (q =? 0) then ETHARP_STATS_INC c_memerr else mret tt);;
      mret i
    else
      e ← get_entry i;
      (if bool_decide (ae_state e = ETHARP_STATE_EMPTY) then set_entry i (with_state ETHARP_STATE_PENDING) else mret tt);;
      e ← get_entry i;
      LWIP_ASSERT (bool_decide (ae_state e = ETHARP_STATE_PENDING) || bool_decide (ae_state e = ETHARP_STATE_STABLE));;
      result ← (if bool_decide (ae_state e = ETHARP_STATE_PENDING) || (q =? 0) then etharp_request n ipaddr else mret ERR_MEM);
      if q =? 0 then mret result
      else
        e ← get_entry i;
        if bool_decide (ae_state e = ETHARP_STATE_STABLE) then
          ETHARP_SET_HINT i;;
          etharp_send_ip n q (ni_hwaddr n) (ae_ethaddr e)
        else if bool_decide (ae_state e = ETHARP_STATE_PENDING) then
          p ← on_bufs (take_over q);
          if negb (p =? 0) then
            (if negb (ae_q e =? 0) then on_bufs (pbuf_free (ae_q e));; mret tt else mret tt);;
            set_entry i (with_q p);;
            mret ERR_OK
          else
            ETHARP_STATS_INC c_memerr;;
            mret ERR_MEM
        else mret result.

(** ** Output of IP packets *)

Definition multicast_ethaddr (ipaddr : Z) : list Z :=
  [0x01; 0x00; 0x5e; Z.land (ip4_addr 1 ipaddr) 0x7f; ip4_addr 2 ipaddr; ip4_addr 3 ipaddr].

Definition etharp_output (n : netif) (q ipaddr : Z) : AM Z :=
  failed ← on_bufs (pbuf_header q SIZEOF_ETH_HDR);
  if negb (failed =? 0) then mret ERR_BUF
  else if ip_addr_isbroadcast ipaddr n then etharp_send_ip n q (ni_hwaddr n) ethbroadcast
  else if ip_addr_ismulticast ipaddr then etharp_send_ip n q (ni_hwaddr n) (multicast_ethaddr ipaddr)
  else
    let outside := negb (ip_addr_netcmp ipaddr (ni_ip_addr n) (ni_netmask n)) && negb (ip_addr_islinklocal ipaddr) in
    if outside && ip_addr_isany (ni_gw n) then mret ERR_RTE
    else
      let ipaddr := if outside then ni_gw n else ipaddr in
      cached ← gets etharp_cached_entry;
      e ← get_entry cached;
      if bool_decide (ae_state e = ETHARP_STATE_STABLE) && (ipaddr =? ae_ipaddr e) then
        ETHARP_STATS_INC c_cachehit;;
        etharp_send_ip n q (ni_hwaddr n) (ae_ethaddr e)
      else etharp_query n ipaddr q.

(** ** Input *)

(** The layers above: the address check of the DHCP client, and IP. *)
Class ArpUsers := {
  dhcp_arp_reply : netif → Z → AM unit;
  ip_input : Z → netif → AM Z }.
Context {AU : ArpUsers}.

Definition drop_packet (p : Z) (why : counter) : AM unit :=
  ETHARP_STATS_INC why;;
  ETHARP_STATS_INC c_drop;;
  on_bufs (pbuf_free p);;
  mret tt.

(** Turn the request in [p] into the reply. *)
Definition write_reply (n : netif) (ethaddr : list Z) (ethhdr : Z) : M (pbufs_state A) unit :=
  let hdr := ethhdr + SIZEOF_ETH_HDR in
  store16 (hdr + ARP_OPCODE) (lwip_htons ARP_REPLY);;
  a ← load_octets (hdr + ARP_SIPADDR) 4;
  store_octets (hdr + ARP_DIPADDR) a;;
  store32 (hdr + ARP_SIPADDR) (ni_ip_addr n);;
  LWIP_ASSERT (ni_hwaddr_len n =? ETHARP_HWADDR_LEN);;
  h ← load_octets (hdr + ARP_SHWADDR) 6;
  store_octets (hdr + ARP_DHWADDR) h;;
  h ← load_octets (hdr + ARP_SHWADDR) 6;
  store_octets (ethhdr + ETH_DEST) h;;
  store_octets (hdr + ARP_SHWADDR) ethaddr;;
  store_octets (ethhdr + ETH_SRC) ethaddr.

Definition etharp_arp_input (n : netif) (ethaddr : list Z) (p : Z) : AM unit :=
  b ← on_bufs (get_pbuf p);
  if p_len b <? SIZEOF_ETHARP_PACKET then drop_packet p c_lenerr
  else
    let ethhdr := p_payload b in
    let hdr := ethhdr + SIZEOF_ETH_HDR in
    hwtype ← on_bufs (load16 (hdr + ARP_HWTYPE));
    hwlen ← on_bufs (load8 (hdr + ARP_HWLEN));
    protolen ← on_bufs (load8 (hdr + ARP_PROTOLEN));
    proto ← on_bufs (load16 (hdr + ARP_PROTO));
    if negb (hwtype =? PP_HTONS HWTYPE_ETHERNET) || negb (hwlen =? ETHARP_HWADDR_LEN) ||
       negb (protolen =? 4) || negb (proto =? PP_HTONS ETHTYPE_IP)
    then drop_packet p c_proterr
    else
      ETHARP_STATS_INC c_recv;;
      sipaddr ← on_bufs (load32 (hdr + ARP_SIPADDR));
      dipaddr ← on_bufs (load32 (hdr + ARP_DIPADDR));
      let for_us := if ip_addr_isany (ni_ip_addr n) then false else dipaddr =? ni_ip_addr n in
      shwaddr ← on_bufs (load_octets (hdr + ARP_SHWADDR) 6);
      update_arp_entry n sipaddr shwaddr (if for_us then ETHARP_FLAG_TRY_HARD else ETHARP_FLAG_FIND_ONLY);;
      opcode ← on_bufs (load16 (hdr + ARP_OPCODE));
      (if opcode =? PP_HTONS ARP_REQUEST then
         if for_us then
           on_bufs (write_reply n ethaddr ethhdr);;
           on_net (linkoutput n p);;
           mret tt
         else mret tt
       else if opcode =? PP_HTONS ARP_REPLY then dhcp_arp_reply n sipaddr
       else ETHARP_STATS_INC c_err);;
      on_bufs (pbuf_free p);;
      mret tt.

Definition ethernet_input (p : Z) (n : netif) : AM Z :=
  b ← on_bufs (get_pbuf p);
  if p_len b <=? SIZEOF_ETH_HDR then
    drop_packet p c_proterr;;
    mret ERR_OK
  else
    type ← on_bufs (load16 (p_payload b + ETH_TYPE));
    let no_arp := Z.land (ni_flags n) NETIF_FLAG_ETHARP =? 0 in
    if type =? PP_HTONS ETHTYPE_IP then
      if no_arp then on_bufs (pbuf_free p);; mret ERR_OK
      else
        failed ← on_bufs (pbuf_header p (- SIZEOF_ETH_HDR));
        if negb (failed =? 0) then
          LWIP_ASSERT false;;
          on_bufs (pbuf_free p);;
          mret ERR_OK
        else
          ip_input p n;;
          mret ERR_OK
    else if type =? PP_HTONS ETHTYPE_ARP then
      if no_arp then on_bufs (pbuf_free p);; mret ERR_OK
      else
        etharp_arp_input n (ni_hwaddr n) p;;
        mret ERR_OK
    else
      drop_packet p c_proterr;;
      mret ERR_OK.
End Arp.
