(* ===== verification/EthArpTable.v ===== *)
(** * The table of address resolution

    The invariant of the table with the packets queued on it, and what the
    operations on entries do: looking up, recycling, ageing. *)

From S2P Require Import Prelude LwipBase IpAddr Heap Memp Pbuf PbufChain PbufLinks PbufData PbufAlloc PbufClaims PbufRefs Netif EthArp.
From Stdlib Require Import ZArith Lia.
From stdpp Require Import base numbers gmultiset list gmap.
Open Scope Z_scope.

(** ** References of the table *)

Definition tok (q : Z) : gmultiset Z := hold q ∅.
Definition queued (tab : list etharp_entry) : gmultiset Z := foldr (λ e Q, tok (ae_q e) ⊎ Q) ∅ tab.

Lemma tok_0 : tok 0 = ∅.
Proof. done. Qed.
Lemma tok_ne q : q ≠ 0 → tok q = {[+ q +]}.
Proof. intros. unfold tok. rewrite hold_ne by done. multiset_solver. Qed.
Lemma hold_tok q H : hold q H = tok q ⊎ H.
Proof.
  destruct (decide (q = 0)) as [->|Hq]; [rewrite hold_0, tok_0; multiset_solver|]. by rewrite hold_ne, tok_ne.
Qed.

Lemma queued_split tab i e :
  tab !! i = Some e → ∃ Q, queued tab = tok (ae_q e) ⊎ Q ∧ ∀ e', queued (<[i := e']> tab) = tok (ae_q e') ⊎ Q.
Proof.
  revert i. induction tab as [|x tab IH]; intros [|i] He; try done.
  - injection He as ->. by exists (queued tab).
  - destruct (IH i He) as (Q & E & HQ). exists (tok (ae_q x) ⊎ Q). cbn. split.
    + fold (queued tab). rewrite E. multiset_solver.
    + intros e'. fold (queued (<[i := e']> tab)). rewrite HQ. multiset_solver.
Qed.
Lemma queued_in tab e : e ∈ tab → ae_q e ≠ 0 → ae_q e ∈ queued tab.
Proof.
  intros [i Hi]%list_elem_of_lookup Hq. destruct (queued_split _ _ _ Hi) as (Q & -> & _). rewrite tok_ne by done.
  multiset_solver.
Qed.

(** ** Packets that can be sent *)

(** Room for the Ethernet header in the first buffer, apart from the rest. *)
Definition sendable (l : list cell) : Prop :=
  match l with
  | [] => False
  | (_, b) :: l => SIZEOF_ETH_HDR ≤ p_len b ∧ clear_of (p_payload b) (p_payload b + SIZEOF_ETH_HDR) l
  end.

Lemma clear_bares lo hi l k : bares l = bares k → clear_of lo hi l → clear_of lo hi k.
Proof.
  revert k. induction l as [|[a b] l IH]; intros [|[c d] k] E Hl; try done.
  cbn in E. injection E as _ _ Hp _ Hlen _ _ E'.
  apply Forall_cons in Hl as [Hc Hl]. constructor; [|exact (IH k E' Hl)]. simpl in *. by rewrite <-Hp, <-Hlen.
Qed.
Lemma sendable_bares l k : bares l = bares k → sendable l → sendable k.
Proof.
  destruct l as [|[a b] l], k as [|[c d] k]; try done. intros E. cbn in E. injection E as _ _ Hp _ Hlen _ _ E'.
  cbn. rewrite Hp, Hlen. intros [? Hc]. split; [done|]. by apply clear_bares with l.
Qed.

(** Queued packets also have their own octets. *)
Definition queueable (l : list cell) : Prop := sendable l ∧ own_octets l.
Lemma queueable_bares l k : bares l = bares k → queueable l → queueable k.
Proof. intros E [? ?]. split; [by apply sendable_bares with l|by apply owns_bares with l]. Qed.

(** ** Entries *)

Definition is_hwaddr (h : list Z) : Prop := length h = 6%nat ∧ bytes_ok h.

Record entry_ok (e : etharp_entry) : Prop := {
  eo_queue : ae_state e ≠ ETHARP_STATE_PENDING → ae_q e = 0;
  eo_hwaddr : ae_state e = ETHARP_STATE_STABLE → is_hwaddr (ae_ethaddr e);
  eo_age : 0 ≤ ae_ctime e;
  eo_pending : ae_state e = ETHARP_STATE_PENDING → ae_ctime e < ARP_MAXPENDING;
  eo_stable : ae_state e = ETHARP_STATE_STABLE → ae_ctime e < ARP_MAXAGE }.

Definition in_use (e : etharp_entry) : Prop := ae_state e ≠ ETHARP_STATE_EMPTY.

(** Every address has at most one entry. *)
Record table_ok (tab : list etharp_entry) : Prop := {
  to_len : length tab = Z.to_nat ARP_TABLE_SIZE;
  to_entries : Forall entry_ok tab;
  to_unique i j d e : tab !! i = Some d → tab !! j = Some e → in_use d → in_use e → ae_ipaddr d = ae_ipaddr e → i = j }.

Lemma table_entry tab i e : table_ok tab → tab !! i = Some e → entry_ok e.
Proof. intros Ht He. apply (proj1 (Forall_lookup _ _) (to_entries _ Ht) i e He). Qed.

Lemma table_set tab i e e' :
  table_ok tab → tab !! i = Some e → entry_ok e' →
  (in_use e' → ∀ j d, j ≠ i → tab !! j = Some d → in_use d → ae_ipaddr d ≠ ae_ipaddr e') →
  table_ok (<[i := e']> tab).
Proof.
  intros Ht Hi Hok Hu. split.
  - rewrite length_insert. apply (to_len _ Ht).
  - apply Forall_insert; [apply (to_entries _ Ht)|done].
  - intros j k a b Hj Hk Ha Hb E.
    apply list_lookup_insert_Some in Hj as [(-> & <- & _)|[Hj' Hj]];
      apply list_lookup_insert_Some in Hk as [(-> & <- & _)|[Hk' Hk]]; [done| | |by eapply (to_unique _ Ht)].
    + exfalso. by apply (Hu Ha k b).
    + exfalso. by apply (Hu Hb j a).
Qed.

(** ** The search *)

Definition matches (ipaddr : option Z) (e : etharp_entry) : Prop := in_use e ∧ ipaddr = Some (ae_ipaddr e).

(** What the candidates are, after the entries [pre]. *)
Definition first_of (P : etharp_entry → Prop) (pre : list etharp_entry) (idx : Z) : Prop :=
  (idx = ARP_TABLE_SIZE ∧ Forall (λ d, ¬ P d) pre) ∨
  ∃ n e, idx = Z.of_nat n ∧ pre !! n = Some e ∧ P e ∧ ∀ k d, (k < n)%nat → pre !! k = Some d → ¬ P d.
Definition oldest_of (P : etharp_entry → Prop) (pre : list etharp_entry) (idx age : Z) : Prop :=
  (idx = ARP_TABLE_SIZE ∧ age = 0 ∧ Forall (λ d, ¬ P d) pre) ∨
  ∃ n e, idx = Z.of_nat n ∧ pre !! n = Some e ∧ P e ∧ ae_ctime e = age ∧ Forall (λ d, P d → ae_ctime d ≤ age) pre.

Lemma first_hit P pre e idx : first_of P pre idx → idx = ARP_TABLE_SIZE → (length pre < 4)%nat → P e → first_of P (pre ++ [e]) (Z.of_nat (length pre)).
Proof.
  intros [[_ Hn]|(n & d & -> & Hd & _)] E Hl HP.
  - right. exists (length pre), e. split; [done|]. split; [by rewrite lookup_app_r, Nat.sub_diag by lia|]. split; [done|].
    intros k d Hk Hd. rewrite lookup_app_l in Hd by lia. by apply (proj1 (Forall_lookup _ _) Hn k).
  - apply lookup_lt_Some in Hd. unfold ARP_TABLE_SIZE in E. lia.
Qed.
Lemma first_miss P pre e idx : first_of P pre idx → (P e → idx ≠ ARP_TABLE_SIZE) → first_of P (pre ++ [e]) idx.
Proof.
  intros [[-> Hn]|(n & d & -> & Hd & HP & Hk)] He.
  - left. split; [done|]. apply Forall_app. split; [done|]. apply Forall_singleton. intros HP. by apply (He HP).
  - right. pose proof (lookup_lt_Some _ _ _ Hd). exists n, d. split; [done|]. split; [by rewrite lookup_app_l by lia|]. split; [done|].
    intros k x Hkn Hx. rewrite lookup_app_l in Hx by lia. by apply (Hk k).
Qed.
Lemma oldest_hit P pre e idx age :
  oldest_of P pre idx age → P e → age ≤ ae_ctime e → oldest_of P (pre ++ [e]) (Z.of_nat (length pre)) (ae_ctime e).
Proof.
  intros Ho HP Ha. right. exists (length pre), e. split; [done|]. split; [by rewrite lookup_app_r, Nat.sub_diag by lia|].
  split; [done|]. split; [done|]. apply Forall_app. split; [|by apply Forall_singleton].
  destruct Ho as [(_ & _ & Hn)|(n & d & _ & _ & _ & _ & Hm)]; [eapply Forall_impl; [exact Hn|]|eapply Forall_impl; [exact Hm|]];
    simpl; [tauto|]. intros x Hx ?%Hx. lia.
Qed.
Lemma oldest_miss P pre e idx age :
  oldest_of P pre idx age → (P e → 0 ≤ ae_ctime e < age) → oldest_of P (pre ++ [e]) idx age.
Proof.
  intros [(-> & -> & Hn)|(n & d & -> & Hd & HP & Hc & Hm)] He.
  - left. do 2 (split; [done|]). apply Forall_app. split; [done|]. apply Forall_singleton. intros HP%He. lia.
  - right. pose proof (lookup_lt_Some _ _ _ Hd). exists n, d. split; [done|]. split; [by rewrite lookup_app_l by lia|].
    do 2 (split; [done|]). apply Forall_app. split; [done|]. apply Forall_singleton. intros ?%He. lia.
Qed.

Definition is_empty (e : etharp_entry) : Prop := ae_state e = ETHARP_STATE_EMPTY.
#[export] Instance is_empty_dec e : Decision (is_empty e).
Proof. unfold is_empty. apply _. Defined.
Definition is_stable (e : etharp_entry) : Prop := ae_state e = ETHARP_STATE_STABLE.
Definition is_idle (e : etharp_entry) : Prop := ae_state e = ETHARP_STATE_PENDING ∧ ae_q e = 0.
Definition is_waiting (e : etharp_entry) : Prop := ae_state e = ETHARP_STATE_PENDING ∧ ae_q e ≠ 0.

Record surveyed (pre : list etharp_entry) (c : candidates) : Prop := {
  sv_empty : first_of is_empty pre (cd_empty c);
  sv_stable : oldest_of is_stable pre (cd_stable c) (cd_age_stable c);
  sv_pending : oldest_of is_idle pre (cd_pending c) (cd_age_pending c);
  sv_queue : oldest_of is_waiting pre (cd_queue c) (cd_age_queue c) }.

Lemma surveyed_nil : surveyed [] no_candidates.
Proof. split; left; repeat split; constructor. Qed.

Lemma surveyed_step pre c e :
  surveyed pre c → (length pre < 4)%nat → 0 ≤ ae_ctime e → surveyed (pre ++ [e]) (consider (Z.of_nat (length pre)) e c).
Proof.
  intros [He Hs Hp Hq] Hl Ht. unfold consider. destruct (ae_state e) eqn:E.
  - destruct (Z.eqb_spec (cd_empty c) ARP_TABLE_SIZE) as [Ec|Ec]; split; cbn [cd_empty cd_stable cd_age_stable cd_pending cd_age_pending cd_queue cd_age_queue];
      try (apply oldest_miss; [done|]; unfold is_stable, is_idle, is_waiting; rewrite E; by intros; destruct_and?).
    + by apply first_hit with (cd_empty c).
    + by apply first_miss.
  - destruct (Z.eqb_spec (ae_q e) 0) as [Eq|Eq]; cbn [negb]; case_match eqn:Hle;
      [apply Z.leb_le in Hle|apply Z.leb_gt in Hle|apply Z.leb_le in Hle|apply Z.leb_gt in Hle];
      split; cbn [cd_empty cd_stable cd_age_stable cd_pending cd_age_pending cd_queue cd_age_queue];
      try (apply first_miss; [done|]; unfold is_empty; by rewrite E);
      try (by apply oldest_hit with (cd_pending c) (cd_age_pending c));
      try (by apply oldest_hit with (cd_queue c) (cd_age_queue c));
      apply oldest_miss; try done; unfold is_stable, is_idle, is_waiting; rewrite E; (by intros [??] || lia || done).
  - case_match eqn:Hle; [apply Z.leb_le in Hle|apply Z.leb_gt in Hle];
      split; cbn [cd_empty cd_stable cd_age_stable cd_pending cd_age_pending cd_queue cd_age_queue];
      try (apply first_miss; [done|]; unfold is_empty; by rewrite E);
      try (by apply oldest_hit with (cd_stable c) (cd_age_stable c));
      apply oldest_miss; try done; unfold is_stable, is_idle, is_waiting; rewrite E; (by intros [??] || lia || done).
Qed.

Lemma sweep_cases ipaddr pre tab c :
  surveyed pre c → (length pre + length tab ≤ 4)%nat → Forall (λ e, 0 ≤ ae_ctime e) tab →
  (∃ n e, sweep ipaddr (Z.of_nat (length pre)) tab c = inl (Z.of_nat (length pre + n)) ∧ tab !! n = Some e ∧ matches ipaddr e) ∨
  (∃ c', sweep ipaddr (Z.of_nat (length pre)) tab c = inr c' ∧ surveyed (pre ++ tab) c' ∧ Forall (λ e, ¬ matches ipaddr e) tab).
Proof.
  revert pre c. induction tab as [|e tab IH]; intros pre c Hc Hl Ht.
  - right. exists c. by rewrite app_nil_r.
  - forall_inv. simpl in Hl. cbn [sweep]. destruct (_ && _) eqn:E.
    + apply andb_true_iff in E as [Hu%bool_decide_eq_true_1 Hip%bool_decide_eq_true_1].
      left. exists 0%nat, e. rewrite Nat.add_0_r. by repeat split.
    + assert (¬ matches ipaddr e) as Hm.
      { intros [Hu Hip]. by rewrite (bool_decide_eq_true_2 _ Hu), (bool_decide_eq_true_2 _ Hip) in E. }
      destruct (IH (pre ++ [e]) (consider (Z.of_nat (length pre)) e c)) as [(n & d & Es & Hd)|(c' & Es & Hc' & Hf)];
        [apply surveyed_step; [done|lia|done]|rewrite length_app; simpl; lia|done| |].
      * left. exists (S n), d. rewrite length_app in Es. simpl in Es.
        replace (Z.of_nat (length pre) + 1) with (Z.of_nat (length pre + 1)) by lia. rewrite Es.
        split; [do 2 f_equal; lia|done].
      * right. exists c'. rewrite length_app in Es. simpl in Es.
        replace (Z.of_nat (length pre) + 1) with (Z.of_nat (length pre + 1)) by lia. rewrite Es.
        split; [done|]. rewrite <-app_assoc in Hc'. by split; [|constructor].
Qed.

(** The entry to recycle: an empty one, else the oldest stable one, else the
    oldest pending one, without a packet if there is one. *)
Definition chosen (tab : list etharp_entry) (n : nat) (e : etharp_entry) : Prop :=
  tab !! n = Some e ∧
  ((is_empty e ∧ ∀ k d, (k < n)%nat → tab !! k = Some d → in_use d) ∨
   (Forall in_use tab ∧
    ((is_stable e ∧ Forall (λ d, is_stable d → ae_ctime d ≤ ae_ctime e) tab) ∨
     (Forall (λ d, ¬ is_stable d) tab ∧
      ((is_idle e ∧ Forall (λ d, is_idle d → ae_ctime d ≤ ae_ctime e) tab) ∨
       (Forall (λ d, ¬ is_idle d) tab ∧ is_waiting e ∧ Forall (λ d, is_waiting d → ae_ctime d ≤ ae_ctime e) tab)))))).

Definition no_match (ipaddr : Z) (tab : list etharp_entry) : Prop := Forall (λ e, in_use e → ae_ipaddr e ≠ ipaddr) tab.

Lemma entry_kinds e : is_empty e ∨ is_stable e ∨ is_idle e ∨ is_waiting e.
Proof.
  unfold is_empty, is_stable, is_idle, is_waiting. destruct (ae_state e); auto.
  destruct (decide (ae_q e = 0)); auto.
Qed.

(** ** Steps *)

Section Table.
Context {A N : Type} {BA : BufAlloc A} {LA : BufAllocLaws A} {LO : LinkOutput A N} {LL : LinkOutputLaws A N}.
Implicit Types (s : arp_state A N).

Definition bufs s : pbufs_state A := nt_bufs (ar_net s).
Definition rest s : N := nt_rest (ar_net s).
Definition with_bufs (b : pbufs_state A) s : arp_state A N :=
  Arp (Net b (rest s)) (arp_table s) (etharp_cached_entry s) (ar_stats s).
Definition with_table (t : list etharp_entry) s : arp_state A N := Arp (ar_net s) t (etharp_cached_entry s) (ar_stats s).

Lemma on_bufs_runs {B} (m : M (pbufs_state A) B) s x b (Q : B → arp_state A N → Prop) :
  m (bufs s) = Ok (x, b) → Q x (with_bufs b s) → runs (on_bufs m) s Q.
Proof. intros E HQ. apply (runs_intro _ _ x (with_bufs b s)); [|done]. unfold on_bufs, on_net, lift. fold (bufs s). by rewrite E. Qed.
Lemma get_entry_runs i s e (Q : etharp_entry → arp_state A N → Prop) :
  arp_table s !! Z.to_nat i = Some e → Q e s → runs (get_entry i) s Q.
Proof. intros He HQ. apply (runs_intro _ _ e s); [|done]. unfold get_entry. by rewrite He. Qed.
Lemma set_entry_runs i f s e (Q : unit → arp_state A N → Prop) :
  arp_table s !! Z.to_nat i = Some e → Q tt (with_table (<[Z.to_nat i := f e]> (arp_table s)) s) → runs (set_entry i f) s Q.
Proof. intros He HQ. eapply (runs_intro _ _ tt); [|exact HQ]. unfold set_entry. by rewrite He. Qed.
Lemma runs_assert {B} b (k : unit → M (arp_state A N) B) s Q :
  b = true → runs (k tt) s Q → runs (LWIP_ASSERT b ≫= k) s Q.
Proof. by intros ->. Qed.

Lemma runs_ret {B} (x : B) s (Q : B → arp_state A N → Prop) : Q x s → runs (mret x) s Q.
Proof. done. Qed.

(** ** The buffers of the table

    [H] are the references of everybody but the table and the driver. *)

Record arp_bufs (ni : netif) (R : gmap Z place) (H : gmultiset Z) s : Prop := {
  ab_held : held_ok (bufs s) R (H ⊎ queued (arp_table s) ⊎ link_holds (rest s));
  ab_queue e : e ∈ arp_table s → ae_q e ≠ 0 → ∃ l, packet (pb_store (bufs s)) (ae_q e) l ∧ queueable l;
  ab_link : link_ok ni (rest s) }.

Lemma packet_kept H (st st' : store) h l :
  kept_packets H st st' → h ∈ H → packet st h l → ∃ l', packet st' h l' ∧ bares l' = bares l.
Proof.
  intros Hk Hh [Hc Hl Hu Hne]. destruct (Hk h l Hh Hc) as (l' & Hc' & E). exists l'. split; [|done].
  destruct (bares_packet l' l (λ _, 0) E) as (Et & Hle & _). split; [done|by apply Hle|by rewrite Et|].
  intros ->. by destruct l.
Qed.

(** Writing octets does not matter. *)
Lemma held_ok_data (b : pbufs_state A) R H m : held_ok b R H → held_ok (Pbufs (pb_store b) m (pb_alloc b)) R H.
Proof. intros [(L & [Hl Hb] & HR) Hct]. split; [exists L; by split|done]. Qed.
Definition poked (a : Z) (l : list Z) s : arp_state A N :=
  with_bufs (Pbufs (pb_store (bufs s)) (mem_write (pb_data (bufs s)) a l) (pb_alloc (bufs s))) s.
Lemma data_poked a l s : pb_data (bufs (poked a l s)) = mem_write (pb_data (bufs s)) a l.
Proof. done. Qed.
Lemma store_poked a l s : pb_store (bufs (poked a l s)) = pb_store (bufs s).
Proof. done. Qed.
Lemma rest_poked a l s : rest (poked a l s) = rest s.
Proof. done. Qed.
Lemma table_poked a l s : arp_table (poked a l s) = arp_table s.
Proof. done. Qed.
Lemma arp_bufs_poked ni R H s a l : arp_bufs ni R H s → arp_bufs ni R H (poked a l s).
Proof. intros [Hh Hq Hl]. split; [by apply held_ok_data|exact Hq|exact Hl]. Qed.

Lemma arp_bufs_net ni R H s s' :
  ar_net s' = ar_net s → arp_table s' = arp_table s → arp_bufs ni R H s → arp_bufs ni R H s'.
Proof. unfold bufs, rest. intros En Et [Hh Hq Hl]. unfold bufs, rest in *. split; unfold bufs, rest; by rewrite En, ?Et. Qed.

(** The buffers change, but for the packets of the table. *)
Lemma arp_bufs_step ni R H H' s b :
  arp_bufs ni R H s → held_ok b R (H' ⊎ queued (arp_table s) ⊎ link_holds (rest s)) →
  kept_packets (queued (arp_table s)) (pb_store (bufs s)) (pb_store b) → arp_bufs ni R H' (with_bufs b s).
Proof.
  intros [Hh Hq Hl] Hb Hk. split; [exact Hb| |exact Hl]. intros e He Hne. destruct (Hq e He Hne) as (l & Hpk & Hsd).
  destruct (packet_kept _ _ _ _ _ Hk (queued_in _ _ He Hne) Hpk) as (l' & Hpk' & E). exists l'. split; [done|].
  by apply queueable_bares with l.
Qed.

(** Giving up a reference. *)
Lemma free_runs ni R H s p (Q : Z → arp_state A N → Prop) :
  arp_bufs ni R ({[+ p +]} ⊎ H) s →
  (∀ x b, arp_bufs ni R H (with_bufs b s) → pb_data b = pb_data (bufs s) →
     kept_packets (H ⊎ queued (arp_table s)) (pb_store (bufs s)) (pb_store b) → Q x (with_bufs b s)) →
  runs (on_bufs (pbuf_free p)) s Q.
Proof.
  intros Hs HQ. pose proof Hs as [Hh _ _].
  replace ({[+ p +]} ⊎ H ⊎ queued (arp_table s) ⊎ link_holds (rest s))
    with ({[+ p +]} ⊎ (H ⊎ queued (arp_table s) ⊎ link_holds (rest s))) in Hh by multiset_solver.
  destruct (pbuf_free_held _ _ _ _ Hh) as (x & b & E & Hb & Ed & _ & Hk).
  eapply on_bufs_runs; [exact E|]. apply HQ; [|done|].
  - eapply arp_bufs_step; [exact Hs|exact Hb|]. eapply kept_subset, Hk. held_in.
  - eapply kept_subset, Hk. held_in.
Qed.

(** Nothing but counts changed for the packets in [H]. *)
Definition frame (H : gmultiset Z) s s' : Prop :=
  rest s' = rest s ∧ etharp_cached_entry s' = etharp_cached_entry s ∧ pb_data (bufs s') = pb_data (bufs s) ∧
  kept_packets H (pb_store (bufs s)) (pb_store (bufs s')).

Lemma frame_same H s s' :
  bufs s' = bufs s → rest s' = rest s → etharp_cached_entry s' = etharp_cached_entry s → frame H s s'.
Proof. intros Eb Er Ec. unfold frame. rewrite Eb. by repeat split. Qed.
Lemma frame_trans H s s1 s2 : frame H s s1 → frame H s1 s2 → frame H s s2.
Proof.
  intros (E1 & E2 & E3 & K1) (F1 & F2 & F3 & K2). do 3 (split; [congruence|]). by etrans.
Qed.

(** The octets of such packets stay as they are. *)
Definition kept_exclusive (H : gmultiset Z) (b b' : pbufs_state A) : Prop :=
  ∀ h l, h ∈ H → chain (pb_store b) h l → own_octets l → exclusive l → contents (pb_data b') l = contents (pb_data b) l.
Lemma kept_exclusive_same H b b' : pb_data b' = pb_data b → kept_exclusive H b b'.
Proof. intros E h l _ _ _ _. by rewrite E. Qed.

(** References go to an entry, or are taken from it. *)
Lemma arp_bufs_requeue ni R H H' s i e e' :
  arp_bufs ni R H s → arp_table s !! i = Some e → H ⊎ tok (ae_q e) = H' ⊎ tok (ae_q e') →
  (ae_q e' ≠ 0 → ∃ l, packet (pb_store (bufs s)) (ae_q e') l ∧ queueable l) →
  arp_bufs ni R H' (with_table (<[i := e']> (arp_table s)) s).
Proof.
  intros [Hh Hq Hl] He E Hp. destruct (queued_split _ _ _ He) as (Q & EQ & HQ). split; [|intros d Hd Hne|done].
  - cbn [arp_table with_table]. rewrite EQ, gmultiset_disj_union_assoc, E in Hh.
    rewrite HQ, gmultiset_disj_union_assoc. exact Hh.
  - cbn [arp_table with_table] in Hd. apply list_elem_of_lookup in Hd as [j Hj].
    apply list_lookup_insert_Some in Hj as [(-> & <- & _)|[_ Hj]]; [by apply Hp|].
    apply Hq; [by eapply list_elem_of_lookup_2|done].
Qed.
(** An entry that changes without its packet. *)
Lemma arp_bufs_entry ni R H s i e e' :
  arp_bufs ni R H s → arp_table s !! i = Some e → ae_q e' = ae_q e → arp_bufs ni R H (with_table (<[i := e']> (arp_table s)) s).
Proof.
  intros Hs He E. apply arp_bufs_requeue with H e; [done|done|by rewrite E|]. rewrite E.
  apply (ab_queue _ _ _ _ Hs). by eapply list_elem_of_lookup_2.
Qed.

Definition emptied (e : etharp_entry) : etharp_entry := Entry 0 0 ethzero ETHARP_STATE_EMPTY 0.

(** The fields of an entry whose packet is gone. *)
Lemma clean_runs ni R H s (n : nat) e :
  arp_bufs ni R H s → arp_table s !! n = Some e → ae_q e = 0 →
  runs (set_entry (Z.of_nat n) (with_state ETHARP_STATE_EMPTY);; set_entry (Z.of_nat n) (with_ctime 0);;
        set_entry (Z.of_nat n) (with_ipaddr 0);; set_entry (Z.of_nat n) (with_ethaddr ethzero)) s
    (λ _ s', arp_bufs ni R H s' ∧ frame H s s' ∧ arp_table s' = <[n := emptied e]> (arp_table s)).
Proof.
  intros Hs He Eq. pose proof (lookup_lt_Some _ _ _ He) as Hlt.
  apply runs_bind. eapply set_entry_runs; [by rewrite Nat2Z.id|]. rewrite Nat2Z.id.
  apply runs_bind. eapply set_entry_runs; [rewrite Nat2Z.id; cbn; by apply list_lookup_insert_eq|].
  apply runs_bind. eapply set_entry_runs; [rewrite Nat2Z.id; cbn; apply list_lookup_insert_eq; by rewrite length_insert|].
  eapply set_entry_runs; [rewrite Nat2Z.id; cbn; apply list_lookup_insert_eq; by rewrite !length_insert|].
  rewrite !Nat2Z.id. cbn [arp_table with_table]. rewrite !list_insert_insert_eq.
  assert (with_ethaddr ethzero (with_ipaddr 0 (with_ctime 0 (with_state ETHARP_STATE_EMPTY e))) = emptied e) as ->
    by (unfold emptied; by rewrite <-Eq).
  split; [|split; [by apply frame_same|done]]. by apply (arp_bufs_entry ni R H s n e).
Qed.

Lemma free_entry_runs ni R H s (n : nat) e :
  arp_bufs ni R H s → arp_table s !! n = Some e →
  runs (free_entry (Z.of_nat n)) s (λ _ s', arp_bufs ni R H s' ∧ frame H s s' ∧ arp_table s' = <[n := emptied e]> (arp_table s)).
Proof.
  intros Hs He. pose proof (lookup_lt_Some _ _ _ He) as Hlt. unfold free_entry. apply runs_bind.
  eapply get_entry_runs; [by rewrite Nat2Z.id|]. apply runs_bind.
  destruct (Z.eqb_spec (ae_q e) 0) as [E|E]; cbn [negb].
  - apply runs_ret. by apply clean_runs.
  - apply runs_bind. set (s1 := with_table (<[n := with_q 0 e]> (arp_table s)) s).
    assert (arp_bufs ni R ({[+ ae_q e +]} ⊎ H) s1) as Hs1.
    { apply (arp_bufs_requeue ni R H _ s n e); [done|done| |done]. change (ae_q (with_q 0 e)) with 0. rewrite tok_0, tok_ne by done. mset. }
    pose proof (ab_held _ _ _ _ Hs1) as Hh. rewrite <-!gmultiset_disj_union_assoc in Hh.
    destruct (pbuf_free_held _ _ _ _ Hh) as (x & b' & Ef & Hh' & Ed & _ & Hk). rewrite gmultiset_disj_union_assoc in Hh'.
    eapply on_bufs_runs; [exact Ef|]. apply (set_entry_runs _ _ _ e); [by rewrite Nat2Z.id|]. rewrite Nat2Z.id.
    assert (arp_bufs ni R H (with_bufs b' s1)) as Hs2 by (apply (arp_bufs_step ni R _ H s1 b' Hs1 Hh'); eapply kept_subset, Hk; held_in).
    eapply runs_mono, (clean_runs ni R H (with_bufs b' s1) n (with_q 0 e) Hs2); [|by apply list_lookup_insert_eq|done].
    intros _ s' (Hs' & (Er & Ec & Ed' & Hk') & Et). split; [done|]. split.
    + split; [done|]. split; [done|]. split; [by rewrite Ed'|]. etrans; [|exact Hk']. eapply kept_subset, Hk. held_in.
    + rewrite Et. cbn [arp_table with_bufs with_table s1]. by rewrite list_insert_insert_eq.
Qed.

(** An entry that is not in use any more. *)
Definition vacated (e : etharp_entry) : etharp_entry := if bool_decide (is_empty e) then e else emptied e.
Lemma vacated_empty e : is_empty (vacated e).
Proof. unfold vacated. by case_bool_decide. Qed.
Lemma vacated_queue e : entry_ok e → ae_q (vacated e) = 0.
Proof. intros Hok. unfold vacated. case_bool_decide as Hem; [|done]. apply (eo_queue _ Hok). unfold is_empty in Hem. by rewrite Hem. Qed.
Lemma vacated_ok e : entry_ok e → entry_ok (vacated e).
Proof. intros Hok. unfold vacated. by case_bool_decide. Qed.

Definition renewed (ipaddr : Z) (e : etharp_entry) : etharp_entry := with_ctime 0 (with_ipaddr ipaddr e).

Lemma fresh_entry_runs ni R H s (n : nat) e ipaddr :
  arp_bufs ni R H s → arp_table s !! n = Some e → (n < 4)%nat → ae_state e = ETHARP_STATE_EMPTY →
  runs (fresh_entry (Some ipaddr) (Z.of_nat n)) s (λ i s', i = Z.of_nat n ∧
    arp_bufs ni R H s' ∧ frame H s s' ∧ arp_table s' = <[n := renewed ipaddr e]> (arp_table s)).
Proof.
  intros Hs He Hn Hst. pose proof (lookup_lt_Some _ _ _ He) as Hlt. unfold fresh_entry.
  apply runs_assert; [unfold ARP_TABLE_SIZE; apply Z.ltb_lt; lia|].
  apply runs_bind. eapply get_entry_runs; [by rewrite Nat2Z.id|].
  apply runs_assert; [by apply bool_decide_eq_true_2|].
  apply runs_bind. eapply set_entry_runs; [by rewrite Nat2Z.id|]. rewrite Nat2Z.id.
  apply runs_bind. eapply set_entry_runs; [rewrite Nat2Z.id; cbn; by apply list_lookup_insert_eq|].
  rewrite Nat2Z.id. cbn [arp_table with_table]. rewrite list_insert_insert_eq.
  unfold runs, mret, M_ret. split; [done|]. split; [|split; [by apply frame_same|done]].
  by apply (arp_bufs_entry ni R H s n e).
Qed.

Definition found (ipaddr : Z) s (i : Z) s' : Prop :=
  ∃ n e, i = Z.of_nat n ∧ arp_table s !! n = Some e ∧ in_use e ∧ ae_ipaddr e = ipaddr ∧ s' = s.
Definition not_found (ipaddr flags : Z) s (i : Z) s' : Prop :=
  i = ERR_MEM ∧ s' = s ∧ no_match ipaddr (arp_table s) ∧
  (Z.land flags ETHARP_FLAG_FIND_ONLY ≠ 0 ∨ Z.land flags ETHARP_FLAG_TRY_HARD = 0 ∧ Forall in_use (arp_table s)).
Definition created (H : gmultiset Z) (ipaddr flags : Z) s (i : Z) s' : Prop :=
  ∃ n e, i = Z.of_nat n ∧ chosen (arp_table s) n e ∧ no_match ipaddr (arp_table s) ∧
    Z.land flags ETHARP_FLAG_FIND_ONLY = 0 ∧ (is_empty e ∨ Z.land flags ETHARP_FLAG_TRY_HARD ≠ 0) ∧
    arp_table s' = <[n := renewed ipaddr (vacated e)]> (arp_table s) ∧ frame H s s'.

Lemma no_match_forall ipaddr tab : no_match ipaddr tab ↔ Forall (λ e, ¬ matches (Some ipaddr) e) tab.
Proof.
  unfold no_match, matches. split; intros Hf; (eapply Forall_impl; [exact Hf|]); simpl.
  - intros e He [Hu E]. injection E as ->. by apply He.
  - intros e He Hu E. apply He. split; [done|congruence].
Qed.

Lemma first_index P pre idx : (length pre = 4)%nat → first_of P pre idx →
  ((idx <? ARP_TABLE_SIZE) = false ∧ (idx =? ARP_TABLE_SIZE) = true ∧ Forall (λ d, ¬ P d) pre) ∨
  ∃ n e, idx = Z.of_nat n ∧ (idx <? ARP_TABLE_SIZE) = true ∧ (idx =? ARP_TABLE_SIZE) = false ∧ pre !! n = Some e ∧ P e ∧
    ∀ k d, (k < n)%nat → pre !! k = Some d → ¬ P d.
Proof.
  intros Hl [[-> Hn]|(n & e & -> & He & HP)]; [by left|right]. exists n, e. pose proof (lookup_lt_Some _ _ _ He).
  split; [done|]. split; [apply Z.ltb_lt; unfold ARP_TABLE_SIZE; lia|]. split; [apply Z.eqb_neq; unfold ARP_TABLE_SIZE; lia|done].
Qed.
Lemma oldest_index P pre idx age : (length pre = 4)%nat → oldest_of P pre idx age →
  ((idx <? ARP_TABLE_SIZE) = false ∧ Forall (λ d, ¬ P d) pre) ∨
  ∃ n e, idx = Z.of_nat n ∧ (idx <? ARP_TABLE_SIZE) = true ∧ pre !! n = Some e ∧ P e ∧
    Forall (λ d, P d → ae_ctime d ≤ ae_ctime e) pre.
Proof.
  intros Hl [(-> & _ & Hn)|(n & e & -> & He & HP & <- & Hm)]; [by left|right]. exists n, e. pose proof (lookup_lt_Some _ _ _ He).
  split; [done|]. split; [apply Z.ltb_lt; unfold ARP_TABLE_SIZE; lia|done].
Qed.

(** Freeing an entry and setting it up again. *)
Lemma recycle_runs ni R H s (n : nat) e ipaddr flags :
  arp_bufs ni R H s → (length (arp_table s) = 4)%nat → chosen (arp_table s) n e → in_use e → no_match ipaddr (arp_table s) →
  Z.land flags ETHARP_FLAG_FIND_ONLY = 0 → Z.land flags ETHARP_FLAG_TRY_HARD ≠ 0 →
  runs (free_entry (Z.of_nat n);; fresh_entry (Some ipaddr) (Z.of_nat n)) s
    (λ i s', arp_bufs ni R H s' ∧ created H ipaddr flags s i s').
Proof.
  intros Hs Hl Hc Hu Hm Hf Ht. pose proof Hc as [He _]. pose proof (lookup_lt_Some _ _ _ He) as Hlt. apply runs_bind.
  eapply runs_mono, (free_entry_runs ni R H s n e Hs He). intros _ s1 (Hs1 & F1 & E1).
  eapply runs_mono, (fresh_entry_runs ni R H s1 n (emptied e) ipaddr Hs1); [|by rewrite E1, list_lookup_insert_eq|lia|done].
  intros i s2 (-> & Hs2 & F2 & E2). split; [done|]. exists n, e. do 4 (split; [done|]). split; [by right|].
  split; [|by eapply frame_trans]. unfold vacated. rewrite bool_decide_eq_false_2 by done. by rewrite E2, E1, list_insert_insert_eq.
Qed.

Lemma find_entry_runs ni R H s ipaddr flags :
  arp_bufs ni R H s → table_ok (arp_table s) →
  runs (find_entry (Some ipaddr) flags) s (λ i s', arp_bufs ni R H s' ∧
    (found ipaddr s i s' ∨ not_found ipaddr flags s i s' ∨ created H ipaddr flags s i s')).
Proof.
  intros Hs Ht. pose proof (to_len _ Ht) as Hlen. change (Z.to_nat ARP_TABLE_SIZE) with 4%nat in Hlen.
  unfold find_entry. apply runs_bind. unfold runs at 1, gets.
  pose proof (sweep_cases (Some ipaddr) [] (arp_table s) no_candidates surveyed_nil) as Hsw. cbn [length Nat.add app] in Hsw.
  change (Z.of_nat 0) with 0 in Hsw. destruct Hsw as [(n & e & -> & He & Hu & E)|(c & -> & Hc & Hm)].
  { lia. }
  { eapply Forall_impl; [apply (to_entries _ Ht)|]. by intros e []. }
  { unfold runs, mret, M_ret. split; [done|]. left. exists n, e. injection E as ->. done. }
  apply no_match_forall in Hm. destruct Hc as [Se Ss Sp Sq]. cbn [app] in *.
  destruct (Z.eqb_spec (Z.land flags ETHARP_FLAG_FIND_ONLY) 0) as [Hf|Hf]; cbn [negb orb].
  2:{ unfold runs, mret, M_ret. split; [done|]. right. left. repeat split; [done|by left]. }
  destruct (first_index _ _ _ Hlen Se) as [(Elt & -> & Hne)|(n & e & -> & Elt & -> & He & Hem & Hk)]; cbn [andb].
  2:{ rewrite Elt. eapply runs_mono, (fresh_entry_runs ni R H s n e ipaddr Hs He);
        [|pose proof (lookup_lt_Some _ _ _ He); lia|exact Hem].
      intros i s' (-> & Hs' & F & E). split; [done|]. right. right. exists n, e. split; [done|].
      split; [split; [done|left; split; [done|]]; intros k d Hkn Hd; by apply (Hk k d)|].
      do 2 (split; [done|]). split; [by left|]. split; [|done]. unfold vacated. by rewrite bool_decide_eq_true_2. }
  destruct (Z.eqb_spec (Z.land flags ETHARP_FLAG_TRY_HARD) 0) as [Hh|Hh].
  { unfold runs, mret, M_ret. split; [done|]. right. left. repeat split; [done|by right]. }
  rewrite Elt. assert (∀ n e, chosen (arp_table s) n e →
    runs (free_entry (Z.of_nat n);; fresh_entry (Some ipaddr) (Z.of_nat n)) s (λ i s', arp_bufs ni R H s' ∧
    (found ipaddr s i s' ∨ not_found ipaddr flags s i s' ∨ created H ipaddr flags s i s'))) as Hre.
  { intros n e Hch. eapply runs_mono, (recycle_runs ni R H s n e ipaddr flags); try done; [intros i s' [? ?]; auto|].
    by apply (proj1 (Forall_lookup _ _) Hne n), Hch. }
  destruct (oldest_index _ _ _ _ Hlen Ss) as [(-> & Hns)|(n & e & -> & -> & He & Hst & Hold)].
  2:{ apply runs_bind. eapply get_entry_runs; [by rewrite Nat2Z.id|].
      apply runs_assert; [|apply runs_assert; [done|]].
      - apply Z.eqb_eq. apply (eo_queue _ (table_entry _ _ _ Ht He)). unfold is_stable in Hst. by rewrite Hst.
      - apply (Hre n e). split; [done|]. right. split; [done|]. left. by split. }
  destruct (oldest_index _ _ _ _ Hlen Sp) as [(-> & Hni)|(n & e & -> & Elt' & He & Hst & Hold)].
  2:{ rewrite Elt'. apply runs_assert; [done|]. apply (Hre n e). split; [done|]. right. split; [done|]. right. split; [done|]. left. by split. }
  destruct (oldest_index _ _ _ _ Hlen Sq) as [(-> & Hnw)|(n & e & -> & Elt' & He & Hst & Hold)].
  2:{ rewrite Elt'. apply runs_assert; [done|]. apply (Hre n e). split; [done|]. right. split; [done|]. right. split; [done|]. right. by split. }
  exfalso. destruct (arp_table s) as [|e tab]; [done|]. forall_inv. destruct (entry_kinds e) as [?|[?|[?|?]]]; contradiction.
Qed.
End Table.
