(* ===== verification/EthArpSend.v ===== *)
(** * Frames of address resolution

    The octets of the frames that [etharp_send_ip], [etharp_raw] and the
    answer to a request put on the link. *)

From S2P Require Import Prelude LwipBase IpAddr InetChksum Heap Memp Pbuf PbufChain PbufLinks PbufData PbufMake PbufAlloc PbufClaims PbufRefs Netif EthArp EthArpTable.
From Stdlib Require Import ZArith Lia.
From stdpp Require Import base numbers gmultiset list gmap.
Open Scope Z_scope.

(** ** Writing into a buffer *)

Definition poke (off : nat) (l buf : list Z) : list Z := take off buf ++ l ++ drop (off + length l) buf.

Lemma length_poke off l buf : (off + length l ≤ length buf)%nat → length (poke off l buf) = length buf.
Proof. intros Hl. unfold poke. rewrite !length_app, length_take, length_drop. lia. Qed.

Lemma mem_read_poke m a off l n :
  (off + length l ≤ n)%nat → mem_read (mem_write m (a + Z.of_nat off) l) a n = poke off l (mem_read m a n).
Proof.
  intros Hl. unfold poke. rewrite mem_read_take, mem_read_drop by lia.
  replace n with (off + (length l + (n - (off + length l))))%nat at 1 by lia. rewrite !mem_read_app.
  f_equal; [|f_equal].
  - apply mem_read_ext. intros x Hx. apply mem_write_outside. lia.
  - by apply mem_write_read.
  - rewrite <-Z.add_assoc, <-Nat2Z.inj_add. apply mem_read_ext. intros x Hx. apply mem_write_outside. lia.
Qed.

Lemma mem_read_store m a o l n :
  0 ≤ o → (Z.to_nat o + length l ≤ n)%nat → mem_read (mem_write m (a + o) l) a n = poke (Z.to_nat o) l (mem_read m a n).
Proof. intros Ho Hl. rewrite <-mem_read_poke by done. by rewrite Z2Nat.id. Qed.

(** ** IP packets *)

Definition ip_frame (dst src payload : list Z) : list Z := dst ++ src ++ [8; 0] ++ payload.

Lemma header_contents m p b l dst src :
  sendable ((p, b) :: l) → length dst = 6%nat → length src = 6%nat →
  contents (mem_write (mem_write (mem_write m (p_payload b + ETH_DEST) dst) (p_payload b + ETH_SRC) src)
    (p_payload b + ETH_TYPE) (le_bytes 2 (PP_HTONS ETHTYPE_IP))) ((p, b) :: l)
  = ip_frame dst src (drop 14 (contents m ((p, b) :: l))).
Proof.
  intros [Hb Hc] Hd Hs. unfold SIZEOF_ETH_HDR in *. cbn [contents].
  set (m1 := mem_write m _ _). set (m2 := mem_write m1 _ _). set (m3 := mem_write m2 _ _).
  assert (changes m m3 (p_payload b) (p_payload b + 14)) as Hch.
  { intros x Hx. unfold m3, m2, m1, ETH_TYPE, ETH_SRC, ETH_DEST.
    rewrite !mem_write_outside by (rewrite ?length_le_bytes; lia). done. }
  rewrite (contents_changes _ _ _ _ _ Hch Hc). unfold cell_data. cbn [snd].
  set (n := Z.to_nat (p_len b)). assert (14 ≤ n)%nat as Hn by lia.
  rewrite drop_app_le by (rewrite length_mem_read; lia).
  unfold m3, m2, m1, ETH_DEST, ETH_SRC, ETH_TYPE.
  change 12 with (Z.of_nat 12). change 6 with (Z.of_nat 6). change 0 with (Z.of_nat 0) at 1.
  rewrite !mem_read_poke by (rewrite ?length_le_bytes; lia).
  pose proof (length_mem_read m (p_payload b) n) as Hl0. set (buf := mem_read m (p_payload b) n) in *.
  unfold ip_frame. rewrite !app_assoc. f_equal.
  assert (∃ x y, buf = x ++ y ∧ length x = 14%nat) as (x & y & -> & Hx).
  { exists (take 14 buf), (drop 14 buf). split; [by rewrite take_drop|]. rewrite length_take. lia. }
  rewrite drop_app_length' by done. do 7 (destruct dst as [|? dst]; try done). do 7 (destruct src as [|? src]; try done).
  do 15 (destruct x as [|? x]; try done).
Qed.

(** ** Packets of the protocol *)

Definition arp_frame (dst src : list Z) (opcode : Z) (shw : list Z) (sip : Z) (dhw : list Z) (dip : Z) : list Z :=
  dst ++ src ++ [8; 6] ++ [0; 1; 8; 0; 6; 4; 0; opcode] ++ shw ++ le_bytes 4 sip ++ dhw ++ le_bytes 4 dip.

(** The stores of [etharp_raw], in its order. *)
Lemma raw_octets x dst src shw sip dhw dip opcode :
  length x = 42%nat → length dst = 6%nat → length src = 6%nat → length shw = 6%nat → length dhw = 6%nat →
  opcode = ARP_REQUEST ∨ opcode = ARP_REPLY →
  poke 12 (le_bytes 2 (PP_HTONS ETHTYPE_ARP)) (poke 19 (le_bytes 1 4) (poke 18 (le_bytes 1 ETHARP_HWADDR_LEN)
   (poke 16 (le_bytes 2 (PP_HTONS ETHTYPE_IP)) (poke 14 (le_bytes 2 (PP_HTONS HWTYPE_ETHERNET))
    (poke 38 (le_bytes 4 dip) (poke 28 (le_bytes 4 sip) (poke 6 src (poke 0 dst (poke 32 dhw (poke 22 shw
     (poke 20 (le_bytes 2 (lwip_htons opcode)) x)))))))))))
  = arp_frame dst src opcode shw sip dhw dip.
Proof.
  intros Hx Hd Hs Hsh Hdh Ho.
  assert (length (le_bytes 4 sip) = 4%nat) as H1 by done. assert (length (le_bytes 4 dip) = 4%nat) as H2 by done.
  unfold arp_frame. set (a := le_bytes 4 sip) in *. set (b := le_bytes 4 dip) in *. clearbody a b.
  do 5 (destruct a as [|? a]; try done). do 5 (destruct b as [|? b]; try done).
  do 7 (destruct dst as [|? dst]; try done). do 7 (destruct src as [|? src]; try done).
  do 7 (destruct shw as [|? shw]; try done). do 7 (destruct dhw as [|? dhw]; try done).
  do 43 (destruct x as [|? x]; try done). by destruct Ho as [-> | ->].
Qed.

(** ** Sending *)

Section Send.
Context {A N : Type} {BA : BufAlloc A} {LA : BufAllocLaws A} {LO : LinkOutput A N} {LL : LinkOutputLaws A N}.
Implicit Types (s : arp_state A N).

(** What a frame on the link leaves as it is. *)
Definition sends (H : gmultiset Z) (frame : list Z) s (r : Z) s' : Prop :=
  arp_table s' = arp_table s ∧ etharp_cached_entry s' = etharp_cached_entry s ∧
  link_sent (rest s') = link_sent (rest s) ++ (if decide (r = ERR_OK) then [frame] else []) ∧
  kept_packets (H ⊎ queued (arp_table s)) (pb_store (bufs s)) (pb_store (bufs s')).

Lemma link_runs ni R H s p l :
  arp_bufs ni R H s → p ∈ H → packet (pb_store (bufs s)) p l →
  runs (on_net (linkoutput ni p)) s (λ r s', arp_bufs ni R H s' ∧ sends H (contents (pb_data (bufs s)) l) s r s' ∧
    kept_octets (H ⊎ queued (arp_table s)) (bufs s) (bufs s')).
Proof.
  intros [Hh Hq Hl] Hp Hpk. destruct (linkoutput_law ni (ar_net s) R (H ⊎ queued (arp_table s)) p l)
    as (r & n' & E & Hh' & Hl' & Hs & Hk & Hko); [exact Hh|exact Hl|held_in|exact Hpk|].
  eapply runs_intro; [unfold on_net, lift; rewrite E; done|]. split; [split|].
  - exact Hh'.
  - intros e He Hne. destruct (Hq e He Hne) as (k & Hkp & Hsd).
    assert (ae_q e ∈ H ⊎ queued (arp_table s)) as Hin by (rewrite gmultiset_elem_of_disj_union; right; by apply queued_in).
    destruct (packet_kept _ _ _ _ _ Hk Hin Hkp) as (k' & Hkp' & Ek). exists k'. split; [done|]. by apply queueable_bares with k.
  - exact Hl'.
  - split; [by repeat split|exact Hko].
Qed.

Lemma store_runs a l s (Q : unit → arp_state A N → Prop) :
  Q tt (poked a l s) → runs (on_bufs (store_octets a l)) s Q.
Proof. intros HQ. by eapply on_bufs_runs. Qed.
Lemma get_pbuf_runs p b s (Q : pbuf → arp_state A N → Prop) :
  pb_store (bufs s) !! p = Some b → Q b s → runs (on_bufs (get_pbuf p)) s Q.
Proof.
  intros Hb HQ. eapply (on_bufs_runs _ _ b (bufs s)); [unfold get_pbuf; by rewrite Hb|]. by destruct s as [[]].
Qed.

Lemma send_ip_runs ni R H s p b l src dst :
  arp_bufs ni R H s → p ∈ H → packet (pb_store (bufs s)) p ((p, b) :: l) → sendable ((p, b) :: l) →
  ni_hwaddr_len ni = ETHARP_HWADDR_LEN → length src = 6%nat → length dst = 6%nat →
  runs (etharp_send_ip ni p src dst) s (λ r s', arp_bufs ni R H s' ∧
    sends H (ip_frame dst src (drop 14 (contents (pb_data (bufs s)) ((p, b) :: l)))) s r s' ∧
    ∀ h k, h ∈ H → chain (pb_store (bufs s)) h k → own_octets k → clear_of (p_payload b) (p_payload b + 14) k →
      contents (pb_data (bufs s')) k = contents (pb_data (bufs s)) k).
Proof.
  intros Hs Hp Hpk Hsd Hni Hsrc Hdst. pose proof (pk_chain _ _ _ Hpk) as (_ & _ & Hb & _).
  unfold etharp_send_ip. apply runs_bind. eapply get_pbuf_runs; [exact Hb|]. cbv zeta.
  apply runs_assert; [by apply Z.eqb_eq|].
  unfold store16. do 3 apply runs_bind, store_runs.
  eapply runs_mono, (link_runs ni R H _ p ((p, b) :: l)); [|by do 3 apply arp_bufs_poked|done|done].
  intros r s' (Hs' & (Ht & Hc & Hsent & Hk) & Hko). split; [done|]. split.
  - split; [exact Ht|]. split; [exact Hc|]. split; [|exact Hk]. by rewrite Hsent, !rest_poked, !data_poked, header_contents.
  - intros h k Hh Hch Hok Hcl. rewrite (Hko h k); [|held_in|done..]. rewrite !data_poked.
    apply (contents_changes _ _ (p_payload b) (p_payload b + 14)); [|done].
    unfold ETH_TYPE, ETH_SRC, ETH_DEST. repeat (apply changes_in; [|lia|rewrite ?length_le_bytes; lia]). done.
Qed.

(** A packet of its own for the request or reply. *)
Lemma raw_runs ni R H s ethsrc ethdst hwsrc ipsrc hwdst ipdst opcode :
  arp_bufs ni R H s → ni_hwaddr_len ni = ETHARP_HWADDR_LEN →
  length ethsrc = 6%nat → length ethdst = 6%nat → length hwsrc = 6%nat → length hwdst = 6%nat →
  opcode = ARP_REQUEST ∨ opcode = ARP_REPLY →
  runs (etharp_raw ni ethsrc ethdst hwsrc ipsrc hwdst ipdst opcode) s (λ r s', arp_bufs ni R H s' ∧
    sends H (arp_frame ethdst ethsrc opcode hwsrc ipsrc hwdst ipdst) s r s' ∧ kept_octets H (bufs s) (bufs s')).
Proof.
  intros Hs Hni Hl1 Hl2 Hl3 Hl4 Ho. unfold etharp_raw. apply runs_bind. pose proof Hs as [Hh Hq Hlk].
  destruct (pbuf_alloc_held (bufs s) R _ PBUF_RAW SIZEOF_ETHARP_PACKET PBUF_RAM Hh ltac:(by vm_compute) ltac:(by vm_compute))
    as (p & b1 & E & Hh1 & Ed & Hk & Hnew).
  eapply on_bufs_runs; [exact E|]. assert (kept_packets (H ⊎ queued (arp_table s)) (pb_store (bufs s)) (pb_store b1)) as Hk1
    by (eapply kept_subset, Hk; held_in).
  assert (arp_bufs ni R (hold p H) (with_bufs b1 s)) as Hs1.
  { eapply arp_bufs_step; [exact Hs| |eapply kept_subset, Hk; held_in].
    rewrite hold_tok in Hh1. rewrite hold_tok. by rewrite <-!gmultiset_disj_union_assoc in *. }
  destruct (Z.eqb_spec p 0) as [->|Hp].
  { rewrite hold_0 in Hs1. unfold runs, mret, M_ret. split; [by apply (arp_bufs_net _ _ _ (with_bufs b1 s))|].
    split; [|by apply kept_octets_same]. do 2 (split; [done|]). split; [by rewrite app_nil_r|exact Hk1]. }
  destruct (Hnew Hp) as (L & L' & b & l & _ & Hex & Hpk & Ht & Hnc & Hone & _). rewrite Hone in * by done. clear Hnew Hone.
  apply Forall_singleton in Hnc as (_ & _ & Hty). cbn [snd] in Hty.
  pose proof (pk_chain _ _ _ Hpk) as (_ & _ & Hb & _). change (total_len [(p, b)]) with (p_len b + 0) in Ht. rewrite Z.add_0_r in Ht.
  rewrite hold_ne in Hs1 by done.
  apply runs_bind. eapply get_pbuf_runs; [exact Hb|]. apply runs_assert; [apply Z.leb_le; lia|]. cbv zeta.
  unfold store16, store32, store8. apply runs_bind, store_runs. apply runs_assert; [by apply Z.eqb_eq|].
  do 11 apply runs_bind, store_runs.
  (* the packet is complete *)
  match goal with |- runs _ ?t _ => set (s12 := t) end.
  assert (arp_bufs ni R ({[+ p +]} ⊎ H) s12) as Hs12 by (unfold s12; by do 12 apply arp_bufs_poked).
  assert (pb_store (bufs s12) = pb_store b1 ∧ rest s12 = rest s ∧ arp_table s12 = arp_table s ∧
    etharp_cached_entry s12 = etharp_cached_entry s) as (Est & Er & Et & Ec) by done.
  assert (contents (pb_data (bufs s12)) [(p, b)] = arp_frame ethdst ethsrc opcode hwsrc ipsrc hwdst ipdst ∧
    changes (pb_data (bufs s)) (pb_data (bufs s12)) (p_payload b) (p_payload b + p_len b)) as [Econ Hch].
  { unfold s12. rewrite !data_poked. change (bufs (with_bufs b1 s)) with b1. rewrite Ht, <-Ed.
    clear -Hl1 Hl2 Hl3 Hl4 Ho Ht. unfold SIZEOF_ETHARP_PACKET, SIZEOF_ETHARP_HDR, SIZEOF_ETH_HDR, ETH_DEST, ETH_SRC, ETH_TYPE, ARP_HWTYPE, ARP_PROTO,
      ARP_HWLEN, ARP_PROTOLEN, ARP_OPCODE, ARP_SHWADDR, ARP_SIPADDR, ARP_DHWADDR, ARP_DIPADDR in *. rewrite <-!(Z.add_assoc (p_payload b)).
    split.
    - cbn [contents]. rewrite app_nil_r. unfold cell_data. cbn [snd]. rewrite Ht. set (a := p_payload b). cbn [Z.add Pos.add Pos.succ].
      change (Z.to_nat 42) with 42%nat.
      rewrite <-(raw_octets (mem_read (pb_data b1) a 42)) by (rewrite ?length_mem_read; done).
      rewrite !mem_read_store by (done || (rewrite ?length_le_bytes, ?Hl1, ?Hl2, ?Hl3, ?Hl4; vm_compute; lia)).
      reflexivity.
    - repeat (apply changes_in; [|lia|rewrite ?length_le_bytes; lia]). done. }
  clearbody s12. apply runs_bind.
  eapply runs_mono, (link_runs ni R ({[+ p +]} ⊎ H) s12 p [(p, b)] Hs12); [|held_in|by rewrite Est].
  intros r s2 (Hs2 & (Ht2 & Hc2 & Hsent2 & Hk2) & Hko2). apply runs_bind. unfold runs at 1, ETHARP_STATS_INC, modify.
  set (s3 := Arp _ _ _ _). apply runs_bind. assert (arp_bufs ni R ({[+ p +]} ⊎ H) s3) as Hs3 by by apply (arp_bufs_net _ _ _ s2).
  apply (free_runs ni R H s3 p _ Hs3). intros x b4 Hs4 Ed4 Hk4. unfold runs, mret, M_ret. split; [done|].
  change (bufs s3) with (bufs s2) in *. rewrite Est, Et in Hk2. change (arp_table s3) with (arp_table s2) in Hk4. rewrite Ht2, Et in Hk4.
  split.
  - split; [by rewrite <-Et, <-Ht2|]. split; [by rewrite <-Ec, <-Hc2|]. split; [by rewrite <-Er, <-Econ, <-Hsent2|].
    etrans; [exact Hk1|]. etrans; [eapply kept_subset, Hk2; held_in|]. exact Hk4.
  - apply (kept_octets_trans H (bufs s) (bufs s12)).
    + rewrite Est. eapply kept_subset, Hk1. held_in.
    + apply (kept_octets_fresh H (bufs s) L b1 L' p b); [done|done|by left|done].
    + apply (kept_octets_trans H (bufs s12) (bufs s2)); [rewrite Est; eapply kept_subset, Hk2; held_in| |].
      * eapply kept_octets_subset, Hko2. held_in.
      * by apply kept_octets_same.
Qed.

Lemma request_runs ni R H s ipaddr :
  arp_bufs ni R H s → ni_hwaddr_len ni = ETHARP_HWADDR_LEN → length (ni_hwaddr ni) = 6%nat →
  runs (etharp_request ni ipaddr) s (λ r s', arp_bufs ni R H s' ∧
    sends H (arp_frame ethbroadcast (ni_hwaddr ni) ARP_REQUEST (ni_hwaddr ni) (ni_ip_addr ni) ethzero ipaddr) s r s' ∧ kept_octets H (bufs s) (bufs s')).
Proof. intros Hs Hni Hl. apply raw_runs; try done. by left. Qed.
End Send.
