(* ===== verification/EthArpOps.v ===== *)
(** * The operations of address resolution

    Ageing, learning addresses, sending and queueing packets, answering. *)

From S2P Require Import Prelude LwipBase IpAddr InetChksum Heap Memp Pbuf PbufChain PbufLinks PbufData PbufMake PbufAlloc PbufClaims PbufRefs Netif EthArp EthArpTable EthArpSend.
From Stdlib Require Import ZArith Lia.
From stdpp Require Import base numbers gmultiset list gmap.
Open Scope Z_scope.

(** ** Ageing *)

(** An entry after one period of [ARP_TMR_INTERVAL]. *)
Definition aged (e : etharp_entry) : etharp_entry :=
  match ae_state e with
  | ETHARP_STATE_EMPTY => e
  | ETHARP_STATE_PENDING =>
     let e := with_ctime (ae_ctime e + 1) e in if ae_ctime e <? ARP_MAXPENDING then e else emptied e
  | ETHARP_STATE_STABLE =>
     let e := with_ctime (ae_ctime e + 1) e in if ae_ctime e <? ARP_MAXAGE then e else emptied e
  end.

Section Ops.
Context {A N : Type} {BA : BufAlloc A} {LA : BufAllocLaws A} {LO : LinkOutput A N} {LL : LinkOutputLaws A N}.
Implicit Types (s : arp_state A N).

Lemma tick_runs ni R H s (n : nat) e (expired : etharp_entry → bool) :
  arp_bufs ni R H s → arp_table s !! n = Some e → 0 ≤ ae_ctime e < 255 →
  runs (set_entry (Z.of_nat n) (with_ctime (u8 (ae_ctime e + 1)));;
        e ← get_entry (Z.of_nat n); if expired e then free_entry (Z.of_nat n) else mret tt) s
    (λ _ s', arp_bufs ni R H s' ∧ frame H s s' ∧
       let e1 := with_ctime (ae_ctime e + 1) e in
       arp_table s' = <[n := if expired e1 then emptied e1 else e1]> (arp_table s)).
Proof.
  intros Hs He Hc. pose proof (lookup_lt_Some _ _ _ He) as Hlt. rewrite u8_small by (unfold is_u8; lia).
  apply runs_bind. eapply set_entry_runs; [by rewrite Nat2Z.id|]. rewrite Nat2Z.id.
  set (e1 := with_ctime (ae_ctime e + 1) e). set (s1 := with_table _ s).
  assert (arp_bufs ni R H s1) as Hs1 by by apply arp_bufs_entry with e.
  assert (arp_table s1 !! n = Some e1) as He1 by by apply list_lookup_insert_eq.
  apply runs_bind. eapply get_entry_runs; [by rewrite Nat2Z.id|]. cbv zeta. destruct (expired e1).
  - eapply runs_mono, (free_entry_runs ni R H s1 n e1 Hs1 He1). intros _ s2 (Hs2 & F & E). split; [done|].
    split; [eapply frame_trans, F; by apply frame_same|]. rewrite E. cbn. by rewrite list_insert_insert_eq.
  - unfold runs, mret, M_ret. split; [done|]. by split; [by apply frame_same|].
Qed.

Lemma tmr_entry_runs ni R H s (n : nat) e :
  arp_bufs ni R H s → arp_table s !! n = Some e → entry_ok e →
  runs (tmr_entry (Z.of_nat n)) s (λ _ s', arp_bufs ni R H s' ∧ frame H s s' ∧ arp_table s' = <[n := aged e]> (arp_table s)).
Proof.
  intros Hs He Hok. unfold tmr_entry. apply runs_bind. eapply get_entry_runs; [by rewrite Nat2Z.id|].
  pose proof (eo_age _ Hok) as Hc0. destruct (decide (ae_state e = ETHARP_STATE_EMPTY)) as [Est|Est].
  { rewrite bool_decide_eq_false_2 by (by intros ?). unfold runs, mret, M_ret, aged. rewrite Est. split; [done|].
    split; [by apply frame_same|]. by rewrite list_insert_id. }
  rewrite bool_decide_eq_true_2 by done.
  assert (ae_ctime e < ARP_MAXAGE) as Hc.
  { destruct (ae_state e) eqn:E; [done| |by apply (eo_stable _ Hok)]. pose proof (eo_pending _ Hok E).
    unfold ARP_MAXAGE, ARP_MAXPENDING in *. lia. }
  eapply runs_mono, (tick_runs ni R H s n e (λ e, (ARP_MAXAGE <=? ae_ctime e) ||
    (bool_decide (ae_state e = ETHARP_STATE_PENDING) && (ARP_MAXPENDING <=? ae_ctime e))) Hs He);
    [|unfold ARP_MAXAGE in *; lia].
  intros _ s' (Hs' & F & E). split; [done|]. split; [done|]. rewrite E. f_equal. unfold aged. cbv zeta.
  destruct (ae_state e) eqn:Es; [done|..]; cbn [ae_state with_ctime]; rewrite Es, !Z.leb_antisym.
  - pose proof (eo_pending _ Hok Es). rewrite (bool_decide_eq_true_2 (_ = ETHARP_STATE_PENDING)) by done.
    rewrite (proj2 (Z.ltb_lt _ ARP_MAXAGE)) by (unfold ARP_MAXAGE, ARP_MAXPENDING in *; simpl; lia). cbn [negb orb andb].
    by destruct (_ <? _).
  - rewrite (bool_decide_eq_false_2 (_ = ETHARP_STATE_PENDING)), orb_false_r by done. by destruct (_ <? _).
Qed.

Lemma tmr_loop_runs ni R H pre tab s :
  arp_bufs ni R H s → arp_table s = pre ++ tab → Forall entry_ok tab →
  runs (tmr_loop (length tab) (Z.of_nat (length pre))) s
    (λ _ s', arp_bufs ni R H s' ∧ frame H s s' ∧ arp_table s' = pre ++ map aged tab).
Proof.
  revert pre s. induction tab as [|e tab IH]; intros pre s Hs Et Hok; cbn [length tmr_loop].
  { unfold runs, mret, M_ret. split; [done|]. by split; [apply frame_same|]. }
  apply Forall_cons in Hok as [He Hok]. apply runs_bind.
  assert (arp_table s !! length pre = Some e) as Hl by (rewrite Et, lookup_app_r, Nat.sub_diag by lia; done).
  eapply runs_mono, (tmr_entry_runs ni R H s (length pre) e Hs Hl He). intros _ s1 (Hs1 & F1 & E1).
  replace (Z.of_nat (length pre) + 1) with (Z.of_nat (length (pre ++ [aged e]))) by (rewrite length_app; simpl; lia).
  eapply runs_mono, (IH (pre ++ [aged e]) s1 Hs1); [| |done].
  - intros _ s2 (Hs2 & F2 & E2). split; [done|]. split; [by eapply frame_trans|]. rewrite E2, <-app_assoc. done.
  - rewrite E1, Et, insert_app_r_alt, Nat.sub_diag, <-app_assoc by lia. done.
Qed.

Lemma etharp_tmr_runs ni R H s :
  arp_bufs ni R H s → table_ok (arp_table s) →
  runs etharp_tmr s (λ _ s', arp_bufs ni R H s' ∧ frame H s s' ∧ arp_table s' = map aged (arp_table s)).
Proof.
  intros Hs Ht. unfold etharp_tmr. rewrite <-(to_len _ Ht). apply (tmr_loop_runs ni R H [] (arp_table s) s Hs eq_refl).
  apply (to_entries _ Ht).
Qed.
End Ops.

Lemma aged_ok e : entry_ok e → entry_ok (aged e).
Proof.
  intros [Hq Hh Ha Hp Hs]. unfold aged. destruct (ae_state e) eqn:E.
  - by split; rewrite ?E.
  - cbv zeta. destruct (Z.ltb_spec (ae_ctime (with_ctime (ae_ctime e + 1) e)) ARP_MAXPENDING); split; cbn in *; rewrite ?E; (done || lia).
  - cbv zeta. destruct (Z.ltb_spec (ae_ctime (with_ctime (ae_ctime e + 1) e)) ARP_MAXAGE); split; cbn in *; rewrite ?E; auto; (done || lia).
Qed.
Lemma aged_in_use e : in_use (aged e) → in_use e ∧ ae_ipaddr (aged e) = ae_ipaddr e.
Proof.
  unfold in_use, aged. destruct (ae_state e) eqn:E; [by rewrite E|..]; cbv zeta; case_match; cbn; rewrite ?E; by intros ?.
Qed.
Lemma aged_table tab : table_ok tab → table_ok (map aged tab).
Proof.
  intros Ht. split.
  - rewrite length_map. apply (to_len _ Ht).
  - apply Forall_map. eapply Forall_impl; [apply (to_entries _ Ht)|]. apply aged_ok.
  - intros i j d e Hd He Hud Hue E. change (map aged tab) with (aged <$> tab) in *.
    rewrite list_lookup_fmap in Hd, He. destruct (tab !! i) as [d0|] eqn:Hd0; [|done]. destruct (tab !! j) as [e0|] eqn:He0; [|done].
    injection Hd as <-. injection He as <-. apply aged_in_use in Hud as [Hud Ed], Hue as [Hue Ee].
    apply (to_unique _ Ht i j d0 e0 Hd0 He0 Hud Hue). congruence.
Qed.

(** ** Learning *)

Record ethernet (ni : netif) : Prop := {
  en_len : ni_hwaddr_len ni = ETHARP_HWADDR_LEN;
  en_hwaddr : is_hwaddr (ni_hwaddr ni) }.

Definition unicast (ni : netif) (ipaddr : Z) : bool :=
  negb (ip_addr_isany ipaddr || ip_addr_isbroadcast ipaddr ni || ip_addr_ismulticast ipaddr).

(** The entry for an address: the one it has, or the one to recycle. *)
Definition slot (flags ipaddr : Z) (tab : list etharp_entry) (n : nat) (e : etharp_entry) : Prop :=
  (tab !! n = Some e ∧ in_use e ∧ ae_ipaddr e = ipaddr) ∨
  (chosen tab n e ∧ no_match ipaddr tab ∧ Z.land flags ETHARP_FLAG_FIND_ONLY = 0 ∧
   (is_empty e ∨ Z.land flags ETHARP_FLAG_TRY_HARD ≠ 0)).

Definition learned (ipaddr : Z) (ethaddr : list Z) : etharp_entry := Entry 0 ipaddr ethaddr ETHARP_STATE_STABLE 0.

Lemma slot_lookup flags ipaddr tab n e : slot flags ipaddr tab n e → tab !! n = Some e.
Proof. by intros [(? & _)|([? _] & _)]. Qed.

(** An entry set up for [ipaddr] keeps the table in order. *)
Lemma slot_table flags ipaddr tab n e e' :
  table_ok tab → slot flags ipaddr tab n e → entry_ok e' → ae_ipaddr e' = ipaddr → table_ok (<[n := e']> tab).
Proof.
  intros Ht Hsl Hok E. apply table_set with e; [done|by eapply slot_lookup|done|]. intros Hu j d Hj Hd Hud Ed.
  destruct Hsl as [(He & Hue & Eip)|(_ & Hm & _)].
  - apply Hj. apply (to_unique _ Ht j n d e Hd He Hud Hue). congruence.
  - apply (proj1 (Forall_lookup _ _) Hm j d Hd Hud). congruence.
Qed.

Section Learn.
Context {A N : Type} {BA : BufAlloc A} {LA : BufAllocLaws A} {LO : LinkOutput A N} {LL : LinkOutputLaws A N}.
Implicit Types (s : arp_state A N).

(** The entry [find_entry] hands out, and the state it leaves. *)
Definition looked_up (H : gmultiset Z) (flags ipaddr : Z) s (n : nat) (e e1 : etharp_entry) s1 : Prop :=
  slot flags ipaddr (arp_table s) n e ∧ arp_table s1 = <[n := e1]> (arp_table s) ∧ frame H s s1 ∧
  ((in_use e ∧ ae_ipaddr e = ipaddr ∧ e1 = e ∧ s1 = s) ∨
   (no_match ipaddr (arp_table s) ∧ e1 = renewed ipaddr (vacated e) ∧ is_empty e1 ∧ ae_q e1 = 0)).

Lemma find_slot_runs {B} ni R H s ipaddr flags (k : Z → M (arp_state A N) B) (Q : B → arp_state A N → Prop) :
  arp_bufs ni R H s → table_ok (arp_table s) →
  (not_found ipaddr flags s ERR_MEM s → runs (k ERR_MEM) s Q) →
  (∀ n e e1 s1, looked_up H flags ipaddr s n e e1 s1 → arp_bufs ni R H s1 → (n < 4)%nat → runs (k (Z.of_nat n)) s1 Q) →
  runs (find_entry (Some ipaddr) flags ≫= k) s Q.
Proof.
  intros Hs Ht Hno Hyes. pose proof (to_len _ Ht) as Hlen. apply runs_bind.
  eapply runs_mono, (find_entry_runs ni R H s ipaddr flags Hs Ht).
  intros i s1 [Hs1 [(n & e & -> & He & Hu & E & ->)|[Hn|(n & e & -> & Hc & Hm & Hf & Ht' & E & F)]]].
  - apply (Hyes n e e); [|done|apply lookup_lt_Some in He; by rewrite Hlen in He].
    split; [by left|]. split; [by rewrite list_insert_id|]. split; [by apply frame_same|by left].
  - pose proof Hn as (-> & -> & _). by apply Hno.
  - pose proof Hc as [He _]. apply (Hyes n e (renewed ipaddr (vacated e))); [|done|apply lookup_lt_Some in He; by rewrite Hlen in He].
    split; [by right|]. split; [done|]. split; [done|right]. split; [done|]. split; [done|].
    split; [apply vacated_empty|apply vacated_queue; by eapply table_entry].
Qed.

(** The frame that an answer sets free, if any. *)
Definition released ni s (e : etharp_entry) (ipaddr : Z) (ethaddr : list Z) (fs : list (list Z)) : Prop :=
  fs = [] ∨ (ae_state e = ETHARP_STATE_PENDING ∧ ae_ipaddr e = ipaddr ∧ ae_q e ≠ 0 ∧ ∃ l, packet (pb_store (bufs s)) (ae_q e) l ∧
    fs = [ip_frame ethaddr (ni_hwaddr ni) (drop 14 (contents (pb_data (bufs s)) l))]).

Definition updated ni (H : gmultiset Z) (flags ipaddr : Z) (ethaddr : list Z) s s' : Prop :=
  ∃ n e fs, slot flags ipaddr (arp_table s) n e ∧ arp_table s' = <[n := learned ipaddr ethaddr]> (arp_table s) ∧
    etharp_cached_entry s' = etharp_cached_entry s ∧ released ni s e ipaddr ethaddr fs ∧
    link_sent (rest s') = link_sent (rest s) ++ fs ∧ kept_packets H (pb_store (bufs s)) (pb_store (bufs s')) ∧
    kept_exclusive H (bufs s) (bufs s').

(** From the entry to the packet that waited for it. *)
Lemma learn_runs ni R H s (n : nat) e ethaddr :
  arp_bufs ni R H s → arp_table s !! n = Some e → (ae_q e ≠ 0 → ae_state e = ETHARP_STATE_PENDING) → ethernet ni → is_hwaddr ethaddr →
  runs (set_entry (Z.of_nat n) (with_state ETHARP_STATE_STABLE);;
        set_entry (Z.of_nat n) (with_ethaddr ethaddr);;
        set_entry (Z.of_nat n) (with_ctime 0);;
        e ← get_entry (Z.of_nat n);
        (if negb (ae_q e =? 0) then
           let p := ae_q e in
           set_entry (Z.of_nat n) (with_q 0);;
           etharp_send_ip ni p (ni_hwaddr ni) ethaddr;;
           on_bufs (pbuf_free p);;
           mret tt
         else mret tt);;
        mret ERR_OK) s
    (λ r s', arp_bufs ni R H s' ∧ r = ERR_OK ∧ arp_table s' = <[n := learned (ae_ipaddr e) ethaddr]> (arp_table s) ∧
       etharp_cached_entry s' = etharp_cached_entry s ∧
       (∃ fs, released ni s e (ae_ipaddr e) ethaddr fs ∧ link_sent (rest s') = link_sent (rest s) ++ fs) ∧
       kept_packets H (pb_store (bufs s)) (pb_store (bufs s')) ∧
       (ae_q e = 0 → pb_data (bufs s') = pb_data (bufs s)) ∧ kept_exclusive H (bufs s) (bufs s')).
Proof.
  intros Hs He Hst [Hnl [Hnh _]] [Heth _]. pose proof (lookup_lt_Some _ _ _ He) as Hlt.
  apply runs_bind. eapply set_entry_runs; [by rewrite Nat2Z.id|]. rewrite Nat2Z.id.
  apply runs_bind. eapply set_entry_runs; [rewrite Nat2Z.id; cbn; by apply list_lookup_insert_eq|].
  apply runs_bind. eapply set_entry_runs; [rewrite Nat2Z.id; cbn; apply list_lookup_insert_eq; by rewrite length_insert|].
  rewrite !Nat2Z.id. cbn [arp_table with_table]. rewrite !list_insert_insert_eq.
  set (e2 := with_ctime 0 _). set (s2 := with_table _ _).
  assert (arp_bufs ni R H s2) as Hs2 by by apply (arp_bufs_entry ni R H s n e).
  assert (arp_table s2 !! n = Some e2) as He2 by by apply list_lookup_insert_eq.
  apply runs_bind. eapply get_entry_runs; [by rewrite Nat2Z.id|]. change (ae_q e2) with (ae_q e). apply runs_bind.
  destruct (Z.eqb_spec (ae_q e) 0) as [Eq|Eq]; cbn [negb].
  { unfold runs, mret, M_ret. split; [done|]. split; [done|].
    split; [cbn; f_equal; unfold e2, with_ctime, with_ethaddr, with_state; cbn; by rewrite Eq|]. split; [done|].
    split; [exists []; split; [by left|by rewrite app_nil_r]|]. split; [done|]. split; [done|]. by apply kept_exclusive_same. }
  cbv zeta. apply runs_bind. eapply set_entry_runs; [by rewrite Nat2Z.id|]. rewrite Nat2Z.id. set (s3 := with_table _ _).
  assert (arp_table s3 = <[n := learned (ae_ipaddr e) ethaddr]> (arp_table s)) as E3 by (cbn; by rewrite list_insert_insert_eq).
  destruct (ab_queue _ _ _ _ Hs e (list_elem_of_lookup_2 _ _ _ He) Eq) as (l & Hpk & Hsd & Hown).
  destruct l as [|[q b] l]; [done|]. pose proof (pk_chain _ _ _ Hpk) as (<- & _).
  assert (arp_bufs ni R ({[+ ae_q e +]} ⊎ H) s3) as Hs3.
  { apply (arp_bufs_requeue ni R H _ s2 n e2 (with_q 0 e2)); [done|done| |done].
    change (ae_q e2) with (ae_q e). change (ae_q (with_q 0 e2)) with 0. rewrite tok_0, tok_ne by done. mset. }
  apply runs_bind. eapply runs_mono, (send_ip_runs ni R ({[+ ae_q e +]} ⊎ H) s3 (ae_q e) b l); [|done|held_in|done..].
  intros r s4 (Hs4 & (Et4 & Ec4 & Esent & K4) & Ko4). apply runs_bind. apply (free_runs ni R H s4 _ _ Hs4).
  intros x b5 Hs5 Ed5 K5. unfold runs, mret, M_ret. split; [done|]. split; [done|].
  split; [by rewrite <-E3, <-Et4|]. split; [done|]. split.
  - eexists. split; [|exact Esent]. destruct (decide (r = ERR_OK)); [|by left]. right.
    split; [by apply Hst|]. split; [done|]. split; [done|]. by exists ((ae_q e, b) :: l).
  - split; [etrans; [eapply kept_subset, K4; held_in|]; eapply kept_subset, K5; held_in|]. split; [done|].
    intros h k Hh Hk Hok Hx. change (pb_data (bufs (with_bufs b5 s4))) with (pb_data b5). rewrite Ed5. apply (Ko4 h); [held_in|done|done|].
    pose proof (ab_held _ _ _ _ Hs) as [(L & HL & _) Hct]. pose proof (pk_chain _ _ _ Hpk) as (_ & _ & Hb & _).
    eapply clear_of_sub; [reflexivity| |apply (owns_clear _ L (ae_q e) b h k HL Hb)]; [by apply Z.add_le_mono_l, Hsd| |done|done|].
    + by apply Forall_cons in Hown as [? _].
    + rewrite <-gmultiset_disj_union_assoc in Hct. apply (exclusive_apart _ _ _ _ _ _ Hct Hh Hk Hx).
      apply gmultiset_elem_of_disj_union. left. apply queued_in; [by eapply list_elem_of_lookup_2|done].
Qed.

Lemma update_runs ni R H s ipaddr ethaddr flags :
  arp_bufs ni R H s → table_ok (arp_table s) → ethernet ni → is_hwaddr ethaddr →
  runs (update_arp_entry ni ipaddr ethaddr flags) s (λ r s', arp_bufs ni R H s' ∧
    ((r = ERR_ARG ∧ unicast ni ipaddr = false ∧ s' = s) ∨
     (unicast ni ipaddr = true ∧ not_found ipaddr flags s r s') ∨
     (r = ERR_OK ∧ unicast ni ipaddr = true ∧ updated ni H flags ipaddr ethaddr s s'))).
Proof.
  intros Hs Ht Hni Heth. unfold update_arp_entry. apply runs_assert; [by apply Z.eqb_eq, en_len|].
  unfold unicast. destruct (_ || _) eqn:Eu; [unfold runs, mret, M_ret; by auto|].
  apply (find_slot_runs ni R H); [done|done| |].
  { intros Hn. change (ERR_MEM <? 0) with true. unfold runs, mret, M_ret. split; [done|]. right. left. by split. }
  intros n e e1 s1 (Hsl & E1 & (Er1 & Ec1 & Ed1 & K1) & Hcase) Hs1 Hn4. pose proof (slot_lookup _ _ _ _ _ Hsl) as He.
  rewrite (proj2 (Z.ltb_ge _ _)) by lia. pose proof (lookup_lt_Some _ _ _ He) as Hlt.
  assert (arp_table s1 !! n = Some e1) as He1 by (rewrite E1; by apply list_lookup_insert_eq).
  eapply runs_mono, (learn_runs ni R H s1 n e1 ethaddr); [|done|done| |done|done].
  - intros r s' (Hs' & -> & Et & Ec & (fs & Hrel & Esent) & K & Ked & Kx). split; [done|]. do 2 right. do 2 (split; [done|]).
    assert (ae_ipaddr e1 = ipaddr) as Eip by (destruct Hcase as [(_ & ? & -> & _)|(_ & -> & _)]; done). rewrite Eip in *.
    exists n, e, fs. split; [done|]. split; [by rewrite Et, E1, list_insert_insert_eq|]. split; [congruence|].
    split; [|split; [by rewrite Esent, Er1|split; [by etrans|]]].
    + destruct Hcase as [(_ & _ & -> & ->)|(_ & _ & Hem & _)]; [done|]. left. destruct Hrel as [?|(? & _)]; [done|]. unfold is_empty in Hem. congruence.
    + destruct Hcase as [(_ & _ & -> & ->)|(_ & _ & _ & Hq)]; [done|]. apply kept_exclusive_same. by rewrite Ked, Ed1.
  - destruct Hcase as [(Hu & _ & -> & _)|(_ & _ & _ & Hq)]; [|done]. intros Hq. pose proof (table_entry _ _ _ Ht He) as Hok.
    destruct (decide (ae_state e = ETHARP_STATE_PENDING)); [done|]. exfalso. by apply Hq, (eo_queue _ Hok).
Qed.

Lemma updated_table ni H flags ipaddr ethaddr s s' :
  table_ok (arp_table s) → is_hwaddr ethaddr → updated ni H flags ipaddr ethaddr s s' → table_ok (arp_table s').
Proof.
  intros Ht Heth (n & e & fs & Hsl & -> & _). eapply slot_table; [done|done| |done]. by split.
Qed.
End Learn.
