(* ===== verification/EthArpQuery.v ===== *)
(** * Packets that wait for resolution, and output

    [etharp_query] and [etharp_output]: a packet goes to the address in the
    table, or waits, as a copy, for the answer to a request. *)

From S2P Require Import Prelude LwipBase IpAddr InetChksum Heap Memp Pbuf PbufChain PbufLinks PbufData PbufMake PbufAlloc PbufClaims PbufRefs Netif EthArp EthArpTable EthArpSend EthArpOps.
From Stdlib Require Import ZArith Lia.
From stdpp Require Import base numbers gmultiset list gmap.
Open Scope Z_scope.

Section Query.
Context {A N : Type} {BA : BufAlloc A} {LA : BufAllocLaws A} {LO : LinkOutput A N} {LL : LinkOutputLaws A N}.

(** ** Taking a packet over *)

Lemma single_next q b l st :
  chain st q ((q, b) :: l) → lens_ok ((q, b) :: l) → nonempty ((q, b) :: l) →
  (negb (p_len b =? p_tot_len b) || (p_next b =? 0)) = true.
Proof.
  intros (_ & _ & _ & Hc) (_ & Et & Hl) Hne. destruct l as [|[a c] l]; [simpl in Hc; rewrite Hc; apply orb_true_r|].
  apply Forall_cons in Hne as [_ [Hc0 _]%Forall_cons]. destruct Hl as (_ & _ & Hl). pose proof (lens_nonneg _ Hl).
  simpl in *. by rewrite (proj2 (Z.eqb_neq (p_len b) _)) by lia.
Qed.

Lemma take_over_ok (b : pbufs_state A) R H q l :
  held_ok b R H → packet (pb_store b) q l → own_octets l → nonempty l → total_len l ≤ 65000 →
  ∃ p b', take_over q b = Ok (p, b') ∧ held_ok b' R (hold p H) ∧ kept_packets H (pb_store b) (pb_store b') ∧
    kept_octets H b b' ∧
    (p ≠ 0 → ∃ c, packet (pb_store b') p [(p, c)] ∧ owns c ∧ p_len c = total_len l ∧
       contents (pb_data b') [(p, c)] = contents (pb_data b) l).
Proof.
  intros Hh Hpk Ho Hne Hfit. destruct l as [|[q' bq] l]; [by destruct (pk_ne _ _ _ Hpk)|].
  pose proof (pk_chain _ _ _ Hpk) as (<- & Hq & Hbq & _). pose proof (pk_lens _ _ _ Hpk) as Hlens.
  set (k := (q, bq) :: l) in *. assert (owns bq) as Hobq by by apply Forall_cons in Ho as [? _].
  assert (copy_needed_from (pbuf_fuel b) q b = Ok (q, b)) as Ecn.
  { unfold pbuf_fuel. cbn [copy_needed_from]. rewrite (proj2 (Z.eqb_neq _ _) Hq), (get_pbuf_step _ _ _ _ Hbq).
    rewrite assert_true by (by apply (single_next q bq l _ (pk_chain _ _ _ Hpk) Hlens Hne)).
    rewrite bool_decide_eq_true_2; [done|]. by destruct Hobq as [-> | ->]. }
  unfold take_over. rewrite gets_bind, (bind_ok _ _ _ _ _ Ecn), (proj2 (Z.eqb_neq _ _) Hq). cbn [negb].
  rewrite (get_pbuf_step _ _ _ _ Hbq). assert (p_tot_len bq = total_len k) as Etl by apply Hlens.
  pose proof (lens_nonneg _ Hlens) as Hn0. rewrite Etl. pose proof (align_size_bounds (total_len k)) as Hal.
  destruct (pbuf_alloc_held b R H PBUF_RAW (total_len k) PBUF_RAM Hh) as (p & b1 & Ea & Hh1 & Ed & Hk1 & Hnew);
    [unfold is_u16; lia|intros _; change (LWIP_MEM_ALIGN_SIZE (SIZEOF_STRUCT_PBUF + header_offset PBUF_RAW)) with 16; lia|].
  rewrite (bind_ok _ _ _ _ _ Ea). destruct (Z.eqb_spec p 0) as [->|Hp]; cbn [negb].
  { exists 0, b1. split; [done|]. split; [done|]. split; [done|]. split; [|done]. intros h j _ _ _. by rewrite Ed. }
  destruct (Hnew Hp) as (L & L' & c & l1 & Hok & Hex & Hpk1 & Ht & Hnc & Hone & _). rewrite Hone in * by done. clear Hone Hnew.
  apply Forall_singleton in Hnc as (_ & _ & Hty). cbn [snd] in Hty. assert (owns c) as Hoc by by left.
  change (total_len [(p, c)]) with (p_len c + 0) in Ht. rewrite Z.add_0_r in Ht. pose proof (ex_ok _ _ _ _ _ Hex) as Hok1.
  pose proof (pk_chain _ _ _ Hpk1) as (_ & _ & Hc & _).
  destruct (extends_chain _ _ _ _ _ _ _ _ Hex (pk_chain _ _ _ Hpk)) as [Hpk' Hck].
  assert (0 < total_len k) as Hpos.
  { apply Forall_cons in Hne as [Hb0 _]. destruct Hlens as (_ & _ & Hl%lens_nonneg). cbn [snd] in Hb0. change (total_len k) with (p_len bq + total_len l). lia. }
  destruct (pbuf_copy_ok b1 p q [(p, c)] k Hpk1) as (m' & Ecp & Ecn' & Hm'); try done.
  { split; [done|done|apply (pk_u16 _ _ _ Hpk)|done]. }
  { apply Forall_singleton. cbn [snd]. lia. }
  { change (total_len [(p, c)]) with (p_len c + 0). lia. }
  { split; [by constructor|done]. }
  { apply Forall_singleton. by apply (owns_clear b1 L' p c q k). }
  rewrite (bind_ok _ _ _ _ _ Ecp). change (negb (ERR_OK =? ERR_OK)) with false. cbv iota.
  eexists p, _. split; [done|]. split; [by apply held_ok_data|]. split; [exact Hk1|]. cbn [pb_data pb_store]. split.
  - apply (kept_octets_fresh H b L b1 L' p c); [done..|]. cbn [pb_data]. rewrite <-Ed.
    intros x Hx. apply Hm'. apply Forall_singleton. exact Hx.
  - intros _. exists c. split; [done|]. split; [done|]. split; [done|]. rewrite Ecn', Ed.
    rewrite drop_ge, app_nil_r; [done|].
    pose proof (length_contents (pb_data b) k Hlens). pose proof (length_contents (pb_data b) [(p, c)] (pk_lens _ _ _ Hpk1)) as Hlp.
    change (total_len [(p, c)]) with (p_len c + 0) in Hlp. lia.
Qed.

(** A packet to send: it has its own octets, and room for the header. *)
Record outgoing (st : store) (q : Z) (l : list cell) : Prop := {
  og_packet : packet st q l;
  og_sendable : sendable l;
  og_owns : own_octets l;
  og_nonempty : nonempty l;
  og_fits : total_len l ≤ 65000 }.

Lemma outgoing_kept H (st st' : store) q l :
  kept_packets H st st' → q ∈ H → outgoing st q l → ∃ l', outgoing st' q l' ∧ bares l' = bares l.
Proof.
  intros Hk Hq [Hp Hs Ho Hn Hf]. destruct (packet_kept _ _ _ _ _ Hk Hq Hp) as (l' & Hp' & E). exists l'. split; [|done].
  symmetry in E. destruct (bares_packet l l' (λ _, 0) E) as (Et & _). split; [done|by apply sendable_bares with l|
    by apply owns_bares with l|by apply nonempty_bares with l|by rewrite <-Et].
Qed.

Implicit Types (s : arp_state A N).

(** The packet is put on a pending entry, in place of the one before. *)
Lemma queue_runs ni R H s (n : nat) e q l :
  arp_bufs ni R H s → arp_table s !! n = Some e → outgoing (pb_store (bufs s)) q l → q ∈ H →
  runs (p ← on_bufs (take_over q);
        if negb (p =? 0) then
          (if negb (ae_q e =? 0) then on_bufs (pbuf_free (ae_q e));; mret tt else mret tt);;
          set_entry (Z.of_nat n) (with_q p);;
          mret ERR_OK
        else
          ETHARP_STATS_INC c_memerr;;
          mret ERR_MEM) s
    (λ r s', arp_bufs ni R H s' ∧ rest s' = rest s ∧ etharp_cached_entry s' = etharp_cached_entry s ∧
       kept_packets H (pb_store (bufs s)) (pb_store (bufs s')) ∧
       ((r = ERR_OK ∧ ∃ p c, p ≠ 0 ∧ arp_table s' = <[n := with_q p e]> (arp_table s) ∧
           packet (pb_store (bufs s')) p [(p, c)] ∧ contents (pb_data (bufs s')) [(p, c)] = contents (pb_data (bufs s)) l) ∨
        (r = ERR_MEM ∧ arp_table s' = arp_table s))).
Proof.
  intros Hs He [Hp Hsd Ho Hne Hfit] Hq. pose proof Hs as [Hh Hqu Hlk].
  destruct (take_over_ok (bufs s) R _ q l Hh Hp Ho Hne Hfit) as (p & b1 & Eto & Hh1 & Hk1 & _ & Hp1).
  apply runs_bind. eapply on_bufs_runs; [exact Eto|].
  assert (arp_bufs ni R (hold p H) (with_bufs b1 s)) as Hs1.
  { eapply arp_bufs_step; [exact Hs| |eapply kept_subset, Hk1; held_in].
    rewrite hold_tok in *. by rewrite <-!gmultiset_disj_union_assoc in *. }
  assert (kept_packets H (pb_store (bufs s)) (pb_store b1)) as Hk1' by (eapply kept_subset, Hk1; held_in).
  destruct (Z.eqb_spec p 0) as [->|Hpne]; cbn [negb].
  { rewrite hold_0 in Hs1. unfold runs, ETHARP_STATS_INC, modify, mret, M_ret.
    split; [by apply (arp_bufs_net _ _ _ (with_bufs b1 s))|]. do 2 (split; [done|]). split; [done|]. by right. }
  destruct (Hp1 Hpne) as (c & Hpk1 & Hoc & Hlen & Hcont). rewrite hold_ne in Hs1 by done.
  assert (queueable [(p, c)]) as Hsd1.
  { split; [|by apply Forall_singleton]. split; [|by constructor]. destruct l as [|[a d] l]; [done|]. destruct Hsd as [Hd _]. rewrite Hlen.
    destruct (pk_lens _ _ _ Hp) as (_ & _ & Hl%lens_nonneg). simpl. lia. }
  set (s1 := with_bufs b1 s) in *. change (arp_table s) with (arp_table s1) in He |- *. set (e' := with_q p e).
  apply runs_bind. destruct (Z.eqb_spec (ae_q e) 0) as [Eq|Eq]; cbn [negb].
  - unfold runs at 1, mret, M_ret. apply runs_bind. eapply set_entry_runs; [by rewrite Nat2Z.id|]. rewrite Nat2Z.id.
    fold e'. unfold runs, M_ret. split.
    + apply (arp_bufs_requeue ni R _ H s1 n e e' Hs1 He); [|intros _; by exists [(p, c)]].
      rewrite Eq, tok_0. change (ae_q e') with p. rewrite tok_ne by done. mset.
    + do 2 (split; [done|]). split; [done|]. left. split; [done|]. by exists p, c.
  - apply runs_bind.
    assert (arp_bufs ni R ({[+ ae_q e +]} ⊎ H) (with_table (<[n := e']> (arp_table s1)) s1)) as Hs2.
    { apply (arp_bufs_requeue ni R _ _ s1 n e e' Hs1 He); [|intros _; by exists [(p, c)]].
      change (ae_q e') with p. rewrite !tok_ne by done. mset. }
    set (s2 := with_table (<[n := e']> (arp_table s1)) s1) in *. pose proof (ab_held _ _ _ _ Hs2) as Hh2.
    rewrite <-!gmultiset_disj_union_assoc in Hh2. destruct (pbuf_free_held _ _ _ _ Hh2) as (x & b & Ef & Hh3 & Ed & _ & Hk3).
    rewrite gmultiset_disj_union_assoc in Hh3.
    eapply on_bufs_runs; [exact Ef|]. unfold runs at 1, mret, M_ret.
    apply runs_bind. eapply set_entry_runs; [by rewrite Nat2Z.id|]. rewrite Nat2Z.id. fold e'. unfold runs, M_ret.
    split; [apply (arp_bufs_step ni R _ H s2 b Hs2 Hh3); eapply kept_subset, Hk3; held_in|].
    do 2 (split; [done|]). split; [etrans; [exact Hk1'|]; eapply kept_subset, Hk3; held_in|].
    left. split; [done|]. assert (p ∈ H ⊎ (queued (arp_table s2) ⊎ link_holds (rest s2))) as Hin.
    { assert (p ∈ queued (arp_table s2)); [|held_in]. apply (queued_in (arp_table s2) e'); [|done].
      apply list_elem_of_lookup_2 with n. apply list_lookup_insert_eq. by eapply lookup_lt_Some. }
    destruct (packet_kept _ _ _ p _ Hk3 Hin Hpk1) as (l' & Hpk' & El').
    destruct (bares_packet l' _ (pb_data b) El') as (_ & _ & Ec').
    destruct l' as [|[p' c'] [|]]; [done| |done]. pose proof (pk_chain _ _ _ Hpk') as (<- & _).
    exists p, c'. split; [done|]. split; [done|]. split; [done|].
    cbn [bufs with_bufs with_table ar_net nt_bufs pb_data]. change (bufs s2) with b1 in Ed. by rewrite Ec', Ed.
Qed.

(** ** [etharp_query] *)

(** A frame for [mac], if the link takes it, and no change of the table. *)
Definition sent_to ni (mac payload : list Z) s (r : Z) s' : Prop :=
  arp_table s' = arp_table s ∧
  link_sent (rest s') = link_sent (rest s) ++ (if decide (r = ERR_OK) then [ip_frame mac (ni_hwaddr ni) payload] else []).

(** The packet went to the address in the table ... *)
Definition resolved ni (ipaddr : Z) (payload : list Z) s (r : Z) s' : Prop :=
  ∃ n e, arp_table s !! n = Some e ∧ is_stable e ∧ ae_ipaddr e = ipaddr ∧ sent_to ni (ae_ethaddr e) payload s r s'.

Definition request_frame ni (ipaddr : Z) : list Z :=
  arp_frame ethbroadcast (ni_hwaddr ni) ARP_REQUEST (ni_hwaddr ni) (ni_ip_addr ni) ethzero ipaddr.

(** ... or waits on a pending entry, for which a request was sent. *)
Definition deferred ni (ipaddr : Z) (payload : list Z) s (r : Z) s' : Prop :=
  ∃ n e e1 fs, slot ETHARP_FLAG_TRY_HARD ipaddr (arp_table s) n e ∧ ¬ (is_stable e ∧ ae_ipaddr e = ipaddr) ∧
    ae_state e1 = ETHARP_STATE_PENDING ∧ ae_ipaddr e1 = ipaddr ∧ entry_ok e1 ∧
    (fs = [] ∨ fs = [request_frame ni ipaddr]) ∧ link_sent (rest s') = link_sent (rest s) ++ fs ∧
    ((r = ERR_OK ∧ ∃ p c, p ≠ 0 ∧ arp_table s' = <[n := with_q p e1]> (arp_table s) ∧
        packet (pb_store (bufs s')) p [(p, c)] ∧ drop 14 (contents (pb_data (bufs s')) [(p, c)]) = payload) ∨
     (r = ERR_MEM ∧ arp_table s' = <[n := e1]> (arp_table s))).

Lemma try_hard_finds ipaddr s i s' : ¬ not_found ipaddr ETHARP_FLAG_TRY_HARD s i s'.
Proof. intros (_ & _ & _ & [?|[? _]]); done. Qed.

(** A pending entry: the request, then the queue. *)
Lemma pending_runs ni R H s (n : nat) e ipaddr q l :
  arp_bufs ni R H s → arp_table s !! n = Some e → ae_state e = ETHARP_STATE_PENDING → ethernet ni →
  outgoing (pb_store (bufs s)) q l → q ∈ H →
  runs (result ← etharp_request ni ipaddr;
        if q =? 0 then mret result
        else
          e ← get_entry (Z.of_nat n);
          if bool_decide (ae_state e = ETHARP_STATE_STABLE) then
            ETHARP_SET_HINT (Z.of_nat n);;
            etharp_send_ip ni q (ni_hwaddr ni) (ae_ethaddr e)
          else if bool_decide (ae_state e = ETHARP_STATE_PENDING) then
            p ← on_bufs (take_over q);
            if negb (p =? 0) then
              (if negb (ae_q e =? 0) then on_bufs (pbuf_free (ae_q e));; mret tt else mret tt);;
              set_entry (Z.of_nat n) (with_q p);;
              mret ERR_OK
            else
              ETHARP_STATS_INC c_memerr;;
              mret ERR_MEM
          else mret result) s
    (λ r s', arp_bufs ni R H s' ∧ etharp_cached_entry s' = etharp_cached_entry s ∧
       kept_packets H (pb_store (bufs s)) (pb_store (bufs s')) ∧
       (∃ fs, (fs = [] ∨ fs = [request_frame ni ipaddr]) ∧ link_sent (rest s') = link_sent (rest s) ++ fs) ∧
       ((r = ERR_OK ∧ ∃ p c, p ≠ 0 ∧ arp_table s' = <[n := with_q p e]> (arp_table s) ∧
          packet (pb_store (bufs s')) p [(p, c)] ∧ drop 14 (contents (pb_data (bufs s')) [(p, c)]) = drop 14 (contents (pb_data (bufs s)) l)) ∨
        (r = ERR_MEM ∧ arp_table s' = arp_table s))).
Proof.
  intros Hs He Hst Hni Hout Hq. pose proof (pk_chain _ _ _ (og_packet _ _ _ Hout)) as Hc.
  assert (q ≠ 0) as Hq0 by (destruct l as [|[a b] l]; [by destruct (pk_ne _ _ _ (og_packet _ _ _ Hout))|by destruct Hc as (-> & ? & _)]).
  apply runs_bind. eapply runs_mono, (request_runs ni R H s ipaddr Hs (en_len _ Hni) (proj1 (en_hwaddr _ Hni))).
  intros r s1 (Hs1 & (Et1 & Ec1 & Esent & Hk1) & Hko1). rewrite (proj2 (Z.eqb_neq _ _) Hq0).
  apply runs_bind. eapply get_entry_runs; [by rewrite Nat2Z.id, Et1|].
  rewrite Hst, bool_decide_eq_false_2, bool_decide_eq_true_2 by done.
  assert (kept_packets H (pb_store (bufs s)) (pb_store (bufs s1))) as Hk1' by (eapply kept_subset, Hk1; held_in).
  destruct (outgoing_kept _ _ _ _ _ Hk1' Hq Hout) as (l1 & Hout1 & El1).
  eapply runs_mono, (queue_runs ni R H s1 n e q l1 Hs1); [|by rewrite Et1|done|done].
  intros r2 s2 (Hs2 & Er2 & Ec2 & Hk2 & Hcase). split; [done|]. split; [congruence|]. split; [by etrans|]. split.
  - eexists. split; [|by rewrite Er2, Esent]. destruct (decide (r = ERR_OK)); auto.
  - destruct Hcase as [(-> & p & c & Hp & Et2 & Hpk & Hcon)|(-> & Et2)]; [left|right; split; [done|congruence]].
    split; [done|]. exists p, c. split; [done|]. split; [by rewrite Et2, Et1|]. split; [done|]. rewrite Hcon.
    destruct (bares_packet l1 l (pb_data (bufs s1)) El1) as (_ & _ & ->). f_equal. by apply (Hko1 q); [..|apply (og_owns _ _ _ Hout)].
Qed.

Lemma query_runs ni R H s ipaddr q l :
  arp_bufs ni R H s → table_ok (arp_table s) → ethernet ni → outgoing (pb_store (bufs s)) q l → q ∈ H →
  0 ≤ etharp_cached_entry s < 4 →
  runs (etharp_query ni ipaddr q) s (λ r s', arp_bufs ni R H s' ∧ kept_packets H (pb_store (bufs s)) (pb_store (bufs s')) ∧
    0 ≤ etharp_cached_entry s' < 4 ∧
    ((unicast ni ipaddr = false ∧ r = ERR_ARG ∧ s' = s) ∨
     (unicast ni ipaddr = true ∧ (resolved ni ipaddr (drop 14 (contents (pb_data (bufs s)) l)) s r s' ∨ deferred ni ipaddr (drop 14 (contents (pb_data (bufs s)) l)) s r s')))).
Proof.
  intros Hs Ht Hni Hout Hq Hca. pose proof (pk_chain _ _ _ (og_packet _ _ _ Hout)) as Hc.
  assert (∃ b l', l = (q, b) :: l' ∧ q ≠ 0) as (b & l' & El & Hq0).
  { destruct l as [|[a b] l]; [by destruct (pk_ne _ _ _ (og_packet _ _ _ Hout))|]. destruct Hc as (-> & ? & _). by exists b, l. }
  unfold etharp_query. replace (_ || _ || _) with (negb (unicast ni ipaddr))
    by (unfold unicast; rewrite negb_involutive; by destruct (ip_addr_isany _), (ip_addr_isbroadcast _ _), (ip_addr_ismulticast _)).
  destruct (unicast ni ipaddr); cbn [negb]; [|apply runs_ret; split; [done|]; split; [done|]; split; [done|]; by left].
  apply (find_slot_runs ni R H); [done|done|by intros ?%try_hard_finds|].
  intros n e e1 s1 (Hsl & E1 & (Er1 & Ec1 & Ed1 & K1) & Hcase) Hs1 Hn4. rewrite (proj2 (Z.ltb_ge _ _)) by lia.
  pose proof (slot_lookup _ _ _ _ _ Hsl) as He. pose proof (lookup_lt_Some _ _ _ He) as Hlt.
  pose proof (table_entry _ _ _ Ht He) as Hok.
  assert (arp_table s1 !! n = Some e1) as He1 by (rewrite E1; by apply list_lookup_insert_eq).
  apply runs_bind. eapply get_entry_runs; [by rewrite Nat2Z.id|].
  destruct Hcase as [(Hu & Eip & -> & ->)|(Hm & -> & Hem & Hq0e)].
  - (* the address has an entry *)
    rewrite bool_decide_eq_false_2 by done. apply runs_bind, runs_ret.
    apply runs_bind. eapply get_entry_runs; [by rewrite Nat2Z.id|].
    destruct (ae_state e) eqn:Est; [done|..].
    + rewrite (bool_decide_eq_true_2 (_ = ETHARP_STATE_PENDING)) by done. apply runs_assert; [done|]. cbn [orb].
      eapply runs_mono, (pending_runs ni R H s n e ipaddr q l Hs He Est Hni Hout Hq).
      intros r s' (Hs' & Ec' & Hk' & (fs & Hfs & Esent) & Hres). split; [done|]. split; [done|]. split; [by rewrite Ec'|].
      right. split; [done|]. right. exists n, e, e, fs. split; [done|]. split; [unfold is_stable; rewrite Est; by intros [? _]|].
      do 5 (split; [done|]). destruct Hres as [Hres|[-> Et']]; [by left|right]. split; [done|]. by rewrite Et', list_insert_id.
    + rewrite (bool_decide_eq_false_2 (_ = ETHARP_STATE_PENDING)), (bool_decide_eq_true_2 (_ = ETHARP_STATE_STABLE)) by done.
      apply runs_assert; [done|]. rewrite (proj2 (Z.eqb_neq _ _) Hq0). cbn [orb].
      apply runs_bind, runs_ret. apply runs_bind. eapply get_entry_runs; [by rewrite Nat2Z.id|].
      rewrite Est, bool_decide_eq_true_2 by done. apply runs_bind. unfold runs at 1, ETHARP_SET_HINT, modify.
      set (s2 := Arp _ _ _ _). rewrite El in *. assert (arp_bufs ni R H s2) as Hs2 by by apply (arp_bufs_net _ _ _ s).
      eapply runs_mono, (send_ip_runs ni R H s2 q b l' (ni_hwaddr ni) (ae_ethaddr e) Hs2 Hq);
        [|apply Hout|apply Hout|apply Hni|apply Hni|by apply (eo_hwaddr _ Hok)].
      intros r s' (Hs' & (Et' & Ec' & Esent & Hk') & _). split; [done|]. split; [eapply kept_subset, Hk'; held_in|].
      split; [rewrite Ec'; cbn; rewrite u8_small by (unfold is_u8; lia); lia|].
      right. split; [done|]. left. exists n, e. done.
  - (* a new entry *)
    rewrite bool_decide_eq_true_2 by done. apply runs_bind. eapply set_entry_runs; [by rewrite Nat2Z.id|]. rewrite Nat2Z.id.
    set (e2 := with_state _ _). set (s2 := with_table _ _).
    assert (arp_bufs ni R H s2) as Hs2 by by apply arp_bufs_entry with (renewed ipaddr (vacated e)).
    assert (arp_table s2 = <[n := e2]> (arp_table s)) as Et2 by (cbn; by rewrite E1, list_insert_insert_eq).
    assert (arp_table s2 !! n = Some e2) as He2 by (rewrite Et2; by apply list_lookup_insert_eq).
    apply runs_bind. eapply get_entry_runs; [by rewrite Nat2Z.id|].
    change (ae_state e2) with ETHARP_STATE_PENDING. rewrite (bool_decide_eq_true_2 (_ = ETHARP_STATE_PENDING)) by done.
    apply runs_assert; [done|]. cbn [orb].
    destruct (outgoing_kept _ _ _ _ _ K1 Hq Hout) as (l1 & Hout1 & El1).
    eapply runs_mono, (pending_runs ni R H s2 n e2 ipaddr q l1 Hs2 He2 eq_refl Hni Hout1 Hq).
    intros r s' (Hs' & Ec' & Hk' & (fs & Hfs & Esent) & Hres). split; [done|]. split; [by etrans|].
    split; [rewrite Ec'; cbn; by rewrite Ec1|].
    right. split; [done|]. right. exists n, e, e2, fs. split; [done|].
    split.
    { intros [Hst Eip]. apply (proj1 (Forall_lookup _ _) Hm n e He); [|done]. unfold in_use. by rewrite Hst. }
    do 2 (split; [done|]). split; [by split|]. split; [done|]. split; [rewrite Esent; change (rest s2) with (rest s1); by rewrite Er1|].
    destruct Hres as [(-> & p & c & Hp & Et' & Hpk & Hcon)|[-> Et']]; [left|right; split; [done|by rewrite Et', Et2]].
    split; [done|]. exists p, c. split; [done|]. split; [by rewrite Et', Et2, list_insert_insert_eq|]. split; [done|].
    rewrite Hcon. change (bufs s2) with (bufs s1). rewrite Ed1.
    by destruct (bares_packet l1 l (pb_data (bufs s)) El1) as (_ & _ & ->).
Qed.

(** ** Room for the header *)

(** [pbuf_header] on a packet nobody else refers to, by [inc] octets. *)
Lemma move_runs ni R H s q b l inc (Q : Z → arp_state A N → Prop) :
  arp_bufs ni R ({[+ q +]} ⊎ H) s → packet (pb_store (bufs s)) q ((q, b) :: l) → p_ref b = 1 →
  - 2 ^ 15 ≤ inc < 2 ^ 15 → - inc ≤ p_len b → total_len ((q, b) :: l) + inc < 2 ^ 16 →
  (¬ has_room inc q b → Q 1 s) →
  (∀ b1, let s1 := with_bufs b1 s in
     pb_data b1 = pb_data (bufs s) → arp_bufs ni R ({[+ q +]} ⊎ H) s1 → packet (pb_store b1) q ((q, moved inc b) :: l) →
     kept_packets H (pb_store (bufs s)) (pb_store b1) → has_room inc q b → Q 0 s1) →
  runs (on_bufs (pbuf_header q inc)) s Q.
Proof.
  intros Hs Hpk Hr Hi Hlen Hfit Hno Hyes. pose proof (ab_held _ _ _ _ Hs) as Hh. rewrite <-!gmultiset_disj_union_assoc in Hh.
  pose proof (pbuf_header_held (bufs s) R _ q b l inc Hh Hpk Hr Hi Hlen Hfit) as Hres.
  destruct (decide (has_room inc q b)) as [Hroom|Hroom].
  2:{ eapply on_bufs_runs; [exact Hres|]. replace (with_bufs (bufs s) s) with s by by destruct s as [[]]. by apply Hno. }
  destruct Hres as (E & Hh1 & Hpk1 & Hk). rewrite !gmultiset_disj_union_assoc in Hh1. eapply on_bufs_runs; [exact E|].
  apply Hyes; [done| |done|eapply kept_subset, Hk; held_in|done].
  eapply (arp_bufs_step ni R ({[+ q +]} ⊎ H) _ s _ Hs); [done|eapply kept_subset, Hk; held_in].
Qed.

(** Room for the Ethernet header. *)
Lemma header_runs ni R H s q b l (Q : Z → arp_state A N → Prop) :
  arp_bufs ni R ({[+ q +]} ⊎ H) s → packet (pb_store (bufs s)) q ((q, b) :: l) → p_ref b = 1 → own_octets ((q, b) :: l) →
  nonempty ((q, b) :: l) → total_len ((q, b) :: l) ≤ 64000 →
  (¬ has_room 14 q b → Q 1 s) →
  (∀ s1, arp_bufs ni R ({[+ q +]} ⊎ H) s1 → outgoing (pb_store (bufs s1)) q ((q, moved 14 b) :: l) →
     arp_table s1 = arp_table s → rest s1 = rest s → etharp_cached_entry s1 = etharp_cached_entry s →
     drop 14 (contents (pb_data (bufs s1)) ((q, moved 14 b) :: l)) = contents (pb_data (bufs s)) ((q, b) :: l) →
     kept_packets H (pb_store (bufs s)) (pb_store (bufs s1)) → has_room 14 q b → Q 0 s1) →
  runs (on_bufs (pbuf_header q SIZEOF_ETH_HDR)) s Q.
Proof.
  intros Hs Hpk Hr Ho Hne Hfit Hno Hyes. destruct (pk_lens _ _ _ Hpk) as (Hb0 & Et & Hl). pose proof (lens_nonneg _ Hl).
  apply (move_runs ni R H s q b l 14); [done..|lia|lia|done|].
  intros b1 s1 Ed Hs1 Hpk1 Hk Hroom. set (c := moved 14 b) in *. pose proof (ab_held _ _ _ _ Hs1) as [(L & Hok1 & _) _].
  change (total_len ((q, b) :: l)) with (p_len b + total_len l) in Hfit. pose proof (pk_chain _ _ _ Hpk1) as (_ & _ & Hc & Hcl).
  pose proof (chain_nodup _ _ _ (pk_chain _ _ _ Hpk)) as Hnd. cbn in Hnd. apply NoDup_cons in Hnd as [Hql _].
  assert (own_octets ((q, c) :: l)) as Ho1 by by apply Forall_cons in Ho as [? ?]; constructor.
  assert (p_len c = p_len b + 14) as Elen by done.
  assert (clear_of (p_payload c) (p_payload c + p_len c) l) as Hclr.
  { by apply (owns_clear b1 L q c (p_next c) l Hok1 Hc); [apply Forall_cons in Ho1 as [? _]| |apply Forall_cons in Ho1 as [_ ?]|]. }
  apply Hyes; try done.
  - split; [done| |done| |].
    + split; [rewrite Elen; unfold SIZEOF_ETH_HDR; lia|]. eapply clear_of_sub, Hclr; [lia|rewrite Elen; unfold SIZEOF_ETH_HDR; lia].
    + apply Forall_cons in Hne as [? ?]. constructor; [|done]. cbn [snd] in *. lia.
    + change (total_len ((q, c) :: l)) with (p_len c + total_len l). lia.
  - change (pb_data (bufs s1)) with (pb_data b1). rewrite Ed. cbn [contents].
    unfold cell_data. cbn [snd]. rewrite Elen. change (p_payload c) with (p_payload b - 14).
    replace (Z.to_nat (p_len b + 14)) with (14 + Z.to_nat (p_len b))%nat by lia.
    rewrite mem_read_app, <-app_assoc, drop_app_length' by (by rewrite length_mem_read). do 2 f_equal. lia.
Qed.
End Query.

(** ** Output of IP packets on an Ethernet

    [etharp_output] makes room for the header, finds the address on the link,
    and sends the packet or leaves it with the table. *)

(** Outside the network of the interface: packets go to the gateway. *)
Definition off_link ni (ipaddr : Z) : bool :=
  negb (ip_addr_netcmp ipaddr (ni_ip_addr ni) (ni_netmask ni)) && negb (ip_addr_islinklocal ipaddr).
Definition next_hop ni (ipaddr : Z) : Z := if off_link ni ipaddr then ni_gw ni else ipaddr.

Section Output.
Context {A N : Type} {BA : BufAlloc A} {LA : BufAllocLaws A} {LO : LinkOutput A N} {LL : LinkOutputLaws A N}.
Implicit Types (s : arp_state A N).

(** Where a packet for [ipaddr] goes. *)
Definition routed ni (ipaddr : Z) (payload : list Z) s (r : Z) s' : Prop :=
  if ip_addr_isbroadcast ipaddr ni then sent_to ni ethbroadcast payload s r s'
  else if ip_addr_ismulticast ipaddr then sent_to ni (multicast_ethaddr ipaddr) payload s r s'
  else if off_link ni ipaddr && ip_addr_isany (ni_gw ni) then
    r = ERR_RTE ∧ arp_table s' = arp_table s ∧ link_sent (rest s') = link_sent (rest s)
  else
    let hop := next_hop ni ipaddr in
    resolved ni hop payload s r s' ∨
    (unicast ni hop = true ∧ deferred ni hop payload s r s') ∨
    (unicast ni hop = false ∧ r = ERR_ARG ∧ arp_table s' = arp_table s ∧ link_sent (rest s') = link_sent (rest s)).

(** The result depends on the table and the frames sent before only. *)
Lemma routed_from ni ipaddr payload s s1 r s' :
  arp_table s1 = arp_table s → rest s1 = rest s → routed ni ipaddr payload s1 r s' → routed ni ipaddr payload s r s'.
Proof.
  intros Et Er. unfold routed, resolved, deferred, sent_to. by rewrite Et, Er.
Qed.

Lemma route_runs ni R H s ipaddr q b l :
  arp_bufs ni R H s → table_ok (arp_table s) → ethernet ni → q ∈ H → outgoing (pb_store (bufs s)) q ((q, b) :: l) →
  0 ≤ etharp_cached_entry s < 4 →
  runs (if ip_addr_isbroadcast ipaddr ni then etharp_send_ip ni q (ni_hwaddr ni) ethbroadcast
        else if ip_addr_ismulticast ipaddr then etharp_send_ip ni q (ni_hwaddr ni) (multicast_ethaddr ipaddr)
        else if off_link ni ipaddr && ip_addr_isany (ni_gw ni) then mret ERR_RTE
        else
          cached ← gets etharp_cached_entry;
          e ← get_entry cached;
          if bool_decide (ae_state e = ETHARP_STATE_STABLE) && (next_hop ni ipaddr =? ae_ipaddr e) then
            ETHARP_STATS_INC c_cachehit;;
            etharp_send_ip ni q (ni_hwaddr ni) (ae_ethaddr e)
          else etharp_query ni (next_hop ni ipaddr) q) s
    (λ r s', arp_bufs ni R H s' ∧ kept_packets H (pb_store (bufs s)) (pb_store (bufs s')) ∧
       0 ≤ etharp_cached_entry s' < 4 ∧ routed ni ipaddr (drop 14 (contents (pb_data (bufs s)) ((q, b) :: l))) s r s').
Proof.
  intros Hs Ht Hni Hq Hout Hc. unfold routed.
  assert (∀ s1 mac, arp_bufs ni R H s1 → bufs s1 = bufs s → arp_table s1 = arp_table s → rest s1 = rest s →
    etharp_cached_entry s1 = etharp_cached_entry s → length mac = 6%nat →
    runs (etharp_send_ip ni q (ni_hwaddr ni) mac) s1 (λ r s', arp_bufs ni R H s' ∧
      kept_packets H (pb_store (bufs s)) (pb_store (bufs s')) ∧ 0 ≤ etharp_cached_entry s' < 4 ∧
      sent_to ni mac (drop 14 (contents (pb_data (bufs s)) ((q, b) :: l))) s r s')) as Hsend.
  { intros s1 mac Hs1 Eb Et Er Ec Hm.
    eapply runs_mono, (send_ip_runs ni R H s1 q b l); [|done|done|rewrite Eb; apply Hout|apply Hout|apply Hni|apply Hni|done].
    intros r s' (Hs' & (Et' & Ec' & Esent & Hk) & _). rewrite Eb, Et in Hk. split; [done|]. split; [eapply kept_subset, Hk; held_in|].
    split; [by rewrite Ec', Ec|]. split; [by rewrite Et'|]. by rewrite Esent, Er, Eb. }
  destruct (ip_addr_isbroadcast _ _); [by apply Hsend|]. destruct (ip_addr_ismulticast _); [by apply Hsend|].
  destruct (off_link _ _ && _); [by apply runs_ret|].
  destruct (lookup_lt_is_Some_2 (arp_table s) (Z.to_nat (etharp_cached_entry s))) as [e He];
    [rewrite (to_len _ Ht); unfold ARP_TABLE_SIZE; lia|].
  apply runs_bind. unfold runs at 1, gets. apply runs_bind. eapply get_entry_runs; [exact He|].
  destruct (bool_decide (ae_state e = ETHARP_STATE_STABLE) && (next_hop ni ipaddr =? ae_ipaddr e)) eqn:Ehit.
  - apply andb_true_iff in Ehit as [Hst%bool_decide_eq_true Hip%Z.eqb_eq]. apply runs_bind. unfold runs at 1, ETHARP_STATS_INC, modify.
    set (s1 := Arp _ _ _ _). pose proof (eo_hwaddr _ (table_entry _ _ _ Ht He) Hst) as [Hlen _].
    eapply runs_mono, (Hsend s1); [|by apply (arp_bufs_net _ _ _ s)|done..].
    intros r s' (? & ? & ? & Hsent). do 3 (split; [done|]). left. by exists (Z.to_nat (etharp_cached_entry s)), e.
  - eapply runs_mono, (query_runs ni R H s _ q _ Hs Ht Hni Hout Hq Hc).
    intros r s' (? & ? & ? & [(Eu & -> & ->)|[Eu [Hres|Hdef]]]); do 3 (split; [done|]).
    + right. by right.
    + by left.
    + right. by left.
Qed.

Lemma output_runs ni R H s ipaddr q b l :
  arp_bufs ni R ({[+ q +]} ⊎ H) s → table_ok (arp_table s) → ethernet ni → 0 ≤ etharp_cached_entry s < 4 →
  packet (pb_store (bufs s)) q ((q, b) :: l) → p_ref b = 1 → own_octets ((q, b) :: l) → nonempty ((q, b) :: l) →
  total_len ((q, b) :: l) ≤ 64000 →
  runs (etharp_output ni q ipaddr) s (λ r s', arp_bufs ni R ({[+ q +]} ⊎ H) s' ∧
    kept_packets H (pb_store (bufs s)) (pb_store (bufs s')) ∧ 0 ≤ etharp_cached_entry s' < 4 ∧
    if decide (has_room 14 q b) then routed ni ipaddr (contents (pb_data (bufs s)) ((q, b) :: l)) s r s'
    else r = ERR_BUF ∧ s' = s).
Proof.
  intros Hs Ht Hni Hc Hpk Hr Ho Hne Hfit. unfold etharp_output. apply runs_bind.
  apply (header_runs ni R H s q b l); [done..| |].
  { intros Hno. apply runs_ret. rewrite decide_False by done. split; [done|]. by split; [reflexivity|]. }
  intros s1 Hs1 Hout Et Er Ec Econ Hk Hroom. destruct (decide _) as [_|Hn]; [|done]. cbn [negb Z.eqb].
  eapply runs_mono, (route_runs ni R _ s1 ipaddr q (moved 14 b) l Hs1); [|by rewrite Et|done|held_in|done|by rewrite Ec].
  intros r s' (Hs' & Hk' & Hc' & Hroute). split; [done|]. split; [etrans; [exact Hk|eapply kept_subset, Hk'; held_in]|].
  split; [done|]. rewrite Econ in Hroute. by apply routed_from with s1.
Qed.
End Output.
