(* ===== verification/EthArpInput.v ===== *)
(** * Input of Ethernet frames

    [etharp_arp_input] and [ethernet_input]: malformed packets are dropped,
    the sender is learned, requests for the address of the interface are
    answered. *)

From S2P Require Import Prelude LwipBase IpAddr InetChksum Heap Memp Pbuf PbufChain PbufLinks PbufData PbufMake PbufAlloc PbufClaims PbufRefs Netif EthArp EthArpTable EthArpSend EthArpOps EthArpQuery.
From Stdlib Require Import ZArith Lia.
From stdpp Require Import base numbers gmultiset list gmap.
Open Scope Z_scope.

(** ** Fields of a packet *)

Definition field (off n : nat) (x : list Z) : list Z := take n (drop off x).

Definition wellformed (x : list Z) : Prop := field 14 6 x = [0; 1; 8; 0; 6; 4].
Definition sender_hw (x : list Z) : list Z := field 22 6 x.
Definition sender_ip (x : list Z) : Z := le_word (field 28 4 x).
Definition target_ip (x : list Z) : Z := le_word (field 38 4 x).
Definition for_us ni (x : list Z) : bool := negb (ip_addr_isany (ni_ip_addr ni)) && (target_ip x =? ni_ip_addr ni).

Lemma mem_read_field m a o k n : (o + k ≤ n)%nat → mem_read m (a + Z.of_nat o) k = field o k (mem_read m a n).
Proof. intros Hl. unfold field. rewrite mem_read_drop by lia. by rewrite mem_read_take by lia. Qed.
Lemma bytes_field off n x : bytes_ok x → bytes_ok (field off n x).
Proof. intros Hx. by apply Forall_take, Forall_drop. Qed.
Lemma length_field off n x : (off + n ≤ length x)%nat → length (field off n x) = n.
Proof. intros Hl. unfold field. rewrite length_take, length_drop. lia. Qed.

Lemma word_eqb l n v : bytes_ok l → length l = n → 0 ≤ v < 2 ^ (8 * Z.of_nat n) → (le_word l =? v) = bool_decide (l = le_bytes n v).
Proof.
  intros Hl Hn Hv. apply eq_true_iff_eq. rewrite Z.eqb_eq, bool_decide_eq_true. split.
  - intros <-. by rewrite <-Hn, le_bytes_word.
  - intros ->. by rewrite le_word_bytes, Z.mod_small.
Qed.

(** The test of the header. *)
Lemma header_test x :
  bytes_ok x → length x = 42%nat →
  (negb (le_word (field 14 2 x) =? PP_HTONS HWTYPE_ETHERNET) || negb (le_word (field 18 1 x) =? ETHARP_HWADDR_LEN) ||
   negb (le_word (field 19 1 x) =? 4) || negb (le_word (field 16 2 x) =? PP_HTONS ETHTYPE_IP))
  = negb (bool_decide (wellformed x)).
Proof.
  intros Hx Hl. rewrite (word_eqb _ 2), (word_eqb _ 1), (word_eqb _ 1), (word_eqb _ 2)
    by (done || (by apply bytes_field) || (rewrite length_field; [done|lia]) || by vm_compute).
  rewrite <-!negb_andb. f_equal. rewrite <-!bool_decide_and. apply bool_decide_ext. unfold wellformed, field.
  clear Hx. do 43 (destruct x as [|? x]; try done). cbn.
  change (le_bytes 2 (PP_HTONS HWTYPE_ETHERNET)) with [0; 1]. change (le_bytes 1 ETHARP_HWADDR_LEN) with [6].
  change (le_bytes 1 4) with [4]. change (le_bytes 2 (PP_HTONS ETHTYPE_IP)) with [8; 0].
  split; [intros [[[E1 E2] E3] E4]|intros E]; simplify_eq; done.
Qed.

(** The stores of [write_reply], in its order. *)
Lemma reply_octets x hw ip :
  length x = 42%nat → length hw = 6%nat → wellformed x → field 12 2 x = [8; 6] → bytes_ok x →
  let x1 := poke 20 (le_bytes 2 (lwip_htons ARP_REPLY)) x in
  let x2 := poke 38 (field 28 4 x1) x1 in
  let x3 := poke 28 (le_bytes 4 ip) x2 in
  let x4 := poke 32 (field 22 6 x3) x3 in
  let x5 := poke 0 (field 22 6 x4) x4 in
  poke 6 hw (poke 22 hw x5) = arp_frame (sender_hw x) hw ARP_REPLY hw ip (sender_hw x) (sender_ip x).
Proof.
  intros Hx Hh Hw Ht Hb. unfold arp_frame, sender_ip.
  replace (le_bytes 4 (le_word (field 28 4 x))) with (field 28 4 x).
  2:{ rewrite <-(le_bytes_word (field 28 4 x)) at 1 by by apply bytes_field. rewrite length_field by lia. done. }
  set (a := le_bytes 4 ip) in *. assert (length a = 4%nat) as Ha by done. clearbody a. clear Hb.
  unfold wellformed in Hw. do 5 (destruct a as [|? a]; try done). do 7 (destruct hw as [|? hw]; try done).
  do 43 (destruct x as [|? x]; try done). cbn in Hw, Ht. simplify_eq. reflexivity.
Qed.

Lemma store_field m a o l x n :
  mem_read m a n = x → 0 ≤ o → (Z.to_nat o + length l ≤ n)%nat → mem_read (mem_write m (a + o) l) a n = poke (Z.to_nat o) l x.
Proof. intros <- Ho Hl. by apply mem_read_store. Qed.
Lemma load_field m a o k x n :
  mem_read m a n = x → 0 ≤ o → (Z.to_nat o + k ≤ n)%nat → mem_read m (a + o) k = field (Z.to_nat o) k x.
Proof. intros <- Ho Hl. rewrite <-(mem_read_field m a) by done. by rewrite Z2Nat.id. Qed.

Section Input.
Context {A N : Type} {BA : BufAlloc A} {LA : BufAllocLaws A} {LO : LinkOutput A N} {LL : LinkOutputLaws A N}.
Implicit Types (s : arp_state A N).

Lemma write_reply_ok ni hw a (b : pbufs_state A) x :
  ni_hwaddr_len ni = ETHARP_HWADDR_LEN → length hw = 6%nat → mem_read (pb_data b) a 42 = x →
  bytes_ok x → wellformed x → field 12 2 x = [8; 6] →
  ∃ m, write_reply ni hw a b = Ok (tt, Pbufs (pb_store b) m (pb_alloc b)) ∧ changes (pb_data b) m a (a + 42) ∧
    mem_read m a 42 = arp_frame (sender_hw x) hw ARP_REPLY hw (ni_ip_addr ni) (sender_hw x) (sender_ip x).
Proof.
  intros Hni Hhw Ex Hb Hw Ht. assert (length x = 42%nat) as Hx by (rewrite <-Ex; apply length_mem_read).
  unfold write_reply, SIZEOF_ETH_HDR, ETH_DEST, ETH_SRC, ARP_OPCODE, ARP_SHWADDR, ARP_SIPADDR, ARP_DHWADDR, ARP_DIPADDR.
  cbv zeta. rewrite <-!(Z.add_assoc a), Hni, Z.eqb_refl.
  destruct b as [st m al]. cbn [pb_data pb_store pb_alloc] in *. eexists. split; [reflexivity|]. cbn [pb_data].
  change (Z.to_nat 4) with 4%nat. change (Z.to_nat 6) with 6%nat.
  change (14 + 6) with 20. change (14 + 24) with 38. change (14 + 14) with 28. change (14 + 18) with 32. change (14 + 8) with 22.
  set (m1 := mem_write m (a + 20) _).
  assert (mem_read m1 a 42 = poke 20 (le_bytes 2 (lwip_htons ARP_REPLY)) x) as E1 by (by apply store_field; [|done|vm_compute; lia]).
  rewrite (load_field m1 a 28 4 _ 42 E1) by (done || (vm_compute; lia)). set (x1 := poke 20 _ _) in *. set (y1 := field _ 4 x1) in *.
  assert (length x1 = 42%nat) as Lx1 by (rewrite <-E1; apply length_mem_read).
  assert (length y1 = 4%nat) as L1 by (apply length_field; rewrite Lx1; vm_compute; lia).
  set (m2 := mem_write m1 (a + 38) _).
  assert (mem_read m2 a 42 = poke 38 y1 x1) as E2 by (by apply store_field; [|done|rewrite L1; vm_compute; lia]).
  set (m3 := mem_write m2 (a + 28) _). set (x2 := poke 38 _ _) in *.
  assert (mem_read m3 a 42 = poke 28 (le_bytes 4 (ni_ip_addr ni)) x2) as E3 by (by apply store_field; [|done|rewrite length_le_bytes; vm_compute; lia]).
  rewrite (load_field m3 a 22 6 _ 42 E3) by (done || (vm_compute; lia)). set (x3 := poke 28 _ _) in *. set (y3 := field _ 6 x3) in *.
  assert (length x3 = 42%nat) as Lx3 by (rewrite <-E3; apply length_mem_read).
  assert (length y3 = 6%nat) as L3 by (apply length_field; rewrite Lx3; vm_compute; lia).
  set (m4 := mem_write m3 (a + 32) _).
  assert (mem_read m4 a 42 = poke 32 y3 x3) as E4 by (by apply store_field; [|done|rewrite L3; vm_compute; lia]).
  rewrite (load_field m4 a 22 6 _ 42 E4) by (done || (vm_compute; lia)). set (x4 := poke 32 _ _) in *. set (y4 := field _ 6 x4) in *.
  assert (length x4 = 42%nat) as Lx4 by (rewrite <-E4; apply length_mem_read).
  assert (length y4 = 6%nat) as L4 by (apply length_field; rewrite Lx4; vm_compute; lia).
  set (m5 := mem_write m4 _ _).
  assert (mem_read m5 a 42 = poke 0 y4 x4) as E5 by (by apply store_field; [|done|rewrite L4; vm_compute; lia]).
  set (m6 := mem_write m5 (a + 22) _). set (x5 := poke 0 _ _) in *.
  assert (mem_read m6 a 42 = poke 22 hw x5) as E6 by (by apply store_field; [|done|rewrite Hhw; vm_compute; lia]).
  split.
  - repeat (apply changes_in; [|lia|rewrite ?length_le_bytes, ?Hhw, ?L1, ?L3, ?L4; lia]). done.
  - rewrite (store_field m6 a 6 hw _ 42 E6) by (done || (rewrite Hhw; vm_compute; lia)). by apply reply_octets.
Qed.
(** ** The invariant of the module *)

Record arp_ok ni R (H : gmultiset Z) s : Prop := {
  ao_bufs : arp_bufs ni R H s;
  ao_table : table_ok (arp_table s);
  ao_cached : 0 ≤ etharp_cached_entry s < ARP_TABLE_SIZE }.

Lemma arp_ok_same ni R H s s' :
  ar_net s' = ar_net s → arp_table s' = arp_table s → etharp_cached_entry s' = etharp_cached_entry s →
  arp_ok ni R H s → arp_ok ni R H s'.
Proof. intros En Et Ec [Hb Ht Hc]. split; [by apply (arp_bufs_net _ _ _ s)|by rewrite Et|by rewrite Ec]. Qed.

(** No change but for the packets given up. *)
Definition quiet (H : gmultiset Z) s s' : Prop :=
  arp_table s' = arp_table s ∧ link_sent (rest s') = link_sent (rest s) ∧ kept_packets H (pb_store (bufs s)) (pb_store (bufs s')).

Lemma ok_free_runs ni R H s p (Q : Z → arp_state A N → Prop) :
  arp_ok ni R ({[+ p +]} ⊎ H) s → (∀ x s', arp_ok ni R H s' → quiet H s s' → Q x s') → runs (on_bufs (pbuf_free p)) s Q.
Proof.
  intros [Hb Ht Hc] HQ. apply (free_runs ni R H s p Q Hb). intros x b Hs' Ed Hk. apply HQ; [by split|].
  split; [done|]. split; [done|]. eapply kept_subset, Hk. held_in.
Qed.
Lemma stats_runs (x : counter) s (Q : unit → arp_state A N → Prop) :
  (∀ s', ar_net s' = ar_net s → arp_table s' = arp_table s → etharp_cached_entry s' = etharp_cached_entry s → Q tt s') →
  runs (ETHARP_STATS_INC x) s Q.
Proof. intros HQ. unfold runs, ETHARP_STATS_INC, modify. by apply HQ. Qed.

Lemma drop_packet_runs ni R H s p why :
  arp_ok ni R ({[+ p +]} ⊎ H) s → runs (drop_packet p why) s (λ _ s', arp_ok ni R H s' ∧ quiet H s s').
Proof.
  intros Hs. unfold drop_packet. apply runs_bind, stats_runs. intros s1 En1 Et1 Ec1. apply runs_bind, stats_runs. intros s2 En2 Et2 Ec2.
  apply runs_bind, (ok_free_runs ni R H); [apply (arp_ok_same _ _ _ s); [congruence..|done]|].
  intros x s3 Hs3 (Et3 & Er3 & Hk3). apply runs_ret. split; [done|]. unfold quiet, rest, bufs in *. rewrite En2, En1 in *.
  split; [congruence|]. by split.
Qed.

Lemma load_runs {B} (m : M (pbufs_state A) B) v s (Q : B → arp_state A N → Prop) :
  m (bufs s) = Ok (v, bufs s) → Q v s → runs (on_bufs m) s Q.
Proof. intros E HQ. eapply on_bufs_runs; [exact E|]. by destruct s as [[]]. Qed.

Lemma load16_runs a s (Q : Z → arp_state A N → Prop) :
  Q (le_word (mem_read (pb_data (bufs s)) a 2)) s → runs (on_bufs (load16 a)) s Q.
Proof. by apply load_runs. Qed.
Lemma load8_runs a s (Q : Z → arp_state A N → Prop) :
  Q (le_word (mem_read (pb_data (bufs s)) a 1)) s → runs (on_bufs (load8 a)) s Q.
Proof. by apply load_runs. Qed.
Lemma load32_runs a s (Q : Z → arp_state A N → Prop) :
  Q (le_word (mem_read (pb_data (bufs s)) a 4)) s → runs (on_bufs (load32 a)) s Q.
Proof. by apply load_runs. Qed.
Lemma load_octets_runs a (n : nat) s (Q : list Z → arp_state A N → Prop) :
  Q (mem_read (pb_data (bufs s)) a n) s → runs (on_bufs (load_octets a (Z.of_nat n))) s Q.
Proof. intros HQ. eapply load_runs; [reflexivity|]. by rewrite Nat2Z.id. Qed.

(** ** The layers above *)

(** The client of DHCP may send packets, but does not touch the table; IP takes
    the packet over. *)
Class ArpUsersLaws {AU : @ArpUsers A N} := {
  dhcp_arp_reply_law ni ipaddr R H s :
    arp_ok ni R H s → ethernet ni →
    runs (dhcp_arp_reply ni ipaddr) s (λ _ s', arp_ok ni R H s' ∧ arp_table s' = arp_table s ∧
      kept_packets H (pb_store (bufs s)) (pb_store (bufs s')) ∧ ∃ fs, link_sent (rest s') = link_sent (rest s) ++ fs);
  ip_input_law ni p l R H s :
    arp_ok ni R ({[+ p +]} ⊎ H) s → ethernet ni → packet (pb_store (bufs s)) p l →
    runs (ip_input p ni) s (λ _ s', arp_ok ni R H s' ∧ kept_packets H (pb_store (bufs s)) (pb_store (bufs s'))) }.
Context {AU : @ArpUsers A N} {UL : ArpUsersLaws}.

(** ** Packets of the protocol *)

(** What the table learns from a packet, and the frame that sets free. *)
Definition learns ni (x : list Z) s (tab : list etharp_entry) (fs : list (list Z)) : Prop :=
  (tab = arp_table s ∧ fs = [] ∧
     (unicast ni (sender_ip x) = false ∨ (for_us ni x = false ∧ no_match (sender_ip x) (arp_table s)))) ∨
  (unicast ni (sender_ip x) = true ∧ ∃ n e,
     slot (if for_us ni x then ETHARP_FLAG_TRY_HARD else ETHARP_FLAG_FIND_ONLY) (sender_ip x) (arp_table s) n e ∧
     tab = <[n := learned (sender_ip x) (sender_hw x)]> (arp_table s) ∧
     released ni s e (sender_ip x) (sender_hw x) fs).

Definition reply_frame ni (x : list Z) : list Z :=
  arp_frame (sender_hw x) (ni_hwaddr ni) ARP_REPLY (ni_hwaddr ni) (ni_ip_addr ni) (sender_hw x) (sender_ip x).

Definition is_request (x : list Z) : Prop := field 20 2 x = [0; 1].
Definition is_reply (x : list Z) : Prop := field 20 2 x = [0; 2].

(** The frames sent in answer. *)
Definition answers ni (x tail : list Z) (gs : list (list Z)) : Prop :=
  gs = [] ∨ (is_request x ∧ for_us ni x = true ∧ gs = [reply_frame ni x ++ tail]) ∨ is_reply x.

Definition heard ni (x tail : list Z) s s' : Prop :=
  ∃ fs gs, learns ni x s (arp_table s') fs ∧ answers ni x tail gs ∧ link_sent (rest s') = link_sent (rest s) ++ fs ++ gs.

(** The sender is learned, and the packet [p] still there. *)
Lemma learn_sender_runs ni R H s p b l :
  let x := mem_read (pb_data (bufs s)) (p_payload b) 42 in
  arp_ok ni R ({[+ p +]} ⊎ H) s → ethernet ni → bytes_ok x →
  packet (pb_store (bufs s)) p ((p, b) :: l) → own_octets ((p, b) :: l) → exclusive ((p, b) :: l) →
  runs (update_arp_entry ni (sender_ip x) (sender_hw x) (if for_us ni x then ETHARP_FLAG_TRY_HARD else ETHARP_FLAG_FIND_ONLY)) s
    (λ _ s', arp_ok ni R ({[+ p +]} ⊎ H) s' ∧ kept_packets ({[+ p +]} ⊎ H) (pb_store (bufs s)) (pb_store (bufs s')) ∧
       contents (pb_data (bufs s')) ((p, b) :: l) = contents (pb_data (bufs s)) ((p, b) :: l) ∧
       ∃ fs, learns ni x s (arp_table s') fs ∧ link_sent (rest s') = link_sent (rest s) ++ fs).
Proof.
  intros x Hs Hni Hx Hpk Ho Hex. pose proof Hs as [Hb Ht Hc].
  assert (is_hwaddr (sender_hw x)) as Hhw.
  { split; [apply length_field; unfold x; rewrite length_mem_read; lia|by apply bytes_field]. }
  eapply runs_mono, (update_runs ni R _ s (sender_ip x) (sender_hw x) _ Hb Ht Hni Hhw).
  intros r s' (Hs' & [(_ & Eu & ->)|[(Eu & Hn)|(_ & Eu & Hup)]]).
  - split; [done|]. split; [reflexivity|]. split; [done|]. exists []. split; [left; auto|by rewrite app_nil_r].
  - pose proof Hn as (_ & -> & Hm & _). split; [done|]. split; [reflexivity|]. split; [done|]. exists [].
    split; [left|by rewrite app_nil_r]. split; [done|]. split; [done|]. right. split; [|done].
    destruct (for_us ni x); [by apply try_hard_finds in Hn|done].
  - pose proof (updated_table _ _ _ _ _ _ _ Ht Hhw Hup) as Ht'. destruct Hup as (n & e & fs & Hsl & Et & Ec & Hrel & Esent & Hk & Hkx).
    split; [split; [done|done|by rewrite Ec]|]. split; [done|]. split; [apply (Hkx p); [held_in|apply Hpk|done|done]|].
    exists fs. split; [|done]. right. split; [done|]. by exists n, e.
Qed.

(** The octets of a packet whose header was rewritten. *)
Lemma rewritten_contents (n : nat) m m' p b l y :
  changes m m' (p_payload b) (p_payload b + Z.of_nat n) → Z.of_nat n ≤ p_len b →
  clear_of (p_payload b) (p_payload b + Z.of_nat n) l →
  mem_read m' (p_payload b) n = y → contents m' ((p, b) :: l) = y ++ drop n (contents m ((p, b) :: l)).
Proof.
  intros Hch Hlen Hcl <-. cbn [contents]. rewrite (contents_changes _ _ _ _ _ Hch Hcl). unfold cell_data. cbn [snd].
  replace (Z.to_nat (p_len b)) with (n + (Z.to_nat (p_len b) - n))%nat by lia.
  rewrite !mem_read_app, <-!app_assoc, drop_app_length' by (by rewrite length_mem_read). f_equal. f_equal.
  apply mem_read_ext. intros y Hy. apply Hch. lia.
Qed.
(** The answer to a request, in the buffer of the request. *)
Lemma reply_runs ni R H s p b l :
  let x := mem_read (pb_data (bufs s)) (p_payload b) 42 in
  arp_ok ni R ({[+ p +]} ⊎ H) s → ethernet ni → packet (pb_store (bufs s)) p ((p, b) :: l) → own_octets ((p, b) :: l) →
  42 ≤ p_len b → bytes_ok x → wellformed x → field 12 2 x = [8; 6] →
  runs (on_bufs (write_reply ni (ni_hwaddr ni) (p_payload b));; on_net (linkoutput ni p);; mret tt) s
    (λ _ s', arp_ok ni R ({[+ p +]} ⊎ H) s' ∧ kept_packets ({[+ p +]} ⊎ H) (pb_store (bufs s)) (pb_store (bufs s')) ∧
       arp_table s' = arp_table s ∧ ∃ gs, (gs = [] ∨ gs = [reply_frame ni x ++ drop 42 (contents (pb_data (bufs s)) ((p, b) :: l))]) ∧
       link_sent (rest s') = link_sent (rest s) ++ gs).
Proof.
  intros x [Hb Ht Hc] Hni Hpk Ho Hlen Hx Hw Hty. destruct Hni as [Hnl [Hhl _]].
  destruct (write_reply_ok ni (ni_hwaddr ni) (p_payload b) (bufs s) x Hnl Hhl eq_refl Hx Hw Hty) as (m & E & Hch & Ey).
  apply runs_bind. eapply on_bufs_runs; [exact E|]. set (s1 := with_bufs _ s).
  assert (arp_bufs ni R ({[+ p +]} ⊎ H) s1) as Hs1.
  { destruct Hb as [Hh Hq Hl]. split; [by apply held_ok_data|done|done]. }
  pose proof (ab_held _ _ _ _ Hb) as [(L & HL & _) _]. pose proof (pk_chain _ _ _ Hpk) as (_ & _ & Hpb & Hcl).
  pose proof (chain_nodup _ _ _ (pk_chain _ _ _ Hpk)) as Hnd. cbn in Hnd. apply NoDup_cons in Hnd as [Hpl _].
  apply Forall_cons in Ho as [Hob Hol].
  assert (clear_of (p_payload b) (p_payload b + 42) l) as Hclr.
  { eapply clear_of_sub, (owns_clear _ L p b (p_next b) l HL Hpb); [reflexivity|lia|done..]. }
  apply runs_bind. eapply runs_mono, (link_runs ni R _ s1 p ((p, b) :: l) Hs1); [|held_in|done].
  intros r s2 (Hs2 & (Et2 & Ec2 & Esent & Hk) & _). apply runs_ret. split; [split; [done|by rewrite Et2|by rewrite Ec2]|].
  split; [eapply kept_subset, Hk; held_in|]. split; [by rewrite Et2|]. eexists. split; [|exact Esent].
  destruct (decide (r = ERR_OK)); [right|by left]. f_equal. by apply (rewritten_contents 42).
Qed.

(** What [etharp_arp_input] does with the packet in [p]. *)
Definition input_result ni (H : gmultiset Z) (x tail : list Z) (len : Z) s s' : Prop :=
  if decide (SIZEOF_ETHARP_PACKET ≤ len ∧ wellformed x) then
    heard ni x tail s s' ∧ kept_packets H (pb_store (bufs s)) (pb_store (bufs s'))
  else quiet H s s'.

(** A packet with a good header. *)
Lemma heard_runs ni R H s p b l :
  let x := mem_read (pb_data (bufs s)) (p_payload b) 42 in
  arp_ok ni R ({[+ p +]} ⊎ H) s → ethernet ni → packet (pb_store (bufs s)) p ((p, b) :: l) → own_octets ((p, b) :: l) →
  exclusive ((p, b) :: l) → 42 ≤ p_len b → bytes_ok x → wellformed x → field 12 2 x = [8; 6] →
  runs (update_arp_entry ni (sender_ip x) (sender_hw x) (if for_us ni x then ETHARP_FLAG_TRY_HARD else ETHARP_FLAG_FIND_ONLY);;
        opcode ← on_bufs (load16 (p_payload b + (14 + ARP_OPCODE)));
        (if opcode =? PP_HTONS ARP_REQUEST then
           if for_us ni x then
             on_bufs (write_reply ni (ni_hwaddr ni) (p_payload b));;
             on_net (linkoutput ni p);;
             mret tt
           else mret tt
         else if opcode =? PP_HTONS ARP_REPLY then dhcp_arp_reply ni (sender_ip x)
         else ETHARP_STATS_INC c_err);;
        on_bufs (pbuf_free p);;
        mret tt) s
    (λ _ s', arp_ok ni R H s' ∧ heard ni x (drop 42 (contents (pb_data (bufs s)) ((p, b) :: l))) s s' ∧
       kept_packets H (pb_store (bufs s)) (pb_store (bufs s'))).
Proof.
  intros x Hs Hni Hpk Ho Hex Hlen Hx Hw Hty. apply runs_bind.
  eapply runs_mono, (learn_sender_runs ni R H s p b l Hs Hni Hx Hpk Ho Hex).
  intros _ s1 (Hs1 & Hk1 & Hcon & fs & Hlearn & Esent1). fold x in Hlearn.
  assert (mem_read (pb_data (bufs s1)) (p_payload b) 42 = x) as Ex.
  { apply (f_equal (take 42)) in Hcon. cbn [contents] in Hcon. unfold cell_data in Hcon. cbn [snd] in Hcon.
    rewrite !take_app_le, !mem_read_take in Hcon by (rewrite ?length_mem_read; lia). exact Hcon. }
  destruct (packet_kept _ _ _ p _ Hk1 ltac:(held_in) Hpk) as (l1 & Hpk1 & El).
  assert (own_octets l1) as Ho1 by by apply owns_bares with ((p, b) :: l).
  assert (∀ m, contents m l1 = contents m ((p, b) :: l)) as Ec1 by (intros m; apply (bares_packet l1 _ m El)).
  destruct l1 as [|[p' b'] l1]; [done|]. pose proof (pk_chain _ _ _ Hpk1) as (<- & _). cbn in El. injection El as _ Epl _ Eln _ _ _.
  apply runs_bind, load16_runs.
  rewrite (load_field _ _ (14 + ARP_OPCODE) 2 x 42 Ex) by (done || (vm_compute; lia)).
  change (Z.to_nat (14 + ARP_OPCODE)) with 20%nat.
  assert (length (field 20 2 x) = 2%nat) as L20 by (apply length_field; unfold x; rewrite length_mem_read; lia).
  rewrite !(word_eqb _ 2) by (done || (by apply bytes_field) || by vm_compute).
  change (le_bytes 2 (PP_HTONS ARP_REQUEST)) with [0; 1]. change (le_bytes 2 (PP_HTONS ARP_REPLY)) with [0; 2].
  set (tail := drop 42 _). apply runs_bind.
  assert (∀ u s2 gs, arp_ok ni R ({[+ p +]} ⊎ H) s2 → kept_packets ({[+ p +]} ⊎ H) (pb_store (bufs s1)) (pb_store (bufs s2)) →
    arp_table s2 = arp_table s1 → answers ni x tail gs → link_sent (rest s2) = link_sent (rest s1) ++ gs →
    runs ((λ _ : unit, on_bufs (pbuf_free p);; mret tt) u) s2 (λ _ s', arp_ok ni R H s' ∧ heard ni x tail s s' ∧
      kept_packets H (pb_store (bufs s)) (pb_store (bufs s')))) as Hend.
  { intros _ s2 gs Hs2 Hk2 Et2 Hans Esent2. apply runs_bind, (ok_free_runs ni R H s2 p _ Hs2).
    intros _ s3 Hs3 (Et3 & Er3 & Hk3). apply runs_ret. split; [done|]. split.
    - exists fs, gs. rewrite Et3, Et2, Er3, Esent2, Esent1, app_assoc. done.
    - etrans; [eapply kept_subset, Hk1; held_in|]. etrans; [eapply kept_subset, Hk2; held_in|]. done. }
  case_bool_decide as Hop; [destruct (for_us ni x) eqn:Efu|case_bool_decide as Hop2].
  - rewrite <-Epl. eapply runs_mono, (reply_runs ni R H s1 p b' l1 Hs1 Hni Hpk1 Ho1);
      [|lia|rewrite Epl, Ex; done..].
    intros u s2 (Hs2 & Hk2 & Et2 & gs & Hgs & Esent2). apply (Hend u s2 gs); [done..| |done].
    destruct Hgs as [->| ->]; [by left|right; left]. rewrite Epl, Ex, Ec1, Hcon. done.
  - apply runs_ret. apply (Hend tt s1 []); [done|reflexivity|done|by left|by rewrite app_nil_r].
  - eapply runs_mono, (dhcp_arp_reply_law ni (sender_ip x) R _ s1 Hs1 Hni).
    intros u s2 (Hs2 & Et2 & Hk2 & gs & Esent2). apply (Hend u s2 gs); [done..| |done]. right. by right.
  - apply stats_runs. intros s2 En Et2 Ec2. apply (Hend tt s2 []); unfold bufs, rest; rewrite ?En; [|reflexivity|done|by left|by rewrite app_nil_r].
    by apply (arp_ok_same _ _ _ s1).
Qed.
Lemma arp_input_runs ni R H s p b l :
  let x := mem_read (pb_data (bufs s)) (p_payload b) 42 in
  arp_ok ni R ({[+ p +]} ⊎ H) s → ethernet ni → packet (pb_store (bufs s)) p ((p, b) :: l) → own_octets ((p, b) :: l) →
  exclusive ((p, b) :: l) → (SIZEOF_ETHARP_PACKET ≤ p_len b → bytes_ok x) → field 12 2 x = [8; 6] →
  runs (etharp_arp_input ni (ni_hwaddr ni) p) s (λ _ s', arp_ok ni R H s' ∧
    input_result ni H x (drop 42 (contents (pb_data (bufs s)) ((p, b) :: l))) (p_len b) s s').
Proof.
  intros x Hs Hni Hpk Ho Hex Hx Hty. unfold etharp_arp_input, input_result. pose proof (pk_chain _ _ _ Hpk) as (_ & _ & Hb & _).
  assert (length x = 42%nat) as Hxl by apply length_mem_read.
  apply runs_bind. eapply get_pbuf_runs; [exact Hb|]. destruct (Z.ltb_spec (p_len b) SIZEOF_ETHARP_PACKET) as [Hlen|Hlen].
  { eapply runs_mono, (drop_packet_runs ni R H s p c_lenerr Hs). intros _ s' [? ?]. destruct (decide _) as [[? _]|_]; [lia|done]. }
  cbv zeta. specialize (Hx Hlen). change (SIZEOF_ETHARP_PACKET) with 42 in *.
  apply runs_bind, load16_runs, runs_bind, load8_runs, runs_bind, load8_runs, runs_bind, load16_runs.
  change SIZEOF_ETH_HDR with 14. rewrite <-!(Z.add_assoc (p_payload b) 14).
  rewrite (load_field _ _ (14 + ARP_HWTYPE) 2 x 42 eq_refl), (load_field _ _ (14 + ARP_HWLEN) 1 x 42 eq_refl),
    (load_field _ _ (14 + ARP_PROTOLEN) 1 x 42 eq_refl), (load_field _ _ (14 + ARP_PROTO) 2 x 42 eq_refl) by (done || (vm_compute; lia)).
  change (Z.to_nat (14 + ARP_HWTYPE)) with 14%nat. change (Z.to_nat (14 + ARP_HWLEN)) with 18%nat.
  change (Z.to_nat (14 + ARP_PROTOLEN)) with 19%nat. change (Z.to_nat (14 + ARP_PROTO)) with 16%nat.
  rewrite (header_test x Hx Hxl). case_bool_decide as Hw; cbn [negb].
  2:{ eapply runs_mono, (drop_packet_runs ni R H s p c_proterr Hs). intros _ s' [? ?]. by destruct (decide _) as [[_ ?]|_]. }
  apply runs_bind, stats_runs. intros s1 En Et Ec.
  assert (bufs s1 = bufs s) as Eb by (unfold bufs; by rewrite En). assert (rest s1 = rest s) as Er by (unfold rest; by rewrite En).
  apply runs_bind, load32_runs, runs_bind, load32_runs, runs_bind, (load_octets_runs _ 6). rewrite !Eb.
  rewrite (load_field _ _ (14 + ARP_SIPADDR) 4 x 42 eq_refl), (load_field _ _ (14 + ARP_DIPADDR) 4 x 42 eq_refl),
    (load_field _ _ (14 + ARP_SHWADDR) 6 x 42 eq_refl) by (done || (vm_compute; lia)).
  change (field (Z.to_nat (14 + ARP_SHWADDR)) 6 x) with (sender_hw x).
  change (le_word (field (Z.to_nat (14 + ARP_SIPADDR)) 4 x)) with (sender_ip x).
  change (le_word (field (Z.to_nat (14 + ARP_DIPADDR)) 4 x)) with (target_ip x).
  replace (if ip_addr_isany (ni_ip_addr ni) then false else target_ip x =? ni_ip_addr ni) with (for_us ni x)
    by (unfold for_us; by destruct (ip_addr_isany _)).
  pose proof (heard_runs ni R H s1 p b l) as Hrun. rewrite Eb in Hrun.
  eapply runs_mono, Hrun; [|by apply (arp_ok_same _ _ _ s)|done..].
  intros _ s' (Hs' & Hh & Hk). split; [done|]. rewrite decide_True by done. split; [|done].
  unfold heard, learns, released in *. rewrite Et, Er, Eb in Hh. exact Hh.
Qed.

(** ** Frames *)

(** What becomes of a frame: it is dropped, goes to IP, or is a packet of the
    protocol. *)
Definition frame_result ni (H : gmultiset Z) (frame : list Z) (len : Z) s s' : Prop :=
  if decide (len ≤ SIZEOF_ETH_HDR ∨ field 12 2 frame ≠ [8; 6] ∧ field 12 2 frame ≠ [8; 0] ∨
    Z.land (ni_flags ni) NETIF_FLAG_ETHARP = 0) then quiet H s s'
  else if decide (field 12 2 frame = [8; 6]) then input_result ni H (take 42 frame) (drop 42 frame) len s s'
  else kept_packets H (pb_store (bufs s)) (pb_store (bufs s')).

Lemma frame_field m p b l off n :
  Z.of_nat (off + n) ≤ p_len b → field off n (contents m ((p, b) :: l)) = mem_read m (p_payload b + Z.of_nat off) n.
Proof.
  intros Hl. cbn [contents]. unfold field, cell_data. cbn [snd]. rewrite drop_app_le, take_app_le, mem_read_drop, mem_read_take;
    rewrite ?length_drop, ?length_mem_read; done || lia.
Qed.

Lemma ethernet_input_runs ni R H s p b l :
  let frame := contents (pb_data (bufs s)) ((p, b) :: l) in
  arp_ok ni R ({[+ p +]} ⊎ H) s → ethernet ni → packet (pb_store (bufs s)) p ((p, b) :: l) → own_octets ((p, b) :: l) →
  exclusive ((p, b) :: l) → bytes_ok frame →
  runs (ethernet_input p ni) s (λ r s', r = ERR_OK ∧ arp_ok ni R H s' ∧ frame_result ni H frame (p_len b) s s').
Proof.
  intros frame Hs Hni Hpk Ho Hex Hx. unfold ethernet_input. pose proof (pk_chain _ _ _ Hpk) as (_ & _ & Hb & _).
  apply runs_bind. eapply get_pbuf_runs; [exact Hb|]. unfold frame_result. destruct (Z.leb_spec (p_len b) SIZEOF_ETH_HDR) as [Hlen|Hlen].
  { apply runs_bind. eapply runs_mono, (drop_packet_runs ni R H s p c_proterr Hs). intros _ s' [? ?]. apply runs_ret.
    by rewrite decide_True by auto. }
  change SIZEOF_ETH_HDR with 14 in *. apply runs_bind, load16_runs. unfold ETH_TYPE.
  rewrite <-(frame_field _ p b l 12 2) by lia. fold frame.
  assert (length (field 12 2 frame) = 2%nat) as L12.
  { unfold frame. rewrite frame_field by lia. apply length_mem_read. }
  rewrite !(word_eqb _ 2) by (done || (by apply bytes_field) || by vm_compute).
  change (le_bytes 2 (PP_HTONS ETHTYPE_IP)) with [8; 0]. change (le_bytes 2 (PP_HTONS ETHTYPE_ARP)) with [8; 6].
  assert (∀ Q : Z → arp_state A N → Prop, (∀ s', arp_ok ni R H s' → quiet H s s' → Q ERR_OK s') →
    runs (on_bufs (pbuf_free p);; mret ERR_OK) s Q) as Hfree.
  { intros Q HQ. apply runs_bind, (ok_free_runs ni R H s p _ Hs). intros _ s' ? ?. apply runs_ret. by apply HQ. }
  destruct (Z.eqb_spec (Z.land (ni_flags ni) NETIF_FLAG_ETHARP) 0) as [Ef|Ef].
  - assert (∀ s', arp_ok ni R H s' → quiet H s s' → ERR_OK = ERR_OK ∧ arp_ok ni R H s' ∧ frame_result ni H frame (p_len b) s s') as Hq.
    { intros s' ? ?. unfold frame_result. by rewrite decide_True by auto. }
    case_bool_decide; [by apply Hfree|]. case_bool_decide; [by apply Hfree|].
    apply runs_bind. eapply runs_mono, (drop_packet_runs ni R H s p c_proterr Hs). intros _ s' [? ?]. apply runs_ret. by apply Hq.
  - case_bool_decide as Hip; [|case_bool_decide as Harp].
    + apply runs_bind. destruct (Forall_cons_1 _ _ _ Hex) as [Hr _].
      apply (move_runs ni R H s p b l (- 14)); [apply Hs|done|done|lia|lia| | |].
      * pose proof (pk_u16 _ _ _ Hpk). lia.
      * intros Hno. destruct Hno. intros ?. lia.
      * intros b1 s1 Ed Hs1 Hpk1 Hk _. cbn [negb Z.eqb]. apply runs_bind.
        eapply runs_mono, (ip_input_law ni p _ R H s1); [|split; [done|apply Hs|apply Hs]|done|exact Hpk1].
        intros r s2 [Hs2 Hk2]. apply runs_ret. split; [done|]. split; [done|].
        rewrite decide_False by (intros [?|[[_ ?]|?]]; [lia|done..]). rewrite decide_False by (by rewrite Hip). by etrans.
    + assert (SIZEOF_ETHARP_PACKET ≤ p_len b → mem_read (pb_data (bufs s)) (p_payload b) 42 = take 42 frame) as Ex.
      { intros Hl. unfold SIZEOF_ETHARP_PACKET, SIZEOF_ETH_HDR, SIZEOF_ETHARP_HDR in Hl. pose proof (frame_field (pb_data (bufs s)) p b l 0 42) as E.
        unfold field in E. rewrite drop_0, Z.add_0_r in E. symmetry. apply E. lia. }
      apply runs_bind. eapply runs_mono, (arp_input_runs ni R H s p b l Hs Hni Hpk Ho Hex).
      * intros _ s' [Hs' Hin]. apply runs_ret. split; [done|]. split; [done|].
        rewrite decide_False by (intros [?|[[? _]|?]]; [lia|done..]). rewrite decide_True by done. unfold input_result in *. destruct (decide (SIZEOF_ETHARP_PACKET ≤ p_len b)) as [Hl|Hl]; [by rewrite <-(Ex Hl)|].
        rewrite decide_False in Hin by (by intros [? _]). by rewrite decide_False by (by intros [? _]).
      * intros Hl. rewrite (Ex Hl). by apply Forall_take.
      * rewrite <-Harp. unfold frame. rewrite frame_field by lia. symmetry. by apply (mem_read_field _ _ 12 2 42); lia.
    + apply runs_bind. eapply runs_mono, (drop_packet_runs ni R H s p c_proterr Hs).
      intros _ s' [? ?]. apply runs_ret. by rewrite decide_True by auto.
Qed.
End Input.
