(* ===== verification/EthArpClaims.v ===== *)
(** * Properties of address resolution

    The table, the packets that wait on it and the frames on the link, for any
    driver that keeps its promise ([LinkOutputLaws]) and any layers above that
    keep theirs ([ArpUsersLaws]); with a driver that records its frames. *)

From S2P Require Import Prelude LwipBase IpAddr InetChksum Heap Memp Pbuf PbufChain PbufLinks PbufData PbufMake PbufAlloc PbufClaims PbufRefs Netif EthArp EthArpTable EthArpSend EthArpOps EthArpQuery EthArpInput.
From Stdlib Require Import ZArith Lia.
From stdpp Require Import base numbers gmultiset list gmap.
Open Scope Z_scope.

(** ** A driver that records frames *)

Section Recorder.
Context {A : Type} {BA : BufAlloc A} {LA : BufAllocLaws A}.

Fixpoint gather (n : nat) (st : store) (m : memory) (p : Z) : list Z :=
  match n with
  | O => []
  | S n =>
     if p =? 0 then [] else
     match st !! p with Some b => cell_data m (p, b) ++ gather n st m (p_next b) | None => [] end
  end.
Lemma gather_contents st m n p l : chain st p l → (length l ≤ n)%nat → gather n st m p = contents m l.
Proof.
  revert p l. induction n as [|n IH]; intros p l Hc Hn; [by destruct l; simpl in Hn; [|lia]|].
  destruct l as [|[a b] l]; cbn in *; [by rewrite Hc|]. destruct Hc as (-> & Hp & Hb & Hc).
  rewrite (proj2 (Z.eqb_neq _ _) Hp), Hb. f_equal. apply IH; [done|lia].
Qed.

#[export] Instance recorder : LinkOutput A (list (list Z)) := {|
  linkoutput _ p := λ s, Ok (ERR_OK, Net (nt_bufs s)
    (nt_rest s ++ [gather (size (pb_store (nt_bufs s))) (pb_store (nt_bufs s)) (pb_data (nt_bufs s)) p]));
  link_sent n := n;
  link_holds _ := ∅ |}.
#[export] Instance recorder_laws : LinkOutputLaws A (list (list Z)).
Proof.
  refine {| link_ok _ _ := True |}. intros ni s R H p l Hh _ Hp Hpk. eexists ERR_OK, _. split; [done|].
  cbn [nt_bufs nt_rest link_sent link_holds recorder]. split; [done|]. split; [done|].
  split; [|split; [reflexivity|by intros ?]]. rewrite decide_True by done. do 2 f_equal.
  apply gather_contents; [apply Hpk|]. by apply chain_size with p, Hpk.
Defined.

(** Layers above that ignore what they get. *)
#[export] Instance deaf : @ArpUsers A (list (list Z)) := {|
  dhcp_arp_reply _ _ := mret tt;
  ip_input p _ := on_bufs (pbuf_free p) |}.
#[export] Instance deaf_laws : ArpUsersLaws (AU := deaf).
Proof.
  split.
  - intros ni ip R H s Hs _. apply runs_ret. split; [done|]. split; [done|]. split; [reflexivity|].
    exists []. by rewrite app_nil_r.
  - intros ni p l R H s Hs _ _. apply (ok_free_runs ni R H s p _ Hs). intros _ s' Hs' (_ & _ & Hk). by split.
Defined.
End Recorder.

(** ** Lifetimes *)

Definition lifetime (e : etharp_entry) : Z :=
  match ae_state e with
  | ETHARP_STATE_EMPTY => 0
  | ETHARP_STATE_PENDING => ARP_MAXPENDING
  | ETHARP_STATE_STABLE => ARP_MAXAGE
  end.

(** An entry after [k] periods of the timer. *)
Definition aged_by (k : nat) (e : etharp_entry) : etharp_entry :=
  if bool_decide (ae_state e = ETHARP_STATE_EMPTY) then e
  else if ae_ctime e + Z.of_nat k <? lifetime e then with_ctime (ae_ctime e + Z.of_nat k) e
  else emptied e.

Lemma aged_by_0 e : entry_ok e → aged_by 0 e = e.
Proof.
  intros Hok. unfold aged_by, lifetime. pose proof (eo_pending _ Hok) as Hp. pose proof (eo_stable _ Hok) as Hs.
  case_bool_decide as Est; [done|]. destruct e as [q ip mac st ct]. cbn in *.
  destruct st; [done|..]; cbn; rewrite Z.add_0_r; [specialize (Hp eq_refl)|specialize (Hs eq_refl)];
    by rewrite (proj2 (Z.ltb_lt _ _)).
Qed.
Lemma aged_by_S k e : entry_ok e → aged_by (S k) e = aged_by k (aged e).
Proof.
  intros Hok. unfold aged_by, lifetime, aged. destruct e as [q ip mac st ct]. pose proof (eo_age _ Hok) as Ha. cbn in *.
  pose proof (eo_pending _ Hok) as Hp. pose proof (eo_stable _ Hok) as Hs. cbn in Hp, Hs.
  destruct st; cbn; [done|specialize (Hp eq_refl)|specialize (Hs eq_refl)].
  - destruct (Z.ltb_spec (ct + 1) ARP_MAXPENDING); cbn.
    + by replace (ct + 1 + Z.of_nat k) with (ct + Z.pos (Pos.of_succ_nat k)) by lia.
    + rewrite (proj2 (Z.ltb_ge _ _)) by lia. by replace (ct + 1) with ARP_MAXPENDING by lia.
  - destruct (Z.ltb_spec (ct + 1) ARP_MAXAGE); cbn.
    + by replace (ct + 1 + Z.of_nat k) with (ct + Z.pos (Pos.of_succ_nat k)) by lia.
    + rewrite (proj2 (Z.ltb_ge _ _)) by lia. by replace (ct + 1) with ARP_MAXAGE by lia.
Qed.

Section Claims.
Context {A N : Type} {BA : BufAlloc A} {LA : BufAllocLaws A} {LO : LinkOutput A N} {LL : LinkOutputLaws A N}.
Implicit Types (s : arp_state A N).

Fixpoint periods (k : nat) : M (arp_state A N) unit :=
  match k with O => mret tt | S k => etharp_tmr;; periods k end.

(** C25.  Entries live as long as they should.  However often the timer runs,
    it returns and keeps the table, the packets queued on it and the packets
    of others in order, without sending anything; a pending entry is given up
    after [ARP_MAXPENDING] periods, with its packet, a stable one after
    [ARP_MAXAGE], and until then only the age changes. *)
Theorem entries_expire ni R H s (k : nat) :
  arp_ok ni R H s →
  runs (periods k) s (λ _ s', arp_ok ni R H s' ∧ arp_table s' = map (aged_by k) (arp_table s) ∧
    rest s' = rest s ∧ pb_data (bufs s') = pb_data (bufs s) ∧ kept_packets H (pb_store (bufs s)) (pb_store (bufs s'))).
Proof.
  revert s. induction k as [|k IH]; intros s Hs; cbn [periods].
  - apply runs_ret. split; [done|]. split; [|by repeat split]. rewrite <-(map_id (arp_table s)) at 1. apply map_ext_Forall.
    eapply Forall_impl; [apply (to_entries _ (ao_table _ _ _ _ Hs))|]. intros e He. symmetry. by apply aged_by_0.
  - destruct Hs as [Hb Ht Hc]. apply runs_bind. eapply runs_mono, (etharp_tmr_runs ni R H s Hb Ht).
    intros _ s1 (Hb1 & (Er & Ec & Ed & Hk) & Et). eapply runs_mono, (IH s1).
    + intros _ s2 (Hs2 & Et2 & Er2 & Ed2 & Hk2). split; [done|]. split; [|split; [congruence|split; [congruence|by etrans]]].
      rewrite Et2, Et, map_map. apply map_ext_Forall. eapply Forall_impl; [apply (to_entries _ Ht)|].
      intros e He. symmetry. by apply aged_by_S.
    + split; [done|rewrite Et; by apply aged_table|by rewrite Ec].
Qed.
Lemma routed_table ni ipaddr payload s r s' :
  table_ok (arp_table s) → routed ni ipaddr payload s r s' → table_ok (arp_table s').
Proof.
  intros Ht. unfold routed. destruct (ip_addr_isbroadcast _ _); [by intros [-> _]|]. destruct (ip_addr_ismulticast _); [by intros [-> _]|].
  destruct (_ && _); [by intros (_ & -> & _)|].
  intros [(n & e & _ & _ & _ & -> & _)|[[_ (n & e & e1 & fs & Hsl & _ & Hst & Hip & Hok & _ & _ & Hres)]|(_ & _ & -> & _)]]; [done| |done].
  destruct Hres as [(_ & p & c & _ & -> & _)|[_ ->]]; eapply slot_table; [done|exact Hsl| |done|done|exact Hsl|done|done].
  destruct Hok as [? ? ? ? ?]. by split.
Qed.


(** The entry for an address.  [find_entry] returns the entry an address
    has; without one, it reports that when told not to make one, or not to
    recycle one when all are in use; otherwise it sets up the first empty
    entry, else the oldest stable one, else the oldest pending one, one that
    has no packet if there is any, and releases the packet of an entry it
    recycles.  The packets of others stay as they are. *)
Theorem entry_found_or_recycled ni R H s ipaddr flags :
  arp_ok ni R H s →
  runs (find_entry (Some ipaddr) flags) s (λ i s', arp_ok ni R H s' ∧
    (found ipaddr s i s' ∨ not_found ipaddr flags s i s' ∨ created H ipaddr flags s i s')).
Proof.
  intros [Hb Ht Hc]. eapply runs_mono, (find_entry_runs ni R H s ipaddr flags Hb Ht).
  intros i s' (Hb' & Hres). split; [|done]. destruct Hres as [(n & e & _ & _ & _ & _ & ->)|[(_ & -> & _)|Hcr]]; [done..|].
  destruct Hcr as (n & e & _ & Hch & Hm & Hf & Hh & Et & (_ & Ec & _)). split; [done| |by rewrite Ec].
  rewrite Et. eapply (slot_table flags ipaddr); [done|right; done| |done]. pose proof (proj1 Hch) as He.
  pose proof (vacated_ok _ (table_entry _ _ _ Ht He)) as [Hq Hhw _ _ _]. pose proof (vacated_empty e) as Hem. unfold is_empty in Hem.
  split; cbn; rewrite ?Hem; (done || by rewrite Hem in Hq; apply Hq).
Qed.

(** ** Input and the exchange of two stations *)

Context {AU : @ArpUsers A N} {UL : ArpUsersLaws}.


(** A frame from the link in a buffer of its own. *)
Record received ni R (H : gmultiset Z) s (p : Z) (b : pbuf) (l : list cell) (frame : list Z) : Prop := {
  rv_ok : arp_ok ni R ({[+ p +]} ⊎ H) s;
  rv_packet : packet (pb_store (bufs s)) p ((p, b) :: l);
  rv_owns : own_octets ((p, b) :: l);
  rv_exclusive : exclusive ((p, b) :: l);
  rv_octets : contents (pb_data (bufs s)) ((p, b) :: l) = frame;
  rv_bytes : bytes_ok frame;
  rv_len : SIZEOF_ETHARP_PACKET ≤ p_len b }.

(** A station on the Ethernet, with an address of its own. *)
Record station (ni : netif) : Prop := {
  st_ethernet : ethernet ni;
  st_ip : is_u32 (ni_ip_addr ni);
  st_arp : Z.land (ni_flags ni) NETIF_FLAG_ETHARP ≠ 0;
  st_any : ip_addr_isany (ni_ip_addr ni) = false }.

Lemma frame_fields dst src op shw sip dhw dip tail :
  length dst = 6%nat → length src = 6%nat → length shw = 6%nat → length dhw = 6%nat → is_u32 sip → is_u32 dip →
  let x := take 42 (arp_frame dst src op shw sip dhw dip ++ tail) in
  wellformed x ∧ field 12 2 (arp_frame dst src op shw sip dhw dip ++ tail) = [8; 6] ∧ field 20 2 x = [0; op] ∧
  sender_hw x = shw ∧ sender_ip x = sip ∧ target_ip x = dip ∧ drop 42 (arp_frame dst src op shw sip dhw dip ++ tail) = tail.
Proof.
  intros H1 H2 H3 H4 H5 H6. cbv zeta. unfold wellformed, sender_ip, target_ip, arp_frame.
  assert (le_word (le_bytes 4 sip) = sip) as E1 by (rewrite le_word_bytes; by apply Z.mod_small).
  assert (le_word (le_bytes 4 dip) = dip) as E2 by (rewrite le_word_bytes; by apply Z.mod_small).
  assert (length (le_bytes 4 sip) = 4%nat) as L1 by done. assert (length (le_bytes 4 dip) = 4%nat) as L2 by done.
  revert E1 E2 L1 L2. generalize (le_bytes 4 sip) (le_bytes 4 dip). intros a c E1 E2 L1 L2.
  do 5 (destruct a as [|? a]; try done). do 5 (destruct c as [|? c]; try done).
  do 7 (destruct dst as [|? dst]; try done). do 7 (destruct src as [|? src]; try done).
  do 7 (destruct shw as [|? shw]; try done). do 7 (destruct dhw as [|? dhw]; try done).
Qed.

Lemma received_runs ni R H s p b l dst src op shw sip dhw dip tail :
  station ni → length dst = 6%nat → length src = 6%nat → length shw = 6%nat → length dhw = 6%nat → is_u32 sip → is_u32 dip →
  received ni R H s p b l (arp_frame dst src op shw sip dhw dip ++ tail) →
  runs (ethernet_input p ni) s (λ _ s', arp_ok ni R H s' ∧
    let x := take 42 (arp_frame dst src op shw sip dhw dip ++ tail) in
    field 20 2 x = [0; op] ∧ sender_hw x = shw ∧ sender_ip x = sip ∧ target_ip x = dip ∧ heard ni x tail s s').
Proof.
  intros Hst L1 L2 L3 L4 U1 U2 [Hs Hpk Ho Hx Hf Hb Hl].
  destruct (frame_fields dst src op shw sip dhw dip tail L1 L2 L3 L4 U1 U2) as (Hw & Hty & Hop & Ehw & Eip & Edip & Etail).
  eapply runs_mono, (ethernet_input_runs ni R H s p b l Hs (st_ethernet _ Hst) Hpk Ho Hx); [|by rewrite Hf].
  rewrite Hf. intros r s' (_ & Hs' & Hres). split; [done|]. unfold frame_result in Hres.
  rewrite decide_False in Hres by (intros [?|[[? _]|?]]; [unfold SIZEOF_ETHARP_PACKET, SIZEOF_ETHARP_HDR in Hl; lia|done|by apply (st_arp _ Hst)]).
  rewrite decide_True in Hres by done. unfold input_result in Hres. rewrite decide_True in Hres by done.
  cbv zeta. do 4 (split; [done|]). rewrite Etail in Hres. by destruct Hres.
Qed.

End Claims.

(** ** Two stations with a packet each *)

Definition demo_ni (i : Z) : netif :=
  Netif (192 + 168 * 2 ^ 8 + i * 2 ^ 24) 0xffffff 0 1500 6 [0; 0x60; 0x37; 0x12; 0x34; i] 0x23 [0x65; 0x6e] 0.
Definition demo_entry (ip : Z) (st : etharp_state) (age : Z) : etharp_entry := Entry 0 ip [2; 0; 0; 0; 0; 9] st age.
Definition demo_table : list etharp_entry :=
  [demo_entry (ni_ip_addr (demo_ni 2)) ETHARP_STATE_PENDING 0; demo_entry (ni_ip_addr (demo_ni 9)) ETHARP_STATE_STABLE 238;
   demo_entry 0 ETHARP_STATE_EMPTY 0; demo_entry 0 ETHARP_STATE_EMPTY 0].
Definition demo_arp (b : pbufs_state allocators) : arp_state allocators (list (list Z)) := Arp (Net b []) demo_table 1 (λ _, 0).

Lemma demo_table_ok : table_ok demo_table.
Proof.
  split; [done| |].
  - repeat constructor; cbn; (done || lia).
  - intros i j d e Hi Hj Hd He E.
    do 4 (destruct i as [|i]; [do 4 (destruct j as [|j]; [by cbn in Hi, Hj; simplify_eq|]); done|]); done.
Qed.
Lemma demo_station i : 0 ≤ i < 255 → station (demo_ni i).
Proof.
  intros Hi. split; [split; [done|split; [done|]]| |done|].
  - do 6 (apply Forall_cons; split; [unfold is_u8; lia|]). constructor.
  - unfold is_u32, demo_ni, ni_ip_addr. lia.
  - unfold ip_addr_isany, demo_ni, ni_ip_addr, IPADDR_ANY. apply Z.eqb_neq. lia.
Qed.
Lemma demo_arp_ok b H i : held_ok b ∅ H → arp_ok (demo_ni i) ∅ H (demo_arp b).
Proof.
  intros Hb. split; [|apply demo_table_ok|done]. split; [|intros e He Hq; exfalso|done].
  - replace (queued (arp_table (demo_arp b))) with (∅ : gmultiset Z) by (cbn; rewrite tok_0; multiset_solver).
    replace (link_holds (rest (demo_arp b))) with (∅ : gmultiset Z) by done.
    by rewrite !gmultiset_disj_union_right_id.
  - do 4 (apply elem_of_cons in He as [->|He]; [done|]). by apply elem_of_nil in He.
Qed.

(** A packet with room for the header, and a frame. *)
Definition demo_moved (n : Z) : pbufs_state allocators :=
  Pbufs (<[demo_p := moved (- n) (demo_buf demo_p 84)]> (pb_store demo)) (pb_data demo) (pb_alloc demo).
Definition demo_room : pbufs_state allocators := demo_moved 16.
Lemma demo_moved_held n : 0 ≤ n ≤ 84 → held_ok (demo_moved n) ∅ ({[+ demo_p +]} ⊎ {[+ demo_q +]}).
Proof.
  intros Hn. destruct demo_held as [(L & Hok & HL) Hct]. assert (pb_store demo !! demo_p = Some (demo_buf demo_p 84)) as Hb by done.
  pose proof (pbuf_header_ok demo L demo_p (demo_buf demo_p 84) (- n) Hok Hb ltac:(done) ltac:(lia)
    ltac:(cbn; lia) ltac:(unfold is_u16; cbn; lia) ltac:(unfold is_u16; cbn; lia)) as Hh.
  rewrite decide_True in Hh by (intros ?; lia). destruct Hh as [_ Hok']. split; [|by apply counted_fields with (demo_buf demo_p 84)].
  exists L. split; [exact Hok'|]. by apply beside_insert with (demo_buf demo_p 84).
Qed.
Lemma demo_room_held : held_ok demo_room ∅ ({[+ demo_p +]} ⊎ {[+ demo_q +]}).
Proof. by apply demo_moved_held. Qed.
Lemma demo_room_packet : packet (pb_store demo_room) demo_p [(demo_p, moved (-16) (demo_buf demo_p 84))].
Proof. split; [|by cbn; lia|done|done]. split; [done|]. split; [done|]. split; [apply lookup_insert_eq|done]. Qed.

Definition demo_request : list Z := request_frame (demo_ni 1) (ni_ip_addr (demo_ni 2)) ++ replicate 42 0.
Definition demo_frame : pbufs_state allocators :=
  Pbufs (pb_store demo) (mem_write (pb_data demo) (demo_p + 16) demo_request) (pb_alloc demo).
Lemma demo_received :
  received (demo_ni 2) ∅ {[+ demo_q +]} (demo_arp demo_frame) demo_p (demo_buf demo_p 84) [] demo_request.
Proof.
  split; [apply demo_arp_ok, held_ok_data, demo_held|apply demo_packet_p|by apply Forall_singleton; left|
    by apply Forall_singleton| | |done].
  - cbn [contents]. rewrite app_nil_r. by apply (mem_write_read _ _ demo_request).
  - unfold demo_request. apply Forall_app. split; [|by apply Forall_replicate].
    repeat (apply Forall_cons; split; [by vm_compute|]). constructor.
Qed.

(** After two periods both entries in use are gone. *)
Lemma entries_expire_witness :
  runs (periods 2) (demo_arp demo) (λ _ s', arp_ok (demo_ni 1) ∅ ({[+ demo_p +]} ⊎ {[+ demo_q +]}) s' ∧
    arp_table s' = map (aged_by 2) demo_table ∧ rest s' = [] ∧ pb_data (bufs s') = pb_data demo ∧
    kept_packets ({[+ demo_p +]} ⊎ {[+ demo_q +]}) (pb_store demo) (pb_store (bufs s'))) ∧
  map ae_state (map (aged_by 2) demo_table) = replicate 4 ETHARP_STATE_EMPTY.
Proof.
  split; [|by vm_compute].
  exact (entries_expire (demo_ni 1) ∅ ({[+ demo_p +]} ⊎ {[+ demo_q +]}) (demo_arp demo) 2 (demo_arp_ok demo _ 1 demo_held)).
Defined.

Lemma entry_found_or_recycled_witness :
  runs (find_entry (Some (ni_ip_addr (demo_ni 5))) ETHARP_FLAG_TRY_HARD) (demo_arp demo) (λ i s',
    arp_ok (demo_ni 1) ∅ ({[+ demo_p +]} ⊎ {[+ demo_q +]}) s' ∧
    (found (ni_ip_addr (demo_ni 5)) (demo_arp demo) i s' ∨
     not_found (ni_ip_addr (demo_ni 5)) ETHARP_FLAG_TRY_HARD (demo_arp demo) i s' ∨
     created ({[+ demo_p +]} ⊎ {[+ demo_q +]}) (ni_ip_addr (demo_ni 5)) ETHARP_FLAG_TRY_HARD (demo_arp demo) i s')).
Proof.
  exact (entry_found_or_recycled (demo_ni 1) ∅ ({[+ demo_p +]} ⊎ {[+ demo_q +]}) (demo_arp demo)
    (ni_ip_addr (demo_ni 5)) ETHARP_FLAG_TRY_HARD (demo_arp_ok demo _ 1 demo_held)).
Defined.



