(* ===== verification/LwipStack.v ===== *)
(** * The stack above the link

    The state that IP, ICMP and UDP share, and what they ask of the layer
    below, [netif->output], and of the layers above. *)

From S2P Require Import Prelude LwipBase IpAddr Heap Memp Pbuf PbufChain PbufLinks PbufData PbufAlloc PbufRefs Netif.
From Stdlib Require Import ZArith Lia.
From stdpp Require Import base numbers gmultiset list gmap.
Open Scope Z_scope.

(** ** The layer below *)

(** Buffers, and the output of an IP packet to an address. *)
Class Lower (A B : Type) := {
  lw_bufs : B → pbufs_state A;
  lw_with_bufs : pbufs_state A → B → B;
  netif_output : netif → Z → Z → M B Z }.

(** ** State *)

Inductive proto := P_ip | P_icmp | P_udp.
#[export] Instance proto_eq : EqDecision proto.
Proof. solve_decision. Defined.

(** Receive functions are numbers, NULL is 0. *)
Record udp_pcb := UdpPcb {
  up_local_ip : Z;
  up_remote_ip : Z;
  up_so_options : Z;
  up_tos : Z;
  up_ttl : Z;
  up_flags : Z;
  up_local_port : Z;
  up_remote_port : Z;
  up_recv : Z;
  up_recv_arg : Z }.

(** [U] is the state of everything above: TCP, raw and the users of UDP.  The
    list [udp_pcbs] is the list of the addresses of its elements. *)
Record stack (B U : Type) := Stack {
  sk_low : B;
  netif_list : list netif;
  netif_default : option netif;
  lwip_stats : proto → stats_proto;
  ip_id : Z;
  current_netif : option netif;
  current_header : Z;
  current_iphdr_src : Z;
  current_iphdr_dest : Z;
  udp_pcbs : list Z;
  sk_pcbs : gmap Z udp_pcb;
  dhcp_pcb : netif → option Z;
  sk_users : U }.
Arguments Stack {B U} sk_low netif_list netif_default lwip_stats ip_id current_netif current_header
  current_iphdr_src current_iphdr_dest udp_pcbs sk_pcbs dhcp_pcb sk_users.
Arguments sk_low {B U} s.
Arguments netif_list {B U} s.
Arguments netif_default {B U} s.
Arguments lwip_stats {B U} s _.
Arguments ip_id {B U} s.
Arguments current_netif {B U} s.
Arguments current_header {B U} s.
Arguments current_iphdr_src {B U} s.
Arguments current_iphdr_dest {B U} s.
Arguments udp_pcbs {B U} s.
Arguments sk_pcbs {B U} s.
Arguments dhcp_pcb {B U} s _.
Arguments sk_users {B U} s.

Section Stack.
Context {A B U : Type} {BA : BufAlloc A} {LW : Lower A B}.
Abbreviation SM := (M (stack B U)).
Implicit Types (s : stack B U).

Definition with_low (b : B) s : stack B U :=
  Stack b (netif_list s) (netif_default s) (lwip_stats s) (ip_id s) (current_netif s) (current_header s)
    (current_iphdr_src s) (current_iphdr_dest s) (udp_pcbs s) (sk_pcbs s) (dhcp_pcb s) (sk_users s).
Definition with_stats (f : proto → stats_proto) s : stack B U :=
  Stack (sk_low s) (netif_list s) (netif_default s) f (ip_id s) (current_netif s) (current_header s)
    (current_iphdr_src s) (current_iphdr_dest s) (udp_pcbs s) (sk_pcbs s) (dhcp_pcb s) (sk_users s).
Definition with_ip_id (x : Z) s : stack B U :=
  Stack (sk_low s) (netif_list s) (netif_default s) (lwip_stats s) x (current_netif s) (current_header s)
    (current_iphdr_src s) (current_iphdr_dest s) (udp_pcbs s) (sk_pcbs s) (dhcp_pcb s) (sk_users s).
Definition with_current (n : option netif) (h : Z) s : stack B U :=
  Stack (sk_low s) (netif_list s) (netif_default s) (lwip_stats s) (ip_id s) n h
    (current_iphdr_src s) (current_iphdr_dest s) (udp_pcbs s) (sk_pcbs s) (dhcp_pcb s) (sk_users s).
Definition with_addresses (src dest : Z) s : stack B U :=
  Stack (sk_low s) (netif_list s) (netif_default s) (lwip_stats s) (ip_id s) (current_netif s) (current_header s)
    src dest (udp_pcbs s) (sk_pcbs s) (dhcp_pcb s) (sk_users s).
Definition with_udp (l : list Z) (m : gmap Z udp_pcb) s : stack B U :=
  Stack (sk_low s) (netif_list s) (netif_default s) (lwip_stats s) (ip_id s) (current_netif s) (current_header s)
    (current_iphdr_src s) (current_iphdr_dest s) l m (dhcp_pcb s) (sk_users s).

Definition on_low {X} (m : M B X) : SM X := lift sk_low with_low m.
Definition on_pbufs {X} (m : M (pbufs_state A) X) : SM X := on_low (lift lw_bufs lw_with_bufs m).
Definition tick (p : proto) (x : counter) s : stack B U :=
  with_stats (λ q, if decide (q = p) then STATS_INC x (lwip_stats s q) else lwip_stats s q) s.
Definition PROTO_STATS_INC (p : proto) (x : counter) : SM unit := modify (tick p x).

(** *** The layers above *)

(** Raw and TCP input, the fragments, and the receive functions. *)
Class Upper := {
  raw_input : Z → netif → SM Z;
  tcp_input : Z → netif → SM unit;
  ip_frag : Z → netif → Z → SM Z;
  ip_reass : Z → SM Z;
  udp_recv_fn : Z → Z → Z → Z → Z → Z → SM unit }.
End Stack.
Arguments Upper B U : clear implicits.
