(* ===== verification/Ip.v ===== *)
(** * IP ([src/lwip/core/ipv4/ip.c])

    Routing, input and output of IP packets.  As configured: no forwarding, no
    multicast groups, no loopback; options are accepted, fragments go to the
    reassembly, the header checksum is computed inline. *)

From S2P Require Import Prelude LwipBase IpAddr InetChksum Heap Memp Pbuf PbufChain PbufLinks PbufData PbufAlloc PbufRefs PbufChksum Netif LwipStack.
From Stdlib Require Import ZArith Lia.
From stdpp Require Import base numbers gmultiset list gmap.
Open Scope Z_scope.

Definition IP_HLEN : Z := 20.
Definition IP_PROTO_ICMP : Z := 1.
Definition IP_PROTO_UDP : Z := 17.
Definition IP_PROTO_TCP : Z := 6.
Definition IP_OFFMASK : Z := 0x1fff.
Definition IP_MF : Z := 0x2000.
Definition DHCP_CLIENT_PORT : Z := 68.
Definition DHCP_SERVER_PORT : Z := 67.

(** Offsets in an IP header, and in a UDP header. *)
Definition IPH_VHLTOS : Z := 0.
Definition IPH_LEN : Z := 2.
Definition IPH_ID : Z := 4.
Definition IPH_OFFSET : Z := 6.
Definition IPH_TTL : Z := 8.
Definition IPH_PROTO : Z := 9.
Definition IPH_CHKSUM : Z := 10.
Definition IPH_SRC : Z := 12.
Definition IPH_DEST : Z := 16.
Definition UDPH_DEST : Z := 2.

Definition IPH_V (v_hl_tos : Z) : Z := Z.shiftr (lwip_htons v_hl_tos) 12.
Definition IPH_HL (v_hl_tos : Z) : Z := Z.land (Z.shiftr (lwip_htons v_hl_tos) 8) 0x0f.
Definition LWIP_MAKE_U16 (a b : Z) : Z := Z.lor (Z.shiftl a 8) b.

Definition netif_is_up (n : netif) : bool := negb (Z.land (ni_flags n) NETIF_FLAG_UP =? 0).

Section Ip.
Context {A B U : Type} {BA : BufAlloc A} {LW : Lower A B}.
Abbreviation SM := (M (stack B U)).
Definition IP_STATS_INC (x : counter) : SM unit := PROTO_STATS_INC P_ip x.

(** ** Routing *)

Definition route_match (dest : Z) (n : netif) : bool :=
  netif_is_up n && ip_addr_netcmp dest (ni_ip_addr n) (ni_netmask n).
Fixpoint route_loop (dest : Z) (l : list netif) : option netif :=
  match l with
  | [] => None
  | n :: l => if route_match dest n then Some n else route_loop dest l
  end.
Definition ip_route (dest : Z) : SM (option netif) :=
  l ← gets netif_list;
  match route_loop dest l with
  | Some n => mret (Some n)
  | None =>
     d ← gets netif_default;
     match d with
     | Some n => if netif_is_up n then mret (Some n) else IP_STATS_INC c_rterr;; mret None
     | None => IP_STATS_INC c_rterr;; mret None
     end
  end.

(** ** Output *)

Context {UP : Upper B U}.

(** The header at [iphdr], with its checksum computed on the way. *)
Definition write_header (p iphdr src dest ttl tos proto : Z) (n : netif) : SM unit :=
  on_pbufs (store8 (iphdr + IPH_TTL) ttl);;
  on_pbufs (store8 (iphdr + IPH_PROTO) proto);;
  let chk_sum := u32 (0 + LWIP_MAKE_U16 proto ttl) in
  on_pbufs (store32 (iphdr + IPH_DEST) dest);;
  let chk_sum := u32 (chk_sum + Z.land dest 0xffff) in
  let chk_sum := u32 (chk_sum + Z.shiftr dest 16) in
  let v_hl_tos := lwip_htons (Z.lor (Z.lor (Z.shiftl 4 12) (Z.shiftl (IP_HLEN / 4) 8)) tos) in
  on_pbufs (store16 (iphdr + IPH_VHLTOS) v_hl_tos);;
  let chk_sum := u32 (chk_sum + v_hl_tos) in
  b ← on_pbufs (get_pbuf p);
  let len := lwip_htons (p_tot_len b) in
  on_pbufs (store16 (iphdr + IPH_LEN) len);;
  let chk_sum := u32 (chk_sum + len) in
  on_pbufs (store16 (iphdr + IPH_OFFSET) 0);;
  i ← gets ip_id;
  let id := lwip_htons i in
  on_pbufs (store16 (iphdr + IPH_ID) id);;
  let chk_sum := u32 (chk_sum + id) in
  modify (λ s, with_ip_id (u16 (ip_id s + 1)) s);;
  let src := if ip_addr_isany src then ni_ip_addr n else src in
  on_pbufs (store32 (iphdr + IPH_SRC) src);;
  let chk_sum := u32 (chk_sum + Z.land src 0xffff) in
  let chk_sum := u32 (chk_sum + Z.shiftr src 16) in
  let chk_sum := u32 (Z.shiftr chk_sum 16 + Z.land chk_sum 0xffff) in
  let chk_sum := u32 (Z.shiftr chk_sum 16 + chk_sum) in
  let chk_sum := unot 32 chk_sum in
  on_pbufs (store16 (iphdr + IPH_CHKSUM) chk_sum).

(** The packet with its header, to the interface or in fragments. *)
Definition send_packet (p dest : Z) (n : netif) : SM Z :=
  IP_STATS_INC c_xmit;;
  b ← on_pbufs (get_pbuf p);
  if negb (ni_mtu n =? 0) && (ni_mtu n <? p_tot_len b) then ip_frag p n dest
  else on_low (netif_output n p dest).

(** [IP_HDRINCL] is no destination; NULL and IP_ADDR_ANY as source are 0. *)
Definition ip_output_if (p src : Z) (dest : option Z) (ttl tos proto : Z) (n : netif) : SM Z :=
  b ← on_pbufs (get_pbuf p);
  LWIP_ASSERT (p_ref b =? 1);;
  match dest with
  | Some dest =>
     failed ← on_pbufs (pbuf_header p IP_HLEN);
     if negb (failed =? 0) then
       IP_STATS_INC c_err;;
       mret ERR_BUF
     else
       b ← on_pbufs (get_pbuf p);
       LWIP_ASSERT (IP_HLEN <=? p_len b);;
       write_header p (p_payload b) src dest ttl tos proto n;;
       send_packet p dest n
  | None =>
     dest ← on_pbufs (load32 (p_payload b + IPH_DEST));
     send_packet p dest n
  end.

Definition ip_output (p src dest ttl tos proto : Z) : SM Z :=
  b ← on_pbufs (get_pbuf p);
  LWIP_ASSERT (p_ref b =? 1);;
  n ← ip_route dest;
  match n with
  | None => IP_STATS_INC c_rterr;; mret ERR_RTE
  | Some n => ip_output_if p src (Some dest) ttl tos proto n
  end.
End Ip.
