(* ===== verification/Icmp.v ===== *)
(** * ICMP ([src/lwip/core/ipv4/icmp.c])

    The answer to echo requests, and the messages about packets that could not
    be delivered. *)

From S2P Require Import Prelude LwipBase IpAddr InetChksum Heap Memp Pbuf PbufChain PbufLinks PbufData PbufAlloc PbufRefs PbufChksum Netif LwipStack Ip.
From Stdlib Require Import ZArith Lia.
From stdpp Require Import base numbers gmultiset list gmap.
Open Scope Z_scope.

Definition ICMP_ER : Z := 0.
Definition ICMP_DUR : Z := 3.
Definition ICMP_ECHO : Z := 8.
Definition ICMP_TE : Z := 11.
Definition ICMP_DUR_PROTO : Z := 2.
Definition ICMP_DUR_PORT : Z := 3.
Definition ICMP_TTL : Z := 255.
Definition ICMP_DEST_UNREACH_DATASIZE : Z := 8.
Definition SIZEOF_ICMP_ECHO_HDR : Z := 8.

(** Offsets in an ICMP header. *)
Definition ICMPH_TYPE : Z := 0.
Definition ICMPH_CODE : Z := 1.
Definition ICMPH_CHKSUM : Z := 2.
Definition ICMPH_ID : Z := 4.
Definition ICMPH_SEQNO : Z := 6.

Section Icmp.
Context {A B U : Type} {BA : BufAlloc A} {LW : Lower A B} {UP : Upper B U}.
Abbreviation SM := (M (stack B U)).
Definition ICMP_STATS_INC (x : counter) : SM unit := PROTO_STATS_INC P_icmp x.

(** ** Messages about packets *)

Definition icmp_send_response (p type code : Z) : SM unit :=
  q ← on_pbufs (pbuf_alloc PBUF_IP (SIZEOF_ICMP_ECHO_HDR + IP_HLEN + ICMP_DEST_UNREACH_DATASIZE) PBUF_RAM);
  if q =? 0 then mret tt
  else
    bq ← on_pbufs (get_pbuf q);
    LWIP_ASSERT (SIZEOF_ICMP_ECHO_HDR + IP_HLEN + ICMP_DEST_UNREACH_DATASIZE <=? p_len bq);;
    bp ← on_pbufs (get_pbuf p);
    let iphdr := p_payload bp in
    let icmphdr := p_payload bq in
    on_pbufs (store8 (icmphdr + ICMPH_TYPE) type);;
    on_pbufs (store8 (icmphdr + ICMPH_CODE) code);;
    on_pbufs (store16 (icmphdr + ICMPH_ID) 0);;
    on_pbufs (store16 (icmphdr + ICMPH_SEQNO) 0);;
    l ← on_pbufs (load_octets iphdr (IP_HLEN + ICMP_DEST_UNREACH_DATASIZE));
    on_pbufs (store_octets (icmphdr + SIZEOF_ICMP_ECHO_HDR) l);;
    on_pbufs (store16 (icmphdr + ICMPH_CHKSUM) 0);;
    m ← on_pbufs (load_octets icmphdr (p_len bq));
    on_pbufs (store16 (icmphdr + ICMPH_CHKSUM) (inet_chksum m));;
    ICMP_STATS_INC c_xmit;;
    iphdr_src ← on_pbufs (load32 (iphdr + IPH_SRC));
    ip_output q 0 iphdr_src ICMP_TTL 0 IP_PROTO_ICMP;;
    on_pbufs (pbuf_free q);;
    mret tt.

Definition icmp_dest_unreach (p t : Z) : SM unit := icmp_send_response p ICMP_DUR t.
Definition icmp_time_exceeded (p t : Z) : SM unit := icmp_send_response p ICMP_TE t.

(** ** Input *)

Definition icmp_lenerr (p : Z) : SM unit :=
  on_pbufs (pbuf_free p);;
  ICMP_STATS_INC c_lenerr.
Definition icmp_memerr (p : Z) : SM unit :=
  on_pbufs (pbuf_free p);;
  ICMP_STATS_INC c_err.

(** A packet that has room for the headers below: [p], or a copy in its place
    with the new IP header; nothing after an error. *)
Definition icmp_make_room (p iphdr hlen : Z) : SM (option (Z * Z)) :=
  failed ← on_pbufs (pbuf_header p (PBUF_IP_HLEN + PBUF_LINK_HLEN));
  if negb (failed =? 0) then
    failed ← on_pbufs (pbuf_header p hlen);
    if negb (failed =? 0) then
      LWIP_ASSERT false;;
      icmp_memerr p;;
      mret None
    else
      b ← on_pbufs (get_pbuf p);
      r ← on_pbufs (pbuf_alloc PBUF_LINK (p_tot_len b) PBUF_RAM);
      if r =? 0 then
        icmp_memerr p;;
        mret None
      else
        c ← on_pbufs (get_pbuf r);
        LWIP_ASSERT (hlen + SIZEOF_ICMP_ECHO_HDR <=? p_len c);;
        err ← on_pbufs (pbuf_copy r p);
        if negb (err =? ERR_OK) then
          LWIP_ASSERT false;;
          icmp_memerr p;;
          mret None
        else
          let iphdr := p_payload c in
          failed ← on_pbufs (pbuf_header r (- hlen));
          if negb (failed =? 0) then
            LWIP_ASSERT false;;
            icmp_memerr p;;
            mret None
          else
            on_pbufs (pbuf_free p);;
            mret (Some (r, iphdr))
  else
    failed ← on_pbufs (pbuf_header p (- (PBUF_IP_HLEN + PBUF_LINK_HLEN)));
    if negb (failed =? 0) then
      LWIP_ASSERT false;;
      icmp_memerr p;;
      mret None
    else mret (Some (p, iphdr)).

(** Turn the request at [iecho] into the reply. *)
Definition icmp_turn (iphdr iecho : Z) : SM unit :=
  dest ← gets current_iphdr_dest;
  src ← gets current_iphdr_src;
  on_pbufs (store32 (iphdr + IPH_SRC) dest);;
  on_pbufs (store32 (iphdr + IPH_DEST) src);;
  on_pbufs (store8 (iecho + ICMPH_TYPE) ICMP_ER);;
  c ← on_pbufs (load16 (iecho + ICMPH_CHKSUM));
  (if PP_HTONS (0xffff - Z.shiftl ICMP_ECHO 8) <=? c
   then on_pbufs (store16 (iecho + ICMPH_CHKSUM) (c + (PP_HTONS (Z.shiftl ICMP_ECHO 8) + 1)))
   else on_pbufs (store16 (iecho + ICMPH_CHKSUM) (c + PP_HTONS (Z.shiftl ICMP_ECHO 8))));;
  on_pbufs (store8 (iphdr + IPH_TTL) ICMP_TTL);;
  on_pbufs (store16 (iphdr + IPH_CHKSUM) 0);;
  l ← on_pbufs (load_octets iphdr IP_HLEN);
  on_pbufs (store16 (iphdr + IPH_CHKSUM) (inet_chksum l)).

Definition icmp_echo (p iphdr hlen : Z) (inp : netif) : SM unit :=
  dest ← gets current_iphdr_dest;
  if ip_addr_ismulticast dest || ip_addr_isbroadcast dest inp then
    ICMP_STATS_INC c_err;;
    on_pbufs (pbuf_free p);;
    mret tt
  else
    b ← on_pbufs (get_pbuf p);
    if p_tot_len b <? SIZEOF_ICMP_ECHO_HDR then icmp_lenerr p
    else
      c ← on_pbufs (inet_chksum_pbuf p);
      if negb (c =? 0) then
        on_pbufs (pbuf_free p);;
        ICMP_STATS_INC c_chkerr
      else
        room ← icmp_make_room p iphdr hlen;
        match room with
        | None => mret tt
        | Some (p, iphdr) =>
           b ← on_pbufs (get_pbuf p);
           icmp_turn iphdr (p_payload b);;
           ICMP_STATS_INC c_xmit;;
           failed ← on_pbufs (pbuf_header p hlen);
           (if negb (failed =? 0) then LWIP_ASSERT false
            else
              dest ← gets current_iphdr_dest;
              ip_output_if p dest None ICMP_TTL 0 IP_PROTO_ICMP inp;;
              mret tt);;
           on_pbufs (pbuf_free p);;
           mret tt
        end.

Definition icmp_input (p : Z) (inp : netif) : SM unit :=
  ICMP_STATS_INC c_recv;;
  b ← on_pbufs (get_pbuf p);
  let iphdr := p_payload b in
  v ← on_pbufs (load16 (iphdr + IPH_VHLTOS));
  let hlen := IPH_HL v * 4 in
  failed ← on_pbufs (pbuf_header p (- hlen));
  if negb (failed =? 0) then icmp_lenerr p
  else
    b ← on_pbufs (get_pbuf p);
    if p_tot_len b <? 4 then icmp_lenerr p
    else
      type ← on_pbufs (load8 (p_payload b));
      if type =? ICMP_ER then
        on_pbufs (pbuf_free p);;
        mret tt
      else if type =? ICMP_ECHO then icmp_echo p iphdr hlen inp
      else
        ICMP_STATS_INC c_proterr;;
        ICMP_STATS_INC c_drop;;
        on_pbufs (pbuf_free p);;
        mret tt.
End Icmp.
