(* ===== verification/Udp.v ===== *)
(** * UDP ([src/lwip/core/udp.c])

    Input and output of datagrams, and the control blocks.  As configured: no
    UDP-Lite, broadcast only with [SOF_BROADCAST], packets for the client of
    DHCP go to its control block only. *)

From S2P Require Import Prelude LwipBase IpAddr InetChksum Heap Memp Pbuf PbufChain PbufLinks PbufData PbufAlloc PbufRefs PbufChksum Netif LwipStack Ip Icmp.
From Stdlib Require Import ZArith Lia.
From stdpp Require Import base numbers gmultiset list gmap.
Open Scope Z_scope.

Definition UDP_HLEN : Z := 8.
Definition UDP_TTL : Z := 255.
Definition UDP_FLAGS_NOCHKSUM : Z := 0x01.
Definition UDP_FLAGS_CONNECTED : Z := 0x04.
Definition SOF_BROADCAST : Z := 0x20.
Definition UDP_LOCAL_PORT_RANGE_START : Z := 0xc000.
Definition UDP_LOCAL_PORT_RANGE_END : Z := 0xffff.

(** Offsets in a UDP header; the destination is with IP. *)
Definition UDPH_SRC : Z := 0.
Definition UDPH_LEN : Z := 4.
Definition UDPH_CHKSUM : Z := 6.

Definition with_local (ip port : Z) (b : udp_pcb) : udp_pcb :=
  UdpPcb ip (up_remote_ip b) (up_so_options b) (up_tos b) (up_ttl b) (up_flags b) port (up_remote_port b) (up_recv b) (up_recv_arg b).
Definition with_remote (ip port flags : Z) (b : udp_pcb) : udp_pcb :=
  UdpPcb (up_local_ip b) ip (up_so_options b) (up_tos b) (up_ttl b) flags (up_local_port b) port (up_recv b) (up_recv_arg b).
Definition with_recv (f arg : Z) (b : udp_pcb) : udp_pcb :=
  UdpPcb (up_local_ip b) (up_remote_ip b) (up_so_options b) (up_tos b) (up_ttl b) (up_flags b) (up_local_port b)
    (up_remote_port b) f arg.

(** ** Matching *)

(** The address and port of a datagram. *)
Record datagram := Dgram { dg_src_ip : Z; dg_src : Z; dg_dest_ip : Z; dg_dest : Z; dg_broadcast : bool }.

Definition local_match (d : datagram) (b : udp_pcb) : bool :=
  (up_local_port b =? dg_dest d) &&
  ((negb (dg_broadcast d) && ip_addr_isany (up_local_ip b)) || (up_local_ip b =? dg_dest_ip d) ||
   (dg_broadcast d && negb (Z.land (up_so_options b) SOF_BROADCAST =? 0))).
Definition remote_match (d : datagram) (b : udp_pcb) : bool :=
  (up_remote_port b =? dg_src d) && (ip_addr_isany (up_remote_ip b) || (up_remote_ip b =? dg_src_ip d)).
Definition is_connected (b : udp_pcb) : bool := negb (Z.land (up_flags b) UDP_FLAGS_CONNECTED =? 0).

(** The search: a control block that matches fully, with those before it, or
    the first unconnected one that matches locally. *)
Fixpoint match_loop (d : datagram) (m : gmap Z udp_pcb) (prev : list Z) (uncon : Z) (l : list Z) : outcome (Z * option (list Z)) :=
  match l with
  | [] => Ok (uncon, None)
  | pcb :: l =>
     match m !! pcb with
     | None => Fault
     | Some b =>
        let uncon := if local_match d b && (uncon =? 0) && negb (is_connected b) then pcb else uncon in
        if local_match d b && remote_match d b then Ok (pcb, Some prev) else match_loop d m (prev ++ [pcb]) uncon l
     end
  end.

Section Udp.
Context {A B U : Type} {BA : BufAlloc A} {LW : Lower A B} {UP : Upper B U}.
Abbreviation SM := (M (stack B U)).
Implicit Types (s : stack B U).
Definition UDP_STATS_INC (x : counter) : SM unit := PROTO_STATS_INC P_udp x.

Definition get_pcb (pcb : Z) : SM udp_pcb := λ s,
  match sk_pcbs s !! pcb with Some b => Ok (b, s) | None => Fault end.
Definition set_pcb (pcb : Z) (f : udp_pcb → udp_pcb) : SM unit := λ s,
  match sk_pcbs s !! pcb with
  | Some b => Ok (tt, with_udp (udp_pcbs s) (<[pcb := f b]> (sk_pcbs s)) s)
  | None => Fault
  end.
Definition on_alloc {X} (m : M A X) : SM X :=
  on_pbufs (lift pb_alloc (λ a b, Pbufs (pb_store b) (pb_data b) a) m).

(** ** Input *)

(** The control block for a datagram, or NULL; one that matches fully moves to
    the front of the list. *)
Definition find_pcb (d : datagram) (inp : netif) : SM Z :=
  if dg_dest d =? DHCP_CLIENT_PORT then
    if dg_src d =? DHCP_SERVER_PORT then
      dhcp ← gets dhcp_pcb;
      match dhcp inp with
      | None => mret 0
      | Some pcb =>
         b ← get_pcb pcb;
         mret (if ip_addr_isany (up_remote_ip b) || (up_remote_ip b =? dg_src_ip d) then pcb else 0)
      end
    else mret 0
  else λ s,
    match match_loop d (sk_pcbs s) [] 0 (udp_pcbs s) with
    | Ok (pcb, Some []) => (UDP_STATS_INC c_cachehit;; mret pcb) s
    | Ok (pcb, Some prev) =>
       Ok (pcb, with_udp (pcb :: prev ++ drop (S (length prev)) (udp_pcbs s)) (sk_pcbs s) s)
    | Ok (pcb, None) => Ok (pcb, s)
    | Spin => Spin
    | Fault => Fault
    end.

Definition udp_drop (p : Z) (why : list counter) : SM unit :=
  (fix incs l := match l with [] => mret tt | c :: l => UDP_STATS_INC c;; incs l end) why;;
  on_pbufs (pbuf_free p);;
  mret tt.

(** The datagram in [p], whose payload is behind the header, for [pcb]. *)
Definition udp_deliver (p pcb iphdr hl src : Z) (d : datagram) : SM unit :=
  if negb (pcb =? 0) then
    b ← get_pcb pcb;
    if negb (up_recv b =? 0) then
      addr ← gets current_iphdr_src;
      udp_recv_fn (up_recv b) (up_recv_arg b) pcb p addr src
    else
      on_pbufs (pbuf_free p);;
      mret tt
  else
    (if negb (dg_broadcast d) && negb (ip_addr_ismulticast (dg_dest_ip d)) then
       on_pbufs (pbuf_header p (hl * 4 + UDP_HLEN));;
       b ← on_pbufs (get_pbuf p);
       LWIP_ASSERT (p_payload b =? iphdr);;
       icmp_dest_unreach p ICMP_DUR_PORT
     else mret tt);;
    udp_drop p [c_proterr; c_drop].

Definition udp_input (p : Z) (inp : netif) : SM unit :=
  UDP_STATS_INC c_recv;;
  b ← on_pbufs (get_pbuf p);
  let iphdr := p_payload b in
  v ← on_pbufs (load16 (iphdr + IPH_VHLTOS));
  let hl := IPH_HL v in
  short ← (if p_tot_len b <? hl * 4 + UDP_HLEN then mret 1 else on_pbufs (pbuf_header p (- (hl * 4))));
  if negb (short =? 0) then udp_drop p [c_lenerr; c_drop]
  else
    b ← on_pbufs (get_pbuf p);
    let udphdr := p_payload b in
    dest_ip ← gets current_iphdr_dest;
    src_ip ← gets current_iphdr_src;
    src ← on_pbufs (load16 (udphdr + UDPH_SRC));
    dest ← on_pbufs (load16 (udphdr + UDPH_DEST));
    let d := Dgram src_ip (lwip_htons src) dest_ip (lwip_htons dest) (ip_addr_isbroadcast dest_ip inp) in
    pcb ← find_pcb d inp;
    if negb (pcb =? 0) || (ni_ip_addr inp =? dest_ip) then
      chk ← on_pbufs (load16 (udphdr + UDPH_CHKSUM));
      bad ← (if negb (chk =? 0) then
               c ← on_pbufs (inet_chksum_pseudo p src_ip dest_ip IP_PROTO_UDP (p_tot_len b));
               mret (negb (c =? 0))
             else mret false);
      if bad : bool then udp_drop p [c_chkerr; c_drop]
      else
        failed ← on_pbufs (pbuf_header p (- UDP_HLEN));
        if negb (failed =? 0) then
          LWIP_ASSERT false;;
          udp_drop p [c_drop]
        else udp_deliver p pcb iphdr hl (lwip_htons src) d
    else
      on_pbufs (pbuf_free p);;
      mret tt.

(** ** Binding *)

(** Whether [pcb] is on the list, or nothing when another control block has the
    address and port. *)
Fixpoint bind_check (m : gmap Z udp_pcb) (pcb ipaddr port : Z) (rebind : bool) (l : list Z) : outcome (option bool) :=
  match l with
  | [] => Ok (Some rebind)
  | q :: l =>
     if q =? pcb then if rebind then Spin else bind_check m pcb ipaddr port true l
     else match m !! q with
     | None => Fault
     | Some b =>
        if (up_local_port b =? port) && (ip_addr_isany (up_local_ip b) || ip_addr_isany ipaddr || (up_local_ip b =? ipaddr))
        then Ok None else bind_check m pcb ipaddr port rebind l
     end
  end.

(** The search of the range for a port; the scan starts again at a port in use.
    0 for none. *)
Fixpoint port_scan (m : gmap Z udp_pcb) (port : Z) (l : list Z) : outcome bool :=
  match l with
  | [] => Ok true
  | q :: l =>
     match m !! q with
     | None => Fault
     | Some b => if up_local_port b =? port then Ok false else port_scan m port l
     end
  end.
Fixpoint port_search (fuel : nat) (m : gmap Z udp_pcb) (port : Z) (l : list Z) : outcome Z :=
  match fuel with
  | O => Spin
  | S fuel =>
     if (port =? UDP_LOCAL_PORT_RANGE_END) && negb (bool_decide (l = [])) then Ok 0
     else match port_scan m port l with
     | Ok true => Ok port
     | Ok false => port_search fuel m (u16 (port + 1)) l
     | Spin => Spin
     | Fault => Fault
     end
  end.

(** A port from the range if none is given, and the list. *)
Definition bind_port (pcb ipaddr port : Z) (rebind : bool) : SM Z := λ s,
  match (if port =? 0 then port_search (Z.to_nat 0x4000) (sk_pcbs s) UDP_LOCAL_PORT_RANGE_START (udp_pcbs s) else Ok port) with
  | Ok port =>
     (if port =? 0 then mret ERR_USE
      else
        set_pcb pcb (with_local ipaddr port);;
        (if rebind then mret tt else modify (λ s, with_udp (pcb :: udp_pcbs s) (sk_pcbs s) s));;
        mret ERR_OK) s
  | Spin => Spin
  | Fault => Fault
  end.
Definition udp_bind (pcb ipaddr port : Z) : SM Z := λ s,
  match bind_check (sk_pcbs s) pcb ipaddr port false (udp_pcbs s) with
  | Ok None => Ok (ERR_USE, s)
  | Ok (Some rebind) =>
     (b ← get_pcb pcb;
      set_pcb pcb (with_local ipaddr (up_local_port b));;
      bind_port pcb ipaddr port rebind) s
  | Spin => Spin
  | Fault => Fault
  end.

Definition udp_connect (pcb ipaddr port : Z) : SM Z :=
  b ← get_pcb pcb;
  err ← (if up_local_port b =? 0 then udp_bind pcb (up_local_ip b) (up_local_port b) else mret ERR_OK);
  if negb (err =? ERR_OK) then mret err
  else
    set_pcb pcb (λ b, with_remote ipaddr port (Z.lor (up_flags b) UDP_FLAGS_CONNECTED) b);;
    l ← gets udp_pcbs;
    (if bool_decide (pcb ∈ l) then mret tt else modify (λ s, with_udp (pcb :: udp_pcbs s) (sk_pcbs s) s));;
    mret ERR_OK.
Definition udp_disconnect (pcb : Z) : SM unit :=
  set_pcb pcb (λ b, with_remote IPADDR_ANY 0 (Z.land (up_flags b) (unot 8 UDP_FLAGS_CONNECTED)) b).
Definition udp_recv (pcb f arg : Z) : SM unit := set_pcb pcb (with_recv f arg).

(** The first element, or those behind it. *)
Definition unlink_pcb (pcb : Z) (l : list Z) : list Z :=
  match l with
  | [] => []
  | q :: l => if q =? pcb then l else q :: filter (λ x, x ≠ pcb) l
  end.
Definition udp_remove (pcb : Z) : SM unit :=
  get_pcb pcb;;
  modify (λ s, with_udp (unlink_pcb pcb (udp_pcbs s)) (delete pcb (sk_pcbs s)) s);;
  on_alloc (ba_memp_free MEMP_UDP_PCB pcb).
Definition udp_new : SM Z :=
  pcb ← on_alloc (ba_memp_malloc MEMP_UDP_PCB);
  (if negb (pcb =? 0) then
     modify (λ s, with_udp (udp_pcbs s) (<[pcb := UdpPcb 0 0 0 0 UDP_TTL 0 0 0 0 0]> (sk_pcbs s)) s)
   else mret tt);;
  mret pcb.

(** ** Output *)

(** The header, with its checksum; [chksum] is the one of the data, if given. *)
Definition udp_write_header (q src_ip dst_ip : Z) (b : udp_pcb) (chksum : option Z) : SM unit :=
  bq ← on_pbufs (get_pbuf q);
  let udphdr := p_payload bq in
  on_pbufs (store16 (udphdr + UDPH_LEN) (lwip_htons (p_tot_len bq)));;
  if Z.land (up_flags b) UDP_FLAGS_NOCHKSUM =? 0 then
    c ← (match chksum with
         | Some chksum =>
            c ← on_pbufs (inet_chksum_pseudo_partial q src_ip dst_ip IP_PROTO_UDP (p_tot_len bq) UDP_HLEN);
            mret (u16 (FOLD_U32T (u32 (c + u16 (unot 16 chksum)))))
         | None => on_pbufs (inet_chksum_pseudo q src_ip dst_ip IP_PROTO_UDP (p_tot_len bq))
         end);
    on_pbufs (store16 (udphdr + UDPH_CHKSUM) (if c =? 0 then 0xffff else c))
  else mret tt.

Definition udp_sendto_if_chksum (pcb p dst_ip dst_port : Z) (n : netif) (chksum : option Z) : SM Z :=
  b ← get_pcb pcb;
  if (Z.land (up_so_options b) SOF_BROADCAST =? 0) && ip_addr_isbroadcast dst_ip n then mret ERR_VAL
  else
    err ← (if up_local_port b =? 0 then udp_bind pcb (up_local_ip b) (up_local_port b) else mret ERR_OK);
    if negb (err =? ERR_OK) then mret err
    else
      failed ← on_pbufs (pbuf_header p UDP_HLEN);
      q ← (if negb (failed =? 0) then
             q ← on_pbufs (pbuf_alloc PBUF_IP UDP_HLEN PBUF_RAM);
             if q =? 0 then mret 0
             else
               bp ← on_pbufs (get_pbuf p);
               (if negb (p_tot_len bp =? 0) then on_pbufs (pbuf_chain q p) else mret tt);;
               mret q
           else mret p);
      if q =? 0 then mret ERR_MEM
      else
        bq ← on_pbufs (get_pbuf q);
        LWIP_ASSERT (UDP_HLEN <=? p_len bq);;
        let udphdr := p_payload bq in
        b ← get_pcb pcb;
        on_pbufs (store16 (udphdr + UDPH_SRC) (lwip_htons (up_local_port b)));;
        on_pbufs (store16 (udphdr + UDPH_DEST) (lwip_htons dst_port));;
        on_pbufs (store16 (udphdr + UDPH_CHKSUM) 0);;
        if negb (ip_addr_isany (up_local_ip b)) && negb (up_local_ip b =? ni_ip_addr n) then
          (if negb (q =? p) then on_pbufs (pbuf_free q);; mret tt else mret tt);;
          mret ERR_VAL
        else
          let src_ip := if ip_addr_isany (up_local_ip b) then ni_ip_addr n else up_local_ip b in
          udp_write_header q src_ip dst_ip b chksum;;
          err ← ip_output_if q src_ip (Some dst_ip) (up_ttl b) (up_tos b) IP_PROTO_UDP n;
          (if negb (q =? p) then on_pbufs (pbuf_free q);; mret tt else mret tt);;
          UDP_STATS_INC c_xmit;;
          mret err.

Definition udp_sendto_chksum (pcb p dst_ip dst_port : Z) (chksum : option Z) : SM Z :=
  n ← ip_route dst_ip;
  match n with
  | None => UDP_STATS_INC c_rterr;; mret ERR_RTE
  | Some n => udp_sendto_if_chksum pcb p dst_ip dst_port n chksum
  end.
Definition udp_sendto (pcb p dst_ip dst_port : Z) : SM Z := udp_sendto_chksum pcb p dst_ip dst_port None.
Definition udp_sendto_if (pcb p dst_ip dst_port : Z) (n : netif) : SM Z := udp_sendto_if_chksum pcb p dst_ip dst_port n None.
Definition udp_send (pcb p : Z) : SM Z :=
  b ← get_pcb pcb;
  udp_sendto pcb p (up_remote_ip b) (up_remote_port b).
Definition udp_send_chksum (pcb p : Z) (chksum : option Z) : SM Z :=
  b ← get_pcb pcb;
  udp_sendto_chksum pcb p (up_remote_ip b) (up_remote_port b) chksum.
End Udp.
