(* ===== verification/IpInput.v ===== *)
(** * Input of IP packets ([ip_input] of [src/lwip/core/ipv4/ip.c]) *)

From S2P Require Import Prelude LwipBase IpAddr InetChksum Heap Memp Pbuf PbufChain PbufLinks PbufData PbufAlloc PbufRefs PbufChksum Netif LwipStack Ip Icmp Udp.
From Stdlib Require Import ZArith Lia.
From stdpp Require Import base numbers gmultiset list gmap.
Open Scope Z_scope.

#[export] Instance netif_eq : EqDecision netif.
Proof. solve_decision. Defined.

(** An interface takes packets for its address and for its broadcasts. *)
Definition accepts (dest : Z) (n : netif) : bool :=
  netif_is_up n && negb (ip_addr_isany (ni_ip_addr n)) && ((dest =? ni_ip_addr n) || ip_addr_isbroadcast dest n).
(** The interface of the packet first, then the others. *)
Fixpoint accept_loop (dest : Z) (inp : netif) (l : list netif) : option netif :=
  match l with
  | [] => None
  | n :: l =>
     if bool_decide (n = inp) then accept_loop dest inp l
     else if accepts dest n then Some n else accept_loop dest inp l
  end.
Definition accepting (dest : Z) (inp : netif) (l : list netif) : option netif :=
  if accepts dest inp then Some inp else accept_loop dest inp l.

Section IpInput.
Context {A B U : Type} {BA : BufAlloc A} {LW : Lower A B} {UP : Upper B U}.
Abbreviation SM := (M (stack B U)).

Definition ip_drop (p : Z) (why : list counter) : SM Z :=
  on_pbufs (pbuf_free p);;
  (fix incs l := match l with [] => mret tt | c :: l => IP_STATS_INC c;; incs l end) why;;
  mret ERR_OK.

(** The protocols above. *)
Definition ip_dispatch (p iphdr dest : Z) (inp : netif) : SM unit :=
  proto ← on_pbufs (load8 (iphdr + IPH_PROTO));
  if proto =? IP_PROTO_UDP then udp_input p inp
  else if proto =? IP_PROTO_TCP then tcp_input p inp
  else if proto =? IP_PROTO_ICMP then icmp_input p inp
  else
    (if negb (ip_addr_isbroadcast dest inp) && negb (ip_addr_ismulticast dest) then
       on_pbufs (set_pbuf p (with_payload iphdr));;
       icmp_dest_unreach p ICMP_DUR_PROTO
     else mret tt);;
    ip_drop p [c_proterr; c_drop];;
    mret tt.

Definition ip_deliver (p iphdr : Z) (inp : netif) : SM Z :=
  modify (with_current (Some inp) iphdr);;
  eaten ← raw_input p inp;
  (if eaten =? 0 then
     dest ← gets current_iphdr_dest;
     ip_dispatch p iphdr dest inp
   else mret tt);;
  modify (with_current None 0);;
  modify (with_addresses IPADDR_ANY IPADDR_ANY);;
  mret ERR_OK.

(** Whether the packet is for this host, and whether its source is checked:
    packets for the client of DHCP are let through. *)
Definition ip_for_us (iphdr hlen dest : Z) (inp : netif) : SM (bool * bool) :=
  l ← gets netif_list;
  match accepting dest inp l with
  | Some _ => mret (true, true)
  | None =>
     proto ← on_pbufs (load8 (iphdr + IPH_PROTO));
     if proto =? IP_PROTO_UDP then
       port ← on_pbufs (load16 (iphdr + hlen + UDPH_DEST));
       mret (if port =? PP_HTONS DHCP_CLIENT_PORT then (true, false) else (false, true))
     else mret (false, true)
  end.

Definition ip_input (p : Z) (inp : netif) : SM Z :=
  IP_STATS_INC c_recv;;
  b ← on_pbufs (get_pbuf p);
  let iphdr := p_payload b in
  v ← on_pbufs (load16 (iphdr + IPH_VHLTOS));
  if negb (IPH_V v =? 4) then ip_drop p [c_err; c_drop]
  else
    let hlen := IPH_HL v * 4 in
    len ← on_pbufs (load16 (iphdr + IPH_LEN));
    let iphdr_len := lwip_htons len in
    if (p_len b <? hlen) || (p_tot_len b <? iphdr_len) then ip_drop p [c_lenerr; c_drop]
    else
      l ← on_pbufs (load_octets iphdr hlen);
      if negb (inet_chksum l =? 0) then ip_drop p [c_chkerr; c_drop]
      else
        on_pbufs (pbuf_realloc p iphdr_len);;
        dest ← on_pbufs (load32 (iphdr + IPH_DEST));
        src ← on_pbufs (load32 (iphdr + IPH_SRC));
        modify (with_addresses src dest);;
        ours ← ip_for_us iphdr hlen dest inp;
        if (ours.2 : bool) && negb (ip_addr_isany src) && (ip_addr_isbroadcast src inp || ip_addr_ismulticast src)
        then ip_drop p [c_drop]
        else if negb (ours.1 : bool) then ip_drop p []
        else
          off ← on_pbufs (load16 (iphdr + IPH_OFFSET));
          if negb (Z.land off (PP_HTONS (Z.lor IP_OFFMASK IP_MF)) =? 0) then
            p ← ip_reass p;
            if p =? 0 then mret ERR_OK
            else
              b ← on_pbufs (get_pbuf p);
              ip_deliver p (p_payload b) inp
          else ip_deliver p iphdr inp.
End IpInput.
