(* ===== verification/StackRuns.v ===== *)
(** * Running the stack

    What the layer below promises, and the steps the proofs of IP, ICMP and
    UDP are made of: reading and writing octets, moving the payload, giving
    packets up.  At the end, address resolution as that layer. *)

From S2P Require Import Prelude LwipBase IpAddr InetChksum Heap Memp Pbuf PbufChain PbufLinks PbufData PbufMake PbufAlloc PbufClaims PbufRefs PbufChksum Netif EthArp EthArpTable EthArpSend EthArpOps EthArpQuery EthArpInput EthArpClaims LwipStack.
From Stdlib Require Import ZArith Lia.
From stdpp Require Import base numbers gmultiset list gmap.
Open Scope Z_scope.

(** ** The promise of the layer below

    [H] are the references of this and the higher layers, [lw_holds] those of
    the layers below, such as queued packets, and [lw_sent] is the history of
    the packets given to [netif_output], with their destinations. *)
Class LowerLaws (A B : Type) {BA : BufAlloc A} {LA : BufAllocLaws A} {LW : Lower A B} := {
  lw_get b s : lw_bufs (lw_with_bufs b s) = b;
  lw_set s : lw_with_bufs (lw_bufs s) s = s;
  lw_set_set b b' s : lw_with_bufs b (lw_with_bufs b' s) = lw_with_bufs b s;
  lw_holds : B → gmultiset Z;
  lw_holds_set b s : lw_holds (lw_with_bufs b s) = lw_holds s;
  lw_sent : B → list (Z * list Z);
  lw_sent_set b s : lw_sent (lw_with_bufs b s) = lw_sent s;
  lw_ok : netif → gmap Z place → gmultiset Z → B → Prop;
  lw_held ni R H s : lw_ok ni R H s → held_ok (lw_bufs s) R (H ⊎ lw_holds s);
  lw_step ni R R' H H' s b :
    lw_ok ni R H s → held_ok b R' (H' ⊎ lw_holds s) →
    kept_packets (lw_holds s) (pb_store (lw_bufs s)) (pb_store b) → lw_ok ni R' H' (lw_with_bufs b s);
  netif_output_law ni R H s q b l dest :
    lw_ok ni R ({[+ q +]} ⊎ H) s → packet (pb_store (lw_bufs s)) q ((q, b) :: l) → p_ref b = 1 →
    own_octets ((q, b) :: l) → nonempty ((q, b) :: l) → total_len ((q, b) :: l) ≤ 64000 →
    runs (netif_output ni q dest) s (λ r s', lw_ok ni R ({[+ q +]} ⊎ H) s' ∧
      lw_sent s' = lw_sent s ++ [(dest, contents (pb_data (lw_bufs s)) ((q, b) :: l))] ∧
      kept_packets H (pb_store (lw_bufs s)) (pb_store (lw_bufs s'))) }.

Section Runs.
Context {A B U : Type} {BA : BufAlloc A} {LA : BufAllocLaws A} {LW : Lower A B} {LL : LowerLaws A B}.
Implicit Types (s : stack B U).

Definition pbs s : pbufs_state A := lw_bufs (sk_low s).
Definition with_pbs (b : pbufs_state A) s : stack B U := with_low (lw_with_bufs b (sk_low s)) s.

Lemma pbs_with b s : pbs (with_pbs b s) = b.
Proof. apply lw_get. Qed.
Lemma with_pbs_same s : with_pbs (pbs s) s = s.
Proof. unfold with_pbs, pbs. rewrite lw_set. by destruct s. Qed.
Lemma with_pbs_with b b' s : with_pbs b (with_pbs b' s) = with_pbs b s.
Proof. unfold with_pbs. cbn. by rewrite lw_set_set. Qed.

Definition sk_ok ni R (H : gmultiset Z) s : Prop := lw_ok ni R H (sk_low s).

Lemma sk_step ni R R' H H' s b :
  sk_ok ni R H s → held_ok b R' (H' ⊎ lw_holds (sk_low s)) →
  kept_packets (lw_holds (sk_low s)) (pb_store (pbs s)) (pb_store b) → sk_ok ni R' H' (with_pbs b s).
Proof. apply lw_step. Qed.

Lemma on_pbufs_runs {X} (m : M (pbufs_state A) X) s x b (Q : X → stack B U → Prop) :
  m (pbs s) = Ok (x, b) → Q x (with_pbs b s) → runs (on_pbufs m) s Q.
Proof. intros E HQ. unfold runs, on_pbufs, on_low, lift. unfold pbs in E. by rewrite E. Qed.
Lemma on_pbufs_keep {X} (m : M (pbufs_state A) X) s x (Q : X → stack B U → Prop) :
  m (pbs s) = Ok (x, pbs s) → Q x s → runs (on_pbufs m) s Q.
Proof. intros E HQ. eapply on_pbufs_runs; [exact E|]. by rewrite with_pbs_same. Qed.
Lemma on_low_runs {X} (m : M B X) s (Q : X → stack B U → Prop) :
  runs m (sk_low s) (λ x b, Q x (with_low b s)) → runs (on_low m) s Q.
Proof. unfold runs, on_low, lift. by destruct (m (sk_low s)) as [[x b]| |]. Qed.

Lemma sk_get_pbuf_runs p b s (Q : pbuf → stack B U → Prop) :
  pb_store (pbs s) !! p = Some b → Q b s → runs (on_pbufs (get_pbuf p)) s Q.
Proof. intros Hb. apply on_pbufs_keep. unfold get_pbuf. by rewrite Hb. Qed.
Lemma sk_assert_runs {X} b (k : unit → M (stack B U) X) s Q : b = true → runs (k tt) s Q → runs (LWIP_ASSERT b ≫= k) s Q.
Proof. intros ->. done. Qed.
Lemma sk_assert_ok b s (Q : unit → stack B U → Prop) : b = true → Q tt s → runs (LWIP_ASSERT b) s Q.
Proof. intros ->. done. Qed.
Lemma sk_ret_runs {X} (x : X) s (Q : X → stack B U → Prop) : Q x s → runs (mret x) s Q.
Proof. done. Qed.
Lemma gets_runs {X} (f : stack B U → X) s (Q : X → stack B U → Prop) : Q (f s) s → runs (gets f) s Q.
Proof. done. Qed.
Lemma modify_runs (f : stack B U → stack B U) s (Q : unit → stack B U → Prop) : Q tt (f s) → runs (modify f) s Q.
Proof. done. Qed.

(** [m] goes on as [m'], from a state with [P]. *)
Definition leads {X} (m : M (stack B U) X) s (m' : M (stack B U) X) (P : stack B U → Prop) : Prop := ∃ s1, m s = m' s1 ∧ P s1.
Lemma leads_refl {X} (m : M (stack B U) X) s (P : stack B U → Prop) : P s → leads m s m P.
Proof. intros HP. by exists s. Qed.
Lemma leads_bind {X Y} (m : M (stack B U) X) (k : X → M (stack B U) Y) s m' P :
  runs m s (λ x s1, leads (k x) s1 m' P) → leads (m ≫= k) s m' P.
Proof. intros (x & s1 & E & s2 & E2 & HP)%runs_inv. exists s2. by rewrite (bind_ok _ _ _ _ _ E). Qed.
Lemma leads_runs {X} (m m' : M (stack B U) X) s P Q : leads m s m' P → (∀ s1, P s1 → runs m' s1 Q) → runs m s Q.
Proof. intros (s1 & E & HP) HQ. unfold runs. rewrite E. by apply HQ. Qed.

(** *** Octets *)

Definition mem s : memory := pb_data (pbs s).
Definition set_mem (m : memory) s : stack B U := with_pbs (Pbufs (pb_store (pbs s)) m (pb_alloc (pbs s))) s.

Lemma pbs_set_mem m s : pbs (set_mem m s) = Pbufs (pb_store (pbs s)) m (pb_alloc (pbs s)).
Proof. apply pbs_with. Qed.
Lemma mem_set_mem m s : mem (set_mem m s) = m.
Proof. unfold mem. by rewrite pbs_set_mem. Qed.
Lemma store_set_mem m s : pb_store (pbs (set_mem m s)) = pb_store (pbs s).
Proof. by rewrite pbs_set_mem. Qed.
Lemma set_mem_same s : set_mem (mem s) s = s.
Proof. unfold set_mem, mem. rewrite <-(with_pbs_same s) at 5. by destruct (pbs s). Qed.
Lemma set_mem_set_mem m m' s : set_mem m (set_mem m' s) = set_mem m s.
Proof. unfold set_mem at 1. rewrite pbs_set_mem. unfold set_mem. by rewrite with_pbs_with. Qed.
Lemma set_mem_ip_id m x s : with_ip_id x (set_mem m s) = set_mem m (with_ip_id x s).
Proof. done. Qed.
Lemma ip_id_set_mem m s : ip_id (set_mem m s) = ip_id s.
Proof. done. Qed.

Lemma sk_store_runs a l m s (Q : unit → stack B U → Prop) :
  Q tt (set_mem (mem_write m a l) s) → runs (on_pbufs (store_octets a l)) (set_mem m s) Q.
Proof.
  intros HQ. eapply on_pbufs_runs; [done|]. fold (mem (set_mem m s)). rewrite mem_set_mem.
  by fold (set_mem (mem_write m a l) (set_mem m s)); rewrite set_mem_set_mem.
Qed.
Lemma sk_load16_runs a s (Q : Z → stack B U → Prop) : Q (le_word (mem_read (mem s) a 2)) s → runs (on_pbufs (load16 a)) s Q.
Proof. by apply on_pbufs_keep. Qed.
Lemma sk_load8_runs a s (Q : Z → stack B U → Prop) : Q (le_word (mem_read (mem s) a 1)) s → runs (on_pbufs (load8 a)) s Q.
Proof. by apply on_pbufs_keep. Qed.
Lemma sk_load32_runs a s (Q : Z → stack B U → Prop) : Q (le_word (mem_read (mem s) a 4)) s → runs (on_pbufs (load32 a)) s Q.
Proof. by apply on_pbufs_keep. Qed.
Lemma sk_load_runs a n s (Q : list Z → stack B U → Prop) :
  Q (mem_read (mem s) a (Z.to_nat n)) s → runs (on_pbufs (load_octets a n)) s Q.
Proof. by apply on_pbufs_keep. Qed.

Lemma sk_ok_mem ni R H s m : sk_ok ni R H s → sk_ok ni R H (set_mem m s).
Proof.
  intros Hs. eapply sk_step; [exact Hs| |reflexivity]. destruct (lw_held _ _ _ _ Hs) as [(L & [Hl Hb] & HR) Hct].
  split; [exists L; by split|done].
Qed.

(** *** Packets *)

(** Writing into the first buffer of a packet that nobody else refers to. *)
Lemma rewritten_kept (b : pbufs_state A) R K q c l m :
  held_ok b R ({[+ q +]} ⊎ K) → packet (pb_store b) q ((q, c) :: l) → p_ref c = 1 → owns c →
  changes (pb_data b) m (p_payload c) (p_payload c + p_len c) → kept_octets K b (Pbufs (pb_store b) m (pb_alloc b)).
Proof.
  intros [(L & Hok & _) Hct] Hpk Hr Ho Hch h k Hh Hk Hok'. pose proof (pk_chain _ _ _ Hpk) as (_ & _ & Hc & _).
  eapply contents_changes; [exact Hch|]. eapply owns_clear; [exact Hok|exact Hc|done|exact Hk|done|].
  assert (h ≠ q) by (intros ->; by apply (sole_held (pb_store b) {[+ q +]} K q c); [|held_in|..]).
  eapply (sole_chain _ _ q c h); [exact Hct|held_in|done..].
Qed.
Lemma rewritten_clear (b : pbufs_state A) R K q c l :
  held_ok b R K → packet (pb_store b) q ((q, c) :: l) → own_octets ((q, c) :: l) →
  clear_of (p_payload c) (p_payload c + p_len c) l.
Proof.
  intros [(L & Hok & _) _] Hpk Ho. pose proof (pk_chain _ _ _ Hpk) as (_ & _ & Hc & Hcl). apply Forall_cons in Ho as [Ho Hol].
  pose proof (chain_nodup _ _ _ (pk_chain _ _ _ Hpk)) as Hnd. cbn in Hnd. apply NoDup_cons in Hnd as [Hql _].
  eapply owns_clear; [exact Hok|exact Hc|exact Ho|exact Hcl|done|done].
Qed.

(** A header of [n] octets in front of the payload. *)
Lemma fronted (b1 : pbufs_state A) R K p b l (n : nat) m y :
  let c := moved (Z.of_nat n) b in
  held_ok b1 R ({[+ p +]} ⊎ K) → packet (pb_store b1) p ((p, c) :: l) → own_octets ((p, c) :: l) → p_ref b = 1 → 0 ≤ p_len b →
  changes (pb_data b1) m (p_payload c) (p_payload c + Z.of_nat n) → mem_read m (p_payload c) n = y →
  contents m ((p, c) :: l) = y ++ contents (pb_data b1) ((p, b) :: l) ∧
  kept_octets K b1 (Pbufs (pb_store b1) m (pb_alloc b1)).
Proof.
  intros c Hh Hpk Ho Hr Hb0 Hch Hm. assert (p_len c = p_len b + Z.of_nat n) as Elen by done.
  assert (p_payload c + Z.of_nat n = p_payload b) as Epl by (cbn; lia). split.
  - assert (clear_of (p_payload c) (p_payload c + Z.of_nat n) l) as Hcl.
    { eapply clear_of_sub, (rewritten_clear _ _ _ _ _ _ Hh Hpk Ho); lia. }
    rewrite (rewritten_contents n _ _ _ _ _ y Hch ltac:(lia) Hcl Hm). f_equal.
    cbn [contents]. unfold cell_data. cbn [snd]. rewrite Elen, Z2Nat.inj_add, Nat2Z.id, Nat.add_comm, mem_read_app by lia.
    rewrite <-app_assoc, drop_app_length' by (by rewrite length_mem_read). by rewrite Epl.
  - eapply rewritten_kept; [exact Hh|exact Hpk|done|by apply Forall_cons in Ho as [? _]|].
    intros x Hx. apply Hch. lia.
Qed.

Lemma sk_move_runs ni R H s q b l inc (Q : Z → stack B U → Prop) :
  sk_ok ni R ({[+ q +]} ⊎ H) s → packet (pb_store (pbs s)) q ((q, b) :: l) → p_ref b = 1 →
  - 2 ^ 15 ≤ inc < 2 ^ 15 → - inc ≤ p_len b → total_len ((q, b) :: l) + inc < 2 ^ 16 →
  (¬ has_room inc q b → Q 1 s) →
  (∀ b1, let s1 := with_pbs b1 s in
     pb_data b1 = pb_data (pbs s) → sk_ok ni R ({[+ q +]} ⊎ H) s1 → packet (pb_store b1) q ((q, moved inc b) :: l) →
     kept_packets H (pb_store (pbs s)) (pb_store b1) → has_room inc q b → Q 0 s1) →
  runs (on_pbufs (pbuf_header q inc)) s Q.
Proof.
  intros Hs Hpk Hr Hi Hlen Hfit Hno Hyes. pose proof (lw_held _ _ _ _ Hs) as Hh. rewrite <-!gmultiset_disj_union_assoc in Hh.
  pose proof (pbuf_header_held (pbs s) R _ q b l inc Hh Hpk Hr Hi Hlen Hfit) as Hres.
  destruct (decide (has_room inc q b)) as [Hroom|Hroom].
  2:{ eapply on_pbufs_keep; [exact Hres|]. by apply Hno. }
  destruct Hres as (E & Hh1 & Hpk1 & Hk). rewrite gmultiset_disj_union_assoc in Hh1. eapply on_pbufs_runs; [exact E|].
  apply Hyes; [done| |done|eapply kept_subset, Hk; held_in|done].
  eapply sk_step; [exact Hs|done|eapply kept_subset, Hk; held_in].
Qed.

Lemma sk_free_runs ni R H s p (Q : Z → stack B U → Prop) :
  sk_ok ni R ({[+ p +]} ⊎ H) s →
  (∀ x b, sk_ok ni R H (with_pbs b s) → pb_data b = pb_data (pbs s) →
     kept_packets H (pb_store (pbs s)) (pb_store b) →
     (∀ h l, h ∈ H → chain (pb_store (pbs s)) h l → exclusive l → chain (pb_store b) h l) → Q x (with_pbs b s)) →
  runs (on_pbufs (pbuf_free p)) s Q.
Proof.
  intros Hs HQ. pose proof (lw_held _ _ _ _ Hs) as Hh0. rewrite <-!gmultiset_disj_union_assoc in Hh0.
  destruct (pbuf_free_held _ _ _ _ Hh0) as (x & b & E & Hb & Ed & Hsv & Hk).
  eapply on_pbufs_runs; [exact E|]. apply HQ; [|done|eapply kept_subset, Hk; held_in|].
  - eapply sk_step; [exact Hs|exact Hb|eapply kept_subset, Hk; held_in].
  - intros h l Hh Hl Hx. eapply (survives_same _ _ _ _ h l Hsv (ho_refs _ _ _ Hh0) (ho_refs _ _ _ Hb)); [|held_in|done|done].
    intros a. rewrite (multiplicity_disj_union {[+ p +]}). lia.
Qed.

Lemma sk_output_runs ni R H s q b l dest (Q : Z → stack B U → Prop) :
  sk_ok ni R ({[+ q +]} ⊎ H) s → packet (pb_store (pbs s)) q ((q, b) :: l) → p_ref b = 1 →
  own_octets ((q, b) :: l) → nonempty ((q, b) :: l) → total_len ((q, b) :: l) ≤ 64000 →
  (∀ r b', sk_ok ni R ({[+ q +]} ⊎ H) (with_low b' s) →
     lw_sent b' = lw_sent (sk_low s) ++ [(dest, contents (mem s) ((q, b) :: l))] →
     kept_packets H (pb_store (pbs s)) (pb_store (lw_bufs b')) → Q r (with_low b' s)) →
  runs (on_low (netif_output ni q dest)) s Q.
Proof.
  intros Hs Hpk Hr Ho Hne Hfit HQ. apply on_low_runs.
  eapply runs_mono, (netif_output_law ni R H (sk_low s) q b l dest Hs Hpk Hr Ho Hne Hfit).
  intros r b' (Hb & Hsent & Hk). by apply HQ.
Qed.

(** A new packet of one buffer. *)
Lemma sk_alloc_runs ni R H s layer len (Q : Z → stack B U → Prop) :
  sk_ok ni R H s → is_u16 len →
  LWIP_MEM_ALIGN_SIZE (SIZEOF_STRUCT_PBUF + header_offset layer) + LWIP_MEM_ALIGN_SIZE len ≤ 65532 →
  (∀ b1, sk_ok ni R H (with_pbs b1 s) → pb_data b1 = mem s → kept_packets H (pb_store (pbs s)) (pb_store b1) → Q 0 (with_pbs b1 s)) →
  (∀ q c b1, q ≠ 0 → sk_ok ni R ({[+ q +]} ⊎ H) (with_pbs b1 s) → pb_data b1 = mem s → packet (pb_store b1) q [(q, c)] →
     p_ref c = 1 → p_type c = PBUF_RAM → p_len c = len → q + SIZEOF_STRUCT_PBUF + header_offset layer ≤ p_payload c →
     kept_packets H (pb_store (pbs s)) (pb_store b1) → pb_store (pbs s) !! q = None → Q q (with_pbs b1 s)) →
  runs (on_pbufs (pbuf_alloc layer len PBUF_RAM)) s Q.
Proof.
  intros Hs Hlen Hfit Hno Hyes. pose proof (lw_held _ _ _ _ Hs) as Hh.
  destruct (pbuf_alloc_held _ _ _ layer len PBUF_RAM Hh Hlen ltac:(done)) as (q & b1 & E & Hh1 & Ed & Hk & Hnew).
  eapply on_pbufs_runs; [exact E|]. assert (kept_packets H (pb_store (pbs s)) (pb_store b1)) as HkH by (eapply kept_subset, Hk; held_in).
  destruct (decide (q = 0)) as [->|Hq].
  { rewrite hold_0 in Hh1. apply Hno; [|done..]. eapply sk_step; [exact Hs|exact Hh1|eapply kept_subset, Hk; held_in]. }
  rewrite hold_ne, gmultiset_disj_union_assoc in Hh1 by done.
  destruct (Hnew Hq) as (L & L' & c & l & _ & Hex & Hpk & Ht & Hnc & Hone & Hroom). rewrite Hone in * by done.
  apply Forall_singleton in Hnc as (Hr & _ & Hty). cbn [snd] in Hr, Hty. change (total_len [(q, c)]) with (p_len c + 0) in Ht.
  eapply (Hyes q c); try done; [|lia|apply Hroom; by left|].
  - eapply sk_step; [exact Hs|exact Hh1|eapply kept_subset, Hk; held_in].
  - apply (ex_fresh _ _ _ _ _ Hex). by left.
Qed.

(** *** Histories *)

Definition sent s : list (Z * list Z) := lw_sent (sk_low s).
Lemma sent_pbs b s : sent (with_pbs b s) = sent s.
Proof. apply lw_sent_set. Qed.
Lemma sent_mem m s : sent (set_mem m s) = sent s.
Proof. apply sent_pbs. Qed.

(** Nothing but the layer below, the statistics and the identification changed. *)
Definition same_stack s s' : Prop := ∃ b f i, s' = with_low b (with_stats f (with_ip_id i s)).
#[export] Instance same_stack_refl : Reflexive same_stack.
Proof. intros s. exists (sk_low s), (lwip_stats s), (ip_id s). by destruct s. Qed.
#[export] Instance same_stack_trans : Transitive same_stack.
Proof. intros s1 s2 s3 (b & f & i & ->) (b' & f' & i' & ->). by exists b', f', i'. Qed.
Lemma same_stack_low b s : same_stack s (with_low b s).
Proof. exists b, (lwip_stats s), (ip_id s). done. Qed.
Lemma same_stack_pbs b s : same_stack s (with_pbs b s).
Proof. apply same_stack_low. Qed.
Lemma same_stack_tick p c s : same_stack s (tick p c s).
Proof. by eexists (sk_low s), _, (ip_id s). Qed.
Lemma same_stack_ip_id i s : same_stack s (with_ip_id i s).
Proof. exists (sk_low s), (lwip_stats s), i. done. Qed.
End Runs.
#[export] Hint Resolve same_stack_low same_stack_pbs same_stack_tick same_stack_ip_id : core.

(** ** The stack on an Ethernet

    [etharp_output] as the [netif->output] of the stack: address resolution
    keeps the promise of the layer below ([LowerLaws]), so that the theorems on
    IP, ICMP and UDP hold of the stack on an Ethernet. *)

(** The state of address resolution, and the packets it was given. *)
Record arp_low (A N : Type) := ArpLow { al_arp : arp_state A N; al_log : list (Z * list Z) }.
Arguments ArpLow {A N} al_arp al_log.
Arguments al_arp {A N} a.
Arguments al_log {A N} a.

Section Lower.
Context {A N : Type} {BA : BufAlloc A} {LA : BufAllocLaws A} {LO : LinkOutput A N} {LL : LinkOutputLaws A N}.
Implicit Types (s : arp_low A N).

Definition packet_octets (b : pbufs_state A) (q : Z) : list Z := gather (size (pb_store b)) (pb_store b) (pb_data b) q.

#[export] Instance arp_lower : Lower A (arp_low A N) := {|
  lw_bufs s := bufs (al_arp s);
  lw_with_bufs b s := ArpLow (with_bufs b (al_arp s)) (al_log s);
  netif_output ni q dest := λ s,
    match etharp_output ni q dest (al_arp s) with
    | Ok (r, a) => Ok (r, ArpLow a (al_log s ++ [(dest, packet_octets (bufs (al_arp s)) q)]))
    | Spin => Spin
    | Fault => Fault
    end |}.

Lemma octets_packet (b : pbufs_state A) q l : packet (pb_store b) q l → packet_octets b q = contents (pb_data b) l.
Proof. intros Hpk. apply gather_contents; [apply Hpk|]. by apply chain_size with q, Hpk. Qed.

Lemma arp_output_law ni R H s q b l dest :
  arp_ok ni R ({[+ q +]} ⊎ H) (al_arp s) → ethernet ni → packet (pb_store (bufs (al_arp s))) q ((q, b) :: l) → p_ref b = 1 →
  own_octets ((q, b) :: l) → nonempty ((q, b) :: l) → total_len ((q, b) :: l) ≤ 64000 →
  runs (netif_output ni q dest) s (λ r s', (arp_ok ni R ({[+ q +]} ⊎ H) (al_arp s') ∧ ethernet ni) ∧
    al_log s' = al_log s ++ [(dest, contents (pb_data (bufs (al_arp s))) ((q, b) :: l))] ∧
    kept_packets H (pb_store (bufs (al_arp s))) (pb_store (bufs (al_arp s')))).
Proof.
  intros [Hb Ht Hc] Hni Hpk Hr Ho Hne Hfit.
  pose proof (output_runs ni R H (al_arp s) dest q b l Hb Ht Hni Hc Hpk Hr Ho Hne Hfit) as (r & a & E & Hb' & Hk & Hc' & Hres)%runs_inv.
  eapply runs_intro; [cbn; by rewrite E|]. cbn [al_arp al_log]. split; [split; [split; [done| |done]|done]|].
  - destruct (decide _); [by eapply routed_table|]. by destruct Hres as [_ ->].
  - by rewrite (octets_packet _ _ _ Hpk).
Qed.

#[export] Instance arp_lower_laws : LowerLaws A (arp_low A N).
Proof.
  refine {| lw_holds s := queued (arp_table (al_arp s)) ⊎ link_holds (rest (al_arp s)); lw_sent s := al_log s;
            lw_ok ni R H s := arp_ok ni R H (al_arp s) ∧ ethernet ni |}.
  - done.
  - by intros [[[]]].
  - done.
  - done.
  - done.
  - intros ni R H s [[[Hh _ _] _ _] _]. by rewrite <-gmultiset_disj_union_assoc in Hh.
  - intros ni R R' H H' s b [[[Hh Hq Hl] Ht Hc] Hni] Hb Hk. split; [|done]. split; [|done|done]. split; [|intros e He Hne|done].
    + by rewrite gmultiset_disj_union_assoc in Hb.
    + destruct (Hq e He Hne) as (l & Hpk & Hsd).
      assert (ae_q e ∈ queued (arp_table (al_arp s)) ⊎ link_holds (rest (al_arp s))) as Hin
        by (rewrite gmultiset_elem_of_disj_union; left; by apply queued_in).
      destruct (packet_kept _ _ _ _ _ Hk Hin Hpk) as (l' & Hpk' & E).
      exists l'. split; [done|]. by apply queueable_bares with l.
  - intros ni R H s q b l dest [Hok Hni] Hpk Hr Ho Hne Hfit. by apply arp_output_law.
Defined.
End Lower.
