(* ===== verification/IpOutput.v ===== *)
(** * IP packets that leave

    The octets [write_header] leaves, and the checksum it computes on the way:
    the header passes the test of [ip_input]; then [ip_output_if]. *)

From S2P Require Import Prelude LwipBase IpAddr InetChksum Heap Memp Pbuf PbufChain PbufLinks PbufData PbufMake PbufAlloc PbufClaims PbufRefs PbufChksum Netif EthArpTable EthArpSend EthArpInput LwipStack Ip StackRuns.
From Stdlib Require Import ZArith Lia.
From stdpp Require Import base numbers gmultiset list gmap.
Open Scope Z_scope.

Definition be_bytes (x : Z) : list Z := [u8 (x / 2 ^ 8); u8 x].

Lemma htons_value x : is_u16 x → lwip_htons x = 2 ^ 8 * (x mod 2 ^ 8) + x / 2 ^ 8.
Proof. intros Hx. by rewrite htons_swap, SWAP_value. Qed.
Lemma htons_u16 x : is_u16 x → is_u16 (lwip_htons x).
Proof. intros Hx. rewrite htons_value by done. cint. Qed.
Lemma htons_bytes x : is_u16 x → le_bytes 2 (lwip_htons x) = be_bytes x.
Proof.
  intros Hx. rewrite htons_value by done. unfold be_bytes. cbn [le_bytes]. f_equal; [cint|]. f_equal. cint.
Qed.
Lemma htons_be x : is_u16 x → lwip_htons (le_word (be_bytes x)) = x.
Proof.
  intros Hx. rewrite <-htons_bytes, le_word_bytes by done. rewrite Z.mod_small by (apply htons_u16; done).
  rewrite htons_value by (by apply htons_u16). rewrite htons_value by done. cint.
Qed.

Definition ip_header (tos len id ttl proto chk src dest : Z) : list Z :=
  [0x45; tos] ++ be_bytes len ++ be_bytes id ++ [0; 0; ttl; proto] ++ le_bytes 2 chk ++ le_bytes 4 src ++ le_bytes 4 dest.

(** ** Sums of words *)

Definition words (ws : list Z) : list Z := flat_map (le_bytes 2) ws.
Definition sum_words (ws : list Z) : Z := foldr Z.add 0 ws.

Lemma words_bytes ws : bytes_ok (words ws).
Proof. induction ws; [constructor|]. apply bytes_ok_app; [apply le_bytes_ok|done]. Qed.
Lemma sum_words_nonneg ws : Forall is_u16 ws → 0 ≤ sum_words ws.
Proof. induction 1 as [|w ws Hw _ IH]; simpl; [lia|]. cint. Qed.

(** The order of the words does not matter for the checksum. *)
Lemma oc_words ws : Forall is_u16 ws → oc (le_word (words ws)) = oc (sum_words ws).
Proof.
  induction 1 as [|w ws Hw Hws IH]; [done|]. change (words (w :: ws)) with (le_bytes 2 w ++ words ws).
  change (sum_words (w :: ws)) with (w + sum_words ws). rewrite (le_word_app (le_bytes 2 w)), le_word_bytes, length_le_bytes.
  change (2 ^ (8 * Z.of_nat 2)) with (2 ^ 16). rewrite (Z.mod_small w) by exact Hw.
  pose proof (sum_words_nonneg _ Hws). pose proof (le_word_nonneg _ (words_bytes ws)).
  rewrite oc_wrap, (Z.add_comm w), <-oc_add_l, IH, oc_add_l, Z.add_comm by cint. done.
Qed.

(** The sum of a header in the order of [write_header], folded and inverted. *)
Definition inline_chksum (sum : Z) : Z :=
  let sum := u32 (Z.shiftr sum 16 + Z.land sum 0xffff) in unot 32 (u32 (Z.shiftr sum 16 + sum)).

Lemma inline_chksum_value sum : 0 ≤ sum < 2 ^ 24 → u16 (inline_chksum sum) = 65535 - oc sum.
Proof.
  intros Hs. unfold inline_chksum. change (Z.land sum 0xffff) with (Z.land sum (Z.ones 16)). rewrite Z.land_ones, !Z.shiftr_div_pow2 by lia.
  set (f := sum / 2 ^ 16 + sum mod 2 ^ 16). assert (0 ≤ f ≤ 65790) as Hf by (unfold f; cint).
  assert (oc f = oc sum) as Ef by (rewrite <-(FOLD_oc sum), FOLD_value by lia; done). clearbody f.
  rewrite (u32_small f) by (unfold is_u32; lia). assert (0 ≤ f / 2 ^ 16 ≤ 1) as Hd by cint.
  rewrite u32_small by (unfold is_u32; lia). rewrite unot_value by (unfold is_u32; lia).
  destruct (Z.lt_ge_cases f 65536).
  - rewrite (Z.div_small f) by lia. rewrite <-Ef, oc_small by (unfold is_u16; lia).
    symmetry. apply (Z.mod_unique_pos _ _ 65535); lia.
  - assert (f / 2 ^ 16 = 1) as -> by cint. rewrite <-Ef. replace (oc f) with (f - 65535).
    + symmetry. apply (Z.mod_unique_pos _ _ 65534); lia.
    + unfold oc. rewrite decide_False by lia. cint.
Qed.

Lemma halves_bytes x : is_u32 x → le_bytes 4 x = le_bytes 2 (x mod 2 ^ 16) ++ le_bytes 2 (x / 2 ^ 16).
Proof.
  intros Hx. cbn [le_bytes app]. f_equal; [cint|]. f_equal; [cint|]. f_equal; [cint|]. f_equal. cint.
Qed.

Section Sum.
Context (tos len id ttl proto src dest : Z).
Context (Htos : is_u8 tos) (Hlen : is_u16 len) (Hid : is_u16 id) (Httl : is_u8 ttl) (Hpr : is_u8 proto)
  (Hsrc : is_u32 src) (Hdest : is_u32 dest).

(** The header as words, in the order of memory. *)
Definition header_words (chk : Z) : list Z :=
  [2 ^ 8 * tos + 0x45; lwip_htons len; lwip_htons id; 0; 2 ^ 8 * proto + ttl; chk; src mod 2 ^ 16; src / 2 ^ 16;
   dest mod 2 ^ 16; dest / 2 ^ 16].

Lemma header_words_octets chk : ip_header tos len id ttl proto chk src dest = words (header_words chk).
Proof.
  unfold ip_header, words, header_words. cbn [flat_map]. rewrite !htons_bytes, !halves_bytes by done.
  rewrite !app_nil_r. cbn [le_bytes app be_bytes]. repeat (apply (f_equal2 cons); [done || cint|]). done.
Qed.
Lemma header_words_u16 chk : is_u16 chk → Forall is_u16 (header_words chk).
Proof.
  intros Hc. unfold header_words. repeat (apply Forall_cons; split; [by cint || by apply htons_u16|]). constructor.
Qed.

Definition inline_sum : Z :=
  (2 ^ 8 * proto + ttl) + dest mod 2 ^ 16 + dest / 2 ^ 16 + (2 ^ 8 * tos + 0x45) + lwip_htons len + lwip_htons id +
  src mod 2 ^ 16 + src / 2 ^ 16.

Lemma inline_sum_bounds : 0 ≤ inline_sum < 2 ^ 24.
Proof. unfold inline_sum. pose proof (htons_u16 _ Hlen). pose proof (htons_u16 _ Hid). cint. Qed.

(** The inline checksum is the one of the header, and the header checks. *)
Lemma header_checks : inet_chksum (ip_header tos len id ttl proto (inline_chksum inline_sum) src dest) = 0.
Proof.
  pose proof inline_sum_bounds as Hb. pose proof (oc_u16 inline_sum) as Ho.
  assert (ip_header tos len id ttl proto (inline_chksum inline_sum) src dest =
    ip_header tos len id ttl proto (u16 (inline_chksum inline_sum)) src dest) as ->.
  { unfold ip_header. do 4 f_equal. f_equal. cbn [le_bytes]. f_equal; [cint|]. f_equal. cint. }
  rewrite inline_chksum_value by done. rewrite header_words_octets.
  assert (is_u16 (65535 - oc inline_sum)) as Hu by cint.
  apply inet_chksum_zero; [apply words_bytes|done|]. rewrite oc_words by by apply header_words_u16.
  replace (sum_words (header_words (65535 - oc inline_sum))) with (inline_sum + (65535 - oc inline_sum))
    by (unfold sum_words, header_words, inline_sum; cbn [foldr]; lia).
  rewrite <-oc_add_l by cint. by replace (oc inline_sum + (65535 - oc inline_sum)) with 65535 by lia.
Qed.
End Sum.

(** ** Output of IP packets: the theorems

    [ip_output_if] puts a header that checks before the packet, and hands it to
    the interface or to the fragmentation. *)

(** ** The header *)

(** The stores of [write_header], in its order. *)
Lemma header_octets x tos len id ttl proto chk src dest :
  length x = 20%nat → is_u8 tos → is_u8 ttl → is_u8 proto → is_u16 len → is_u16 id →
  poke 10 (le_bytes 2 chk) (poke 12 (le_bytes 4 src) (poke 4 (le_bytes 2 (lwip_htons id)) (poke 6 (le_bytes 2 0)
   (poke 2 (le_bytes 2 (lwip_htons len)) (poke 0 (le_bytes 2 (2 ^ 8 * tos + 0x45)) (poke 16 (le_bytes 4 dest)
    (poke 9 (le_bytes 1 proto) (poke 8 (le_bytes 1 ttl) x))))))))
  = ip_header tos len id ttl proto chk src dest.
Proof.
  intros Hx Ht Httl Hp Hl Hi. rewrite !htons_bytes by done.
  replace (le_bytes 2 (2 ^ 8 * tos + 0x45)) with [0x45; tos] by (cbn [le_bytes]; apply (f_equal2 cons); [cint|f_equal; cint]).
  replace (le_bytes 1 ttl) with [ttl] by (cbn [le_bytes]; f_equal; cint).
  replace (le_bytes 1 proto) with [proto] by (cbn [le_bytes]; f_equal; cint).
  unfold ip_header. assert (length (le_bytes 4 src) = 4%nat) as H1 by done. assert (length (le_bytes 4 dest) = 4%nat) as H2 by done.
  assert (length (le_bytes 2 chk) = 2%nat) as H3 by done. assert (length (be_bytes len) = 2%nat) as H4 by done.
  assert (length (be_bytes id) = 2%nat) as H5 by done.
  set (y1 := le_bytes 4 src) in *. set (y2 := le_bytes 4 dest) in *. set (y3 := le_bytes 2 chk) in *.
  set (y4 := be_bytes len) in *. set (y5 := be_bytes id) in *. clearbody y1 y2 y3 y4 y5.
  do 5 (destruct y1 as [|? y1]; try done). do 5 (destruct y2 as [|? y2]; try done).
  do 3 (destruct y3 as [|? y3]; try done). do 3 (destruct y4 as [|? y4]; try done). do 3 (destruct y5 as [|? y5]; try done).
  do 21 (destruct x as [|? x]; try done).
Qed.

Lemma lor_add hi lo : 0 ≤ lo < 2 ^ 8 → Z.lor (Z.shiftl hi 8) lo = 2 ^ 8 * hi + lo.
Proof. intros Hlo. rewrite Z.lor_comm, lor_add_disjoint by lia. lia. Qed.

Lemma v_hl_tos_value tos :
  is_u8 tos → lwip_htons (Z.lor (Z.lor (Z.shiftl 4 12) (Z.shiftl (IP_HLEN / 4) 8)) tos) = 2 ^ 8 * tos + 0x45.
Proof.
  intros Ht. change (Z.lor (Z.shiftl 4 12) (Z.shiftl (IP_HLEN / 4) 8)) with (Z.shiftl 0x45 8).
  rewrite lor_add by exact Ht. rewrite htons_value by cint. cint.
Qed.

(** The sum on the way. *)
Lemma inline_sum_steps tos len id ttl proto src dest :
  is_u8 tos → is_u16 len → is_u16 id → is_u8 ttl → is_u8 proto → is_u32 src → is_u32 dest →
  u32 (u32 (u32 (u32 (u32 (u32 (u32 (u32 (0 + LWIP_MAKE_U16 proto ttl) + Z.land dest 0xffff) + Z.shiftr dest 16) +
    (2 ^ 8 * tos + 0x45)) + lwip_htons len) + lwip_htons id) + Z.land src 0xffff) + Z.shiftr src 16)
  = inline_sum tos len id ttl proto src dest.
Proof.
  intros Ht Hl Hi Htt Hp Hs Hd. unfold LWIP_MAKE_U16. rewrite lor_add by exact Htt. unfold inline_sum.
  change (Z.land dest 0xffff) with (Z.land dest (Z.ones 16)). change (Z.land src 0xffff) with (Z.land src (Z.ones 16)).
  rewrite !Z.land_ones, !Z.shiftr_div_pow2 by lia. pose proof (htons_u16 _ Hl). pose proof (htons_u16 _ Hi).
  assert (is_u16 (dest mod 2 ^ 16) ∧ is_u16 (dest / 2 ^ 16) ∧ is_u16 (src mod 2 ^ 16) ∧ is_u16 (src / 2 ^ 16)) as (? & ? & ? & ?)
    by (repeat split; cint).
  unfold is_u8, is_u16 in *.
  repeat match goal with |- context [u32 ?x] =>
    lazymatch x with context [u32 _] => fail | _ => rewrite (u32_small x) by (unfold is_u32; lia) end end. lia.
Qed.

Section Output.
Context {A B U : Type} {BA : BufAlloc A} {LA : BufAllocLaws A} {LW : Lower A B} {LL : LowerLaws A B} {UP : Upper B U}.
Implicit Types (s : stack B U).

(** The address a packet is sent from. *)
Definition source (src : Z) (n : netif) : Z := if ip_addr_isany src then ni_ip_addr n else src.
Definition sent_header (tos len id ttl proto src dest : Z) : list Z :=
  ip_header tos len id ttl proto (inline_chksum (inline_sum tos len id ttl proto src dest)) src dest.

Lemma write_header_runs p b a src dest ttl tos proto n s (Q : unit → stack B U → Prop) :
  pb_store (pbs s) !! p = Some b → is_u16 (p_tot_len b) → is_u16 (ip_id s) → is_u8 tos → is_u8 ttl → is_u8 proto →
  is_u32 (source src n) → is_u32 dest →
  (∀ m, changes (mem s) m a (a + 20) →
     mem_read m a 20 = sent_header tos (p_tot_len b) (ip_id s) ttl proto (source src n) dest →
     Q tt (set_mem m (with_ip_id (u16 (ip_id s + 1)) s))) →
  runs (write_header p a src dest ttl tos proto n) s Q.
Proof.
  intros Hb Hlen Hid Htos Httl Hpr Hsrc Hdest HQ. unfold write_header, store8, store16, store32. cbv zeta.
  rewrite <-(set_mem_same s) at 1. do 4 (apply runs_bind, sk_store_runs).
  apply runs_bind. eapply sk_get_pbuf_runs; [by rewrite store_set_mem|]. do 2 (apply runs_bind, sk_store_runs).
  apply runs_bind, gets_runs. rewrite ip_id_set_mem. apply runs_bind, sk_store_runs. apply runs_bind, modify_runs.
  rewrite set_mem_ip_id, ip_id_set_mem. apply runs_bind, sk_store_runs. apply sk_store_runs. fold (source src n).
  rewrite v_hl_tos_value, inline_sum_steps by done.
  apply HQ.
  - unfold IPH_CHKSUM, IPH_SRC, IPH_ID, IPH_OFFSET, IPH_LEN, IPH_VHLTOS, IPH_DEST, IPH_PROTO, IPH_TTL.
    repeat (apply changes_in; [|lia|rewrite length_le_bytes; lia]). done.
  - rewrite !mem_read_store by (done || rewrite length_le_bytes; vm_compute; lia). unfold sent_header, inline_chksum. cbv zeta.
    generalize (inline_sum tos (p_tot_len b) (ip_id s) ttl proto (source src n) dest). intros sum.
    by apply header_octets; [apply length_mem_read|..].
Qed.

(** To the interface, or in fragments when the packet is too long for it. *)
Definition transmit (p dest len : Z) (n : netif) : M (stack B U) Z :=
  if negb (ni_mtu n =? 0) && (ni_mtu n <? len) then ip_frag p n dest else on_low (netif_output n p dest).

Lemma send_packet_leads p b dest n s :
  pb_store (pbs s) !! p = Some b → send_packet p dest n s = transmit p dest (p_tot_len b) n (tick P_ip c_xmit s).
Proof.
  intros Hb. unfold send_packet, transmit.
  assert (runs (IP_STATS_INC c_xmit) s (λ _ s1, s1 = tick P_ip c_xmit s)) as (u & s1 & E & ->)%runs_inv by done.
  rewrite (bind_ok _ _ _ _ _ E). clear u E. set (s1 := tick _ _ _).
  assert (runs (on_pbufs (get_pbuf p)) s1 (λ c s2, c = b ∧ s2 = s1)) as (c & s2 & E & -> & ->)%runs_inv by by eapply sk_get_pbuf_runs.
  by rewrite (bind_ok _ _ _ _ _ E).
Qed.

(** A packet with an IP header that checks in front, at [b1]. *)
Definition headed ni R (H : gmultiset Z) s (p : Z) b l (header : list Z) (b1 : pbufs_state A) s1 : Prop :=
  sk_ok ni R ({[+ p +]} ⊎ H) s1 ∧ packet (pb_store b1) p ((p, moved 20 b) :: l) ∧ own_octets ((p, moved 20 b) :: l) ∧
  contents (pb_data b1) ((p, moved 20 b) :: l) = header ++ contents (mem s) ((p, b) :: l) ∧ inet_chksum header = 0 ∧
  kept_packets H (pb_store (pbs s)) (pb_store b1) ∧ kept_octets H (pbs s) b1.

Lemma ip_output_if_ok ni R H s p b l src dest ttl tos proto :
  sk_ok ni R ({[+ p +]} ⊎ H) s → packet (pb_store (pbs s)) p ((p, b) :: l) → own_octets ((p, b) :: l) → p_ref b = 1 →
  total_len ((p, b) :: l) + 20 < 2 ^ 16 → is_u16 (ip_id s) → is_u8 tos → is_u8 ttl → is_u8 proto →
  is_u32 (source src ni) → is_u32 dest →
  let len := total_len ((p, b) :: l) + 20 in
  if decide (has_room 20 p b) then
    ∃ b1, let s1 := tick P_ip c_xmit (with_ip_id (u16 (ip_id s + 1)) (with_pbs b1 s)) in
      ip_output_if p src (Some dest) ttl tos proto ni s = transmit p dest len ni s1 ∧
      headed ni R H s p b l (sent_header tos len (ip_id s) ttl proto (source src ni) dest) b1 s1
  else ip_output_if p src (Some dest) ttl tos proto ni s = Ok (ERR_BUF, tick P_ip c_err s).
Proof.
  intros Hs Hpk Ho Hr Hfit Hid Htos Httl Hpr Hsrc Hdest len. pose proof (pk_chain _ _ _ Hpk) as (_ & _ & Hb & _).
  destruct (pk_lens _ _ _ Hpk) as (Hb0 & Etot & Hl). pose proof (lens_nonneg _ Hl) as Hl0.
  assert (is_u16 len) as Hlen by (unfold is_u16, len; cbn [total_len snd] in *; lia).
  cut (if decide (has_room 20 p b) then
    leads (ip_output_if p src (Some dest) ttl tos proto ni) s (transmit p dest len ni) (λ s1, ∃ b1,
      s1 = tick P_ip c_xmit (with_ip_id (u16 (ip_id s + 1)) (with_pbs b1 s)) ∧
      headed ni R H s p b l (sent_header tos len (ip_id s) ttl proto (source src ni) dest) b1 s1)
    else leads (ip_output_if p src (Some dest) ttl tos proto ni) s (mret ERR_BUF) (λ s1, s1 = tick P_ip c_err s)).
  { destruct (decide _); [intros (s1 & E & b1 & -> & Hh); by exists b1|]. by intros (s1 & E & ->). }
  unfold ip_output_if. destruct (decide (has_room 20 p b)) as [Hroom|Hroom];
    (apply leads_bind; eapply sk_get_pbuf_runs; [exact Hb|]; apply leads_bind, sk_assert_ok; [by rewrite Hr|];
     apply leads_bind; apply (sk_move_runs ni R H s p b l IP_HLEN _ Hs Hpk Hr); [done|unfold IP_HLEN; lia|unfold IP_HLEN; lia| |]);
    try (by intros []); try done.
  2:{ intros _. cbn [negb Z.eqb]. apply leads_bind, modify_runs, leads_refl. done. }
  intros b1 s1 Ed Hs1 Hpk1 Hk _. cbn [negb Z.eqb]. pose proof (pk_chain _ _ _ Hpk1) as (_ & _ & Hb1 & _).
  assert (pbs s1 = b1) as Eb1 by apply pbs_with. set (c := moved IP_HLEN b) in *.
  apply leads_bind. eapply sk_get_pbuf_runs; [by rewrite Eb1|]. apply leads_bind, sk_assert_ok.
  { apply Z.leb_le. unfold c. cbn. unfold IP_HLEN. lia. }
  assert (p_tot_len c = len) as Elen by (unfold c, len; cbn; unfold IP_HLEN; lia).
  apply leads_bind. eapply write_header_runs; [by rewrite Eb1|by rewrite Elen|done..|].
  intros m Hch Hm. change (ip_id s1) with (ip_id s) in *. rewrite Elen in Hm. eexists. split.
  { rewrite (send_packet_leads p c) by (by rewrite store_set_mem, <-Eb1 in * ). rewrite Elen. reflexivity. }
  exists (Pbufs (pb_store b1) m (pb_alloc b1)).
  assert (set_mem m s1 = with_pbs (Pbufs (pb_store b1) m (pb_alloc b1)) s) as Es1 by (unfold set_mem; rewrite Eb1; apply with_pbs_with).
  split; [by rewrite <-Es1|]. pose proof (lw_held _ _ _ _ Hs1) as Hh. fold (pbs s1) in Hh. rewrite Eb1, <-!gmultiset_disj_union_assoc in Hh.
  assert (own_octets ((p, c) :: l)) as Ho1 by (by apply Forall_cons in Ho as [? ?]; constructor).
  unfold mem in Hch. rewrite Eb1 in Hch. destruct (fronted b1 R _ p b l 20 m _ Hh Hpk1 Ho1 Hr Hb0 Hch Hm) as [Econ Hko].
  split; [by apply (sk_ok_mem ni R _ s1)|]. split; [exact Hpk1|]. split; [exact Ho1|]. rewrite Ed in Econ. split; [exact Econ|].
  split; [by apply header_checks|]. split; [exact Hk|].
  eapply kept_octets_trans; [exact Hk|by apply kept_octets_same|]. eapply kept_octets_subset, Hko. held_in.
Qed.

(** A packet that needs no fragments. *)
Definition fits (n : netif) (len : Z) : Prop := (ni_mtu n = 0 ∨ len ≤ ni_mtu n) ∧ len ≤ 64000.

Lemma ip_output_if_runs ni R H s p b l src dest ttl tos proto (Q : Z → stack B U → Prop) :
  let len := total_len ((p, b) :: l) + 20 in
  sk_ok ni R ({[+ p +]} ⊎ H) s → packet (pb_store (pbs s)) p ((p, b) :: l) → own_octets ((p, b) :: l) → nonempty l → 0 ≤ p_len b →
  p_ref b = 1 → fits ni len → has_room 20 p b → is_u16 (ip_id s) → is_u8 tos → is_u8 ttl → is_u8 proto →
  is_u32 (source src ni) → is_u32 dest →
  (∀ r s', sk_ok ni R ({[+ p +]} ⊎ H) s' → same_stack s s' →
     sent s' = sent s ++ [(dest, sent_header tos len (ip_id s) ttl proto (source src ni) dest ++ contents (mem s) ((p, b) :: l))] →
     inet_chksum (sent_header tos len (ip_id s) ttl proto (source src ni) dest) = 0 →
     ip_id s' = u16 (ip_id s + 1) → kept_packets H (pb_store (pbs s)) (pb_store (pbs s')) → Q r s') →
  runs (ip_output_if p src (Some dest) ttl tos proto ni) s Q.
Proof.
  intros len Hs Hpk Ho Hne Hb0 Hr [Hmtu Hfit] Hroom Hid Htos Httl Hpr Hsrc Hdest HQ.
  pose proof (ip_output_if_ok ni R H s p b l src dest ttl tos proto Hs Hpk Ho Hr ltac:(fold len; lia) Hid Htos Httl Hpr Hsrc Hdest) as Hok.
  rewrite decide_True in Hok by done. destruct Hok as (b1 & E & Hs1 & Hpk1 & Ho1 & Econ & Hchk & Hk & _). fold len in E, Econ, Hchk.
  unfold runs. rewrite E. change (runs (transmit p dest len ni) (tick P_ip c_xmit (with_ip_id (u16 (ip_id s + 1)) (with_pbs b1 s))) Q).
  unfold transmit. replace (negb (ni_mtu ni =? 0) && (ni_mtu ni <? len)) with false
    by (symmetry; apply andb_false_iff; destruct Hmtu as [-> |]; [by left|right; by apply Z.ltb_ge]).
  set (s1 := tick _ _ _) in *. assert (pbs s1 = b1) as Eb1 by apply pbs_with.
  apply (sk_output_runs ni R H s1 p (moved 20 b) l); [done|by rewrite Eb1|done|done| | |].
  - apply Forall_cons. split; [cbn; lia|done].
  - unfold len in Hfit. cbn [total_len snd] in *. cbn [moved with_tot_len with_len p_len]. lia.
  - intros r b' Hb' Hsent Hk'. rewrite Eb1 in Hk'. unfold mem in Hsent. rewrite Eb1, Econ in Hsent.
    apply HQ; [done| | |done|done|by etrans].
    + etrans; [|apply same_stack_low]. unfold s1. etrans; [|apply same_stack_tick]. etrans; [|apply same_stack_ip_id]. auto.
    + unfold sent at 1. cbn [sk_low with_low]. rewrite Hsent. f_equal. apply (sent_pbs b1 s).
Qed.

(** The interface for a destination. *)
Definition routed_by (n : netif) s (dest : Z) : Prop :=
  match route_loop dest (netif_list s) with
  | Some n' => n' = n
  | None => netif_default s = Some n ∧ netif_is_up n = true
  end.
Lemma ip_route_runs n s dest (Q : option netif → stack B U → Prop) : routed_by n s dest → Q (Some n) s → runs (ip_route dest) s Q.
Proof.
  intros Hr HQ. unfold ip_route, routed_by in *. apply runs_bind, gets_runs. destruct (route_loop _ _) as [n'|]; [by subst n'|].
  destruct Hr as [Hd Hup]. apply runs_bind, gets_runs. by rewrite Hd, Hup.
Qed.

Lemma ip_output_runs ni s p b src dest ttl tos proto (Q : Z → stack B U → Prop) :
  pb_store (pbs s) !! p = Some b → p_ref b = 1 → routed_by ni s dest →
  runs (ip_output_if p src (Some dest) ttl tos proto ni) s Q → runs (ip_output p src dest ttl tos proto) s Q.
Proof.
  intros Hb Hr Hrt HQ. unfold ip_output. apply runs_bind. eapply sk_get_pbuf_runs; [exact Hb|].
  apply runs_bind, sk_assert_ok; [by rewrite Hr|]. apply runs_bind. by eapply ip_route_runs.
Qed.
End Output.
