(* ===== verification/IpReceive.v ===== *)
(** * Input of IP packets: the theorems

    What [ip_input] does with a packet depends on the octets of its header
    only; [judge] says how. *)

From S2P Require Import Prelude LwipBase IpAddr InetChksum Heap Memp Pbuf PbufChain PbufLinks PbufData PbufMake PbufAlloc PbufClaims PbufRefs PbufChksum Netif EthArpTable EthArpSend EthArpInput LwipStack Ip Icmp Udp IpInput StackRuns IpOutput.
From Stdlib Require Import ZArith Lia.
From stdpp Require Import base numbers gmultiset list gmap.
Open Scope Z_scope.

(** ** The fields of a header *)

Definition be16 (l : list Z) : Z := 2 ^ 8 * l.[0] + l.[1].

Definition ip_version (x : list Z) : Z := x.[0] / 16.
Definition ip_hlen (x : list Z) : Z := 4 * (x.[0] mod 16).
Definition ip_length (x : list Z) : Z := be16 (field 2 2 x).
(** More fragments, or an offset. *)
Definition ip_fragmented (x : list Z) : bool := negb (be16 (field 6 2 x) mod 2 ^ 14 =? 0).
Definition ip_proto (x : list Z) : Z := x.[9].
Definition ip_src (x : list Z) : Z := le_word (field 12 4 x).
Definition ip_dest (x : list Z) : Z := le_word (field 16 4 x).
Definition udp_port (x : list Z) : Z := be16 (field (Z.to_nat (ip_hlen x) + 2) 2 x).

(** For this host, or for its client of DHCP. *)
Definition ours (inp : netif) (nets : list netif) (x : list Z) : bool := bool_decide (is_Some (accepting (ip_dest x) inp nets)).
Definition for_dhcp (x : list Z) : bool := (ip_proto x =? IP_PROTO_UDP) && (udp_port x =? DHCP_CLIENT_PORT).

Inductive verdict := V_drop (why : list counter) | V_reassemble | V_deliver.
#[export] Instance verdict_eq : EqDecision verdict.
Proof. solve_decision. Defined.

(** The packet is in [tot] octets, of which [len] are in the first buffer. *)
Definition judge (inp : netif) (nets : list netif) (len tot : Z) (x : list Z) : verdict :=
  let dhcp := negb (ours inp nets x) && for_dhcp x in
  if negb (ip_version x =? 4) then V_drop [c_err; c_drop]
  else if (len <? ip_hlen x) || (tot <? ip_length x) then V_drop [c_lenerr; c_drop]
  else if negb (inet_chksum (take (Z.to_nat (ip_hlen x)) x) =? 0) then V_drop [c_chkerr; c_drop]
  else if negb dhcp && negb (ip_addr_isany (ip_src x)) && (ip_addr_isbroadcast (ip_src x) inp || ip_addr_ismulticast (ip_src x))
  then V_drop [c_drop]
  else if negb (ours inp nets x || for_dhcp x) then V_drop []
  else if ip_fragmented x then V_reassemble else V_deliver.

Lemma two_octets l : bytes_ok l → length l = 2%nat → ∃ a c, l = [a; c] ∧ is_u8 a ∧ is_u8 c.
Proof.
  intros Hl Hn. do 3 (destruct l as [|? l]; try done). apply Forall_cons in Hl as [H1 [H2 _]%Forall_cons]. by eexists _, _.
Qed.
Lemma be16_bounds l : bytes_ok l → length l = 2%nat → is_u16 (be16 l).
Proof. intros Hl Hn. destruct (two_octets l Hl Hn) as (a & c & -> & Ha & Hc). unfold be16. cbn. cint. Qed.
Lemma htons_be16 l : bytes_ok l → length l = 2%nat → lwip_htons (le_word l) = be16 l.
Proof.
  intros Hl Hn. destruct (two_octets l Hl Hn) as (a & c & -> & Ha & Hc). unfold be16. rewrite !le_word_cons. change (le_word []) with 0.
  rewrite htons_value by cint. cbn -[Z.pow]. cint.
Qed.
Lemma be16_test l v :
  bytes_ok l → length l = 2%nat → is_u16 v → PP_HTONS v = lwip_htons v → (le_word l =? PP_HTONS v) = (be16 l =? v).
Proof.
  intros Hl Hn Hv ->. rewrite <-htons_be16 by done. apply eq_true_iff_eq. rewrite !Z.eqb_eq.
  destruct (two_octets l Hl Hn) as (a & c & -> & Ha & Hc). rewrite !le_word_cons. change (le_word []) with 0.
  rewrite !htons_value by cint. cint.
Qed.

Lemma field_octets o x : (o + 2 ≤ length x)%nat → field o 2 x = [x.[o]; x.[S o]].
Proof.
  revert o. induction x as [|a x IH]; intros o Hl; [simpl in Hl; lia|]. destruct o as [|o]; [by destruct x as [|c x]; simpl in *; [lia|]|].
  apply IH. simpl in Hl. lia.
Qed.

Lemma version_test x : bytes_ok x → (2 ≤ length x)%nat → IPH_V (le_word (field 0 2 x)) = ip_version x.
Proof.
  intros Hx Hl. assert (bytes_ok (field 0 2 x)) as Hb by by apply bytes_field.
  unfold IPH_V. rewrite htons_be16, Z.shiftr_div_pow2 by (done || lia || by apply length_field).
  rewrite field_octets in * by lia. apply Forall_cons in Hb as [Ha [Hc _]%Forall_cons].
  change (be16 [x.[0]; x.[1]]) with (2 ^ 8 * x.[0] + x.[1]). unfold ip_version. cint.
Qed.
Lemma hlen_test x : bytes_ok x → (2 ≤ length x)%nat → IPH_HL (le_word (field 0 2 x)) * 4 = ip_hlen x.
Proof.
  intros Hx Hl. assert (bytes_ok (field 0 2 x)) as Hb by by apply bytes_field.
  unfold IPH_HL. rewrite htons_be16, Z.shiftr_div_pow2 by (done || lia || by apply length_field).
  change 0x0f with (Z.ones 4). rewrite Z.land_ones by lia.
  rewrite field_octets in * by lia. apply Forall_cons in Hb as [Ha [Hc _]%Forall_cons].
  change (be16 [x.[0]; x.[1]]) with (2 ^ 8 * x.[0] + x.[1]). unfold ip_hlen. cint.
Qed.

(** All words, one by one. *)
Lemma fragment_bits a c :
  is_u8 a → is_u8 c →
  (Z.land (a + 2 ^ 8 * c) (PP_HTONS (Z.lor IP_OFFMASK IP_MF)) =? 0) = ((2 ^ 8 * a + c) mod 2 ^ 14 =? 0).
Proof.
  intros Ha Hc. assert (forallb (λ a, forallb (λ c, eqb (Z.land (a + 2 ^ 8 * c) (PP_HTONS (Z.lor IP_OFFMASK IP_MF)) =? 0)
    ((2 ^ 8 * a + c) mod 2 ^ 14 =? 0)) (seqZ 0 256)) (seqZ 0 256) = true) as Hall by (vm_compute; reflexivity).
  assert (∀ x, is_u8 x → In x (seqZ 0 256)) as Hin by (intros x Hx; apply list_elem_of_In, elem_of_seqZ; unfold is_u8 in Hx; lia).
  apply eqb_prop. apply (proj1 (forallb_forall _ _) (proj1 (forallb_forall _ _) Hall a (Hin a Ha))). by apply Hin.
Qed.
Lemma fragment_test x :
  bytes_ok x → (8 ≤ length x)%nat →
  negb (Z.land (le_word (field 6 2 x)) (PP_HTONS (Z.lor IP_OFFMASK IP_MF)) =? 0) = ip_fragmented x.
Proof.
  intros Hx Hl. assert (bytes_ok (field 6 2 x)) as Hb by by apply bytes_field.
  assert (length (field 6 2 x) = 2%nat) as Hn by by apply length_field.
  unfold ip_fragmented. destruct (two_octets _ Hb Hn) as (a & c & -> & Ha & Hc). rewrite !le_word_cons. change (le_word []) with 0.
  rewrite Z.mul_0_r, Z.add_0_r, fragment_bits by done. done.
Qed.

Section Receive.
Context {A B U : Type} {BA : BufAlloc A} {LA : BufAllocLaws A} {LW : Lower A B} {LL : LowerLaws A B} {UP : Upper B U}.
Implicit Types (s : stack B U).

Definition ticks (p : proto) (why : list counter) s : stack B U := foldl (λ s c, tick p c s) s why.

Lemma sk_ok_same ni R H s s' : sk_low s' = sk_low s → sk_ok ni R H s → sk_ok ni R H s'.
Proof. unfold sk_ok. by intros ->. Qed.
Lemma low_ticks p why s : sk_low (ticks p why s) = sk_low s.
Proof. revert s. induction why as [|c why IH]; intros s; [done|]. change (sk_low (ticks p why (tick p c s)) = sk_low s). by rewrite IH. Qed.

Lemma ip_drop_runs ni R H s p why (Q : Z → stack B U → Prop) :
  sk_ok ni R ({[+ p +]} ⊎ H) s →
  (∀ b, let s' := ticks P_ip why (with_pbs b s) in
     sk_ok ni R H s' → kept_packets H (pb_store (pbs s)) (pb_store b) → pb_data b = mem s → Q ERR_OK s') →
  runs (ip_drop p why) s Q.
Proof.
  intros Hs HQ. unfold ip_drop. apply runs_bind. apply (sk_free_runs ni R H s p _ Hs). intros _ b Hb Ed Hk _.
  specialize (HQ b). cbv zeta in HQ. set (s1 := with_pbs b s) in *.
  assert (sk_ok ni R H (ticks P_ip why s1)) as Ht by (eapply sk_ok_same; [apply low_ticks|done]).
  specialize (HQ Ht Hk Ed). clearbody s1. clear -HQ. apply runs_bind. revert s1 HQ. induction why as [|c why IH]; intros s1 HQ; [exact HQ|].
  apply runs_bind, modify_runs. by apply IH.
Qed.

(** *** Reading the header at [a] *)

Lemma load_at s a x o k : mem_read (mem s) a 64 = x → 0 ≤ o → (Z.to_nat o + k ≤ 64)%nat → mem_read (mem s) (a + o) k = field (Z.to_nat o) k x.
Proof. intros Hx Ho Hk. by apply (load_field _ _ _ _ _ 64). Qed.

Lemma octet_field o x : (o < length x)%nat → field o 1 x = [x.[o]].
Proof.
  revert o. induction x as [|a x IH]; intros o Hl; [simpl in Hl; lia|]. destruct o as [|o]; [done|]. apply IH. simpl in Hl. lia.
Qed.
Lemma hlen_bounds x : 0 ≤ ip_hlen x ≤ 60.
Proof. unfold ip_hlen. cint. Qed.

Lemma ip_for_us_runs s a x inp :
  mem_read (mem s) a 64 = x → bytes_ok x →
  runs (ip_for_us a (ip_hlen x) (ip_dest x) inp) s (λ r s', s' = s ∧
    let o := ours inp (netif_list s) x in r = (o || for_dhcp x, negb (negb o && for_dhcp x))).
Proof.
  intros Ex Hx. assert (length x = 64%nat) as Hl by (rewrite <-Ex; apply length_mem_read). pose proof (hlen_bounds x) as Hh.
  unfold ip_for_us, ours, for_dhcp. apply runs_bind, gets_runs. destruct (accepting _ _ _) as [n|]; [done|].
  cbn [bool_decide orb negb andb]. apply runs_bind, sk_load8_runs. rewrite (load_at s a x) by (done || (vm_compute; lia)).
  change (Z.to_nat IPH_PROTO) with 9%nat. rewrite octet_field, le_word_cons by lia. change (le_word []) with 0.
  rewrite Z.mul_0_r, Z.add_0_r. fold (ip_proto x). destruct (ip_proto x =? IP_PROTO_UDP); [|done].
  apply runs_bind, sk_load16_runs. rewrite <-Z.add_assoc, (load_at s a x) by (done || (unfold UDPH_DEST; lia)).
  replace (Z.to_nat (ip_hlen x + UDPH_DEST)) with (Z.to_nat (ip_hlen x) + 2)%nat by (unfold UDPH_DEST; lia).
  rewrite be16_test by (done || (by apply bytes_field) || (apply length_field; lia)). fold (udp_port x).
  by destruct (udp_port x =? DHCP_CLIENT_PORT).
Qed.
(** *** The packet *)

Definition reassemble (p : Z) (inp : netif) : M (stack B U) Z :=
  p ← ip_reass p;
  if p =? 0 then mret ERR_OK
  else
    b ← on_pbufs (get_pbuf p);
    ip_deliver p (p_payload b) inp.

(** What is left of the packet with the header [x], in [s1]. *)
Record taken ni R (H : gmultiset Z) s (p a : Z) (x data : list Z) (b1 : pbufs_state A) (c : pbuf) (k : list cell) s1 : Prop := {
  tk_ok : sk_ok ni R ({[+ p +]} ⊎ H) s1;
  tk_packet : packet (pb_store b1) p ((p, c) :: k);
  tk_own : own_octets ((p, c) :: k);
  tk_exclusive : exclusive ((p, c) :: k);
  tk_payload : p_payload c = a;
  tk_data : pb_data b1 = mem s;
  tk_contents : contents (pb_data b1) ((p, c) :: k) = take (Z.to_nat (ip_length x)) data;
  tk_kept : kept_packets H (pb_store (pbs s)) (pb_store b1) }.

Definition fate {X} (v : verdict) (m : M (stack B U) X) s (D : list counter → X → stack B U → Prop)
    (mr md : M (stack B U) X) (P : stack B U → Prop) : Prop :=
  match v with V_drop why => runs m s (D why) | V_reassemble => leads m s mr P | V_deliver => leads m s md P end.
Lemma fate_bind {X Y} v (m : M (stack B U) Y) (k : Y → M (stack B U) X) s D mr md P :
  runs m s (λ y s1, fate v (k y) s1 D mr md P) → fate v (m ≫= k) s D mr md P.
Proof. destruct v; [apply runs_bind|apply leads_bind|apply leads_bind]. Qed.

Lemma sk_realloc_runs ni R H s p b l n (Q : unit → stack B U → Prop) :
  sk_ok ni R ({[+ p +]} ⊎ H) s → packet (pb_store (pbs s)) p ((p, b) :: l) → exclusive ((p, b) :: l) →
  own_octets ((p, b) :: l) → is_u16 n →
  (∀ b1 c k, let s1 := with_pbs b1 s in
     sk_ok ni R ({[+ p +]} ⊎ H) s1 → packet (pb_store b1) p ((p, c) :: k) → own_octets ((p, c) :: k) →
     exclusive ((p, c) :: k) → p_payload c = p_payload b → pb_data b1 = mem s →
     contents (mem s) ((p, c) :: k) = take (Z.to_nat n) (contents (mem s) ((p, b) :: l)) → (length k ≤ length l)%nat →
     kept_packets H (pb_store (pbs s)) (pb_store b1) → Q tt s1) →
  runs (on_pbufs (pbuf_realloc p n)) s Q.
Proof.
  intros Hs Hpk Hx Ho Hn HQ. pose proof (lw_held _ _ _ _ Hs) as Hh. rewrite <-!gmultiset_disj_union_assoc in Hh.
  destruct (pbuf_realloc_held _ _ _ _ _ n Hh Hpk Hx Hn) as (b1 & L & L' & l' & E & Hh1 & Hpk1 & Ed & Ec & Hx1 & Hcut & Hk).
  destruct (cut_first _ _ _ _ _ _ _ _ Hcut) as (c & k & -> & Epl & Ety). rewrite gmultiset_disj_union_assoc in Hh1.
  eapply on_pbufs_runs; [exact E|]. eapply HQ; try done.
  - eapply sk_step; [exact Hs|exact Hh1|eapply kept_subset, Hk; held_in].
  - exact (cut_types _ _ _ _ _ _ (λ t, t = PBUF_RAM ∨ t = PBUF_POOL) Hcut Ho).
  - apply cut_length in Hcut. cbn in Hcut. lia.
  - eapply kept_subset, Hk; held_in.
Qed.

(** The state after the packet was looked at. *)
Definition looked (b1 : pbufs_state A) (src dest : Z) s : stack B U := with_addresses src dest (with_pbs b1 (tick P_ip c_recv s)).

(** A packet that was given up. *)
Definition discarded ni R (H : gmultiset Z) s (why : list counter) (r : Z) s' : Prop :=
  r = ERR_OK ∧ sk_ok ni R H s' ∧ ∃ b1 src dest, s' = ticks P_ip why (looked b1 src dest s) ∧
    pb_data b1 = mem s ∧ kept_packets H (pb_store (pbs s)) (pb_store b1).

Lemma discard_runs ni R H s s1 p why b1 src dest :
  sk_ok ni R ({[+ p +]} ⊎ H) s1 → s1 = looked b1 src dest s → pb_data b1 = mem s → kept_packets H (pb_store (pbs s)) (pb_store b1) →
  runs (ip_drop p why) s1 (discarded ni R H s why).
Proof.
  intros Hs -> Hd Hk. apply (ip_drop_runs ni R H _ p why _ Hs). intros b2 s2 Hs2 Hk2 Hd2. split; [done|]. split; [done|].
  assert (pbs (looked b1 src dest s) = b1) as E1 by apply pbs_with.
  exists b2, src, dest. unfold mem in Hd2. rewrite E1 in Hd2, Hk2. split; [|split; [congruence|by etrans]]. subst s2. f_equal.
  unfold looked, with_pbs. cbn. by rewrite lw_set_set.
Qed.

Lemma ip_input_fate ni R H s p b l :
  let a := p_payload b in let x := mem_read (mem s) a 64 in
  sk_ok ni R ({[+ p +]} ⊎ H) s → packet (pb_store (pbs s)) p ((p, b) :: l) → own_octets ((p, b) :: l) →
  exclusive ((p, b) :: l) → bytes_ok x →
  fate (judge ni (netif_list s) (p_len b) (p_tot_len b) x) (ip_input p ni) s (discarded ni R H s)
    (reassemble p ni) (ip_deliver p a ni) (λ s1, ∃ b1 c k, s1 = looked b1 (ip_src x) (ip_dest x) s ∧
      taken ni R H s p a x (contents (mem s) ((p, b) :: l)) b1 c k s1 ∧ (length k ≤ length l)%nat).
Proof.
  intros a x Hs Hpk Ho Hx Hb. pose proof (pk_chain _ _ _ Hpk) as (_ & _ & Hpb & _).
  assert (length x = 64%nat) as Hl by apply length_mem_read. pose proof (hlen_bounds x) as Hh.
  unfold ip_input. apply fate_bind, modify_runs. set (s0 := tick P_ip c_recv s).
  assert (s0 = looked (pbs s) (current_iphdr_src s) (current_iphdr_dest s) s) as Es0.
  { unfold looked. rewrite <-(with_pbs_same s0) at 1. done. }
  assert (mem_read (mem s0) a 64 = x) as Ex by done.
  apply fate_bind. eapply sk_get_pbuf_runs; [exact Hpb|]. cbv zeta. fold a.
  apply fate_bind, sk_load16_runs. rewrite (load_at s0 a x) by (done || (vm_compute; lia)).
  change (Z.to_nat IPH_VHLTOS) with 0%nat. rewrite version_test, hlen_test by (done || lia). unfold judge.
  destruct (negb (ip_version x =? 4)); [by eapply discard_runs|].
  apply fate_bind, sk_load16_runs. rewrite (load_at s0 a x) by (done || (vm_compute; lia)).
  change (Z.to_nat IPH_LEN) with 2%nat. rewrite htons_be16 by ((by apply bytes_field) || (by apply length_field; lia)). fold (ip_length x).
  destruct ((p_len b <? ip_hlen x) || (p_tot_len b <? ip_length x)); [by eapply discard_runs|].
  apply fate_bind, sk_load_runs. rewrite <-(mem_read_take (mem s0) a 64), Ex by lia.
  destruct (negb (inet_chksum _ =? 0)); [by eapply discard_runs|].
  apply fate_bind. apply (sk_realloc_runs ni R H s0 p b l _ _ Hs Hpk Hx Ho).
  { apply be16_bounds; [by apply bytes_field|apply length_field; lia]. }
  intros b1 c k s1 Hs1 Hpk1 Ho1 Hx1 Epl Ed Ec Hkl Hk. assert (mem s1 = mem s) as Em by (unfold mem at 1, s1; by rewrite pbs_with).
  assert (mem_read (mem s1) a 64 = x) as Ex1 by by rewrite Em.
  apply fate_bind, sk_load32_runs. rewrite (load_at s1 a x) by (done || (vm_compute; lia)).
  change (Z.to_nat IPH_DEST) with 16%nat. fold (ip_dest x).
  apply fate_bind, sk_load32_runs. rewrite (load_at s1 a x) by (done || (vm_compute; lia)).
  change (Z.to_nat IPH_SRC) with 12%nat. fold (ip_src x). apply fate_bind, modify_runs.
  set (s2 := with_addresses (ip_src x) (ip_dest x) s1). assert (s2 = looked b1 (ip_src x) (ip_dest x) s) as Es2 by done.
  assert (sk_ok ni R ({[+ p +]} ⊎ H) s2) as Hs2 by exact Hs1.
  apply fate_bind. eapply runs_mono, (ip_for_us_runs s2 a x ni Ex1 Hb). intros r s' [-> ->]. cbn [fst snd].
  change (netif_list s2) with (netif_list s). cbv zeta.
  destruct (negb (_ && _) && _ && _); [by eapply discard_runs|]. destruct (negb (ours _ _ _ || _)); [by eapply discard_runs|].
  apply fate_bind, sk_load16_runs. rewrite (load_at s2 a x) by (done || (vm_compute; lia)).
  change (Z.to_nat IPH_OFFSET) with 6%nat. rewrite fragment_test by (done || lia).
  assert (taken ni R H s p a x (contents (mem s) ((p, b) :: l)) b1 c k s2) as Htk by (split; try done; by rewrite Ed).
  destruct (ip_fragmented x); apply leads_refl; by exists b1, c, k.
Qed.
End Receive.

(** ** From one stack to another

    A packet with a header of [ip_output_if] is delivered by the [ip_input] of
    the station it is for, without the padding of the link; and what
    [ip_deliver] does around the protocols. *)

(** ** Reading the header back *)

Lemma be16_be n : is_u16 n → be16 (be_bytes n) = n.
Proof. intros Hn. unfold be16, be_bytes. cbn -[Z.pow Z.div]. cint. Qed.
Lemma le_word_le4 n : is_u32 n → le_word (le_bytes 4 n) = n.
Proof. intros Hn. rewrite le_word_bytes. by apply Z.mod_small. Qed.

(** The header of [ip_output_if] in front of [x]. *)
Record carries (x : list Z) (len proto src dest : Z) : Prop := {
  cr_version : ip_version x = 4;
  cr_hlen : ip_hlen x = 20;
  cr_length : ip_length x = len;
  cr_whole : ip_fragmented x = false;
  cr_proto : ip_proto x = proto;
  cr_src : ip_src x = src;
  cr_dest : ip_dest x = dest;
  cr_checks : inet_chksum (take 20 x) = 0 }.

Lemma header_carries x tos len id ttl proto src dest :
  take 20 x = sent_header tos len id ttl proto src dest →
  is_u8 tos → is_u16 len → is_u16 id → is_u8 ttl → is_u8 proto → is_u32 src → is_u32 dest → carries x len proto src dest.
Proof.
  intros E Ht Hl Hi Httl Hp Hs Hd. pose proof (header_checks tos len id ttl proto src dest Ht Hl Hi Httl Hp Hs Hd) as Hc.
  rewrite <-(take_drop 20 x), E. unfold sent_header, ip_header in *. set (chk := inline_chksum _) in *. clearbody chk.
  split; try done.
  - by apply be16_be.
  - by apply le_word_le4.
  - by apply le_word_le4.
Qed.

(** A station that takes the packet. *)
Definition taken_by (inp : netif) (src dest : Z) : Prop :=
  accepts dest inp = true ∧ (ip_addr_isany src = true ∨ ip_addr_isbroadcast src inp = false ∧ ip_addr_ismulticast src = false).

Lemma judge_carries x len proto src dest inp nets plen tot :
  carries x len proto src dest → taken_by inp src dest → 20 ≤ plen → len ≤ tot → judge inp nets plen tot x = V_deliver.
Proof.
  intros Hx [Ha Hsrc] Hpl Htot. unfold judge.
  assert (ours inp nets x = true) as ->.
  { unfold ours, accepting. rewrite (cr_dest _ _ _ _ _ Hx), Ha. apply bool_decide_true. eauto. }
  rewrite (cr_version _ _ _ _ _ Hx), (cr_hlen _ _ _ _ _ Hx), (cr_length _ _ _ _ _ Hx), (cr_whole _ _ _ _ _ Hx), (cr_src _ _ _ _ _ Hx).
  change (Z.to_nat 20) with 20%nat. rewrite (cr_checks _ _ _ _ _ Hx).
  rewrite (proj2 (Z.ltb_ge plen 20)), (proj2 (Z.ltb_ge tot len)) by lia. cbn.
  destruct Hsrc as [->|[-> ->]]; [done|]. by destruct (ip_addr_isany src).
Qed.

Section Deliver.
Context {A B U : Type} {BA : BufAlloc A} {LA : BufAllocLaws A} {LW : Lower A B} {LL : LowerLaws A B} {UP : Upper B U}.
Implicit Types (s : stack B U).

(** No raw connection takes the packet. *)
Definition not_raw (p : Z) (inp : netif) : Prop := ∀ s, raw_input p inp s = Ok (0, s).
(** While and after the packet is handled. *)
Definition during (inp : netif) (a : Z) s : stack B U := with_current (Some inp) a s.
Definition after s : stack B U := with_addresses IPADDR_ANY IPADDR_ANY (with_current None 0 s).

Lemma ip_deliver_runs p a inp s (Q : Z → stack B U → Prop) :
  not_raw p inp →
  runs (ip_dispatch p a (current_iphdr_dest s) inp) (during inp a s) (λ _ s1, Q ERR_OK (after s1)) →
  runs (ip_deliver p a inp) s Q.
Proof.
  intros Hr HQ. unfold ip_deliver. apply runs_bind, modify_runs. apply runs_bind.
  unfold runs. rewrite Hr. change (0 =? 0) with true. cbv iota. apply runs_bind, runs_bind, gets_runs.
  eapply runs_mono, HQ. intros u s1 H1. by apply runs_bind, modify_runs, runs_bind, modify_runs, sk_ret_runs.
Qed.

(** *** A packet in one buffer *)

(** The packet [p] with the octets [d], as the Ethernet driver makes them. *)
Record arriving ni R (H : gmultiset Z) s p b (d : list Z) : Prop := {
  av_ok : sk_ok ni R ({[+ p +]} ⊎ H) s;
  av_packet : packet (pb_store (pbs s)) p [(p, b)];
  av_own : own_octets [(p, b)];
  av_sole : p_ref b = 1;
  av_room : p + SIZEOF_STRUCT_PBUF ≤ p_payload b;
  av_octets : contents (mem s) [(p, b)] = d;
  av_head : bytes_ok (mem_read (mem s) (p_payload b) 64);
  av_bytes : bytes_ok d }.

(** It is cut to [n] octets, and handled at [a]. *)
Record presented ni R (H : gmultiset Z) s p a c (n : Z) (d : list Z) (s1 : stack B U) : Prop := {
  ps_ok : sk_ok ni R ({[+ p +]} ⊎ H) s1;
  ps_packet : packet (pb_store (pbs s1)) p [(p, c)];
  ps_own : own_octets [(p, c)];
  ps_sole : p_ref c = 1;
  ps_at : p_payload c = a;
  ps_len : p_len c = n;
  ps_mem : mem s1 = mem s;
  ps_octets : contents (mem s1) [(p, c)] = take (Z.to_nat n) d;
  ps_sent : sent s1 = sent s;
  ps_kept : kept_packets H (pb_store (pbs s)) (pb_store (pbs s1)) }.

Lemma sent_looked b src dest s : sent (looked b src dest s) = sent s.
Proof. exact (sent_pbs b (tick P_ip c_recv s)). Qed.

Lemma single_length (st : store) m p b : packet st p [(p, b)] → p_tot_len b = p_len b ∧ 0 ≤ p_len b ∧ length (contents m [(p, b)]) = Z.to_nat (p_len b).
Proof.
  intros [_ Hl _ _]. pose proof (length_contents m _ Hl) as E. destruct Hl as (H0 & Ht & _). cbn [total_len snd] in *. lia.
Qed.

Lemma judge_deliver_fits inp nets len tot x : judge inp nets len tot x = V_deliver → ip_hlen x ≤ len ∧ ip_length x ≤ tot.
Proof.
  unfold judge. destruct (negb (ip_version x =? 4)); [done|]. destruct (Z.ltb_spec len (ip_hlen x)), (Z.ltb_spec tot (ip_length x)); done || lia.
Qed.

Lemma ip_input_delivers ni R H s p b d :
  let a := p_payload b in let x := mem_read (mem s) a 64 in
  arriving ni R H s p b d → judge ni (netif_list s) (p_len b) (p_tot_len b) x = V_deliver → not_raw p ni →
  ∃ b1 c, let s1 := during ni a (looked b1 (ip_src x) (ip_dest x) s) in
    presented ni R H s p a c (ip_length x) d s1 ∧
    ∀ Q : Z → stack B U → Prop, runs (ip_dispatch p a (ip_dest x) ni) s1 (λ _ s2, Q ERR_OK (after s2)) → runs (ip_input p ni) s Q.
Proof.
  intros a x [Hs Hpk Ho Hr Hroom Hd Hx Hb] Hj Hraw.
  assert (exclusive [(p, b)]) as Hex by (by apply Forall_singleton).
  pose proof (ip_input_fate ni R H s p b [] Hs Hpk Ho Hex Hx) as Hf. cbv zeta in Hf. fold a x in Hf. rewrite Hj in Hf. cbn [fate] in Hf.
  destruct Hf as (s1 & E & b1 & c & k & Es1 & Htk & Hk). rewrite Hd in Htk. destruct k as [|]; [|cbn in Hk; lia]. exists b1, c. split.
  2:{ intros Q HQ. unfold runs. rewrite E, Es1. by apply ip_deliver_runs. }
  assert (pbs (during ni a (looked b1 (ip_src x) (ip_dest x) s)) = b1) as Eb by (exact (pbs_with b1 _)).
  destruct (single_length _ (mem s) _ _ Hpk) as (Et & Hl0 & Hl). pose proof (judge_deliver_fits _ _ _ _ _ Hj) as [_ Hfit].
  pose proof (tk_packet _ _ _ _ _ _ _ _ _ _ _ _ Htk) as Hpk1. destruct (single_length _ (pb_data b1) _ _ Hpk1) as (_ & Hc0 & Hc).
  rewrite (tk_contents _ _ _ _ _ _ _ _ _ _ _ _ Htk), length_take, <-Hd, Hl in Hc.
  assert (mem (during ni a (looked b1 (ip_src x) (ip_dest x) s)) = mem s) as Em by (unfold mem at 1; rewrite Eb; apply Htk).
  split; try (rewrite ?Eb; apply Htk); try done.
  - eapply sk_ok_same, Htk. by rewrite Es1.
  - destruct (proj1 (Forall_cons _ _ _) (tk_exclusive _ _ _ _ _ _ _ _ _ _ _ _ Htk)) as [Hx1 _]. exact Hx1.
  - assert (is_u16 (ip_length x)) as Hu by (apply be16_bounds; [by apply bytes_field|apply length_field; unfold x; rewrite length_mem_read; lia]).
    unfold is_u16 in Hu. lia.
  - rewrite Em, <-(tk_data _ _ _ _ _ _ _ _ _ _ _ _ Htk). apply Htk.
  - exact (sent_looked b1 _ _ s).
Qed.
End Deliver.
