(* ===== verification/IcmpRuns.v ===== *)
(** * ICMP: the theorems

    The messages about packets carry the start of the packet and check; the
    reply to an echo request is the request with the addresses exchanged, and
    its checksum is the one of the request, corrected. *)

From S2P Require Import Prelude LwipBase IpAddr InetChksum Heap Memp Pbuf PbufChain PbufLinks PbufData PbufMake PbufAlloc PbufClaims PbufRefs PbufChksum Netif EthArpTable EthArpSend EthArpInput LwipStack Ip Icmp Udp IpInput StackRuns IpOutput IpReceive.
From Stdlib Require Import ZArith Lia.
From stdpp Require Import base numbers gmultiset list gmap.
Open Scope Z_scope.

(** ** The checksum of the reply *)

Definition echo_message (type code chk : Z) (rest : list Z) : list Z := [type; code] ++ le_bytes 2 chk ++ rest.

(** The correction of [icmp_turn]. *)
Definition turned_chksum (c : Z) : Z :=
  if PP_HTONS (0xffff - Z.shiftl ICMP_ECHO 8) <=? c then c + (PP_HTONS (Z.shiftl ICMP_ECHO 8) + 1)
  else c + PP_HTONS (Z.shiftl ICMP_ECHO 8).

Lemma turned_value c : is_u16 c → u16 (turned_chksum c) = if 0xfff7 <=? c then c + 9 - 2 ^ 16 else c + 8.
Proof.
  intros Hc. unfold turned_chksum. change (PP_HTONS (0xffff - Z.shiftl ICMP_ECHO 8)) with 0xfff7.
  change (PP_HTONS (Z.shiftl ICMP_ECHO 8)) with 8. destruct (Z.leb_spec 0xfff7 c); [|cint].
  unfold u16, is_u16 in *. symmetry. apply (Z.mod_unique_pos _ _ 1); lia.
Qed.

Lemma le_bytes_u16 c : le_bytes 2 c = le_bytes 2 (u16 c).
Proof. cbn [le_bytes]. apply (f_equal2 cons); [cint|]. f_equal. cint. Qed.

Lemma echo_word type code chk rest :
  is_u16 chk → le_word (echo_message type code chk rest) = type + 2 ^ 8 * code + 2 ^ 16 * chk + 2 ^ 32 * le_word rest.
Proof.
  intros Hc. unfold echo_message. rewrite !le_word_app, le_word_bytes, Z.mod_small, !le_word_cons by exact Hc.
  change (le_word []) with 0. rewrite length_le_bytes. cbn [length]. change (2 ^ (8 * Z.of_nat 2)) with (2 ^ 16). lia.
Qed.

(** The reply to a request that checks does too; but for one request. *)
Lemma turned_checks code c rest :
  is_u8 code → is_u16 c → bytes_ok rest → Z.of_nat (length rest) + 4 < 2 ^ 16 →
  inet_chksum (echo_message ICMP_ECHO code c rest) = 0 →
  (inet_chksum (echo_message ICMP_ER code (turned_chksum c) rest) = 0 ↔ ¬ (c = 0xfff7 ∧ code = 0 ∧ le_word rest = 0)).
Proof.
  intros Hcode Hc Hr Hlen Hchk. unfold echo_message at 1. rewrite le_bytes_u16. fold (echo_message ICMP_ER code (u16 (turned_chksum c)) rest).
  assert (is_u16 (u16 (turned_chksum c))) as Hu by apply u16_range.
  assert (∀ t x, is_u8 t → bytes_ok (echo_message t code x rest)) as Hok.
  { intros t x Ht. unfold echo_message. apply bytes_ok_app; [apply Forall_cons; split; [done|by apply Forall_singleton]|]. by apply bytes_ok_app; [apply le_bytes_ok|]. }
  assert (∀ t x, Z.of_nat (length (echo_message t code x rest)) = Z.of_nat (length rest) + 4) as Hln.
  { intros t x. unfold echo_message. rewrite !length_app, length_le_bytes. cbn [length]. lia. }
  rewrite inet_chksum_zero in Hchk |- * by (rewrite ?Hln; done || (apply Hok; by vm_compute)).
  rewrite echo_word in Hchk |- * by done. rewrite turned_value in * by done. change ICMP_ECHO with 8 in Hchk. change ICMP_ER with 0.
  pose proof (le_word_nonneg _ Hr) as Hw. set (w := le_word rest) in *. unfold is_u8, is_u16 in *.
  split; [intros E (-> & -> & Hz); by rewrite Hz in E|]. intros Hne. rewrite <-Hchk.
  apply oc_eq; [destruct (0xfff7 <=? c); lia|lia| |].
  - destruct (Z.leb_spec 0xfff7 c); [exists (- 65528)|exists 8]; lia.
  - destruct (Z.leb_spec 0xfff7 c); lia.
Qed.

(** ** Messages about packets *)

Lemma le_word_u32 l : bytes_ok l → length l = 4%nat → is_u32 (le_word l).
Proof. intros Hl Hn. pose proof (le_word_bound l Hl) as Hb. by rewrite Hn in Hb. Qed.

(** The four octets behind the checksum are zero. *)
Definition error_message (type code : Z) (orig : list Z) : list Z :=
  let rest := [0; 0; 0; 0] ++ orig in echo_message type code (inet_chksum (echo_message type code 0 rest)) rest.

Lemma error_message_checks type code orig :
  is_u8 type → is_u8 code → bytes_ok orig → Z.of_nat (length orig) < 60000 → inet_chksum (error_message type code orig) = 0.
Proof.
  intros Ht Hc Ho Hl. apply (inet_chksum_seals [type; code] ([0; 0; 0; 0] ++ orig)).
  - apply Forall_cons; split; [done|by apply Forall_singleton].
  - apply bytes_ok_app; [|done]. by repeat (apply Forall_cons; split; [done|]).
  - by exists 1%nat.
  - cbn [length app]. lia.
Qed.

(** The stores of [icmp_send_response], in its order. *)
Lemma error_octets x type code chk orig :
  length x = 36%nat → length orig = 28%nat → is_u8 type → is_u8 code →
  poke 2 (le_bytes 2 chk) (poke 2 (le_bytes 2 0) (poke 8 orig (poke 6 (le_bytes 2 0) (poke 4 (le_bytes 2 0)
    (poke 1 (le_bytes 1 code) (poke 0 (le_bytes 1 type) x)))))) = echo_message type code chk ([0; 0; 0; 0] ++ orig) ∧
  poke 2 (le_bytes 2 0) (poke 8 orig (poke 6 (le_bytes 2 0) (poke 4 (le_bytes 2 0)
    (poke 1 (le_bytes 1 code) (poke 0 (le_bytes 1 type) x))))) = echo_message type code 0 ([0; 0; 0; 0] ++ orig).
Proof.
  intros Hx Ho Ht Hc. change (le_bytes 2 0) with [0; 0].
  replace (le_bytes 1 type) with [type] by (cbn [le_bytes]; f_equal; cint).
  replace (le_bytes 1 code) with [code] by (cbn [le_bytes]; f_equal; cint).
  unfold echo_message. assert (length (le_bytes 2 chk) = 2%nat) as H1 by done. change (le_bytes 2 0) with [0; 0].
  set (y := le_bytes 2 chk) in *. clearbody y. do 3 (destruct y as [|? y]; try done).
  do 37 (destruct x as [|? x]; try done). do 29 (destruct orig as [|? orig]; try done).
Qed.

Section Icmp.
Context {A B U : Type} {BA : BufAlloc A} {LA : BufAllocLaws A} {LW : Lower A B} {LL : LowerLaws A B} {UP : Upper B U}.
Implicit Types (s : stack B U).

(** The octets of two buffers. *)
Lemma sk_apart ni R H s p b q c :
  sk_ok ni R H s → pb_store (pbs s) !! p = Some b → pb_store (pbs s) !! q = Some c → owns b → owns c → p ≠ q →
  p_payload b + p_len b ≤ p_payload c ∨ p_payload c + p_len c ≤ p_payload b.
Proof.
  intros Hs Hb Hc Hob Hoc Hne. destruct (lw_held _ _ _ _ Hs) as [(L & Hok & _) _].
  destruct (owns_apart _ L p b q c Hok Hb Hc Hob Hoc Hne); lia.
Qed.

(** What the interface is given about the packet that starts with [orig]. *)
Definition error_packet (ni : netif) (id type code : Z) (orig : list Z) : Z * list Z :=
  (ip_src orig, sent_header 0 56 id ICMP_TTL IP_PROTO_ICMP (ni_ip_addr ni) (ip_src orig) ++ error_message type code orig).

Lemma read_outside m m' a lo hi n :
  changes m m' lo hi → a + Z.of_nat n ≤ lo ∨ hi ≤ a → mem_read m' a n = mem_read m a n.
Proof. intros Hch Ha. apply mem_read_ext. intros x Hx. apply Hch. lia. Qed.

(** The octets of the message at [c], about the packet at [a]. *)
Lemma fill_message_runs {X} s a c type code (k : M (stack B U) X) (Q : X → stack B U → Prop) :
  let orig := mem_read (mem s) a 28 in
  a + 28 ≤ c ∨ c + 36 ≤ a → is_u8 type → is_u8 code →
  (∀ m, changes (mem s) m c (c + 36) → mem_read m c 36 = error_message type code orig → runs k (set_mem m s) Q) →
  runs (on_pbufs (store8 (c + ICMPH_TYPE) type);;
        on_pbufs (store8 (c + ICMPH_CODE) code);;
        on_pbufs (store16 (c + ICMPH_ID) 0);;
        on_pbufs (store16 (c + ICMPH_SEQNO) 0);;
        l ← on_pbufs (load_octets a (IP_HLEN + ICMP_DEST_UNREACH_DATASIZE));
        on_pbufs (store_octets (c + SIZEOF_ICMP_ECHO_HDR) l);;
        on_pbufs (store16 (c + ICMPH_CHKSUM) 0);;
        m ← on_pbufs (load_octets c (SIZEOF_ICMP_ECHO_HDR + IP_HLEN + ICMP_DEST_UNREACH_DATASIZE));
        on_pbufs (store16 (c + ICMPH_CHKSUM) (inet_chksum m));; k) s Q.
Proof.
  intros orig Hap Ht Hc HQ. rewrite <-(set_mem_same s) at 1. unfold store8, store16.
  unfold ICMPH_TYPE, ICMPH_CODE, ICMPH_ID, ICMPH_SEQNO, ICMPH_CHKSUM.
  do 4 (apply runs_bind, sk_store_runs). apply runs_bind, sk_load_runs. rewrite mem_set_mem.
  change (Z.to_nat (IP_HLEN + ICMP_DEST_UNREACH_DATASIZE)) with 28%nat.
  set (m4 := mem_write _ (c + 6) _). assert (changes (mem s) m4 c (c + 36)) as Hch4.
  { unfold m4. repeat (apply changes_in; [|lia|rewrite length_le_bytes; lia]). done. }
  rewrite (read_outside (mem s) m4 a c (c + 36)) by (done || lia). fold orig.
  do 2 (apply runs_bind, sk_store_runs). change SIZEOF_ICMP_ECHO_HDR with 8.
  assert (length orig = 28%nat) as Hol by apply length_mem_read.
  apply runs_bind, sk_load_runs. rewrite mem_set_mem. change (Z.to_nat (8 + IP_HLEN + ICMP_DEST_UNREACH_DATASIZE)) with 36%nat.
  apply runs_bind, sk_store_runs. set (m6 := mem_write _ (c + 2) (le_bytes 2 0)). set (chk := inet_chksum (mem_read m6 c 36)).
  destruct (error_octets (mem_read (mem s) c 36) type code chk orig (length_mem_read _ _ _) Hol Ht Hc) as [E1 E0].
  assert (mem_read m6 c 36 = echo_message type code 0 ([0; 0; 0; 0] ++ orig)) as E6.
  { unfold m6, m4. rewrite !mem_read_store by (done || rewrite ?length_le_bytes, ?Hol; vm_compute; lia). exact E0. }
  apply HQ.
  - repeat (apply changes_in; [|lia|rewrite ?length_le_bytes, ?Hol; lia]). done.
  - rewrite mem_read_store by (done || rewrite length_le_bytes; vm_compute; lia). unfold m6 at 1, m4.
    rewrite !mem_read_store by (done || rewrite ?length_le_bytes, ?Hol; vm_compute; lia).
    etrans; [exact E1|]. unfold error_message, chk. by rewrite E6.
Qed.

Lemma icmp_send_response_runs ni R H s p b l type code (Q : unit → stack B U → Prop) :
  let orig := mem_read (mem s) (p_payload b) 28 in
  sk_ok ni R ({[+ p +]} ⊎ H) s → packet (pb_store (pbs s)) p ((p, b) :: l) → owns b → 28 ≤ p_len b → bytes_ok orig →
  routed_by ni s (ip_src orig) → fits ni 56 → is_u16 (ip_id s) → is_u8 type → is_u8 code → is_u32 (ni_ip_addr ni) →
  (∀ s', sk_ok ni R ({[+ p +]} ⊎ H) s' → same_stack s s' → kept_packets ({[+ p +]} ⊎ H) (pb_store (pbs s)) (pb_store (pbs s')) →
     sent s' = sent s ∨ sent s' = sent s ++ [error_packet ni (ip_id s) type code orig] → Q tt s') →
  runs (icmp_send_response p type code) s Q.
Proof.
  intros orig Hs Hpk Hob Hlen Horig Hrt Hfit Hid Ht Hc Hni HQ. unfold icmp_send_response. apply runs_bind.
  apply (sk_alloc_runs ni R _ s _ _ _ Hs); [by vm_compute|by vm_compute| |].
  { intros b1 Hs1 Ed Hk. apply HQ; [done|auto| |left; apply sent_pbs]. by rewrite pbs_with. }
  intros q c b1 Hq Hs1 Ed Hpkq Hr Hty Hclen Hroom Hk Hfresh. rewrite (proj2 (Z.eqb_neq q 0)) by done.
  set (s1 := with_pbs b1 s) in *. assert (pbs s1 = b1) as Eb1 by apply pbs_with.
  pose proof (pk_chain _ _ _ Hpkq) as (_ & _ & Hqc & _).
  apply runs_bind. eapply sk_get_pbuf_runs; [by rewrite Eb1|]. apply runs_bind, sk_assert_ok; [by rewrite Hclen|].
  destruct (packet_kept _ _ _ p _ Hk ltac:(held_in) Hpk) as (l1 & Hpk1 & El). destruct l1 as [|[p' b'] l1]; [done|].
  pose proof (pk_chain _ _ _ Hpk1) as (<- & _ & Hpb & _). cbn in El. injection El as _ Epl _ Eln Ety' _ _.
  assert (owns b') as Hob' by (unfold owns; by rewrite Ety').
  apply runs_bind. eapply sk_get_pbuf_runs; [by rewrite Eb1|]. cbv zeta. rewrite Epl.
  assert (p ≠ q) as Hpq by (intros ->; pose proof (pk_chain _ _ _ Hpk) as (_ & _ & E & _); congruence).
  assert (p_payload b + 28 ≤ p_payload c ∨ p_payload c + 36 ≤ p_payload b) as Hap.
  { destruct (sk_apart _ _ _ s1 p b' q c Hs1) as [Ha|Ha]; try (by rewrite Eb1); try done; [by left| |]; rewrite ?Epl, ?Eln, ?Hclen in Ha;
      [left; lia|right; exact Ha]. }
  rewrite Hclen. assert (mem s1 = mem s) as Em1 by (unfold mem at 1; by rewrite Eb1).
  apply fill_message_runs; [done..|]. rewrite Em1. fold orig. intros m Hch Hm.
  apply runs_bind, modify_runs. set (s2 := tick P_icmp c_xmit (set_mem m s1)).
  assert (mem s2 = m) as Em2 by apply mem_set_mem. assert (pb_store (pbs s2) = pb_store b1) as Est2 by (rewrite <-Eb1; apply store_set_mem).
  apply runs_bind, sk_load32_runs. rewrite Em2, (read_outside (mem s) m _ (p_payload c) (p_payload c + 36)) by (done || (unfold IPH_SRC; lia)).
  rewrite (load_field (mem s) (p_payload b) IPH_SRC 4 orig 28) by (done || (vm_compute; lia)). fold (ip_src orig).
  assert (contents m [(q, c)] = error_message type code orig) as Econ.
  { cbn [contents]. unfold cell_data. cbn [snd]. rewrite app_nil_r, Hclen. exact Hm. }
  assert (length orig = 28%nat) as Hol by apply length_mem_read.
  assert (is_u32 (ip_src orig)) as Hsrc by (apply le_word_u32; [by apply bytes_field|apply length_field; lia]).
  apply runs_bind. apply (ip_output_runs ni s2 q c); [by rewrite Est2|done|done|].
  apply (ip_output_if_runs ni R ({[+ p +]} ⊎ H) s2 q c []); try done.
  - by apply (sk_ok_mem ni R _ s1).
  - by rewrite Est2.
  - apply Forall_singleton. by left.
  - constructor.
  - rewrite Hclen. by vm_compute.
  - cbn [total_len snd]. by rewrite Hclen.
  - intros _. split; [by left|]. change (header_offset PBUF_IP) with 34 in Hroom. lia.
  - intros r s3 Hs3 Hsame Hsent _ _ Hk3. rewrite Em2, Econ in Hsent. cbn [total_len snd] in Hsent. rewrite Hclen in Hsent.
    apply runs_bind. apply (sk_free_runs ni R _ s3 q _ Hs3). intros _ b4 Hs4 _ Hk4 _. apply HQ.
    + exact Hs4.
    + etrans; [|apply same_stack_pbs]. etrans; [|exact Hsame]. etrans; [|apply same_stack_tick]. etrans; [|apply same_stack_pbs]. apply same_stack_pbs.
    + rewrite pbs_with. rewrite Est2 in Hk3. etrans; [exact Hk|]. by etrans.
    + right. rewrite sent_pbs, Hsent. change (sent s2) with (sent (set_mem m s1)). rewrite sent_mem. unfold s1. by rewrite sent_pbs.
Qed.

(** *** The reply *)

(** The first 20 octets of the header. *)
Definition turned_header_with (chk : Z) (x : list Z) (src dest : Z) : list Z :=
  field 0 8 x ++ [ICMP_TTL; x.[9]] ++ le_bytes 2 chk ++ le_bytes 4 src ++ le_bytes 4 dest.
Definition turned_header (x : list Z) (src dest : Z) : list Z :=
  turned_header_with (inet_chksum (turned_header_with 0 x src dest)) x src dest.
(** The first four octets of the message. *)
Definition turned_echo (y : list Z) : list Z := [ICMP_ER; y.[1]] ++ le_bytes 2 (turned_chksum (le_word (field 2 2 y))).

Lemma turned_header_octets x chk src dest :
  length x = 20%nat →
  poke 10 (le_bytes 2 chk) (poke 10 (le_bytes 2 0) (poke 8 (le_bytes 1 ICMP_TTL) (poke 16 (le_bytes 4 dest) (poke 12 (le_bytes 4 src) x))))
    = turned_header_with chk x src dest ∧
  poke 10 (le_bytes 2 0) (poke 8 (le_bytes 1 ICMP_TTL) (poke 16 (le_bytes 4 dest) (poke 12 (le_bytes 4 src) x)))
    = turned_header_with 0 x src dest.
Proof.
  intros Hx. unfold turned_header_with. assert (length (le_bytes 4 src) = 4%nat) as H1 by done.
  assert (length (le_bytes 4 dest) = 4%nat) as H2 by done. assert (length (le_bytes 2 chk) = 2%nat) as H3 by done.
  set (y1 := le_bytes 4 src) in *. set (y2 := le_bytes 4 dest) in *. set (y3 := le_bytes 2 chk) in *. clearbody y1 y2 y3.
  do 5 (destruct y1 as [|? y1]; try done). do 5 (destruct y2 as [|? y2]; try done). do 3 (destruct y3 as [|? y3]; try done).
  do 21 (destruct x as [|? x]; try done).
Qed.
Lemma turned_echo_octets y :
  length y = 4%nat →
  poke 2 (le_bytes 2 (turned_chksum (le_word (field 2 2 y)))) (poke 0 (le_bytes 1 ICMP_ER) y) = turned_echo y ∧
  field 2 2 (poke 0 (le_bytes 1 ICMP_ER) y) = field 2 2 y.
Proof. intros Hy. unfold turned_echo. do 5 (destruct y as [|? y]; try done). Qed.

(** What changed in two places. *)
Definition changes2 (m m' : memory) (a hi e hi' : Z) : Prop := ∀ x, ¬ (a ≤ x < hi) → ¬ (e ≤ x < hi') → m' x = m x.

Lemma icmp_turn_runs s a e (Q : unit → stack B U → Prop) :
  let x := mem_read (mem s) a 20 in let y := mem_read (mem s) e 4 in
  a + 20 ≤ e →
  (∀ m, changes2 (mem s) m a (a + 20) e (e + 4) →
     mem_read m a 20 = turned_header x (current_iphdr_dest s) (current_iphdr_src s) → mem_read m e 4 = turned_echo y →
     Q tt (set_mem m s)) →
  runs (icmp_turn a e) s Q.
Proof.
  intros x y Hae HQ. unfold icmp_turn, store8, store16, store32. apply runs_bind, gets_runs. apply runs_bind, gets_runs.
  set (dest := current_iphdr_dest s) in *. set (src := current_iphdr_src s) in *. clearbody dest src.
  rewrite <-(set_mem_same s) at 1. unfold IPH_SRC, IPH_DEST, ICMPH_TYPE, ICMPH_CHKSUM, IPH_TTL, IPH_CHKSUM.
  do 3 (apply runs_bind, sk_store_runs). apply runs_bind, sk_load16_runs. rewrite mem_set_mem.
  assert (length x = 20%nat) as Hx by apply length_mem_read. assert (length y = 4%nat) as Hy by apply length_mem_read.
  set (m2 := mem_write (mem_write (mem s) (a + 12) _) (a + 16) _). set (m3 := mem_write m2 (e + 0) _).
  assert (changes (mem s) m2 a (a + 20)) as Hch2 by (unfold m2; repeat (apply changes_in; [|lia|rewrite length_le_bytes; lia]); done).
  assert (mem_read m3 e 4 = poke 0 (le_bytes 1 ICMP_ER) y) as Ey3.
  { unfold m3. rewrite mem_read_store by (done || (vm_compute; lia)). by rewrite (read_outside _ m2 e _ _ 4 Hch2) by lia. }
  destruct (turned_echo_octets y Hy) as [Ey Ec]. rewrite (load_field m3 e 2 2 _ 4 Ey3) by (done || (vm_compute; lia)).
  change (Z.to_nat 2) with 2%nat. rewrite Ec. set (c := le_word (field 2 2 y)) in *. apply runs_bind.
  assert (∀ Q, runs (on_pbufs (store_octets (e + 2) (le_bytes 2 (turned_chksum c)))) (set_mem m3 s) Q →
    runs (if PP_HTONS (0xffff - Z.shiftl ICMP_ECHO 8) <=? c
          then on_pbufs (store_octets (e + 2) (le_bytes 2 (c + (PP_HTONS (Z.shiftl ICMP_ECHO 8) + 1))))
          else on_pbufs (store_octets (e + 2) (le_bytes 2 (c + PP_HTONS (Z.shiftl ICMP_ECHO 8))))) (set_mem m3 s) Q) as Hif.
  { intros Q'. unfold turned_chksum. by destruct (_ <=? c). }
  apply Hif. clear Hif. apply sk_store_runs. set (m4 := mem_write m3 (e + 2) _).
  do 2 (apply runs_bind, sk_store_runs). apply runs_bind, sk_load_runs. rewrite mem_set_mem. change (Z.to_nat IP_HLEN) with 20%nat.
  set (m6 := mem_write (mem_write m4 (a + 8) _) (a + 10) _). apply sk_store_runs. set (chk := inet_chksum _).
  assert (mem_read m4 e 4 = turned_echo y) as Ey4.
  { unfold m4. rewrite (store_field m3 e 2 _ _ 4 Ey3) by (done || (vm_compute; lia)). exact Ey. }
  assert (changes m2 m4 e (e + 4)) as Hch4 by (unfold m4, m3; repeat (apply changes_in; [|lia|rewrite length_le_bytes; lia]); done).
  assert (mem_read m4 a 20 = poke 16 (le_bytes 4 src) (poke 12 (le_bytes 4 dest) x)) as Ex4.
  { rewrite (read_outside m2 m4 a e (e + 4) 20 Hch4) by lia. unfold m2. by rewrite !mem_read_store by (done || (vm_compute; lia)). }
  destruct (turned_header_octets x chk dest src Hx) as [E1 E0].
  assert (mem_read m6 a 20 = turned_header_with 0 x dest src) as E6.
  { unfold m6. rewrite !mem_read_store by (done || (vm_compute; lia)). rewrite Ex4. exact E0. }
  assert (changes m4 (mem_write m6 (a + 10) (le_bytes 2 chk)) a (a + 20)) as Hch7.
  { unfold m6. repeat (apply changes_in; [|lia|rewrite length_le_bytes; lia]). done. }
  apply HQ.
  - intros z Hz1 Hz2. rewrite (Hch7 z), (Hch4 z) by done. by apply Hch2.
  - rewrite mem_read_store by (done || (vm_compute; lia)). unfold m6. rewrite !mem_read_store by (done || (vm_compute; lia)).
    rewrite Ex4. etrans; [exact E1|]. unfold turned_header, chk. by rewrite E6.
  - by rewrite (read_outside _ _ e _ _ 4 Hch7) by lia.
Qed.

(** *** Room for the headers *)

Lemma moved_back n b : moved (- n) (moved n b) = b.
Proof. destruct b. unfold moved, with_tot_len, with_len, with_payload. cbn. f_equal; lia. Qed.

(** A message of the packet [q], [hlen] octets behind the header at [a]. *)
Record message ni R (H : gmultiset Z) s (q a hlen : Z) (head data : list Z) c k : Prop := {
  ms_ok : sk_ok ni R ({[+ q +]} ⊎ H) s;
  ms_packet : packet (pb_store (pbs s)) q ((q, c) :: k);
  ms_own : own_octets ((q, c) :: k);
  ms_exclusive : exclusive ((q, c) :: k);
  ms_rest : nonempty k;
  ms_room : has_room hlen q c;
  ms_len : 8 ≤ p_len c;
  ms_fits : total_len ((q, c) :: k) + hlen ≤ 64000;
  ms_at : a = p_payload c - hlen;
  ms_head : mem_read (mem s) a (Z.to_nat hlen) = head;
  ms_data : contents (mem s) ((q, c) :: k) = data }.

(** Only packets changed, and none that are held elsewhere. *)
Definition packets_only (H : gmultiset Z) s s' : Prop :=
  same_stack s s' ∧ sent s' = sent s ∧ kept_packets H (pb_store (pbs s)) (pb_store (pbs s')).
#[export] Instance packets_only_refl H : Reflexive (packets_only H).
Proof. intros s. done. Qed.
#[export] Instance packets_only_trans H : Transitive (packets_only H).
Proof. intros s1 s2 s3 (H1 & H2 & H3) (H4 & H5 & H6). split; [by etrans|]. split; [congruence|by etrans]. Qed.
Lemma packets_only_pbs H b s : kept_packets H (pb_store (pbs s)) (pb_store b) → packets_only H s (with_pbs b s).
Proof. intros Hk. split; [auto|]. split; [apply sent_pbs|]. by rewrite pbs_with. Qed.
Lemma packets_only_mem H m s : packets_only H s (set_mem m s).
Proof. by apply packets_only_pbs. Qed.
Lemma packets_only_tick H p c s : packets_only H s (tick p c s).
Proof. split; [auto|]. by split. Qed.
Lemma packets_only_subset H H' s s' : (∀ a, a ∈ H' → a ∈ H) → packets_only H s s' → packets_only H' s s'.
Proof. intros Hs (H1 & H2 & H3). split; [done|]. split; [done|]. by eapply kept_subset. Qed.

Lemma icmp_memerr_runs ni R H s p (Q : unit → stack B U → Prop) :
  sk_ok ni R ({[+ p +]} ⊎ H) s → (∀ s', sk_ok ni R H s' → packets_only H s s' → Q tt s') → runs (icmp_memerr p) s Q.
Proof.
  intros Hs HQ. unfold icmp_memerr. apply runs_bind. apply (sk_free_runs ni R H s p _ Hs). intros _ b Hb _ Hk _.
  apply modify_runs, HQ; [done|]. etrans; [by apply packets_only_pbs|apply packets_only_tick].
Qed.

(** A copy in one buffer. *)
Lemma sk_copy_runs ni R H s r c p l (Q : Z → stack B U → Prop) :
  sk_ok ni R H s → packet (pb_store (pbs s)) r [(r, c)] → packet (pb_store (pbs s)) p l → owns c → own_octets l → nonempty l →
  p_len c = total_len l → r ∉ l.*1 →
  (∀ m, contents m [(r, c)] = contents (mem s) l → Q ERR_OK (set_mem m s)) →
  runs (on_pbufs (pbuf_copy r p)) s Q.
Proof.
  intros Hs Hr Hp Hoc Hol Hne Hlen Hrl HQ. pose proof (lw_held _ _ _ _ Hs) as [(L & Hok & _) _].
  pose proof (pk_chain _ _ _ Hr) as (_ & _ & Hrc & _). pose proof (length_contents (mem s) _ (pk_lens _ _ _ Hp)) as Hcl.
  assert (0 < total_len l) as Hpos.
  { pose proof (pk_ne _ _ _ Hp). destruct l as [|[a b] l]; [done|]. apply Forall_cons in Hne as [Hb _].
    destruct (pk_lens _ _ _ Hp) as (_ & _ & Hl%lens_nonneg). cbn in *. lia. }
  destruct (pbuf_copy_ok (pbs s) r p [(r, c)] l Hr Hp) as (m & E & Em & _).
  - apply Forall_singleton. cbn. lia.
  - done.
  - cbn. lia.
  - by repeat constructor.
  - apply Forall_singleton. by apply (owns_clear _ L r c p l Hok Hrc Hoc (pk_chain _ _ _ Hp) Hol Hrl).
  - eapply on_pbufs_runs; [exact E|]. apply HQ. rewrite Em, drop_ge, app_nil_r; [done|].
    pose proof (length_contents (pb_data (pbs s)) _ (pk_lens _ _ _ Hr)) as Hcr. cbn [total_len snd] in Hcr. unfold mem in Hcl. lia.
Qed.

Lemma contents_moved m p b l n : 0 ≤ n → 0 ≤ p_len b →
  contents m ((p, moved n b) :: l) = mem_read m (p_payload b - n) (Z.to_nat n) ++ contents m ((p, b) :: l).
Proof.
  intros Hn Hb. cbn [contents]. unfold cell_data. cbn [snd moved with_tot_len with_len with_payload p_len p_payload].
  rewrite Z.add_comm, Z2Nat.inj_add, mem_read_app, <-app_assoc by lia. do 3 f_equal. rewrite Z2Nat.id by lia. lia.
Qed.

(** The copy [r] takes the place of [p]. *)
Lemma switch_runs ni R H s r c p hlen head data (Q : option (Z * Z) → stack B U → Prop) :
  sk_ok ni R ({[+ r +]} ⊎ ({[+ p +]} ⊎ H)) s → packet (pb_store (pbs s)) r [(r, c)] → p_ref c = 1 → p_type c = PBUF_RAM →
  r + SIZEOF_STRUCT_PBUF ≤ p_payload c → 20 ≤ hlen ≤ 60 → hlen + 8 ≤ p_len c ≤ 64000 →
  contents (mem s) [(r, c)] = head ++ data → length head = Z.to_nat hlen →
  (∀ s' c' k a, message ni R H s' r a hlen head data c' k → packets_only H s s' → Q (Some (r, a)) s') →
  runs (failed ← on_pbufs (pbuf_header r (- hlen));
        if negb (failed =? 0) then LWIP_ASSERT false;; icmp_memerr p;; mret None
        else on_pbufs (pbuf_free p);; mret (Some (r, p_payload c))) s Q.
Proof.
  intros Hs Hpk Hr Hty Hroom Hh Hlen Econ Hhl HQ. assert (total_len [(r, c)] = p_len c) as Et by (cbn; lia).
  apply runs_bind. apply (sk_move_runs ni R _ s r c [] (- hlen) _ Hs Hpk Hr); [lia|lia|lia| |].
  { intros []. intros ?. lia. }
  intros b1 s1 Ed Hs1 Hpk1 Hk1 _. cbn [negb Z.eqb]. set (d := moved (- hlen) c) in *. assert (pbs s1 = b1) as Eb1 by apply pbs_with.
  assert (moved hlen d = c) as Ec by (unfold d; rewrite <-(Z.opp_involutive hlen) at 1; apply moved_back).
  replace ({[+ r +]} ⊎ ({[+ p +]} ⊎ H)) with ({[+ p +]} ⊎ ({[+ r +]} ⊎ H)) in Hs1 by mset.
  apply runs_bind. apply (sk_free_runs ni R _ s1 p _ Hs1). intros _ b2 Hs2 Ed2 Hk2 Hsame. set (s2 := with_pbs b2 s1) in *.
  assert (pbs s2 = b2) as Eb2 by apply pbs_with. assert (mem s2 = mem s) as Em2 by (unfold mem; by rewrite Eb2, Ed2, Eb1, Ed).
  assert (exclusive [(r, d)]) as Hx by by apply Forall_singleton.
  rewrite Eb1 in Hk2, Hsame. rewrite <-Ec, contents_moved in Econ by (cbn; lia). apply app_inj_1 in Econ as [Eh Edata]; [|by rewrite length_mem_read].
  apply (HQ s2 d []).
  - split; try done.
    + rewrite Eb2. destruct Hpk1 as [Hc Hl Hu Hn]. split; [|done..]. apply (Hsame r); [held_in|done|done].
    + apply Forall_singleton. by left.
    + constructor.
    + intros _. split; [by left|]. cbn. lia.
    + cbn. lia.
    + cbn. lia.
    + cbn. lia.
    + rewrite Em2, <-Eh. f_equal. cbn. lia.
    + by rewrite Em2.
  - etrans; [apply packets_only_pbs; eapply kept_subset, Hk1; held_in|]. fold s1.
    apply packets_only_pbs. rewrite Eb1. eapply kept_subset, Hk2. held_in.
Qed.

(** The copy, and the original given up. *)
Lemma copied_room_runs ni R H s p b l hlen head data (Q : option (Z * Z) → stack B U → Prop) :
  message ni R H s p (p_payload b - hlen) hlen head data b l → 20 ≤ hlen ≤ 60 →
  (∀ s', sk_ok ni R H s' → packets_only H s s' → Q None s') →
  (∀ s' q c k a, message ni R H s' q a hlen head data c k → packets_only H s s' → Q (Some (q, a)) s') →
  runs (failed ← on_pbufs (pbuf_header p hlen);
        if negb (failed =? 0) then LWIP_ASSERT false;; icmp_memerr p;; mret None
        else
          b ← on_pbufs (get_pbuf p);
          r ← on_pbufs (pbuf_alloc PBUF_LINK (p_tot_len b) PBUF_RAM);
          if r =? 0 then icmp_memerr p;; mret None
          else
            c ← on_pbufs (get_pbuf r);
            LWIP_ASSERT (hlen + SIZEOF_ICMP_ECHO_HDR <=? p_len c);;
            err ← on_pbufs (pbuf_copy r p);
            if negb (err =? ERR_OK) then LWIP_ASSERT false;; icmp_memerr p;; mret None
            else
              let iphdr := p_payload c in
              failed ← on_pbufs (pbuf_header r (- hlen));
              if negb (failed =? 0) then LWIP_ASSERT false;; icmp_memerr p;; mret None
              else on_pbufs (pbuf_free p);; mret (Some (r, iphdr))) s Q.
Proof.
  intros [Hs Hpk Ho Hx Hne Hroom Hlen Hfit _ Hhead Hdata] Hh Hnone Hsome.
  pose proof Hx as [Hr _]%Forall_cons. cbn [snd] in Hr. destruct (pk_lens _ _ _ Hpk) as (_ & Etot & Hl). pose proof (lens_nonneg _ Hl) as Hl0.
  cbn [total_len snd] in Hfit. apply runs_bind.
  apply (sk_move_runs ni R H s p b l hlen _ Hs Hpk Hr); [lia|lia|cbn [total_len snd]; lia|done|].
  intros b1 s1 Ed1 Hs1 Hpk1 Hk1 _. cbn [negb Z.eqb]. assert (pbs s1 = b1) as Eb1 by apply pbs_with.
  pose proof (pk_chain _ _ _ Hpk1) as (_ & _ & Hb1 & _). apply runs_bind. eapply sk_get_pbuf_runs; [by rewrite Eb1|].
  assert (p_tot_len (moved hlen b) = p_len b + total_len l + hlen) as Et by (cbn; lia).
  assert (packets_only H s s1) as Hp1 by by apply packets_only_pbs.
  assert (contents (mem s1) ((p, moved hlen b) :: l) = head ++ data) as Econ1.
  { unfold mem. rewrite Eb1, Ed1. fold (mem s). by rewrite contents_moved, Hhead, Hdata by lia. }
  rewrite Et. set (n := p_len b + total_len l + hlen) in *. pose proof (align_size_bounds n) as Hal.
  apply runs_bind. apply (sk_alloc_runs ni R _ s1 PBUF_LINK n _ Hs1); [unfold is_u16; lia| | |].
  { change (LWIP_MEM_ALIGN_SIZE (SIZEOF_STRUCT_PBUF + header_offset PBUF_LINK)) with 32. lia. }
  { intros b2 Hs2 _ Hk2. apply runs_bind. apply (icmp_memerr_runs ni R H _ p _ Hs2). intros s3 Hs3 Hp3. apply Hnone; [done|].
    etrans; [exact Hp1|]. etrans; [|exact Hp3]. apply packets_only_pbs. eapply kept_subset, Hk2. held_in. }
  intros r c b2 Hr0 Hs2 Ed2 Hpkr Hrc Hty Hclen Hroom2 Hk2 Hfresh. rewrite (proj2 (Z.eqb_neq r 0)) by done.
  set (s2 := with_pbs b2 s1) in *. assert (pbs s2 = b2) as Eb2 by apply pbs_with. assert (mem s2 = mem s1) as Em2 by (unfold mem at 1; by rewrite Eb2).
  pose proof (pk_chain _ _ _ Hpkr) as (_ & _ & Hcr & _).
  apply runs_bind. eapply sk_get_pbuf_runs; [by rewrite Eb2|]. apply runs_bind, sk_assert_ok.
  { apply Z.leb_le. unfold SIZEOF_ICMP_ECHO_HDR. lia. }
  rewrite Eb1 in Hk2, Hfresh. destruct (packet_kept _ _ _ p _ Hk2 ltac:(held_in) Hpk1) as (l2 & Hpk2 & El2).
  assert (own_octets l2 ∧ nonempty l2) as [Ho2 Hne2].
  { split; [apply owns_bares with ((p, moved hlen b) :: l); [done|by apply Forall_cons in Ho as [? ?]; constructor]|].
    apply (nonempty_bares ((p, moved hlen b) :: l) l2); [done|]. apply Forall_cons. split; [cbn; lia|done]. }
  destruct (bares_packet l2 _ (mem s2) El2) as (Et2 & _ & Ec2).
  apply runs_bind. apply (sk_copy_runs ni R _ s2 r c p l2 _ Hs2); try (by rewrite Eb2); try done; [by left| | |].
  { rewrite Et2. cbn [total_len snd]. cbn. lia. }
  { rewrite (bares_fst _ _ El2). intros ([r' x] & -> & Hin)%list_elem_of_fmap. cbn [fst] in Hfresh.
    by rewrite (chain_lookup _ _ _ _ _ (pk_chain _ _ _ Hpk1) Hin) in Hfresh. }
  intros m Em. rewrite Ec2, Em2, Econ1 in Em. cbn [negb Z.eqb ERR_OK]. set (s3 := set_mem m s2).
  apply (switch_runs ni R H s3 r c p hlen head data); try done.
  - by apply sk_ok_mem.
  - unfold s3. by rewrite store_set_mem, Eb2.
  - change (header_offset PBUF_LINK) with 14 in Hroom2. lia.
  - lia.
  - unfold s3. by rewrite mem_set_mem.
  - rewrite <-Hhead. apply length_mem_read.
  - intros s' c' k a Hm Hp. eapply Hsome; [exact Hm|]. etrans; [exact Hp1|]. etrans; [|exact Hp].
    etrans; [|apply packets_only_mem]. apply packets_only_pbs. rewrite Eb1. eapply kept_subset, Hk2. held_in.
Qed.

Lemma icmp_make_room_runs ni R H s p b l hlen head data (Q : option (Z * Z) → stack B U → Prop) :
  message ni R H s p (p_payload b - hlen) hlen head data b l → 20 ≤ hlen ≤ 60 →
  (∀ s', ¬ has_room 34 p b → sk_ok ni R H s' → packets_only H s s' → Q None s') →
  (∀ s' q c k a, message ni R H s' q a hlen head data c k → packets_only H s s' → Q (Some (q, a)) s') →
  runs (icmp_make_room p (p_payload b - hlen) hlen) s Q.
Proof.
  intros Hm Hh Hnone Hsome. pose proof Hm as [Hs Hpk Ho Hx Hne Hroom Hlen Hfit _ Hhead Hdata].
  pose proof Hx as [Hr _]%Forall_cons. cbn [snd] in Hr. unfold icmp_make_room. change (PBUF_IP_HLEN + PBUF_LINK_HLEN) with 34.
  apply runs_bind. apply (sk_move_runs ni R H s p b l 34 _ Hs Hpk Hr); [done|lia|lia| |].
  { intros Hno. cbn [negb Z.eqb]. apply (copied_room_runs ni R H s p b l hlen head data); auto. }
  intros b1 s1 Ed1 Hs1 Hpk1 Hk1 _. cbn [negb Z.eqb]. assert (pbs s1 = b1) as Eb1 by apply pbs_with.
  apply runs_bind. apply (sk_move_runs ni R H s1 p (moved 34 b) l (- 34) _ Hs1); [by rewrite Eb1|done|done|cbn; lia| | |].
  { pose proof (pk_u16 _ _ _ Hpk1). lia. }
  { intros []. intros ?. lia. }
  intros b2 s2 Ed2 Hs2 Hpk2 Hk2 _. cbn [negb Z.eqb]. change (moved (-34) (moved 34 b)) with (moved (Z.opp 34) (moved 34 b)) in Hpk2. rewrite moved_back in Hpk2. rewrite Eb1 in Ed2, Hk2.
  assert (pbs s2 = b2) as Eb2 by apply pbs_with. assert (mem s2 = mem s) as Em2 by (unfold mem; by rewrite Eb2, Ed2, Ed1).
  apply (Hsome s2 p b l).
  - split; try done; [by rewrite Eb2|by rewrite Em2|by rewrite Em2].
  - etrans; [by apply packets_only_pbs|]. apply packets_only_pbs. by rewrite Eb1.
Qed.

(** *** Sending the reply *)

Definition reply_packet (head data : list Z) (src dest : Z) : list Z :=
  turned_header (take 20 head) dest src ++ drop 20 head ++ turned_echo (take 4 data) ++ drop 4 data.

Lemma reply_contents m m' q c k hlen head data src dest :
  let a := p_payload c - hlen in
  20 ≤ hlen → 8 ≤ p_len c → clear_of a (a + hlen + p_len c) k →
  mem_read m a (Z.to_nat hlen) = head → contents m ((q, c) :: k) = data →
  changes2 m m' a (a + 20) (a + hlen) (a + hlen + 4) →
  mem_read m' a 20 = turned_header (mem_read m a 20) dest src → mem_read m' (a + hlen) 4 = turned_echo (mem_read m (a + hlen) 4) →
  contents m' ((q, moved hlen c) :: k) = reply_packet head data src dest.
Proof.
  intros a Hh Hlen Hcl Hhead Hdata Hch H20 H4. assert (a + hlen = p_payload c) as Ea by lia.
  assert (changes m m' (p_payload (moved hlen c)) (p_payload (moved hlen c) + Z.of_nat (Z.to_nat (hlen + 4)))) as Hch1.
  { intros x Hx. cbn in Hx. apply Hch; lia. }
  rewrite (rewritten_contents (Z.to_nat (hlen + 4)) m m' q (moved hlen c) k (mem_read m' a (Z.to_nat (hlen + 4))) Hch1); [|cbn; lia| |reflexivity].
  2:{ eapply clear_of_sub, Hcl; cbn; lia. }
  replace (Z.to_nat (hlen + 4)) with (20 + (Z.to_nat hlen - 20) + 4)%nat by lia. change (p_payload (moved hlen c)) with a.
  rewrite contents_moved, Hdata by lia. fold a. rewrite Hhead, !mem_read_app, H20.
  assert (length head = Z.to_nat hlen) as Hhl by (rewrite <-Hhead; apply length_mem_read).
  replace (a + Z.of_nat (20 + (Z.to_nat hlen - 20))) with (a + hlen) by lia. rewrite H4, Ea. unfold reply_packet.
  assert (mem_read m a 20 = take 20 head) as -> by (rewrite <-Hhead, mem_read_take by lia; done).
  assert (mem_read m (p_payload c) 4 = take 4 data) as ->.
  { rewrite <-Hdata. cbn [contents]. unfold cell_data. cbn [snd]. rewrite take_app_le, mem_read_take by (rewrite ?length_mem_read; lia). done. }
  assert (mem_read m' (a + Z.of_nat 20) (Z.to_nat hlen - 20) = drop 20 head) as ->.
  { rewrite <-Hhead, mem_read_drop by lia. apply mem_read_ext. intros x Hx. apply Hch; lia. }
  rewrite <-!app_assoc. do 3 f_equal. rewrite drop_app_ge by lia. f_equal. lia.
Qed.

(** A packet that comes with its header. *)
Lemma send_headed_runs ni R H s q b l src x (Q : Z → stack B U → Prop) :
  sk_ok ni R ({[+ q +]} ⊎ H) s → packet (pb_store (pbs s)) q ((q, b) :: l) → own_octets ((q, b) :: l) → nonempty ((q, b) :: l) →
  p_ref b = 1 → fits ni (total_len ((q, b) :: l)) → mem_read (mem s) (p_payload b) 20 = x →
  (∀ r s', sk_ok ni R ({[+ q +]} ⊎ H) s' → same_stack s s' → sent s' = sent s ++ [(ip_dest x, contents (mem s) ((q, b) :: l))] →
     kept_packets H (pb_store (pbs s)) (pb_store (pbs s')) → Q r s') →
  runs (ip_output_if q src None ICMP_TTL 0 IP_PROTO_ICMP ni) s Q.
Proof.
  intros Hs Hpk Ho Hne Hr [Hmtu Hfit] Hx HQ. pose proof (pk_chain _ _ _ Hpk) as (_ & _ & Hb & _).
  destruct (pk_lens _ _ _ Hpk) as (_ & Etot & _). unfold ip_output_if. apply runs_bind. eapply sk_get_pbuf_runs; [exact Hb|].
  apply runs_bind, sk_assert_ok; [by rewrite Hr|]. apply runs_bind, sk_load32_runs.
  rewrite (load_field (mem s) (p_payload b) IPH_DEST 4 x 20 Hx) by (done || (vm_compute; lia)). fold (ip_dest x).
  unfold runs. rewrite (send_packet_leads q b) by done. change (runs (transmit q (ip_dest x) (p_tot_len b) ni) (tick P_ip c_xmit s) Q).
  unfold transmit. rewrite Etot. change (p_len b + total_len l) with (total_len ((q, b) :: l)).
  replace (negb (ni_mtu ni =? 0) && (ni_mtu ni <? total_len ((q, b) :: l))) with false
    by (symmetry; apply andb_false_iff; destruct Hmtu as [-> |]; [by left|right; by apply Z.ltb_ge]).
  apply (sk_output_runs ni R H (tick P_ip c_xmit s) q b l); try done.
  intros r b' Hb' Hsent Hk. apply HQ; [done| |done|done]. etrans; [|apply same_stack_low]. auto.
Qed.

Lemma ip_dest_turned chk x src dest : length x = 20%nat → is_u32 dest → ip_dest (turned_header_with chk x src dest) = dest.
Proof.
  intros Hx Hd. unfold ip_dest. assert (field 16 4 (turned_header_with chk x src dest) = le_bytes 4 dest) as ->.
  { unfold turned_header_with. do 21 (destruct x as [|? x]; try done). }
  rewrite le_word_bytes. by apply Z.mod_small.
Qed.

Lemma reply_sent_runs ni R H s q a hlen head data c k (Q : unit → stack B U → Prop) :
  message ni R H s q a hlen head data c k → 20 ≤ hlen ≤ 60 → fits ni (total_len ((q, c) :: k) + hlen) →
  is_u32 (current_iphdr_src s) →
  let src := current_iphdr_src s in let dest := current_iphdr_dest s in
  (∀ s', sk_ok ni R H s' → same_stack s s' → sent s' = sent s ++ [(src, reply_packet head data src dest)] →
     kept_packets H (pb_store (pbs s)) (pb_store (pbs s')) → Q tt s') →
  runs (b ← on_pbufs (get_pbuf q);
        icmp_turn a (p_payload b);;
        ICMP_STATS_INC c_xmit;;
        failed ← on_pbufs (pbuf_header q hlen);
        (if negb (failed =? 0) then LWIP_ASSERT false
         else
           dest ← gets current_iphdr_dest;
           ip_output_if q dest None ICMP_TTL 0 IP_PROTO_ICMP ni;;
           mret tt);;
        on_pbufs (pbuf_free q);;
        mret tt) s Q.
Proof.
  intros [Hs Hpk Ho Hx Hne Hroom Hlen Hfit Ea Hhead Hdata] Hh Hmtu Hsrc src dest HQ.
  pose proof Hx as [Hr _]%Forall_cons. cbn [snd] in Hr. pose proof (pk_chain _ _ _ Hpk) as (_ & _ & Hc & _).
  apply runs_bind. eapply sk_get_pbuf_runs; [exact Hc|]. apply runs_bind. apply icmp_turn_runs; [lia|]. fold src dest.
  replace (p_payload c) with (a + hlen) by lia. intros m Hch H20 H4. apply runs_bind, modify_runs.
  set (s1 := tick P_icmp c_xmit (set_mem m s)). assert (sk_ok ni R ({[+ q +]} ⊎ H) s1) as Hs1 by by apply (sk_ok_mem ni R _ s).
  assert (pb_store (pbs s1) = pb_store (pbs s)) as Est by apply store_set_mem. assert (mem s1 = m) as Em1 by apply mem_set_mem.
  apply runs_bind. apply (sk_move_runs ni R H s1 q c k hlen _ Hs1); [by rewrite Est|done|lia|lia|lia|done|].
  intros b2 s2 Ed2 Hs2 Hpk2 Hk2 _. cbn [negb Z.eqb]. assert (pbs s2 = b2) as Eb2 by apply pbs_with.
  assert (mem s2 = m) as Em2 by (unfold mem; by rewrite Eb2, Ed2, <-Em1).
  assert (own_octets ((q, moved hlen c) :: k)) as Ho2 by (by apply Forall_cons in Ho as [? ?]; constructor).
  assert (contents m ((q, moved hlen c) :: k) = reply_packet head data src dest) as Econ.
  { subst a. eapply reply_contents; try done; try lia. pose proof (lw_held _ _ _ _ Hs2) as Hh2. fold (pbs s2) in Hh2. rewrite Eb2 in Hh2.
    eapply clear_of_sub, (rewritten_clear _ _ _ _ _ _ Hh2 Hpk2 Ho2); cbn; lia. }
  apply runs_bind, runs_bind, gets_runs. apply runs_bind.
  apply (send_headed_runs ni R H s2 q (moved hlen c) k _ (turned_header (mem_read (mem s) a 20) dest src)); try done.
  - by rewrite Eb2.
  - apply Forall_cons. split; [cbn; lia|done].
  - destruct Hmtu as [Hm1 Hm2]. cbn [total_len snd] in *. split; cbn; lia.
  - rewrite Em2. change (p_payload (moved hlen c)) with (p_payload c - hlen). by rewrite <-Ea.
  - intros r s3 Hs3 Hsame Hsent Hk3. unfold turned_header in Hsent. rewrite ip_dest_turned in Hsent by (done || apply length_mem_read).
    rewrite Em2, Econ in Hsent. apply runs_bind. apply (sk_free_runs ni R H s3 q _ Hs3). intros _ b4 Hs4 _ Hk4 _. apply HQ.
    + done.
    + etrans; [|apply same_stack_pbs]. etrans; [|exact Hsame]. etrans; [|apply same_stack_pbs]. etrans; [|apply same_stack_tick].
      apply same_stack_pbs.
    + rewrite sent_pbs, Hsent. unfold s2. rewrite sent_pbs. change (sent s1) with (sent (set_mem m s)). by rewrite sent_mem.
    + rewrite pbs_with. rewrite Est in Hk2. rewrite Eb2 in Hk3. by do 2 (etrans; [eassumption|]).
Qed.

(** *** Input *)

(** An echo request to this host alone that checks. *)
Definition echo_due (ni : netif) (dest : Z) (data : list Z) : Prop :=
  (8 ≤ length data)%nat ∧ data.[0] = ICMP_ECHO ∧ ip_addr_ismulticast dest = false ∧ ip_addr_isbroadcast dest ni = false ∧
  inet_chksum data = 0.
#[export] Instance echo_due_dec ni dest data : Decision (echo_due ni dest data).
Proof. unfold echo_due. apply _. Defined.

(** What is sent for the message [data]; [sure] when no memory is needed. *)
Definition icmp_answer (ni : netif) (head data : list Z) (sure : Prop) s s' : Prop :=
  let src := current_iphdr_src s in let dest := current_iphdr_dest s in
  if decide (echo_due ni dest data) then
    sent s' = sent s ++ [(src, reply_packet head data src dest)] ∨ (¬ sure ∧ sent s' = sent s)
  else sent s' = sent s.
Definition icmp_done ni R (H : gmultiset Z) (head data : list Z) (sure : Prop) s s' : Prop :=
  sk_ok ni R H s' ∧ same_stack s s' ∧ kept_packets H (pb_store (pbs s)) (pb_store (pbs s')) ∧ icmp_answer ni head data sure s s'.

Lemma icmp_quiet_done ni R H head data sure s s' :
  sk_ok ni R H s' → packets_only H s s' → ¬ echo_due ni (current_iphdr_dest s) data → icmp_done ni R H head data sure s s'.
Proof.
  intros Hs (Hsame & Hsent & Hk) Hno. split; [done|]. split; [done|]. split; [done|]. unfold icmp_answer. by rewrite decide_False.
Qed.

Lemma sk_give_up_runs ni R H s p (Q : unit → stack B U → Prop) :
  sk_ok ni R ({[+ p +]} ⊎ H) s → (∀ s', sk_ok ni R H s' → packets_only H s s' → Q tt s') →
  runs (on_pbufs (pbuf_free p);; mret tt) s Q.
Proof.
  intros Hs HQ. apply runs_bind. apply (sk_free_runs ni R H s p _ Hs). intros _ b Hb _ Hk _. apply HQ; [done|by apply packets_only_pbs].
Qed.
Lemma icmp_counted_runs ni R H s p x (Q : unit → stack B U → Prop) :
  sk_ok ni R ({[+ p +]} ⊎ H) s → (∀ s', sk_ok ni R H s' → packets_only H s s' → Q tt s') →
  runs (on_pbufs (pbuf_free p);; ICMP_STATS_INC x) s Q.
Proof.
  intros Hs HQ. apply runs_bind. apply (sk_free_runs ni R H s p _ Hs). intros _ b Hb _ Hk _.
  apply modify_runs, HQ; [done|]. etrans; [by apply packets_only_pbs|apply packets_only_tick].
Qed.

Lemma icmp_echo_runs ni R H s p b l hlen head data :
  sk_ok ni R ({[+ p +]} ⊎ H) s → packet (pb_store (pbs s)) p ((p, b) :: l) → own_octets ((p, b) :: l) →
  exclusive ((p, b) :: l) → nonempty l → has_room hlen p b → 20 ≤ hlen ≤ 60 → l = [] ∨ 8 ≤ p_len b →
  fits ni (total_len ((p, b) :: l) + hlen) → is_u32 (current_iphdr_src s) →
  mem_read (mem s) (p_payload b - hlen) (Z.to_nat hlen) = head → contents (mem s) ((p, b) :: l) = data →
  bytes_ok data → data.[0] = ICMP_ECHO →
  runs (icmp_echo p (p_payload b - hlen) hlen ni) s (λ _ s', icmp_done ni R H head data (has_room 34 p b) s s').
Proof.
  intros Hs Hpk Ho Hx Hne Hroom Hh Hfirst Hfit Hsrc Hhead Hdata Hb Htype. unfold icmp_echo. apply runs_bind, gets_runs.
  pose proof (pk_chain _ _ _ Hpk) as (_ & _ & Hpb & _). destruct (pk_lens _ _ _ Hpk) as (_ & Etot & _).
  pose proof (length_contents (mem s) _ (pk_lens _ _ _ Hpk)) as Hlen. rewrite Hdata in Hlen.
  destruct (ip_addr_ismulticast _ || ip_addr_isbroadcast _ _) eqn:Ecast.
  { apply runs_bind, modify_runs. apply (sk_give_up_runs ni R H (tick P_icmp c_err s) p _ Hs). intros s' Hs' Hp. apply icmp_quiet_done; [done|exact Hp|].
    intros (_ & _ & E1 & E2 & _). by rewrite E1, E2 in Ecast. }
  apply orb_false_iff in Ecast as [Emc Ebc]. apply runs_bind. eapply sk_get_pbuf_runs; [exact Hpb|].
  rewrite Etot. change (p_len b + total_len l) with (total_len ((p, b) :: l)). destruct (Z.ltb_spec (total_len ((p, b) :: l)) SIZEOF_ICMP_ECHO_HDR) as [Hshort|Hlong].
  { apply (icmp_counted_runs ni R H s p _ _ Hs). intros s' Hs' Hp. apply icmp_quiet_done; [done..|].
    intros (Hl & _). unfold SIZEOF_ICMP_ECHO_HDR in Hshort. lia. }
  apply runs_bind. eapply on_pbufs_keep; [apply (chksum_pbuf_ok _ p _ Hpk); fold (mem s); by rewrite Hdata|]. fold (mem s). rewrite Hdata.
  destruct (Z.eqb_spec (inet_chksum data) 0) as [Hchk|Hchk]; cbn [negb].
  2:{ apply (icmp_counted_runs ni R H s p _ _ Hs). intros s' Hs' Hp. apply icmp_quiet_done; [done..|]. by intros (_ & _ & _ & _ & ?). }
  unfold SIZEOF_ICMP_ECHO_HDR in Hlong. destruct Hfit as [Hmtu Hfit].
  assert (echo_due ni (current_iphdr_dest s) data) as Hdue by (split; [lia|done]).
  assert (8 ≤ p_len b) as Hl8 by (destruct Hfirst as [-> |]; [cbn in Hlong; lia|done]).
  apply runs_bind. apply (icmp_make_room_runs ni R H s p b l hlen head data); [by split|done| |].
  { intros s' Hno Hs' (Hsame & Hsent & Hk). split; [done|]. split; [done|]. split; [done|]. unfold icmp_answer. rewrite decide_True by done. by right. }
  intros s1 q c k a Hm (Hsame & Hsent & Hk). pose proof (ms_data _ _ _ _ _ _ _ _ _ _ _ Hm) as Hd1.
  assert (total_len ((q, c) :: k) = total_len ((p, b) :: l)) as Etl.
  { pose proof (length_contents (mem s1) _ (pk_lens _ _ _ (ms_packet _ _ _ _ _ _ _ _ _ _ _ Hm))) as Hl1. rewrite Hd1 in Hl1. lia. }
  destruct Hsame as (x & f & i & Es1). 
  assert (current_iphdr_src s1 = current_iphdr_src s ∧ current_iphdr_dest s1 = current_iphdr_dest s) as [E1 E2] by by rewrite Es1.
  apply (reply_sent_runs ni R H s1 q a hlen head data c k _ Hm Hh); [split; [by rewrite Etl|lia]|by rewrite E1|]. rewrite E1, E2.
  intros s2 Hs2 Hsame2 Hsent2 Hk2. split; [done|]. split; [etrans; [by exists x, f, i|done]|]. split; [by etrans|].
  unfold icmp_answer. rewrite decide_True by done. left. congruence.
Qed.

(** The header and the rest of a packet. *)
Lemma contents_behind m p b l n :
  0 ≤ n ≤ p_len b → contents m ((p, b) :: l) = mem_read m (p_payload b) (Z.to_nat n) ++ contents m ((p, moved (- n) b) :: l).
Proof.
  intros Hn. assert (moved n (moved (- n) b) = b) as E by (rewrite <-(Z.opp_involutive n) at 1; apply moved_back).
  rewrite <-E at 1. rewrite contents_moved by (cbn; lia). do 2 f_equal. cbn. lia.
Qed.

Lemma packets_only_addresses H s s' :
  packets_only H s s' → current_iphdr_src s' = current_iphdr_src s ∧ current_iphdr_dest s' = current_iphdr_dest s.
Proof. by intros ((b & f & i & ->) & _). Qed.
Lemma icmp_done_from ni R H head data sure s s1 s' :
  packets_only H s s1 → icmp_done ni R H head data sure s1 s' → icmp_done ni R H head data sure s s'.
Proof.
  intros Hp (Hs & Hsame & Hk & Ha). destruct (packets_only_addresses _ _ _ Hp) as [E1 E2]. destruct Hp as (Hsame1 & Hsent & Hk1).
  split; [done|]. split; [by etrans|]. split; [by etrans|]. unfold icmp_answer in *. by rewrite E1, E2, Hsent in Ha.
Qed.

(** The message behind the header. *)
Lemma icmp_message_runs ni R H s p c l hlen head data :
  sk_ok ni R ({[+ p +]} ⊎ H) s → packet (pb_store (pbs s)) p ((p, c) :: l) → own_octets ((p, c) :: l) →
  exclusive ((p, c) :: l) → nonempty l → has_room hlen p c → 20 ≤ hlen ≤ 60 → l = [] ∨ 8 ≤ p_len c →
  fits ni (total_len ((p, c) :: l) + hlen) → is_u32 (current_iphdr_src s) →
  mem_read (mem s) (p_payload c - hlen) (Z.to_nat hlen) = head → contents (mem s) ((p, c) :: l) = data → bytes_ok data →
  runs (b ← on_pbufs (get_pbuf p);
        if p_tot_len b <? 4 then icmp_lenerr p
        else
          type ← on_pbufs (load8 (p_payload b));
          if type =? ICMP_ER then on_pbufs (pbuf_free p);; mret tt
          else if type =? ICMP_ECHO then icmp_echo p (p_payload c - hlen) hlen ni
          else
            ICMP_STATS_INC c_proterr;;
            ICMP_STATS_INC c_drop;;
            on_pbufs (pbuf_free p);;
            mret tt) s (λ _ s', icmp_done ni R H head data (has_room 34 p c) s s').
Proof.
  intros Hs Hpk Ho Hx Hne Hroom Hh Hfirst Hfit Hsrc Hhead Hdata Hb. pose proof (pk_chain _ _ _ Hpk) as (_ & _ & Hpb & _).
  pose proof (length_contents (mem s) _ (pk_lens _ _ _ Hpk)) as Hlen. rewrite Hdata in Hlen.
  destruct (pk_lens _ _ _ Hpk) as (_ & Etot & _). apply runs_bind. eapply sk_get_pbuf_runs; [exact Hpb|].
  rewrite Etot. change (p_len c + total_len l) with (total_len ((p, c) :: l)).
  destruct (Z.ltb_spec (total_len ((p, c) :: l)) 4) as [Hshort|Hlong].
  { apply (icmp_counted_runs ni R H s p _ _ Hs). intros s' Hs' Hp'. apply icmp_quiet_done; [done..|]. intros (? & _). lia. }
  assert (1 ≤ p_len c) as Hc1 by (destruct Hfirst as [-> |]; [cbn in Hlong|]; lia).
  apply runs_bind, sk_load8_runs. assert (mem_read (mem s) (p_payload c) 1 = [data.[0]]) as ->.
  { rewrite <-Hdata. cbn [contents]. unfold cell_data. cbn [snd]. replace (Z.to_nat (p_len c)) with (1 + (Z.to_nat (p_len c) - 1))%nat by lia.
    by rewrite mem_read_app. }
  rewrite le_word_cons. change (le_word []) with 0. rewrite Z.mul_0_r, Z.add_0_r.
  destruct (Z.eqb_spec (data.[0]) ICMP_ER) as [E|Hner].
  { apply (sk_give_up_runs ni R H s p _ Hs). intros s' Hs' Hp'. apply icmp_quiet_done; [done..|]. intros (_ & E' & _). by rewrite E in E'. }
  destruct (Z.eqb_spec (data.[0]) ICMP_ECHO) as [E|Hne']; [by apply icmp_echo_runs with l|].
  apply runs_bind, modify_runs. apply runs_bind, modify_runs.
  apply (sk_give_up_runs ni R H (tick P_icmp c_drop (tick P_icmp c_proterr s)) p _ Hs).
  intros s' Hs' Hp'. apply icmp_quiet_done; [done|exact Hp'|]. by intros (_ & E' & _).
Qed.

Lemma icmp_input_runs ni R H s p b l x :
  mem_read (mem s) (p_payload b) 64 = x → let hlen := ip_hlen x in let data := contents (mem s) ((p, b) :: l) in
  sk_ok ni R ({[+ p +]} ⊎ H) s → packet (pb_store (pbs s)) p ((p, b) :: l) → own_octets ((p, b) :: l) →
  exclusive ((p, b) :: l) → nonempty l → p + SIZEOF_STRUCT_PBUF ≤ p_payload b → 20 ≤ hlen ≤ p_len b → l = [] ∨ hlen + 8 ≤ p_len b →
  fits ni (total_len ((p, b) :: l)) → is_u32 (current_iphdr_src s) → bytes_ok x → bytes_ok data →
  runs (icmp_input p ni) s (λ _ s', icmp_done ni R H (take (Z.to_nat hlen) data) (drop (Z.to_nat hlen) data)
    (has_room 34 p (moved (- hlen) b)) s s').
Proof.
  intros Hx hlen data Hs Hpk Ho Hxc Hne Hat Hh Hfirst Hfit Hsrc Hbx Hb. pose proof (hlen_bounds x) as H60. fold hlen in H60.
  pose proof (pk_chain _ _ _ Hpk) as (_ & _ & Hpb & _). pose proof Hxc as [Hr Hxl]%Forall_cons. cbn [snd] in Hr.
  unfold icmp_input. apply runs_bind, modify_runs. set (s0 := tick P_icmp c_recv s). apply runs_bind.
  eapply sk_get_pbuf_runs; [exact Hpb|]. cbv zeta. apply runs_bind, sk_load16_runs. rewrite (load_at s0 _ x) by (done || (vm_compute; lia)).
  change (Z.to_nat IPH_VHLTOS) with 0%nat. rewrite hlen_test by (done || rewrite <-Hx, length_mem_read; lia). fold hlen.
  apply runs_bind. apply (sk_move_runs ni R H s0 p b l (- hlen) _ Hs Hpk Hr); [lia|lia|pose proof (pk_u16 _ _ _ Hpk); lia| |].
  { intros []. intros ?. lia. }
  intros b1 s1 Ed Hs1 Hpk1 Hk1 _. cbn [negb Z.eqb]. set (c := moved (- hlen) b) in *. assert (pbs s1 = b1) as Eb1 by apply pbs_with.
  assert (mem s1 = mem s) as Em1 by (unfold mem at 1; by rewrite Eb1, Ed).
  assert (packets_only H s s1) as Hp1 by (etrans; [apply packets_only_tick|by apply packets_only_pbs]).
  pose proof (contents_behind (mem s) p b l hlen ltac:(lia)) as Econ. fold c data in Econ.
  rewrite Econ, take_app_length', drop_app_length' by (by rewrite length_mem_read).
  assert (p_payload b = p_payload c - hlen) as Epl by (cbn; lia). rewrite Epl. destruct (packets_only_addresses _ _ _ Hp1) as [Esrc _].
  eapply runs_mono, (icmp_message_runs ni R H s1 p c l hlen (mem_read (mem s) (p_payload c - hlen) (Z.to_nat hlen)) (contents (mem s) ((p, c) :: l))).
  - intros u s' Hd. exact (icmp_done_from _ _ _ _ _ _ _ _ _ Hp1 Hd).
  - done.
  - by rewrite Eb1.
  - by apply Forall_cons in Ho as [? ?]; constructor.
  - by constructor.
  - done.
  - intros _. apply Forall_cons in Ho as [Hob _]. split; [exact Hob|]. cbn. lia.
  - lia.
  - destruct Hfirst; [by left|right; cbn; lia].
  - destruct Hfit as [Hm Hf]. cbn [total_len snd] in *. cbn. split; lia.
  - by rewrite Esrc.
  - by rewrite Em1.
  - by rewrite Em1.
  - rewrite Econ in Hb. by apply Forall_app in Hb as [_ ?].
Qed.
End Icmp.
