(* ===== verification/UdpPorts.v ===== *)
(** * UDP control blocks: the theorems

    Which control block a datagram is for, and that [udp_bind] gives every
    port to one control block only. *)

From S2P Require Import Prelude LwipBase IpAddr InetChksum Heap Memp Pbuf PbufChain PbufLinks PbufData PbufMake PbufAlloc PbufClaims PbufRefs PbufChksum Netif LwipStack Ip Icmp Udp.
From Stdlib Require Import ZArith Lia.
From stdpp Require Import base numbers gmultiset list gmap.
Open Scope Z_scope.

(** ** The control block for a datagram *)

Section Match.
Context (d : datagram) (m : gmap Z udp_pcb).

Definition full_match (pcb : Z) : bool :=
  match m !! pcb with Some b => local_match d b && remote_match d b | None => false end.
(** Not connected, and bound to the address and port. *)
Definition loose_match (pcb : Z) : bool :=
  match m !! pcb with Some b => local_match d b && negb (is_connected b) | None => false end.

(** The first that matches fully, with those before it, or the first that
    matches loosely. *)
Inductive found (l : list Z) : Z → option (list Z) → Prop :=
  | found_full pre pcb post :
      l = pre ++ pcb :: post → full_match pcb = true → Forall (λ q, full_match q = false) pre → found l pcb (Some pre)
  | found_loose pre pcb post :
      l = pre ++ pcb :: post → Forall (λ q, full_match q = false) l → loose_match pcb = true →
      Forall (λ q, loose_match q = false) pre → found l pcb None
  | found_none : Forall (λ q, full_match q = false ∧ loose_match q = false) l → found l 0 None.

Lemma match_loop_ok prev uncon l :
  Forall (λ q, is_Some (m !! q) ∧ q ≠ 0) l → Forall (λ q, full_match q = false) prev →
  (if decide (uncon = 0) then Forall (λ q, loose_match q = false) prev
   else ∃ pre post, prev = pre ++ uncon :: post ∧ loose_match uncon = true ∧ Forall (λ q, loose_match q = false) pre) →
  ∃ pcb r, match_loop d m prev uncon l = Ok (pcb, r) ∧ found (prev ++ l) pcb r.
Proof.
  revert prev uncon. induction l as [|q l IH]; intros prev uncon Hl Hp Hu.
  { exists uncon, None. split; [done|]. rewrite app_nil_r. case_decide as E.
    - subst uncon. apply found_none. apply Forall_and. by split.
    - destruct Hu as (pre & post & -> & Hm & Hpre). by eapply found_loose. }
  apply Forall_cons in Hl as [[[b Hb] Hq0] Hl]. cbn [match_loop]. rewrite Hb.
  set (uncon' := if local_match d b && (uncon =? 0) && negb (is_connected b) then q else uncon).
  assert (full_match q = local_match d b && remote_match d b) as Ef by (unfold full_match; by rewrite Hb).
  assert (loose_match q = local_match d b && negb (is_connected b)) as El by (unfold loose_match; by rewrite Hb).
  destruct (local_match d b && remote_match d b) eqn:Em.
  { exists q, (Some prev). split; [done|]. by eapply found_full. }
  destruct (IH (prev ++ [q]) uncon' Hl) as (pcb & r & E & Hf).
  - apply Forall_app. split; [done|by apply Forall_singleton].
  - unfold uncon'. destruct (decide (uncon = 0)) as [->|Hne].
    + rewrite Z.eqb_refl, andb_true_r, <-El. destruct (loose_match q) eqn:Eq.
      * rewrite decide_False by done. exists prev, []. by split.
      * rewrite decide_True by done. apply Forall_app. split; [done|by apply Forall_singleton].
    + rewrite (proj2 (Z.eqb_neq _ _) Hne), andb_false_r. cbn [andb]. rewrite decide_False by done.
      destruct Hu as (pre & post & -> & Hm & Hpre). exists pre, (post ++ [q]). by rewrite <-app_assoc.
  - exists pcb, r. split; [done|]. by rewrite <-app_assoc in Hf.
Qed.
End Match.

(** ** Ports *)

(** A control block that [b] excludes. *)
Definition conflict (b : udp_pcb) (ipaddr port : Z) : bool :=
  (up_local_port b =? port) && (ip_addr_isany (up_local_ip b) || ip_addr_isany ipaddr || (up_local_ip b =? ipaddr)).

Definition known (m : gmap Z udp_pcb) (l : list Z) : Prop := Forall (λ q, is_Some (m !! q) ∧ q ≠ 0) l.
Definition uses_port (m : gmap Z udp_pcb) (port q : Z) : Prop := ∃ b, m !! q = Some b ∧ up_local_port b = port.

Lemma port_scan_ok m port l :
  known m l →
  (port_scan m port l = Ok true ∧ Forall (λ q, ¬ uses_port m port q) l) ∨
  (port_scan m port l = Ok false ∧ Exists (uses_port m port) l).
Proof.
  induction 1 as [|q l [[b Hb] _] _ IH]; [by left|]. cbn [port_scan]. rewrite Hb.
  destruct (Z.eqb_spec (up_local_port b) port) as [E|E].
  - right. split; [done|]. left. by exists b.
  - destruct IH as [[-> Hl]|[-> Hl]]; [left|right; split; [done|by right]]. split; [done|]. constructor; [|done].
    intros (c & Hc & Ec). congruence.
Qed.

(** The search ends, with a free port or with proof that there is none. *)
Lemma port_search_ok fuel m port l :
  known m l → UDP_LOCAL_PORT_RANGE_START ≤ port ≤ UDP_LOCAL_PORT_RANGE_END → UDP_LOCAL_PORT_RANGE_END - port < Z.of_nat fuel →
  ∃ r, port_search fuel m port l = Ok r ∧
    ((port ≤ r ≤ UDP_LOCAL_PORT_RANGE_END ∧ Forall (λ q, ¬ uses_port m r q) l) ∨
     (r = 0 ∧ ∀ x, port ≤ x < UDP_LOCAL_PORT_RANGE_END → Exists (uses_port m x) l)).
Proof.
  intros Hl. revert port. induction fuel as [|fuel IH]; intros port Hp Hf; [lia|]. cbn [port_search].
  destruct (Z.eqb_spec port UDP_LOCAL_PORT_RANGE_END) as [->|Hend].
  - destruct l as [|q l]; [|exists 0; split; [done|]; right; split; [done|lia]].
    exists UDP_LOCAL_PORT_RANGE_END. split; [done|]. left. split; [lia|constructor].
  - cbn [andb]. destruct (port_scan_ok m port l Hl) as [[-> Hfree]|[-> Hused]].
    + exists port. split; [done|]. left. split; [lia|done].
    + unfold UDP_LOCAL_PORT_RANGE_START, UDP_LOCAL_PORT_RANGE_END in *. rewrite u16_small by (unfold is_u16; lia).
      destruct (IH (port + 1)) as (r & E & Hr); [lia|lia|]. exists r. split; [done|].
      destruct Hr as [[Hr Hfr]|[-> Hall]]; [left; split; [lia|done]|right; split; [done|]].
      intros x Hx. destruct (decide (x = port)) as [->|]; [done|]. apply Hall. lia.
Qed.

Lemma bind_check_ok m pcb ipaddr port (r : bool) l :
  known m l → NoDup l → (r = true → pcb ∉ l) →
  (bind_check m pcb ipaddr port r l = Ok None ∧ ∃ q b, q ∈ l ∧ q ≠ pcb ∧ m !! q = Some b ∧ conflict b ipaddr port = true) ∨
  (bind_check m pcb ipaddr port r l = Ok (Some (r || bool_decide (pcb ∈ l))) ∧
   ∀ q b, q ∈ l → q ≠ pcb → m !! q = Some b → conflict b ipaddr port = false).
Proof.
  intros Hl. revert r. induction Hl as [|q l [[b Hb] _] Hl IH]; intros r Hnd Hr.
  { right. rewrite bool_decide_eq_false_2, orb_false_r by (by intros ?%elem_of_nil). split; [done|]. by intros ? ? ?%elem_of_nil. }
  apply NoDup_cons in Hnd as [Hq Hnd]. cbn [bind_check]. destruct (Z.eqb_spec q pcb) as [->|Hne].
  - destruct r; [destruct (Hr eq_refl); by left|]. rewrite (bool_decide_eq_true_2 (pcb ∈ pcb :: l)) by (by left).
    destruct (IH true Hnd ltac:(done)) as [[-> (q & c & Hin & Hrest)]|[-> Hnone]].
    + left. split; [done|]. exists q, c. split; [by right|done].
    + right. split; [done|]. intros q c [->|Hin]%elem_of_cons Hqp; [done|]. by apply Hnone.
  - rewrite Hb. fold (conflict b ipaddr port). destruct (conflict b ipaddr port) eqn:Ec.
    + left. split; [done|]. exists q, b. split; [by left|done].
    + destruct (IH r Hnd) as [[-> (q' & c & Hin & Hrest)]|[-> Hnone]].
      * intros E Hin. apply (Hr E). by right.
      * left. split; [done|]. exists q', c. split; [by right|done].
      * right. split.
        { do 3 f_equal. apply bool_decide_ext. rewrite elem_of_cons. split; [by right|by intros [->|?]]. }
        intros q' c [->|Hin]%elem_of_cons Hqp Hc; [congruence|]. by apply (Hnone q').
Qed.

Section Bind.
Context {A B U : Type} {BA : BufAlloc A} {LW : Lower A B} {UP : Upper B U}.
Implicit Types (s : stack B U).

(** The control blocks on the list exclude each other. *)
Record registry_ok s : Prop := {
  rg_nodup : NoDup (udp_pcbs s);
  rg_known : known (sk_pcbs s) (udp_pcbs s);
  rg_apart p q b c : p ∈ udp_pcbs s → q ∈ udp_pcbs s → p ≠ q → sk_pcbs s !! p = Some b → sk_pcbs s !! q = Some c →
    conflict b (up_local_ip c) (up_local_port c) = false }.

(** [pcb] with the address and [port], and on the list. *)
Definition listed (pcb : Z) s : list Z := if decide (pcb ∈ udp_pcbs s) then udp_pcbs s else pcb :: udp_pcbs s.
Definition bound (pcb ipaddr port : Z) (b : udp_pcb) s : stack B U :=
  with_udp (listed pcb s) (<[pcb := with_local ipaddr port b]> (sk_pcbs s)) s.

Lemma conflict_sym b c : conflict b (up_local_ip c) (up_local_port c) = conflict c (up_local_ip b) (up_local_port b).
Proof.
  unfold conflict. rewrite (Z.eqb_sym (up_local_port b)), (Z.eqb_sym (up_local_ip b) (up_local_ip c)).
  rewrite (orb_comm (ip_addr_isany (up_local_ip b))). done.
Qed.

Lemma bound_ok pcb ipaddr port b s :
  registry_ok s → pcb ≠ 0 →
  (∀ q c, q ∈ udp_pcbs s → q ≠ pcb → sk_pcbs s !! q = Some c → conflict c ipaddr port = false) →
  registry_ok (bound pcb ipaddr port b s).
Proof.
  intros [Hnd Hk Hap] H0 Hc. assert (∀ q, q ∈ listed pcb s → q = pcb ∨ q ∈ udp_pcbs s) as Hin.
  { unfold listed. intros q Hq. case_decide; [by right|]. by apply elem_of_cons. }
  split; cbn [udp_pcbs sk_pcbs bound with_udp].
  - unfold listed. case_decide; [done|by apply NoDup_cons].
  - apply Forall_forall. intros q [->|Hq]%Hin; [by rewrite lookup_insert_eq|].
    destruct (proj1 (Forall_forall _ _) Hk q Hq) as [Hs Hq0]. split; [|done].
    destruct (decide (q = pcb)) as [->|]; [by rewrite lookup_insert_eq|by rewrite lookup_insert_ne].
  - intros p q c e Hp Hq Hpq. destruct (decide (p = pcb)) as [->|Hpp].
    + rewrite lookup_insert_eq, lookup_insert_ne by done. intros [= <-] He. destruct (Hin q Hq) as [->|Hq']; [done|].
      rewrite conflict_sym. by apply (Hc q).
    + rewrite (lookup_insert_ne _ pcb p) by done. intros Hb. destruct (decide (q = pcb)) as [->|Hqq].
      * rewrite lookup_insert_eq. intros [= <-]. destruct (Hin p Hp) as [->|Hp']; [done|]. by apply (Hc p).
      * rewrite lookup_insert_ne by done. intros He. destruct (Hin p Hp) as [->|Hp'], (Hin q Hq) as [->|Hq']; try done. by apply (Hap p q).
Qed.

Lemma not_used_no_conflict m port q b ipaddr : ¬ uses_port m port q → m !! q = Some b → conflict b ipaddr port = false.
Proof.
  intros Hn Hb. unfold conflict. destruct (Z.eqb_spec (up_local_port b) port) as [E|]; [|done]. destruct Hn. by exists b.
Qed.

(** What [udp_bind] does. *)
Inductive bind_result (pcb ipaddr port : Z) (b : udp_pcb) s : Z → stack B U → Prop :=
  | bind_taken q c :
      q ∈ udp_pcbs s → q ≠ pcb → sk_pcbs s !! q = Some c → conflict c ipaddr port = true →
      bind_result pcb ipaddr port b s ERR_USE s
  | bind_full :
      port = 0 → (∀ x, UDP_LOCAL_PORT_RANGE_START ≤ x < UDP_LOCAL_PORT_RANGE_END → Exists (uses_port (sk_pcbs s) x) (udp_pcbs s)) →
      bind_result pcb ipaddr port b s ERR_USE
        (with_udp (udp_pcbs s) (<[pcb := with_local ipaddr (up_local_port b) b]> (sk_pcbs s)) s)
  | bind_given :
      port ≠ 0 → registry_ok (bound pcb ipaddr port b s) → bind_result pcb ipaddr port b s ERR_OK (bound pcb ipaddr port b s)
  | bind_chosen port' :
      port = 0 → UDP_LOCAL_PORT_RANGE_START ≤ port' ≤ UDP_LOCAL_PORT_RANGE_END →
      registry_ok (bound pcb ipaddr port' b s) → bind_result pcb ipaddr port b s ERR_OK (bound pcb ipaddr port' b s).

Lemma known_insert m l pcb b : known m l → pcb ≠ 0 → known (<[pcb := b]> m) l.
Proof.
  intros Hk H0. eapply Forall_impl; [exact Hk|]. intros q [Hs Hq]. split; [|done].
  destruct (decide (q = pcb)) as [->|]; [by rewrite lookup_insert_eq|by rewrite lookup_insert_ne].
Qed.
Lemma uses_port_local m pcb ipaddr b x q :
  m !! pcb = Some b → uses_port (<[pcb := with_local ipaddr (up_local_port b) b]> m) x q ↔ uses_port m x q.
Proof.
  intros Hb. unfold uses_port. destruct (decide (q = pcb)) as [->|]; [|by rewrite lookup_insert_ne].
  rewrite lookup_insert_eq, Hb. split; intros (c & [= <-] & E); by eexists.
Qed.

Lemma bind_port_given pcb ipaddr port b s :
  sk_pcbs s !! pcb = Some b → port ≠ 0 →
  bind_port pcb ipaddr port (bool_decide (pcb ∈ udp_pcbs s))
    (with_udp (udp_pcbs s) (<[pcb := with_local ipaddr (up_local_port b) b]> (sk_pcbs s)) s)
  = Ok (ERR_OK, bound pcb ipaddr port b s).
Proof.
  intros Hb Hp. unfold bind_port. rewrite (proj2 (Z.eqb_neq _ _) Hp). cbv iota beta. rewrite (proj2 (Z.eqb_neq _ _) Hp).
  unfold set_pcb. rewrite !bind_unfold. cbn [sk_pcbs with_udp udp_pcbs]. rewrite lookup_insert_eq, insert_insert_eq.
  unfold bound, listed. rewrite bool_decide_decide. destruct (decide (pcb ∈ udp_pcbs s)); reflexivity.
Qed.

Lemma udp_bind_ok pcb ipaddr port b s :
  registry_ok s → sk_pcbs s !! pcb = Some b → pcb ≠ 0 →
  ∃ r s', udp_bind pcb ipaddr port s = Ok (r, s') ∧ bind_result pcb ipaddr port b s r s'.
Proof.
  intros Hs Hb H0. pose proof Hs as [Hnd Hk Hap]. unfold udp_bind.
  destruct (bind_check_ok (sk_pcbs s) pcb ipaddr port false (udp_pcbs s) Hk Hnd ltac:(done)) as [[-> (q & c & Hq & Hqp & Hc & Hcf)]|[-> Hno]].
  { exists ERR_USE, s. split; [done|]. by apply (bind_taken _ _ _ _ _ q c). }
  cbn [orb]. unfold get_pcb. rewrite bind_unfold, Hb. unfold set_pcb. rewrite bind_unfold, Hb.
  destruct (decide (port = 0)) as [->|Hp].
  2:{ rewrite bind_port_given by done. eexists _, _. split; [done|]. apply bind_given; [done|]. by apply bound_ok. }
  set (s1 := with_udp _ _ s). unfold bind_port. cbn [Z.eqb].
  destruct (port_search_ok (Z.to_nat 0x4000) (sk_pcbs s1) UDP_LOCAL_PORT_RANGE_START (udp_pcbs s)) as (r & E & Hr);
    [by apply known_insert|by vm_compute|by vm_compute|].
  change (udp_pcbs s1) with (udp_pcbs s). rewrite E. destruct Hr as [[Hr Hfree]|[-> Hall]].
  - assert (r ≠ 0) as Hr0 by (unfold UDP_LOCAL_PORT_RANGE_START in Hr; lia).
    pose proof (bind_port_given pcb ipaddr r b s Hb Hr0) as Eb. unfold bind_port in Eb. rewrite (proj2 (Z.eqb_neq _ _) Hr0) in Eb.
    cbv iota beta in Eb |- *. exists ERR_OK, (bound pcb ipaddr r b s). split; [exact Eb|]. clear Eb. apply bind_chosen; [done|done|]. apply bound_ok; [done|done|].
    intros q c Hq Hqp Hc. apply (not_used_no_conflict (sk_pcbs s) r q); [|done].
    rewrite <-(uses_port_local _ pcb ipaddr b) by done. exact (proj1 (Forall_forall _ _) Hfree q Hq).
  - eexists _, _. split; [done|]. apply bind_full; [done|]. intros x Hx.
    eapply Exists_impl; [by apply Hall|]. intros q. by apply uses_port_local.
Qed.
End Bind.

(** ** Too many ports to run out *)

Lemma ports_remain m l :
  Z.of_nat (length l) < UDP_LOCAL_PORT_RANGE_END - UDP_LOCAL_PORT_RANGE_START →
  ¬ (∀ x, UDP_LOCAL_PORT_RANGE_START ≤ x < UDP_LOCAL_PORT_RANGE_END → Exists (uses_port m x) l).
Proof.
  intros Hlen Hall. set (port q := from_option up_local_port 0 (m !! q)).
  set (n := UDP_LOCAL_PORT_RANGE_END - UDP_LOCAL_PORT_RANGE_START) in *.
  assert (seqZ UDP_LOCAL_PORT_RANGE_START n ⊆+ (port <$> l)) as Hsub.
  { apply NoDup_submseteq; [apply NoDup_seqZ|]. intros x [H1 H2]%elem_of_seqZ. unfold n in H2.
    specialize (Hall x ltac:(lia)). apply Exists_exists in Hall as (q & Hq & b & Hb & E).
    apply list_elem_of_fmap. exists q. split; [|done]. unfold port. by rewrite Hb. }
  apply submseteq_length in Hsub. rewrite length_seqZ, length_fmap in Hsub. lia.
Qed.

Section Find.
Context {A B U : Type} {BA : BufAlloc A} {LW : Lower A B} {UP : Upper B U}.
Implicit Types (s : stack B U).

(** The list after a search. *)
Definition found_list (l : list Z) (pcb : Z) (r : option (list Z)) : list Z :=
  match r with Some pre => pcb :: pre ++ drop (S (length pre)) l | None => l end.

Lemma found_list_perm d m l pcb r : found d m l pcb r → found_list l pcb r ≡ₚ l.
Proof.
  intros [pre q post -> _ _|pre q post E _ _ _|_]; [|done..]. cbn. rewrite drop_app_ge, Nat.sub_succ_l, Nat.sub_diag by lia. cbn.
  by rewrite Permutation_middle.
Qed.

Lemma find_pcb_runs d inp s (Q : Z → stack B U → Prop) :
  known (sk_pcbs s) (udp_pcbs s) → dg_dest d ≠ DHCP_CLIENT_PORT →
  (∀ pcb r f, found d (sk_pcbs s) (udp_pcbs s) pcb r →
     Q pcb (with_stats f (with_udp (found_list (udp_pcbs s) pcb r) (sk_pcbs s) s))) →
  runs (find_pcb d inp) s Q.
Proof.
  intros Hk Hd HQ. unfold find_pcb. rewrite (proj2 (Z.eqb_neq _ _) Hd).
  destruct (match_loop_ok d (sk_pcbs s) [] 0 (udp_pcbs s) Hk (Forall_nil_2 _) (Forall_nil_2 _)) as (pcb & r & E & Hf).
  cbn [app] in Hf. unfold runs. rewrite E. specialize (HQ pcb r). destruct r as [[|q pre]|].
  - inversion Hf as [pre q post El Hm _| |]. subst pre q. cbn [app] in El.
    assert (∀ f, Q pcb (with_stats f s)) as HQs; [|apply HQs]. intros f. specialize (HQ f Hf). cbn [found_list app length] in HQ.
    rewrite El in HQ. cbn [drop] in HQ. rewrite drop_0, <-El in HQ. by destruct s.
  - specialize (HQ (lwip_stats s) Hf). exact HQ.
  - specialize (HQ (lwip_stats s) Hf). cbn [found_list] in HQ. by destruct s.
Qed.
End Find.
