(* ===== verification/UdpRuns.v ===== *)
(** * UDP datagrams: the theorems

    A datagram is given to the receive function of its control block, is
    answered with a message that the port cannot be reached, or is dropped;
    and what [udp_sendto] sends is a datagram that the other side accepts. *)

From S2P Require Import Prelude LwipBase IpAddr InetChksum Heap Memp Pbuf PbufChain PbufLinks PbufData PbufMake PbufAlloc PbufClaims PbufRefs PbufChksum Netif EthArpTable EthArpSend EthArpInput LwipStack Ip Icmp Udp IpInput StackRuns IpOutput IpReceive IcmpRuns UdpPorts.
From Stdlib Require Import ZArith Lia.
From stdpp Require Import base numbers gmultiset list gmap.
Open Scope Z_scope.

Section Udp.
Context {A B U : Type} {BA : BufAlloc A} {LA : BufAllocLaws A} {LW : Lower A B} {LL : LowerLaws A B} {UP : Upper B U}.
Implicit Types (s : stack B U).

(** Properties of programs that hold of a sequence if they hold of what is
    left after its first part. *)
Definition steps {X} (G : M (stack B U) X → stack B U → Prop) : Prop :=
  ∀ Y (m : M (stack B U) Y) k s, runs m s (λ y s1, G (k y) s1) → G (m ≫= k) s.
Lemma steps_runs {X} (Q : X → stack B U → Prop) : steps (λ m s, runs m s Q).
Proof. intros Y m k s. apply runs_bind. Qed.
Lemma steps_leads {X} (m' : M (stack B U) X) P : steps (λ m s, leads m s m' P).
Proof. intros Y m k s. apply leads_bind. Qed.

(** The datagram [u], header included. *)
Definition udp_dgram (ni : netif) s (u : list Z) : datagram :=
  Dgram (current_iphdr_src s) (be16 (field 0 2 u)) (current_iphdr_dest s) (be16 (field 2 2 u))
    (ip_addr_isbroadcast (current_iphdr_dest s) ni).
Definition udp_good s (u : list Z) : bool :=
  (le_word (field 6 2 u) =? 0) ||
  (inet_chksum (pseudo_header (current_iphdr_src s) (current_iphdr_dest s) IP_PROTO_UDP (Z.of_nat (length u)) ++ u) =? 0).

(** The packet [p] with the octets [data] of the IP packet behind [off]. *)
Record at_offset ni R (H : gmultiset Z) s p b l (off : Z) s1 : Prop := {
  ao_ok : sk_ok ni R ({[+ p +]} ⊎ H) s1;
  ao_packet : packet (pb_store (pbs s1)) p ((p, moved (- off) b) :: l);
  ao_contents : contents (mem s1) ((p, moved (- off) b) :: l) = drop (Z.to_nat off) (contents (mem s) ((p, b) :: l));
  ao_mem : mem s1 = mem s;
  ao_sent : sent s1 = sent s;
  ao_kept : kept_packets H (pb_store (pbs s)) (pb_store (pbs s1)) }.

(** The state after the search for the control block. *)
Definition searched s pcb r s1 : Prop :=
  ∃ b f, s1 = with_low b (with_stats f (with_udp (found_list (udp_pcbs s) pcb r) (sk_pcbs s) s)).

Lemma searched_low s pcb r s1 b : searched s pcb r s1 → searched s pcb r (with_low b s1).
Proof. intros (b' & f & ->). by exists b, f. Qed.
Lemma searched_pbs s pcb r s1 b : searched s pcb r s1 → searched s pcb r (with_pbs b s1).
Proof. apply searched_low. Qed.

Lemma moved_moved n m b : moved n (moved m b) = moved (n + m) b.
Proof. destruct b. unfold moved, with_tot_len, with_len, with_payload. cbn. f_equal; lia. Qed.

Lemma moved_0 b : moved 0 b = b.
Proof. destruct b. unfold moved, with_tot_len, with_len, with_payload. cbn. f_equal; lia. Qed.

Lemma at_offset_step {X} (G : M (stack B U) X → stack B U → Prop) ni R H s p b l off inc s1 k :
  at_offset ni R H s p b l off s1 → p_ref b = 1 → 0 ≤ off → 0 < inc ≤ 60 → off + inc ≤ p_len b →
  (∀ s2, at_offset ni R H s p b l (off + inc) s2 → (∃ b2, s2 = with_pbs b2 s1) → G (k 0) s2) →
  steps G → G (on_pbufs (pbuf_header p (- inc)) ≫= k) s1.
Proof.
  intros [Hs Hpk Hc Hm Hsent Hk] Hr Hoff Hinc Hlen HG HS. apply HS.
  apply (sk_move_runs ni R H s1 p (moved (- off) b) l (- inc) _ Hs Hpk Hr); [lia|cbn; lia|pose proof (pk_u16 _ _ _ Hpk); lia| |].
  { intros []. intros ?. lia. }
  intros b1 s2 Ed Hs2 Hpk2 Hk2 _. assert (pbs s2 = b1) as Eb by apply pbs_with. rewrite moved_moved in Hpk2.
  replace (- inc + - off) with (- (off + inc)) in Hpk2 by lia.
  apply HG; [|by exists b1]. assert (mem s2 = mem s) as Em by (unfold mem at 1; rewrite Eb, Ed; exact Hm). split; try done.
  - by rewrite Eb.
  - rewrite Em. rewrite (contents_behind (mem s) p b l (off + inc)), drop_app_length' by (lia || by rewrite length_mem_read). done.
  - rewrite <-Hsent. apply sent_pbs.
  - rewrite Eb. by etrans.
Qed.

(** *** Input *)

(** The packet and its headers, for this section. *)
Record incoming ni R (H : gmultiset Z) s p b l x : Prop := {
  in_head : mem_read (mem s) (p_payload b) 64 = x;
  in_ok : sk_ok ni R ({[+ p +]} ⊎ H) s;
  in_packet : packet (pb_store (pbs s)) p ((p, b) :: l);
  in_own : own_octets ((p, b) :: l);
  in_sole : p_ref b = 1;
  in_room : p + SIZEOF_STRUCT_PBUF ≤ p_payload b;
  in_hlen : 20 ≤ ip_hlen x ≤ p_len b;
  in_first : total_len ((p, b) :: l) < ip_hlen x + 8 ∨ ip_hlen x + 8 ≤ p_len b;
  in_bytes : bytes_ok x;
  in_data : bytes_ok (contents (mem s) ((p, b) :: l));
  in_long : total_len ((p, b) :: l) ≤ 64000;
  in_src : is_u32 (current_iphdr_src s);
  in_dest : is_u32 (current_iphdr_dest s);
  in_known : known (sk_pcbs s) (udp_pcbs s) }.

Lemma field_read m a o k d n :
  mem_read m a n = take n d → (n ≤ length d)%nat → 0 ≤ o → (Z.to_nat o + k ≤ n)%nat → mem_read m (a + o) k = field (Z.to_nat o) k d.
Proof.
  intros Hr Hn Ho Hk. rewrite (load_field m a o k _ n Hr) by done. unfold field. rewrite skipn_firstn_comm, firstn_firstn. f_equal. lia.
Qed.

(** What may happen to a datagram [u] for which the control block was looked up. *)
Definition on_datagram (G : M (stack B U) unit → stack B U → Prop) ni R H s p b l x (u : list Z) : Prop :=
  let d := udp_dgram ni s u in
  ∀ pcb r s1, found d (sk_pcbs s) (udp_pcbs s) pcb r → searched s pcb r s1 →
    (at_offset ni R H s p b l (ip_hlen x) s1 → pcb = 0 → ni_ip_addr ni ≠ current_iphdr_dest s →
       G (on_pbufs (pbuf_free p);; mret tt) s1) ∧
    (at_offset ni R H s p b l (ip_hlen x) s1 → pcb ≠ 0 ∨ ni_ip_addr ni = current_iphdr_dest s → udp_good s u = false →
       G (udp_drop p [c_chkerr; c_drop]) s1) ∧
    (at_offset ni R H s p b l (ip_hlen x + 8) s1 → pcb ≠ 0 ∨ ni_ip_addr ni = current_iphdr_dest s → udp_good s u = true →
       G (udp_deliver p pcb (p_payload b) (ip_hlen x / 4) (dg_src d) d) s1).

Lemma at_offset_low ni R H s p b l off s1 s2 : sk_low s2 = sk_low s1 → at_offset ni R H s p b l off s1 → at_offset ni R H s p b l off s2.
Proof.
  intros E [H1 H2 H3 H4 H5 H6]. unfold sk_ok, mem, sent, pbs in *. rewrite <-E in *. by split.
Qed.

(** The test of the checksum. *)
Lemma udp_test_runs ni R H s p b l x s1 (Q : bool → stack B U → Prop) :
  incoming ni R H s p b l x → at_offset ni R H s p b l (ip_hlen x) s1 →
  let u := drop (Z.to_nat (ip_hlen x)) (contents (mem s) ((p, b) :: l)) in
  8 ≤ Z.of_nat (length u) → Q (negb (udp_good s u)) s1 →
  runs (if negb (le_word (field 6 2 u) =? 0) then
          c ← on_pbufs (inet_chksum_pseudo p (current_iphdr_src s) (current_iphdr_dest s) IP_PROTO_UDP (Z.of_nat (length u)));
          mret (negb (c =? 0))
        else mret false) s1 Q.
Proof.
  intros [Hx Hs Hpk Ho Hr Hat Hh Hfirst Hbx Hbd Hlong Hsrc Hdest Hk] [Hs1 Hpk1 Hc1 Hm1 Hsent1 Hk1] u H8 HQ. unfold udp_good in HQ. fold u in Hc1.
  destruct (le_word (field 6 2 u) =? 0); cbn [negb orb] in *; [done|]. rewrite Hm1 in Hc1. fold u in Hc1.
  pose proof (length_contents (mem s) _ (pk_lens _ _ _ Hpk1)) as Hlen. rewrite Hc1 in Hlen.
  pose proof (length_contents (mem s) _ (pk_lens _ _ _ Hpk)) as Hlen0.
  assert (length u ≤ length (contents (mem s) ((p, b) :: l)))%nat by (unfold u; rewrite length_drop; lia).
  apply runs_bind. eapply on_pbufs_keep; [|].
  - apply (chksum_pseudo_ok _ p _ _ _ _ _ Hpk1); fold (mem s1); rewrite ?Hm1, ?Hc1; try done.
    + by apply Forall_drop.
    + lia.
    + unfold is_u16. lia.
  - fold (mem s1). rewrite Hm1, Hc1. exact HQ.
Qed.

Lemma udp_demux_steps G ni R H s p b l x s1 :
  incoming ni R H s p b l x → steps G → at_offset ni R H s p b l (ip_hlen x) s1 → (∃ b1, s1 = with_pbs b1 (tick P_udp c_recv s)) →
  let u := drop (Z.to_nat (ip_hlen x)) (contents (mem s) ((p, b) :: l)) in
  8 ≤ Z.of_nat (length u) → ip_hlen x + 8 ≤ p_len b → dg_dest (udp_dgram ni s u) ≠ DHCP_CLIENT_PORT →
  on_datagram G ni R H s p b l x u →
  G (b' ← on_pbufs (get_pbuf p);
     dest_ip ← gets current_iphdr_dest;
     src_ip ← gets current_iphdr_src;
     src ← on_pbufs (load16 (p_payload b' + UDPH_SRC));
     dest ← on_pbufs (load16 (p_payload b' + UDPH_DEST));
     let d := Dgram src_ip (lwip_htons src) dest_ip (lwip_htons dest) (ip_addr_isbroadcast dest_ip ni) in
     pcb ← find_pcb d ni;
     if negb (pcb =? 0) || (ni_ip_addr ni =? dest_ip) then
       chk ← on_pbufs (load16 (p_payload b' + UDPH_CHKSUM));
       bad ← (if negb (chk =? 0) then
                c ← on_pbufs (inet_chksum_pseudo p src_ip dest_ip IP_PROTO_UDP (p_tot_len b'));
                mret (negb (c =? 0))
              else mret false);
       if bad : bool then udp_drop p [c_chkerr; c_drop]
       else
         failed ← on_pbufs (pbuf_header p (- UDP_HLEN));
         if negb (failed =? 0) then
           LWIP_ASSERT false;;
           udp_drop p [c_drop]
         else udp_deliver p pcb (p_payload b) (ip_hlen x / 4) (lwip_htons src) d
     else
       on_pbufs (pbuf_free p);;
       mret tt) s1.
Proof.
  intros Hin HS Hat1 (b1 & Es1) u H8 Hfirst Hport HD. pose proof Hin as [Hx Hs Hpk Ho Hr Hat Hh _ Hbx Hbd Hlong Hsrc Hdest Hk].
  pose proof Hat1 as [Hs1 Hpk1 Hc1 Hm1 Hsent1 Hk1]. set (c := moved (- ip_hlen x) b) in *. pose proof (pk_chain _ _ _ Hpk1) as (_ & _ & Hpc & _).
  rewrite Hm1 in Hc1. fold u in Hc1. pose proof (length_contents (mem s) _ (pk_lens _ _ _ Hpk1)) as Hlen. rewrite Hc1 in Hlen.
  destruct (pk_lens _ _ _ Hpk1) as (_ & Etot & _). assert (bytes_ok u) as Hbu by (by apply Forall_drop).
  assert (mem_read (mem s1) (p_payload c) 8 = take 8 u) as E8.
  { rewrite Hm1, <-Hc1. cbn [contents]. unfold cell_data. cbn [snd].
    rewrite take_app_le, mem_read_take by (rewrite ?length_mem_read; cbn; lia). done. }
  assert (∀ o, 0 ≤ o ≤ 6 → mem_read (mem s1) (p_payload c + o) 2 = field (Z.to_nat o) 2 u) as Hrd
    by (intros o Ho'; apply (field_read _ _ _ _ _ 8); [done|lia|lia|lia]).
  apply HS. eapply sk_get_pbuf_runs; [exact Hpc|]. do 2 apply HS, gets_runs. do 2 apply HS, sk_load16_runs.
  rewrite !Hrd by (unfold UDPH_SRC, UDPH_DEST; lia). rewrite !htons_be16 by ((by apply bytes_field) || (apply length_field; vm_compute Z.to_nat; lia)).
  change (Z.to_nat UDPH_SRC) with 0%nat. change (Z.to_nat UDPH_DEST) with 2%nat. cbv zeta.
  assert (current_iphdr_src s1 = current_iphdr_src s ∧ current_iphdr_dest s1 = current_iphdr_dest s) as [-> ->] by by rewrite Es1.
  fold (udp_dgram ni s u). apply HS. apply find_pcb_runs; [by rewrite Es1|done|]. intros pcb r f Hf.
  set (s2 := with_stats f _). assert (sk_low s2 = sk_low s1) as Elow by done.
  assert (udp_pcbs s1 = udp_pcbs s ∧ sk_pcbs s1 = sk_pcbs s) as [Eu Ep] by by rewrite Es1. rewrite Eu, Ep in Hf.
  assert (searched s pcb r s2) as Hse by (exists (sk_low s1), f; unfold s2; by rewrite Eu, Ep, Es1).
  assert (at_offset ni R H s p b l (ip_hlen x) s2) as Hat2 by (apply (at_offset_low ni R H s p b l _ s1); done).
  destruct (HD pcb r s2 Hf Hse) as (Hignore & Hbad & _).
  destruct (Z.eqb_spec pcb 0) as [E0|E0], (Z.eqb_spec (ni_ip_addr ni) (current_iphdr_dest s)) as [En|En]; cbn [negb orb]; try (by apply Hignore).
  all: apply HS, sk_load16_runs; change (mem s2) with (mem s1); rewrite Hrd by (unfold UDPH_CHKSUM; lia);
    change (Z.to_nat UDPH_CHKSUM) with 6%nat; rewrite Etot; change (p_len c + total_len l) with (total_len ((p, c) :: l)); rewrite <-Hlen;
    apply HS; apply (udp_test_runs ni R H s p b l x s2 _ Hin Hat2 H8); fold u; destruct (udp_good s u) eqn:Eg; cbn [negb]; try (apply Hbad; tauto);
    change UDP_HLEN with 8; apply (at_offset_step G ni R H s p b l (ip_hlen x) 8 s2); [done|done|lia|lia|lia| |done];
    intros s3 Hat3 (b3 & ->); cbn [negb Z.eqb]; destruct (HD pcb r (with_pbs b3 s2) Hf (searched_pbs _ _ _ _ _ Hse)) as (_ & _ & Hgood); apply Hgood; tauto.
Qed.

Lemma udp_input_steps G ni R H s p b l x :
  incoming ni R H s p b l x → steps G →
  let u := drop (Z.to_nat (ip_hlen x)) (contents (mem s) ((p, b) :: l)) in
  dg_dest (udp_dgram ni s u) ≠ DHCP_CLIENT_PORT →
  (Z.of_nat (length u) < 8 → G (udp_drop p [c_lenerr; c_drop]) (tick P_udp c_recv s)) →
  (8 ≤ Z.of_nat (length u) → on_datagram G ni R H s p b l x u) →
  G (udp_input p ni) s.
Proof.
  intros Hin HS u Hport Hshort HD. pose proof Hin as [Hx Hs Hpk Ho Hr Hat Hh Hfirst Hbx Hbd Hlong Hsrc Hdest Hk].
  pose proof (pk_chain _ _ _ Hpk) as (_ & _ & Hpb & _). destruct (pk_lens _ _ _ Hpk) as (Hb0 & Etot & Hl0%lens_nonneg).
  pose proof (length_contents (mem s) _ (pk_lens _ _ _ Hpk)) as Hlen. pose proof (hlen_bounds x) as H60.
  assert (Z.of_nat (length u) = total_len ((p, b) :: l) - ip_hlen x) as Hul.
  { unfold u. rewrite length_drop. cbn [total_len snd] in *. lia. }
  assert (bytes_ok u) as Hbu by (by apply Forall_drop).
  unfold udp_input. apply HS, modify_runs. set (s0 := tick P_udp c_recv s) in *. apply HS. eapply sk_get_pbuf_runs; [exact Hpb|]. cbv zeta.
  apply HS, sk_load16_runs. rewrite (load_at s0 _ x) by (done || (vm_compute; lia)). change (Z.to_nat IPH_VHLTOS) with 0%nat.
  pose proof (hlen_test x Hbx ltac:(rewrite <-Hx, length_mem_read; lia)) as Ehl. rewrite Ehl, Etot.
  set (hl := IPH_HL _) in *. assert (hl = ip_hlen x / 4) as -> by (rewrite <-Ehl; symmetry; apply Z.div_mul; lia). clear Ehl.
  change (p_len b + total_len l) with (total_len ((p, b) :: l)). destruct (Z.ltb_spec (total_len ((p, b) :: l)) (ip_hlen x + UDP_HLEN)) as [Hs8|Hl8].
  { apply HS, sk_ret_runs. cbn [negb Z.eqb]. apply Hshort. unfold UDP_HLEN in Hs8. lia. }
  unfold UDP_HLEN in Hl8. destruct Hfirst as [?|Hfirst]; [lia|].
  apply (at_offset_step G ni R H s p b l 0 (ip_hlen x) s0); [|done|done|lia|lia| |done].
  { split; try done; change (- 0) with 0; by rewrite moved_0. }
  intros s1 Hat1 Es1. rewrite Z.add_0_l in Hat1. cbn [negb Z.eqb]. apply (udp_demux_steps G ni R H s p b l x s1 Hin HS Hat1 Es1); fold u; [lia|done|done|].
  apply HD. lia.
Qed.

(** *** Outcomes *)

(** Nothing was sent, and only the search left a trace. *)
Definition gone ni R (H : gmultiset Z) s s' : Prop :=
  sk_ok ni R H s' ∧ kept_packets H (pb_store (pbs s)) (pb_store (pbs s')) ∧ udp_pcbs s' ≡ₚ udp_pcbs s ∧ sk_pcbs s' = sk_pcbs s.

Lemma udp_drop_runs ni R H s p why (Q : unit → stack B U → Prop) :
  sk_ok ni R ({[+ p +]} ⊎ H) s →
  (∀ s', sk_ok ni R H s' → packets_only H s s' → Q tt s') → runs (udp_drop p why) s Q.
Proof.
  intros Hs HQ. unfold udp_drop. apply runs_bind. revert s Hs HQ. induction why as [|c why IH]; intros s Hs HQ.
  - apply sk_ret_runs. by apply (sk_give_up_runs ni R H).
  - apply runs_bind, modify_runs. apply IH; [done|]. intros s' Hs' Hp. apply HQ; [done|]. etrans; [apply packets_only_tick|exact Hp].
Qed.

Lemma same_stack_pcbs s s' : same_stack s s' → udp_pcbs s' = udp_pcbs s ∧ sk_pcbs s' = sk_pcbs s.
Proof. by intros (b & f & i & ->). Qed.

Lemma searched_gone ni R H s d pcb r s1 s' :
  found d (sk_pcbs s) (udp_pcbs s) pcb r → searched s pcb r s1 → kept_packets H (pb_store (pbs s)) (pb_store (pbs s1)) →
  sk_ok ni R H s' → same_stack s1 s' → kept_packets H (pb_store (pbs s1)) (pb_store (pbs s')) → gone ni R H s s'.
Proof.
  intros Hf (b & f & E) Hk Hs' Hsame Hk'. destruct (same_stack_pcbs _ _ Hsame) as [Eu Ep]. split; [done|]. split; [by etrans|].
  rewrite Eu, Ep, E. cbn. split; [by eapply found_list_perm|done].
Qed.

(** A port that no control block has, on this host. *)
Definition unreachable ni s (pcb : Z) (u : list Z) : bool :=
  (pcb =? 0) && (ni_ip_addr ni =? current_iphdr_dest s) && udp_good s u &&
  negb (ip_addr_isbroadcast (current_iphdr_dest s) ni) && negb (ip_addr_ismulticast (current_iphdr_dest s)).
(** A datagram for the receive function of [pcb]. *)
Definition deliverable s (pcb : Z) (b : udp_pcb) (u : list Z) : Prop :=
  pcb ≠ 0 ∧ sk_pcbs s !! pcb = Some b ∧ up_recv b ≠ 0 ∧ udp_good s u = true.

(** What becomes of a datagram. *)
Definition udp_outcome ni R (H : gmultiset Z) s p b l x (m : M (stack B U) unit) s0 : Prop :=
  let data := contents (mem s) ((p, b) :: l) in let u := drop (Z.to_nat (ip_hlen x)) data in
  (Z.of_nat (length u) < 8 ∧ runs m s0 (λ _ s', gone ni R H s s' ∧ sent s' = sent s)) ∨
  ∃ pcb r, 8 ≤ Z.of_nat (length u) ∧ found (udp_dgram ni s u) (sk_pcbs s) (udp_pcbs s) pcb r ∧
    ((∃ c s1, deliverable s pcb c u ∧
        m s0 = udp_recv_fn (up_recv c) (up_recv_arg c) pcb p (current_iphdr_src s) (be16 (field 0 2 u)) s1 ∧
        searched s pcb r s1 ∧ at_offset ni R H s p b l (ip_hlen x + 8) s1) ∨
     ((∀ c, ¬ deliverable s pcb c u) ∧ runs m s0 (λ _ s', gone ni R H s s' ∧
        (sent s' = sent s ∨ (unreachable ni s pcb u = true ∧ sent s' = sent s ++ [error_packet ni (ip_id s) ICMP_DUR ICMP_DUR_PORT (take 28 data)]))))).

Lemma steps_outcome ni R H s p b l x : steps (udp_outcome ni R H s p b l x).
Proof.
  intros Y m k s0 (y & s1 & E & Ho)%runs_inv. destruct Ho as [[Hl Hr]|(pcb & r & Hl & Hf & [(c & s2 & Hd & E2 & Hrest)|[Hd Hr]])].
  - left. split; [done|]. unfold runs. by rewrite (bind_ok _ _ _ _ _ E).
  - right. exists pcb, r. split; [done|]. split; [done|]. left. exists c, s2. split; [done|]. by rewrite (bind_ok _ _ _ _ _ E).
  - right. exists pcb, r. split; [done|]. split; [done|]. right. split; [done|]. unfold runs. by rewrite (bind_ok _ _ _ _ _ E).
Qed.

(** What the message about the packet needs. *)
Record answerable ni s (head : list Z) : Prop := {
  an_route : routed_by ni s (ip_src head);
  an_fits : fits ni 56;
  an_id : is_u16 (ip_id s);
  an_addr : is_u32 (ni_ip_addr ni) }.

Lemma hlen_div x : ip_hlen x / 4 * 4 = ip_hlen x.
Proof. unfold ip_hlen. rewrite (Z.mul_comm 4), Z.div_mul by lia. lia. Qed.

Lemma searched_fields s pcb r s1 :
  searched s pcb r s1 → current_iphdr_src s1 = current_iphdr_src s ∧ current_iphdr_dest s1 = current_iphdr_dest s ∧
    ip_id s1 = ip_id s ∧ sk_pcbs s1 = sk_pcbs s ∧ ∀ ni dest, routed_by ni s dest → routed_by ni s1 dest.
Proof. by intros (b & f & ->). Qed.

Lemma unreach_runs ni R H s p b l x pcb r s1 (Q : unit → stack B U → Prop) :
  let data := contents (mem s) ((p, b) :: l) in
  incoming ni R H s p b l x → answerable ni s (take 28 data) → ip_hlen x + 8 ≤ p_len b →
  searched s pcb r s1 → at_offset ni R H s p b l (ip_hlen x + 8) s1 →
  (∀ s', sk_ok ni R H s' → same_stack s1 s' → kept_packets H (pb_store (pbs s1)) (pb_store (pbs s')) →
     sent s' = sent s1 ∨ sent s' = sent s1 ++ [error_packet ni (ip_id s) ICMP_DUR ICMP_DUR_PORT (take 28 data)] → Q tt s') →
  runs ((on_pbufs (pbuf_header p (ip_hlen x / 4 * 4 + UDP_HLEN));;
         b' ← on_pbufs (get_pbuf p);
         LWIP_ASSERT (p_payload b' =? p_payload b);;
         icmp_dest_unreach p ICMP_DUR_PORT);;
        udp_drop p [c_proterr; c_drop]) s1 Q.
Proof.
  intros data Hin [Hrt Hfit Hid Hni] Hfirst Hse [Hs1 Hpk1 Hc1 Hm1 Hsent1 Hk1] HQ.
  pose proof Hin as [Hx Hs Hpk Ho Hr Hat Hh _ Hbx Hbd Hlong Hsrc Hdest Hk]. destruct (searched_fields _ _ _ _ Hse) as (E1 & E2 & E3 & E4 & E5).
  pose proof (hlen_bounds x) as H60. rewrite hlen_div. change UDP_HLEN with 8. set (off := ip_hlen x + 8) in *.
  pose proof Ho as [Hob _]%Forall_cons. cbn [snd] in Hob.
  assert (moved off (moved (- off) b) = b) as Eback by (rewrite moved_moved; replace (off + - off) with 0 by lia; apply moved_0).
  apply runs_bind, runs_bind.
  apply (sk_move_runs ni R H s1 p (moved (- off) b) l off _ Hs1 Hpk1 Hr); [lia|cbn; lia| | |].
  { pose proof (pk_u16 _ _ _ Hpk). cbn [total_len snd] in *. cbn. lia. }
  { intros Hno. destruct Hno. intros _. split; [exact Hob|]. cbn. lia. }
  intros b2 s2 Ed Hs2 Hpk2 Hk2 _. rewrite Eback in Hpk2. assert (pbs s2 = b2) as Eb2 by apply pbs_with.
  pose proof (pk_chain _ _ _ Hpk2) as (_ & _ & Hpb & _). apply runs_bind. eapply sk_get_pbuf_runs; [by rewrite Eb2|].
  apply runs_bind, sk_assert_ok; [by apply Z.eqb_refl|]. unfold icmp_dest_unreach.
  assert (mem s2 = mem s) as Em2 by (unfold mem at 1; rewrite Eb2, Ed; exact Hm1).
  assert (mem_read (mem s2) (p_payload b) 28 = take 28 data) as E28.
  { rewrite Em2. unfold data. cbn [contents]. unfold cell_data. cbn [snd].
    rewrite take_app_le, mem_read_take by (rewrite ?length_mem_read; lia). done. }
  pose proof (icmp_send_response_runs ni R H s2 p b l ICMP_DUR ICMP_DUR_PORT) as Hicmp. cbv zeta in Hicmp. rewrite E28 in Hicmp.
  apply Hicmp; try done.
  - by rewrite Eb2.
  - lia.
  - by apply Forall_take.
  - by apply E5.
  - change (ip_id s2) with (ip_id s1). by rewrite E3.
  - intros s3 Hs3 Hsame3 Hk3 Hsent3. apply (udp_drop_runs ni R H s3 p _ _ Hs3). intros s4 Hs4 (Hsame4 & Hsent4 & Hk4). apply HQ.
    + done.
    + etrans; [apply same_stack_pbs|]. etrans; [exact Hsame3|exact Hsame4].
    + rewrite Eb2 in Hk3. etrans; [exact Hk2|]. etrans; [|exact Hk4]. eapply kept_subset, Hk3. held_in.
    + rewrite Hsent4. change (ip_id s2) with (ip_id s1) in Hsent3. rewrite E3 in Hsent3.
      assert (sent s2 = sent s1) as Es2 by apply sent_pbs. by rewrite Es2 in Hsent3.
Qed.

Lemma found_zero d m l pcb r : found d m l pcb r → known m l → pcb = 0 ∨ is_Some (m !! pcb).
Proof.
  intros [pre q post -> _ _|pre q post -> _ _ _|_] Hk; [right|right|by left].
  all: apply Forall_app in Hk as [_ [[? _] _]%Forall_cons]; done.
Qed.

Lemma udp_input_outcome ni R H s p b l x :
  let data := contents (mem s) ((p, b) :: l) in
  incoming ni R H s p b l x → answerable ni s (take 28 data) →
  dg_dest (udp_dgram ni s (drop (Z.to_nat (ip_hlen x)) data)) ≠ DHCP_CLIENT_PORT →
  udp_outcome ni R H s p b l x (udp_input p ni) s.
Proof.
  intros data Hin Han Hport. pose proof Hin as [Hx Hs Hpk Ho Hr Hat Hh Hfirst Hbx Hbd Hlong Hsrc Hdest Hk].
  pose proof (length_contents (mem s) _ (pk_lens _ _ _ Hpk)) as Hlen. fold data in Hlen.
  apply (udp_input_steps _ ni R H s p b l x Hin (steps_outcome ni R H s p b l x) Hport).
  - intros Hshort. left. split; [exact Hshort|]. apply (udp_drop_runs ni R H (tick P_udp c_recv s) p _ _ Hs).
    intros s' Hs' (Hsame & Hsent & Hkp). destruct (same_stack_pcbs _ _ Hsame) as [Eu Ep]. split; [|done]. split; [done|]. split; [done|].
    by rewrite Eu, Ep.
  - intros H8 pcb r s1 Hf Hse. fold data in Hf. set (u := drop _ data) in *.
    assert (∀ (m : M (stack B U) unit) off, at_offset ni R H s p b l off s1 → (∀ c, ¬ deliverable s pcb c u) →
      (∀ Q : unit → stack B U → Prop, (∀ s', sk_ok ni R H s' → packets_only H s1 s' → Q tt s') → runs m s1 Q) →
      udp_outcome ni R H s p b l x m s1) as Hdrop.
    { intros m off Hao Hnd Hm. right. exists pcb, r. split; [exact H8|]. split; [exact Hf|]. right. split; [exact Hnd|]. apply Hm.
      intros s' Hs' (Hsame & Hsent & Hkp). split; [|left; by rewrite Hsent; apply Hao].
      eapply searched_gone; [exact Hf|exact Hse|apply Hao|done|done|done]. }
    split; [|split].
    + intros Hao -> _. apply (Hdrop _ _ Hao); [by intros c [? _]|]. intros Q HQ. by apply (sk_give_up_runs ni R H s1 p _ (ao_ok _ _ _ _ _ _ _ _ _ Hao)).
    + intros Hao _ Hg. fold data u in Hg. apply (Hdrop _ _ Hao); [intros c (_ & _ & _ & E); by rewrite Hg in E|]. intros Q HQ.
      by apply (udp_drop_runs ni R H s1 p _ _ (ao_ok _ _ _ _ _ _ _ _ _ Hao)).
    + intros Hao Hours Hg. fold data u in Hg |- *. unfold udp_deliver. destruct (searched_fields _ _ _ _ Hse) as (E1 & E2 & E3 & E4 & E5).
      destruct (Z.eqb_spec pcb 0) as [->|Hp0]; cbn [negb].
      * destruct Hours as [?|Hours]; [done|]. assert (∀ c, ¬ deliverable s 0 c u) as Hnd by (by intros c [? _]).
        assert (ip_hlen x + 8 ≤ p_len b) as Hfirst' by (rewrite length_drop in H8; fold data in H8; lia).
        destruct (negb _ && negb _) eqn:Ecast.
        2:{ apply (Hdrop _ _ Hao Hnd). intros Q HQ. apply runs_bind, sk_ret_runs.
            by apply (udp_drop_runs ni R H s1 p _ _ (ao_ok _ _ _ _ _ _ _ _ _ Hao)). }
        right. exists 0, r. split; [exact H8|]. split; [exact Hf|]. right. split; [exact Hnd|].
        apply (unreach_runs ni R H s p b l x 0 r s1 _ Hin Han Hfirst' Hse Hao). intros s' Hs' Hsame Hk' Hsent.
        split; [eapply searched_gone; [exact Hf|exact Hse|apply Hao|done|done|done]|]. rewrite (ao_sent _ _ _ _ _ _ _ _ _ Hao) in Hsent.
        destruct Hsent as [Hsent|Hsent]; [by left|right]. split; [|exact Hsent]. unfold unreachable.
        change (dg_broadcast (udp_dgram ni s u)) with (ip_addr_isbroadcast (current_iphdr_dest s) ni) in Ecast.
        change (dg_dest_ip (udp_dgram ni s u)) with (current_iphdr_dest s) in Ecast.
        fold data u. rewrite (proj2 (Z.eqb_eq _ _) Hours), Hg. exact Ecast.
      * destruct (found_zero _ _ _ _ _ Hf Hk) as [?|[c Hc]]; [done|]. apply steps_outcome.
        eapply runs_intro; [unfold get_pcb; by rewrite E4, Hc|].
        destruct (Z.eqb_spec (up_recv c) 0) as [Hrecv|Hrecv]; cbn [negb].
        { apply (Hdrop _ _ Hao); [intros c' (_ & Hc' & Hr' & _); congruence|]. intros Q HQ.
          by apply (sk_give_up_runs ni R H s1 p _ (ao_ok _ _ _ _ _ _ _ _ _ Hao)). }
        apply steps_outcome, gets_runs. right. exists pcb, r. split; [exact H8|]. split; [exact Hf|]. left. exists c, s1.
        split; [done|]. rewrite E1. done.
Qed.
End Udp.
