(* ===== verification/UdpSend.v ===== *)
(** * Sending datagrams: the theorems

    What [udp_sendto] gives to the interface is an IP packet with a datagram
    whose checksum is right, and that the other side takes for the same data. *)

From S2P Require Import Prelude LwipBase IpAddr InetChksum Heap Memp Pbuf PbufChain PbufLinks PbufData PbufMake PbufAlloc PbufClaims PbufRefs PbufChksum Netif EthArpTable EthArpSend EthArpInput LwipStack Ip Icmp Udp IpInput StackRuns IpOutput IpReceive IcmpRuns UdpPorts UdpRuns.
From Stdlib Require Import ZArith Lia.
From stdpp Require Import base numbers gmultiset list gmap.
Open Scope Z_scope.

(** ** The octets *)

Definition udp_ports (sport dport len : Z) : list Z := be_bytes sport ++ be_bytes dport ++ be_bytes len.
Definition datagram_with (chk sport dport : Z) (data : list Z) : list Z :=
  udp_ports sport dport (8 + Z.of_nat (length data)) ++ le_bytes 2 chk ++ data.
(** The checksum, which is not 0 because 0 stands for none. *)
Definition datagram_chksum (src dst sport dport : Z) (data : list Z) : Z :=
  let c := inet_chksum (pseudo_header src dst IP_PROTO_UDP (8 + Z.of_nat (length data)) ++ datagram_with 0 sport dport data) in
  if c =? 0 then 0xffff else c.
Definition udp_datagram (src dst sport dport : Z) (data : list Z) : list Z :=
  datagram_with (datagram_chksum src dst sport dport data) sport dport data.

Lemma bytes_be x : bytes_ok (be_bytes x).
Proof. unfold be_bytes. repeat (apply Forall_cons; split; [apply u8_range|]). constructor. Qed.
Lemma bytes_ports sport dport len : bytes_ok (udp_ports sport dport len).
Proof. unfold udp_ports. repeat apply bytes_ok_app; apply bytes_be. Qed.
Lemma length_datagram chk sport dport data : length (datagram_with chk sport dport data) = (8 + length data)%nat.
Proof. unfold datagram_with, udp_ports. rewrite !length_app, length_le_bytes. cbn [be_bytes length]. lia. Qed.

(** In one's complement, either zero does. *)
Lemma seals_either pre post :
  bytes_ok pre → bytes_ok post → Nat.Even (length pre) → Z.of_nat (length pre + 2 + length post) < 2 ^ 16 →
  let c := inet_chksum (with_field pre 0 post) in inet_chksum (with_field pre (if c =? 0 then 0xffff else c) post) = 0.
Proof.
  intros Hpre Hpost He Hlen c. destruct (Z.eqb_spec c 0) as [Hc|Hc]; [|by apply inet_chksum_seals].
  unfold c in Hc. assert (∀ w, Z.of_nat (length (with_field pre w post)) < 2 ^ 16) as Hl by (intros w; by rewrite length_with_field).
  apply inet_chksum_zero in Hc; [|by apply with_field_ok|done]. apply inet_chksum_zero; [by apply with_field_ok|done|].
  rewrite le_word_with_field by by vm_compute. rewrite <-Hc at 2. pose proof (le_word_nonneg _ (with_field_ok pre 0 post Hpre Hpost)) as Hw.
  assert (le_word (with_field pre 0 post) ≠ 0) as Hne by (intros E; rewrite E, oc_0 in Hc; done).
  assert (0 < 2 ^ (8 * Z.of_nat (length pre))) by (apply Z.pow_pos_nonneg; lia).
  apply oc_eq; [lia|lia|eexists (2 ^ (8 * Z.of_nat (length pre))); lia|lia].
Qed.

Section Octets.
Context (src dst sport dport : Z) (data : list Z).
Context (Hd : bytes_ok data) (Hlen : Z.of_nat (length data) < 65000).
Abbreviation n := (8 + Z.of_nat (length data)).

Lemma datagram_field w : pseudo_header src dst IP_PROTO_UDP n ++ datagram_with w sport dport data =
  with_field (pseudo_header src dst IP_PROTO_UDP n ++ udp_ports sport dport n) w data.
Proof. unfold datagram_with, with_field. by rewrite <-!app_assoc. Qed.

(** The receiver's test succeeds, and sees a checksum. *)
Lemma datagram_checks : inet_chksum (pseudo_header src dst IP_PROTO_UDP n ++ udp_datagram src dst sport dport data) = 0.
Proof.
  unfold udp_datagram, datagram_chksum. rewrite !datagram_field. apply seals_either; [|done|by exists 9%nat|].
  - apply bytes_ok_app; [|apply bytes_ports]. apply bytes_pseudo_header; [by vm_compute|]. unfold is_u16. lia.
  - cbn [length app]. rewrite !length_app. cbn. lia.
Qed.
End Octets.

(** The stores, in the order of the program. *)
Lemma datagram_octets x sport dport len chk :
  length x = 8%nat → is_u16 sport → is_u16 dport → is_u16 len →
  poke 6 (le_bytes 2 chk) (poke 4 (le_bytes 2 (lwip_htons len)) (poke 6 (le_bytes 2 0) (poke 2 (le_bytes 2 (lwip_htons dport))
    (poke 0 (le_bytes 2 (lwip_htons sport)) x)))) = udp_ports sport dport len ++ le_bytes 2 chk ∧
  poke 4 (le_bytes 2 (lwip_htons len)) (poke 6 (le_bytes 2 0) (poke 2 (le_bytes 2 (lwip_htons dport))
    (poke 0 (le_bytes 2 (lwip_htons sport)) x))) = udp_ports sport dport len ++ le_bytes 2 0.
Proof.
  intros Hx Hs Hd Hl. rewrite !htons_bytes by done. unfold udp_ports. change (le_bytes 2 0) with [0; 0].
  assert (length (le_bytes 2 chk) = 2%nat) as H1 by done. set (y := le_bytes 2 chk) in *. clearbody y.
  do 3 (destruct y as [|? y]; try done). do 9 (destruct x as [|? x]; try done).
Qed.

Section Send.
Context {A B U : Type} {BA : BufAlloc A} {LA : BufAllocLaws A} {LW : Lower A B} {LL : LowerLaws A B} {UP : Upper B U}.
Implicit Types (s : stack B U).

Lemma sk_chksum_runs s q l src dst len (Q : Z → stack B U → Prop) :
  packet (pb_store (pbs s)) q l → bytes_ok (contents (mem s) l) → total_len l + 12 < 2 ^ 16 → is_u32 src → is_u32 dst → is_u16 len →
  Q (inet_chksum (pseudo_header src dst IP_PROTO_UDP len ++ contents (mem s) l)) s →
  runs (on_pbufs (inet_chksum_pseudo q src dst IP_PROTO_UDP len)) s Q.
Proof. intros Hpk Hb Ht Hs Hd Hl HQ. eapply on_pbufs_keep; [by apply chksum_pseudo_ok|]. exact HQ. Qed.

(** The header of the datagram at the front of [q]; the data are behind it. *)
Lemma udp_header_runs {X} ni R H s q c l sport dport src dst b (k : M (stack B U) X) (Q : X → stack B U → Prop) :
  let data := drop 8 (contents (mem s) ((q, c) :: l)) in
  sk_ok ni R ({[+ q +]} ⊎ H) s → packet (pb_store (pbs s)) q ((q, c) :: l) → own_octets ((q, c) :: l) →
  8 ≤ p_len c → bytes_ok data → total_len ((q, c) :: l) ≤ 64000 →
  is_u16 sport → is_u16 dport → is_u32 src → is_u32 dst → Z.land (up_flags b) UDP_FLAGS_NOCHKSUM = 0 →
  (∀ m, contents m ((q, c) :: l) = udp_datagram src dst sport dport data →
     changes (mem s) m (p_payload c) (p_payload c + 8) → runs k (set_mem m s) Q) →
  runs (on_pbufs (store16 (p_payload c + UDPH_SRC) (lwip_htons sport));;
        on_pbufs (store16 (p_payload c + UDPH_DEST) (lwip_htons dport));;
        on_pbufs (store16 (p_payload c + UDPH_CHKSUM) 0);;
        udp_write_header q src dst b None;; k) s Q.
Proof.
  intros data Hs Hpk Ho H8 Hb Hfit Hsp Hdp Hsrc Hdst Hfl HQ. pose proof (pk_chain _ _ _ Hpk) as (_ & _ & Hc & _).
  destruct (pk_lens _ _ _ Hpk) as (_ & Etot & Hl0%lens_nonneg). pose proof (length_contents (mem s) _ (pk_lens _ _ _ Hpk)) as Hlen.
  assert (total_len ((q, c) :: l) = 8 + Z.of_nat (length data)) as Et by (unfold data; rewrite length_drop; cbn [total_len snd] in *; lia).
  rewrite <-(set_mem_same s) at 1. unfold store16, UDPH_SRC, UDPH_DEST, UDPH_CHKSUM.
  do 3 (apply runs_bind, sk_store_runs). set (m3 := mem_write _ (p_payload c + 6) _).
  unfold udp_write_header. apply runs_bind, runs_bind. eapply sk_get_pbuf_runs; [by rewrite store_set_mem|]. cbv zeta.
  unfold store16, UDPH_LEN, UDPH_CHKSUM. apply runs_bind, sk_store_runs. rewrite Etot, Hfl. cbn [Z.eqb].
  change (p_len c + total_len l) with (total_len ((q, c) :: l)). rewrite Et. set (n := 8 + Z.of_nat (length data)) in *.
  assert (is_u16 n) as Hn by (unfold is_u16; lia). set (m4 := mem_write m3 _ _).
  assert (clear_of (p_payload c) (p_payload c + Z.of_nat 8) l) as Hcl.
  { eapply clear_of_sub, (rewritten_clear _ _ _ _ _ _ (lw_held _ _ _ _ Hs) Hpk Ho); lia. }
  assert (∀ chk m', m' = m4 ∧ chk = 0 ∨ m' = mem_write m4 (p_payload c + 6) (le_bytes 2 chk) →
    contents m' ((q, c) :: l) = datagram_with chk sport dport data ∧ changes (mem s) m' (p_payload c) (p_payload c + 8)) as Hcon.
  { intros chk m' Hm'. destruct (datagram_octets (mem_read (mem s) (p_payload c) 8) sport dport n chk (length_mem_read _ _ _) Hsp Hdp Hn) as [E1 E0].
    assert (changes (mem s) m' (p_payload c) (p_payload c + 8)) as Hch.
    { destruct Hm' as [[-> ->]| ->]; unfold m4, m3; repeat (apply changes_in; [|lia|rewrite length_le_bytes; lia]); done. }
    split; [|done]. rewrite (rewritten_contents 8 _ _ _ _ _ _ Hch ltac:(lia) Hcl eq_refl). fold data. unfold datagram_with. rewrite app_assoc.
    f_equal. destruct Hm' as [[-> ->]| ->]; unfold m4, m3; rewrite !mem_read_store by (done || (vm_compute; lia)); [exact E0|exact E1]. }
  destruct (Hcon 0 m4 ltac:(by left)) as [Econ0 _].
  apply runs_bind. apply (sk_chksum_runs _ q ((q, c) :: l)); rewrite ?mem_set_mem, ?store_set_mem, ?Econ0; try done.
  { unfold datagram_with. apply bytes_ok_app; [apply bytes_ports|]. by apply bytes_ok_app; [apply le_bytes_ok|]. }
  { lia. }
  apply sk_store_runs. fold (datagram_chksum src dst sport dport data). destruct (Hcon (datagram_chksum src dst sport dport data) _ ltac:(by right)).
  by apply HQ.
Qed.

(** The IP packet for a datagram. *)
Definition datagram_packet (ni : netif) (id : Z) (b : udp_pcb) (dst dport : Z) (data : list Z) : list Z :=
  sent_header (up_tos b) (28 + Z.of_nat (length data)) id (up_ttl b) IP_PROTO_UDP (ni_ip_addr ni) dst ++
  udp_datagram (ni_ip_addr ni) dst (up_local_port b) dport data.

(** A bound control block that may send to [dst] on [ni]. *)
Record sender (ni : netif) (b : udp_pcb) (dst dport : Z) : Prop := {
  sd_port : 0 < up_local_port b < 2 ^ 16;
  sd_addr : up_local_ip b = IPADDR_ANY ∨ up_local_ip b = ni_ip_addr ni;
  sd_cast : Z.land (up_so_options b) SOF_BROADCAST ≠ 0 ∨ ip_addr_isbroadcast dst ni = false;
  sd_chksum : Z.land (up_flags b) UDP_FLAGS_NOCHKSUM = 0;
  sd_ttl : is_u8 (up_ttl b);
  sd_tos : is_u8 (up_tos b);
  sd_ni : is_u32 (ni_ip_addr ni);
  sd_dst : is_u32 dst;
  sd_dport : is_u16 dport }.

(** The packet [q], with room for the header of the datagram at its front. *)
Lemma datagram_out_runs {X} ni R H s b q d l dst dport (k : Z → M (stack B U) X) (Q : X → stack B U → Prop) :
  let data := drop 8 (contents (mem s) ((q, d) :: l)) in
  sender ni b dst dport → sk_ok ni R ({[+ q +]} ⊎ H) s → packet (pb_store (pbs s)) q ((q, d) :: l) →
  own_octets ((q, d) :: l) → nonempty l → p_ref d = 1 → 8 ≤ p_len d → has_room 20 q d → bytes_ok data →
  fits ni (20 + total_len ((q, d) :: l)) → is_u16 (ip_id s) →
  (∀ r s', sk_ok ni R ({[+ q +]} ⊎ H) s' → same_stack s s' →
     sent s' = sent s ++ [(dst, datagram_packet ni (ip_id s) b dst dport data)] →
     kept_packets H (pb_store (pbs s)) (pb_store (pbs s')) → runs (k r) s' Q) →
  runs (on_pbufs (store16 (p_payload d + UDPH_SRC) (lwip_htons (up_local_port b)));;
        on_pbufs (store16 (p_payload d + UDPH_DEST) (lwip_htons dport));;
        on_pbufs (store16 (p_payload d + UDPH_CHKSUM) 0);;
        udp_write_header q (ni_ip_addr ni) dst b None;;
        err ← ip_output_if q (ni_ip_addr ni) (Some dst) (up_ttl b) (up_tos b) IP_PROTO_UDP ni;
        k err) s Q.
Proof.
  intros data [Hport Haddr Hcast Hchk Httl Htos Hni Hdst Hdp] Hs Hpk Ho Hne Hr H8 Hroom Hb [Hmtu Hfit] Hid HQ.
  destruct (pk_lens _ _ _ Hpk) as (_ & _ & Hl0%lens_nonneg). pose proof (length_contents (mem s) _ (pk_lens _ _ _ Hpk)) as Hlen.
  assert (total_len ((q, d) :: l) = 8 + Z.of_nat (length data)) as Et by (unfold data; rewrite length_drop; cbn [total_len snd] in *; lia).
  apply (udp_header_runs ni R H s q d l (up_local_port b) dport (ni_ip_addr ni) dst b); try done; [lia|unfold is_u16; lia|].
  fold data. intros m Econ Hch. set (s1 := set_mem m s). assert (mem s1 = m) as Em by apply mem_set_mem.
  assert (pb_store (pbs s1) = pb_store (pbs s)) as Est by apply store_set_mem.
  assert (source (ni_ip_addr ni) ni = ni_ip_addr ni) as Esrc by (unfold source; by destruct (ip_addr_isany _)).
  apply runs_bind. apply (ip_output_if_runs ni R H s1 q d l); rewrite ?Esrc, ?Est; try done.
  - by apply sk_ok_mem.
  - lia.
  - split; [destruct Hmtu; lia|lia].
  - intros r s2 Hs2 Hsame Hsent _ _ Hk2. apply HQ; [done|etrans; [apply same_stack_pbs|exact Hsame]| |done].
    rewrite Hsent, Em, Econ. change (sent s1) with (sent (set_mem m s)). rewrite sent_mem. unfold datagram_packet.
    do 5 f_equal. lia.
Qed.

Lemma udp_sendto_if_runs ni R H s pcb b p c l dst dport (Q : Z → stack B U → Prop) :
  let data := contents (mem s) ((p, c) :: l) in
  sk_pcbs s !! pcb = Some b → sender ni b dst dport → sk_ok ni R ({[+ p +]} ⊎ H) s → packet (pb_store (pbs s)) p ((p, c) :: l) →
  own_octets ((p, c) :: l) → nonempty l → p_ref c = 1 → has_room 28 p c → bytes_ok data →
  fits ni (28 + total_len ((p, c) :: l)) → is_u16 (ip_id s) →
  (∀ r s', sk_ok ni R ({[+ p +]} ⊎ H) s' → same_stack s s' →
     sent s' = sent s ++ [(dst, datagram_packet ni (ip_id s) b dst dport data)] →
     kept_packets H (pb_store (pbs s)) (pb_store (pbs s')) → Q r s') →
  runs (udp_sendto_if pcb p dst dport ni) s Q.
Proof.
  intros data Hb [Hport Haddr Hcast Hchk Httl Htos Hni Hdst Hdp] Hs Hpk Ho Hne Hr Hroom Hbytes Hfit Hid HQ.
  pose proof Ho as [Hoc Hol]%Forall_cons. cbn [snd] in Hoc. destruct (Hroom ltac:(lia)) as [_ Hpl].
  destruct (pk_lens _ _ _ Hpk) as (Hc0 & Etot & Hl0%lens_nonneg). pose proof (length_contents (mem s) _ (pk_lens _ _ _ Hpk)) as Hlen. fold data in Hlen.
  unfold udp_sendto_if, udp_sendto_if_chksum. apply runs_bind. eapply runs_intro; [unfold get_pcb; by rewrite Hb|].
  replace ((Z.land (up_so_options b) SOF_BROADCAST =? 0) && ip_addr_isbroadcast dst ni) with false
    by (symmetry; apply andb_false_iff; destruct Hcast as [Hc| ->]; [left; by apply Z.eqb_neq|by right]).
  rewrite (proj2 (Z.eqb_neq (up_local_port b) 0)) by lia. apply runs_bind, sk_ret_runs. cbn [negb Z.eqb ERR_OK].
  destruct Hfit as [Hmtu Hfit]. apply runs_bind. change UDP_HLEN with 8.
  apply (sk_move_runs ni R H s p c l 8 _ Hs Hpk Hr); [done|lia|lia| |].
  { intros []. intros _. split; [exact Hoc|lia]. }
  intros b1 s1 Ed Hs1 Hpk1 Hk1 _. cbn [negb Z.eqb]. apply runs_bind, sk_ret_runs.
  pose proof (pk_chain _ _ _ Hpk1) as (_ & Hp0 & Hc1 & _). rewrite (proj2 (Z.eqb_neq p 0)) by done.
  assert (pbs s1 = b1) as Eb1 by apply pbs_with. assert (mem s1 = mem s) as Em1 by (unfold mem at 1; by rewrite Eb1, Ed).
  apply runs_bind. eapply sk_get_pbuf_runs; [by rewrite Eb1|]. apply runs_bind, sk_assert_ok; [apply Z.leb_le; cbn; lia|]. cbv zeta.
  apply runs_bind. eapply runs_intro; [unfold get_pcb; change (sk_pcbs s1) with (sk_pcbs s); by rewrite Hb|].
  assert ((negb (ip_addr_isany (up_local_ip b)) && negb (up_local_ip b =? ni_ip_addr ni)) = false ∧
    (if ip_addr_isany (up_local_ip b) then ni_ip_addr ni else up_local_ip b) = ni_ip_addr ni) as [-> ->].
  { unfold ip_addr_isany. destruct Haddr as [-> | ->]; [done|]. rewrite Z.eqb_refl, andb_false_r. by destruct (_ =? IPADDR_ANY). }
  set (d := moved 8 c) in *. assert (drop 8 (contents (mem s1) ((p, d) :: l)) = data) as Edata.
  { rewrite Em1. unfold d. rewrite contents_moved, drop_app_length' by (lia || by rewrite length_mem_read). done. }
  apply (datagram_out_runs ni R H s1 b p d l dst dport); rewrite ?Edata, ?Eb1; try done.
  - by constructor.
  - cbn. lia.
  - intros _. split; [exact Hoc|]. cbn. lia.
  - cbn [total_len snd] in *. split; cbn; [destruct Hmtu; lia|lia].
  - intros r s2 Hs2 Hsame Hsent Hk2. rewrite Z.eqb_refl. cbn [negb]. apply runs_bind, sk_ret_runs. apply runs_bind, modify_runs, sk_ret_runs.
    apply HQ; [done| |rewrite <-(sent_pbs b1 s); exact Hsent|by etrans].
    etrans; [apply same_stack_pbs|]. etrans; [exact Hsame|auto].
Qed.
End Send.
