(* ===== verification/StackClaims.v ===== *)
(** * IP, ICMP and UDP: what stations see of each other

    Packets leave with a header that checks and arrive without padding, echo
    requests are answered, ports belong to one control block, and datagrams
    reach the receive function of a control block that was bound to them. *)

From S2P Require Import Prelude LwipBase IpAddr InetChksum Heap Memp Pbuf PbufChain PbufLinks PbufData PbufMake PbufAlloc PbufClaims PbufRefs PbufChksum Netif EthArpTable EthArpSend EthArpInput EthArpClaims LwipStack Ip Icmp Udp IpInput StackRuns IpOutput IpReceive IcmpRuns UdpPorts UdpRuns UdpSend.
From Stdlib Require Import ZArith Lia.
From stdpp Require Import base numbers gmultiset list gmap.
Open Scope Z_scope.

(** ** Octets *)

Lemma head_of_contents m q b l n h rest :
  contents m ((q, b) :: l) = h ++ rest → length h = n → Z.of_nat n ≤ p_len b → (n ≤ 64)%nat →
  take n (mem_read m (p_payload b) 64) = h.
Proof.
  intros E Hh Hn H64. rewrite mem_read_take by done. rewrite (contents_behind _ _ _ _ (Z.of_nat n)) in E by lia. rewrite Nat2Z.id in E.
  apply app_inj_1 in E as [E _]; [done|by rewrite length_mem_read].
Qed.

(** The header of a reply. *)
Lemma bytes_turned chk x src dest : bytes_ok x → length x = 20%nat → bytes_ok (turned_header_with chk x src dest).
Proof.
  intros Hx Hl. unfold turned_header_with. do 20 (destruct x as [|? x]; try done).
  repeat (apply Forall_cons in Hx as [? Hx]). cbn -[le_bytes]. repeat (apply Forall_cons; split; [done|]).
  apply bytes_ok_app; [apply le_bytes_ok|]. apply bytes_ok_app; apply le_bytes_ok.
Qed.
Lemma turned_fields chk x src dest tail :
  length x = 20%nat → is_u32 src → is_u32 dest →
  length (turned_header_with chk x src dest) = 20%nat ∧
  ip_src (turned_header_with chk x src dest ++ tail) = src ∧ ip_dest (turned_header_with chk x src dest ++ tail) = dest.
Proof.
  intros Hl Hs Hd. unfold turned_header_with. do 20 (destruct x as [|? x]; try done).
  split; [done|]. split; by apply le_word_le4.
Qed.
Lemma turned_header_checks x src dest : bytes_ok x → length x = 20%nat → inet_chksum (turned_header x src dest) = 0.
Proof.
  intros Hx Hl. set (pre := field 0 8 x ++ [ICMP_TTL; x.[9]]). set (post := le_bytes 4 src ++ le_bytes 4 dest).
  assert (∀ w, turned_header_with w x src dest = with_field pre w post) as E.
  { intros w. unfold turned_header_with, with_field, pre, post. by rewrite <-!app_assoc. }
  unfold turned_header. rewrite !E. pose proof (bytes_turned 0 x src dest Hx Hl) as Hb. rewrite E in Hb.
  apply Forall_app in Hb as [Hp [_ Hq]%Forall_app]. do 20 (destruct x as [|? x]; try done).
  apply inet_chksum_seals; try done. by exists 5%nat.
Qed.

Section Claims.
Context {A B U : Type} {BA : BufAlloc A} {LA : BufAllocLaws A} {LW : Lower A B} {LL : LowerLaws A B} {UP : Upper B U}.
Implicit Types (s : stack B U).

(** [ip_output_if] on a packet with room for the header puts a header in
    front that says its length, its protocol and its addresses and that
    checks, advances the identification, and gives the result to the
    interface, which has it as it was sent, or to the fragmentation when it is
    longer than the interface allows; a packet without room is refused with
    ERR_BUF and nothing changes but a counter. *)
Theorem packets_leave ni R H s p b l src dest ttl tos proto :
  let len := total_len ((p, b) :: l) + 20 in
  let header := sent_header tos len (ip_id s) ttl proto (source src ni) dest in
  sk_ok ni R ({[+ p +]} ⊎ H) s → packet (pb_store (pbs s)) p ((p, b) :: l) → own_octets ((p, b) :: l) → nonempty l →
  p_ref b = 1 → len < 2 ^ 16 → is_u16 (ip_id s) → is_u8 tos → is_u8 ttl → is_u8 proto →
  is_u32 (source src ni) → is_u32 dest →
  if decide (has_room 20 p b) then
    (∃ b1, let s1 := tick P_ip c_xmit (with_ip_id (u16 (ip_id s + 1)) (with_pbs b1 s)) in
       ip_output_if p src (Some dest) ttl tos proto ni s = transmit p dest len ni s1 ∧ headed ni R H s p b l header b1 s1) ∧
    (fits ni len → runs (ip_output_if p src (Some dest) ttl tos proto ni) s (λ _ s',
       sk_ok ni R ({[+ p +]} ⊎ H) s' ∧ kept_packets H (pb_store (pbs s)) (pb_store (pbs s')) ∧
       sent s' = sent s ++ [(dest, header ++ contents (mem s) ((p, b) :: l))]))
  else ip_output_if p src (Some dest) ttl tos proto ni s = Ok (ERR_BUF, tick P_ip c_err s).
Proof.
  intros len header Hs Hpk Ho Hne Hr Hlen Hid Htos Httl Hproto Hsrc Hdest.
  pose proof (ip_output_if_ok ni R H s p b l src dest ttl tos proto Hs Hpk Ho Hr Hlen Hid Htos Httl Hproto Hsrc Hdest) as Hok.
  cbv zeta in Hok. destruct (decide (has_room 20 p b)) as [Hroom|]; [|done]. split; [exact Hok|]. intros Hfit.
  destruct (pk_lens _ _ _ Hpk) as [Hb0 _].
  by apply (ip_output_if_runs ni R H s p b l src dest ttl tos proto _ Hs Hpk Ho Hne Hb0 Hr Hfit Hroom Hid Htos Httl Hproto Hsrc Hdest).
Qed.

(** C28. Whatever [ip_input] is given, the version, the lengths, the checksum
    and the addresses of its header decide: it is freed, with the counters of
    the first test it fails, and nothing else changes, or it is cut to the
    length its header says and given to the reassembly or to the protocols. *)
Theorem packets_judged ni R H s p b l :
  let a := p_payload b in let x := mem_read (mem s) a 64 in
  sk_ok ni R ({[+ p +]} ⊎ H) s → packet (pb_store (pbs s)) p ((p, b) :: l) → own_octets ((p, b) :: l) →
  exclusive ((p, b) :: l) → bytes_ok x →
  match judge ni (netif_list s) (p_len b) (p_tot_len b) x with
  | V_drop why => runs (ip_input p ni) s (discarded ni R H s why)
  | v =>
     ∃ b1 c k, let s1 := looked b1 (ip_src x) (ip_dest x) s in
       taken ni R H s p a x (contents (mem s) ((p, b) :: l)) b1 c k s1 ∧
       ip_input p ni s = (if decide (v = V_reassemble) then reassemble p ni else ip_deliver p a ni) s1
  end.
Proof.
  intros a x Hs Hpk Ho Hx Hb. pose proof (ip_input_fate ni R H s p b l Hs Hpk Ho Hx Hb) as Hf. cbv zeta in Hf. fold a x in Hf.
  destruct (judge _ _ _ _ _); [exact Hf| |]; destruct Hf as (s1 & E & b1 & c & k & Es1 & Htk & _); exists b1, c, k; cbv zeta; rewrite <-Es1.
  - by rewrite decide_True.
  - by rewrite decide_False.
Qed.

(** C26. What [ip_output_if] of one station gives to its interface, the
    [ip_input] of the station it is for, or of any that takes broadcasts,
    gives to its protocols: the same octets, without what the link has added
    behind them, in whatever buffers they came. *)
Theorem packets_arrive ni R H s p b l src dest ttl tos proto :
  let len := total_len ((p, b) :: l) + 20 in
  let d := sent_header tos len (ip_id s) ttl proto (source src ni) dest ++ contents (mem s) ((p, b) :: l) in
  sk_ok ni R ({[+ p +]} ⊎ H) s → packet (pb_store (pbs s)) p ((p, b) :: l) → own_octets ((p, b) :: l) → nonempty l →
  p_ref b = 1 → fits ni len → has_room 20 p b → is_u16 (ip_id s) → is_u8 tos → is_u8 ttl → is_u8 proto →
  is_u32 (source src ni) → is_u32 dest →
  runs (ip_output_if p src (Some dest) ttl tos proto ni) s (λ _ s', sent s' = sent s ++ [(dest, d)]) ∧
  ∀ inp R' H' s2 q c k pad,
    taken_by inp (source src ni) dest → sk_ok inp R' ({[+ q +]} ⊎ H') s2 → packet (pb_store (pbs s2)) q ((q, c) :: k) →
    own_octets ((q, c) :: k) → exclusive ((q, c) :: k) → bytes_ok (mem_read (mem s2) (p_payload c) 64) → 20 ≤ p_len c →
    contents (mem s2) ((q, c) :: k) = d ++ pad →
    leads (ip_input q inp) s2 (ip_deliver q (p_payload c) inp) (λ s3, ∃ c' k',
      packet (pb_store (pbs s3)) q ((q, c') :: k') ∧ contents (mem s3) ((q, c') :: k') = d ∧
      current_iphdr_src s3 = source src ni ∧ current_iphdr_dest s3 = dest ∧ sk_ok inp R' ({[+ q +]} ⊎ H') s3).
Proof.
  intros len d Hs Hpk Ho Hne Hr Hfit Hroom Hid Htos Httl Hproto Hsrc Hdest. destruct (pk_lens _ _ _ Hpk) as [Hb0 Hl0]. split.
  { by apply (ip_output_if_runs ni R H s p b l src dest ttl tos proto _ Hs Hpk Ho Hne Hb0 Hr Hfit Hroom Hid Htos Httl Hproto Hsrc Hdest). }
  intros inp R' H' s2 q c k pad Htk Hs2 Hpk2 Ho2 Hx2 Hb2 H20 Hc. unfold d in *. set (header := sent_header _ _ _ _ _ _ _) in *.
  set (x := mem_read (mem s2) (p_payload c) 64) in *.
  pose proof (length_contents (mem s) _ (pk_lens _ _ _ Hpk)) as Hlen. pose proof (length_contents (mem s2) _ (pk_lens _ _ _ Hpk2)) as Hlen2.
  assert (length header = 20%nat) as Hh by done. rewrite Hc, !length_app, Hh in Hlen2. pose proof (pk_lens _ _ _ Hpk2) as (_ & Etot & _). destruct Hfit as [_ Hfit].
  assert (carries x len proto (source src ni) dest) as Hx.
  { eapply (header_carries x tos len (ip_id s) ttl); try done; [|unfold len, is_u16 in *; lia].
    eapply head_of_contents; [rewrite Hc, <-app_assoc; done|done|done|lia]. }
  pose proof (ip_input_fate inp R' H' s2 q c k Hs2 Hpk2 Ho2 Hx2 Hb2) as Hf. cbv zeta in Hf. fold x in Hf.
  rewrite (judge_carries x len proto (source src ni) dest) in Hf; [|done|done|done|cbn [total_len snd] in *; unfold len; cbn [total_len snd]; lia].
  destruct Hf as (s3 & E & b1 & c' & k' & Es3 & Htk3 & _). exists s3. split; [exact E|]. exists c', k'.
  assert (pbs s3 = b1) as Eb by (rewrite Es3; exact (pbs_with b1 _)). change (mem s3) with (pb_data (pbs s3)). rewrite Eb.
  split; [apply Htk3|]. split.
  - rewrite (tk_contents _ _ _ _ _ _ _ _ _ _ _ _ Htk3), (cr_length _ _ _ _ _ Hx), Hc.
    apply take_app_length'. rewrite length_app, Hh. unfold len. lia.
  - split; [rewrite Es3; apply Hx|]. split; [rewrite Es3; apply Hx|apply Htk3].
Qed.

Lemma dispatch_runs ni R H s p a c n d s1 x inp dest (Q : unit → stack B U → Prop) :
  presented ni R H s p a c n d s1 → mem_read (mem s) a 64 = x →
  (ip_proto x = IP_PROTO_UDP → runs (udp_input p inp) s1 Q) →
  (ip_proto x = IP_PROTO_ICMP → runs (icmp_input p inp) s1 Q) →
  ip_proto x = IP_PROTO_UDP ∨ ip_proto x = IP_PROTO_ICMP → runs (ip_dispatch p a dest inp) s1 Q.
Proof.
  intros Hp Hx Hu Hi Hpr. unfold ip_dispatch. apply runs_bind, sk_load8_runs. rewrite (ps_mem _ _ _ _ _ _ _ _ _ _ Hp).
  assert (length x = 64%nat) as Hl by (rewrite <-Hx; apply length_mem_read). rewrite (load_at s a x) by (done || (vm_compute; lia)).
  change (Z.to_nat IPH_PROTO) with 9%nat. rewrite octet_field by lia. rewrite le_word_cons. change (le_word []) with 0.
  rewrite Z.mul_0_r, Z.add_0_r. fold (ip_proto x). destruct Hpr as [E|E]; rewrite E; [by apply Hu|by apply Hi].
Qed.

(** C29. An echo request, in one buffer as the driver receives it, to the
    address of this host is answered if it checks: the sender gets the reply
    once, and the request is freed.  Only where the buffer has no room for the
    headers in front the answer depends on memory for a copy.  Nothing else
    that comes as ICMP, no request that does not check and none to a group or
    a broadcast address, is answered. *)
Theorem pings_answered ni R H s p b d :
  let a := p_payload b in let x := mem_read (mem s) a 64 in let hlen := ip_hlen x in
  let src := ip_src x in let dest := ip_dest x in
  let head := take (Z.to_nat hlen) d in let msg := drop (Z.to_nat hlen) (take (Z.to_nat (ip_length x)) d) in
  arriving ni R H s p b d → judge ni (netif_list s) (p_len b) (p_tot_len b) x = V_deliver → not_raw (UP := UP) p ni →
  ip_proto x = IP_PROTO_ICMP → 20 ≤ hlen ≤ ip_length x → fits ni (ip_length x) →
  runs (ip_input p ni) s (λ r s', r = ERR_OK ∧ sk_ok ni R H s' ∧ kept_packets H (pb_store (pbs s)) (pb_store (pbs s')) ∧
    if decide (echo_due ni dest msg) then
      sent s' = sent s ++ [(src, reply_packet head msg src dest)] ∨
      (a + hlen < p + SIZEOF_STRUCT_PBUF + 34 ∧ sent s' = sent s)
    else sent s' = sent s).
Proof.
  intros a x hlen src dest head msg Hav Hj Hraw Hpr Hh Hfit. destruct Hav as [Hs Hpk Ho Hr Hroom Hd Hx Hb].
  assert (is_u32 src) as Hsrc by (apply le_word_u32; [by apply bytes_field|apply length_field; unfold x; rewrite length_mem_read; lia]).
  destruct (ip_input_delivers ni R H s p b d) as (b1 & c & Hp1 & Hrun); [by split|done|done|]. apply Hrun. clear Hrun.
  fold a x src dest in Hp1 |- *. set (s1 := during ni a (looked b1 src dest s)) in *.
  apply (dispatch_runs ni R H s p a c (ip_length x) d s1 x); [exact Hp1|done|intros E; by rewrite Hpr in E|intros _|by right].
  destruct Hp1 as [Hs1 Hpk1 Ho1 Hr1 Ha1 Hl1 Hm1 Hc1 Hse1 Hk1]. destruct (single_length _ (mem s1) _ _ Hpk1) as (_ & Hc0 & _).
  assert (total_len [(p, c)] = ip_length x) as Et by (cbn [total_len snd]; lia).
  assert (mem_read (mem s1) (p_payload c) 64 = x) as Ex by (by rewrite Hm1, Ha1).
  assert (fits ni (total_len [(p, c)])) as Hf1 by by rewrite Et.
  assert (contents (mem s1) [(p, c)] = take (Z.to_nat (ip_length x)) d) as Ec by done.
  eapply runs_mono, (icmp_input_runs ni R H s1 p c [] x Ex Hs1 Hpk1 Ho1); rewrite ?Ec; try done.
  - fold hlen. intros u s2 (Hs2 & Hsame & Hk2 & Hans). split; [done|]. split; [by apply (sk_ok_same _ _ _ s2)|]. split; [by etrans|].
    rewrite take_take, Nat.min_l in Hans by lia. fold head msg in Hans. unfold icmp_answer in Hans.
    change (current_iphdr_src s1) with src in Hans. change (current_iphdr_dest s1) with dest in Hans.
    change (sent (after s2)) with (sent s2). rewrite Hse1 in Hans. destruct (decide _); [|done].
    destruct Hans as [?|[Hroom2 ?]]; [by left|right]. split; [|done].
    apply Z.nle_gt. intros Hle. apply Hroom2. intros _. split; [exact (proj1 (proj1 (Forall_cons _ _ _) Ho1))|cbn; lia].
  - by apply Forall_singleton.
  - by apply Forall_nil.
  - by rewrite Ha1.
  - fold hlen. lia.
  - by left.
  - by apply Forall_take.
Qed.
End Claims.

(** ** Replies *)

Lemma le_word_0 l : bytes_ok l → le_word l = 0 ↔ l = replicate (length l) 0.
Proof.
  induction 1 as [|x l Hx Hl IH]; [done|]. rewrite le_word_cons. pose proof (le_word_nonneg _ Hl). unfold is_u8 in Hx. cbn [length replicate]. split.
  - intros E. f_equal; [lia|]. apply IH. lia.
  - intros [= -> E]. apply IH in E. lia.
Qed.

(** The reply to a request that checks. *)
Lemma reply_packet_checks head msg src dest :
  bytes_ok head → length head = 20%nat → bytes_ok msg → 4 ≤ Z.of_nat (length msg) < 2 ^ 16 → msg.[0] = ICMP_ECHO → inet_chksum msg = 0 →
  is_u32 src → is_u32 dest →
  let reply := reply_packet head msg src dest in
  inet_chksum (take 20 reply) = 0 ∧ ip_src reply = dest ∧ ip_dest reply = src ∧ drop 24 reply = drop 4 msg ∧
  (inet_chksum (drop 20 reply) = 0 ↔ msg ≠ [8; 0; 0xf7; 0xff] ++ replicate (length msg - 4) 0).
Proof.
  intros Hh Lh Hm Lm Ht Hc Hs Hd reply. destruct msg as [|t [|code [|c0 [|c1 rest]]]]; try (cbn in Lm; lia). cbn in Ht. subst t. cbn [length] in Lm.
  assert (reply = turned_header head dest src ++ turned_echo [8; code; c0; c1] ++ rest) as Er.
  { unfold reply, reply_packet. rewrite take_ge, drop_ge by lia. done. }
  destruct (turned_fields (inet_chksum (turned_header_with 0 head dest src)) head dest src (turned_echo [8; code; c0; c1] ++ rest) Lh Hd Hs)
    as (Lt & Es & Ed). fold (turned_header head dest src) in Lt, Es, Ed.
  do 4 (apply Forall_cons in Hm as [? Hm]). set (c := c0 + 2 ^ 8 * c1). assert (is_u16 c) as Hu by (unfold c; cint).
  assert (∀ t, [t; code; c0; c1] ++ rest = echo_message t code c rest) as Em.
  { intros t. unfold echo_message, c. cbn [le_bytes app]. repeat (apply (f_equal2 cons); [done || cint|]). done. }
  rewrite Er. split; [|split; [exact Es|split; [exact Ed|split]]].
  - rewrite take_app_length' by done. by apply turned_header_checks.
  - rewrite app_assoc, drop_app_length' by (rewrite length_app, Lt; done). done.
  - rewrite drop_app_length' by done. pose proof (Em ICMP_ECHO) as E8. cbn [app] in E8. rewrite E8 in Hc.
    pose proof (turned_checks code c rest ltac:(done) Hu Hm ltac:(lia) Hc) as Hiff.
    replace (turned_echo [8; code; c0; c1] ++ rest) with (echo_message ICMP_ER code (turned_chksum c) rest).
    2:{ unfold echo_message, turned_echo. rewrite <-!app_assoc. do 4 f_equal. unfold field. cbn [drop take]. rewrite !le_word_cons. change (le_word []) with 0.
        f_equal. unfold c. lia. }
    rewrite Hiff. apply not_iff_compat. rewrite le_word_0 by done. unfold is_u8 in *. cbn [length Nat.sub app]. rewrite Nat.sub_0_r. split.
    + intros (Ec & -> & <-). unfold c in Ec. repeat f_equal; lia.
    + intros [= -> -> -> <-]. done.
Qed.

Section Replies.
Context {A B U : Type} {BA : BufAlloc A} {LA : BufAllocLaws A} {LW : Lower A B} {LL : LowerLaws A B} {UP : Upper B U}.
Implicit Types (s : stack B U).

End Replies.

(** ** Datagrams *)

Lemma found_matches d m l pcb r q :
  found d m l pcb r → q ∈ l → full_match d m q = true ∨ loose_match d m q = true →
  pcb ∈ l ∧ (full_match d m pcb = true ∨ loose_match d m pcb = true).
Proof.
  intros [pre p post -> Hf _|pre p post -> _ Hl _|Hn] Hq Hm.
  - split; [apply elem_of_app; right; by left|by left].
  - split; [apply elem_of_app; right; by left|by right].
  - destruct (proj1 (Forall_forall _ _) Hn q Hq) as [H1 H2]. rewrite H1, H2 in Hm. by destruct Hm.
Qed.

Section Datagrams.
Context {A B U : Type} {BA : BufAlloc A} {LA : BufAllocLaws A} {LW : Lower A B} {LL : LowerLaws A B} {UP : Upper B U}.
Implicit Types (s : stack B U).

(** C31. No two control blocks on the list are bound to the same port of the
    same address.  [udp_bind] keeps this so: it refuses an address and a port
    that another one has, and then nothing changes, and otherwise gives the
    port, or a free one of its range when asked for any.  A free one is found
    while fewer control blocks are bound than the range has ports. *)
Theorem ports_exclusive pcb ipaddr port b s :
  registry_ok s → sk_pcbs s !! pcb = Some b → pcb ≠ 0 →
  Z.of_nat (length (udp_pcbs s)) < UDP_LOCAL_PORT_RANGE_END - UDP_LOCAL_PORT_RANGE_START →
  ∃ r s', udp_bind pcb ipaddr port s = Ok (r, s') ∧ registry_ok s' ∧
    ((r = ERR_USE ∧ s' = s ∧ ∃ q c, q ∈ udp_pcbs s ∧ q ≠ pcb ∧ sk_pcbs s !! q = Some c ∧ conflict c ipaddr port = true) ∨
     (r = ERR_OK ∧ ∃ port', s' = bound pcb ipaddr port' b s ∧
        if decide (port = 0) then UDP_LOCAL_PORT_RANGE_START ≤ port' ≤ UDP_LOCAL_PORT_RANGE_END else port' = port)).
Proof.
  intros Hr Hb H0 Hn. destruct (udp_bind_ok pcb ipaddr port b s Hr Hb H0) as (r & s' & E & Hres). exists r, s'. split; [exact E|].
  destruct Hres as [q c Hq Hne Hc Hcf | -> Hall|Hp Hok|port' -> Hrng Hok].
  - split; [done|]. left. split; [done|]. split; [done|]. by exists q, c.
  - by destruct (ports_remain (sk_pcbs s) (udp_pcbs s) Hn).
  - split; [done|]. right. split; [done|]. exists port. by rewrite decide_False.
  - split; [done|]. right. split; [done|]. exists port'. by rewrite decide_True.
Qed.


Lemma udp_sendto_runs ni s pcb p dst dport (Q : Z → stack B U → Prop) :
  routed_by ni s dst → runs (udp_sendto_if pcb p dst dport ni) s Q → runs (udp_sendto pcb p dst dport) s Q.
Proof. intros Hr HQ. unfold udp_sendto, udp_sendto_chksum. apply runs_bind, (ip_route_runs ni); [done|]. exact HQ. Qed.

(** The fields of the datagram behind the IP header. *)
Lemma datagram_fields src dst sport dport data :
  is_u16 sport → is_u16 dport →
  let u := udp_datagram src dst sport dport data in
  be16 (field 0 2 u) = sport ∧ be16 (field 2 2 u) = dport ∧ drop 8 u = data ∧ length u = (8 + length data)%nat.
Proof.
  intros Hs Hd u. unfold u, udp_datagram. set (chk := datagram_chksum _ _ _ _ _). clearbody chk. unfold datagram_with.
  split; [by apply be16_be|]. split; [by apply be16_be|]. split; [done|]. by rewrite !length_app, length_le_bytes.
Qed.

(** A station that gets the packet [d] of a datagram from [ni], in one buffer
    and with [pad] behind it. *)
Record hearing inp R (H : gmultiset Z) s q e (d pad : list Z) ni : Prop := {
  hr_arriving : arriving inp R H s q e (d ++ pad);
  hr_taken : taken_by inp (ni_ip_addr ni) (ip_dest d);
  hr_raw : not_raw (UP := UP) q inp;
  hr_answer : answerable inp s (take 28 d);
  hr_known : known (sk_pcbs s) (udp_pcbs s);
  hr_recv pcb c : sk_pcbs s !! pcb = Some c → up_recv c ≠ 0 }.
Definition matches (dg : datagram) s (pcb : Z) : Prop :=
  pcb ∈ udp_pcbs s ∧ (full_match dg (sk_pcbs s) pcb = true ∨ loose_match dg (sk_pcbs s) pcb = true).

Lemma hears inp R H s q e pad ni id b dst dport data pcb0 :
  let d := datagram_packet ni id b dst dport data in
  hearing inp R H s q e d pad ni → sender ni b dst dport → dport ≠ DHCP_CLIENT_PORT → bytes_ok data →
  28 + Z.of_nat (length data) ≤ 64000 → is_u16 id →
  let dg := Dgram (ni_ip_addr ni) (up_local_port b) dst dport (ip_addr_isbroadcast dst inp) in
  matches dg s pcb0 →
  ∃ pcb c e' s3, matches dg s pcb ∧ sk_pcbs s !! pcb = Some c ∧
    contents (mem s3) [(q, e')] = data ∧ packet (pb_store (pbs s3)) q [(q, e')] ∧ sk_ok inp R ({[+ q +]} ⊎ H) s3 ∧
    ∀ Q, runs (udp_recv_fn (up_recv c) (up_recv_arg c) pcb q (ni_ip_addr ni) (up_local_port b)) s3 (λ _ s4, Q (after s4)) →
      runs (ip_input q inp) s (λ r s4, r = ERR_OK ∧ Q s4).
Proof.
  intros d [Hav Htk Hraw Han Hkn Hrv] Hsd Hdp Hb Hlen Hid dg Hm.
  set (x := mem_read (mem s) (p_payload e) 64). set (n := 28 + Z.of_nat (length data)) in *.
  destruct (datagram_fields (ni_ip_addr ni) dst (up_local_port b) dport data) as (Ep & Eq & Edata & Elen);
    [unfold is_u16; pose proof (sd_port _ _ _ _ Hsd); lia|apply Hsd|].
  set (u := udp_datagram _ _ _ _ _) in *. set (h := sent_header (up_tos b) n id (up_ttl b) IP_PROTO_UDP (ni_ip_addr ni) dst).
  assert (d = h ++ u) as Ed by done. assert (length h = 20%nat) as Lh by done.
  assert (length d = Z.to_nat n) as Ld by (rewrite Ed, length_app, Lh, Elen; lia).
  destruct (single_length _ (mem s) _ _ (av_packet _ _ _ _ _ _ _ Hav)) as (Et & _ & Hl).
  rewrite (av_octets _ _ _ _ _ _ _ Hav), length_app, Ld in Hl.
  assert (carries x n IP_PROTO_UDP (ni_ip_addr ni) dst) as Hx.
  { eapply (header_carries x (up_tos b) n id (up_ttl b)); try done; try apply Hsd; [|unfold is_u16; lia].
    eapply head_of_contents; [rewrite (av_octets _ _ _ _ _ _ _ Hav), Ed, <-app_assoc; done|done|lia|lia]. }
  assert (carries d n IP_PROTO_UDP (ni_ip_addr ni) dst) as Hd.
  { eapply (header_carries d (up_tos b) n id (up_ttl b)); try done; try apply Hsd. unfold is_u16. lia. }
  rewrite (cr_dest _ _ _ _ _ Hd) in Htk. clearbody h. pose proof (judge_carries x n _ _ _ inp (netif_list s) (p_len e) (p_tot_len e) Hx Htk ltac:(lia) ltac:(lia)) as Hj.
  destruct (ip_input_delivers inp R H s q e _ Hav Hj Hraw) as (b1 & e1 & Hp1 & Hrun). fold x in Hp1, Hrun.
  rewrite (cr_length _ _ _ _ _ Hx), (cr_src _ _ _ _ _ Hx), (cr_dest _ _ _ _ _ Hx) in *.
  set (s1 := during inp (p_payload e) (looked b1 (ni_ip_addr ni) dst s)) in *. pose proof Hp1 as [Hs1 Hpk1 Ho1 Hr1 Ha1 Hl1 Hm1 Hc1 _ _].
  rewrite take_app_length' in Hc1 by done. pose proof (av_bytes _ _ _ _ _ _ _ Hav) as [Hbd _]%Forall_app.
  assert (incoming inp R H s1 q e1 [] x) as Hin.
  { split; rewrite ?Hc1, ?(cr_hlen _ _ _ _ _ Hx); try done; try (cbn [total_len snd]; lia).
    - by rewrite Hm1, Ha1.
    - rewrite Ha1. apply Hav.
    - apply Hav.
    - apply Hsd.
    - apply Hsd. }
  pose proof (udp_input_outcome inp R H s1 q e1 [] x Hin) as Hout. cbv zeta in Hout. rewrite Hc1 in Hout.
  unfold udp_outcome in Hout. rewrite Hc1, (cr_hlen _ _ _ _ _ Hx) in Hout. change (Z.to_nat 20) with 20%nat in Hout.
  rewrite Ed, drop_app_length', <-Ed in Hout by done.
  assert (udp_dgram inp s1 u = dg) as Edg by (unfold udp_dgram; by rewrite Ep, Eq). rewrite Edg in Hout.
  destruct Hout as [[Hshort _]|(pcb & r & _ & Hf & Hcase)]; [by destruct Han; split|done|lia|].
  pose proof (found_matches _ _ _ _ _ _ Hf (proj1 Hm) (proj2 Hm)) as Hpcb.
  destruct (proj1 (Forall_forall _ _) Hkn pcb (proj1 Hpcb)) as [[c Hc] Hp0].
  assert (deliverable s1 pcb c u) as Hdel.
  { split; [done|]. split; [done|]. split; [by eapply Hrv|]. unfold udp_good. apply orb_true_iff. right. apply Z.eqb_eq. rewrite Elen, Nat2Z.inj_add.
    apply datagram_checks; [done|lia]. }
  destruct Hcase as [(c' & s3 & Hdel' & Eu & _ & Hao)|[Hno _]]; [|by destruct (Hno c)].
  assert (c' = c) as -> by (destruct Hdel as (_ & E1 & _), Hdel' as (_ & E2 & _); congruence).
  exists pcb, c, (moved (- (20 + 8)) e1), s3. split; [done|]. split; [done|]. split; [|split; [apply Hao|split; [apply Hao|]]].
  - rewrite (ao_contents _ _ _ _ _ _ _ _ _ Hao), Hc1, Ed. change (Z.to_nat (20 + 8)) with (20 + 8)%nat.
    by rewrite <-drop_drop, drop_app_length'.
  - intros Q HQ. apply Hrun. apply (dispatch_runs inp R H s q (p_payload e) e1 n _ s1 x inp dst _ Hp1); [done|intros _|intros E|left; apply Hx].
    + unfold runs. rewrite Eu, Ep. eapply runs_mono, HQ. done.
    + by rewrite (cr_proto _ _ _ _ _ Hx) in E.
Qed.

(** C27. A datagram that [udp_sendto] sends reaches the other station whole:
    the [ip_input] there, given the packet and whatever the link has added to
    it, calls the receive function of a control block that is bound to the
    port with the data that were sent, the address of the sender and its port. *)
Theorem datagrams_arrive ni R H s pcb b p c l dst dport :
  let data := contents (mem s) ((p, c) :: l) in let d := datagram_packet ni (ip_id s) b dst dport data in
  sk_pcbs s !! pcb = Some b → sender ni b dst dport → routed_by ni s dst → dport ≠ DHCP_CLIENT_PORT →
  sk_ok ni R ({[+ p +]} ⊎ H) s → packet (pb_store (pbs s)) p ((p, c) :: l) →
  own_octets ((p, c) :: l) → nonempty l → p_ref c = 1 → has_room 28 p c → bytes_ok data →
  fits ni (28 + total_len ((p, c) :: l)) → is_u16 (ip_id s) →
  runs (udp_sendto pcb p dst dport) s (λ _ s', sent s' = sent s ++ [(dst, d)]) ∧
  ∀ inp R' H' s2 q e pad pcb0,
    let dg := Dgram (ni_ip_addr ni) (up_local_port b) dst dport (ip_addr_isbroadcast dst inp) in
    hearing inp R' H' s2 q e d pad ni → matches dg s2 pcb0 →
    ∃ pcb' c' e' s3, matches dg s2 pcb' ∧ sk_pcbs s2 !! pcb' = Some c' ∧
      contents (mem s3) [(q, e')] = data ∧ packet (pb_store (pbs s3)) q [(q, e')] ∧ sk_ok inp R' ({[+ q +]} ⊎ H') s3 ∧
      ∀ Q, runs (udp_recv_fn (up_recv c') (up_recv_arg c') pcb' q (ni_ip_addr ni) (up_local_port b)) s3 (λ _ s4, Q (after s4)) →
        runs (ip_input q inp) s2 (λ r s4, r = ERR_OK ∧ Q s4).
Proof.
  intros data d Hb Hsd Hrt Hdp Hs Hpk Ho Hne Hr Hroom Hbytes Hfit Hid. split.
  { apply (udp_sendto_runs ni); [done|]. by apply (udp_sendto_if_runs ni R H s pcb b p c l dst dport _ Hb Hsd Hs Hpk Ho Hne Hr Hroom Hbytes Hfit Hid). }
  intros inp R' H' s2 q e pad pcb0 dg Hh Hm.
  apply (hears inp R' H' s2 q e pad ni (ip_id s) b dst dport data pcb0 Hh Hsd Hdp Hbytes); [|done|done].
  pose proof (length_contents (mem s) _ (pk_lens _ _ _ Hpk)) as E. fold data in E. destruct Hfit. lia.
Qed.
End Datagrams.

(** ** Two stations *)

(** The packet [d] at the front of a buffer, [n] octets behind its start. *)
Definition demo_at (n : Z) (d : list Z) : pbufs_state allocators :=
  Pbufs (pb_store (demo_moved n)) (mem_write (pb_data demo) (demo_p + 16 + n) d) (pb_alloc (demo_moved n)).
Abbreviation demo_low := (arp_low allocators (list (list Z))).
(** Users that free what they get. *)
#[export] Instance demo_upper : Upper demo_low unit := {|
  raw_input p inp := mret 0;
  tcp_input p inp := on_pbufs (pbuf_free p);; mret tt;
  ip_frag p n dest := mret ERR_VAL;
  ip_reass p := on_pbufs (pbuf_free p);; mret 0;
  udp_recv_fn f arg pcb p addr port := on_pbufs (pbuf_free p);; mret tt |}.
(** One control block, at 500, that is bound to port 7 and receives. *)
Definition demo_pcb : udp_pcb := UdpPcb 0 0 0 0 255 0 7 0 1 0.
Definition demo_stack (i n : Z) (d : list Z) : stack demo_low unit :=
  Stack (ArpLow (demo_arp (demo_at n d)) []) [demo_ni i] (Some (demo_ni i)) (λ _ _, 0) 0 None 0 0 0 [500] {[500 := demo_pcb]} (λ _, None) tt.

Lemma demo_at_held n d : 0 ≤ n ≤ 84 → held_ok (demo_at n d) ∅ ({[+ demo_p +]} ⊎ {[+ demo_q +]}).
Proof. intros Hn. unfold demo_at. apply held_ok_data. by apply demo_moved_held. Qed.
Lemma demo_stack_ok i n d : 0 ≤ i < 255 → 0 ≤ n ≤ 84 → sk_ok (demo_ni i) ∅ ({[+ demo_p +]} ⊎ {[+ demo_q +]}) (demo_stack i n d).
Proof. intros Hi Hn. split; [exact (demo_arp_ok _ _ i (demo_at_held n d Hn))|exact (st_ethernet _ (demo_station i Hi))]. Qed.
Lemma demo_stack_packet i n d :
  0 ≤ n ≤ 84 → packet (pb_store (pbs (demo_stack i n d))) demo_p [(demo_p, moved (- n) (demo_buf demo_p 84))].
Proof.
  intros Hn. split; [|by cbn; lia|cbn; lia|done]. split; [done|]. split; [done|]. split; [apply lookup_insert_eq|done].
Qed.
Lemma demo_stack_contents i n d :
  Z.of_nat (length d) + n = 84 → 0 ≤ n → contents (mem (demo_stack i n d)) [(demo_p, moved (- n) (demo_buf demo_p 84))] = d.
Proof.
  intros Hl Hn. cbn [contents]. rewrite app_nil_r. unfold cell_data. cbn [snd fst].
  replace (p_payload (moved (- n) (demo_buf demo_p 84))) with (demo_p + 16 + n) by (cbn; lia).
  replace (Z.to_nat (p_len (moved (- n) (demo_buf demo_p 84)))) with (length d) by (cbn; lia).
  by apply mem_write_read.
Qed.

Lemma demo_own i n d : own_octets [(demo_p, moved (- n) (demo_buf demo_p 84))] ∧ nonempty ([] : list cell) ∧
  exclusive [(demo_p, moved (- n) (demo_buf demo_p 84))] ∧ netif_is_up (demo_ni i) = true ∧ ip_id (demo_stack i n d) = 0.
Proof. split; [by apply Forall_singleton; left|]. split; [constructor|]. by split; [apply Forall_singleton|]. Qed.

(** 36 octets from the first station to the second, with 14 octets of padding. *)
Definition demo_b (n : Z) : pbuf := moved (- n) (demo_buf demo_p 84).
Definition demo_data : list Z := replicate 36 7.
Definition demo_ip (i : Z) : Z := ni_ip_addr (demo_ni i).
Definition demo_packet_out : list Z := sent_header 0 56 0 64 6 (demo_ip 1) (demo_ip 2) ++ demo_data.
Definition demo_sender : stack demo_low unit := demo_stack 1 48 demo_data.
Definition demo_receiver (d : list Z) : stack demo_low unit := demo_stack 2 14 d.

Lemma packets_leave_witness :
  let len := total_len [(demo_p, demo_b 48)] + 20 in
  let header := sent_header 0 len 0 64 6 (source (demo_ip 1) (demo_ni 1)) (demo_ip 2) in
  has_room 20 demo_p (demo_b 48) ∧
  runs (ip_output_if demo_p (demo_ip 1) (Some (demo_ip 2)) 64 0 6 (demo_ni 1)) demo_sender (λ _ s',
    sent s' = [(demo_ip 2, header ++ contents (mem demo_sender) [(demo_p, demo_b 48)])]).
Proof.
  intros len header. destruct (demo_own 1 48 demo_data) as (Ho & Hn & Hx & _). assert (has_room 20 demo_p (demo_b 48)) as Hr by (by vm_compute; intros _; split; [left|]).
  split; [exact Hr|].
  pose proof (packets_leave (demo_ni 1) ∅ {[+ demo_q +]} demo_sender demo_p (demo_b 48) [] (demo_ip 1) (demo_ip 2) 64 0 6
    (demo_stack_ok 1 48 demo_data ltac:(lia) ltac:(lia)) (demo_stack_packet 1 48 demo_data ltac:(lia)) Ho Hn eq_refl
    ltac:(by vm_compute) ltac:(by vm_compute) ltac:(by vm_compute) ltac:(by vm_compute) ltac:(by vm_compute) ltac:(by vm_compute) ltac:(by vm_compute)) as Hl.
  cbv zeta in Hl. rewrite decide_True in Hl by exact Hr. destruct Hl as [_ Hrun].
  assert (fits (demo_ni 1) (total_len [(demo_p, demo_b 48)] + 20)) as Hf by (split; [right|]; by vm_compute).
  eapply runs_mono; [|exact (Hrun Hf)].
  intros r s' (_ & _ & E). exact E.
Defined.

Definition demo_padded : list Z := demo_packet_out ++ replicate 14 0.

Lemma packets_judged_witness :
  let s := demo_receiver demo_padded in let x := mem_read (mem s) (p_payload (demo_b 14)) 64 in
  judge (demo_ni 2) (netif_list s) (p_len (demo_b 14)) (p_tot_len (demo_b 14)) x = V_deliver ∧
  ∃ b1 c k, let s1 := looked b1 (ip_src x) (ip_dest x) s in
    contents (pb_data b1) ((demo_p, c) :: k) = take (Z.to_nat (ip_length x)) (contents (mem s) [(demo_p, demo_b 14)]) ∧
    ip_input demo_p (demo_ni 2) s = ip_deliver demo_p (p_payload (demo_b 14)) (demo_ni 2) s1.
Proof.
  intros s x. destruct (demo_own 2 14 demo_padded) as (Ho & Hn & Hx & _).
  assert (judge (demo_ni 2) (netif_list s) (p_len (demo_b 14)) (p_tot_len (demo_b 14)) x = V_deliver) as Hj by by vm_compute.
  assert (bytes_ok x) as Hb by by_decision. split; [exact Hj|].
  pose proof (packets_judged (demo_ni 2) ∅ {[+ demo_q +]} s demo_p (demo_b 14) []
    (demo_stack_ok 2 14 demo_padded ltac:(lia) ltac:(lia)) (demo_stack_packet 2 14 demo_padded ltac:(lia)) Ho Hx Hb) as Hl.
  cbv zeta in Hl. fold x in Hl. rewrite Hj in Hl. destruct Hl as (b1 & c & k & Htk & E). exists b1, c, k.
  split; [exact (tk_contents _ _ _ _ _ _ _ _ _ _ _ _ Htk)|]. exact E.
Defined.

Lemma packets_arrive_witness :
  runs (ip_output_if demo_p (demo_ip 1) (Some (demo_ip 2)) 64 0 6 (demo_ni 1)) demo_sender (λ _ s', sent s' = [(demo_ip 2, demo_packet_out)]) ∧
  leads (ip_input demo_p (demo_ni 2)) (demo_receiver demo_padded) (ip_deliver demo_p (p_payload (demo_b 14)) (demo_ni 2)) (λ s3, ∃ c' k',
    packet (pb_store (pbs s3)) demo_p ((demo_p, c') :: k') ∧ contents (mem s3) ((demo_p, c') :: k') = demo_packet_out).
Proof.
  destruct (demo_own 1 48 demo_data) as (Ho & Hn & _). destruct (demo_own 2 14 demo_padded) as (Ho2 & _ & Hx2 & _).
  assert (has_room 20 demo_p (demo_b 48)) as Hr by (by vm_compute; intros _; split; [left|]).
  assert (fits (demo_ni 1) (total_len [(demo_p, demo_b 48)] + 20)) as Hf by (split; [right|]; by vm_compute).
  assert (contents (mem demo_sender) [(demo_p, demo_b 48)] = demo_data) as Ed by by apply demo_stack_contents.
  assert (taken_by (demo_ni 2) (source (demo_ip 1) (demo_ni 1)) (demo_ip 2)) as Ht by (by split; [|right]).
  assert (bytes_ok (mem_read (mem (demo_receiver demo_padded)) (p_payload (demo_b 14)) 64)) as Hb by by_decision.
  destruct (packets_arrive (demo_ni 1) ∅ {[+ demo_q +]} demo_sender demo_p (demo_b 48) [] (demo_ip 1) (demo_ip 2) 64 0 6
    (demo_stack_ok 1 48 demo_data ltac:(lia) ltac:(lia)) (demo_stack_packet 1 48 demo_data ltac:(lia)) Ho Hn eq_refl Hf Hr
    ltac:(by vm_compute) ltac:(by vm_compute) ltac:(by vm_compute) ltac:(by vm_compute) ltac:(by vm_compute) ltac:(by vm_compute)) as [Hs Ha].
  rewrite Ed in Hs, Ha. split; [exact Hs|]. change (sent_header _ _ _ _ _ _ _ ++ demo_data) with demo_packet_out in Ha.
  assert (contents (mem (demo_receiver demo_padded)) [(demo_p, demo_b 14)] = demo_padded) as Ec by (apply demo_stack_contents; [done|lia]).
  destruct (Ha (demo_ni 2) ∅ {[+ demo_q +]} (demo_receiver demo_padded) demo_p (demo_b 14) [] (replicate 14 0) Ht
    (demo_stack_ok 2 14 demo_padded ltac:(lia) ltac:(lia)) (demo_stack_packet 2 14 demo_padded ltac:(lia)) Ho2 Hx2 Hb ltac:(by vm_compute) Ec) as (s3 & E & c' & k' & Hp & Hc & _).
  exists s3. split; [exact E|]. exists c', k'. exact (conj Hp Hc).
Defined.

(** An echo request with 32 octets of data. *)
Definition demo_echo (chk : Z) : list Z := echo_message ICMP_ECHO 0 chk (replicate 32 7).
Definition demo_msg : list Z := demo_echo (inet_chksum (demo_echo 0)).
Definition demo_ping : list Z := sent_header 0 56 0 64 IP_PROTO_ICMP (demo_ip 1) (demo_ip 2) ++ demo_msg ++ replicate 14 0.
Definition demo_head : list Z := take 20 demo_ping.

Lemma demo_arriving d :
  length d = 70%nat → bytes_ok d → bytes_ok (mem_read (mem (demo_receiver d)) (p_payload (demo_b 14)) 64) →
  arriving (demo_ni 2) ∅ {[+ demo_q +]} (demo_receiver d) demo_p (demo_b 14) d.
Proof.
  intros Hl Hd Hb. destruct (demo_own 2 14 d) as (Ho & _).
  split; [apply demo_stack_ok; lia|apply demo_stack_packet; lia|exact Ho|reflexivity|by vm_compute| |exact Hb|exact Hd].
  apply demo_stack_contents; lia.
Qed.
Lemma demo_not_raw q i : not_raw (UP := demo_upper) q (demo_ni i).
Proof. intros s. reflexivity. Qed.

Lemma pings_answered_witness :
  runs (ip_input demo_p (demo_ni 2)) (demo_receiver demo_ping) (λ r s', r = ERR_OK ∧
    sent s' = [(demo_ip 1, reply_packet demo_head demo_msg (demo_ip 1) (demo_ip 2))]).
Proof.
  set (x := mem_read (mem (demo_receiver demo_ping)) (p_payload (demo_b 14)) 64).
  assert (judge (demo_ni 2) (netif_list (demo_receiver demo_ping)) (p_len (demo_b 14)) (p_tot_len (demo_b 14)) x = V_deliver) as Hj by by vm_compute.
  assert (ip_proto x = IP_PROTO_ICMP ∧ ip_hlen x = 20 ∧ ip_length x = 56 ∧ ip_src x = demo_ip 1 ∧ ip_dest x = demo_ip 2)
    as (Hp & Hh & Hl & Es & Ed) by (repeat split; vm_compute; reflexivity).
  assert (arriving (demo_ni 2) ∅ {[+ demo_q +]} (demo_receiver demo_ping) demo_p (demo_b 14) demo_ping) as Ha
    by (apply demo_arriving; [reflexivity|by_decision|by_decision]).
  assert (fits (demo_ni 2) (ip_length x)) as Hf by (rewrite Hl; split; [right|]; by vm_compute).
  assert (20 ≤ ip_hlen x ≤ ip_length x) as Hh2 by (rewrite Hh, Hl; lia).
  pose proof (pings_answered (demo_ni 2) ∅ {[+ demo_q +]} (demo_receiver demo_ping) demo_p (demo_b 14) demo_ping Ha Hj
    (demo_not_raw demo_p 2) Hp Hh2 Hf) as Hrun.
  cbv zeta in Hrun. fold x in Hrun. rewrite Hh, Hl, Es, Ed in Hrun.
  change (drop (Z.to_nat 20) (take (Z.to_nat 56) demo_ping)) with demo_msg in Hrun.
  assert (echo_due (demo_ni 2) (demo_ip 2) demo_msg) as Hdue by by_decision.
  eapply runs_mono; [|exact Hrun]. intros r s' (E & _ & _ & Hs). rewrite decide_True in Hs by exact Hdue.
  destruct Hs as [Hs|[Hlt _]]; [split; [exact E|exact Hs]|]. by vm_compute in Hlt.
Defined.

(** The reply checks, and the only one that does not. *)
Definition demo_zeros : list Z := take 20 demo_ping ++ [8; 0; 0xf7; 0xff] ++ replicate 46 0.

(** A second control block, at 600, asks for the port of the first and for any. *)
Definition demo_bind : stack demo_low unit :=
  with_udp [500] (<[600 := UdpPcb 0 0 0 0 255 0 0 0 1 0]> {[500 := demo_pcb]}) demo_sender.
Lemma demo_registry : registry_ok demo_bind.
Proof.
  split.
  - apply NoDup_singleton.
  - apply Forall_singleton. by split; [exists demo_pcb|].
  - intros p q b c ->%list_elem_of_singleton ->%list_elem_of_singleton. done.
Qed.
Lemma ports_exclusive_witness :
  (∃ s', udp_bind 600 0 7 demo_bind = Ok (ERR_USE, s') ∧ registry_ok s') ∧ (∃ r s', udp_bind 600 0 0 demo_bind = Ok (r, s') ∧ registry_ok s').
Proof.
  split.
  - destruct (ports_exclusive 600 0 7 (UdpPcb 0 0 0 0 255 0 0 0 1 0) demo_bind demo_registry eq_refl ltac:(lia) ltac:(by vm_compute))
      as (r & s' & E & Hr & Hc). exists s'. split; [|exact Hr]. rewrite E.
    destruct Hc as [[-> _]|[_ (port' & -> & Hp)]]; [reflexivity|exfalso]. rewrite decide_False in Hp by lia. subst port'.
    pose proof (rg_apart _ Hr 500 600 demo_pcb (with_local 0 7 (UdpPcb 0 0 0 0 255 0 0 0 1 0)) ltac:(by_decision) ltac:(by_decision)
      ltac:(lia) ltac:(by vm_compute) ltac:(by vm_compute)) as Hcf. by vm_compute in Hcf.
  - destruct (ports_exclusive 600 0 0 (UdpPcb 0 0 0 0 255 0 0 0 1 0) demo_bind demo_registry eq_refl ltac:(lia) ltac:(by vm_compute))
      as (r & s' & E & Hr & _). exists r, s'. exact (conj E Hr).
Defined.

(** A datagram from port 7 of the first station to port 7 of the second. *)
Definition demo_dgram : list Z := datagram_packet (demo_ni 1) 0 demo_pcb (demo_ip 2) 7 (replicate 28 9).
Definition demo_from : stack demo_low unit := demo_stack 1 56 (replicate 28 9).
Definition demo_to : stack demo_low unit := demo_receiver (demo_dgram ++ replicate 14 0).

Lemma demo_known i n d : known (sk_pcbs (demo_stack i n d)) (udp_pcbs (demo_stack i n d)).
Proof. apply Forall_singleton. by split; [exists demo_pcb|]. Qed.
Lemma demo_routed i n d dest : routed_by (demo_ni i) (demo_stack i n d) dest.
Proof. unfold routed_by. cbn [netif_list demo_stack netif_default route_loop]. by destruct (route_match dest (demo_ni i)). Qed.
Lemma demo_answerable i n d head : 0 ≤ i < 255 → answerable (demo_ni i) (demo_stack i n d) head.
Proof.
  intros Hi. split; [apply demo_routed|split; [right|]; by vm_compute|by vm_compute|unfold is_u32, demo_ni, ni_ip_addr; lia].
Qed.
Lemma demo_hearing : hearing (demo_ni 2) ∅ {[+ demo_q +]} demo_to demo_p (demo_b 14) demo_dgram (replicate 14 0) (demo_ni 1).
Proof.
  split.
  - apply demo_arriving; [reflexivity|by_decision|by_decision].
  - split; [by vm_compute|right; split; by vm_compute].
  - apply demo_not_raw.
  - apply demo_answerable. lia.
  - apply demo_known.
  - intros pcb c Hc. cbn in Hc. apply lookup_singleton_Some in Hc as [_ <-]. done.
Qed.
Lemma demo_only pcb c : sk_pcbs demo_to !! pcb = Some c → pcb = 500 ∧ c = demo_pcb.
Proof. intros Hc. cbn in Hc. by apply lookup_singleton_Some in Hc as [<- <-]. Qed.

Lemma datagrams_arrive_witness :
  runs (udp_sendto 500 demo_p (demo_ip 2) 7) demo_from (λ _ s', sent s' = [(demo_ip 2, demo_dgram)]) ∧
  ∃ s3 e', contents (mem s3) [(demo_p, e')] = replicate 28 9 ∧
    ∀ Q, runs (udp_recv_fn (up_recv demo_pcb) 0 500 demo_p (demo_ip 1) 7) s3 (λ _ s4, Q (after s4)) →
      runs (ip_input demo_p (demo_ni 2)) demo_to (λ r s4, r = ERR_OK ∧ Q s4).
Proof.
  destruct (demo_own 1 56 (replicate 28 9)) as (Ho & Hn & _).
  assert (has_room 28 demo_p (demo_b 56)) as Hr by (by vm_compute; intros _; split; [left|]).
  assert (fits (demo_ni 1) (28 + total_len [(demo_p, demo_b 56)])) as Hf by (split; [right|]; by vm_compute).
  assert (sender (demo_ni 1) demo_pcb (demo_ip 2) 7) as Hsd by (split; try (by vm_compute); [by left|by right]).
  assert (contents (mem demo_from) [(demo_p, demo_b 56)] = replicate 28 9) as Ed by (apply demo_stack_contents; [reflexivity|lia]).
  pose proof (datagrams_arrive (demo_ni 1) ∅ {[+ demo_q +]} demo_from 500 demo_pcb demo_p (demo_b 56) [] (demo_ip 2) 7 eq_refl Hsd) as Hs.
  cbv zeta in Hs. rewrite Ed in Hs.
  destruct (Hs (demo_routed 1 56 _ _) ltac:(by vm_compute) (demo_stack_ok 1 56 _ ltac:(lia) ltac:(lia)) (demo_stack_packet 1 56 _ ltac:(lia)) Ho Hn
    eq_refl Hr ltac:(by_decision) Hf ltac:(by vm_compute)) as [Hsend Hhear]. split; [exact Hsend|].
  assert (matches (Dgram (demo_ip 1) 7 (demo_ip 2) 7 (ip_addr_isbroadcast (demo_ip 2) (demo_ni 2))) demo_to 500) as Hm
    by (split; [by apply list_elem_of_singleton|right; by vm_compute]).
  destruct (Hhear (demo_ni 2) ∅ {[+ demo_q +]} demo_to demo_p (demo_b 14) (replicate 14 0) 500 demo_hearing Hm)
    as (pcb' & c' & e' & s3 & _ & Hc & He & _ & _ & HQ). apply demo_only in Hc as [-> ->].
  exists s3, e'. exact (conj He HQ).
Defined.

Definition demo_datagram : stack demo_low unit := with_addresses (demo_ip 1) (demo_ip 2) (demo_stack 2 28 demo_dgram).
