(* ===== verification/Emac.v ===== *)
(** * The Ethernet driver ([src/lwip/netif/lpc_emac.c])

    As configured in [lpc_emac_config.h]: no copies on either side, eight
    descriptors each, packets outside of the memory the controller reaches are
    copied before they are sent; [LINK_STATS] is 0.  The controller is an automaton that answers
    reads and absorbs writes of its registers, the class [Emac]. *)

From S2P Require Import Prelude LwipBase IpAddr Heap Memp Pbuf PbufChain PbufLinks PbufData PbufAlloc PbufRefs Netif EthArp.
From Stdlib Require Import ZArith Lia.
From stdpp Require Import base numbers gmultiset list gmap.
Open Scope Z_scope.

(** ** Registers *)

(** Those of the controller, then those of the rest of the chip. *)
Inductive ereg :=
  | MAC1 | MAC2 | IPGT | IPGR | CLRT | MAXF | SUPP | MCFG | MCMD | MADR | MWTD | MRDD | MIND | SA0 | SA1 | SA2
  | Command | RxDescriptor | RxStatus | RxDescriptorNumber | RxProduceIndex | RxConsumeIndex
  | TxDescriptor | TxStatus | TxDescriptorNumber | TxProduceIndex | TxConsumeIndex
  | RxFilterCtrl | IntStatus | IntEnable | IntClear
  | PCONP | PINSEL2 | PINSEL3 | TIM1_TCR | TIM1_PR | TIM1_MR0 | TIM1_MCR | TIM1_IR | FIODIR2 | ISER_TIMER1 | IP_TIMER1.
#[export] Instance ereg_eq : EqDecision ereg.
Proof. solve_decision. Defined.

Class Emac (D : Type) := {
  emac_read : ereg → D → Z * D;
  emac_write : ereg → Z → D → D }.

Definition LPC_NUM_BUFF_RXDESCS : Z := 8.
Definition LPC_NUM_BUFF_TXDESCS : Z := 8.
Definition LPC_PHYDEF_PHYADDR : Z := 1.
Definition EMAC_ETH_MAX_FLEN : Z := 1536.
Definition EMAC_MAC1_REC_EN : Z := 0x1.
Definition EMAC_MAC1_PASS_ALL : Z := 0x2.
Definition EMAC_MAC1_RES_TX : Z := 0x100.
Definition EMAC_MAC1_RES_MCS_TX : Z := 0x200.
Definition EMAC_MAC1_RES_RX : Z := 0x400.
Definition EMAC_MAC1_RES_MCS_RX : Z := 0x800.
Definition EMAC_MAC1_SIM_RES : Z := 0x4000.
Definition EMAC_MAC1_SOFT_RES : Z := 0x8000.
Definition EMAC_MAC2_CRC_EN : Z := 0x10.
Definition EMAC_MAC2_PAD_EN : Z := 0x20.
Definition EMAC_IPGR_P2_DEF : Z := Z.land 0x12 0x7F.
Definition EMAC_IPGR_P1_DEF : Z := Z.shiftl (Z.land 0x0C 0x7F) 8.
Definition EMAC_CLRT_DEF : Z := Z.lor (Z.land 0x0F 0x0F) (Z.shiftl (Z.land 0x37 0x3F) 8).
Definition EMAC_MCFG_CLK_SEL (n : Z) : Z := Z.shiftl (Z.land n 0x0F) 2.
Definition EMAC_MCFG_RES_MII : Z := 0x8000.
Definition EMAC_MCMD_READ : Z := 0x1.
Definition EMAC_MIND_BUSY : Z := 0x1.
Definition EMAC_MIND_MII_LINK_FAIL : Z := 0x8.
Definition EMAC_CR_RX_EN : Z := 0x1.
Definition EMAC_CR_TX_EN : Z := 0x2.
Definition EMAC_CR_REG_RES : Z := 0x8.
Definition EMAC_CR_TX_RES : Z := 0x10.
Definition EMAC_CR_RX_RES : Z := 0x20.
Definition EMAC_CR_PASS_RUNT_FRM : Z := 0x40.
Definition EMAC_CR_RMII : Z := 0x200.
Definition EMAC_RFC_BCAST_EN : Z := 0x2.
Definition EMAC_RFC_PERFECT_EN : Z := 0x20.
Definition EMAC_INT_RX_OVERRUN : Z := 0x1.
Definition EMAC_INT_TX_UNDERRUN : Z := 0x10.
Definition EMAC_RCTRL_INT : Z := 0x80000000.
Definition EMAC_RINFO_CRC_ERR : Z := 0x00800000.
Definition EMAC_RINFO_SYM_ERR : Z := 0x01000000.
Definition EMAC_RINFO_LEN_ERR : Z := 0x02000000.
Definition EMAC_RINFO_ALIGN_ERR : Z := 0x08000000.
Definition EMAC_RINFO_NO_DESCR : Z := 0x20000000.
Definition EMAC_TCTRL_LAST : Z := 0x40000000.
Definition EMAC_TCTRL_INT : Z := 0x80000000.
Definition PCENET : Z := 0x40000000.
Definition ENET_PINSEL2_CONFIG : Z := 0x50150105.
Definition ENET_PINSEL3_CONFIG : Z := 0x5.
Definition ENET_PINSEL3_MASK : Z := 0xF.

Definition ERR_TIMEOUT : Z := -3.
(** Conversion to [err_t]. *)
Definition s8 (x : Z) : Z := (x + 2 ^ 7) mod 2 ^ 8 - 2 ^ 7.

(** ** State *)

Record LPC_TXRX_DESC_T := Desc { d_packet : Z; d_control : Z }.
Record LPC_TXRX_STATUS_T := Status { statusinfo : Z; statushashcrc : Z }.
(** NULL is 0. *)
Record enetdata := Enet {
  ptxd : list LPC_TXRX_DESC_T;
  ptxs : list LPC_TXRX_STATUS_T;
  prxd : list LPC_TXRX_DESC_T;
  prxs : list LPC_TXRX_STATUS_T;
  rxb : list Z;
  rx_fill_desc_index : Z;
  rx_free_descs : Z;
  txb : list Z;
  lpc_last_tx_idx : Z }.
(** Where the linker puts the descriptors. *)
Class EnetLayout := { at_ptxd : Z; at_ptxs : Z; at_prxd : Z; at_prxs : Z }.

Definition with_ptxd (l : list LPC_TXRX_DESC_T) (e : enetdata) : enetdata :=
  Enet l (ptxs e) (prxd e) (prxs e) (rxb e) (rx_fill_desc_index e) (rx_free_descs e) (txb e) (lpc_last_tx_idx e).
Definition with_ptxs (l : list LPC_TXRX_STATUS_T) (e : enetdata) : enetdata :=
  Enet (ptxd e) l (prxd e) (prxs e) (rxb e) (rx_fill_desc_index e) (rx_free_descs e) (txb e) (lpc_last_tx_idx e).
Definition with_prxd (l : list LPC_TXRX_DESC_T) (e : enetdata) : enetdata :=
  Enet (ptxd e) (ptxs e) l (prxs e) (rxb e) (rx_fill_desc_index e) (rx_free_descs e) (txb e) (lpc_last_tx_idx e).
Definition with_prxs (l : list LPC_TXRX_STATUS_T) (e : enetdata) : enetdata :=
  Enet (ptxd e) (ptxs e) (prxd e) l (rxb e) (rx_fill_desc_index e) (rx_free_descs e) (txb e) (lpc_last_tx_idx e).
Definition with_rxb (l : list Z) (e : enetdata) : enetdata :=
  Enet (ptxd e) (ptxs e) (prxd e) (prxs e) l (rx_fill_desc_index e) (rx_free_descs e) (txb e) (lpc_last_tx_idx e).
Definition with_rx_fill (i : Z) (e : enetdata) : enetdata :=
  Enet (ptxd e) (ptxs e) (prxd e) (prxs e) (rxb e) i (rx_free_descs e) (txb e) (lpc_last_tx_idx e).
Definition with_rx_free (n : Z) (e : enetdata) : enetdata :=
  Enet (ptxd e) (ptxs e) (prxd e) (prxs e) (rxb e) (rx_fill_desc_index e) n (txb e) (lpc_last_tx_idx e).
Definition with_txb (l : list Z) (e : enetdata) : enetdata :=
  Enet (ptxd e) (ptxs e) (prxd e) (prxs e) (rxb e) (rx_fill_desc_index e) (rx_free_descs e) l (lpc_last_tx_idx e).
Definition with_last_tx (i : Z) (e : enetdata) : enetdata :=
  Enet (ptxd e) (ptxs e) (prxd e) (prxs e) (rxb e) (rx_fill_desc_index e) (rx_free_descs e) (txb e) i.

Record eth (A D : Type) := Eth { et_bufs : pbufs_state A; et_data : enetdata; et_dev : D }.
Arguments Eth {A D} et_bufs et_data et_dev.
Arguments et_bufs {A D} e.
Arguments et_data {A D} e.
Arguments et_dev {A D} e.

Section Driver.
Context {A D : Type} {BA : BufAlloc A} {EM : Emac D} {LY : EnetLayout}.
Abbreviation EM' := (M (eth A D)).
Implicit Types (s : eth A D).

Definition ebufs {X} (m : M (pbufs_state A) X) : EM' X := lift et_bufs (λ b s, Eth b (et_data s) (et_dev s)) m.
Definition ed_set (f : enetdata → enetdata) : EM' unit := modify (λ s, Eth (et_bufs s) (f (et_data s)) (et_dev s)).
Definition ed_get {X} (f : enetdata → X) : EM' X := gets (λ s, f (et_data s)).
Definition er_read (r : ereg) : EM' Z := λ s, let '(v, d) := emac_read r (et_dev s) in Ok (v, Eth (et_bufs s) (et_data s) d).
Definition er_write (r : ereg) (v : Z) : EM' unit := modify (λ s, Eth (et_bufs s) (et_data s) (emac_write r (u32 v) (et_dev s))).
Definition er_or (r : ereg) (m : Z) : EM' unit := v ← er_read r; er_write r (Z.lor v m).
Definition er_and (r : ereg) (m : Z) : EM' unit := v ← er_read r; er_write r (Z.land v m).

(** Elements of the arrays of the driver. *)
Definition el_get {X} (f : enetdata → list X) (i : Z) : EM' X :=
  l ← ed_get f;
  match l !! Z.to_nat i with Some x => if 0 <=? i then mret x else fault | None => fault end.
Definition el_set {X} (f : enetdata → list X) (g : list X → enetdata → enetdata) (i : Z) (x : X) : EM' unit :=
  l ← ed_get f;
  if (0 <=? i) && (i <? Z.of_nat (length l)) then ed_set (g (<[Z.to_nat i := x]> l)) else fault.

(** ** The light of the port *)

Definition YELLOW_ON : EM' unit := er_or FIODIR2 (Z.shiftl 1 3).
Definition YELLOW_OFF : EM' unit := er_and FIODIR2 (unot 32 (Z.shiftl 1 3)).
Definition lpc_net_activity_init : EM' unit :=
  er_or PCONP (Z.shiftl 1 2);;
  er_write TIM1_TCR 0x2;;
  er_write TIM1_PR 25000;;
  er_write TIM1_MR0 100;;
  er_or TIM1_MCR (Z.lor (Z.shiftl 1 0) (Z.shiftl 1 2));;
  er_write IP_TIMER1 (Z.land (Z.shiftl 30 (8 - 5)) 0xff);;
  er_write ISER_TIMER1 (Z.shiftl 1 2).
Definition lpc_net_activity : EM' unit :=
  er_write TIM1_TCR 0x2;;
  YELLOW_ON;;
  er_write TIM1_TCR 0x1.
Definition TIMER1_IRQHandler : EM' unit :=
  er_or TIM1_IR 0x3F;;
  YELLOW_OFF.

(** ** The management interface of the PHY *)

Definition lpc_mii_write_noblock (PhyReg Value : Z) : EM' unit :=
  er_write MADR (Z.lor (Z.shiftl LPC_PHYDEF_PHYADDR 8) PhyReg);;
  er_write MWTD Value.
(** [sts] is the last status read; the delay has no effect. *)
Fixpoint mii_write_wait (mst : nat) (sts : Z) : EM' Z :=
  match mst with
  | O => mret sts
  | S mst =>
     sts ← er_read MIND;
     let sts := s8 sts in
     if Z.land sts EMAC_MIND_BUSY =? 0 then mret sts else mii_write_wait mst sts
  end.
Definition lpc_mii_write (PhyReg Value : Z) : EM' Z :=
  lpc_mii_write_noblock PhyReg Value;;
  sts ← mii_write_wait 250 ERR_OK;
  mret (if negb (sts =? 0) then ERR_TIMEOUT else sts).
Definition lpc_mii_read_status : EM' Z := er_read MIND.
Definition lpc_mii_read_data : EM' Z :=
  data ← er_read MRDD;
  er_write MCMD 0;;
  mret data.
Definition lpc_mii_read_noblock (PhyReg : Z) : EM' unit :=
  er_write MADR (Z.lor (Z.shiftl LPC_PHYDEF_PHYADDR 8) PhyReg);;
  er_write MCMD EMAC_MCMD_READ.
(** The value, if it came. *)
Fixpoint mii_read_wait (mst : nat) (sts data : Z) : EM' (Z * Z) :=
  match mst with
  | O => mret (sts, data)
  | S mst =>
     sts ← er_read MIND;
     let sts := s8 (Z.land sts (unot 32 EMAC_MIND_MII_LINK_FAIL)) in
     if Z.land sts EMAC_MIND_BUSY =? 0 then
       data ← er_read MRDD;
       mret (sts, data)
     else mii_read_wait mst sts data
  end.
Definition lpc_mii_read (PhyReg data : Z) : EM' (Z * Z) :=
  lpc_mii_read_noblock PhyReg;;
  r ← mii_read_wait 250 ERR_OK data;
  er_write MCMD 0;;
  mret (if negb (r.1 =? 0) then ERR_TIMEOUT else r.1, r.2).

(** ** Reception *)

Definition next_index (idx : Z) : Z := if 8 <=? idx + 1 then 0 else idx + 1.

Definition lpc_rxqueue_pbuf (p : Z) : EM' unit :=
  idx ← ed_get rx_fill_desc_index;
  b ← ebufs (get_pbuf p);
  el_set prxd with_prxd idx (Desc (p_payload b) (Z.lor EMAC_RCTRL_INT (u32 (p_len b - 1))));;
  el_set prxs with_prxs idx (Status 0xFFFFFFFF 0xFFFFFFFF);;
  el_set rxb with_rxb idx p;;
  let idx := next_index idx in
  n ← ed_get rx_free_descs;
  ed_set (with_rx_free (u32 (n - 1)));;
  ed_set (with_rx_fill idx);;
  er_write RxConsumeIndex idx.

Definition lpc_rx_queue : EM' Z :=
  n ← ed_get rx_free_descs;
  if n =? 0 then mret 0
  else
    p ← ebufs (pbuf_alloc PBUF_RAW EMAC_ETH_MAX_FLEN PBUF_RAM);
    if p =? 0 then mret (-1)
    else
      c ← ebufs (pbuf_clen p);
      LWIP_ASSERT (c <=? 1);;
      lpc_rxqueue_pbuf p;;
      mret 1.

Fixpoint times (n : nat) (m : EM' unit) : EM' unit :=
  match n with O => mret tt | S n => m;; times n m end.

Definition lpc_rx_setup : EM' Z :=
  er_write RxDescriptor at_prxd;;
  er_write RxStatus at_prxs;;
  er_write RxDescriptorNumber (LPC_NUM_BUFF_RXDESCS - 1);;
  ed_set (with_rx_free LPC_NUM_BUFF_RXDESCS);;
  ed_set (with_rx_fill 0);;
  times 8 (lpc_rx_queue;; mret tt);;
  mret ERR_OK.

(** Give up all packets of a ring. *)
Fixpoint free_ring (f : enetdata → list Z) (g : list Z → enetdata → enetdata) (n : nat) (idx : Z) : EM' unit :=
  match n with
  | O => mret tt
  | S n =>
     p ← el_get f idx;
     (if negb (p =? 0) then ebufs (pbuf_free p);; el_set f g idx 0 else mret tt);;
     free_ring f g n (idx + 1)
  end.

Definition rx_overrun : EM' unit :=
  er_and MAC1 (unot 32 EMAC_MAC1_REC_EN);;
  er_or MAC1 EMAC_MAC1_RES_RX;;
  er_write IntClear EMAC_INT_RX_OVERRUN;;
  free_ring rxb with_rxb 8 0;;
  lpc_rx_setup;;
  er_or MAC1 EMAC_MAC1_REC_EN.

Definition RINFO_ERRORS : Z :=
  Z.lor EMAC_RINFO_NO_DESCR (Z.lor EMAC_RINFO_ALIGN_ERR (Z.lor EMAC_RINFO_LEN_ERR (Z.lor EMAC_RINFO_SYM_ERR EMAC_RINFO_CRC_ERR))).

Definition lpc_low_level_input : EM' Z :=
  i ← er_read IntStatus;
  if negb (Z.land i EMAC_INT_RX_OVERRUN =? 0) then rx_overrun;; mret 0
  else
    idx ← er_read RxConsumeIndex;
    produce ← er_read RxProduceIndex;
    if produce =? idx then mret 0
    else
      st ← el_get prxs idx;
      p ← el_get rxb idx;
      if negb (Z.land (statusinfo st) RINFO_ERRORS =? 0) then
        (if negb (p =? 0) then
           ebufs (pbuf_free p);;
           el_set rxb with_rxb idx 0;;
           n ← ed_get rx_free_descs;
           ed_set (with_rx_free (u32 (n + 1)))
         else mret tt);;
        mret 0
      else
        let length := Z.land (statusinfo st) 0x7FF + 1 in
        ebufs (set_pbuf p (with_len (u16 length)));;
        el_set rxb with_rxb idx 0;;
        n ← ed_get rx_free_descs;
        ed_set (with_rx_free (u32 (n + 1)));;
        ebufs (set_pbuf p (with_tot_len (u16 length)));;
        mret p.

(** [netif->input] is given. *)
Definition lpc_enetif_input (input : Z → EM' Z) : EM' unit :=
  p ← lpc_low_level_input;
  if p =? 0 then mret tt
  else
    lpc_net_activity;;
    b ← ebufs (get_pbuf p);
    type ← ebufs (load16 (p_payload b + ETH_TYPE));
    if (lwip_htons type =? ETHTYPE_IP) || (lwip_htons type =? ETHTYPE_ARP) then
      err ← input p;
      if negb (err =? ERR_OK) then ebufs (pbuf_free p);; mret tt else mret tt
    else ebufs (pbuf_free p);; mret tt.

(** ** Transmission *)

Definition lpc_packet_addr_notsafe (addr : Z) : Z := if (0x2007C000 <=? addr) && (addr <? 0x20084000) then 0 else 1.

Definition lpc_tx_setup : EM' Z :=
  er_write TxDescriptor at_ptxd;;
  er_write TxStatus at_ptxs;;
  er_write TxDescriptorNumber (LPC_NUM_BUFF_TXDESCS - 1);;
  ed_set (with_last_tx 0);;
  ed_set (λ e, with_ptxd (map (λ d, Desc (d_packet d) 0) (ptxd e)) (with_ptxs (map (λ t, Status 0xFFFFFFFF (statushashcrc t)) (ptxs e)) e));;
  mret ERR_OK.

(** The index moves one slot each round, and is at [cidx] after seven at most
    if both are below eight. *)
Fixpoint reclaim_loop (fuel : nat) (cidx : Z) : EM' unit :=
  match fuel with
  | O => spin
  | S fuel =>
     last ← ed_get lpc_last_tx_idx;
     if cidx =? last then mret tt
     else
       p ← el_get txb last;
       (if negb (p =? 0) then ebufs (pbuf_free p);; el_set txb with_txb last 0 else mret tt);;
       ed_set (with_last_tx (next_index last));;
       reclaim_loop fuel cidx
  end.
Definition lpc_tx_reclaim_st (cidx : Z) : EM' unit := reclaim_loop 9 cidx.
Definition lpc_tx_reclaim : EM' unit :=
  cidx ← er_read TxConsumeIndex;
  lpc_tx_reclaim_st cidx.

(** The number of free descriptors, as computed. *)
Definition free_descs (idx cidx : Z) : Z :=
  if idx =? cidx then LPC_NUM_BUFF_TXDESCS
  else if idx <? cidx then u32 ((LPC_NUM_BUFF_TXDESCS - 1) - ((idx + LPC_NUM_BUFF_TXDESCS) - cidx))
  else u32 ((LPC_NUM_BUFF_TXDESCS - 1) - u32 (cidx - idx)).
Definition lpc_tx_ready : EM' Z :=
  cidx ← er_read TxConsumeIndex;
  lpc_tx_reclaim_st cidx;;
  idx ← er_read TxProduceIndex;
  mret (free_descs idx cidx).

Definition tx_underrun : EM' unit :=
  er_or MAC1 EMAC_MAC1_RES_TX;;
  er_write IntClear EMAC_INT_TX_UNDERRUN;;
  free_ring txb with_txb 8 0;;
  lpc_tx_setup;;
  mret tt.

Fixpoint count_notsafe (fuel : nat) (q n : Z) : EM' Z :=
  match fuel with
  | O => spin
  | S fuel =>
     if q =? 0 then mret n
     else b ← ebufs (get_pbuf q); count_notsafe fuel (p_next b) (u32 (n + lpc_packet_addr_notsafe (p_payload b)))
  end.
(** The octets of the packet from [q] on, to [dst]. *)
Fixpoint copy_packet (fuel : nat) (q dst : Z) : M (pbufs_state A) unit :=
  match fuel with
  | O => spin
  | S fuel =>
     if q =? 0 then mret tt
     else
       b ← get_pbuf q;
       l ← load_octets (p_payload b) (p_len b);
       store_octets dst l;;
       copy_packet fuel (p_next b) (dst + p_len b)
  end.
(** A copy in memory that the controller reaches, or 0. *)
Definition bounce (p : Z) : EM' Z :=
  b ← ebufs (get_pbuf p);
  np ← ebufs (pbuf_alloc PBUF_RAW (p_tot_len b) PBUF_RAM);
  if np =? 0 then mret 0
  else
    c ← ebufs (pbuf_clen np);
    LWIP_ASSERT (c =? 1);;
    nb ← ebufs (get_pbuf np);
    fuel ← gets (λ s, pbuf_fuel (et_bufs s));
    ebufs (copy_packet fuel p (p_payload nb));;
    ebufs (set_pbuf np (with_len (p_tot_len b)));;
    mret np.

(** One descriptor for each buffer. *)
Fixpoint fill_descs (dn : nat) (idx q : Z) (copied : bool) : EM' Z :=
  match dn with
  | O => mret idx
  | S dn =>
     el_set txb with_txb idx q;;
     b ← ebufs (get_pbuf q);
     let control := Z.lor (u32 (p_len b - 1)) EMAC_TCTRL_INT in
     el_set ptxd with_ptxd idx (Desc (p_payload b) (if bool_decide (dn = 0%nat) then Z.lor control EMAC_TCTRL_LAST else control));;
     (if negb copied then ebufs (pbuf_ref q) else mret tt);;
     fill_descs dn (next_index idx) (p_next b) copied
  end.

Definition send_descs (fuel : nat) (p dn : Z) (copied : bool) : EM' Z :=
  poll fuel (n ← lpc_tx_ready; mret (dn <=? n));;
  idx ← er_read TxProduceIndex;
  idx ← fill_descs (Z.to_nat dn) idx p copied;
  er_write TxProduceIndex idx;;
  mret ERR_OK.

(** [fuel] bounds the wait for free descriptors. *)
Definition lpc_low_level_output (fuel : nat) (p : Z) : EM' Z :=
  i ← er_read IntStatus;
  (if negb (Z.land i EMAC_INT_TX_UNDERRUN =? 0) then tx_underrun else mret tt);;
  lpc_net_activity;;
  dn ← ebufs (pbuf_clen p);
  f ← gets (λ s, pbuf_fuel (et_bufs s));
  notdmasafe ← count_notsafe f p 0;
  if negb (notdmasafe =? 0) then
    np ← bounce p;
    if np =? 0 then mret ERR_MEM else send_descs fuel np 1 true
  else send_descs fuel p dn false.

(** ** The driver's part of [net_service] *)

(** Eight slots at most are without a buffer. *)
Fixpoint requeue (fuel : nat) : EM' Z :=
  match fuel with
  | O => spin
  | S fuel => rx_queue_stat ← lpc_rx_queue; if rx_queue_stat =? 1 then requeue fuel else mret rx_queue_stat
  end.
Definition net_service_link (input : Z → EM' Z) : EM' unit :=
  rx_queue_stat ← requeue 9;
  (if negb (rx_queue_stat =? -1) then lpc_enetif_input input else mret tt);;
  lpc_tx_reclaim.
End Driver.
