(* ===== verification/EmacSend.v ===== *)
(** * The rings of the Ethernet driver and transmission

    What the controller promises about its indexes, the transmit ring as a
    queue of descriptors, its invariant, and how packets go through it. *)

From S2P Require Import Prelude LwipBase IpAddr Heap Memp Pbuf PbufChain PbufLinks PbufData PbufMake PbufAlloc PbufRefs Netif EthArp EthArpTable Emac.
From Stdlib Require Import ZArith Lia.
From stdpp Require Import base numbers gmultiset list gmap.
Open Scope Z_scope.

(** ** The controller *)

(** The registers that count, as they are now. *)
Record indexes := Ix { tx_p : Z; tx_c : Z; rx_p : Z; rx_c : Z; ints : Z }.

(** While time passes, frames that were handed over are sent, and others arrive
    as long as there are descriptors for them, all but one. *)
Record settles (i i' : indexes) : Prop := {
  se_tx_p : tx_p i' = tx_p i;
  se_tx_c : ∃ j, 0 ≤ j ≤ (tx_p i - tx_c i) mod 8 ∧ tx_c i' = (tx_c i + j) mod 8;
  se_rx_p : ∃ k, 0 ≤ k ≤ (rx_c i - rx_p i - 1) mod 8 ∧ rx_p i' = (rx_p i + k) mod 8;
  se_rx_c : rx_c i' = rx_c i }.
Definition in_range (i : indexes) : Prop := 0 ≤ tx_p i < 8 ∧ 0 ≤ tx_c i < 8 ∧ 0 ≤ rx_p i < 8 ∧ 0 ≤ rx_c i < 8.

Definition CR_RESETS : Z := Z.lor EMAC_CR_REG_RES (Z.lor EMAC_CR_TX_RES EMAC_CR_RX_RES).
(** The value a register shows, where it matters.  The resets clear themselves. *)
Definition shows (r : ereg) (i i' : indexes) (v : Z) : Prop :=
  match r with
  | TxProduceIndex => v = tx_p i
  | TxConsumeIndex => v = tx_c i'
  | RxProduceIndex => v = rx_p i'
  | RxConsumeIndex => v = rx_c i
  | IntStatus => v = ints i
  | Command => Z.land v CR_RESETS = 0
  | _ => True
  end.
(** Registers whose writing does not move the rings.  The resets of [MAC1] leave
    the host interface alone, to which the index registers belong; those of
    [Command] do not. *)
Definition quiet (r : ereg) : bool :=
  match r with Command | TxProduceIndex | TxConsumeIndex | RxProduceIndex | RxConsumeIndex => false | _ => true end.

Class EmacLaws (D : Type) {EM : Emac D} := {
  ix : D → indexes;
  ix_range d : in_range (ix d);
  emac_read_law r d : settles (ix d) (ix (emac_read r d).2) ∧ shows r (ix d) (ix (emac_read r d).2) (emac_read r d).1;
  emac_quiet_law r v d : quiet r = true → settles (ix d) (ix (emac_write r v d));
  emac_tx_law v d : 0 ≤ v < 8 → ix (emac_write TxProduceIndex v d) = Ix v (tx_c (ix d)) (rx_p (ix d)) (rx_c (ix d)) (ints (ix d));
  emac_command_law v d : Z.land v CR_RESETS = 0 → settles (ix d) (ix (emac_write Command v d));
  emac_reset_law v d : Z.land v CR_RESETS = CR_RESETS → ∃ i, ix (emac_write Command v d) = Ix 0 0 0 0 i;
  emac_rx_law v d : 0 ≤ v < 8 → ix (emac_write RxConsumeIndex v d) = Ix (tx_p (ix d)) (tx_c (ix d)) (rx_p (ix d)) v (ints (ix d)) }.

Lemma settles_refl i : in_range i → settles i i.
Proof.
  intros (_ & Hc & Hp & _). split; try done; exists 0; (split; [split; [lia|by apply Z.mod_pos_bound]|by rewrite Z.add_0_r, Z.mod_small]).
Qed.
(** Progress along a ring adds up. *)
Lemma advance_trans x n a b : 0 ≤ a ≤ n mod 8 → 0 ≤ b ≤ (n - a) mod 8 → 0 ≤ a + b ≤ n mod 8 ∧ ((x + a) mod 8 + b) mod 8 = (x + (a + b)) mod 8.
Proof.
  intros Ha Hb. rewrite Zplus_mod_idemp_l. split; [|f_equal; lia].
  rewrite <-Zminus_mod_idemp_l in Hb. rewrite (Z.mod_small (_ - a)) in Hb; [lia|]. pose proof (Z.mod_pos_bound n 8). lia.
Qed.
Lemma settles_trans i j k : settles i j → settles j k → settles i k.
Proof.
  intros [E1 (a & Ha & Ea) (a' & Ha' & Ea') E3] [F1 (b & Hb & Eb) (b' & Hb' & Eb') F3]. split; try congruence.
  - exists (a + b). rewrite Eb, Ea. apply advance_trans; [done|]. rewrite E1, Ea, Zminus_mod_idemp_r in Hb.
    by replace (tx_p i - tx_c i - a) with (tx_p i - (tx_c i + a)) by lia.
  - exists (a' + b'). rewrite Eb', Ea'. apply advance_trans; [done|]. rewrite E3, Ea', <-Zminus_mod_idemp_l, Zminus_mod_idemp_r, Zminus_mod_idemp_l in Hb'.
    by replace (rx_c i - rx_p i - 1 - a') with (rx_c i - (rx_p i + a') - 1) by lia.
Qed.

(** ** Rings *)

(** The elements from [i] on. *)
Definition rot {X} (i : Z) (l : list X) : list X := drop (Z.to_nat i) l ++ take (Z.to_nat i) l.

Lemma eight {X} (l : list X) : length l = 8%nat → ∃ a b c d e f g h, l = [a; b; c; d; e; f; g; h].
Proof. intros Hl. do 8 (destruct l as [|? l]; [done|]). destruct l; [|done]. by eexists _, _, _, _, _, _, _, _. Qed.
Lemma below_eight (P : Z → Prop) i : 0 ≤ i < 8 → P 0 → P 1 → P 2 → P 3 → P 4 → P 5 → P 6 → P 7 → P i.
Proof.
  intros Hi ????????. assert (i = 0 ∨ i = 1 ∨ i = 2 ∨ i = 3 ∨ i = 4 ∨ i = 5 ∨ i = 6 ∨ i = 7) as E by lia.
  by repeat (destruct E as [->|E]; [done|]); subst.
Qed.

Lemma length_rot {X} i (l : list X) : length l = 8%nat → length (rot i l) = 8%nat.
Proof. intros Hl. unfold rot. rewrite length_app, length_drop, length_take. lia. Qed.
Lemma rot_insert {X} i j (l : list X) x :
  length l = 8%nat → 0 ≤ i < 8 → 0 ≤ j < 8 → rot i (<[Z.to_nat j := x]> l) = <[Z.to_nat ((j - i) mod 8) := x]> (rot i l).
Proof.
  intros (a & b & c & d & e & f & g & h & ->)%eight Hi Hj. revert j Hj.
  apply (below_eight (λ i, ∀ j, 0 ≤ j < 8 → _) i Hi); intros j Hj; pattern j; apply (below_eight _ j Hj); reflexivity.
Qed.
Lemma rot_lookup {X} i j (l : list X) :
  length l = 8%nat → 0 ≤ i < 8 → 0 ≤ j < 8 → l !! Z.to_nat j = rot i l !! Z.to_nat ((j - i) mod 8).
Proof.
  intros (a & b & c & d & e & f & g & h & ->)%eight Hi Hj. revert j Hj.
  apply (below_eight (λ i, ∀ j, 0 ≤ j < 8 → _) i Hi); intros j Hj; pattern j; apply (below_eight _ j Hj); reflexivity.
Qed.
Lemma rot_next {X} i (l : list X) x k :
  length l = 8%nat → 0 ≤ i < 8 → rot i l = x :: k → rot (next_index i) l = k ++ [x].
Proof.
  intros (a & b & c & d & e & f & g & h & ->)%eight Hi. apply (below_eight (λ i, rot i _ = _ → rot (next_index i) _ = _) i Hi);
    cbn; intros [= <- <-]; reflexivity.
Qed.
Lemma next_index_mod i : 0 ≤ i < 8 → next_index i = (i + 1) mod 8.
Proof. intros Hi. apply (below_eight (λ i, next_index i = (i + 1) mod 8) i Hi); reflexivity. Qed.

Lemma behind_next c l : 0 ≤ c < 8 → 0 ≤ l < 8 → c ≠ l → Z.to_nat ((c - next_index l) mod 8) = pred (Z.to_nat ((c - l) mod 8)).
Proof. intros Hc Hl Hne. rewrite next_index_mod, Zminus_mod_idemp_r by done. Z.to_euclidean_division_equations. lia. Qed.

(** ** Transmission *)

(** The slots from the oldest that was not reclaimed on: the buffers and their
    descriptors. *)
Record tx_slots (e : enetdata) (fl : list (Z * LPC_TXRX_DESC_T)) : Prop := {
  tr_txb : length (txb e) = 8%nat;
  tr_ptxd : length (ptxd e) = 8%nat;
  tr_last : 0 ≤ lpc_last_tx_idx e < 8;
  tr_slots : rot (lpc_last_tx_idx e) (txb e) = fl.*1 ++ replicate (8 - length fl) 0;
  tr_descs : take (length fl) (rot (lpc_last_tx_idx e) (ptxd e)) = fl.*2;
  tr_used : Forall (λ x, x.1 ≠ 0) fl }.
(** They are those that the controller was given, and some of them it has sent. *)
Record tx_ring (e : enetdata) (i : indexes) (fl : list (Z * LPC_TXRX_DESC_T)) : Prop := {
  tr_ok : tx_slots e fl;
  tr_count : Z.of_nat (length fl) = (tx_p i - lpc_last_tx_idx e) mod 8;
  tr_done : (tx_c i - lpc_last_tx_idx e) mod 8 ≤ Z.of_nat (length fl) }.

Ltac modular := unfold in_range in *; Z.to_euclidean_division_equations; lia.

Lemma tx_ring_settles e i i' fl : in_range i → tx_ring e i fl → settles i i' → tx_ring e i' fl.
Proof.
  intros Hr [Hs H7 H8] [E1 (j & Hj & Ej) _ _]. pose proof (tr_last _ _ Hs). split; [done|by rewrite E1|]. rewrite Ej, H7 in *. modular.
Qed.
Lemma tx_ring_short e i fl : tx_ring e i fl → (length fl ≤ 7)%nat.
Proof. intros H. pose proof (tr_count _ _ _ H). pose proof (Z.mod_pos_bound (tx_p i - lpc_last_tx_idx e) 8). lia. Qed.

(** The count of free descriptors is enough if they are. *)
Lemma free_descs_enough idx cidx n :
  0 ≤ idx < 8 → 0 ≤ cidx < 8 → 0 ≤ n → n + (idx - cidx) mod 8 ≤ 7 → n ≤ free_descs idx cidx.
Proof.
  intros Hi Hc Hn Hle. unfold free_descs. change LPC_NUM_BUFF_TXDESCS with 8. destruct (Z.eqb_spec idx cidx); [modular|].
  destruct (Z.ltb_spec idx cidx); unfold u32; modular.
Qed.
(** But with the producer ahead it is more than all of them. *)
Lemma free_descs_ahead idx cidx : 0 ≤ cidx < idx → idx < 8 → free_descs idx cidx = 7 + (idx - cidx).
Proof.
  intros Hc Hi. unfold free_descs. change LPC_NUM_BUFF_TXDESCS with 8. destruct (Z.eqb_spec idx cidx); [lia|].
  destruct (Z.ltb_spec idx cidx); [lia|]. unfold u32. modular.
Qed.

Section Tx.
Context {A D : Type} {BA : BufAlloc A} {LA : BufAllocLaws A} {EM : Emac D} {EL : EmacLaws D} {LY : EnetLayout}.
Implicit Types (s : eth A D).

Definition ixs s : indexes := ix (et_dev s).
Definition with_dev (d : D) s : eth A D := Eth (et_bufs s) (et_data s) d.
Definition with_data (e : enetdata) s : eth A D := Eth (et_bufs s) e (et_dev s).
Definition with_ebufs (b : pbufs_state A) s : eth A D := Eth b (et_data s) (et_dev s).

Lemma er_read_runs r s (Q : Z → eth A D → Prop) :
  (∀ v d, settles (ixs s) (ix d) → shows r (ixs s) (ix d) v → Q v (with_dev d s)) → runs (er_read r) s Q.
Proof.
  intros HQ. unfold runs, er_read. destruct (emac_read_law r (et_dev s)) as [H1 H2].
  destruct (emac_read r (et_dev s)) as [v d]. by apply HQ.
Qed.
Lemma er_quiet_runs r v s (Q : unit → eth A D → Prop) :
  quiet r = true → (∀ d, settles (ixs s) (ix d) → Q tt (with_dev d s)) → runs (er_write r v) s Q.
Proof. intros Hr HQ. unfold runs, er_write, modify. by apply HQ, emac_quiet_law. Qed.
Lemma ret_runs {X} (x : X) s (Q : X → eth A D → Prop) : Q x s → runs (mret x) s Q.
Proof. done. Qed.
Lemma ed_get_runs {X} (f : enetdata → X) s (Q : X → eth A D → Prop) : Q (f (et_data s)) s → runs (ed_get f) s Q.
Proof. done. Qed.
Lemma ed_set_runs f s (Q : unit → eth A D → Prop) : Q tt (with_data (f (et_data s)) s) → runs (ed_set f) s Q.
Proof. done. Qed.
Lemma el_get_runs {X} (f : enetdata → list X) i x s (Q : X → eth A D → Prop) :
  f (et_data s) !! Z.to_nat i = Some x → 0 ≤ i → Q x s → runs (el_get f i) s Q.
Proof. intros Hx Hi HQ. unfold runs, el_get. rewrite bind_unfold. cbn. by rewrite Hx, (proj2 (Z.leb_le 0 i)). Qed.
Lemma el_set_runs {X} (f : enetdata → list X) g i (x : X) s (Q : unit → eth A D → Prop) :
  0 ≤ i < Z.of_nat (length (f (et_data s))) → Q tt (with_data (g (<[Z.to_nat i := x]> (f (et_data s))) (et_data s)) s) →
  runs (el_set f g i x) s Q.
Proof.
  intros Hi HQ. unfold runs, el_set. rewrite bind_unfold. cbn. by rewrite (proj2 (Z.leb_le 0 i)), (proj2 (Z.ltb_lt i _)) by lia.
Qed.
Lemma ebufs_runs {X} (m : M (pbufs_state A) X) s x b (Q : X → eth A D → Prop) :
  m (et_bufs s) = Ok (x, b) → Q x (with_ebufs b s) → runs (ebufs m) s Q.
Proof. intros E HQ. unfold runs, ebufs, lift. by rewrite E. Qed.
Lemma ebufs_keep {X} (m : M (pbufs_state A) X) s x (Q : X → eth A D → Prop) :
  m (et_bufs s) = Ok (x, et_bufs s) → Q x s → runs (ebufs m) s Q.
Proof. intros E HQ. eapply ebufs_runs; [exact E|]. by destruct s. Qed.

(** The ring, and the references it holds beside [H]. *)
Definition in_flight (fl : list (Z * LPC_TXRX_DESC_T)) : gmultiset Z := list_to_set_disj fl.*1.
Lemma in_flight_cons p d fl : in_flight ((p, d) :: fl) = {[+ p +]} ⊎ in_flight fl.
Proof. done. Qed.
Lemma in_flight_app fl fl' : in_flight (fl ++ fl') = in_flight fl ⊎ in_flight fl'.
Proof. unfold in_flight. by rewrite fmap_app, list_to_set_disj_app. Qed.
Lemma in_flight_snoc fl p d : in_flight (fl ++ [(p, d)]) = {[+ p +]} ⊎ in_flight fl.
Proof. rewrite in_flight_app, in_flight_cons. change (in_flight []) with (∅ : gmultiset Z). generalize (in_flight fl). intros X. mset. Qed.
Definition tx_ok R (H : gmultiset Z) s fl : Prop := tx_ring (et_data s) (ixs s) fl ∧ held_ok (et_bufs s) R (in_flight fl ⊎ H).

Lemma tx_ok_settles R H s fl d : tx_ok R H s fl → settles (ixs s) (ix d) → tx_ok R H (with_dev d s) fl.
Proof. intros [Hr Hh] Hse. split; [|done]. by eapply tx_ring_settles; [apply ix_range|..]. Qed.

(** One slot. *)
Lemma tx_ring_reclaim e i p d fl :
  tx_ring e i ((p, d) :: fl) → tx_c i ≠ lpc_last_tx_idx e → in_range i →
  txb e !! Z.to_nat (lpc_last_tx_idx e) = Some p ∧
  tx_ring (with_last_tx (next_index (lpc_last_tx_idx e)) (with_txb (<[Z.to_nat (lpc_last_tx_idx e) := 0]> (txb e)) e)) i fl.
Proof.
  intros Hr Hne Hi. pose proof (tx_ring_short _ _ _ Hr) as Hs. destruct Hr as [[H1 H2 H3 H4 H5 H6] H7 H8].
  set (L := lpc_last_tx_idx e) in *. cbn [length fmap list_fmap fst snd app] in *. split.
  - rewrite (rot_lookup L L) by done. rewrite Z.sub_diag, H4. done.
  - apply Forall_cons in H6 as [_ H6]. assert (0 ≤ next_index L < 8) as Hn by (unfold next_index; destruct (Z.leb_spec 8 (L + 1)); lia).
    split; [split|..]; cbn [txb ptxd lpc_last_tx_idx with_last_tx with_txb]; try done.
    + by rewrite length_insert.
    + rewrite (rot_next _ _ 0 (fl.*1 ++ replicate (8 - S (length fl)) 0)).
      * replace (8 - length fl)%nat with (S (8 - S (length fl))) by lia. rewrite replicate_S_end, app_assoc. done.
      * by rewrite length_insert.
      * done.
      * rewrite rot_insert by done. rewrite Z.sub_diag, H4. done.
    + pose proof (length_rot L _ H2) as Lr. destruct (rot L (ptxd e)) as [|x k] eqn:E; [done|]. cbn in H5, Lr. injection H5 as -> H5.
      rewrite (rot_next L _ d k) by done. rewrite take_app_le by lia. done.
    + rewrite next_index_mod by done. modular.
    + rewrite next_index_mod by done. modular.
Qed.

(** The other half of the driver's data. *)
Definition same_rx (e e' : enetdata) : Prop :=
  prxd e' = prxd e ∧ prxs e' = prxs e ∧ rxb e' = rxb e ∧ rx_fill_desc_index e' = rx_fill_desc_index e ∧ rx_free_descs e' = rx_free_descs e.

(** What a step of the transmit side leaves alone. *)
Record tx_step s s' : Prop := {
  ts_rx : same_rx (et_data s) (et_data s');
  ts_mem : pb_data (et_bufs s') = pb_data (et_bufs s);
  ts_store : survives (pb_store (et_bufs s)) (pb_store (et_bufs s')) }.
#[export] Instance tx_step_refl : Reflexive tx_step.
Proof. intros s. by split. Qed.
#[export] Instance tx_step_trans : Transitive tx_step.
Proof.
  intros x y z [(E1 & E2 & E3 & E4 & E5) M1 S1] [(F1 & F2 & F3 & F4 & F5) M2 S2]. split; [|congruence|by etrans].
  unfold same_rx. repeat split; congruence.
Qed.

Lemma tx_step_dev d s : tx_step s (with_dev d s).
Proof. by split. Qed.

(** Reclaiming frees what was sent, and nothing else. *)
Definition sent s : nat := Z.to_nat ((tx_c (ixs s) - lpc_last_tx_idx (et_data s)) mod 8).
Lemma reclaim_runs fuel R H s fl :
  tx_ok R H s fl → (sent s < fuel)%nat →
  runs (reclaim_loop fuel (tx_c (ixs s))) s (λ _ s',
    tx_ok R H s' (drop (sent s) fl) ∧ sent s' = 0%nat ∧ et_dev s' = et_dev s ∧ tx_step s s').
Proof.
  revert s fl. induction fuel as [|fuel IH]; intros s fl Hok Hf; [lia|]. cbn [reclaim_loop]. apply runs_bind, ed_get_runs.
  pose proof (ix_range (et_dev s)) as Hi. change (ix (et_dev s)) with (ixs s) in Hi. destruct Hok as [Hr Hh].
  pose proof (tr_last _ _ (tr_ok _ _ _ Hr)) as Hl. destruct (Z.eqb_spec (tx_c (ixs s)) (lpc_last_tx_idx (et_data s))) as [E|Hne].
  { assert (sent s = 0%nat) as E0 by (unfold sent; by rewrite E, Z.sub_diag). apply ret_runs. rewrite E0, drop_0. split; [by split|]. by split. }
  assert (sent s ≠ 0%nat) as Hs0 by (unfold sent; modular). pose proof (tr_done _ _ _ Hr) as Hd.
  destruct fl as [|[p d] fl]; [unfold sent in Hs0; cbn in Hd; modular|].
  destruct (tx_ring_reclaim _ _ _ _ _ Hr Hne Hi) as [Hp Hr']. pose proof (tr_used _ _ (tr_ok _ _ _ Hr)) as [Hp0 _]%Forall_cons. cbn [fst] in Hp0.
  apply runs_bind. eapply el_get_runs; [exact Hp|lia|]. rewrite (proj2 (Z.eqb_neq _ _) Hp0). cbn [negb].
  rewrite in_flight_cons, <-(assoc_L (⊎)) in Hh.
  destruct (pbuf_free_held _ _ _ _ Hh) as (n & b & E & Hh' & Em & Hsv & _).
  apply runs_bind, runs_bind. eapply ebufs_runs; [exact E|]. apply el_set_runs; [cbn; rewrite (tr_txb _ _ (tr_ok _ _ _ Hr)); lia|].
  apply runs_bind, ed_set_runs. set (s1 := with_data _ _).
  assert (sent s1 = pred (sent s)) as E1.
  { apply behind_next; [by apply Hi|done..]. }
  change (tx_c (ixs s)) with (tx_c (ixs s1)). eapply runs_mono; [|apply (IH s1 fl); [by split|lia]].
  intros _ s' (Hok' & E0 & Ed & Hst). rewrite E1 in Hok'. destruct (sent s) as [|k]; [lia|]. cbn [drop pred] in *.
  split; [done|]. split; [done|]. split; [done|]. etrans; [|exact Hst]. by split.
Qed.
End Tx.

(** ** Transmission by the Ethernet driver

    A packet becomes descriptors that the controller reads the same octets
    from; the buffers stay referred to until they were sent. *)

(** ** Frames *)

(** What the controller sends for descriptors: as many octets as the low bits of
    the control word say, and one; a frame ends at the descriptor that is marked. *)
Definition d_size (d : LPC_TXRX_DESC_T) : Z := Z.land (d_control d) 0x7FF + 1.
Definition d_last (d : LPC_TXRX_DESC_T) : bool := negb (Z.land (d_control d) EMAC_TCTRL_LAST =? 0).
Definition frame (m : memory) (ds : list LPC_TXRX_DESC_T) : list Z :=
  flat_map (λ d, mem_read m (d_packet d) (Z.to_nat (d_size d))) ds.
Definition delimited (ds : list LPC_TXRX_DESC_T) : Prop :=
  ∃ ds' d, ds = ds' ++ [d] ∧ d_last d = true ∧ Forall (λ d, d_last d = false) ds'.

(** The descriptors of a packet. *)
Definition tx_control (n : Z) (last : bool) : Z :=
  let control := Z.lor (u32 (n - 1)) EMAC_TCTRL_INT in if last then Z.lor control EMAC_TCTRL_LAST else control.
Fixpoint tx_descs (l : list cell) : list (Z * LPC_TXRX_DESC_T) :=
  match l with
  | [] => []
  | c :: l => (c.1, Desc (p_payload c.2) (tx_control (p_len c.2) (bool_decide (length l = 0%nat)))) :: tx_descs l
  end.

(** Every buffer fits a descriptor. *)
Definition fits_descs (l : list cell) : Prop := Forall (λ c, 1 ≤ p_len c.2 ≤ 0x800) l.

Lemma control_bits n (last : bool) :
  1 ≤ n ≤ 0x800 → Z.land (tx_control n last) 0x7FF = n - 1 ∧ Z.land (tx_control n last) EMAC_TCTRL_LAST = if last then EMAC_TCTRL_LAST else 0.
Proof.
  intros Hn. unfold tx_control. replace (u32 (n - 1)) with (n - 1) by (unfold u32; rewrite Z.mod_small; lia).
  assert (Z.land (n - 1) 0x7FF = n - 1) as E by (change 0x7FF with (Z.ones 11); rewrite Z.land_ones, Z.mod_small; lia).
  assert (Z.land (n - 1) EMAC_TCTRL_LAST = 0) as E' by (rewrite <-E, <-Z.land_assoc; apply Z.land_0_r).
  destruct last; rewrite !Z.land_lor_distr_l, E, E'; by rewrite ?Z.lor_0_r, ?Z.lor_0_l.
Qed.

Lemma frame_contents m l : fits_descs l → frame m (tx_descs l).*2 = contents m l.
Proof.
  induction l as [|[a b] l IH]; intros Hf; [done|]. apply Forall_cons in Hf as [Hb Hf]. cbn [tx_descs fmap list_fmap snd fst frame flat_map contents].
  fold (frame m (tx_descs l).*2). rewrite (IH Hf). f_equal. unfold cell_data, d_size. cbn [d_control d_packet fst snd].
  rewrite (proj1 (control_bits _ _ Hb)). by rewrite Z.sub_add.
Qed.
Lemma length_tx_descs l : length (tx_descs l) = length l.
Proof. induction l as [|c l IH]; [done|]. cbn. by rewrite IH. Qed.
Lemma tx_descs_delimited l : fits_descs l → l ≠ [] → delimited (tx_descs l).*2.
Proof.
  induction l as [|[a b] l IH]; intros Hf Hne; [done|]. apply Forall_cons in Hf as [Hb Hf]. cbn [tx_descs fmap list_fmap snd fst].
  pose proof (control_bits (p_len b) (bool_decide (length l = 0%nat)) Hb) as [_ Hc]. destruct l as [|c l].
  - eexists [], _. split; [done|]. split; [|constructor]. unfold d_last. cbn [d_control]. cbn in Hc |- *. by rewrite Hc.
  - destruct (IH Hf ltac:(done)) as (ds' & d & E & Hd & Hds). rewrite E. eexists (_ :: ds'), d. split; [done|]. split; [done|].
    constructor; [|done]. unfold d_last. cbn [d_control]. rewrite bool_decide_eq_false_2 in Hc |- * by done. by rewrite Hc.
Qed.
Lemma bares_descs l k : bares l = bares k → tx_descs l = tx_descs k.
Proof.
  revert k. induction l as [|[a b] l IH]; intros [|[c d] k] E; try done. cbn in E. injection E as Ea _ Hp _ Hlen _ _ E'.
  cbn [tx_descs fst snd]. pose proof (f_equal length E') as El. unfold bares in El. rewrite !length_map in El. rewrite (IH k E'), El. congruence.
Qed.

(** ** Filling descriptors *)

Section Send.
Context {A D : Type} {BA : BufAlloc A} {LA : BufAllocLaws A} {EM : Emac D} {EL : EmacLaws D} {LY : EnetLayout}.
Implicit Types (s : eth A D).

Lemma tx_slots_fill e fl idx q d :
  tx_slots e fl → (length fl ≤ 7)%nat → idx = (lpc_last_tx_idx e + Z.of_nat (length fl)) mod 8 → q ≠ 0 →
  tx_slots (with_ptxd (<[Z.to_nat idx := d]> (ptxd e)) (with_txb (<[Z.to_nat idx := q]> (txb e)) e)) (fl ++ [(q, d)]).
Proof.
  intros [H1 H2 H3 H4 H5 H6] Hlen -> Hq. set (L := lpc_last_tx_idx e) in *. set (idx := _ mod 8).
  assert (0 ≤ idx < 8) as Hi by by apply Z.mod_pos_bound.
  assert (Z.to_nat ((idx - L) mod 8) = length fl) as Ei.
  { unfold idx. rewrite Zminus_mod_idemp_l. replace (_ - L) with (Z.of_nat (length fl)) by lia. rewrite Z.mod_small by lia. lia. }
  split; cbn [txb ptxd lpc_last_tx_idx with_ptxd with_txb]; rewrite ?length_insert; try done.
  - fold L. rewrite rot_insert, Ei, H4 by done. rewrite insert_app_r_alt, length_fmap, Nat.sub_diag by by rewrite length_fmap.
    rewrite fmap_app, length_app. cbn [length fmap list_fmap fst]. replace (8 - length fl)%nat with (S (8 - (length fl + 1))) by lia.
    cbn. by rewrite <-app_assoc.
  - fold L. rewrite rot_insert, Ei by done. rewrite length_app, fmap_app, <-H5. cbn [length fmap list_fmap snd].
    pose proof (length_rot L _ H2) as Lr. set (r := rot L (ptxd e)) in *.
    rewrite Nat.add_1_r, (take_S_r _ (length fl) d), take_insert_ge; [done|lia|apply list_lookup_insert_eq; lia].
  - apply Forall_app. split; [done|]. by constructor.
Qed.
(** One more reference for every slot. *)
Lemma fill_runs R H l q idx s fl :
  chain (pb_store (et_bufs s)) q l → Forall (λ c, p_ref c.2 < 2 ^ 16 - 1) l → (length fl + length l ≤ 7)%nat →
  tx_slots (et_data s) fl → idx = (lpc_last_tx_idx (et_data s) + Z.of_nat (length fl)) mod 8 →
  held_ok (et_bufs s) R (in_flight fl ⊎ H) →
  runs (fill_descs (length l) idx q false) s (λ idx' s',
    idx' = (idx + Z.of_nat (length l)) mod 8 ∧ tx_slots (et_data s') (fl ++ tx_descs l) ∧
    lpc_last_tx_idx (et_data s') = lpc_last_tx_idx (et_data s) ∧ held_ok (et_bufs s') R (in_flight (fl ++ tx_descs l) ⊎ H) ∧
    et_dev s' = et_dev s ∧ tx_step s s').
Proof.
  revert q idx s fl. induction l as [|[a b] l IH]; intros q idx s fl Hc Href Hlen Hsl Hidx Hh.
  { cbn [fill_descs length tx_descs]. apply ret_runs. rewrite app_nil_r, Z.add_0_r, Hidx, Zmod_mod. done. }
  pose proof (chain_nodup _ _ _ Hc) as Hnd. cbn in Hnd. apply NoDup_cons in Hnd as [Hal _].
  destruct Hc as (-> & Ha & Hb & Hc). apply Forall_cons in Href as [Hr Href]. cbn [snd length] in *.
  assert (0 ≤ idx < 8) as Hi by (rewrite Hidx; by apply Z.mod_pos_bound). pose proof (tr_txb _ _ Hsl) as L1. pose proof (tr_ptxd _ _ Hsl) as L2.
  cbn [fill_descs length]. apply runs_bind, el_set_runs; [rewrite L1; lia|]. apply runs_bind. eapply ebufs_keep; [unfold get_pbuf; cbn; by rewrite Hb|].
  apply runs_bind, el_set_runs; [cbn; rewrite L2; lia|]. destruct (pbuf_ref_held _ _ _ _ _ Hh Hb Hr) as (bs & E & Hh' & Em & Hsv & _).
  cbn [negb]. apply runs_bind. eapply ebufs_runs; [exact E|]. set (s1 := with_ebufs _ _).
  rewrite (pbuf_ref_ok _ _ _ Hb Ha) in E. injection E as E.
  set (d := Desc (p_payload b) (tx_control (p_len b) (bool_decide (length l = 0%nat)))).
  pose proof (tx_slots_fill _ fl idx a d Hsl ltac:(lia) Hidx Ha) as Hsl'. change (tx_slots (et_data s1) (fl ++ [(a, d)])) in Hsl'.
  eapply runs_mono; [|apply (IH (p_next b) (next_index idx) s1 (fl ++ [(a, d)]))]; try done.
  - intros idx' s' (Ei & Hs' & El & Hhs & Ed & Hst). rewrite <-app_assoc in Hs', Hhs. split.
    { rewrite Ei, next_index_mod, Zplus_mod_idemp_l by done. f_equal. lia. }
    split; [done|]. split; [by rewrite El|]. split; [done|]. split; [by rewrite Ed|]. etrans; [|exact Hst]. by split.
  - cbn. rewrite <-E. cbn [pb_store]. by apply chain_insert.
  - rewrite length_app. cbn. lia.
  - rewrite length_app, next_index_mod by done. cbn [length]. rewrite Hidx, Zplus_mod_idemp_l. cbn. f_equal. lia.
  - rewrite hold_ne in Hh' by done. by rewrite in_flight_snoc, <-(assoc_L (⊎)).
Qed.

(** ** Counting *)

Lemma ready_runs R H s fl :
  tx_ok R H s fl →
  runs lpc_tx_ready s (λ n s', (∃ k, tx_ok R H s' (drop k fl)) ∧ settles (ixs s) (ixs s') ∧ tx_step s s' ∧
    (∃ c, 0 ≤ c < 8 ∧ (tx_p (ixs s) - c) mod 8 ≤ (tx_p (ixs s) - tx_c (ixs s)) mod 8 ∧ lpc_last_tx_idx (et_data s') = c ∧
      n = free_descs (tx_p (ixs s)) c)).
Proof.
  intros Hok. apply runs_bind, er_read_runs. intros cidx d Hse Hv. cbn in Hv. subst cidx. pose proof (tx_ok_settles _ _ _ _ _ Hok Hse) as Hok1. set (s1 := with_dev d s) in *.
  pose proof (ix_range d) as Hi. unfold lpc_tx_reclaim_st. apply runs_bind.
  eapply runs_mono; [|apply (reclaim_runs _ _ _ s1 fl Hok1)]; [|unfold sent; pose proof (Z.mod_pos_bound (tx_c (ixs s1) - lpc_last_tx_idx (et_data s1)) 8); lia].
  intros _ s2 (Hok2 & E0 & Ed & Hst). apply runs_bind, er_read_runs. intros idx d' Hse' Hv. cbn in Hv. subst idx. apply ret_runs.
  assert (ixs s2 = ixs s1) as E2 by (unfold ixs; by rewrite Ed). rewrite E2 in Hse'.
  pose proof (tr_last _ _ (tr_ok _ _ _ (proj1 Hok2))) as Hl. assert (lpc_last_tx_idx (et_data s2) = tx_c (ix d)) as El.
  { unfold sent in E0. rewrite E2 in E0. change (ixs s1) with (ix d) in E0. modular. }
  split; [exists (sent s1); by apply tx_ok_settles; [|rewrite E2]|]. split; [by eapply settles_trans; [exact Hse|]|]. split; [etrans; [apply tx_step_dev|etrans; [exact Hst|apply tx_step_dev]]|].
  exists (tx_c (ix d)). split; [apply Hi|]. split; [|split; [done|rewrite E2; change (ixs s1) with (ix d); by rewrite (se_tx_p _ _ Hse)]].
  destruct (se_tx_c _ _ Hse) as (j & Hj & ->). rewrite Zminus_mod_idemp_r. pose proof (ix_range (et_dev s)). unfold ixs in *. modular.
Qed.

Lemma activity_runs s (Q : unit → eth A D → Prop) :
  (∀ d, settles (ixs s) (ix d) → Q tt (with_dev d s)) → runs lpc_net_activity s Q.
Proof.
  intros HQ. apply runs_bind, er_quiet_runs; [done|]. intros d1 H1. apply runs_bind, runs_bind, er_read_runs. intros v d2 H2 _.
  apply er_quiet_runs; [done|]. intros d3 H3. apply er_quiet_runs; [done|]. intros d4 H4.
  apply (HQ d4). do 3 (eapply settles_trans; [eassumption|]). done.
Qed.

(** Every buffer lies where the controller reaches it. *)
Definition reachable (l : list cell) : Prop := Forall (λ c, lpc_packet_addr_notsafe (p_payload c.2) = 0) l.
Lemma count_runs fuel l q n s (Q : Z → eth A D → Prop) :
  chain (pb_store (et_bufs s)) q l → (length l < fuel)%nat → 0 ≤ n → n + Z.of_nat (length l) < 2 ^ 32 →
  (∀ m, n ≤ m → (m = n ↔ reachable l) → Q m s) →
  runs (count_notsafe fuel q n) s Q.
Proof.
  revert q n fuel. induction l as [|[a b] l IH]; intros q n fuel Hc Hf Hn Hlt HQ; destruct fuel as [|fuel]; try (cbn in Hf; lia); cbn [count_notsafe].
  { cbn in Hc. subst q. cbn. apply ret_runs, HQ; [lia|]. split; [by constructor|done]. }
  destruct Hc as (-> & Ha & Hb & Hc). rewrite (proj2 (Z.eqb_neq _ _) Ha). apply runs_bind. eapply ebufs_keep; [unfold get_pbuf; by rewrite Hb|].
  cbn [length] in *. assert (0 ≤ lpc_packet_addr_notsafe (p_payload b) ≤ 1) as Hu by (unfold lpc_packet_addr_notsafe; case_match; lia).
  replace (u32 (n + _)) with (n + lpc_packet_addr_notsafe (p_payload b)) by (unfold u32; rewrite Z.mod_small; lia).
  apply (IH _ _ _ Hc); [lia..|]. intros m Hm Hiff. apply HQ; [lia|]. unfold reachable. rewrite Forall_cons. cbn [snd]. split.
  - intros ->. assert (lpc_packet_addr_notsafe (p_payload b) = 0) as E by lia. split; [done|]. apply Hiff. lia.
  - intros [E Hl]. rewrite (proj2 Hiff Hl). lia.
Qed.

(** ** A copy *)

Lemma copy_packet_ok fuel l q dst (b : pbufs_state A) :
  chain (pb_store b) q l → lens_ok l → (length l < fuel)%nat → clear_of dst (dst + total_len l) l →
  ∃ m, copy_packet fuel q dst b = Ok (tt, Pbufs (pb_store b) m (pb_alloc b)) ∧ ∀ x, m x = mem_write (pb_data b) dst (contents (pb_data b) l) x.
Proof.
  revert q dst b fuel. induction l as [|[a c] l IH]; intros q dst b fuel Hc Hl Hf Hcl; destruct fuel as [|fuel]; try (cbn in Hf; lia); cbn [copy_packet].
  { cbn in Hc. subst q. exists (pb_data b). destruct b. split; [done|]. intros x. rewrite mem_write_outside; [done|cbn; lia]. }
  destruct Hc as (-> & Ha & Hb & Hc). pose proof Hl as (Hlen & _ & Hl'). pose proof (lens_nonneg _ Hl') as Hn. cbn [length] in Hf.
  change (total_len ((a, c) :: l)) with (p_len c + total_len l) in Hcl. apply Forall_cons in Hcl as [_ Hcl].
  rewrite (proj2 (Z.eqb_neq _ _) Ha), (get_pbuf_step _ _ _ _ Hb). unfold load_octets. rewrite bind_unfold. unfold store_octets. rewrite bind_unfold.
  change (mem_read (pb_data b) (p_payload c) (Z.to_nat (p_len c))) with (cell_data (pb_data b) (a, c)).
  pose proof (length_cell_data (pb_data b) (a, c) Hlen) as Lc. cbn [snd] in Lc.
  set (b1 := Pbufs _ _ _). destruct (IH (p_next c) (dst + p_len c) b1 fuel) as (m & E & Hm); [done|done|lia| |].
  { eapply clear_of_sub, Hcl; lia. }
  assert (contents (pb_data b1) l = contents (pb_data b) l) as Ec.
  { eapply contents_changes; [apply changes_write|]. eapply clear_of_sub, Hcl; lia. }
  exists m. split; [exact E|]. intros x. rewrite Hm, Ec. cbn [contents]. by rewrite <-mem_write_app, Lc.
Qed.

(** Allocation leaves the buffers there are. *)
Lemma alloc_keeps (b b' : pbufs_state A) R K layer n type p :
  held_ok b R K → pbuf_alloc layer n type b = Ok (p, b') → is_u16 n →
  (type = PBUF_RAM → LWIP_MEM_ALIGN_SIZE (SIZEOF_STRUCT_PBUF + header_offset layer) + LWIP_MEM_ALIGN_SIZE n ≤ 65532) →
  ∀ a c, pb_store b !! a = Some c → pb_store b' !! a = Some c ∧ a ≠ p.
Proof.
  intros [(L & Hok & _) Hct] E Hn Hf a c Ha. destruct (pbuf_alloc_ok b L layer n type Hok Hn Hf) as (p2 & b2 & E2 & Hres).
  rewrite E in E2. injection E2 as <- <-. destruct Hres as [(-> & -> & _)|(L' & c2 & l & Hex & Hpk & _)].
  { split; [done|]. intros ->. by rewrite (ct_null _ _ Hct) in Ha. }
  assert (a ∉ ((p, c2) :: l).*1) as Hout by (intros Hin; by rewrite (proj1 (ex_fresh _ _ _ _ _ Hex a Hin)) in Ha).
  split; [by rewrite (ex_store _ _ _ _ _ Hex a Hout)|]. intros ->. apply Hout. by left.
Qed.

Lemma bounce_runs R K p l s :
  held_ok (et_bufs s) R K → p ∈ K → packet (pb_store (et_bufs s)) p l → own_octets l → total_len l ≤ 65000 →
  runs (bounce p) s (λ np s', ∃ b', s' = with_ebufs b' s ∧ held_ok b' R (hold np K) ∧
    (∀ a b, pb_store (et_bufs s) !! a = Some b → pb_store b' !! a = Some b ∧ a ≠ np) ∧ kept_packets K (pb_store (et_bufs s)) (pb_store b') ∧ kept_octets K (et_bufs s) b' ∧
    (np ≠ 0 → ∃ c, chain (pb_store b') np [(np, c)] ∧ p_ref c = 1 ∧ p_len c = total_len l ∧ contents (pb_data b') [(np, c)] = contents (pb_data (et_bufs s)) l)).
Proof.
  intros Hh Hin Hpk Ho Hlen. pose proof (pk_lens _ _ _ Hpk) as Hl. pose proof (lens_nonneg _ Hl) as Hn0.
  destruct l as [|[p' b] l]; [by destruct (pk_ne _ _ _ Hpk)|]. pose proof (pk_chain _ _ _ Hpk) as (<- & _ & Hb & _).
  assert (p_tot_len b = total_len ((p, b) :: l)) as Et by apply Hl. set (k := (p, b) :: l) in *.
  unfold bounce. apply runs_bind. eapply ebufs_keep; [unfold get_pbuf; by rewrite Hb|]. rewrite Et.
  pose proof (align_size_bounds (total_len k)) as Hal.
  destruct (pbuf_alloc_held (et_bufs s) R K PBUF_RAW (total_len k) PBUF_RAM Hh) as (np & b1 & Ea & Hh1 & Ed & Hk1 & Hnew);
    [unfold is_u16; lia|intros _; change (LWIP_MEM_ALIGN_SIZE (SIZEOF_STRUCT_PBUF + header_offset PBUF_RAW)) with 16; lia|].
  assert (∀ a b, pb_store (et_bufs s) !! a = Some b → pb_store b1 !! a = Some b ∧ a ≠ np) as Hsame.
  { apply (alloc_keeps _ _ _ _ _ _ _ _ Hh Ea); [unfold is_u16; lia|intros _; change (LWIP_MEM_ALIGN_SIZE (SIZEOF_STRUCT_PBUF + header_offset PBUF_RAW)) with 16; lia]. }
  apply runs_bind. eapply ebufs_runs; [exact Ea|]. destruct (Z.eqb_spec np 0) as [->|Hp].
  { apply ret_runs. exists b1. do 4 (split; [done|]). split; [by apply kept_octets_same|done]. }
  destruct (Hnew Hp) as (L & L' & c & l1 & Hok & Hex & Hpk1 & Ht & Hnc & Hone & _). rewrite Hone in * by done. clear Hone Hnew.
  apply Forall_singleton in Hnc as (Hrf & _ & Hty). cbn [snd] in Hrf, Hty. assert (owns c) as Hoc by by left.
  change (total_len [(np, c)]) with (p_len c + 0) in Ht. rewrite Z.add_0_r in Ht.
  pose proof (pk_chain _ _ _ Hpk1) as (_ & _ & Hc & _). destruct (extends_chain _ _ _ _ _ _ _ _ Hex (pk_chain _ _ _ Hpk)) as [Hpk' Hck].
  apply runs_bind. eapply ebufs_keep; [apply (pbuf_clen_ok _ _ [(np, c)]), (pk_chain _ _ _ Hpk1)|]. change (u8 _ =? 1) with true.
  apply runs_bind, ret_runs, runs_bind. eapply ebufs_keep; [unfold get_pbuf; cbn; by rewrite Hc|]. apply runs_bind. unfold gets, runs at 1.
  pose proof (chain_size _ _ _ Hck) as Hsz. destruct (copy_packet_ok (pbuf_fuel b1) k p (p_payload c) b1) as (m & E & Hm);
    [done|done|unfold pbuf_fuel; lia|rewrite <-Ht; by apply (owns_clear b1 L' np c p k (ex_ok _ _ _ _ _ Hex))|].
  pose proof (length_contents (pb_data b1) k Hl) as Lk.
  apply runs_bind. eapply ebufs_runs; [exact E|]. apply runs_bind. eapply ebufs_keep.
  { unfold set_pbuf. rewrite bind_unfold. unfold get_pbuf, put_pbuf. cbn. rewrite Hc. cbn.
    replace (with_len (p_len b + total_len l) c) with c by (change (p_len b + total_len l) with (total_len k); rewrite <-Ht; by destruct c). by rewrite (insert_id (pb_store b1) np c). }
  apply ret_runs. eexists. split; [done|]. split; [by apply held_ok_data|]. split; [done|]. split; [done|]. split.
  - apply (kept_octets_fresh K (et_bufs s) L b1 L' np c); [done..|]. cbn [pb_data]. rewrite <-Ed. intros x Hx. rewrite Hm. apply mem_write_outside. lia.
  - intros _. exists c. split; [apply (pk_chain _ _ _ Hpk1)|]. split; [done|]. split; [done|]. cbn [contents pb_data]. rewrite app_nil_r. unfold cell_data. cbn [fst snd].
    rewrite (mem_read_ext (mem_write (pb_data b1) (p_payload c) (contents (pb_data b1) k)) m) by (intros; apply Hm).
    rewrite mem_write_read by lia. by rewrite Ed.
Qed.

(** ** Sending *)

(** The counts of a packet do not grow. *)
Lemma refs_le (st st' : store) H H' n l p l' :
  survives st st' → counted st H → counted st' H' → (∀ a, (multiplicity a H' ≤ multiplicity a H)%nat) →
  chain st p l → chain st' p l' → bares l' = bares l → Forall (λ c, p_ref c.2 < n) l → Forall (λ c, p_ref c.2 < n) l'.
Proof.
  intros Hs Hct Hct' Hm. revert p l. induction l' as [|[a b'] l' IH]; intros p l Hl Hl' E Hr; [constructor|].
  destruct l as [|[a2 b] l]; [done|]. destruct Hl as (-> & _ & Hb & Hl), Hl' as (-> & _ & Hb' & Hl'). cbn in E. injection E as En _ _ _ _ _ E.
  apply Forall_cons in Hr as [Hr Hrs]. constructor; [|apply (IH (p_next b') l); [by rewrite En|done..]]. cbn [snd] in *.
  destruct (ct_ref _ _ Hct a b Hb) as [Er _], (ct_ref _ _ Hct' a b' Hb') as [Er' _]. unfold references in *.
  pose proof (survives_into _ _ a Hs). specialize (Hm a). lia.
Qed.
(** A buffer that has one reference stays as it is while that is held. *)
Lemma sole_kept (st st' : store) K K' q b :
  survives st st' → counted st K → counted st' K' → q ∈ K' → (multiplicity q K' ≤ multiplicity q K)%nat →
  st !! q = Some b → p_ref b = 1 → st' !! q = Some b.
Proof.
  intros Hs Hct Hct' Hin Hm Hb Hr. destruct (ct_held _ _ Hct' q Hin) as [b' Hb']. rewrite Hb'. f_equal.
  destruct (Hs _ _ Hb') as (b2 & Hb2 & E). rewrite Hb in Hb2. injection Hb2 as <-.
  destruct (ct_ref _ _ Hct q b Hb) as [Er _], (ct_ref _ _ Hct' q b' Hb') as [Er' Hpos]. unfold references in *.
  pose proof (survives_into _ _ q Hs). assert (p_ref b' = p_ref b) as E2 by lia. clear -E E2. destruct b, b'. unfold bare, with_ref in E. simpl in *. congruence.
Qed.
Lemma in_flight_out q l : q ∉ l.*1 → multiplicity q (in_flight (tx_descs l)) = 0%nat.
Proof.
  intros Hq. apply not_elem_of_multiplicity. unfold in_flight. rewrite elem_of_list_to_set_disj. replace (tx_descs l).*1 with l.*1; [done|].
  clear. induction l as [|c l IH]; [done|]. cbn. by rewrite IH.
Qed.
Lemma in_flight_drop k fl H a : (multiplicity a (in_flight (drop k fl) ⊎ H) ≤ multiplicity a (in_flight fl ⊎ H))%nat.
Proof. rewrite <-(take_drop k fl) at 2. rewrite in_flight_app, !multiplicity_disj_union. lia. Qed.

(** The descriptors behind the ring are handed over. *)
Lemma hand_over e i e' fl ds p rp rc it :
  tx_ring e i fl → tx_slots e' (fl ++ ds) → lpc_last_tx_idx e' = lpc_last_tx_idx e → (length (fl ++ ds) ≤ 7)%nat →
  p = (tx_p i + Z.of_nat (length ds)) mod 8 → tx_ring e' (Ix p (tx_c i) rp rc it) (fl ++ ds).
Proof.
  intros [Hs Hc Hd] Hs' El Hlen ->. split; [done|cbn [tx_p]; rewrite El|cbn [tx_c]; rewrite El; rewrite length_app in *; lia].
  rewrite Zminus_mod_idemp_l. replace (_ - _) with ((tx_p i - lpc_last_tx_idx e) + Z.of_nat (length ds)) by lia.
  rewrite <-Zplus_mod_idemp_l, <-Hc, <-Nat2Z.inj_add, <-length_app, Z.mod_small; lia.
Qed.

(** A copy is given to the ring. *)
Definition gives (copied : bool) (p : Z) (H : gmultiset Z) : gmultiset Z := if copied then {[+ p +]} ⊎ H else H.

Lemma fill_copy_runs R H c q idx s fl :
  chain (pb_store (et_bufs s)) q [(q, c)] → (length fl ≤ 6)%nat →
  tx_slots (et_data s) fl → idx = (lpc_last_tx_idx (et_data s) + Z.of_nat (length fl)) mod 8 →
  held_ok (et_bufs s) R (in_flight fl ⊎ ({[+ q +]} ⊎ H)) →
  runs (fill_descs 1 idx q true) s (λ idx' s',
    idx' = (idx + 1) mod 8 ∧ tx_slots (et_data s') (fl ++ tx_descs [(q, c)]) ∧
    lpc_last_tx_idx (et_data s') = lpc_last_tx_idx (et_data s) ∧ held_ok (et_bufs s') R (in_flight (fl ++ tx_descs [(q, c)]) ⊎ H) ∧
    et_dev s' = et_dev s ∧ tx_step s s').
Proof.
  intros (_ & Hq & Hb & _) Hlen Hsl Hidx Hh. assert (0 ≤ idx < 8) as Hi by (rewrite Hidx; by apply Z.mod_pos_bound).
  pose proof (tr_txb _ _ Hsl) as L1. pose proof (tr_ptxd _ _ Hsl) as L2. cbn [fill_descs].
  apply runs_bind, el_set_runs; [rewrite L1; lia|]. apply runs_bind. eapply ebufs_keep; [unfold get_pbuf; cbn; by rewrite Hb|].
  apply runs_bind, el_set_runs; [cbn; rewrite L2; lia|]. cbn [negb]. apply runs_bind, ret_runs, ret_runs.
  split; [by apply next_index_mod|]. split; [exact (tx_slots_fill _ fl idx q _ Hsl ltac:(lia) Hidx Hq)|]. split; [done|]. split; [|by split].
  cbn [tx_descs fst snd]. rewrite in_flight_snoc. by rewrite (assoc_L (⊎)), (comm_L (⊎) (in_flight fl)) in Hh.
Qed.

Lemma fill_any_runs R H copied l q idx s fl :
  chain (pb_store (et_bufs s)) q l → Forall (λ c, p_ref c.2 < 2 ^ 16 - 1) l → (copied = true → length l = 1%nat) → (length fl + length l ≤ 7)%nat →
  tx_slots (et_data s) fl → idx = (lpc_last_tx_idx (et_data s) + Z.of_nat (length fl)) mod 8 →
  held_ok (et_bufs s) R (in_flight fl ⊎ gives copied q H) →
  runs (fill_descs (length l) idx q copied) s (λ idx' s',
    idx' = (idx + Z.of_nat (length l)) mod 8 ∧ tx_slots (et_data s') (fl ++ tx_descs l) ∧
    lpc_last_tx_idx (et_data s') = lpc_last_tx_idx (et_data s) ∧ held_ok (et_bufs s') R (in_flight (fl ++ tx_descs l) ⊎ H) ∧
    et_dev s' = et_dev s ∧ tx_step s s').
Proof.
  intros Hc Hr H1 Hlen Hsl Hidx Hh. destruct copied; [|by apply fill_runs]. destruct l as [|[a c] [|]]; try (by specialize (H1 eq_refl)).
  cbn [length] in *. pose proof Hc as (-> & _). by apply fill_copy_runs; [|lia|..].
Qed.

Lemma send_runs R H copied fuel p l s fl :
  tx_ok R (gives copied p H) s fl → p ∈ gives copied p H → chain (pb_store (et_bufs s)) p l → Forall (λ c, p_ref c.2 < 2 ^ 16 - 1) l →
  (copied = true → length l = 1%nat) → Z.of_nat (length l) + (tx_p (ixs s) - tx_c (ixs s)) mod 8 ≤ 7 → (0 < fuel)%nat →
  runs (send_descs fuel p (Z.of_nat (length l)) copied) s (λ r s', r = ERR_OK ∧ (∃ k, tx_ok R H s' (drop k fl ++ tx_descs l)) ∧
    tx_step s s' ∧ tx_p (ixs s') = (tx_p (ixs s) + Z.of_nat (length l)) mod 8 ∧ rx_c (ixs s') = rx_c (ixs s)).
Proof.
  intros Hok Hin Hc Hr H1 Hroom Hf. destruct fuel as [|fuel]; [lia|]. unfold send_descs. cbn [poll]. pose proof (ix_range (et_dev s)) as Hi.
  apply runs_bind, runs_bind, runs_bind. eapply runs_mono; [|apply (ready_runs _ _ _ _ Hok)].
  intros n s1 ([k Hok1] & Hse & Hst & (c & Hc8 & Hle & El & ->)). apply ret_runs.
  rewrite (proj2 (Z.leb_le _ _)) by (apply free_descs_enough; [apply Hi|done|lia|lia]). apply ret_runs.
  apply runs_bind, er_read_runs. intros idx d Hse1 Hv. cbn in Hv. subst idx. apply runs_bind.
  pose proof (tx_ok_settles _ _ _ _ _ Hok1 Hse1) as Hok2. set (s2 := with_dev d s1) in *.
  destruct (survives_kept _ _ _ (ho_refs _ _ _ (proj2 Hok1)) (ts_store _ _ Hst) p l) as (l' & Hc' & Eb); [held_in|done|].
  assert (Forall (λ c, p_ref c.2 < 2 ^ 16 - 1) l') as Hr'.
  { eapply refs_le; [apply (ts_store _ _ Hst)|apply (ho_refs _ _ _ (proj2 Hok))|apply (ho_refs _ _ _ (proj2 Hok1))|apply in_flight_drop|exact Hc|exact Hc'|done|done]. }
  assert (length l' = length l) as Ell by (apply (f_equal length) in Eb; unfold bares in Eb; by rewrite !length_map in Eb).
  rewrite <-(bares_descs _ _ Eb), Nat2Z.id, <-Ell in *. destruct Hok2 as [Hr2 Hh2]. pose proof (tr_count _ _ _ (proj1 Hok1)) as Hct.
  rewrite (se_tx_p _ _ Hse), El in Hct. pose proof (tr_last _ _ (tr_ok _ _ _ Hr2)) as Hl8. set (fl' := drop k fl) in *.
  eapply runs_mono; [|apply (fill_any_runs R H copied l' p (tx_p (ixs s1)) s2 fl' Hc' Hr' H1); [lia|apply (tr_ok _ _ _ Hr2)| |done]].
  2:{ cbn. rewrite El, Hct, (se_tx_p _ _ Hse). destruct Hi. unfold ixs in *. rewrite Zplus_mod_idemp_r. replace (c + _) with (tx_p (ix (et_dev s))) by lia. by rewrite Z.mod_small. }
  intros idx' s3 (Ei & Hs3 & El3 & Hh3 & Ed & Hst3). apply runs_bind. unfold er_write, modify, runs at 1. apply ret_runs.
  assert (0 ≤ idx' < 8) as Hi8 by (rewrite Ei; by apply Z.mod_pos_bound). set (s4 := Eth _ _ _).
  assert (u32 idx' = idx') as Eu by (unfold u32; apply Z.mod_small; lia). pose proof (emac_tx_law idx' (et_dev s3) Hi8) as Ex.
  assert (ixs s4 = Ix idx' (tx_c (ix d)) (rx_p (ix d)) (rx_c (ix d)) (ints (ix d))) as E4 by (unfold s4, ixs; cbn; by rewrite Eu, Ex, Ed).
  split; [done|]. split; [exists k; fold fl'; split; [|done]|split; [etrans; [exact Hst|]; etrans; [apply (tx_step_dev d)|]; etrans; [exact Hst3|apply tx_step_dev]|rewrite E4; cbn; by rewrite Ei, (se_tx_p _ _ Hse), (se_rx_c _ _ Hse1), (se_rx_c _ _ Hse)]].
  rewrite E4. apply (hand_over (et_data s2) (ix d)); [done|done|done|rewrite length_app, length_tx_descs; lia|].
  by rewrite length_tx_descs, Ei, (se_tx_p _ _ Hse1).
Qed.

(** What becomes of a frame. *)
Definition queued R H s (l : list cell) fl s' : Prop :=
  ∃ k ds, tx_ok R H s' (drop k fl ++ ds) ∧ frame (pb_data (et_bufs s')) ds.*2 = contents (pb_data (et_bufs s)) l ∧
    delimited ds.*2 ∧ tx_p (ixs s') = (tx_p (ixs s) + Z.of_nat (length ds)) mod 8.
Record sent_or_not R H s (l : list cell) fl (r : Z) s' : Prop := {
  so_result : (r = ERR_OK ∧ queued R H s l fl s') ∨ (r = ERR_MEM ∧ ¬ reachable l ∧ tx_ok R H s' fl);
  so_rx : same_rx (et_data s) (et_data s');
  so_consume : rx_c (ixs s') = rx_c (ixs s);
  so_packets : kept_packets H (pb_store (et_bufs s)) (pb_store (et_bufs s'));
  so_sole : ∀ q b, q ∈ H → pb_store (et_bufs s) !! q = Some b → p_ref b = 1 → q ∉ l.*1 → pb_store (et_bufs s') !! q = Some b;
  so_octets : kept_octets (in_flight fl ⊎ H) (et_bufs s) (et_bufs s') }.

(** A frame of moderate size. *)
Definition moderate (l : list cell) : Prop := nonempty l ∧ total_len l ≤ 0x800.
Lemma moderate_fits l : moderate l → fits_descs l.
Proof.
  intros [Hn Ht]. revert Ht. induction Hn as [|c l Hc Hn IH]; intros Ht; [constructor|]. cbn [total_len] in Ht.
  assert (0 ≤ total_len l) by (clear -Hn; induction Hn; cbn [total_len]; lia). constructor; [lia|apply IH; lia].
Qed.

Lemma direct_runs R H fuel p l s fl :
  tx_ok R H s fl → p ∈ H → chain (pb_store (et_bufs s)) p l → l ≠ [] → Forall (λ c, p_ref c.2 < 2 ^ 16 - 1) l → moderate l →
  Z.of_nat (length l) + (tx_p (ixs s) - tx_c (ixs s)) mod 8 ≤ 7 → (0 < fuel)%nat →
  runs (send_descs fuel p (Z.of_nat (length l)) false) s (sent_or_not R H s l fl).
Proof.
  intros Hok Hin Hc Hne Hr Hm Hroom Hf. eapply runs_mono; [|by apply (send_runs R H false fuel p l s fl)].
  intros r s' (-> & [k Hok'] & Hst & Hp & Hrc). pose proof (moderate_fits _ Hm) as Hfit. split.
  - left. split; [done|]. exists k, (tx_descs l). split; [done|]. rewrite (ts_mem _ _ Hst), length_tx_descs.
    split; [by apply frame_contents|]. split; [by apply tx_descs_delimited|done].
  - apply (ts_rx _ _ Hst).
  - done.
  - eapply kept_subset, survives_kept; [|apply (ho_refs _ _ _ (proj2 Hok'))|apply (ts_store _ _ Hst)]. held_in.
  - intros q b Hq Hb Hr1 Hout. eapply (sole_kept _ _ _ _ q b (ts_store _ _ Hst) (ho_refs _ _ _ (proj2 Hok)) (ho_refs _ _ _ (proj2 Hok'))); [held_in| |done|done].
    pose proof (in_flight_drop k fl H q). rewrite in_flight_app, !multiplicity_disj_union in *. rewrite (in_flight_out q l Hout). lia.
  - apply kept_octets_same, (ts_mem _ _ Hst).
Qed.

Lemma copied_runs R H fuel p l s fl :
  tx_ok R H s fl → p ∈ H → packet (pb_store (et_bufs s)) p l → moderate l → own_octets l → ¬ reachable l →
  1 + (tx_p (ixs s) - tx_c (ixs s)) mod 8 ≤ 7 → (0 < fuel)%nat →
  runs (np ← bounce p; if np =? 0 then mret ERR_MEM else send_descs fuel np 1 true) s (sent_or_not R H s l fl).
Proof.
  intros [Hr Hh] Hin Hpk Hm Ho Hun Hroom Hf. apply runs_bind.
  eapply runs_mono; [|apply (bounce_runs R (in_flight fl ⊎ H) p l s Hh ltac:(held_in) Hpk Ho)]; [|destruct Hm; lia].
  intros np s1 (b & -> & Hh1 & Hsame & Hk1 & Ho1 & Hnp). destruct (Z.eqb_spec np 0) as [->|Hne].
  { apply ret_runs. split; [right; by split|by split|done|eapply kept_subset, Hk1; held_in|intros q c _ Hq _ _; by apply Hsame|done]. }
  destruct (Hnp Hne) as (c & Hc & Hrc & Hlen & Ec). set (s1 := with_ebufs b s). assert (p_len c = total_len l) as Elc by done.
  assert (moderate [(np, c)]) as Hmc.
  { destruct Hm as [Hn Ht]. split; [constructor; [cbn [snd]|constructor]|cbn [total_len snd]; lia]. rewrite Hlen. destruct Hn as [|x l' Hx Hn]; [by destruct (pk_ne _ _ _ Hpk)|].
    pose proof (lens_nonneg _ (lens_ok_app_r [x] l' (pk_lens _ _ _ Hpk))). cbn [total_len]. lia. }
  rewrite hold_ne, (assoc_L (⊎)), (comm_L (⊎) {[+ np +]}), <-(assoc_L (⊎)) in Hh1 by done.
  eapply runs_mono; [|apply (send_runs R H true fuel np [(np, c)] s1 fl); try done].
  - intros r s' (-> & [k Hok'] & Hst & Hp & Hrx). split.
    + left. split; [done|]. exists k, (tx_descs [(np, c)]). split; [done|]. rewrite (ts_mem _ _ Hst). cbn [et_bufs with_ebufs s1].
      split; [rewrite <-Ec; by apply frame_contents, moderate_fits|]. split; [by apply tx_descs_delimited; [apply moderate_fits|]|done].
    + apply (ts_rx _ _ Hst).
    + done.
    + etrans; [eapply kept_subset, Hk1; held_in|]. eapply kept_subset, survives_kept; [|apply (ho_refs _ _ _ (proj2 Hok'))|apply (ts_store _ _ Hst)]. held_in.
    + intros q e Hq Hb Hr1 _. destruct (Hsame q e Hb) as [Hb1 Hqn]. eapply (sole_kept _ _ _ _ q e (ts_store _ _ Hst) (ho_refs _ _ _ Hh1) (ho_refs _ _ _ (proj2 Hok'))); [held_in| |done|done].
      pose proof (in_flight_drop k fl H q). rewrite in_flight_app, !multiplicity_disj_union in *.
      rewrite (in_flight_out q [(np, c)]) by (cbn; by rewrite list_elem_of_singleton). lia.
    + intros h j Hh' Hj Hoj. rewrite (ts_mem _ _ Hst). by apply (Ho1 h).
  - unfold gives. held_in.
  - constructor; [cbn; lia|constructor].
Qed.

Lemma frame_output_runs R H fuel p l s fl :
  tx_ok R H s fl → Z.land (ints (ixs s)) EMAC_INT_TX_UNDERRUN = 0 →
  p ∈ H → packet (pb_store (et_bufs s)) p l → Forall (λ c, p_ref c.2 < 2 ^ 16 - 1) l → moderate l → reachable l ∨ own_octets l →
  Z.of_nat (length l) + (tx_p (ixs s) - tx_c (ixs s)) mod 8 ≤ 7 → (0 < fuel)%nat →
  runs (lpc_low_level_output fuel p) s (sent_or_not R H s l fl).
Proof.
  intros Hok Hint Hin Hpk Hr Hm Hro Hroom Hf. pose proof (pk_chain _ _ _ Hpk) as Hc. pose proof (pk_ne _ _ _ Hpk) as Hne.
  unfold lpc_low_level_output. apply runs_bind, er_read_runs. intros i d Hse Hv. cbn in Hv. subst i. rewrite Hint. cbn [negb Z.eqb].
  apply runs_bind, ret_runs, runs_bind, activity_runs. intros d2 Hse2. change (ixs (with_dev d s)) with (ix d) in Hse2.
  pose proof (settles_trans _ _ _ Hse Hse2) as Hse3. change (with_dev d2 (with_dev d s)) with (with_dev d2 s).
  pose proof (tx_ok_settles _ _ _ _ _ Hok Hse3) as Hok3. set (s2 := with_dev d2 s) in *.
  assert ((tx_p (ixs s2) - tx_c (ixs s2)) mod 8 ≤ (tx_p (ixs s) - tx_c (ixs s)) mod 8) as Hle.
  { change (ixs s2) with (ix d2). rewrite (se_tx_p _ _ Hse3). destruct (se_tx_c _ _ Hse3) as (j & Hj & ->). rewrite Zminus_mod_idemp_r. pose proof (ix_range (et_dev s)). unfold ixs in *. modular. }
  assert (∀ r s', sent_or_not R H s2 l fl r s' → sent_or_not R H s l fl r s') as Hmono.
  { intros r s' [Hres H1 Hcc H2 H3 H4]. split; try done; [|rewrite Hcc; apply (se_rx_c _ _ Hse3)]. destruct Hres as [[? (k & ds & ? & ? & ? & Hp)]|?]; [left|by right].
    split; [done|]. exists k, ds. do 3 (split; [done|]). rewrite Hp. change (ixs s2) with (ix d2). by rewrite (se_tx_p _ _ Hse3). }
  apply runs_bind. eapply ebufs_keep; [by apply pbuf_clen_ok|]. apply runs_bind. unfold gets, runs at 1. apply runs_bind.
  pose proof (Z.mod_pos_bound (tx_p (ixs s) - tx_c (ixs s)) 8 ltac:(lia)) as Hmp. pose proof (chain_size _ _ _ Hc) as Hsz.
  eapply count_runs; [exact Hc|unfold pbuf_fuel; cbn; lia|lia|lia|]. intros m Hm0 Hiff.
  rewrite u8_small by (unfold is_u8; lia). destruct (Z.eqb_spec m 0) as [->|Hm1]; cbn [negb].
  - eapply runs_mono; [exact Hmono|]. apply direct_runs; try done. lia.
  - assert (¬ reachable l) as Hun by tauto. destruct Hro as [|Ho]; [done|]. eapply runs_mono; [exact Hmono|]. apply (copied_runs R H fuel p l s2 fl); try done.
    destruct l; [done|]. cbn [length] in Hroom. lia.
Qed.
End Send.
