(* ===== verification/EmacReceive.v ===== *)
(** * Reception by the Ethernet driver

    The receive ring: slots without a buffer, then the buffers that wait for a
    frame in the order in which the controller fills them. *)

From S2P Require Import Prelude LwipBase IpAddr Heap Memp Pbuf PbufChain PbufLinks PbufData PbufMake PbufAlloc PbufRefs Netif EthArp EthArpTable Emac EmacSend.
From Stdlib Require Import ZArith Lia.
From stdpp Require Import base numbers gmultiset list gmap.
Open Scope Z_scope.

(** The state after a computation that returns. *)
Definition final {St X} (m : M St X) (s : St) : St := match m s with Ok (_, s') => s' | _ => s end.
Lemma runs_final {St X} (m : M St X) s Q : runs m s Q → ∃ x, Q x (final m s).
Proof. unfold runs, final. destruct (m s) as [[x s']| |]; [by exists x|done|done]. Qed.

(** A buffer that waits, and the descriptor that points to it. *)
Definition rx_cell (st : store) (x : Z * LPC_TXRX_DESC_T) : Prop :=
  ∃ b, st !! x.1 = Some b ∧ p_ref b = 1 ∧ p_next b = 0 ∧ p_type b = PBUF_RAM ∧ p_len b = EMAC_ETH_MAX_FLEN ∧ p_tot_len b = EMAC_ETH_MAX_FLEN ∧
    x.2 = Desc (p_payload b) (Z.lor EMAC_RCTRL_INT (EMAC_ETH_MAX_FLEN - 1)).

(** The controller truncates frames ([MAXF]). *)
Definition st_ok (st : LPC_TXRX_STATUS_T) : Prop :=
  Z.land (statusinfo st) RINFO_ERRORS = 0 → Z.land (statusinfo st) 0x7FF + 1 ≤ EMAC_ETH_MAX_FLEN.

(** [n] slots are free, from the one the driver looks at on; [rs] wait. *)
Record rx_ring (e : enetdata) (i : indexes) (n : nat) (rs : list (Z * LPC_TXRX_DESC_T)) : Prop := {
  rr_rxb : length (rxb e) = 8%nat;
  rr_prxd : length (prxd e) = 8%nat;
  rr_prxs : length (prxs e) = 8%nat;
  rr_fill : 0 ≤ rx_fill_desc_index e < 8;
  rr_slots : rot (rx_fill_desc_index e) (rxb e) = replicate n 0 ++ rs.*1;
  rr_descs : drop n (rot (rx_fill_desc_index e) (prxd e)) = rs.*2;
  rr_free : rx_free_descs e = Z.of_nat n;
  rr_used : Forall (λ x, x.1 ≠ 0) rs;
  rr_status : Forall st_ok (prxs e);
  rr_consume : rs ≠ [] → rx_c i = rx_fill_desc_index e }.

Lemma rx_ring_count e i n rs : rx_ring e i n rs → (n + length rs = 8)%nat.
Proof.
  intros H. pose proof (length_rot (rx_fill_desc_index e) _ (rr_rxb _ _ _ _ H)) as L. rewrite (rr_slots _ _ _ _ H) in L.
  by rewrite length_app, length_replicate, length_fmap in L.
Qed.
Lemma rx_ring_settles e i i' n rs : rx_ring e i n rs → settles i i' → rx_ring e i' n rs.
Proof. intros [H1 H2 H3 H4 H5 H6 H7 H8 H9 H10] [_ _ _ Ec]. split; try done. by rewrite Ec. Qed.
Lemma rx_ring_same e e' i n rs : same_rx e e' → rx_ring e i n rs → rx_ring e' i n rs.
Proof. intros (E1 & E2 & E3 & E4 & E5) [H1 H2 H3 H4 H5 H6 H7 H8 H9 H10]. split; rewrite ?E1, ?E2, ?E3, ?E4, ?E5; done. Qed.

(** A buffer goes into the first free slot. *)
Definition rx_filled (p : Z) (d : LPC_TXRX_DESC_T) (st : LPC_TXRX_STATUS_T) (e : enetdata) : enetdata :=
  let i := rx_fill_desc_index e in
  Enet (ptxd e) (ptxs e) (<[Z.to_nat i := d]> (prxd e)) (<[Z.to_nat i := st]> (prxs e)) (<[Z.to_nat i := p]> (rxb e))
    (next_index i) (rx_free_descs e - 1) (txb e) (lpc_last_tx_idx e).
Lemma rx_ring_fill e i n rs p d st tp tc rp it :
  rx_ring e i (S n) rs → p ≠ 0 → st_ok st → rx_ring (rx_filled p d st e) (Ix tp tc rp (next_index (rx_fill_desc_index e)) it) n (rs ++ [(p, d)]).
Proof.
  intros Hr Hp Hst. pose proof (rx_ring_count _ _ _ _ Hr) as Hct. destruct Hr as [H1 H2 H3 H4 H5 H6 H7 H8 H9 H10]. set (f := rx_fill_desc_index e) in *.
  split; cbn [rxb prxd prxs rx_fill_desc_index rx_free_descs rx_filled rx_c]; rewrite ?length_insert; try done.
  - unfold next_index. fold f. case_match; lia.
  - fold f. rewrite (rot_next f _ p (replicate n 0 ++ rs.*1)).
    + by rewrite <-app_assoc, fmap_app.
    + by rewrite length_insert.
    + done.
    + rewrite rot_insert by done. by rewrite Z.sub_diag, H5.
  - fold f. pose proof (length_rot f _ H2) as Lr. destruct (rot f (prxd e)) as [|x k] eqn:E; [done|]. cbn in H6, Lr.
    rewrite (rot_next f _ d k).
    + rewrite drop_app_le by lia. by rewrite H6, fmap_app.
    + by rewrite length_insert.
    + done.
    + rewrite rot_insert by done. by rewrite Z.sub_diag, E.
  - lia.
  - apply Forall_app. split; [done|by constructor].
  - by apply Forall_insert.
Qed.
(** The buffer of the slot is taken out of a ring that is full. *)
Definition rx_taken (e : enetdata) : enetdata :=
  with_rx_free (rx_free_descs e + 1) (with_rxb (<[Z.to_nat (rx_fill_desc_index e) := 0]> (rxb e)) e).
Lemma rx_ring_take e i q d rs :
  rx_ring e i 0 ((q, d) :: rs) → rx_c i = rx_fill_desc_index e ∧ rxb e !! Z.to_nat (rx_c i) = Some q ∧ prxd e !! Z.to_nat (rx_c i) = Some d ∧ rx_ring (rx_taken e) i 1 rs.
Proof.
  intros [H1 H2 H3 H4 H5 H6 H7 H8 H9 H10]. set (f := rx_fill_desc_index e) in *. specialize (H10 ltac:(done)). rewrite H10. split; [done|]. apply Forall_cons in H8 as [_ H8].
  rewrite drop_0 in H6. split; [|split].
  - rewrite (rot_lookup f f) by done. by rewrite Z.sub_diag, H5.
  - rewrite (rot_lookup f f) by done. by rewrite Z.sub_diag, H6.
  - split; cbn [rxb prxd prxs rx_fill_desc_index rx_free_descs rx_taken with_rx_free with_rxb]; rewrite ?length_insert; try done.
    + fold f. rewrite rot_insert by done. by rewrite Z.sub_diag, H5.
    + fold f. by rewrite H6.
    + lia.
Qed.

(** ** Both rings *)

Definition same_tx (e e' : enetdata) : Prop :=
  ptxd e' = ptxd e ∧ txb e' = txb e ∧ lpc_last_tx_idx e' = lpc_last_tx_idx e.
Lemma tx_ring_same e e' i i' fl : same_tx e e' → tx_p i' = tx_p i → tx_c i' = tx_c i → tx_ring e i fl → tx_ring e' i' fl.
Proof.
  intros (E1 & E2 & E3) Ep Ec [[H1 H2 H3 H4 H5 H6] H7 H8]. split; [split|..]; rewrite ?Ep, ?Ec, ?E1, ?E2, ?E3; done.
Qed.

Section Receive.
Context {A D : Type} {BA : BufAlloc A} {LA : BufAllocLaws A} {EM : Emac D} {EL : EmacLaws D} {LY : EnetLayout}.
Implicit Types (s : eth A D).

(** The transmit ring holds [fl], the receive ring [rs] and [n] free slots, and
    the rest of the program [H]. *)
Record driver_ok R (H : gmultiset Z) s fl n rs : Prop := {
  dv_tx : tx_ring (et_data s) (ixs s) fl;
  dv_rx : rx_ring (et_data s) (ixs s) n rs;
  dv_cells : Forall (rx_cell (pb_store (et_bufs s))) rs;
  dv_held : held_ok (et_bufs s) R (in_flight fl ⊎ (in_flight rs ⊎ H)) }.

Lemma driver_tx R H s fl n rs : driver_ok R H s fl n rs → tx_ok R (in_flight rs ⊎ H) s fl.
Proof. by intros []. Qed.
Lemma driver_settles R H s fl n rs d : driver_ok R H s fl n rs → settles (ixs s) (ix d) → driver_ok R H (with_dev d s) fl n rs.
Proof.
  intros [H1 H2 H3 H4] Hse. split; [by eapply tx_ring_settles; [apply ix_range|..]|by eapply rx_ring_settles|done|done].
Qed.

(** What is held elsewhere is left as it is. *)
Record untouched (H : gmultiset Z) s s' : Prop := {
  un_packets : kept_packets H (pb_store (et_bufs s)) (pb_store (et_bufs s'));
  un_octets : kept_octets H (et_bufs s) (et_bufs s') }.
#[export] Instance untouched_refl H : Reflexive (untouched H).
Proof. intros s. by split; [|apply kept_octets_same]. Qed.
#[export] Instance untouched_trans H : Transitive (untouched H).
Proof. intros x y z [P1 O1] [P2 O2]. split; [by etrans|by eapply kept_octets_trans]. Qed.
Lemma untouched_dev H d s : untouched H s (with_dev d s).
Proof. by split; [|apply kept_octets_same]. Qed.

(** Buffers with one reference, held by the ring, stay. *)
Lemma rx_cells_keep (st st' : store) rs :
  (∀ q b, q ∈ rs.*1 → st !! q = Some b → p_ref b = 1 → st' !! q = Some b) → Forall (rx_cell st) rs → Forall (rx_cell st') rs.
Proof.
  intros Hk Hc. apply Forall_forall. intros x Hx. destruct (proj1 (Forall_forall _ _) Hc x Hx) as (b & Hb & Hr & Hrest). exists b.
  split; [|by split]. apply Hk; [|done|done]. apply list_elem_of_fmap. by exists x.
Qed.
Lemma in_flight_elem (rs : list (Z * LPC_TXRX_DESC_T)) q : q ∈ rs.*1 → q ∈ in_flight rs.
Proof. unfold in_flight. by rewrite elem_of_list_to_set_disj. Qed.

(** ** Buffers for the controller *)

Lemma rxqueue_runs p b s (Q : unit → eth A D → Prop) n rs :
  rx_ring (et_data s) (ixs s) (S n) rs → pb_store (et_bufs s) !! p = Some b → p_len b = EMAC_ETH_MAX_FLEN →
  (∀ d, ix d = Ix (tx_p (ixs s)) (tx_c (ixs s)) (rx_p (ixs s)) (next_index (rx_fill_desc_index (et_data s))) (ints (ixs s)) →
     Q tt (Eth (et_bufs s) (rx_filled p (Desc (p_payload b) (Z.lor EMAC_RCTRL_INT (EMAC_ETH_MAX_FLEN - 1))) (Status 0xFFFFFFFF 0xFFFFFFFF) (et_data s)) d)) →
  runs (lpc_rxqueue_pbuf p) s Q.
Proof.
  intros Hr Hb Hl HQ. pose proof (rx_ring_count _ _ _ _ Hr) as Hct. destruct Hr as [H1 H2 H3 H4 H5 H6 H7 H8 H9 H10]. unfold lpc_rxqueue_pbuf.
  apply runs_bind, ed_get_runs, runs_bind. eapply ebufs_keep; [unfold get_pbuf; by rewrite Hb|]. rewrite Hl. change (u32 (EMAC_ETH_MAX_FLEN - 1)) with (EMAC_ETH_MAX_FLEN - 1).
  apply runs_bind, el_set_runs; [rewrite H2; lia|]. apply runs_bind, el_set_runs; [cbn; rewrite H3; lia|]. apply runs_bind, el_set_runs; [cbn; rewrite H1; lia|].
  apply runs_bind, ed_get_runs, runs_bind, ed_set_runs, runs_bind, ed_set_runs. unfold er_write, modify, runs. cbn [et_data with_data with_rxb with_prxs with_prxd rx_free_descs].
  assert (0 ≤ next_index (rx_fill_desc_index (et_data s)) < 8) as Hn by (unfold next_index; case_match; lia).
  replace (u32 (next_index _)) with (next_index (rx_fill_desc_index (et_data s))) by (unfold u32; rewrite Z.mod_small; lia).
  replace (u32 (rx_free_descs (et_data s) - 1)) with (rx_free_descs (et_data s) - 1) by (unfold u32; rewrite Z.mod_small; lia).
  apply HQ. by apply emac_rx_law.
Qed.

Lemma rx_queue_runs R H s fl n rs :
  driver_ok R H s fl n rs →
  runs lpc_rx_queue s (λ r s', untouched H s s' ∧
    match n with
    | O => r = 0 ∧ s' = s
    | S m => (r = -1 ∧ driver_ok R H s' fl n rs) ∨ (r = 1 ∧ ∃ x, driver_ok R H s' fl m (rs ++ [x]))
    end).
Proof.
  intros [Htx Hrx Hce Hh]. unfold lpc_rx_queue. apply runs_bind, ed_get_runs. rewrite (rr_free _ _ _ _ Hrx).
  destruct n as [|n]; [by apply ret_runs|]. rewrite (proj2 (Z.eqb_neq (Z.of_nat (S n)) 0)) by lia.
  assert (is_u16 EMAC_ETH_MAX_FLEN) as Hu by done.
  assert (PBUF_RAM = PBUF_RAM → LWIP_MEM_ALIGN_SIZE (SIZEOF_STRUCT_PBUF + header_offset PBUF_RAW) + LWIP_MEM_ALIGN_SIZE EMAC_ETH_MAX_FLEN ≤ 65532) as Hf
    by (intros _; vm_compute; discriminate).
  destruct (pbuf_alloc_held _ _ _ PBUF_RAW EMAC_ETH_MAX_FLEN PBUF_RAM Hh Hu Hf) as (p & b1 & E & Hh1 & Ed & Hk & Hnew).
  pose proof (alloc_keeps _ _ _ _ _ _ _ _ Hh E Hu Hf) as Hsame.
  assert (Forall (rx_cell (pb_store b1)) rs) as Hce1 by (eapply rx_cells_keep, Hce; intros q b _ Hq _; by apply Hsame).
  assert (untouched H s (with_ebufs b1 s)) as Hun by (split; [eapply kept_subset, Hk; held_in|by apply kept_octets_same]).
  apply runs_bind. eapply ebufs_runs; [exact E|]. destruct (Z.eqb_spec p 0) as [->|Hp].
  { apply ret_runs. split; [done|]. left. by split. }
  destruct (Hnew Hp) as (L & L' & c & l1 & _ & _ & Hpk & Ht & Hnc & Hone & _). rewrite Hone in * by done. apply Forall_singleton in Hnc as (Hr1 & _ & Hty).
  pose proof (pk_chain _ _ _ Hpk) as (_ & _ & Hc & Hnx). destruct (pk_lens _ _ _ Hpk) as (_ & Htl & _). cbn [snd total_len chain] in *.
  assert (p_len c = EMAC_ETH_MAX_FLEN) as Hlc by lia.
  apply runs_bind. eapply ebufs_keep; [apply (pbuf_clen_ok _ _ [(p, c)]), (pk_chain _ _ _ Hpk)|]. change (u8 _ <=? 1) with true.
  apply runs_bind, ret_runs, runs_bind. apply (rxqueue_runs p c (with_ebufs b1 s) _ n rs Hrx Hc Hlc). intros d Ex. apply ret_runs.
  split; [by split; [apply (un_packets _ _ _ Hun)|apply kept_octets_same]|]. right. split; [done|]. eexists. split; cbn [et_data et_bufs].
  - eapply tx_ring_same; [..|exact Htx]; [done|unfold ixs; cbn; by rewrite Ex..].
  - unfold ixs. cbn [et_dev]. rewrite Ex. apply (rx_ring_fill (et_data s) (ixs s)); [done|done|by intros [=]].
  - apply Forall_app. split; [done|]. constructor; [|constructor]. exists c. cbn [fst snd]. do 5 (split; [done|]). split; [lia|done].
  - rewrite hold_ne in Hh1 by done. cbn [et_bufs with_ebufs]. rewrite in_flight_snoc.
    rewrite (comm_L (⊎) (in_flight fl)), <-(assoc_L (⊎)), <-(assoc_L (⊎)). rewrite (comm_L (⊎) (in_flight fl)), <-(assoc_L (⊎)) in Hh1. done.
Qed.

Lemma requeue_runs R H s fl n rs fuel :
  driver_ok R H s fl n rs → (n < fuel)%nat →
  runs (requeue fuel) s (λ r s', untouched H s s' ∧
    ((r = 0 ∧ ∃ rs', driver_ok R H s' fl 0 rs') ∨ (r = -1 ∧ ∃ n' rs', driver_ok R H s' fl (S n') rs'))).
Proof.
  revert s n rs. induction fuel as [|fuel IH]; intros s n rs Hok Hf; [lia|]. cbn [requeue].
  apply runs_bind. eapply runs_mono; [|apply (rx_queue_runs _ _ _ _ _ _ Hok)]. intros r s1 [Hun Hr]. destruct n as [|n].
  { destruct Hr as [-> ->]. apply ret_runs. split; [done|]. left. split; [done|]. by exists rs. }
  destruct Hr as [[-> Hok1]|[-> [x Hok1]]].
  - apply ret_runs. split; [done|]. right. split; [done|]. by exists n, rs.
  - eapply runs_mono; [|apply (IH s1 n _ Hok1); lia]. intros r s2 [Hun2 Hr]. split; [by etrans|done].
Qed.

(** ** Frames *)

Lemma resize_held (b : pbufs_state A) R K q c n :
  held_ok b R ({[+ q +]} ⊎ K) → pb_store b !! q = Some c → p_ref c = 1 → p_type c = PBUF_RAM → 0 ≤ n ≤ p_len c →
  let st' := <[q := with_tot_len n (with_len n c)]> (pb_store b) in
  held_ok (Pbufs st' (pb_data b) (pb_alloc b)) R ({[+ q +]} ⊎ K) ∧ kept_packets K (pb_store b) st'.
Proof.
  intros [(L & Hok & HR) Hct] Hc Hr Hty Hn. pose proof (pb_bufs _ _ Hok _ _ Hc) as (Hl & Ht & Hu & Hp). rewrite Hty in Hp.
  destruct Hp as (sz & HL & H1 & H2). unfold is_u16 in *. split.
  - split; [exists L; split|by apply counted_fields with c].
    + apply pbufs_ok_insert with c; [done..|]. unfold buf_ok, is_u16. cbn. rewrite Hty. repeat split; try lia. exists sz. cbn. split; [done|]. lia.
    + by apply beside_insert with c.
  - intros h k Hin Hk. exists k. split; [|done]. assert (h ≠ q) as Hhq by (intros ->; by apply (sole_held (pb_store b) {[+ q +]} K q c); [|held_in|..]).
    apply chain_insert; [|done]. eapply (sole_chain _ _ q c h); [exact Hct|held_in|done..].
Qed.

(** What [lpc_low_level_input] returns when every slot has a buffer. *)
Inductive received R H s fl (rs : list (Z * LPC_TXRX_DESC_T)) (st : LPC_TXRX_STATUS_T) : Z → eth A D → Prop :=
  | received_overrun n rs' s' :
      Z.land (ints (ixs s)) EMAC_INT_RX_OVERRUN ≠ 0 → driver_ok R H s' fl n rs' → received R H s fl rs st 0 s'
  | received_nothing s' :
      rx_p (ixs s) = rx_c (ixs s) → driver_ok R H s' fl 0 rs → received R H s fl rs st 0 s'
  | received_damaged x rs' s' :
      rs = x :: rs' → Z.land (statusinfo st) RINFO_ERRORS ≠ 0 → driver_ok R H s' fl 1 rs' → received R H s fl rs st 0 s'
  | received_frame q d rs' b s' :
      let n := Z.land (statusinfo st) 0x7FF + 1 in
      rs = (q, d) :: rs' → Z.land (statusinfo st) RINFO_ERRORS = 0 → driver_ok R ({[+ q +]} ⊎ H) s' fl 1 rs' →
      packet (pb_store (et_bufs s')) q [(q, b)] → p_tot_len b = n → p_ref b = 1 → owns b →
      contents (pb_data (et_bufs s')) [(q, b)] = mem_read (pb_data (et_bufs s)) (d_packet d) (Z.to_nat n) → received R H s fl rs st q s'.

Lemma first_out (q : Z) (X Y H : gmultiset Z) : X ⊎ (({[+ q +]} ⊎ Y) ⊎ H) = {[+ q +]} ⊎ (X ⊎ (Y ⊎ H)).
Proof. mset. Qed.
Lemma first_over (q : Z) (X Y H : gmultiset Z) : X ⊎ (Y ⊎ ({[+ q +]} ⊎ H)) = {[+ q +]} ⊎ (X ⊎ (Y ⊎ H)).
Proof. mset. Qed.

(** A frame that came stays. *)
Lemma came_stays i i' : in_range i → settles i i' → rx_p i ≠ rx_c i → rx_p i' ≠ rx_c i'.
Proof. intros Hi [_ _ (k & Hk & ->) ->] Hne. modular. Qed.

Lemma damaged_runs R H s fl q d rs (Q : unit → eth A D → Prop) :
  driver_ok R H s fl 0 ((q, d) :: rs) →
  (∀ s', driver_ok R H s' fl 1 rs → untouched H s s' → Q tt s') →
  runs (ebufs (pbuf_free q);; el_set rxb with_rxb (rx_c (ixs s)) 0;; n ← ed_get rx_free_descs; ed_set (with_rx_free (u32 (n + 1)))) s Q.
Proof.
  intros [Htx Hrx Hce Hh] HQ. destruct (rx_ring_take _ _ _ _ _ Hrx) as (Ec & Hq & Hd & Hrx'). apply Forall_cons in Hce as [_ Hce].
  rewrite in_flight_cons, first_out in Hh. destruct (pbuf_free_held _ _ _ _ Hh) as (m & b & E & Hh' & Em & Hsv & Hk).
  apply runs_bind. eapply ebufs_runs; [exact E|]. pose proof (rr_fill _ _ _ _ Hrx). pose proof (rr_free _ _ _ _ Hrx) as Ef.
  apply runs_bind, el_set_runs; [cbn; rewrite Ec, (rr_rxb _ _ _ _ Hrx); lia|]. apply runs_bind, ed_get_runs, ed_set_runs. apply HQ.
  - rewrite Ec. cbn [et_data with_data with_ebufs rx_free_descs with_rxb]. replace (u32 (rx_free_descs (et_data s) + 1)) with (rx_free_descs (et_data s) + 1) by by rewrite Ef.
    split; [by eapply tx_ring_same; [..|exact Htx]|exact Hrx'| |done]. cbn [et_bufs with_data with_ebufs]. eapply rx_cells_keep, Hce.
    intros x c Hx Hc Hr. eapply (sole_kept _ _ _ _ x c Hsv (ho_refs _ _ _ Hh) (ho_refs _ _ _ Hh')); [apply in_flight_elem in Hx; held_in| |done|done].
    rewrite (multiplicity_disj_union {[+ q +]}). lia.
  - split; [eapply kept_subset, Hk; held_in|]. by apply kept_octets_same.
Qed.

Lemma frame_runs R H s fl q d rs n (Q : Z → eth A D → Prop) :
  driver_ok R H s fl 0 ((q, d) :: rs) → 1 ≤ n ≤ EMAC_ETH_MAX_FLEN →
  (∀ s' b, driver_ok R ({[+ q +]} ⊎ H) s' fl 1 rs → untouched H s s' → packet (pb_store (et_bufs s')) q [(q, b)] → p_tot_len b = n → p_ref b = 1 → owns b →
     contents (pb_data (et_bufs s')) [(q, b)] = mem_read (pb_data (et_bufs s)) (d_packet d) (Z.to_nat n) → Q q s') →
  runs (ebufs (set_pbuf q (with_len (u16 n)));; el_set rxb with_rxb (rx_c (ixs s)) 0;; m ← ed_get rx_free_descs; ed_set (with_rx_free (u32 (m + 1)));;
        ebufs (set_pbuf q (with_tot_len (u16 n)));; mret q) s Q.
Proof.
  intros [Htx Hrx Hce Hh] Hn HQ. destruct (rx_ring_take _ _ _ _ _ Hrx) as (Ec & Hq & Hd & Hrx'). apply Forall_cons in Hce as [Hcq Hce].
  destruct Hcq as (b & Hb & Hr & Hnx & Hty & Hlen & Htl & Ed). cbn [fst snd] in Hb, Ed. change EMAC_ETH_MAX_FLEN with 1536 in *.
  pose proof (rr_used _ _ _ _ Hrx) as [Hq0 _]%Forall_cons. cbn [fst] in Hq0. rewrite (u16_small n) by (unfold is_u16; lia).
  rewrite in_flight_cons, first_out in Hh. destruct (resize_held _ _ _ _ _ n Hh Hb Hr Hty ltac:(lia)) as [Hh' Hk].
  pose proof (rr_fill _ _ _ _ Hrx). pose proof (rr_free _ _ _ _ Hrx) as Ef.
  apply runs_bind. eapply ebufs_runs; [unfold set_pbuf; rewrite (get_pbuf_step _ _ _ _ Hb); done|].
  apply runs_bind, el_set_runs; [cbn; rewrite Ec, (rr_rxb _ _ _ _ Hrx); lia|]. apply runs_bind, ed_get_runs, runs_bind, ed_set_runs.
  apply runs_bind. eapply ebufs_runs; [unfold set_pbuf, get_pbuf, put_pbuf; rewrite bind_unfold; cbn; rewrite lookup_insert_eq; done|].
  apply ret_runs. cbn [pb_store pb_data pb_alloc]. rewrite insert_insert_eq.
  apply (HQ _ (with_tot_len n (with_len n b))); cbn [et_bufs et_data with_data with_ebufs pb_store pb_data pb_alloc].
  - rewrite Ec. cbn [rx_free_descs with_rxb]. replace (u32 (rx_free_descs (et_data s) + 1)) with (rx_free_descs (et_data s) + 1) by by rewrite Ef.
    split; cbn [et_bufs et_data with_data with_ebufs pb_store]; [by eapply tx_ring_same; [..|exact Htx]|exact Hrx'| |by rewrite first_over].
    eapply rx_cells_keep, Hce. intros x c Hx Hc _. rewrite lookup_insert_ne; [done|]. intros <-.
    apply (sole_held (pb_store (et_bufs s)) {[+ q +]} (in_flight fl ⊎ (in_flight rs ⊎ H)) q b (ho_refs _ _ _ Hh)); [held_in|done|done|]. apply in_flight_elem in Hx. held_in.
  - split; [eapply kept_subset, Hk; held_in|]. by apply kept_octets_same.
  - split; [|split; [cbn; lia|split; [cbn; lia|done]]|cbn; lia|done]. cbn [chain]. split; [done|]. split; [done|]. split; [apply lookup_insert_eq|done].
  - done.
  - done.
  - by left.
  - cbn [contents]. rewrite app_nil_r. unfold cell_data. by rewrite Ed.
Qed.

(** ** Recovery from an overrun *)

(** The buffers in slots. *)
Definition buffers (l : list Z) : gmultiset Z := list_to_set_disj (filter (λ p, p ≠ 0) l).
Lemma buffers_ring e i n rs : rx_ring e i n rs → buffers (rxb e) = in_flight rs.
Proof.
  intros Hr. unfold buffers, in_flight. assert (rxb e ≡ₚ replicate n 0 ++ rs.*1) as Hp.
  { rewrite <-(rr_slots _ _ _ _ Hr). unfold rot. rewrite <-(take_drop (Z.to_nat (rx_fill_desc_index e)) (rxb e)) at 1. apply Permutation_app_comm. }
  rewrite Hp, filter_app. replace (filter (λ p, p ≠ 0) (replicate n 0)) with (@nil Z) by (clear; induction n; [done|]; cbn; by rewrite decide_False by tauto).
  cbn [app]. f_equal. pose proof (rr_used _ _ _ _ Hr) as Hu. clear -Hu. induction Hu as [|x rs Hx Hu IH]; [done|].
  cbn [fmap list_fmap]. rewrite filter_cons_True by done. by f_equal.
Qed.

Lemma free_ring_runs R K k s :
  (k ≤ 8)%nat → length (rxb (et_data s)) = 8%nat → take (8 - k) (rxb (et_data s)) = replicate (8 - k) 0 →
  held_ok (et_bufs s) R (buffers (drop (8 - k) (rxb (et_data s))) ⊎ K) →
  runs (free_ring rxb with_rxb k (Z.of_nat (8 - k))) s (λ _ s',
    et_data s' = with_rxb (replicate 8 0) (et_data s) ∧ et_dev s' = et_dev s ∧ pb_data (et_bufs s') = pb_data (et_bufs s) ∧
    survives (pb_store (et_bufs s)) (pb_store (et_bufs s')) ∧ held_ok (et_bufs s') R K).
Proof.
  revert s. induction k as [|k IH]; intros s Hk Hl Ht Hh; cbn [free_ring].
  { apply ret_runs. change (8 - 0)%nat with 8%nat in *. rewrite drop_ge in Hh by lia. rewrite take_ge in Ht by lia. change (buffers []) with (∅ : gmultiset Z) in Hh. rewrite (left_id_L ∅ (⊎)) in Hh.
    rewrite <-Ht. by destruct s as [? [] ?]. }
  assert (8 - k = S (8 - S k))%nat as Ek by lia. destruct (lookup_lt_is_Some_2 (rxb (et_data s)) (8 - S k)) as [p Hp]; [lia|].
  pose proof (drop_S _ _ _ Hp) as Ed. rewrite <-Ek in Ed. pose proof (take_S_r _ _ _ Hp) as Et. rewrite <-Ek, Ht in Et.
  apply runs_bind. eapply el_get_runs; [by rewrite Nat2Z.id|lia|]. replace (Z.of_nat (8 - S k) + 1) with (Z.of_nat (8 - k)) by lia. rewrite Ed in Hh.
  unfold buffers in Hh. destruct (Z.eqb_spec p 0) as [->|Hp0]; cbn [negb].
  - apply runs_bind, ret_runs. rewrite filter_cons_False in Hh by tauto. apply IH; [lia|done| |done]. rewrite Et, Ek. by rewrite replicate_S_end.
  - rewrite filter_cons_True in Hh by done. cbn [list_to_set_disj] in Hh. change (list_to_set_disj (p :: ?x)) with ({[+ p +]} ⊎ list_to_set_disj x : gmultiset Z) in Hh.
    rewrite <-(assoc_L (⊎)) in Hh. destruct (pbuf_free_held _ _ _ _ Hh) as (m & b & E & Hh' & Em & Hsv & Hkp).
    apply runs_bind, runs_bind. eapply ebufs_runs; [exact E|]. apply el_set_runs; [cbn; lia|]. set (s1 := with_data _ _).
    assert (rxb (et_data s1) = <[(8 - S k)%nat := 0]> (rxb (et_data s))) as E1 by (cbn; by rewrite Nat2Z.id).
    eapply runs_mono; [|apply (IH s1)].
    + intros _ s' (E2 & E3 & E4 & E5 & E6). split; [rewrite E2; done|]. split; [done|]. split; [by rewrite E4|]. split; [by etrans; [exact Hsv|]|done].
    + lia.
    + rewrite E1. by rewrite length_insert.
    + rewrite E1, Ek. rewrite (take_S_r _ (8 - S k) 0) by (apply list_lookup_insert_eq; lia). rewrite take_insert_ge, Ht by lia. by rewrite replicate_S_end.
    + rewrite E1, drop_insert_lt by lia. done.
Qed.

Lemma queue_times_runs R H k s fl n rs :
  driver_ok R H s fl n rs → runs (times k (lpc_rx_queue;; mret tt)) s (λ _ s', untouched H s s' ∧ ∃ n' rs', driver_ok R H s' fl n' rs').
Proof.
  revert s n rs. induction k as [|k IH]; intros s n rs Hok; cbn [times]; [apply ret_runs; split; [done|by exists n, rs]|].
  apply runs_bind, runs_bind. eapply runs_mono; [|apply (rx_queue_runs _ _ _ _ _ _ Hok)]. intros r s1 [Hun Hr]. apply ret_runs.
  assert (∃ n1 rs1, driver_ok R H s1 fl n1 rs1) as (n1 & rs1 & Hok1).
  { destruct n as [|n]; [destruct Hr as [_ ->]; eauto|]. destruct Hr as [[_ ?]|[_ [x ?]]]; eauto. }
  eapply runs_mono; [|apply (IH s1 n1 rs1 Hok1)]. intros _ s2 [Hun2 Hex]. split; [by etrans|done].
Qed.

Lemma rx_setup_runs R H s fl :
  tx_ring (et_data s) (ixs s) fl → held_ok (et_bufs s) R (in_flight fl ⊎ H) →
  rxb (et_data s) = replicate 8 0 → length (prxd (et_data s)) = 8%nat → length (prxs (et_data s)) = 8%nat → Forall st_ok (prxs (et_data s)) →
  runs lpc_rx_setup s (λ r s', r = ERR_OK ∧ untouched H s s' ∧ ∃ n rs, driver_ok R H s' fl n rs).
Proof.
  intros Htx Hh Hb Hd Hs Hst. unfold lpc_rx_setup. apply runs_bind, er_quiet_runs; [done|]. intros d1 H1. apply runs_bind, er_quiet_runs; [done|]. intros d2 H2.
  apply runs_bind, er_quiet_runs; [done|]. intros d3 H3. pose proof (settles_trans _ _ _ H1 (settles_trans _ _ _ H2 H3)) as Hse.
  apply runs_bind, ed_set_runs, runs_bind, ed_set_runs, runs_bind. set (s1 := with_data _ _).
  assert (driver_ok R H s1 fl 8 []) as Hok.
  { split; [|split|constructor|]; try done.
    - eapply tx_ring_same; [..|eapply tx_ring_settles; [apply ix_range|exact Htx|exact Hse]]; done.
    - cbn. by rewrite Hb.
    - change (rot 0 (rxb (et_data s)) = replicate 8 0). by rewrite Hb.
    - change (drop 8 (rot 0 (prxd (et_data s))) = []). unfold rot. change (Z.to_nat 0) with 0%nat. by rewrite take_0, app_nil_r, drop_0, drop_ge by (cbn; lia).
    - change (in_flight []) with (∅ : gmultiset Z). by rewrite (left_id_L ∅ (⊎)). }
  eapply runs_mono; [|apply (queue_times_runs R H 8 s1 fl 8 [] Hok)]. intros _ s2 [Hun Hex]. apply ret_runs. split; [done|]. split; [|done]. etrans; [|exact Hun].
  split; [done|by apply kept_octets_same].
Qed.

(** If there was memory enough. *)
Lemma setup_full R H s fl :
  tx_ring (et_data s) (ixs s) fl → held_ok (et_bufs s) R (in_flight fl ⊎ H) →
  rxb (et_data s) = replicate 8 0 → length (prxd (et_data s)) = 8%nat → length (prxs (et_data s)) = 8%nat → Forall st_ok (prxs (et_data s)) →
  rx_free_descs (et_data (final lpc_rx_setup s)) = 0 → ∃ rs, driver_ok R H (final lpc_rx_setup s) fl 0 rs.
Proof.
  intros Htx Hh Hb Hd Hs Hst E0. destruct (runs_final _ _ _ (rx_setup_runs R H s fl Htx Hh Hb Hd Hs Hst)) as (r & _ & _ & n & rs & Hok).
  pose proof (rr_free _ _ _ _ (dv_rx _ _ _ _ _ _ Hok)) as Ef. exists rs. by replace 0%nat with n by lia.
Qed.

Lemma overrun_runs R H s fl n rs :
  driver_ok R H s fl n rs → runs rx_overrun s (λ _ s', untouched H s s' ∧ ∃ n' rs', driver_ok R H s' fl n' rs').
Proof.
  intros Hok. unfold rx_overrun, er_and, er_or. apply runs_bind, runs_bind, er_read_runs. intros v d1 H1 _. apply er_quiet_runs; [done|]. intros d2 H2.
  apply runs_bind, runs_bind, er_read_runs. intros v2 d3 H3 _. apply er_quiet_runs; [done|]. intros d4 H4. apply runs_bind, er_quiet_runs; [done|]. intros d5 H5.
  pose proof (settles_trans _ _ _ H1 (settles_trans _ _ _ H2 (settles_trans _ _ _ H3 (settles_trans _ _ _ H4 H5)))) as Hse. clear H1 H2 H3 H4 H5.
  change (with_dev d5 _) with (with_dev d5 s). pose proof (driver_settles _ _ _ _ _ _ _ Hok Hse) as [Htx Hrx _ Hh]. set (s1 := with_dev d5 s) in *.
  rewrite (assoc_L (⊎)), (comm_L (⊎) (in_flight fl)), <-(assoc_L (⊎)), <-(buffers_ring _ _ _ _ Hrx) in Hh.
  apply runs_bind. eapply runs_mono; [|apply (free_ring_runs R (in_flight fl ⊎ H) 8 s1); [lia|apply (rr_rxb _ _ _ _ Hrx)|done|done]].
  intros _ s2 (Ed & Ev & Em & Hsv & Hh2). assert (ixs s2 = ixs s1) as Ei by (unfold ixs; by rewrite Ev).
  apply runs_bind. eapply runs_mono; [|apply (rx_setup_runs R H s2 fl)].
  - intros _ s3 (_ & Hun & n' & rs' & Hok3). apply runs_bind, er_read_runs. intros v3 d6 H6 _. apply er_quiet_runs; [done|]. intros d7 H7.
    change (with_dev d7 _) with (with_dev d7 s3). split; [|exists n', rs'; by eapply driver_settles, settles_trans, H7].
    etrans; [|apply untouched_dev]. etrans; [|exact Hun]. etrans; [apply (untouched_dev H d5)|]. split; [|by apply kept_octets_same].
    eapply kept_subset, survives_kept; [|apply (ho_refs _ _ _ Hh2)|exact Hsv]. held_in.
  - rewrite Ed, Ei. by eapply tx_ring_same; [..|exact Htx].
  - done.
  - by rewrite Ed.
  - rewrite Ed. apply (rr_prxd _ _ _ _ Hrx).
  - rewrite Ed. apply (rr_prxs _ _ _ _ Hrx).
  - rewrite Ed. apply (rr_status _ _ _ _ Hrx).
Qed.

Lemma input_runs R H s fl rs st :
  driver_ok R H s fl 0 rs →
  prxs (et_data s) !! Z.to_nat (rx_c (ixs s)) = Some st →
  runs lpc_low_level_input s (λ p s', received R H s fl rs st p s' ∧ untouched H s s').
Proof.
  intros Hok Hst. pose proof (Forall_lookup_1 _ _ _ _ (rr_status _ _ _ _ (dv_rx _ _ _ _ _ _ Hok)) Hst) as Hlen. unfold lpc_low_level_input. apply runs_bind, er_read_runs. intros i d Hse Hv. cbn in Hv. subst i.
  destruct (Z.eqb_spec (Z.land (ints (ixs s)) EMAC_INT_RX_OVERRUN) 0) as [Hint|Hint]; cbn [negb].
  2:{ apply runs_bind. eapply runs_mono; [|apply (overrun_runs R H (with_dev d s) fl 0 rs); by apply driver_settles]. intros _ s' [Hun (n' & rs' & Hok')].
      apply ret_runs. split; [by eapply received_overrun|]. etrans; [apply (untouched_dev H d)|done]. }
  apply runs_bind, er_read_runs. intros i d1 Hse1 Hv. cbn in Hv. subst i. apply runs_bind, er_read_runs. intros i d2 Hse2 Hv. cbn in Hv. subst i.
  pose proof (settles_trans _ _ _ Hse (settles_trans _ _ _ Hse1 Hse2)) as Hs3. change (with_dev d2 _) with (with_dev d2 s).
  pose proof (driver_settles _ _ _ _ _ _ _ Hok Hs3) as Hok3. set (s3 := with_dev d2 s) in *. change (ixs (with_dev d s)) with (ix d).
  rewrite (se_rx_c _ _ Hse). rewrite <-(se_rx_c _ _ Hs3). change (ix d2) with (ixs s3). pose proof (ix_range (et_dev s)) as Hi.
  destruct (Z.eqb_spec (rx_p (ixs s3)) (rx_c (ixs s3))) as [E|Hne].
  { apply ret_runs. split; [|apply untouched_dev]. apply received_nothing; [|done]. destruct (decide (rx_p (ixs s) = rx_c (ixs s))) as [|Hn]; [done|]. exfalso.
    by apply (came_stays (ixs s) (ixs s3)). }
  assert (Z.to_nat (rx_c (ixs s3)) = Z.to_nat (rx_c (ixs s))) as Ec by (f_equal; apply (se_rx_c _ _ Hs3)).
  pose proof (ix_range d2) as Hi2. apply runs_bind. eapply el_get_runs; [cbn; rewrite Ec; exact Hst|apply Hi2|].
  pose proof (rx_ring_count _ _ _ _ (dv_rx _ _ _ _ _ _ Hok3)) as Hct. destruct rs as [|[q x] rs]; [done|].
  destruct (rx_ring_take _ _ _ _ _ (dv_rx _ _ _ _ _ _ Hok3)) as (_ & Hq & _). pose proof (rr_used _ _ _ _ (dv_rx _ _ _ _ _ _ Hok3)) as [Hq0 _]%Forall_cons. cbn [fst] in Hq0.
  apply runs_bind. eapply el_get_runs; [exact Hq|apply Hi2|]. destruct (Z.eqb_spec (Z.land (statusinfo st) RINFO_ERRORS) 0) as [E|E]; cbn [negb].
  - apply (frame_runs R H s3 fl q x rs _ _ Hok3); [split; [|by apply Hlen]; pose proof (Z.land_nonneg (statusinfo st) 0x7FF); lia|].
    intros s' b Hok' Hun Hpk Ht Hr Hob Hc. split; [by apply (received_frame R H s fl _ st q x rs b)|]. etrans; [apply (untouched_dev H d2)|done].
  - rewrite (proj2 (Z.eqb_neq _ _) Hq0). cbn [negb]. apply runs_bind. apply (damaged_runs R H s3 fl q x rs _ Hok3). intros s' Hok' Hun. apply ret_runs.
    split; [by eapply received_damaged|]. etrans; [apply (untouched_dev H d2)|done].
Qed.
End Receive.
