(* ===== verification/EmacClaims.v ===== *)
(** * The Ethernet driver: the theorems

    The driver in the main loop: sending, receiving and reclaiming keep both rings in order.  The stack is
    known by what [netif->input] promises, [InputLaw]. *)

From S2P Require Import Prelude LwipBase IpAddr Heap Memp Pbuf PbufChain PbufLinks PbufData PbufMake PbufAlloc PbufClaims PbufRefs Netif EthArp EthArpTable Emac EmacSend EmacReceive.
From Stdlib Require Import ZArith Lia.
From stdpp Require Import base numbers gmultiset list gmap.
Open Scope Z_scope.

Section Service.
Context {A D : Type} {BA : BufAlloc A} {LA : BufAllocLaws A} {EM : Emac D} {EL : EmacLaws D} {LY : EnetLayout}.
Implicit Types (s : eth A D).

(** ** Sending and reclaiming *)

Lemma rx_apart R H s fl n rs p l q :
  driver_ok R H s fl n rs → p ∈ H → chain (pb_store (et_bufs s)) p l → q ∈ rs.*1 → q ∉ l.*1.
Proof.
  intros [_ _ Hce Hh] Hp Hl Hq. pose proof Hq as ([q' x] & -> & Hx)%list_elem_of_fmap. destruct (proj1 (Forall_forall _ _) Hce _ Hx) as (b & Hb & Hr & _). cbn [fst] in *.
  pose proof (in_flight_elem rs q' Hq) as Hin. pose proof (ho_refs _ _ _ Hh) as Hct.
  eapply (sole_chain _ _ q' b p); [exact Hct|held_in|done|done|exact Hl|]. intros ->.
  rewrite (comm_L (⊎) (in_flight fl)), <-(assoc_L (⊎)) in Hct. apply (sole_held _ _ _ _ _ Hct Hin Hb Hr). held_in.
Qed.

Lemma driver_output R H fuel p l s fl n rs :
  driver_ok R H s fl n rs → Z.land (ints (ixs s)) EMAC_INT_TX_UNDERRUN = 0 →
  p ∈ H → packet (pb_store (et_bufs s)) p l → Forall (λ c, p_ref c.2 < 2 ^ 16 - 1) l → moderate l → reachable l ∨ own_octets l →
  Z.of_nat (length l) + (tx_p (ixs s) - tx_c (ixs s)) mod 8 ≤ 7 → (0 < fuel)%nat →
  runs (lpc_low_level_output fuel p) s (λ r s', sent_or_not R (in_flight rs ⊎ H) s l fl r s' ∧
    ∀ fl', tx_ok R (in_flight rs ⊎ H) s' fl' → driver_ok R H s' fl' n rs).
Proof.
  intros Hok Hint Hin Hpk Hr Hm Hro Hroom Hf. pose proof (driver_tx _ _ _ _ _ _ Hok) as Htx.
  eapply runs_mono; [|apply (frame_output_runs R (in_flight rs ⊎ H) fuel p l s fl Htx)]; try done; [|held_in].
  intros r s' Hso. split; [done|]. intros fl' [Htx' Hh']. pose proof Hok as [_ Hrx Hce Hh]. split; [done| | |done].
  - destruct (rx_ring_same _ _ _ _ _ (so_rx _ _ _ _ _ _ _ Hso) Hrx) as [H1 H2 H3 H4 H5 H6 H7 H8 H9 H10]. split; try done. by rewrite (so_consume _ _ _ _ _ _ _ Hso).
  - eapply rx_cells_keep, Hce. intros q b Hq Hb Hr1. apply (so_sole _ _ _ _ _ _ _ Hso); [apply in_flight_elem in Hq; held_in|done|done|].
    by apply (rx_apart R H s fl n rs p l q Hok Hin (pk_chain _ _ _ Hpk)).
Qed.

Lemma driver_reclaim R H s fl n rs :
  driver_ok R H s fl n rs → runs lpc_tx_reclaim s (λ _ s', (∃ k, driver_ok R H s' (drop k fl) n rs) ∧ untouched H s s').
Proof.
  intros Hok. apply runs_bind, er_read_runs. intros cidx d Hse Hv. cbn in Hv. subst cidx. pose proof (driver_settles _ _ _ _ _ _ _ Hok Hse) as Hok1. set (s1 := with_dev d s) in *.
  change (ix d) with (ixs s1). eapply runs_mono; [|apply (reclaim_runs 9 _ _ s1 fl (driver_tx _ _ _ _ _ _ Hok1))];
    [|unfold sent; pose proof (Z.mod_pos_bound (tx_c (ixs s1) - lpc_last_tx_idx (et_data s1)) 8); lia].
  intros _ s2 ([Htx Hh] & _ & Ed & Hst). assert (ixs s2 = ixs s1) as E2 by (unfold ixs; by rewrite Ed). destruct Hok1 as [_ Hrx Hce Hh1]. split.
  - exists (sent s1). split; [done| | |done]; [rewrite E2; by eapply rx_ring_same; [apply (ts_rx _ _ Hst)|]|].
    eapply rx_cells_keep, Hce. intros q b Hq Hb Hr1. eapply (sole_kept _ _ _ _ q b (ts_store _ _ Hst) (ho_refs _ _ _ Hh1) (ho_refs _ _ _ Hh)); [|apply in_flight_drop|done|done].
    apply in_flight_elem in Hq. held_in.
  - etrans; [apply (untouched_dev H d)|]. split; [|apply kept_octets_same, (ts_mem _ _ Hst)].
    eapply kept_subset, survives_kept; [|apply (ho_refs _ _ _ Hh)|apply (ts_store _ _ Hst)]. held_in.
Qed.

(** ** Receiving *)

Definition frame_type (m : memory) (b : pbuf) : Z := lwip_htons (le_word (mem_read m (p_payload b + ETH_TYPE) 2)).
Definition known_type (t : Z) : bool := (t =? ETHTYPE_IP) || (t =? ETHTYPE_ARP).

(** [netif->input] takes a frame of its types over or reports that it does not;
    it may send, and keep packets. *)
Class InputLaw (input : Z → M (eth A D) Z) := input_law R H s fl rs p b :
  driver_ok R ({[+ p +]} ⊎ H) s fl 1 rs → packet (pb_store (et_bufs s)) p [(p, b)] → p_ref b = 1 → owns b → 1 ≤ p_len b ≤ EMAC_ETH_MAX_FLEN →
  known_type (frame_type (pb_data (et_bufs s)) b) = true →
  runs (input p) s (λ r s', ∃ H' fl', driver_ok R (if decide (r = ERR_OK) then H' else {[+ p +]} ⊎ H') s' fl' 1 rs).

(** A packet is given up. *)
Lemma driver_free R H s fl n rs p :
  driver_ok R ({[+ p +]} ⊎ H) s fl n rs → runs (ebufs (pbuf_free p)) s (λ _ s', driver_ok R H s' fl n rs ∧ untouched H s s').
Proof.
  intros [Htx Hrx Hce Hh]. rewrite first_over in Hh. destruct (pbuf_free_held _ _ _ _ Hh) as (m & b & E & Hh' & Em & Hsv & Hk).
  eapply ebufs_runs; [exact E|]. split; [split; [done|done| |done]|split; [eapply kept_subset, Hk; held_in|by apply kept_octets_same]].
  eapply rx_cells_keep, Hce. intros x c Hx Hc Hr. eapply (sole_kept _ _ _ _ x c Hsv (ho_refs _ _ _ Hh) (ho_refs _ _ _ Hh')); [apply in_flight_elem in Hx; held_in| |done|done].
  rewrite (multiplicity_disj_union {[+ p +]}). lia.
Qed.

Lemma enetif_input_runs input {IL : InputLaw input} R H s fl rs st :
  driver_ok R H s fl 0 rs →
  prxs (et_data s) !! Z.to_nat (rx_c (ixs s)) = Some st →
  runs (lpc_enetif_input input) s (λ _ s', ∃ H' fl' n rs', driver_ok R H' s' fl' n rs').
Proof.
  intros Hok Hst. pose proof (Forall_lookup_1 _ _ _ _ (rr_status _ _ _ _ (dv_rx _ _ _ _ _ _ Hok)) Hst) as Hlen. unfold lpc_enetif_input. apply runs_bind. eapply runs_mono; [|apply (input_runs R H s fl rs st Hok Hst)].
  intros p s1 [Hrec Hun]. destruct Hrec as [n rs' s1 _ Hok1|s1 _ Hok1|x rs' s1 -> _ Hok1|q d rs' b s1 n -> Hne Hok1 Hpk Ht Hr Hob Hc].
  1-3: apply ret_runs; by eauto.
  pose proof (pk_chain _ _ _ Hpk) as (_ & Hq & Hb & _). destruct (pk_lens _ _ _ Hpk) as (_ & Htl & _). cbn [total_len] in Htl.
  assert (1 ≤ n) as Hn by (unfold n; pose proof (Z.land_nonneg (statusinfo st) 0x7FF); lia).
  rewrite (proj2 (Z.eqb_neq _ _) Hq). apply runs_bind, activity_runs. intros d2 Hse. pose proof (driver_settles _ _ _ _ _ _ _ Hok1 Hse) as Hok2. set (s2 := with_dev d2 s1) in *.
  apply runs_bind. eapply ebufs_keep; [unfold get_pbuf; cbn; by rewrite Hb|]. apply runs_bind. eapply ebufs_keep; [done|].
  assert (∀ s3 fl3 H3, driver_ok R ({[+ q +]} ⊎ H3) s3 fl3 1 rs' → runs (ebufs (pbuf_free q);; mret tt) s3
    (λ _ s', ∃ H' fl' n rs', driver_ok R H' s' fl' n rs')) as Hfree.
  { intros s3 fl3 H3 Hok3. apply runs_bind. eapply runs_mono; [|apply (driver_free R H3 s3 fl3 1 rs' q Hok3)]. intros _ s4 [Hok4 _]. apply ret_runs. by eauto. }
  match goal with |- runs (if ?c then _ else _) _ _ => change c with (known_type (frame_type (pb_data (et_bufs s2)) b)); destruct (known_type _) eqn:Ek end; [|by apply (Hfree s2 fl H)].
  apply runs_bind. eapply runs_mono; [|apply (IL R H s2 fl rs' q b Hok2 Hpk Hr Hob)]; [|specialize (Hlen Hne); lia|done].
  intros r s3 (H' & fl' & Hok3). destruct (Z.eqb_spec r ERR_OK) as [->|Hr1]; cbn [negb].
  - apply ret_runs. by eauto.
  - rewrite decide_False in Hok3 by done. by apply (Hfree s3 fl' H').
Qed.

(** One round of the main loop. *)
Lemma service_runs input {IL : InputLaw input} R H s fl n rs :
  driver_ok R H s fl n rs → runs (net_service_link input) s (λ _ s', ∃ H' fl' n' rs', driver_ok R H' s' fl' n' rs').
Proof.
  intros Hok. unfold net_service_link. pose proof (rx_ring_count _ _ _ _ (dv_rx _ _ _ _ _ _ Hok)) as Hct.
  apply runs_bind. eapply runs_mono; [|apply (requeue_runs R H s fl n rs 9 Hok); lia]. intros r s1 [_ Hr].
  assert (∀ s2 H2 fl2 n2 rs2, driver_ok R H2 s2 fl2 n2 rs2 → runs lpc_tx_reclaim s2 (λ _ s', ∃ H' fl' n' rs', driver_ok R H' s' fl' n' rs')) as Hrec.
  { intros s2 H2 fl2 n2 rs2 Hok2. eapply runs_mono; [|apply (driver_reclaim _ _ _ _ _ _ Hok2)]. intros _ s3 [[k Hok3] _]. by eauto. }
  destruct Hr as [[-> [rs1 Hok1]]|[-> (n1 & rs1 & Hok1)]]; cbn [Z.eqb negb].
  - pose proof (rx_ring_count _ _ _ _ (dv_rx _ _ _ _ _ _ Hok1)) as Hc1. destruct (ix_range (et_dev s1)) as (_ & _ & _ & Hc8).
    destruct (lookup_lt_is_Some_2 (prxs (et_data s1)) (Z.to_nat (rx_c (ixs s1)))) as [st Hst]; [rewrite (rr_prxs _ _ _ _ (dv_rx _ _ _ _ _ _ Hok1)); unfold ixs; lia|].
    apply runs_bind. eapply runs_mono; [|by apply (enetif_input_runs input R H s1 fl rs1 st)]. intros _ s2 (H2 & fl2 & n2 & rs2 & Hok2). by eapply Hrec.
  - apply runs_bind, ret_runs. by eapply Hrec.
Qed.
End Service.

(** ** A controller on an idle cable *)

#[export] Instance idle_emac : Emac indexes := {
  emac_read r d := (match r with TxProduceIndex => tx_p d mod 8 | TxConsumeIndex => tx_c d mod 8 | RxProduceIndex => rx_p d mod 8
    | RxConsumeIndex => rx_c d mod 8 | IntStatus => ints d | _ => 0 end, d);
  emac_write r v d := match r with
    | TxProduceIndex => Ix v (tx_c d) (rx_p d) (rx_c d) (ints d)
    | RxConsumeIndex => Ix (tx_p d) (tx_c d) (rx_p d) v (ints d)
    | Command => if Z.land v CR_RESETS =? CR_RESETS then Ix 0 0 0 0 0 else d
    | _ => d end }.
#[export] Program Instance idle_laws : EmacLaws indexes := {
  ix d := Ix (tx_p d mod 8) (tx_c d mod 8) (rx_p d mod 8) (rx_c d mod 8) (ints d) }.
Next Obligation. intros d. repeat split; cbn; by apply Z.mod_pos_bound. Qed.
Next Obligation.
  intros r d. split; [|by destruct r]. cbn [snd emac_read idle_emac]. apply settles_refl. repeat split; cbn; by apply Z.mod_pos_bound.
Qed.
Next Obligation.
  intros r v d Hq. assert (emac_write r v d = d) as -> by by destruct r. apply settles_refl. repeat split; cbn; by apply Z.mod_pos_bound.
Qed.
Next Obligation. intros v d Hv. cbn. by rewrite (Z.mod_small v). Qed.
Next Obligation.
  intros v d Hv. cbn. rewrite Hv. cbn. apply settles_refl. repeat split; cbn; by apply Z.mod_pos_bound.
Qed.
Next Obligation. intros v d Hv. cbn. rewrite Hv. by exists 0. Qed.
Next Obligation. intros v d Hv. cbn. by rewrite (Z.mod_small v). Qed.

#[export] Instance demo_layout : EnetLayout := {| at_ptxd := 0x2007C000; at_ptxs := 0x2007C040; at_prxd := 0x2007C080; at_prxs := 0x2007C0C0 |}.

(** After [lpc_tx_setup]. *)
Definition empty_data : enetdata :=
  Enet (replicate 8 (Desc 0 0)) (replicate 8 (Status 0xFFFFFFFF 0)) (replicate 8 (Desc 0 0)) (replicate 8 (Status 0xFFFFFFFF 0)) (replicate 8 0) 0 8 (replicate 8 0) 0.

Lemma empty_driver (b : pbufs_state allocators) R H : held_ok b R H → driver_ok R H (Eth b empty_data (Ix 0 0 0 0 0)) [] 8 [].
Proof.
  intros Hh. split; [split; [split|..]|split|constructor|]; try done.
  - by repeat constructor.
  - change (in_flight []) with (∅ : gmultiset Z). by rewrite !(left_id_L ∅ (⊎)).
Qed.

(** The controller has received into the first slots. *)
Lemma driver_arrival {A D} {BA : BufAlloc A} {LA : BufAllocLaws A} {EM : Emac D} {EL : EmacLaws D} R H (s : eth A D) fl n rs l d :
  driver_ok R H s fl n rs → length l = 8%nat → Forall st_ok l → settles (ixs s) (ix d) → driver_ok R H (Eth (et_bufs s) (with_prxs l (et_data s)) d) fl n rs.
Proof.
  intros Hok Hl Hst Hse. destruct (driver_settles _ _ _ _ _ _ _ Hok Hse) as [Htx [H1 H2 H3 H4 H5 H6 H7 H8 H9 H10] Hce Hh].
  split; [by eapply tx_ring_same; [..|exact Htx]|by split|done|done].
Qed.

Section Claims.
Context {A D : Type} {BA : BufAlloc A} {LA : BufAllocLaws A} {EM : Emac D} {EL : EmacLaws D} {LY : EnetLayout}.



Fixpoint rounds (input : Z → M (eth A D) Z) (k : nat) : M (eth A D) unit :=
  match k with O => mret tt | S k => net_service_link input;; rounds input k end.


(** C36.  [lpc_tx_ready] returns and reclaims what was sent, but counts wrongly.
    Of eight descriptors one stays unused, so that seven less those in flight
    are free.  This is what it returns while the producer is behind the consumer;
    it is one too many when nothing is in flight, and with the producer ahead
    of the consumer those in flight are added to seven. *)
Theorem tx_ready_overcounts R H (s : eth A D) fl n rs :
  driver_ok R H s fl n rs → ∃ v s', lpc_tx_ready s = Ok (v, s') ∧ (∃ k, tx_ok R (in_flight rs ⊎ H) s' (drop k fl)) ∧
    let p := tx_p (ixs s) in let c := lpc_last_tx_idx (et_data s') in let free := 7 - (p - c) mod 8 in
    v = if p <? c then free else if p =? c then free + 1 else 7 + (p - c).
Proof.
  intros Hok. pose proof (ready_runs _ _ _ _ (driver_tx _ _ _ _ _ _ Hok)) as Hrun. unfold runs in Hrun.
  destruct (lpc_tx_ready s) as [[v s']| |]; [|done|done]. destruct Hrun as (Htx & _ & _ & (c & Hc & _ & El & ->)). exists (free_descs (tx_p (ixs s)) c), s'.
  split; [done|]. split; [done|]. cbv zeta. rewrite El. destruct (ix_range (et_dev s)) as (Hp & _). change (ix (et_dev s)) with (ixs s) in Hp.
  destruct (Z.ltb_spec (tx_p (ixs s)) c), (Z.eqb_spec (tx_p (ixs s)) c); try lia.
  - unfold free_descs. rewrite (proj2 (Z.eqb_neq _ _)), (proj2 (Z.ltb_lt _ _)) by lia. change LPC_NUM_BUFF_TXDESCS with 8. unfold u32. modular.
  - unfold free_descs. rewrite (proj2 (Z.eqb_eq _ _)) by lia. replace (tx_p (ixs s) - c) with 0 by lia. done.
  - apply free_descs_ahead; lia.
Qed.
End Claims.

(** ** At boot *)

Definition link_boot : eth allocators indexes := Eth boot_pbufs empty_data (Ix 0 0 0 0 0).
Abbreviation link_ready := (final lpc_rx_setup link_boot).
(** A frame of sixty octets in the first slot. *)
Definition link_demo : eth allocators indexes :=
  Eth (et_bufs link_ready) (with_prxs (Status 59 0 :: replicate 7 (Status 0xFFFFFFFF 0)) (et_data link_ready)) (Ix 0 0 1 0 0).
Lemma boot_held : held_ok boot_pbufs ∅ ∅.
Proof. split; [|apply counted_empty]. exists ∅. split; [apply boot_pbufs_ok|]. intros a. cbn. by rewrite !lookup_empty. Qed.
Lemma link_ready_free : rx_free_descs (et_data link_ready) = 0.
Proof. vm_cast_no_check (eq_refl 0). Qed.
Lemma link_ready_ix : ixs link_ready = Ix 0 0 0 0 0.
Proof. vm_cast_no_check (eq_refl (Ix 0 0 0 0 0)). Qed.
Lemma link_ready_driver : ∃ rs, driver_ok ∅ ∅ link_ready [] 0 rs.
Proof.
  exact (setup_full ∅ ∅ link_boot [] (dv_tx _ _ _ _ _ _ (empty_driver boot_pbufs ∅ ∅ boot_held)) boot_held eq_refl eq_refl eq_refl
    ltac:(by repeat constructor) link_ready_free).
Qed.
Lemma link_demo_driver : ∃ rs, driver_ok ∅ ∅ link_demo [] 0 rs.
Proof.
  destruct link_ready_driver as [rs Hs]. exists rs. apply (driver_arrival ∅ ∅ link_ready [] 0 rs _ _ Hs); [done|by repeat constructor|].
  rewrite link_ready_ix. split; try done; [exists 0|exists 1]; done.
Qed.

Lemma tx_ready_overcounts_witness : ∃ v s', lpc_tx_ready link_demo = Ok (v, s') ∧ v = 8.
Proof.
  destruct link_demo_driver as [rs Hok]. destruct (tx_ready_overcounts ∅ ∅ link_demo [] 0 rs Hok) as (v & s' & E & _ & _). exists v, s'. split; [exact E|].
  assert (match lpc_tx_ready link_demo with Ok (w, _) => w =? 8 | _ => false end = true) as E8 by (vm_cast_no_check (eq_refl true)).
  rewrite E in E8. exact (proj1 (Z.eqb_eq v 8) E8).
Defined.

(** A stack that drops what it gets. *)
Definition drop_input (p : Z) : M (eth allocators indexes) Z := ebufs (pbuf_free p);; mret ERR_OK.
#[export] Instance drop_input_law : InputLaw drop_input.
Proof.
  intros R H s fl rs p b Hok _ _ _ _ _. unfold drop_input. apply runs_bind. eapply runs_mono; [|apply (driver_free R H s fl 1 rs p Hok)].
  intros _ s' [Hok' _]. apply ret_runs. exists H, fl. done.
Qed.

