(* ===== verification/I2c.v ===== *)
(** * The two-wire bus and the station address
    ([src/lwip/netif/mac_addr_i2c.c], [src/lwip/netif/lpc_mac_addr.c])

    Transactions run in the interrupt handler, one step for every status the
    bus controller reports; the callers wait until [I2CDone].  The controller
    answers reads and absorbs writes of its registers, and while time passes it
    may raise its interrupt, the class [I2cDev]. *)

From S2P Require Import Prelude.
From Stdlib Require Import ZArith Lia.
From stdpp Require Import base numbers list.
Open Scope Z_scope.

Inductive i2reg := I2CONSET | I2CONCLR | I2STAT | I2DAT | I2SCLL | I2SCLH | I2C_PCONP | PINSEL1 | I2CPADCFG | IP_I2C0 | ISER_I2C0.

Class I2cDev (D : Type) := {
  i2_read : i2reg → D → Z * D;
  i2_write : i2reg → Z → D → D;
  i2_tick : D → bool * D }.

Definition I2CMAX_TIMEOUT : Z := 0x00FFFFFF.
Definition RD_BIT : Z := 0x01.
Definition I2C_I2EN : Z := Z.shiftl 1 6.
Definition I2C_STA : Z := Z.shiftl 1 5.
Definition I2C_STO : Z := Z.shiftl 1 4.
Definition I2C_SI : Z := Z.shiftl 1 3.
Definition I2C_AA : Z := Z.shiftl 1 2.
Definition I2SCLHVAL : Z := 0x80.
Definition I2SCLLVAL : Z := 0x80.
Definition EEPROM_ADDR : Z := 0xAE.
Definition MAC_LOCATION : Z := 0xFA.

(** [I2CData] points to [I2CDataValue] or to the caller's array. *)
Record i2c (D : Type) := I2c {
  I2CMode : Z;
  I2CDone : Z;
  I2CSlave : Z;
  I2CRegister : Z;
  I2CStatic : bool;
  I2CDataValue : Z;
  I2CArray : list Z;
  I2CLen : Z;
  I2CIndex : Z;
  i2_dev : D }.
Arguments I2c {D} I2CMode I2CDone I2CSlave I2CRegister I2CStatic I2CDataValue I2CArray I2CLen I2CIndex i2_dev.
Arguments I2CMode {D} i.
Arguments I2CDone {D} i.
Arguments I2CSlave {D} i.
Arguments I2CRegister {D} i.
Arguments I2CStatic {D} i.
Arguments I2CDataValue {D} i.
Arguments I2CArray {D} i.
Arguments I2CLen {D} i.
Arguments I2CIndex {D} i.
Arguments i2_dev {D} i.

Section I2c.
Context {D : Type} {DV : I2cDev D}.
Abbreviation IM := (M (i2c D)).
Implicit Types (s : i2c D).

Definition with_done (v : Z) s : i2c D :=
  I2c (I2CMode s) v (I2CSlave s) (I2CRegister s) (I2CStatic s) (I2CDataValue s) (I2CArray s) (I2CLen s) (I2CIndex s) (i2_dev s).
Definition with_i2dev (d : D) s : i2c D :=
  I2c (I2CMode s) (I2CDone s) (I2CSlave s) (I2CRegister s) (I2CStatic s) (I2CDataValue s) (I2CArray s) (I2CLen s) (I2CIndex s) d.
Definition with_octets (v : Z) (l : list Z) s : i2c D :=
  I2c (I2CMode s) (I2CDone s) (I2CSlave s) (I2CRegister s) (I2CStatic s) v l (I2CLen s) (I2CIndex s) (i2_dev s).
Definition with_index (i : Z) s : i2c D :=
  I2c (I2CMode s) (I2CDone s) (I2CSlave s) (I2CRegister s) (I2CStatic s) (I2CDataValue s) (I2CArray s) (I2CLen s) i (i2_dev s).
(** The transaction that is to run. *)
Definition with_request (mode sl sl_reg : Z) s : i2c D :=
  I2c mode 0 sl sl_reg (I2CStatic s) (I2CDataValue s) (I2CArray s) (I2CLen s) (I2CIndex s) (i2_dev s).
Definition with_transfer (static : bool) (v : Z) (l : list Z) (len : Z) s : i2c D :=
  I2c (I2CMode s) (I2CDone s) (I2CSlave s) (I2CRegister s) static v l len 0 (i2_dev s).

Definition i2_rd (r : i2reg) : IM Z := λ s, let '(v, d) := i2_read r (i2_dev s) in Ok (v, with_i2dev d s).
Definition i2_wr (r : i2reg) (v : Z) : IM unit := modify (λ s, with_i2dev (i2_write r v (i2_dev s)) s).

(** [I2CData[i]]. *)
Definition data_get (i : Z) : IM Z := λ s,
  if I2CStatic s then (if i =? 0 then Ok (I2CDataValue s, s) else Fault)
  else match I2CArray s !! Z.to_nat i with Some v => if 0 <=? i then Ok (v, s) else Fault | None => Fault end.
Definition data_set (i v : Z) : IM unit := λ s,
  if I2CStatic s then (if i =? 0 then Ok (tt, with_octets v (I2CArray s) s) else Fault)
  else if (0 <=? i) && (i <? Z.of_nat (length (I2CArray s))) then Ok (tt, with_octets (I2CDataValue s) (<[Z.to_nat i := v]> (I2CArray s)) s)
  else Fault.

(** ** The interrupt *)

(** [I2CData[I2CIndex++] = LPC_I2C0->I2DAT]. *)
Definition take_octet : IM unit :=
  i ← gets I2CIndex;
  v ← i2_rd I2DAT;
  modify (with_index (u32 (i + 1)));;
  data_set i (u8 v).
(** Stop, and it is done. *)
Definition i2_stop : IM unit :=
  i2_wr I2CONSET I2C_STO;;
  i2_wr I2CONCLR I2C_SI;;
  modify (with_done 1).

Definition I2C0_IRQHandler : IM unit :=
  st ← i2_rd I2STAT;
  let StatValue := u8 st in
  mode ← gets I2CMode;
  slave ← gets I2CSlave;
  if StatValue =? 0x08 then
    i2_wr I2DAT slave;;
    i2_wr I2CONCLR (Z.lor I2C_SI I2C_STA)
  else if StatValue =? 0x10 then
    i2_wr I2DAT (Z.lor slave RD_BIT);;
    i2_wr I2CONCLR (Z.lor I2C_SI I2C_STA)
  else if StatValue =? 0x18 then
    if mode =? 2 then i2_stop
    else
      reg ← gets I2CRegister;
      i2_wr I2DAT reg;;
      i2_wr I2CONCLR I2C_SI
  else if StatValue =? 0x40 then
    len ← gets I2CLen;
    (if 1 <? len then i2_wr I2CONSET I2C_AA else i2_wr I2CONCLR I2C_AA);;
    i2_wr I2CONCLR I2C_SI
  else if (StatValue =? 0x20) || (StatValue =? 0x48) then i2_stop
  else if StatValue =? 0x28 then
    if mode =? 1 then
      i2_wr I2CONSET I2C_STA;;
      i2_wr I2CONCLR I2C_SI
    else
      i ← gets I2CIndex;
      len ← gets I2CLen;
      if i <? len then
        v ← data_get i;
        modify (with_index (u32 (i + 1)));;
        i2_wr I2DAT v;;
        i2_wr I2CONCLR I2C_SI
      else i2_stop
  else if StatValue =? 0x30 then i2_stop
  else if StatValue =? 0x50 then
    take_octet;;
    i ← gets I2CIndex;
    len ← gets I2CLen;
    (if u32 (i + 1) <? len then i2_wr I2CONSET I2C_AA else i2_wr I2CONCLR I2C_AA);;
    i2_wr I2CONCLR I2C_SI
  else if StatValue =? 0x58 then
    take_octet;;
    i2_stop
  else
    i2_wr I2CONCLR I2C_SI;;
    modify (with_done 1).

(** ** Waiting *)

(** While time passes, the interrupt may come. *)
Definition i2_pass : IM unit :=
  irq ← (λ s, let '(irq, d) := i2_tick (i2_dev s) in Ok (irq, with_i2dev d s));
  if irq : bool then I2C0_IRQHandler else mret tt.
Fixpoint wait_loop (n : nat) : IM unit :=
  match n with
  | O => mret tt
  | S n => d ← gets I2CDone; if d =? 0 then i2_pass;; wait_loop n else mret tt
  end.
(** [n] is [I2CMAX_TIMEOUT]. *)
Definition WaitForI2C (n : nat) : IM Z :=
  wait_loop n;;
  d ← gets I2CDone;
  if d =? 0 then
    i2_wr I2CONSET I2C_STO;;
    modify (with_done 1);;
    mret (-1)
  else mret 1.

(** ** Transactions *)

Definition WriteI2C (n : nat) (sl sl_reg data : Z) : IM unit :=
  WaitForI2C n;;
  modify (with_request 0 (Z.land sl 0xFE) sl_reg);;
  modify (λ s, with_transfer true data (I2CArray s) 1 s);;
  i2_wr I2CONSET I2C_STA.
Definition WriteI2CBlock (n : nat) (sl sl_reg : Z) (data : list Z) (len : Z) : IM unit :=
  WaitForI2C n;;
  modify (with_request 0 (Z.land sl 0xFE) sl_reg);;
  modify (λ s, with_transfer false (I2CDataValue s) data len s);;
  i2_wr I2CONSET I2C_STA.
Definition PingI2C (n : nat) (sl : Z) : IM Z :=
  WaitForI2C n;;
  modify (λ s, with_request 2 (Z.land sl 0xFE) (I2CRegister s) s);;
  i2_wr I2CONSET I2C_STA;;
  WaitForI2C n.
Definition ReadI2C (n : nat) (sl sl_reg : Z) : IM Z :=
  WaitForI2C n;;
  modify (with_request 1 (Z.land sl 0xFE) sl_reg);;
  modify (λ s, with_transfer true (I2CDataValue s) (I2CArray s) 1 s);;
  i2_wr I2CONSET I2C_STA;;
  r ← WaitForI2C n;
  if 0 <? r then data_get 0 else mret (-1).
Definition ReadI2CBlock (n : nat) (sl sl_reg : Z) (data : list Z) (len : Z) : IM unit :=
  WaitForI2C n;;
  modify (with_request 1 (Z.land sl 0xFE) sl_reg);;
  modify (λ s, with_transfer false (I2CDataValue s) data len s);;
  i2_wr I2CONSET I2C_STA.

Definition i2_or (r : i2reg) (m : Z) : IM unit := v ← i2_rd r; i2_wr r (Z.lor v m).
Definition i2_and (r : i2reg) (m : Z) : IM unit := v ← i2_rd r; i2_wr r (Z.land v m).
Definition PINSEL1_I2C0 : Z := Z.lor (Z.shiftl 3 22) (Z.shiftl 3 24).
Definition InitI2C : IM Z :=
  modify (with_done 1);;
  i2_or I2C_PCONP (Z.shiftl 1 7);;
  i2_and PINSEL1 (unot 32 PINSEL1_I2C0);;
  i2_or PINSEL1 (Z.lor (Z.shiftl 1 22) (Z.shiftl 1 24));;
  i2_and I2CPADCFG (unot 32 0xF);;
  i2_wr I2CONCLR (Z.lor I2C_AA (Z.lor I2C_SI (Z.lor I2C_STO (Z.lor I2C_STA I2C_I2EN))));;
  i2_wr I2SCLL I2SCLLVAL;;
  i2_wr I2SCLH I2SCLHVAL;;
  i2_wr IP_I2C0 (Z.land (Z.shiftl 0 (8 - 5)) 0xff);;
  i2_wr ISER_I2C0 (Z.shiftl 1 10);;
  i2_wr I2CONSET I2C_I2EN;;
  mret 1.
Definition ShutdownI2C : IM Z :=
  i2_and I2C_PCONP (unot 32 (Z.shiftl 1 7));;
  i2_and PINSEL1 (unot 32 PINSEL1_I2C0);;
  mret 1.

(** The address is left in the array. *)
Definition get_macaddr (n : nat) (macaddr : list Z) : IM Z :=
  InitI2C;;
  ReadI2CBlock n EEPROM_ADDR MAC_LOCATION macaddr 6;;
  r ← WaitForI2C n;
  if 0 <=? r then ShutdownI2C;; mret 1 else mret (-1).
End I2c.
