(* ===== verification/I2cBus.v ===== *)
(** * The address memory on the two-wire bus

    What the bus controller and the memory behind it do, as their data sheets
    say, and what the driver reads through them: the address, or nothing if no
    memory answers. *)

From S2P Require Import Prelude I2c.
From Stdlib Require Import ZArith Lia.
From stdpp Require Import base numbers list.
Open Scope Z_scope.

(** ** The bus *)

(** The controller is idle, works and will report a status, or has reported one
    and waits for [SI] to be cleared. *)
Inductive phase := PIdle | PBusy (st : Z) | PInt (st : Z).
Record ebus := Ebus {
  eb_phase : phase;
  eb_sta : bool;
  eb_sto : bool;
  eb_aa : bool;
  eb_dat : Z;
  eb_ptr : Z }.

(** A memory of 256 octets at address [sl], or none. *)
Record slave := Slave { sl_address : option Z; sl_octets : Z → Z }.

Definition answers (m : slave) (a : Z) : bool := match sl_address m with Some x => x =? a | None => false end.

(** The next step of the transaction. *)
Definition proceed (m : slave) (st : Z) (b : ebus) : ebus :=
  let go r ptr dat := Ebus (PBusy r) (eb_sta b) (eb_sto b) (eb_aa b) dat ptr in
  if eb_sto b then Ebus PIdle false false (eb_aa b) (eb_dat b) (eb_ptr b)
  else if eb_sta b then go 0x10 (eb_ptr b) (eb_dat b)
  else if st =? 0x08 then go (if answers m (eb_dat b) then 0x18 else 0x20) (eb_ptr b) (eb_dat b)
  else if st =? 0x18 then go 0x28 (eb_dat b) (eb_dat b)
  else if st =? 0x10 then go (if answers m (Z.land (eb_dat b) 0xFE) then 0x40 else 0x48) (eb_ptr b) (eb_dat b)
  else if (st =? 0x40) || (st =? 0x50) then
    go (if eb_aa b then 0x50 else 0x58) ((eb_ptr b + 1) mod 256) (sl_octets m (eb_ptr b))
  else go 0xF8 (eb_ptr b) (eb_dat b).

Definition bus_write (m : slave) (r : i2reg) (v : Z) (b : ebus) : ebus :=
  match r with
  | I2DAT => Ebus (eb_phase b) (eb_sta b) (eb_sto b) (eb_aa b) v (eb_ptr b)
  | I2CONSET =>
     let b := Ebus (eb_phase b) (eb_sta b || Z.testbit v 5) (eb_sto b || Z.testbit v 4) (eb_aa b || Z.testbit v 2) (eb_dat b) (eb_ptr b) in
     match eb_phase b with PIdle => if eb_sta b then Ebus (PBusy 0x08) (eb_sta b) false (eb_aa b) (eb_dat b) (eb_ptr b) else b | _ => b end
  | I2CONCLR =>
     let b := Ebus (eb_phase b) (eb_sta b && negb (Z.testbit v 5)) (eb_sto b) (eb_aa b && negb (Z.testbit v 2)) (eb_dat b) (eb_ptr b) in
     match eb_phase b with PInt st => if Z.testbit v 3 then proceed m st b else b | _ => b end
  | _ => b
  end.
Definition bus_read (r : i2reg) (b : ebus) : option Z :=
  match r with I2STAT => Some (match eb_phase b with PInt st => st | _ => 0xF8 end) | I2DAT => Some (eb_dat b) | _ => None end.

(** A controller with the slave [m] behind it, that takes at most [w] looks at
    [I2CDone] for each step. *)
Class I2cLaws (D : Type) {DV : I2cDev D} (m : slave) (w : nat) := {
  bus : D → ebus;
  lag : D → nat;
  i2_read_law r d : bus (i2_read r d).2 = bus d ∧ lag (i2_read r d).2 = lag d ∧ (∀ v, bus_read r (bus d) = Some v → (i2_read r d).1 = v);
  i2_write_law r v d : bus (i2_write r v d) = bus_write m r v (bus d);
  i2_lag_law d : (lag d ≤ w)%nat;
  i2_tick_law d :
    match eb_phase (bus d) with
    | PBusy st => (i2_tick d).1 = true ∧ bus (i2_tick d).2 = Ebus (PInt st) (eb_sta (bus d)) (eb_sto (bus d)) (eb_aa (bus d)) (eb_dat (bus d)) (eb_ptr (bus d)) ∨
       (i2_tick d).1 = false ∧ bus (i2_tick d).2 = bus d ∧ (lag (i2_tick d).2 < lag d)%nat
    | _ => (i2_tick d).1 = false ∧ bus (i2_tick d).2 = bus d
    end }.

Section Bus.
Context {D : Type} {DV : I2cDev D} {m : slave} {w : nat} {DL : I2cLaws D m w}.
Implicit Types (s : i2c D).

(** ** Steps *)

Lemma i2_rd_runs r s v (Q : Z → i2c D → Prop) :
  bus_read r (bus (i2_dev s)) = Some v → (∀ d, bus d = bus (i2_dev s) → Q v (with_i2dev d s)) → runs (i2_rd r) s Q.
Proof.
  intros Hv HQ. unfold runs, i2_rd. destruct (i2_read_law r (i2_dev s)) as (E1 & _ & E2). specialize (E2 v Hv).
  destruct (i2_read r (i2_dev s)) as [v' d]. cbn in E1, E2. subst v'. by apply HQ.
Qed.
Lemma i2_rd_any r s (Q : Z → i2c D → Prop) : (∀ v d, bus d = bus (i2_dev s) → Q v (with_i2dev d s)) → runs (i2_rd r) s Q.
Proof.
  intros HQ. unfold runs, i2_rd. destruct (i2_read_law r (i2_dev s)) as (E1 & _). destruct (i2_read r (i2_dev s)) as [v d]. by apply HQ.
Qed.
Lemma i2_wr_runs r v s (Q : unit → i2c D → Prop) :
  (∀ d, bus d = bus_write m r v (bus (i2_dev s)) → Q tt (with_i2dev d s)) → runs (i2_wr r v) s Q.
Proof. intros HQ. unfold runs, i2_wr, modify. apply HQ, i2_write_law. Qed.
Lemma i2_gets_runs {X} (f : i2c D → X) s (Q : X → i2c D → Prop) : Q (f s) s → runs (gets f) s Q.
Proof. done. Qed.
Lemma i2_modify_runs f s (Q : unit → i2c D → Prop) : Q tt (f s) → runs (modify f) s Q.
Proof. done. Qed.
Lemma iret_runs {X} (x : X) s (Q : X → i2c D → Prop) : Q x s → runs (mret x) s Q.
Proof. done. Qed.

(** ** Waiting for a transaction *)

(** The bus after its interrupt was raised. *)
Definition raised (st : Z) (b : ebus) : ebus := Ebus (PInt st) (eb_sta b) (eb_sto b) (eb_aa b) (eb_dat b) (eb_ptr b).

(** A transaction in stages, one interrupt each. *)
Record staged (stage : nat → i2c D → Prop) : Prop := {
  sg_end s : stage 0%nat s → I2CDone s = 1;
  sg_done k s : stage (S k) s → I2CDone s = 0;
  sg_same k s d : stage (S k) s → bus d = bus (i2_dev s) → stage (S k) (with_i2dev d s);
  sg_step k s : stage (S k) s → ∃ st, eb_phase (bus (i2_dev s)) = PBusy st ∧
    ∀ d, bus d = raised st (bus (i2_dev s)) → runs I2C0_IRQHandler (with_i2dev d s) (λ _ s', stage k s') }.

Definition looks (k : nat) s : nat := match k with O => 1 | S k => k * (w + 1) + lag (i2_dev s) + 2 end.
Lemma wait_runs stage k s n :
  staged stage → stage k s → (looks k s ≤ n)%nat → runs (wait_loop n) s (λ _ s', stage 0%nat s').
Proof.
  intros Hg. revert k s. induction n as [|n IH]; intros k s Hs Hn; [destruct k; cbn in Hn; lia|]. cbn [wait_loop]. apply runs_bind, i2_gets_runs.
  destruct k as [|k]; [by rewrite (sg_end _ Hg s Hs)|]. rewrite (sg_done _ Hg k s Hs). cbn [Z.eqb]. cbn [looks] in Hn.
  destruct (sg_step _ Hg k s Hs) as (st & Hp & Hh). pose proof (i2_tick_law (i2_dev s)) as Ht. rewrite Hp in Ht.
  apply runs_bind. unfold i2_pass. apply runs_bind. unfold runs at 1. destruct (i2_tick (i2_dev s)) as [irq d]. cbn [fst snd] in Ht. destruct Ht as [[-> Hb]|(-> & Hb & Hl)].
  - eapply runs_mono; [|by apply Hh]. intros [] s' Hs'. apply (IH k s' Hs'). pose proof (i2_lag_law (i2_dev s')). clear Hs Hh Hs'; destruct k as [|j]; cbn [looks]; lia.
  - apply iret_runs. apply (IH (S k)); [by apply (sg_same _ Hg)|]. cbn [looks i2_dev with_i2dev]. lia.
Qed.

(** Nothing to wait for. *)
Lemma wait_idle n s : I2CDone s = 1 → WaitForI2C n s = Ok (1, s).
Proof.
  intros E. assert (wait_loop n s = Ok (tt, s)) as E1 by (destruct n; [done|]; cbn [wait_loop]; rewrite bind_unfold; unfold gets; by rewrite E).
  unfold WaitForI2C. rewrite (bind_ok _ _ _ _ _ E1), bind_unfold. unfold gets. by rewrite E.
Qed.
Lemma wait_done stage k s n (Q : Z → i2c D → Prop) :
  staged stage → stage k s → (looks k s ≤ n)%nat → (∀ s', stage 0%nat s' → Q 1 s') → runs (WaitForI2C n) s Q.
Proof.
  intros Hg Hs Hn HQ. apply runs_bind. eapply runs_mono; [|by apply (wait_runs stage k)]. intros [] s' Hs'. apply runs_bind, i2_gets_runs.
  rewrite (sg_end _ Hg s' Hs'). by apply iret_runs, HQ.
Qed.

(** ** Reading *)

Section Reading.
Context (sl reg : Z) (len : nat) (Hsl : 0 ≤ sl < 256) (Hreg : 0 ≤ reg < 256) (Hlen : (0 < len)%nat) (Hlen32 : Z.of_nat len < 2 ^ 32).

Definition octets_from (n : nat) : list Z := map (λ j, u8 (sl_octets m ((reg + Z.of_nat j) mod 256))) (seq 0 n).

Record asked (i : nat) s : Prop := {
  as_mode : I2CMode s = 1;
  as_done : I2CDone s = 0;
  as_slave : I2CSlave s = Z.land sl 0xFE;
  as_reg : I2CRegister s = reg;
  as_static : I2CStatic s = false;
  as_len : I2CLen s = Z.of_nat len;
  as_index : I2CIndex s = Z.of_nat i;
  as_array : length (I2CArray s) = len;
  as_octets : take i (I2CArray s) = octets_from i }.

Inductive rstage : nat → i2c D → Prop :=
  | rs_start s a dat ptr : asked 0 s → bus (i2_dev s) = Ebus (PBusy 0x08) true false a dat ptr → rstage (len + 5) s
  | rs_slave s a ptr : asked 0 s → bus (i2_dev s) = Ebus (PBusy 0x18) false false a (Z.land sl 0xFE) ptr → rstage (len + 4) s
  | rs_reg s a : asked 0 s → bus (i2_dev s) = Ebus (PBusy 0x28) false false a reg reg → rstage (len + 3) s
  | rs_again s a : asked 0 s → bus (i2_dev s) = Ebus (PBusy 0x10) true false a reg reg → rstage (len + 2) s
  | rs_read s a dat : asked 0 s → bus (i2_dev s) = Ebus (PBusy 0x40) false false a dat reg → rstage (len + 1) s
  | rs_octet s i : asked i s → (i < len)%nat →
      bus (i2_dev s) = Ebus (PBusy (if (i + 1 <? len)%nat then 0x50 else 0x58)) false false (i + 1 <? len)%nat
        (sl_octets m ((reg + Z.of_nat i) mod 256)) ((reg + Z.of_nat i + 1) mod 256) → rstage (len - i) s
  | rs_end s a dat ptr : I2CDone s = 1 → I2CArray s = octets_from len → bus (i2_dev s) = Ebus PIdle false false a dat ptr → rstage 0 s.


Lemma asked_dev i s d : asked i s → asked i (with_i2dev d s).
Proof. by intros []. Qed.

Ltac branch := repeat match goal with
  | |- runs (if ?c then _ else _) _ _ => let v := eval vm_compute in c in (match v with true => idtac | false => idtac end); change c with v; cbv iota
  end.
(** A write, and what the bus makes of it. *)
Ltac write_bus H :=
  let d := fresh "d" in let H' := fresh "H" in
  eapply i2_wr_runs; intros d H'; cbn [i2_dev with_i2dev] in H'; rewrite H in H'; clear H; rename H' into H;
  change I2C_SI with 8 in H; change I2C_AA with 4 in H; change I2C_STA with 32 in H; change I2C_STO with 16 in H; change (Z.lor 8 32) with 40 in H;
  cbn -[Z.land Z.lor Z.modulo octets_from] in H.

Lemma take_octet_runs i s :
  asked i s → (i < len)%nat → eb_dat (bus (i2_dev s)) = sl_octets m ((reg + Z.of_nat i) mod 256) →
  runs take_octet s (λ _ s', asked (i + 1) s' ∧ bus (i2_dev s') = bus (i2_dev s)).
Proof.
  intros [E1 E2 E3 E4 E5 E6 E7 E8 E9] Hi Ed. unfold take_octet. apply runs_bind, i2_gets_runs, runs_bind. eapply i2_rd_runs; [cbn; rewrite Ed; reflexivity|]. intros d Hd.
  apply runs_bind, i2_modify_runs. unfold runs, data_set. cbn [I2CStatic I2CArray I2CIndex with_index with_i2dev]. rewrite E5, E7, E8.
  rewrite (proj2 (Z.leb_le 0 (Z.of_nat i))), (proj2 (Z.ltb_lt (Z.of_nat i) (Z.of_nat len))) by lia. cbn [andb]. split; [|done].
  split; cbn [I2CMode I2CDone I2CSlave I2CRegister I2CStatic I2CArray I2CLen I2CIndex with_octets with_index with_i2dev]; try done.
  - unfold u32. rewrite Z.mod_small; lia.
  - by rewrite length_insert.
  - rewrite Nat2Z.id, Nat.add_1_r. rewrite (take_S_r _ i (u8 (sl_octets m ((reg + Z.of_nat i) mod 256)))) by (apply list_lookup_insert_eq; lia).
    rewrite take_insert_ge, E9 by lia. unfold octets_from. by rewrite seq_S, map_app.
Qed.

Lemma rstage_step k s st d :
  answers m (Z.land sl 0xFE) = true → rstage (S k) s → eb_phase (bus (i2_dev s)) = PBusy st → bus d = raised st (bus (i2_dev s)) →
  runs I2C0_IRQHandler (with_i2dev d s) (λ _ s', rstage k s').
Proof.
  intros Hans Hs Hp Hd. remember (S k) as k1 eqn:Ek.
  destruct Hs as [s a dat ptr Ha Hb|s a ptr Ha Hb|s a Ha Hb|s a Ha Hb|s a dat Ha Hb|s i Ha Hi Hb|s a dat ptr Hd1 Ha Hb]; [..|done];
    rewrite Hb in Hd, Hp; injection Hp as <-; unfold I2C0_IRQHandler; apply runs_bind;
    (eapply i2_rd_runs; [cbn [i2_dev with_i2dev]; rewrite Hd; reflexivity|]); intros d1 Hd1; cbn [i2_dev with_i2dev] in Hd1; rewrite Hd in Hd1; clear Hd Hb;
    apply runs_bind, i2_gets_runs, runs_bind, i2_gets_runs; cbn [raised eb_phase eb_sta eb_sto eb_aa eb_dat eb_ptr] in Hd1 |- *;
    cbn [with_i2dev I2CSlave I2CMode I2CDone I2CRegister I2CStatic I2CDataValue I2CArray I2CLen I2CIndex];
    pose proof (as_slave _ _ Ha) as Esl; pose proof (as_mode _ _ Ha) as Emo; rewrite ?Esl, ?Emo; branch.
  - apply runs_bind. write_bus Hd1. write_bus Hd1. rewrite Hans in Hd1. replace k with (len + 4)%nat by lia. eapply rs_slave; [by apply asked_dev, asked_dev, asked_dev, asked_dev|exact Hd1].
  - apply runs_bind, i2_gets_runs, runs_bind. cbn [with_i2dev I2CRegister]. rewrite (as_reg _ _ Ha). write_bus Hd1. write_bus Hd1. replace k with (len + 3)%nat by lia.
    eapply rs_reg; [by apply asked_dev, asked_dev, asked_dev, asked_dev|exact Hd1].
  - apply runs_bind. write_bus Hd1. write_bus Hd1. replace k with (len + 2)%nat by lia. eapply rs_again; [by apply asked_dev, asked_dev, asked_dev, asked_dev|exact Hd1].
  - apply runs_bind. write_bus Hd1. write_bus Hd1.
    rewrite Z.land_lor_distr_l, <-Z.land_assoc in Hd1. change (Z.land 254 254) with 254 in Hd1. change (Z.land RD_BIT 254) with 0 in Hd1. rewrite Z.lor_0_r, Hans in Hd1.
    replace k with (len + 1)%nat by lia. eapply rs_read; [by apply asked_dev, asked_dev, asked_dev, asked_dev|exact Hd1].
  - apply runs_bind, i2_gets_runs, runs_bind. cbn [with_i2dev I2CLen]. rewrite (as_len _ _ Ha).
    replace k with (len - 0)%nat by lia. destruct (Z.ltb_spec 1 (Z.of_nat len)) as [Hl|Hl].
    + write_bus Hd1. write_bus Hd1. eapply (rs_octet _ 0); [by apply asked_dev, asked_dev, asked_dev, asked_dev|done|].
      rewrite (proj2 (Nat.ltb_lt (0 + 1) len)) by lia. cbn [i2_dev with_i2dev]. rewrite Z.add_0_r, (Z.mod_small reg) by lia. rewrite orb_true_r in Hd1. exact Hd1.
    + write_bus Hd1. write_bus Hd1. eapply (rs_octet _ 0); [by apply asked_dev, asked_dev, asked_dev, asked_dev|done|].
      rewrite (proj2 (Nat.ltb_ge (0 + 1) len)) by lia. cbn [i2_dev with_i2dev]. rewrite Z.add_0_r, (Z.mod_small reg) by lia. rewrite andb_false_r in Hd1. exact Hd1.
  - change (with_i2dev d1 (with_i2dev d s)) with (with_i2dev d1 s). pose proof (asked_dev i s d1 Ha) as Ha1. set (s1 := with_i2dev d1 s) in *.
    assert (runs take_octet s1 (λ _ s', asked (i + 1) s' ∧ bus (i2_dev s') = bus d1)) as Htk by (apply take_octet_runs; [done|done|cbn; by rewrite Hd1]).
    destruct (Nat.ltb_spec (i + 1) len) as [Hl|Hl]; branch; apply runs_bind; (eapply runs_mono; [|exact Htk]); intros [] s2 [Ha2 Hb2]; rewrite Hd1 in Hb2.
    + apply runs_bind, i2_gets_runs, runs_bind, i2_gets_runs, runs_bind. rewrite (as_index _ _ Ha2), (as_len _ _ Ha2). replace k with (len - (i + 1))%nat by lia.
      replace (u32 (Z.of_nat (i + 1) + 1)) with (Z.of_nat (i + 1 + 1)) by (unfold u32; rewrite Z.mod_small; lia).
      destruct (Z.ltb_spec (Z.of_nat (i + 1 + 1)) (Z.of_nat len)) as [Hl2|Hl2]; write_bus Hb2; write_bus Hb2;
        (eapply (rs_octet _ (i + 1)); [by apply asked_dev, asked_dev|done|]); cbn [i2_dev with_i2dev]; rewrite Hb2.
      * rewrite (proj2 (Nat.ltb_lt (i + 1 + 1) len)) by lia. rewrite Zplus_mod_idemp_l. do 3 f_equal; lia.
      * rewrite (proj2 (Nat.ltb_ge (i + 1 + 1) len)) by lia. rewrite Zplus_mod_idemp_l. do 3 f_equal; lia.
    + unfold i2_stop. apply runs_bind. write_bus Hb2. apply runs_bind. write_bus Hb2. apply i2_modify_runs. replace k with 0%nat by lia.
      eapply rs_end; [done| |exact Hb2]. cbn. pose proof (as_octets _ _ Ha2) as Eo. rewrite take_ge in Eo by (rewrite (as_array _ _ Ha2); lia). rewrite Eo. f_equal. lia.
Qed.

Lemma rstage_end s : rstage 0 s → I2CArray s = octets_from len.
Proof. intros Hs. remember 0%nat as k eqn:Ek. destruct Hs; try lia; done. Qed.
Lemma rstage_staged : answers m (Z.land sl 0xFE) = true → staged rstage.
Proof.
  intros Hans. split.
  - intros s Hs. remember 0%nat as k eqn:Ek. destruct Hs as [| | | | | |]; try lia; done.
  - intros k s Hs. remember (S k) as j eqn:Ek. destruct Hs; try lia; by eapply as_done.
  - intros k s d Hs Hd. remember (S k) as j eqn:Ek. destruct Hs as [s a dat ptr Ha Hb|s a ptr Ha Hb|s a Ha Hb|s a Ha Hb|s a dat Ha Hb|s i Ha Hi Hb|]; try lia; rewrite <-Hd in Hb;
      [eapply rs_start|eapply rs_slave|eapply rs_reg|eapply rs_again|eapply rs_read|eapply rs_octet]; try (by apply asked_dev); done.
  - intros k s Hs. assert (∃ st, eb_phase (bus (i2_dev s)) = PBusy st) as [st Hst].
    { remember (S k) as j eqn:Ek. destruct Hs as [s a dat ptr Ha Hb|s a ptr Ha Hb|s a Ha Hb|s a Ha Hb|s a dat Ha Hb|s i Ha Hi Hb|]; try lia; rewrite Hb; by eexists. }
    exists st. split; [done|]. intros d Hd. by eapply rstage_step.
Qed.

(** Nobody answers. *)
Inductive mstage (macaddr : list Z) : nat → i2c D → Prop :=
  | ms_start s a dat ptr : asked 0 s → I2CArray s = macaddr → bus (i2_dev s) = Ebus (PBusy 0x08) true false a dat ptr → mstage macaddr 2 s
  | ms_slave s a dat ptr : asked 0 s → I2CArray s = macaddr → bus (i2_dev s) = Ebus (PBusy 0x20) false false a dat ptr → mstage macaddr 1 s
  | ms_end s : I2CDone s = 1 → I2CArray s = macaddr → mstage macaddr 0 s.
Lemma mstage_staged macaddr : answers m (Z.land sl 0xFE) = false → staged (mstage macaddr).
Proof.
  intros Hans. split.
  - intros s Hs. by inversion Hs.
  - intros k s Hs. inversion Hs; subst; by eapply as_done.
  - intros k s d Hs Hd. inversion Hs as [s' a dat ptr Ha Hm Hb|s' a dat ptr Ha Hm Hb|]; subst; rewrite <-Hd in Hb; [eapply ms_start|eapply ms_slave]; try (by apply asked_dev); done.
  - intros k s Hs. inversion Hs as [s' a dat ptr Ha Hm Hb|s' a dat ptr Ha Hm Hb|]; subst; rewrite Hb; (eexists; split; [reflexivity|]); intros d Hd;
      unfold I2C0_IRQHandler; apply runs_bind; (eapply i2_rd_runs; [cbn [i2_dev with_i2dev]; rewrite Hd; reflexivity|]); intros d1 Hd1; cbn [i2_dev with_i2dev] in Hd1; rewrite Hd in Hd1;
      apply runs_bind, i2_gets_runs, runs_bind, i2_gets_runs; cbn [raised eb_phase eb_sta eb_sto eb_aa eb_dat eb_ptr] in Hd1 |- *;
      cbn [with_i2dev I2CSlave]; rewrite ?(as_slave _ _ Ha); branch.
    + apply runs_bind. write_bus Hd1. write_bus Hd1. rewrite Hans in Hd1. eapply ms_slave; [by apply asked_dev, asked_dev, asked_dev, asked_dev|done|exact Hd1].
    + unfold i2_stop. apply runs_bind. write_bus Hd1. apply runs_bind. write_bus Hd1. apply i2_modify_runs. by apply ms_end.
Qed.

(** The request. *)
Lemma read_block_runs n s (l : list Z) a dat ptr (Q : unit → i2c D → Prop) :
  I2CDone s = 1 → length l = len → bus (i2_dev s) = Ebus PIdle false false a dat ptr →
  (∀ s', asked 0 s' → I2CArray s' = l → bus (i2_dev s') = Ebus (PBusy 0x08) true false a dat ptr → Q tt s') →
  runs (ReadI2CBlock n sl reg l (Z.of_nat len)) s Q.
Proof.
  intros Hd Hl Hb HQ. unfold ReadI2CBlock. apply runs_bind. unfold runs at 1. rewrite (wait_idle n s Hd). apply runs_bind, i2_modify_runs, runs_bind, i2_modify_runs.
  eapply i2_wr_runs. intros d Hbd. cbn [i2_dev with_transfer with_request] in Hbd. rewrite Hb in Hbd. change I2C_STA with 32 in Hbd. cbn in Hbd.
  rewrite orb_false_r in Hbd. by apply HQ.
Qed.
End Reading.

(** ** The station address *)

(** Registers outside of the bus. *)
Lemma i2_or_runs r v s (Q : unit → i2c D → Prop) :
  (∀ b x, bus_write m r x b = b) → (∀ d, bus d = bus (i2_dev s) → Q tt (with_i2dev d s)) → runs (i2_or r v) s Q.
Proof.
  intros Hr HQ. apply runs_bind, i2_rd_any. intros x d Hd. apply i2_wr_runs. intros d2 Hd2. cbn in Hd2. rewrite Hr, Hd in Hd2. by apply HQ.
Qed.
Lemma i2_and_runs r v s (Q : unit → i2c D → Prop) :
  (∀ b x, bus_write m r x b = b) → (∀ d, bus d = bus (i2_dev s) → Q tt (with_i2dev d s)) → runs (i2_and r v) s Q.
Proof.
  intros Hr HQ. apply runs_bind, i2_rd_any. intros x d Hd. apply i2_wr_runs. intros d2 Hd2. cbn in Hd2. rewrite Hr, Hd in Hd2. by apply HQ.
Qed.

Lemma init_runs s b0 a dat ptr (Q : Z → i2c D → Prop) :
  bus (i2_dev s) = Ebus PIdle b0 false a dat ptr →
  (∀ s', I2CDone s' = 1 → bus (i2_dev s') = Ebus PIdle false false false dat ptr → Q 1 s') → runs InitI2C s Q.
Proof.
  intros Hb HQ. unfold InitI2C. apply runs_bind, i2_modify_runs, runs_bind, i2_or_runs; [done|]. intros d1 H1. apply runs_bind, i2_and_runs; [done|]. intros d2 H2.
  apply runs_bind, i2_or_runs; [done|]. intros d3 H3. apply runs_bind, i2_and_runs; [done|]. intros d4 H4. cbn [i2_dev with_i2dev with_done] in *.
  rewrite H3, H2, H1, Hb in H4. clear H1 H2 H3. apply runs_bind, i2_wr_runs. intros d5 H5. cbn [i2_dev with_i2dev] in H5. rewrite H4 in H5. cbn in H5. rewrite !andb_false_r in H5.
  apply runs_bind, i2_wr_runs. intros d6 H6. apply runs_bind, i2_wr_runs. intros d7 H7. apply runs_bind, i2_wr_runs. intros d8 H8. apply runs_bind, i2_wr_runs. intros d9 H9.
  cbn in H6, H7, H8, H9. rewrite H8, H7, H6, H5 in H9. apply runs_bind, i2_wr_runs. intros d10 H10. cbn [i2_dev with_i2dev] in H10. rewrite H9 in H10. cbn in H10. apply iret_runs. by apply HQ.
Qed.
Lemma shutdown_runs s (Q : Z → i2c D → Prop) : (∀ d, Q 1 (with_i2dev d s)) → runs ShutdownI2C s Q.
Proof.
  intros HQ. unfold ShutdownI2C. apply runs_bind, i2_and_runs; [done|]. intros d1 _. apply runs_bind, i2_and_runs; [done|]. intros d2 _. apply iret_runs, HQ.
Qed.
End Bus.

(** ** What [get_macaddr] reads *)

Section Claims.
Context {D : Type} {DV : I2cDev D} {m : slave} {w : nat} {DL : I2cLaws D m w}.

(** The time allowed for a transaction is enough for [k] interrupts. *)
Lemma time_enough (s : i2c D) k : (k ≤ 11)%nat → Z.of_nat w < 1000000 → (looks (m := m) (w := w) k s ≤ Z.to_nat I2CMAX_TIMEOUT)%nat.
Proof.
  intros Hk Hw. unfold I2CMAX_TIMEOUT. pose proof (i2_lag_law (m := m) (w := w) (i2_dev s)) as Hl. destruct k as [|k]; cbn [looks]; [lia|]. nia.
Qed.

(** Up to the end of the transaction. *)
Lemma get_macaddr_runs macaddr (s : i2c D) b0 a dat ptr stage k (Q : Z → i2c D → Prop) :
  bus (i2_dev s) = Ebus PIdle b0 false a dat ptr → length macaddr = 6%nat → staged (m := m) (w := w) stage → (k ≤ 11)%nat → Z.of_nat w < 1000000 →
  (∀ s', asked (m := m) EEPROM_ADDR MAC_LOCATION 6 0 s' → I2CArray s' = macaddr → bus (i2_dev s') = Ebus (PBusy 0x08) true false false dat ptr → stage k s') →
  (∀ s' d, stage 0%nat s' → Q 1 (with_i2dev d s')) →
  runs (get_macaddr (Z.to_nat I2CMAX_TIMEOUT) macaddr) s Q.
Proof.
  intros Hb Hl Hg Hk Hw Hst HQ. unfold get_macaddr. apply runs_bind, (init_runs s b0 a dat ptr _ Hb). intros s1 Hd1 Hb1.
  apply runs_bind. change 6 with (Z.of_nat 6). eapply (read_block_runs EEPROM_ADDR MAC_LOCATION 6); [done|done|exact Hb1|]. intros s2 Ha2 Hm2 Hb2.
  apply runs_bind. eapply (wait_done stage k); [done|by apply Hst|by apply time_enough|]. intros s3 Hs3. cbn [Z.leb Z.compare].
  apply runs_bind, shutdown_runs. intros d. by apply iret_runs, HQ.
Qed.

Lemma macaddr_runs macaddr (s : i2c D) b0 a dat ptr :
  answers m (Z.land EEPROM_ADDR 0xFE) = true → bus (i2_dev s) = Ebus PIdle b0 false a dat ptr → length macaddr = 6%nat → Z.of_nat w < 1000000 →
  runs (get_macaddr (Z.to_nat I2CMAX_TIMEOUT) macaddr) s (λ r s', r = 1 ∧ I2CArray s' = octets_from (m := m) MAC_LOCATION 6).
Proof.
  intros Hans Hb Hl Hw. eapply (get_macaddr_runs macaddr s b0 a dat ptr (rstage (m := m) EEPROM_ADDR MAC_LOCATION 6) 11 _ Hb Hl).
  - apply rstage_staged; try done; unfold MAC_LOCATION; lia.
  - lia.
  - done.
  - intros s' Ha _ Hs'. by eapply (rs_start EEPROM_ADDR MAC_LOCATION 6 s').
  - intros s' d Hs'. split; [done|]. cbn [I2CArray with_i2dev]. pose proof (rstage_end EEPROM_ADDR MAC_LOCATION 6) as He. apply He; [lia..|exact Hs'].
Qed.

(** C37.  The station address is read.  With the address memory on the bus and
    each step of the bus taking less than a million looks at [I2CDone],
    [get_macaddr] returns 1 and the six octets from 0xFA on are in the array. *)
Theorem address_read macaddr (s : i2c D) b0 a dat ptr :
  answers m (Z.land EEPROM_ADDR 0xFE) = true → bus (i2_dev s) = Ebus PIdle b0 false a dat ptr → length macaddr = 6%nat → Z.of_nat w < 1000000 →
  ∃ s', get_macaddr (Z.to_nat I2CMAX_TIMEOUT) macaddr s = Ok (1, s') ∧
    I2CArray s' = map (λ j, u8 (sl_octets m (MAC_LOCATION + j))) [0; 1; 2; 3; 4; 5].
Proof.
  intros Hans Hb Hl Hw. pose proof (macaddr_runs macaddr s b0 a dat ptr Hans Hb Hl Hw) as Hrun.
  unfold runs in Hrun. destruct (get_macaddr (Z.to_nat I2CMAX_TIMEOUT) macaddr s) as [[r s']| |]; [|done|done]. destruct Hrun as [-> Ha]. exists s'. split; [done|].
  rewrite Ha. reflexivity.
Qed.

(** C38.  A missing address memory is not noticed.  If nobody answers to the
    address, the transaction ends, [get_macaddr] returns 1 as it does
    after reading, and the array is as it was. *)
Theorem address_missing macaddr (s : i2c D) b0 a dat ptr :
  answers m (Z.land EEPROM_ADDR 0xFE) = false → bus (i2_dev s) = Ebus PIdle b0 false a dat ptr → length macaddr = 6%nat → Z.of_nat w < 1000000 →
  ∃ s', get_macaddr (Z.to_nat I2CMAX_TIMEOUT) macaddr s = Ok (1, s') ∧ I2CArray s' = macaddr.
Proof.
  intros Hans Hb Hl Hw. assert (runs (get_macaddr (Z.to_nat I2CMAX_TIMEOUT) macaddr) s (λ r s', r = 1 ∧ I2CArray s' = macaddr)) as Hrun.
  { eapply (get_macaddr_runs macaddr s b0 a dat ptr (mstage (m := m) EEPROM_ADDR MAC_LOCATION 6 macaddr) 2 _ Hb Hl).
    - by apply mstage_staged.
    - lia.
    - done.
    - intros s' Ha Hm Hs'. by eapply ms_start.
    - intros s' d Hs'. split; [done|]. cbn. by inversion Hs'. }
  unfold runs in Hrun. destruct (get_macaddr (Z.to_nat I2CMAX_TIMEOUT) macaddr s) as [[r s']| |]; [|done|done]. destruct Hrun as [-> Ha]. by exists s'.
Qed.
End Claims.

(** ** A bus without delay *)

Definition prompt_bus (m : slave) : I2cDev ebus := {|
  i2_read r b := (default 0 (bus_read r b), b);
  i2_write := bus_write m;
  i2_tick b := match eb_phase b with PBusy st => (true, raised st b) | _ => (false, b) end |}.
Lemma prompt_laws (m : slave) : @I2cLaws ebus (prompt_bus m) m 0.
Proof.
  unshelve refine (@Build_I2cLaws ebus (prompt_bus m) m 0 (λ b, b) (λ _, 0%nat) _ _ _ _).
  - intros r d. split; [done|]. split; [done|]. intros v Hv. cbn. by rewrite Hv.
  - done.
  - intros d. lia.
  - intros d. cbn. destruct (eb_phase d) eqn:E; rewrite ?E; cbn; auto.
Defined.
Definition chip : slave := Slave (Some 0xAE) (λ a, a mod 251).
Definition idle_bus : i2c ebus := I2c 0 1 0 0 true 0 [] 0 0 (Ebus PIdle false false false 0 0).

Lemma address_read_witness :
  ∃ s', @get_macaddr ebus (prompt_bus chip) (Z.to_nat I2CMAX_TIMEOUT) [0; 0; 0; 0; 0; 0] idle_bus = Ok (1, s') ∧ I2CArray s' = [250; 0; 1; 2; 3; 4].
Proof.
  exact (@address_read ebus (prompt_bus chip) chip 0 (prompt_laws chip) [0; 0; 0; 0; 0; 0] idle_bus false false 0 0 eq_refl eq_refl eq_refl eq_refl).
Defined.
Lemma address_missing_witness :
  ∃ s', @get_macaddr ebus (prompt_bus (Slave None (λ _, 0))) (Z.to_nat I2CMAX_TIMEOUT) [0; 0; 0; 0; 0; 0] idle_bus = Ok (1, s') ∧ I2CArray s' = [0; 0; 0; 0; 0; 0].
Proof.
  exact (@address_missing ebus (prompt_bus (Slave None (λ _, 0))) (Slave None (λ _, 0)) 0 (prompt_laws _) [0; 0; 0; 0; 0; 0] idle_bus false false 0 0 eq_refl eq_refl eq_refl eq_refl).
Defined.
