(* ===== verification/Phy.v ===== *)
(** * The PHY and the start of the Ethernet interface
    ([src/lwip/netif/lpc_phy_lan8720.c], [low_level_init] and [lpc_enetif_init]
    of [src/lwip/netif/lpc_emac.c])

    The controller and the PHY behind it are the registers of [Emac]; what the
    stack does when the link goes up or down is given. *)

From S2P Require Import Prelude LwipBase IpAddr Heap Memp Pbuf PbufChain PbufLinks PbufData PbufAlloc PbufRefs Netif EthArp Emac I2c.
From Stdlib Require Import ZArith Lia.
From stdpp Require Import base numbers list gmap.
Open Scope Z_scope.

Definition LAN8_BCR_REG : Z := 0x0.
Definition LAN8_BSR_REG : Z := 0x1.
Definition LAN8_PHYSPLCTL_REG : Z := 0x1F.
Definition LAN8_RESET : Z := Z.shiftl 1 15.
Definition LAN8_SPEED_SELECT : Z := Z.shiftl 1 13.
Definition LAN8_AUTONEG : Z := Z.shiftl 1 12.
Definition LAN8_POWER_DOWN : Z := Z.shiftl 1 11.
Definition LAN8_DUPLEX_MODE : Z := Z.shiftl 1 8.
Definition LAN8_LINK_STATUS : Z := Z.shiftl 1 2.
Definition LAN8_SPEEDMASK : Z := Z.shiftl 7 2.
Definition LAN8_SPEED100F : Z := Z.shiftl 6 2.
Definition LAN8_SPEED10F : Z := Z.shiftl 5 2.
Definition LAN8_SPEED100H : Z := Z.shiftl 2 2.
Definition LAN8_SPEED10H : Z := Z.shiftl 1 2.
Definition EMAC_SUPP_SPEED : Z := 0x100.
Definition EMAC_MAC2_FULL_DUP : Z := 0x1.
Definition EMAC_CR_FULL_DUP : Z := 0x400.
Definition EMAC_IPGT_FULL_DUP : Z := Z.land 0x15 0x7F.
Definition EMAC_IPGT_HALF_DUP : Z := Z.land 0x12 0x7F.
Definition NETIF_FLAG_ETHERNET : Z := 0x40.

Record PHY_STATUS_TYPE := PhySts { phy_speed_100mbs : Z; phy_full_duplex : Z; phy_link_active : Z }.
#[export] Instance phy_status_eq : EqDecision PHY_STATUS_TYPE.
Proof. solve_decision. Defined.
(** [phy_sts] is the static word of [lpc_phy_sts_sm]. *)
Record phy := Phy { physts : PHY_STATUS_TYPE; olddphysts : PHY_STATUS_TYPE; phyustate : Z; phy_sts : Z }.

(** The driver, the PHY, the interface, the bus to the address memory, and the rest. *)
Record plink (A D I N : Type) := PLink { pl_eth : eth A D; pl_phy : phy; pl_netif : netif; pl_i2c : i2c I; pl_rest : N }.
Arguments PLink {A D I N} pl_eth pl_phy pl_netif pl_i2c pl_rest.
Arguments pl_eth {A D I N} p.
Arguments pl_phy {A D I N} p.
Arguments pl_netif {A D I N} p.
Arguments pl_i2c {A D I N} p.
Arguments pl_rest {A D I N} p.

(** What the stack does when the link comes up: [dhcp_network_changed], if
    there is a client, and [etharp_gratuitous]. *)
Class LinkEvents (S N : Type) := { has_dhcp : N → bool; dhcp_network_changed : M S unit; announce : M S unit }.

Section Phy.
Context {A D I N : Type} {BA : BufAlloc A} {EM : Emac D} {LY : EnetLayout} {DV : I2cDev I} {LN : LinkEvents (plink A D I N) N}.
Abbreviation LM := (M (plink A D I N)).
Implicit Types (s : plink A D I N).

Definition on_eth {X} (m : M (eth A D) X) : LM X := lift pl_eth (λ e s, PLink e (pl_phy s) (pl_netif s) (pl_i2c s) (pl_rest s)) m.
Definition on_i2c {X} (m : M (i2c I) X) : LM X := lift pl_i2c (λ i s, PLink (pl_eth s) (pl_phy s) (pl_netif s) i (pl_rest s)) m.
Definition set_phy (f : phy → phy) : LM unit := modify (λ s, PLink (pl_eth s) (f (pl_phy s)) (pl_netif s) (pl_i2c s) (pl_rest s)).
Definition set_netif (f : netif → netif) : LM unit := modify (λ s, PLink (pl_eth s) (pl_phy s) (f (pl_netif s)) (pl_i2c s) (pl_rest s)).
Definition with_physts (f : PHY_STATUS_TYPE → PHY_STATUS_TYPE) (p : phy) : phy := Phy (f (physts p)) (olddphysts p) (phyustate p) (phy_sts p).
Definition with_old (f : PHY_STATUS_TYPE → PHY_STATUS_TYPE) (p : phy) : phy := Phy (physts p) (f (olddphysts p)) (phyustate p) (phy_sts p).
Definition with_ustate (v : Z) (p : phy) : phy := Phy (physts p) (olddphysts p) v (phy_sts p).
Definition with_word (v : Z) (p : phy) : phy := Phy (physts p) (olddphysts p) (phyustate p) v.
Definition with_speed (v : Z) (x : PHY_STATUS_TYPE) : PHY_STATUS_TYPE := PhySts v (phy_full_duplex x) (phy_link_active x).
Definition with_duplex (v : Z) (x : PHY_STATUS_TYPE) : PHY_STATUS_TYPE := PhySts (phy_speed_100mbs x) v (phy_link_active x).
Definition with_active (v : Z) (x : PHY_STATUS_TYPE) : PHY_STATUS_TYPE := PhySts (phy_speed_100mbs x) (phy_full_duplex x) v.

(** ** The flag of the interface ([src/lwip/core/netif.c]) *)

Definition with_nflags (v : Z) (n : netif) : netif :=
  Netif (ni_ip_addr n) (ni_netmask n) (ni_gw n) (ni_mtu n) (ni_hwaddr_len n) (ni_hwaddr n) v (ni_name n) (ni_num n).
Definition has_flag (f : Z) (n : netif) : bool := negb (Z.land (ni_flags n) f =? 0).
Definition netif_set_link_up : LM unit :=
  n ← gets pl_netif;
  if negb (has_flag NETIF_FLAG_LINK_UP n) then
    set_netif (λ n, with_nflags (u8 (Z.lor (ni_flags n) NETIF_FLAG_LINK_UP)) n);;
    dhcp ← gets (λ s, has_dhcp (pl_rest s));
    (if dhcp : bool then dhcp_network_changed else mret tt);;
    n ← gets pl_netif;
    if has_flag NETIF_FLAG_UP n then
      if has_flag NETIF_FLAG_ETHARP n then announce else mret tt
    else mret tt
  else mret tt.
Definition netif_set_link_down : LM unit :=
  n ← gets pl_netif;
  if has_flag NETIF_FLAG_LINK_UP n then
    set_netif (λ n, with_nflags (u8 (Z.land (ni_flags n) (unot 8 NETIF_FLAG_LINK_UP))) n)
  else mret tt.

(** ** The status of the link *)

(** Speed and duplex. *)
Definition speed_duplex (sdsts : Z) : Z * Z :=
  let x := Z.land sdsts LAN8_SPEEDMASK in
  if x =? LAN8_SPEED100F then (1, 1)
  else if x =? LAN8_SPEED10F then (0, 1)
  else if x =? LAN8_SPEED100H then (1, 0)
  else if x =? LAN8_SPEED10H then (0, 0)
  else (1, 1).
Definition update_speed : LM bool :=
  p ← gets pl_phy;
  let v := phy_speed_100mbs (physts p) in
  if negb (v =? phy_speed_100mbs (olddphysts p)) then
    (if negb (v =? 0) then on_eth (er_or SUPP EMAC_SUPP_SPEED) else on_eth (er_and SUPP (unot 32 EMAC_SUPP_SPEED)));;
    set_phy (with_old (with_speed v));;
    mret true
  else mret false.
Definition update_duplex : LM bool :=
  p ← gets pl_phy;
  let v := phy_full_duplex (physts p) in
  if negb (v =? phy_full_duplex (olddphysts p)) then
    (if negb (v =? 0) then
       on_eth (er_or MAC2 EMAC_MAC2_FULL_DUP);;
       on_eth (er_or Command EMAC_CR_FULL_DUP);;
       on_eth (er_write IPGT EMAC_IPGT_FULL_DUP)
     else
       on_eth (er_and MAC2 (unot 32 EMAC_MAC2_FULL_DUP));;
       on_eth (er_and Command (unot 32 EMAC_CR_FULL_DUP));;
       on_eth (er_write IPGT EMAC_IPGT_HALF_DUP));;
    set_phy (with_old (with_duplex v));;
    mret true
  else mret false.
Definition update_active : LM bool :=
  p ← gets pl_phy;
  let v := phy_link_active (physts p) in
  if negb (v =? phy_link_active (olddphysts p)) then
    (if negb (v =? 0) then netif_set_link_up else netif_set_link_down);;
    p ← gets pl_phy;
    set_phy (with_old (with_active (phy_link_active (physts p))));;
    mret true
  else mret false.
Definition lpc_update_phy_sts (linksts sdsts : Z) : LM Z :=
  set_phy (with_physts (with_active (if negb (Z.land linksts LAN8_LINK_STATUS =? 0) then 1 else 0)));;
  set_phy (with_physts (with_speed (speed_duplex sdsts).1));;
  set_phy (with_physts (with_duplex (speed_duplex sdsts).2));;
  c1 ← update_speed;
  c2 ← update_duplex;
  c3 ← update_active;
  mret (if c1 || c2 || c3 then 1 else 0).

(** ** Start *)

(** The last word that was read, if the reset ended.  [msDelay] only lets time
    pass. *)
Fixpoint reset_wait (i : nat) (tmp : Z) : LM (option Z) :=
  match i with
  | O => mret None
  | S i =>
     r ← on_eth (lpc_mii_read LAN8_BCR_REG tmp);
     if negb (r.1 =? 0) then mret None
     else if Z.land r.2 (Z.lor LAN8_RESET LAN8_POWER_DOWN) =? 0 then mret (Some r.2)
     else reset_wait i r.2
  end.
(** [tmp1] is what the variable holds before it is read. *)
Definition lpc_phy_init (tmp1 : Z) : LM Z :=
  set_phy (λ p, Phy (physts p) (PhySts 2 2 2) 0 (phy_sts p));;
  r ← on_eth (lpc_mii_write LAN8_BCR_REG LAN8_RESET);
  if negb (r =? 0) then mret ERR_TIMEOUT
  else
    w ← reset_wait 400 2;
    match w with
    | None => mret ERR_TIMEOUT
    | Some _ =>
       let tmp := Z.lor (Z.lor LAN8_AUTONEG LAN8_SPEED_SELECT) LAN8_DUPLEX_MODE in
       on_eth (lpc_mii_write LAN8_BCR_REG tmp);;
       l ← on_eth (lpc_mii_read LAN8_BSR_REG tmp);
       d ← on_eth (lpc_mii_read LAN8_PHYSPLCTL_REG tmp1);
       lpc_update_phy_sts l.2 d.2;;
       mret ERR_OK
    end.

(** ** The status machine *)

Definition lpc_phy_sts_sm : LM Z :=
  u ← gets (λ s, phyustate (pl_phy s));
  if u =? 1 then
    st ← on_eth lpc_mii_read_status;
    (if Z.land st EMAC_MIND_BUSY =? 0 then
       w ← on_eth lpc_mii_read_data;
       set_phy (with_word w);;
       on_eth (lpc_mii_read_noblock LAN8_PHYSPLCTL_REG);;
       set_phy (with_ustate 2)
     else mret tt);;
    mret 0
  else if u =? 2 then
    st ← on_eth lpc_mii_read_status;
    if Z.land st EMAC_MIND_BUSY =? 0 then
      sts ← gets (λ s, phy_sts (pl_phy s));
      w ← on_eth lpc_mii_read_data;
      changed ← lpc_update_phy_sts sts w;
      set_phy (with_ustate 0);;
      mret changed
    else mret 0
  else
    on_eth (lpc_mii_read_noblock LAN8_BSR_REG);;
    set_phy (with_ustate 1);;
    mret 0.

(** ** The interface *)

Definition low_level_init (tmp1 : Z) : LM Z :=
  hw ← gets (λ s, ni_hwaddr (pl_netif s));
  on_eth (er_or PCONP PCENET);;
  on_eth (er_write PINSEL2 ENET_PINSEL2_CONFIG);;
  on_eth (v ← er_read PINSEL3; er_write PINSEL3 (Z.lor (Z.land v (unot 32 ENET_PINSEL3_MASK)) ENET_PINSEL3_CONFIG));;
  on_eth (er_write MAC1 (Z.lor EMAC_MAC1_RES_TX (Z.lor EMAC_MAC1_RES_MCS_TX (Z.lor EMAC_MAC1_RES_RX (Z.lor EMAC_MAC1_RES_MCS_RX
    (Z.lor EMAC_MAC1_SIM_RES EMAC_MAC1_SOFT_RES))))));;
  on_eth (er_write Command (Z.lor EMAC_CR_REG_RES (Z.lor EMAC_CR_TX_RES (Z.lor EMAC_CR_RX_RES EMAC_CR_PASS_RUNT_FRM))));;
  on_eth (er_write MAC1 EMAC_MAC1_PASS_ALL);;
  on_eth (er_write MAC2 (Z.lor EMAC_MAC2_CRC_EN EMAC_MAC2_PAD_EN));;
  on_eth (er_write MAXF EMAC_ETH_MAX_FLEN);;
  on_eth (er_write MCFG (Z.lor (EMAC_MCFG_CLK_SEL 0xF) EMAC_MCFG_RES_MII));;
  on_eth (er_and MCFG (unot 32 EMAC_MCFG_RES_MII));;
  on_eth (er_write CLRT EMAC_CLRT_DEF);;
  on_eth (er_write IPGR (Z.lor EMAC_IPGR_P1_DEF EMAC_IPGR_P2_DEF));;
  on_eth (er_write Command (Z.lor EMAC_CR_PASS_RUNT_FRM EMAC_CR_RMII));;
  err ← lpc_phy_init tmp1;
  if negb (err =? ERR_OK) then mret err
  else
    on_eth (er_write SA2 (Z.lor (hw.[0]) (Z.shiftl (hw.[1]) 8)));;
    on_eth (er_write SA1 (Z.lor (hw.[2]) (Z.shiftl (hw.[3]) 8)));;
    on_eth (er_write SA0 (Z.lor (hw.[4]) (Z.shiftl (hw.[5]) 8)));;
    r ← on_eth lpc_tx_setup;
    if negb (r =? ERR_OK) then mret ERR_BUF
    else
      r ← on_eth lpc_rx_setup;
      if negb (r =? ERR_OK) then mret ERR_BUF
      else
        on_eth (er_write RxFilterCtrl (Z.lor EMAC_RFC_PERFECT_EN EMAC_RFC_BCAST_EN));;
        on_eth (er_write IntClear 0xFFFF);;
        on_eth (er_write IntEnable 0);;
        on_eth (er_or Command (Z.lor EMAC_CR_RX_EN EMAC_CR_TX_EN));;
        on_eth (er_or MAC1 EMAC_MAC1_REC_EN);;
        mret err.

Definition with_hwaddr (l : list Z) (n : netif) : netif :=
  Netif (ni_ip_addr n) (ni_netmask n) (ni_gw n) (ni_mtu n) ETHARP_HWADDR_LEN l (ni_flags n) (ni_name n) (ni_num n).
Definition with_mtu_flags (mtu flags : Z) (n : netif) : netif :=
  Netif (ni_ip_addr n) (ni_netmask n) (ni_gw n) mtu (ni_hwaddr_len n) (ni_hwaddr n) flags (ni_name n) (ni_num n).
Definition with_name (l : list Z) (n : netif) : netif :=
  Netif (ni_ip_addr n) (ni_netmask n) (ni_gw n) (ni_mtu n) (ni_hwaddr_len n) (ni_hwaddr n) (ni_flags n) l (ni_num n).
(** [netif->output] and [netif->linkoutput] are [etharp_output] and
    [lpc_low_level_output] from here on.  [n] is [I2CMAX_TIMEOUT]. *)
Definition lpc_enetif_init (n : nat) (tmp1 : Z) : LM Z :=
  on_eth lpc_net_activity_init;;
  hw ← gets (λ s, ni_hwaddr (pl_netif s));
  on_i2c (get_macaddr n hw);;
  hw ← gets (λ s, I2CArray (pl_i2c s));
  set_netif (with_hwaddr hw);;
  set_netif (with_mtu_flags EMAC_ETH_MAX_FLEN (Z.lor NETIF_FLAG_BROADCAST (Z.lor NETIF_FLAG_ETHARP NETIF_FLAG_ETHERNET)));;
  err ← low_level_init tmp1;
  if negb (err =? ERR_OK) then mret err
  else
    set_netif (with_name [101; 110]);;
    mret ERR_OK.
End Phy.
