(* ===== verification/PhyRuns.v ===== *)
(** * The PHY followed

    The registers of the controller that hold the mode of the link, the words of
    the PHY behind it, and how [lpc_update_phy_sts] and [lpc_phy_sts_sm] bring
    the first into agreement with the second. *)

From S2P Require Import Prelude LwipBase IpAddr Heap Memp Pbuf PbufChain PbufLinks PbufData PbufMake PbufAlloc PbufRefs Netif EthArp EthArpTable Emac EmacSend I2c Phy.
From Stdlib Require Import ZArith Lia.
From stdpp Require Import base numbers gmultiset list gmap.
Open Scope Z_scope.

(** ** The controller and the PHY *)

(** Registers that hold what is written to them. *)
Definition holds (r : ereg) : bool := match r with SUPP | MAC2 | Command | IPGT | MADR => true | _ => false end.
(** Registers that are written once the interface runs. *)
Definition running (r : ereg) : bool := match r with SUPP | MAC2 | Command | IPGT | MADR | MCMD => true | _ => false end.

(** The PHY has the words [word]; [w] bounds how often in a row the
    management interface is found busy. *)
Class PhyLaws (D : Type) {EM : Emac D} (word : Z → Z) (w : nat) := {
  reg : ereg → D → Z;
  asked_reg : D → option Z;
  mlag : D → nat;
  mlag_law d : (mlag d ≤ w)%nat;
  phy_read_law r d : let '(v, d') := emac_read r d in
    (∀ c, holds c = true → reg c d' = reg c d) ∧ asked_reg d' = asked_reg d ∧
    (holds r = true → v = reg r d) ∧ (r = MRDD → ∀ a, asked_reg d = Some a → v = word a) ∧
    (r = MIND → Z.land v EMAC_MIND_BUSY = 0 ∨ (mlag d' < mlag d)%nat);
  phy_write_law r v d : running r = true →
    (∀ c, holds c = true → reg c (emac_write r v d) = if decide (c = r) then v else reg c d) ∧
    asked_reg (emac_write r v d) = if decide (r = MCMD ∧ v = EMAC_MCMD_READ) then Some (Z.land (reg MADR d) 0x1F) else asked_reg d }.

(** What the words mean. *)
Definition link_of (bsr spl : Z) : PHY_STATUS_TYPE :=
  PhySts (speed_duplex spl).1 (speed_duplex spl).2 (if negb (Z.land bsr LAN8_LINK_STATUS =? 0) then 1 else 0).
Definition link_up (n : netif) : bool := has_flag NETIF_FLAG_LINK_UP n.

Lemma set_bit x b : 0 ≤ b < 32 → Z.testbit (u32 (Z.lor x (2 ^ b))) b = true.
Proof.
  intros Hb. unfold u32. rewrite Z.mod_pow2_bits_low, Z.lor_spec by lia. rewrite Z.pow2_bits_true by lia. apply orb_true_r.
Qed.
Lemma clear_bit x b : 0 ≤ b < 32 → Z.testbit (u32 (Z.land x (unot 32 (2 ^ b)))) b = false.
Proof.
  intros Hb. unfold u32, unot. rewrite Z.mod_pow2_bits_low, Z.land_spec, Z.lxor_spec by lia. rewrite Z.pow2_bits_true, Z.ones_spec_low by lia. apply andb_false_r.
Qed.

Section Follow.
Context {A D I N : Type} {BA : BufAlloc A} {EM : Emac D} {LY : EnetLayout} {DV : I2cDev I} {LN : LinkEvents (plink A D I N) N}.
Context {word : Z → Z} {w : nat} {PL : PhyLaws D word w}.
Implicit Types (s : plink A D I N).

Definition dev s : D := et_dev (pl_eth s).
Definition same_mode (d d' : D) : Prop := (∀ c, holds c = true → reg c d' = reg c d) ∧ asked_reg d' = asked_reg d.

(** The events leave the flag, the PHY and the mode alone. *)
Definition stays s s' : Prop := link_up (pl_netif s') = link_up (pl_netif s) ∧ pl_phy s' = pl_phy s ∧ same_mode (dev s) (dev s').
Class EventLaws := {
  dhcp_event_law s : runs dhcp_network_changed s (λ _ s', stays s s');
  announce_law s : runs announce s (λ _ s', stays s s') }.
Context {NL : EventLaws}.

(** ** Steps *)

Definition with_dev' (d : D) s : plink A D I N := PLink (Eth (et_bufs (pl_eth s)) (et_data (pl_eth s)) d) (pl_phy s) (pl_netif s) (pl_i2c s) (pl_rest s).
Definition with_phy (p : phy) s : plink A D I N := PLink (pl_eth s) p (pl_netif s) (pl_i2c s) (pl_rest s).

Lemma read_runs r s (Q : Z → plink A D I N → Prop) :
  (∀ v d, same_mode (dev s) d → (holds r = true → v = reg r (dev s)) → (r = MRDD → ∀ a, asked_reg (dev s) = Some a → v = word a) →
     (r = MIND → Z.land v EMAC_MIND_BUSY = 0 ∨ (mlag d < mlag (dev s))%nat) → Q v (with_dev' d s)) → runs (on_eth (er_read r)) s Q.
Proof.
  intros HQ. unfold runs, on_eth, lift, er_read. pose proof (phy_read_law r (et_dev (pl_eth s))) as Hl. destruct (emac_read r (et_dev (pl_eth s))) as [v d].
  destruct Hl as (H1 & H2 & H3 & H4 & H5). by apply (HQ v d).
Qed.
Lemma write_runs r v s (Q : unit → plink A D I N → Prop) :
  running r = true →
  (∀ d, (∀ c, holds c = true → reg c d = if decide (c = r) then u32 v else reg c (dev s)) →
     asked_reg d = (if decide (r = MCMD ∧ u32 v = EMAC_MCMD_READ) then Some (Z.land (reg MADR (dev s)) 0x1F) else asked_reg (dev s)) → Q tt (with_dev' d s)) →
  runs (on_eth (er_write r v)) s Q.
Proof. intros Hr HQ. unfold runs, on_eth, lift, er_write, modify. destruct (phy_write_law r (u32 v) (et_dev (pl_eth s)) Hr) as [H1 H2]. by apply HQ. Qed.
Lemma set_phy_runs f s (Q : unit → plink A D I N → Prop) : Q tt (with_phy (f (pl_phy s)) s) → runs (set_phy f) s Q.
Proof. done. Qed.
Lemma pgets_runs {X} (f : plink A D I N → X) s (Q : X → plink A D I N → Prop) : Q (f s) s → runs (gets f) s Q.
Proof. done. Qed.
Lemma pret_runs {X} (x : X) s (Q : X → plink A D I N → Prop) : Q x s → runs (mret x) s Q.
Proof. done. Qed.
Lemma on_eth_bind {X Y} (m : M (eth A D) X) (k : X → M (eth A D) Y) s (Q : Y → plink A D I N → Prop) :
  runs (x ← on_eth m; on_eth (k x)) s Q → runs (on_eth (x ← m; k x)) s Q.
Proof.
  unfold runs, on_eth, lift. rewrite !bind_unfold. destruct (m (pl_eth s)) as [[x e]| |]; try done; by destruct (k x e) as [[]| |].
Qed.

Lemma set_netif_runs f s (Q : unit → plink A D I N → Prop) :
  Q tt (PLink (pl_eth s) (pl_phy s) (f (pl_netif s)) (pl_i2c s) (pl_rest s)) → runs (set_netif f) s Q.
Proof. done. Qed.
Lemma flag_set x : (Z.land (u8 (Z.lor x NETIF_FLAG_LINK_UP)) NETIF_FLAG_LINK_UP =? 0) = false.
Proof.
  change NETIF_FLAG_LINK_UP with (Z.shiftl 1 4). rewrite bit_test by lia. unfold u8. rewrite Z.mod_pow2_bits_low, Z.lor_spec by lia. change (Z.testbit (Z.shiftl 1 4) 4) with true. by rewrite orb_true_r.
Qed.
Lemma flag_clear x : (Z.land (u8 (Z.land x (unot 8 NETIF_FLAG_LINK_UP))) NETIF_FLAG_LINK_UP =? 0) = true.
Proof.
  change NETIF_FLAG_LINK_UP with (Z.shiftl 1 4) at 2. rewrite bit_test by lia. unfold u8. rewrite Z.mod_pow2_bits_low, Z.land_spec by lia.
  change (Z.testbit (unot 8 NETIF_FLAG_LINK_UP) 4) with false. by rewrite andb_false_r.
Qed.
Lemma notify_law (b : bool) s :
  runs (if b then netif_set_link_up else netif_set_link_down) s (λ _ s',
    link_up (pl_netif s') = b ∧ pl_phy s' = pl_phy s ∧ same_mode (dev s) (dev s')).
Proof.
  assert (∀ s1, link_up (pl_netif s1) = true → stays s1 s1) as Hrefl by (intros s1 _; by split).
  destruct b; [unfold netif_set_link_up|unfold netif_set_link_down]; apply runs_bind, pgets_runs; fold (link_up (pl_netif s)); destruct (link_up (pl_netif s)) eqn:E; cbn [negb].
  - by apply pret_runs.
  - apply runs_bind, set_netif_runs, runs_bind, pgets_runs. set (s1 := PLink _ _ _ _ _).
    assert (link_up (pl_netif s1) = true) as E1 by (unfold link_up, has_flag; cbn; by rewrite flag_set).
    apply runs_bind. apply (runs_mono _ _ (λ _ s2, stays s1 s2)).
    + intros [] s2 (F2 & P2 & M2). apply runs_bind, pgets_runs. assert (link_up (pl_netif s2) = true ∧ pl_phy s2 = pl_phy s ∧ same_mode (dev s) (dev s2)) as H2 by (by rewrite F2, E1).
      destruct (has_flag NETIF_FLAG_UP (pl_netif s2)), (has_flag NETIF_FLAG_ETHARP (pl_netif s2)); try (by apply pret_runs).
      eapply runs_mono; [|apply announce_law]. intros [] s3 (F3 & P3 & [M3 A3]). destruct H2 as (H2 & H3 & [H4 H5]). rewrite F3, P3. split; [done|]. split; [done|].
      split; [intros c Hc; by rewrite (M3 c Hc), (H4 c Hc)|by rewrite A3].
    + destruct (has_dhcp _); [apply dhcp_event_law|by apply pret_runs, Hrefl].
  - apply set_netif_runs. split; [|done]. unfold link_up, has_flag. cbn. by rewrite flag_clear.
  - by apply pret_runs.
Qed.

(** A register of the mode is changed. *)
Lemma change_runs r (f : Z → Z) s (Q : unit → plink A D I N → Prop) :
  running r = true → holds r = true →
  (∀ d, (∀ c, holds c = true → reg c d = if decide (c = r) then u32 (f (reg r (dev s))) else reg c (dev s)) → asked_reg d = asked_reg (dev s) → Q tt (with_dev' d s)) →
  runs (on_eth (v ← er_read r; er_write r (f v))) s Q.
Proof.
  intros Hr Hh HQ. apply on_eth_bind, runs_bind, read_runs. intros v d [Hm Ha] Hv _ _. rewrite (Hv Hh). apply write_runs; [done|]. intros d2 H1 H2.
  change (with_dev' d2 (with_dev' d s)) with (with_dev' d2 s). apply HQ.
  - intros c Hc. rewrite (H1 c Hc). destruct (decide (c = r)); [done|by apply Hm].
  - rewrite H2. cbn. rewrite decide_False by (intros [-> _]; done). done.
Qed.

(** ** Agreement *)

(** 2 says that nothing is known. *)
Definition bit_ok (o : Z) (b : bool) : Prop := o = 2 ∨ o = Z.b2z b.
Definition duplex_ok (o : Z) (d : D) : Prop :=
  o = 2 ∨ ∃ b, o = Z.b2z b ∧ Z.testbit (reg MAC2 d) 0 = b ∧ Z.testbit (reg Command d) 10 = b ∧
    reg IPGT d = if b then EMAC_IPGT_FULL_DUP else EMAC_IPGT_HALF_DUP.
(** The controller and the interface are as the status says. *)
Record mode_ok (o : PHY_STATUS_TYPE) (d : D) (n : netif) : Prop := {
  mo_speed : bit_ok (phy_speed_100mbs o) (Z.testbit (reg SUPP d) 8);
  mo_duplex : duplex_ok (phy_full_duplex o) d;
  mo_link : bit_ok (phy_link_active o) (link_up n) }.

Lemma mode_ok_same o d d' n : same_mode d d' → mode_ok o d n → mode_ok o d' n.
Proof.
  intros [Hs _] [H1 H2 H3]. split; [by rewrite (Hs SUPP eq_refl)| |done]. destruct H2 as [H2|(b & H2)]; [by left|]. right. exists b.
  by rewrite (Hs MAC2 eq_refl), (Hs Command eq_refl), (Hs IPGT eq_refl).
Qed.

Lemma speed_runs (b : bool) s :
  phy_speed_100mbs (physts (pl_phy s)) = Z.b2z b → bit_ok (phy_speed_100mbs (olddphysts (pl_phy s))) (Z.testbit (reg SUPP (dev s)) 8) →
  runs update_speed s (λ c s', c = negb (Z.b2z b =? phy_speed_100mbs (olddphysts (pl_phy s))) ∧
    ∃ d, s' = with_phy (with_old (with_speed (Z.b2z b)) (pl_phy s)) (with_dev' d s) ∧ Z.testbit (reg SUPP d) 8 = b ∧
      (∀ c, holds c = true → c ≠ SUPP → reg c d = reg c (dev s)) ∧ asked_reg d = asked_reg (dev s)).
Proof.
  intros Hv Hold. unfold update_speed. apply runs_bind, pgets_runs. rewrite Hv. destruct (Z.eqb_spec (Z.b2z b) (phy_speed_100mbs (olddphysts (pl_phy s)))) as [E|E]; cbn [negb].
  - apply pret_runs. split; [done|]. exists (dev s). split; [rewrite E; destruct s as [[? ? ?] [? [] ? ?] ? ? ?]; reflexivity|].
    split; [|done]. destruct Hold as [H2|H2]; rewrite H2 in E; [by destruct b|]. by destruct b, (Z.testbit _ _).
  - apply runs_bind. assert (∀ (Q : unit → plink A D I N → Prop), (∀ d, Z.testbit (reg SUPP d) 8 = b → (∀ c, holds c = true → c ≠ SUPP → reg c d = reg c (dev s)) →
      asked_reg d = asked_reg (dev s) → Q tt (with_dev' d s)) → runs (if negb (Z.b2z b =? 0) then on_eth (er_or SUPP EMAC_SUPP_SPEED) else on_eth (er_and SUPP (unot 32 EMAC_SUPP_SPEED))) s Q) as Hw.
    { intros Q HQ. destruct b; cbn [Z.b2z Z.eqb negb]; (apply change_runs; [done|done|]); intros d Hd Ha; apply HQ; try done;
        try (intros c Hc Hne; rewrite (Hd c Hc); by destruct (decide (c = SUPP))); rewrite (Hd SUPP eq_refl), decide_True by done.
      - apply (set_bit _ 8). lia.
      - apply (clear_bit _ 8). lia. }
    apply Hw. intros d H1 H2 H3. apply runs_bind, set_phy_runs, pret_runs. split; [done|]. by exists d.
Qed.

Lemma duplex_write_runs (b : bool) s (Q : unit → plink A D I N → Prop) :
  (∀ d, duplex_ok (Z.b2z b) d → reg SUPP d = reg SUPP (dev s) → asked_reg d = asked_reg (dev s) → Q tt (with_dev' d s)) →
  runs (if negb (Z.b2z b =? 0) then
          on_eth (er_or MAC2 EMAC_MAC2_FULL_DUP);; on_eth (er_or Command EMAC_CR_FULL_DUP);; on_eth (er_write IPGT EMAC_IPGT_FULL_DUP)
        else on_eth (er_and MAC2 (unot 32 EMAC_MAC2_FULL_DUP));; on_eth (er_and Command (unot 32 EMAC_CR_FULL_DUP));; on_eth (er_write IPGT EMAC_IPGT_HALF_DUP)) s Q.
Proof.
  intros HQ. destruct b; cbn [Z.b2z Z.eqb negb]; (apply runs_bind, change_runs; [done|done|]); intros d1 H1 A1; (apply runs_bind, change_runs; [done|done|]); intros d2 H2 A2;
    (apply write_runs; [done|]); intros d3 H3 A3; cbn [dev with_dev' pl_eth et_dev] in *; change (dev (with_dev' ?x ?y)) with x in *;
    change (with_dev' d3 _) with (with_dev' d3 s); apply HQ.
  1,4: right; eexists; split; [reflexivity|].
  1,2: rewrite (H3 MAC2 eq_refl), (H3 Command eq_refl), (H3 IPGT eq_refl); cbn; rewrite (H2 MAC2 eq_refl), (H2 Command eq_refl); cbn; rewrite (H1 MAC2 eq_refl); cbn.
  - split; [apply (set_bit _ 0); lia|]. split; [apply (set_bit _ 10); lia|done].
  - split; [apply (clear_bit _ 0); lia|]. split; [apply (clear_bit _ 10); lia|done].
  - rewrite (H3 SUPP eq_refl); cbn. rewrite (H2 SUPP eq_refl); cbn. by rewrite (H1 SUPP eq_refl).
  - by rewrite A3, A2, A1.
  - rewrite (H3 SUPP eq_refl); cbn. rewrite (H2 SUPP eq_refl); cbn. by rewrite (H1 SUPP eq_refl).
  - by rewrite A3, A2, A1.
Qed.
Lemma duplex_runs (b : bool) s :
  phy_full_duplex (physts (pl_phy s)) = Z.b2z b → duplex_ok (phy_full_duplex (olddphysts (pl_phy s))) (dev s) →
  runs update_duplex s (λ c s', c = negb (Z.b2z b =? phy_full_duplex (olddphysts (pl_phy s))) ∧
    ∃ d, s' = with_phy (with_old (with_duplex (Z.b2z b)) (pl_phy s)) (with_dev' d s) ∧ duplex_ok (Z.b2z b) d ∧
      reg SUPP d = reg SUPP (dev s) ∧ asked_reg d = asked_reg (dev s)).
Proof.
  intros Hv Hold. unfold update_duplex. apply runs_bind, pgets_runs. rewrite Hv. destruct (Z.eqb_spec (Z.b2z b) (phy_full_duplex (olddphysts (pl_phy s)))) as [E|E]; cbn [negb].
  - apply pret_runs. split; [done|]. exists (dev s). rewrite <-E in Hold. split; [rewrite E; destruct s as [[? ? ?] [? [] ? ?] ? ? ?]; reflexivity|done].
  - apply runs_bind, duplex_write_runs. intros d H1 H2 H3. apply runs_bind, set_phy_runs, pret_runs. split; [done|]. by exists d.
Qed.
Lemma active_runs (b : bool) s :
  phy_link_active (physts (pl_phy s)) = Z.b2z b → bit_ok (phy_link_active (olddphysts (pl_phy s))) (link_up (pl_netif s)) →
  runs update_active s (λ c s', c = negb (Z.b2z b =? phy_link_active (olddphysts (pl_phy s))) ∧
    pl_phy s' = with_old (with_active (Z.b2z b)) (pl_phy s) ∧ link_up (pl_netif s') = b ∧ same_mode (dev s) (dev s')).
Proof.
  intros Hv Hold. unfold update_active. apply runs_bind, pgets_runs. rewrite Hv. destruct (Z.eqb_spec (Z.b2z b) (phy_link_active (olddphysts (pl_phy s)))) as [E|E]; cbn [negb].
  - apply pret_runs. split; [done|]. split; [rewrite E; by destruct (pl_phy s) as [? [] ? ?]|]. split; [|done].
    destruct Hold as [H2|H2]; rewrite H2 in E; [by destruct b|]. by destruct b, (link_up _).
  - apply runs_bind. replace (if negb (Z.b2z b =? 0) then _ else _) with (if b then netif_set_link_up else netif_set_link_down : M (plink A D I N) unit) by by destruct b.
    eapply runs_mono; [|apply (notify_law b s)]. intros [] s1 (H1 & H2 & H3). apply runs_bind, pgets_runs, runs_bind, set_phy_runs, pret_runs.
    split; [done|]. cbn. rewrite H2, Hv. done.
Qed.

Lemma speed_duplex_bits spl : ∃ b c, speed_duplex spl = (Z.b2z b, Z.b2z c).
Proof. unfold speed_duplex. repeat case_match; first [by exists true, true|by exists false, true|by exists true, false|by exists false, false]. Qed.

Lemma phy_update_runs bsr spl s :
  mode_ok (olddphysts (pl_phy s)) (dev s) (pl_netif s) →
  runs (lpc_update_phy_sts bsr spl) s (λ c s',
    c = (if decide (link_of bsr spl = olddphysts (pl_phy s)) then 0 else 1) ∧
    pl_phy s' = Phy (link_of bsr spl) (link_of bsr spl) (phyustate (pl_phy s)) (phy_sts (pl_phy s)) ∧
    mode_ok (link_of bsr spl) (dev s') (pl_netif s') ∧ asked_reg (dev s') = asked_reg (dev s)).
Proof.
  intros [O1 O2 O3]. destruct (speed_duplex_bits spl) as (b & c & E). set (l := negb (Z.land bsr LAN8_LINK_STATUS =? 0)).
  assert (link_of bsr spl = PhySts (Z.b2z b) (Z.b2z c) (Z.b2z l)) as El by (unfold link_of; rewrite E; cbn; fold l; by destruct l).
  unfold lpc_update_phy_sts. apply runs_bind, set_phy_runs, runs_bind, set_phy_runs, runs_bind, set_phy_runs. rewrite E. cbn [fst snd]. fold l.
  apply runs_bind. eapply runs_mono; [|by apply (speed_runs b)]. intros c1 s1 (-> & d1 & -> & B1 & R1 & A1).
  apply runs_bind. eapply runs_mono; [|apply (duplex_runs c); [done|]].
  2:{ cbn. destruct O2 as [O2|(x & O2)]; [by left|]. right. exists x. rewrite (R1 MAC2), (R1 Command), (R1 IPGT) by done. done. }
  intros c2 s2 (-> & d2 & -> & B2 & R2 & A2). apply runs_bind. eapply runs_mono; [|apply (active_runs l); [by destruct l|done]].
  intros c3 s3 (-> & P3 & L3 & S3). apply pret_runs. cbn in P3, S3, R2, A2, B2 |- *. rewrite El. split; [|split; [|split]].
  - destruct (olddphysts (pl_phy s)) as [x y z]. cbn.
    destruct (Z.eqb_spec (Z.b2z b) x), (Z.eqb_spec (Z.b2z c) y), (Z.eqb_spec (Z.b2z l) z); cbn; case_decide; congruence.
  - rewrite P3. by destruct l.
  - apply (mode_ok_same _ d2); [done|]. split; cbn [phy_speed_100mbs phy_full_duplex phy_link_active]; [right; by rewrite R2, B1|done|right; by rewrite L3].
  - destruct S3 as [_ ->]. by rewrite A2, A1.
Qed.

(** ** The status machine *)

Lemma noblock_runs a s (Q : unit → plink A D I N → Prop) :
  0 ≤ a < 32 → (∀ d, (∀ c, holds c = true → c ≠ MADR → reg c d = reg c (dev s)) → asked_reg d = Some a → Q tt (with_dev' d s)) →
  runs (on_eth (lpc_mii_read_noblock a)) s Q.
Proof.
  intros Ha HQ. unfold lpc_mii_read_noblock. apply on_eth_bind, runs_bind, write_runs; [done|]. intros d1 H1 _. apply write_runs; [done|]. intros d2 H2 A2.
  change (with_dev' d2 (with_dev' d1 s)) with (with_dev' d2 s). change (dev (with_dev' d1 s)) with d1 in *. apply HQ.
  - intros c Hc Hne. rewrite (H2 c Hc), (H1 c Hc). rewrite (decide_False (P := c = MADR)) by done. by destruct (decide (c = MCMD)) as [->|].
  - rewrite A2, (H1 MADR eq_refl). rewrite decide_True, decide_True by done. f_equal. unfold u32.
    change 0x1F with (Z.ones 5). rewrite Z.land_ones by lia. rewrite Z.mod_mod_divide by (by exists (2 ^ 27)).
    change (Z.shiftl LPC_PHYDEF_PHYADDR 8) with 256. rewrite <-Z.land_ones, Z.land_lor_distr_l by lia. change (Z.land 256 (Z.ones 5)) with 0.
    rewrite Z.lor_0_l, Z.land_ones by lia. apply Z.mod_small. lia.
Qed.

Definition settled s : Prop :=
  physts (pl_phy s) = link_of (word LAN8_BSR_REG) (word LAN8_PHYSPLCTL_REG) ∧ olddphysts (pl_phy s) = physts (pl_phy s).

(** How many more calls it may take. *)
Inductive sm : nat → plink A D I N → Prop :=
  | sm_start s : phyustate (pl_phy s) = 0 → sm (2 * (w + 1) + 1) s
  | sm_link s : phyustate (pl_phy s) = 1 → asked_reg (dev s) = Some LAN8_BSR_REG → sm (mlag (dev s) + 1 + (w + 1)) s
  | sm_mode s : phyustate (pl_phy s) = 2 → asked_reg (dev s) = Some LAN8_PHYSPLCTL_REG → phy_sts (pl_phy s) = word LAN8_BSR_REG → sm (mlag (dev s) + 1) s.

Lemma mode_ok_madr o d d' n : (∀ c, holds c = true → c ≠ MADR → reg c d' = reg c d) → mode_ok o d n → mode_ok o d' n.
Proof.
  intros Hs [H1 H2 H3]. split; [by rewrite (Hs SUPP)| |done]. destruct H2 as [H2|(b & H2)]; [by left|]. right. exists b. by rewrite (Hs MAC2), (Hs Command), (Hs IPGT).
Qed.

(** What was asked for is there, or it comes later. *)
Lemma status_runs a s (Q : Z → plink A D I N → Prop) :
  asked_reg (dev s) = Some a →
  (∀ v d, same_mode (dev s) d → Z.land v EMAC_MIND_BUSY = 0 ∨ Z.land v EMAC_MIND_BUSY ≠ 0 ∧ (mlag d < mlag (dev s))%nat → Q v (with_dev' d s)) →
  runs (on_eth lpc_mii_read_status) s Q.
Proof.
  intros Ha HQ. apply read_runs. intros v d Hm _ _ Hv. apply HQ; [done|]. destruct (Hv eq_refl) as [?|?]; [by left|]. destruct (decide (Z.land v EMAC_MIND_BUSY = 0)); auto.
Qed.
Lemma asked_same a s d : same_mode (dev s) d → asked_reg (dev s) = Some a → asked_reg (dev (with_dev' d s)) = Some a.
Proof. intros [_ E] Ha. change (asked_reg d = Some a). by rewrite E. Qed.
Lemma data_runs a s (Q : Z → plink A D I N → Prop) :
  asked_reg (dev s) = Some a → (∀ d, same_mode (dev s) d → Q (word a) (with_dev' d s)) → runs (on_eth lpc_mii_read_data) s Q.
Proof.
  intros Ha HQ. unfold lpc_mii_read_data. apply on_eth_bind, runs_bind, read_runs. intros v d [Hm Hq] _ Hv _. rewrite (Hv eq_refl a Ha).
  apply on_eth_bind, runs_bind, write_runs; [done|]. intros d2 H2 A2. change (with_dev' d2 (with_dev' d s)) with (with_dev' d2 s). change (dev (with_dev' d s)) with d in *.
  unfold runs, on_eth, lift. cbn. apply HQ. split.
  - intros c Hc. rewrite (H2 c Hc), decide_False by (by intros ->). by apply Hm.
  - rewrite A2, decide_False by (intros [_ [=]]). done.
Qed.

Lemma sm_runs k s :
  sm k s → mode_ok (olddphysts (pl_phy s)) (dev s) (pl_netif s) →
  runs lpc_phy_sts_sm s (λ _ s', mode_ok (olddphysts (pl_phy s')) (dev s') (pl_netif s') ∧ (settled s → settled s') ∧
    ∃ k', sm k' s' ∧ (settled s' ∨ (k' < k)%nat)).
Proof.
  intros Hsm Hmo. unfold lpc_phy_sts_sm. apply runs_bind, pgets_runs. destruct Hsm as [s Hu|s Hu Ha|s Hu Ha Hw]; rewrite Hu; cbn [Z.eqb Pos.eqb].
  - apply runs_bind, noblock_runs; [done|]. intros d Hd Ad. apply runs_bind, set_phy_runs, pret_runs.
    split; [by apply (mode_ok_madr _ (dev s))|]. split; [done|]. eexists. split; [by apply sm_link|]. right. pose proof (mlag_law d). cbn. lia.
  - apply runs_bind, (status_runs _ _ _ Ha). intros v d Hd Hv. destruct (Z.eqb_spec (Z.land v EMAC_MIND_BUSY) 0) as [E|E].
    + apply runs_bind, runs_bind, (data_runs LAN8_BSR_REG); [by apply asked_same|]. intros d2 Hd2. apply runs_bind, set_phy_runs, runs_bind, noblock_runs; [done|]. intros d3 Hd3 A3.
      apply set_phy_runs, pret_runs. cbn in Hd3 |- *. split.
      { apply (mode_ok_madr _ d2); [done|]. apply (mode_ok_same _ d); [done|]. by apply (mode_ok_same _ (dev s)). }
      split; [done|]. eexists. split; [by apply sm_mode|]. right. pose proof (mlag_law d3). cbn. lia.
    + apply runs_bind, pret_runs, pret_runs. destruct Hv as [|[_ Hv]]; [done|]. split; [by apply (mode_ok_same _ (dev s))|]. split; [done|].
      eexists. split; [apply sm_link; [done|by apply asked_same]|]. right. cbn. lia.
  - apply runs_bind, (status_runs _ _ _ Ha). intros v d Hd Hv. destruct (Z.eqb_spec (Z.land v EMAC_MIND_BUSY) 0) as [E|E].
    + apply runs_bind, pgets_runs, runs_bind, (data_runs LAN8_PHYSPLCTL_REG); [by apply asked_same|]. intros d2 Hd2. apply runs_bind. cbn [pl_phy with_dev']. rewrite Hw.
      eapply runs_mono; [|apply phy_update_runs; apply (mode_ok_same _ d); [done|]; by apply (mode_ok_same _ (dev s))].
      intros c s' (_ & Hp & Hm & _). apply runs_bind, set_phy_runs, pret_runs. unfold settled. cbn [pl_phy with_phy with_ustate physts olddphysts]. rewrite Hp. cbn [physts olddphysts].
      split; [done|]. split; [done|]. eexists. split; [by apply sm_start|]. by left.
    + apply pret_runs. destruct Hv as [|[_ Hv]]; [done|]. split; [by apply (mode_ok_same _ (dev s))|]. split; [done|].
      eexists. split; [apply sm_mode; [done|by apply asked_same|done]|]. right. cbn. lia.
Qed.

Fixpoint calls (n : nat) : M (plink A D I N) unit := match n with O => mret tt | S n => lpc_phy_sts_sm;; calls n end.
Lemma calls_runs n k s :
  sm k s → mode_ok (olddphysts (pl_phy s)) (dev s) (pl_netif s) → settled s ∨ (k ≤ n)%nat →
  runs (calls n) s (λ _ s', settled s' ∧ mode_ok (olddphysts (pl_phy s')) (dev s') (pl_netif s')).
Proof.
  revert k s. induction n as [|n IH]; intros k s Hsm Hmo Hn; cbn [calls].
  - apply pret_runs. destruct Hn as [Hn|Hn]; [done|]. destruct Hsm; lia.
  - apply runs_bind. eapply runs_mono; [|by apply (sm_runs k)]. intros _ s1 (Hmo1 & Hset & k1 & Hsm1 & Hk). apply (IH k1); [done|done|].
    destruct Hk as [|Hk]; [by left|]. destruct Hn as [Hn|Hn]; [by left; apply Hset|]. right. lia.
Qed.
End Follow.
