(* ===== verification/PhyInit.v ===== *)
(** * The start of the Ethernet interface

    [lpc_enetif_init] brings both rings into the order that the driver keeps. *)

From S2P Require Import Prelude LwipBase IpAddr Heap Memp Pbuf PbufChain PbufLinks PbufData PbufMake PbufAlloc PbufRefs Netif EthArp EthArpTable Emac EmacSend EmacReceive I2c Phy.
From Stdlib Require Import ZArith Lia.
From stdpp Require Import base numbers gmultiset list gmap.
Open Scope Z_scope.

(** No reset is written by accident. *)
Lemma no_reset_u32 x : Z.land (u32 x) CR_RESETS = Z.land x CR_RESETS.
Proof. unfold u32. rewrite <-Z.land_ones, <-Z.land_assoc by lia. by change (Z.land (Z.ones 32) CR_RESETS) with CR_RESETS. Qed.
Lemma no_reset_or v c : Z.land v CR_RESETS = 0 → Z.land c CR_RESETS = 0 → Z.land (u32 (Z.lor v c)) CR_RESETS = 0.
Proof. intros Hv Hc. by rewrite no_reset_u32, Z.land_lor_distr_l, Hv, Hc. Qed.
Lemma no_reset_and v c : Z.land v CR_RESETS = 0 → Z.land (u32 (Z.land v c)) CR_RESETS = 0.
Proof. intros Hv. rewrite no_reset_u32, <-Z.land_assoc, (Z.land_comm c), Z.land_assoc, Hv. apply Z.land_0_l. Qed.

Section Init.
Context {A D I N : Type} {BA : BufAlloc A} {LA : BufAllocLaws A} {EM : Emac D} {EL : EmacLaws D} {LY : EnetLayout}.
Context {DV : I2cDev I} {LN : LinkEvents (plink A D I N) N}.

(** ** Computations that only touch registers *)

Definition moves {X} (m : M (eth A D) X) : Prop :=
  ∀ e (Q : X → eth A D → Prop), (∀ x d, settles (ixs e) (ix d) → Q x (with_dev d e)) → runs m e Q.

Lemma moves_ret {X} (x : X) : moves (mret x).
Proof. intros e Q HQ. pose proof (HQ x (et_dev e) (settles_refl _ (ix_range _))) as H. by destruct e. Qed.
Lemma moves_bind {X Y} (m : M (eth A D) X) (k : X → M (eth A D) Y) : moves m → (∀ x, moves (k x)) → moves (m ≫= k).
Proof.
  intros Hm Hk e Q HQ. apply runs_bind, Hm. intros x d Hd. apply Hk. intros y d2 Hd2. apply (HQ y d2). by eapply settles_trans.
Qed.
Lemma moves_read r : moves (er_read r).
Proof. intros e Q HQ. apply er_read_runs. intros v d Hd _. by apply HQ. Qed.
Lemma moves_write r v : quiet r = true → moves (er_write r v).
Proof. intros Hr e Q HQ. apply er_quiet_runs; [done|]. intros d Hd. by apply HQ. Qed.
Lemma moves_or r m : quiet r = true → moves (er_or r m).
Proof. intros Hr. apply moves_bind; [apply moves_read|]. intros v. by apply moves_write. Qed.
Lemma moves_and r m : quiet r = true → moves (er_and r m).
Proof. intros Hr. apply moves_bind; [apply moves_read|]. intros v. by apply moves_write. Qed.
Lemma moves_command v : Z.land (u32 v) CR_RESETS = 0 → moves (er_write Command v).
Proof. intros Hv e Q HQ. unfold runs, er_write, modify. by apply HQ, emac_command_law. Qed.
Lemma moves_command_of (f : Z → Z) :
  (∀ v, Z.land v CR_RESETS = 0 → Z.land (u32 (f v)) CR_RESETS = 0) → moves (v ← er_read Command; er_write Command (f v)).
Proof.
  intros Hf e Q HQ. apply runs_bind, er_read_runs. intros v d Hd Hv. apply moves_command; [by apply Hf|]. intros [] d2 Hd2. apply (HQ tt d2). by eapply settles_trans.
Qed.
Lemma moves_if {X} (c : bool) (m k : M (eth A D) X) : moves m → moves k → moves (if c then m else k).
Proof. by destruct c. Qed.

Lemma mii_write_moves r v : moves (lpc_mii_write r v).
Proof.
  apply moves_bind; [apply moves_bind; [by apply moves_write|]; intros []; by apply moves_write|]. intros []. apply moves_bind; [|intros; apply moves_ret].
  generalize ERR_OK. generalize 250%nat. intros n. induction n as [|n IH]; intros sts; cbn [mii_write_wait]; [apply moves_ret|]. apply moves_bind; [apply moves_read|]. intros x. apply moves_if; [apply moves_ret|apply IH].
Qed.
Lemma mii_read_moves r v : moves (lpc_mii_read r v).
Proof.
  apply moves_bind; [apply moves_bind; [by apply moves_write|]; intros []; by apply moves_write|]. intros []. apply moves_bind.
  - generalize ERR_OK v. generalize 250%nat. intros n. induction n as [|n IH]; intros sts data; cbn [mii_read_wait]; [apply moves_ret|]. apply moves_bind; [apply moves_read|]. intros x.
    apply moves_if; [|apply IH]. apply moves_bind; [apply moves_read|]. intros y. apply moves_ret.
  - intros x. apply moves_bind; [by apply moves_write|]. intros []. apply moves_ret.
Qed.
Lemma activity_init_moves : moves lpc_net_activity_init.
Proof.
  unfold lpc_net_activity_init. repeat (apply moves_bind; [first [by apply moves_write|by apply moves_or]|intros []]). by apply moves_write.
Qed.

(** ** Before the interface is up *)

Implicit Types (s : plink A D I N).

Definition idle s : Prop := has_flag NETIF_FLAG_UP (pl_netif s) = false ∧ has_dhcp (pl_rest s) = false.
Record rested s s' : Prop := {
  re_eth : ∃ d, settles (ixs (pl_eth s)) (ix d) ∧ pl_eth s' = with_dev d (pl_eth s);
  re_hwaddr : ni_hwaddr (pl_netif s') = ni_hwaddr (pl_netif s);
  re_up : has_flag NETIF_FLAG_UP (pl_netif s') = has_flag NETIF_FLAG_UP (pl_netif s);
  re_rest : pl_rest s' = pl_rest s }.
#[export] Instance rested_trans : Transitive rested.
Proof.
  intros x y z [(d & Hd & E) H1 H2 H3] [(d' & Hd' & E') H1' H2' H3']. split; [|congruence..]. rewrite E in Hd', E'. exists d'. split; [by eapply settles_trans|done].
Qed.
Lemma rested_same s s' : pl_eth s' = pl_eth s → ni_hwaddr (pl_netif s') = ni_hwaddr (pl_netif s) →
  has_flag NETIF_FLAG_UP (pl_netif s') = has_flag NETIF_FLAG_UP (pl_netif s) → pl_rest s' = pl_rest s → rested s s'.
Proof.
  intros E H1 H2 H3. split; try done. exists (et_dev (pl_eth s)). split; [apply settles_refl, ix_range|]. rewrite E. by destruct (pl_eth s).
Qed.

Definition starts {X} (m : M (plink A D I N) X) (P : X → Prop) : Prop :=
  ∀ s, idle s → runs m s (λ x s', rested s s' ∧ P x).

Lemma starts_ret {X} (x : X) (P : X → Prop) : P x → starts (mret x) P.
Proof. intros Hx s _. split; [by apply rested_same|done]. Qed.
Lemma starts_bind {X Y} (m : M (plink A D I N) X) (k : X → M (plink A D I N) Y) P P' :
  starts m P → (∀ x, P x → starts (k x) P') → starts (m ≫= k) P'.
Proof.
  intros Hm Hk s Hs. apply runs_bind. eapply runs_mono; [|by apply Hm]. intros x s1 [H1 Hx]. eapply runs_mono; [|apply (Hk x Hx s1)].
  - intros y s2 [H2 Hy]. split; [by etrans|done].
  - destruct Hs as [Hu Hd], H1 as [_ _ Hu' Hr]. by split; [rewrite Hu'|rewrite Hr].
Qed.
Lemma starts_any {X} (m : M (plink A D I N) X) P : starts m P → starts m (λ _, True).
Proof. intros Hm s Hs. eapply runs_mono; [|by apply Hm]. intros x s' [? _]. done. Qed.
Lemma starts_eth {X} (m : M (eth A D) X) : moves m → starts (on_eth m) (λ _, True).
Proof.
  intros Hm s Hs. pose proof (Hm (pl_eth s) (λ x e, ∃ d, settles (ixs (pl_eth s)) (ix d) ∧ e = with_dev d (pl_eth s))) as H. unfold runs, on_eth, lift in *.
  destruct (m (pl_eth s)) as [[x e]| |]; [|by apply H; eauto..]. destruct H as (d & Hd & ->); [by eauto|]. split; [|done]. split; try done. by exists d.
Qed.
Lemma starts_phy f : starts (set_phy f) (λ _, True).
Proof. intros s Hs. split; [by apply rested_same|done]. Qed.
Lemma starts_gets {X} (f : plink A D I N → X) : starts (gets f) (λ _, True).
Proof. intros s Hs. split; [by apply rested_same|done]. Qed.
Lemma starts_if {X} (c : bool) (m k : M (plink A D I N) X) P : starts m P → starts k P → starts (if c then m else k) P.
Proof. by destruct c. Qed.

Lemma up_kept x c : Z.testbit c 0 = false → Z.land (u8 (Z.lor x c)) NETIF_FLAG_UP = Z.land x NETIF_FLAG_UP ∧ Z.land (u8 (Z.land x (unot 8 c))) NETIF_FLAG_UP = Z.land x NETIF_FLAG_UP.
Proof.
  intros Hc. change NETIF_FLAG_UP with (Z.ones 1). unfold u8. rewrite !Z.land_ones by lia. change (2 ^ 1) with 2. rewrite !(Z.mod_mod_divide _ (2 ^ 8) 2) by (by exists 128).
  rewrite <-!Z.bit0_mod, Z.lor_spec, Z.land_spec, Hc. unfold unot. rewrite Z.lxor_spec, Hc. change (Z.testbit (Z.ones 8) 0) with true. by destruct (Z.testbit x 0).
Qed.
Lemma starts_link (b : bool) : starts (if b then netif_set_link_up else netif_set_link_down) (λ _, True).
Proof.
  intros s [Hu Hd]. destruct b; [unfold netif_set_link_up|unfold netif_set_link_down]; apply runs_bind; unfold gets, runs at 1; destruct (has_flag NETIF_FLAG_LINK_UP (pl_netif s)); cbn [negb];
    try (by apply (starts_ret tt (λ _, True))).
  - apply runs_bind. unfold set_netif, modify, runs at 1. apply runs_bind. unfold runs at 1. cbn [pl_rest]. rewrite Hd. apply runs_bind. unfold mret, M_ret, runs at 1. apply runs_bind. unfold runs at 1.
    set (s1 := PLink _ _ _ _ _). assert (has_flag NETIF_FLAG_UP (pl_netif s1) = has_flag NETIF_FLAG_UP (pl_netif s)) as E.
    { unfold has_flag. cbn. by rewrite (proj1 (up_kept _ NETIF_FLAG_LINK_UP eq_refl)). }
    rewrite E, Hu. split; [|done]. by apply rested_same.
  - unfold set_netif, modify, runs. split; [|done]. apply rested_same; try done. unfold has_flag. cbn. by rewrite (proj2 (up_kept _ NETIF_FLAG_LINK_UP eq_refl)).
Qed.

(** ** The PHY *)

Create HintDb starting.
Hint Resolve moves_read moves_write moves_or moves_and moves_ret mii_write_moves mii_read_moves activity_init_moves : starting.
Ltac start :=
  first [apply starts_phy|apply starts_gets|apply starts_eth; solve [eauto with starting]|apply (starts_ret _ (λ _, True)); exact Logic.I].
Ltac then_start := eapply starts_bind; [start|intros ? _].

Lemma starts_speed : starts update_speed (λ _, True).
Proof. unfold update_speed. then_start. apply starts_if; [|start]. eapply starts_bind; [apply starts_if; start|]. intros _ _. then_start. start. Qed.
Lemma starts_duplex : starts update_duplex (λ _, True).
Proof.
  unfold update_duplex. then_start. apply starts_if; [|start]. eapply starts_bind; [apply starts_if; then_start|intros _ _; then_start; start].
  - eapply starts_bind; [|intros ? _; start]. apply starts_eth, (moves_command_of (λ v, Z.lor v EMAC_CR_FULL_DUP)). intros v Hv. by apply no_reset_or.
  - eapply starts_bind; [|intros ? _; start]. apply starts_eth, (moves_command_of (λ v, Z.land v (unot 32 EMAC_CR_FULL_DUP))). intros v Hv. by apply no_reset_and.
Qed.
Lemma starts_active : starts update_active (λ _, True).
Proof.
  unfold update_active. then_start. apply starts_if; [|start]. eapply starts_bind; [|intros _ _; then_start; then_start; start].
  apply (starts_link (negb (phy_link_active (physts x) =? 0))).
Qed.
Lemma starts_update l d : starts (lpc_update_phy_sts l d) (λ _, True).
Proof.
  unfold lpc_update_phy_sts. do 3 then_start. eapply starts_bind; [apply starts_speed|intros ? _]. eapply starts_bind; [apply starts_duplex|intros ? _].
  eapply starts_bind; [apply starts_active|intros ? _]. start.
Qed.
Lemma starts_reset i tmp : starts (reset_wait i tmp) (λ _, True).
Proof.
  revert tmp. induction i as [|i IH]; intros tmp; cbn [reset_wait]; [start|]. then_start. apply starts_if; [start|]. apply starts_if; [start|apply IH].
Qed.
Lemma starts_phy_init tmp1 : starts (lpc_phy_init tmp1) (λ r, r = ERR_OK ∨ r = ERR_TIMEOUT).
Proof.
  unfold lpc_phy_init. then_start. then_start. apply starts_if; [by apply starts_ret; right|]. eapply starts_bind; [apply starts_reset|intros w _].
  destruct w; [|by apply starts_ret; right]. then_start. then_start. then_start. eapply starts_bind; [apply starts_update|intros ? _]. by apply starts_ret; left.
Qed.

(** ** The rings *)

Definition begun s0 s : Prop :=
  idle s ∧ et_bufs (pl_eth s) = et_bufs (pl_eth s0) ∧ et_data (pl_eth s) = et_data (pl_eth s0) ∧ ni_hwaddr (pl_netif s) = ni_hwaddr (pl_netif s0).
Definition zeroed s : Prop := tx_p (ixs (pl_eth s)) = 0 ∧ tx_c (ixs (pl_eth s)) = 0.

Lemma begun_rested s0 s s' : begun s0 s → rested s s' → begun s0 s'.
Proof.
  intros ([Hu Hd] & Hb & He & Hh) [(d & _ & E) H1 H2 H3]. unfold begun, idle. by rewrite E, H1, H2, H3, <-Hb, <-He, <-Hh.
Qed.
Lemma zeroed_rested s s' : zeroed s → rested s s' → zeroed s'.
Proof.
  intros [Hp Hc] [(d & Hd & E) _ _ _]. unfold zeroed. rewrite E. change (ixs (with_dev d (pl_eth s))) with (ix d). rewrite (se_tx_p _ _ Hd). split; [done|].
  destruct (se_tx_c _ _ Hd) as (j & Hj & ->). rewrite Hp, Hc in Hj. rewrite Hc. assert (j = 0) as -> by (change ((0 - 0) mod 8) with 0 in Hj; lia). done.
Qed.
Lemma starts_then {X Y} (m : M (plink A D I N) X) (k : X → M (plink A D I N) Y) P s0 s (Q : Y → plink A D I N → Prop) :
  starts m P → begun s0 s → (∀ x s', begun s0 s' → P x → rested s s' → runs (k x) s' Q) → runs (m ≫= k) s Q.
Proof.
  intros Hm Hs Hk. apply runs_bind. eapply runs_mono; [|apply Hm, Hs]. intros x s' [Hr Hx]. apply Hk; [by eapply begun_rested|done|done].
Qed.
Ltac step := eapply starts_then; [start|eassumption|clear; intros ? ? ? _ _].
Ltac step_zero Hz := eapply starts_then; [start|eassumption|let H := fresh in intros ? ? ? _ H; apply (zeroed_rested _ _ Hz) in H; clear Hz; rename H into Hz].

Definition ready (e : enetdata) : Prop :=
  rxb e = replicate 8 0 ∧ txb e = replicate 8 0 ∧ length (ptxd e) = 8%nat ∧ length (prxd e) = 8%nat ∧ length (prxs e) = 8%nat ∧ Forall st_ok (prxs e).

Lemma tx_setup_runs (e : eth A D) (Q : Z → eth A D → Prop) :
  ready (et_data e) → tx_p (ixs e) = 0 → tx_c (ixs e) = 0 →
  (∀ e', et_bufs e' = et_bufs e → ready (et_data e') → tx_ring (et_data e') (ixs e') [] → Q ERR_OK e') → runs lpc_tx_setup e Q.
Proof.
  intros (H1 & H2 & H3 & H4 & H5 & H6) Hp Hc HQ. unfold lpc_tx_setup. apply runs_bind, er_quiet_runs; [done|]. intros d1 S1. apply runs_bind, er_quiet_runs; [done|]. intros d2 S2.
  apply runs_bind, er_quiet_runs; [done|]. intros d3 S3. pose proof (settles_trans _ _ _ S1 (settles_trans _ _ _ S2 S3)) as Hse.
  apply runs_bind, ed_set_runs, runs_bind, ed_set_runs, ret_runs. apply HQ; [done| |].
  - unfold ready. cbn. rewrite length_map. done.
  - set (e1 := with_data _ _). change (ixs e1) with (ix d3). assert (tx_p (ix d3) = 0) as Ep by by rewrite (se_tx_p _ _ Hse).
    assert (tx_c (ix d3) = 0) as Ec by (destruct (se_tx_c _ _ Hse) as (j & Hj & ->); rewrite Hp, Hc in Hj; rewrite Hc; change ((0 - 0) mod 8) with 0 in Hj; by replace j with 0 by lia).
    split; [split|by rewrite Ep|by rewrite Ec]; cbn; rewrite ?H2, ?length_map; done.
Qed.

Definition with_eth (e : eth A D) s : plink A D I N := PLink e (pl_phy s) (pl_netif s) (pl_i2c s) (pl_rest s).
Lemma on_eth_runs {X} (m : M (eth A D) X) s (Q : X → plink A D I N → Prop) :
  runs m (pl_eth s) (λ x e, Q x (with_eth e s)) → runs (on_eth m) s Q.
Proof. unfold runs, on_eth, lift. by destruct (m (pl_eth s)) as [[]| |]. Qed.

(** The last part, from the PHY on. *)
Lemma rings_runs R H s0 s fl hw (Q : Z → plink A D I N → Prop) :
  begun s0 s → zeroed s → held_ok (et_bufs (pl_eth s0)) R H → ready (et_data (pl_eth s0)) → fl = [] →
  (∀ s' n rs, ni_hwaddr (pl_netif s') = ni_hwaddr (pl_netif s0) → driver_ok R H (pl_eth s') fl n rs → Q ERR_OK s') →
  runs (on_eth (er_write SA2 (Z.lor (hw.[0]) (Z.shiftl (hw.[1]) 8)));;
        on_eth (er_write SA1 (Z.lor (hw.[2]) (Z.shiftl (hw.[3]) 8)));;
        on_eth (er_write SA0 (Z.lor (hw.[4]) (Z.shiftl (hw.[5]) 8)));;
        r ← on_eth lpc_tx_setup;
        if negb (r =? ERR_OK) then mret ERR_BUF
        else
          r ← on_eth lpc_rx_setup;
          if negb (r =? ERR_OK) then mret ERR_BUF
          else
            on_eth (er_write RxFilterCtrl (Z.lor EMAC_RFC_PERFECT_EN EMAC_RFC_BCAST_EN));;
            on_eth (er_write IntClear 0xFFFF);;
            on_eth (er_write IntEnable 0);;
            on_eth (er_or Command (Z.lor EMAC_CR_RX_EN EMAC_CR_TX_EN));;
            on_eth (er_or MAC1 EMAC_MAC1_REC_EN);;
            mret ERR_OK) s Q.
Proof.
  intros Hb Hz Hh Hr -> HQ. do 3 step_zero Hz. match goal with H : begun s0 ?x |- _ => rename x into s1; rename H into Hb1 end.
  destruct Hb1 as (_ & Eb & Ed & Ehw). rewrite <-Eb in Hh. rewrite <-Ed in Hr. destruct Hz as [Hp Hc].
  apply runs_bind, on_eth_runs, (tx_setup_runs _ _ Hr Hp Hc). intros e1 Eb1 (R1 & R2 & R3 & R4 & R5 & R6) Htx. rewrite <-Eb1 in Hh. cbn [Z.eqb negb].
  apply runs_bind, on_eth_runs. eapply runs_mono; [|apply (rx_setup_runs R H e1 [] Htx); try done].
  2:{ change (in_flight []) with (∅ : gmultiset Z). by rewrite (left_id_L ∅ (⊎)). }
  intros r e2 (-> & _ & n & rs & Hok). cbn [Z.eqb negb]. change (with_eth e2 (with_eth e1 s1)) with (with_eth e2 s1).
  assert (∀ (m : M (eth A D) unit) e, moves m → driver_ok R H e [] n rs → runs m e (λ _ e', driver_ok R H e' [] n rs)) as Hstep
    by (intros m e Hm He; apply Hm; intros [] d Hd; by apply driver_settles).
  do 3 (apply runs_bind, on_eth_runs; eapply runs_mono; [|apply (Hstep _ _); [by apply moves_write|eassumption]]; clear Hok; intros [] ? Hok).
  apply runs_bind, on_eth_runs. eapply runs_mono; [|apply Hstep; [apply (moves_command_of (λ v, Z.lor v (Z.lor EMAC_CR_RX_EN EMAC_CR_TX_EN))); intros v Hv; by apply no_reset_or|exact Hok]].
  clear Hok. intros [] e3 Hok. apply runs_bind, on_eth_runs. eapply runs_mono; [|apply Hstep; [by apply moves_or|exact Hok]]. clear Hok. intros [] e4 Hok.
  unfold runs. cbn. by apply (HQ _ n rs).
Qed.

Lemma reset_runs s0 s v (Q : unit → plink A D I N → Prop) :
  Z.land (u32 v) CR_RESETS = CR_RESETS → begun s0 s → (∀ s', begun s0 s' → zeroed s' → Q tt s') → runs (on_eth (er_write Command v)) s Q.
Proof.
  intros Hv Hb HQ. apply on_eth_runs. unfold er_write, modify, runs. destruct (emac_reset_law (u32 v) (et_dev (pl_eth s)) Hv) as [i Ei].
  apply HQ; [destruct Hb as ([Hu Hd] & E1 & E2 & E3); by split|]. unfold zeroed, ixs. cbn [pl_eth with_eth et_dev]. by rewrite Ei.
Qed.
Lemma low_level_init_runs R H s tmp1 (Q : Z → plink A D I N → Prop) :
  idle s → held_ok (et_bufs (pl_eth s)) R H → ready (et_data (pl_eth s)) →
  (∀ s', begun s s' → Q ERR_TIMEOUT s') →
  (∀ s' n rs, ni_hwaddr (pl_netif s') = ni_hwaddr (pl_netif s) → driver_ok R H (pl_eth s') [] n rs → Q ERR_OK s') →
  runs (low_level_init tmp1) s Q.
Proof.
  intros Hi Hh Hr HQ1 HQ2. assert (begun s s) as Hb by (by split). unfold low_level_init. apply runs_bind. unfold gets, runs at 1.
  set (hw := ni_hwaddr (pl_netif s)). clearbody hw. do 2 (eapply starts_then; [start|eassumption|clear Hb; intros ? ? Hb _ _]).
  eapply starts_then; [apply starts_eth, moves_bind; [apply moves_read|intros v; by apply moves_write]|eassumption|clear Hb; intros ? ? Hb _ _].
  eapply starts_then; [start|eassumption|clear Hb; intros [] s1 Hb _ _].
  apply runs_bind, (reset_runs s); [reflexivity|done|]. clear Hb. intros s2 Hb Hz. do 7 step_zero Hz.
  eapply starts_then; [apply starts_eth; by apply moves_command|eassumption|intros ? ? ? _ Hres; apply (zeroed_rested _ _ Hz) in Hres; clear Hz; rename Hres into Hz].
  eapply starts_then; [apply starts_phy_init|eassumption|]. intros r s3 Hb3 Hrr Hres. apply (zeroed_rested _ _ Hz) in Hres.
  destruct Hrr as [-> | ->]; cbn [Z.eqb ERR_OK ERR_TIMEOUT negb]; [|by apply HQ1]. by apply (rings_runs R H s s3 []).
Qed.
End Init.
