(* ===== verification/PhyClaims.v ===== *)
(** * The PHY and the start of the interface: the theorems *)

From S2P Require Import Prelude LwipBase IpAddr Heap Memp Pbuf PbufChain PbufLinks PbufData PbufMake PbufAlloc PbufClaims PbufRefs Netif EthArp EthArpTable Emac EmacSend EmacReceive EmacClaims I2c I2cBus Phy PhyRuns PhyInit.
From Stdlib Require Import ZArith Lia.
From stdpp Require Import base numbers gmultiset list gmap.
Open Scope Z_scope.

Section Tracking.
Context {A D I N : Type} {BA : BufAlloc A} {EM : Emac D} {LY : EnetLayout} {LN : LinkEvents (plink A D I N) N}.
Context {word : Z → Z} {w : nat} {PL : PhyLaws D word w} {NL : @EventLaws A D I N EM LN word w PL}.
Implicit Types (s : plink A D I N).

(** The status is a pair of bits and the link, never unknown. *)
Lemma mode_exact bsr spl (d : D) n :
  mode_ok (link_of bsr spl) d n →
  Z.b2z (Z.testbit (reg SUPP d) 8) = (speed_duplex spl).1 ∧ Z.b2z (Z.testbit (reg MAC2 d) 0) = (speed_duplex spl).2 ∧
  Z.b2z (Z.testbit (reg Command d) 10) = (speed_duplex spl).2 ∧
  reg IPGT d = (if (speed_duplex spl).2 =? 1 then EMAC_IPGT_FULL_DUP else EMAC_IPGT_HALF_DUP) ∧
  link_up n = negb (Z.land bsr LAN8_LINK_STATUS =? 0).
Proof.
  unfold link_of. destruct (speed_duplex_bits spl) as (b & c & ->). cbn [fst snd]. set (l := negb _). intros [Hs Hd Hl]. cbn in Hs, Hd, Hl.
  destruct Hs as [Hs|Hs]; [by destruct b|]. destruct Hd as [Hd|(x & Hx & H1 & H2 & H3)]; [by destruct c|].
  assert (x = c) as -> by by destruct x, c. rewrite Hs, H1, H2, H3. split; [done|]. split; [done|]. split; [done|]. split; [by destruct c|].
  destruct Hl as [Hl|Hl]; destruct l, (link_up n); done.
Qed.

End Tracking.

Section Start.
Context {A D I N : Type} {BA : BufAlloc A} {LA : BufAllocLaws A} {EM : Emac D} {EL : EmacLaws D} {LY : EnetLayout}.
Context {DV : I2cDev I} {LN : LinkEvents (plink A D I N) N} {m : slave} {w : nat} {DL : I2cLaws I m w}.
Implicit Types (s : plink A D I N).

Lemma on_i2c_runs {X} (k : M (i2c I) X) s (Q : X → plink A D I N → Prop) :
  runs k (pl_i2c s) (λ x i, Q x (PLink (pl_eth s) (pl_phy s) (pl_netif s) i (pl_rest s))) → runs (on_i2c k) s Q.
Proof. unfold runs, on_i2c, lift. by destruct (k (pl_i2c s)) as [[]| |]. Qed.

(** C40.  The interface starts.  With the address memory on its bus and no DHCP
    client yet, [lpc_enetif_init] returns.  It reports a time-out of the PHY
    and has touched no buffer, or it succeeds: the interface has the six
    octets of the memory as its address, nothing is to be sent, and both rings
    are in the order that the driver keeps from then on, whatever
    buffers were to be had. *)
Theorem interface_started R H tmp1 s b0 a dat ptr :
  answers m (Z.land EEPROM_ADDR 0xFE) = true → bus (i2_dev (pl_i2c s)) = Ebus PIdle b0 false a dat ptr → Z.of_nat w < 1000000 →
  length (ni_hwaddr (pl_netif s)) = 6%nat → has_dhcp (pl_rest s) = false → held_ok (et_bufs (pl_eth s)) R H → ready (et_data (pl_eth s)) →
  ∃ r s', lpc_enetif_init (Z.to_nat I2CMAX_TIMEOUT) tmp1 s = Ok (r, s') ∧
    (r = ERR_TIMEOUT ∧ et_bufs (pl_eth s') = et_bufs (pl_eth s) ∨
     r = ERR_OK ∧ ni_hwaddr (pl_netif s') = map (λ j, u8 (sl_octets m (MAC_LOCATION + j))) [0; 1; 2; 3; 4; 5] ∧
     ∃ n rs, driver_ok R H (pl_eth s') [] n rs).
Proof.
  intros Hans Hb Hw Hl Hd Hh Hr.
  match goal with |- ∃ r s', ?x s = _ ∧ @?P r s' => assert (runs x s P) as Hrun end.
  - unfold lpc_enetif_init. apply runs_bind, on_eth_runs, activity_init_moves. intros [] d _. apply runs_bind, pgets_runs. cbn [pl_netif with_eth].
    apply runs_bind, on_i2c_runs. eapply runs_mono; [|by apply (macaddr_runs _ _ b0 a dat ptr)]. intros _ i [_ Hi].
    apply runs_bind, pgets_runs. cbn [pl_i2c]. rewrite Hi. apply runs_bind, set_netif_runs, runs_bind, set_netif_runs. cbn [pl_eth pl_phy pl_netif pl_i2c pl_rest with_eth].
    set (s1 := PLink _ _ _ _ _). apply runs_bind, (low_level_init_runs R H s1); [by split|done|done| |].
    + intros s2 (_ & E & _). apply pret_runs. by left.
    + intros s2 n rs Hhw Hok. apply runs_bind, set_netif_runs, pret_runs. right. split; [done|]. split; [|by exists n, rs]. cbn. rewrite Hhw. reflexivity.
  - unfold runs in Hrun. destruct (lpc_enetif_init _ _ _) as [[r s']| |]; [|done|done]. by exists r, s'.
Qed.
End Start.

(** ** A PHY with a link of 100 Mbit/s *)

Record station := Station { st_regs : ereg → Z; st_asked : option Z }.
Definition demo_word (a : Z) : Z := if a =? LAN8_BSR_REG then LAN8_LINK_STATUS else LAN8_SPEED100F.
Definition phy_emac : Emac station := {|
  emac_read r d := (match r with MRDD => match st_asked d with Some a => demo_word a | None => 0 end | MIND => 0 | _ => st_regs d r end, d);
  emac_write r v d := Station (λ c, if decide (c = r) then v else st_regs d c)
    (if decide (r = MCMD ∧ v = EMAC_MCMD_READ) then Some (Z.land (st_regs d MADR) 0x1F) else st_asked d) |}.
Lemma phy_emac_laws : @PhyLaws station phy_emac demo_word 0.
Proof.
  unshelve refine (@Build_PhyLaws station phy_emac demo_word 0 (λ r d, st_regs d r) st_asked (λ _, 0%nat) _ _ _); [done| |done].
  intros r d. cbn. split; [done|]. split; [done|]. split; [by destruct r|]. split; [intros -> a E; by rewrite E|intros ->; by left].
Defined.

(** Nobody listens. *)
Definition no_events {A D I} : LinkEvents (plink A D I unit) unit := {| has_dhcp _ := false; dhcp_network_changed := mret tt; announce := mret tt |}.
Lemma no_events_laws {A I} : @EventLaws A station I unit phy_emac no_events demo_word 0 phy_emac_laws.
Proof. split; intros s; by repeat split. Qed.

Definition demo_netif : netif := Netif 0 0 0 0 6 [0; 0; 0; 0; 0; 0] 0 [0; 0] 0.
Definition demo_phy : phy := Phy (PhySts 0 0 0) (PhySts 2 2 2) 0 0.
Definition phy_boot : plink allocators station unit unit := PLink (Eth boot_pbufs empty_data (Station (λ _, 0) None)) demo_phy demo_netif (I2c 0 1 0 0 true 0 [] 0 0 tt) tt.

(** ** The interface at boot *)

Definition link_start : plink allocators indexes ebus unit := PLink link_boot demo_phy demo_netif idle_bus tt.
Lemma interface_started_witness :
  ∃ r s', @lpc_enetif_init allocators indexes ebus unit _ idle_emac demo_layout (prompt_bus chip) no_events (Z.to_nat I2CMAX_TIMEOUT) 0 link_start = Ok (r, s') ∧
    (r = ERR_TIMEOUT ∧ et_bufs (pl_eth s') = boot_pbufs ∨
     r = ERR_OK ∧ ni_hwaddr (pl_netif s') = [250; 0; 1; 2; 3; 4] ∧ ∃ n rs, driver_ok ∅ ∅ (pl_eth s') [] n rs).
Proof.
  assert (ready empty_data) as Hr by (repeat split; by repeat constructor).
  exact (@interface_started allocators indexes ebus unit _ _ idle_emac idle_laws demo_layout (prompt_bus chip) no_events chip 0 (prompt_laws chip)
    ∅ ∅ 0 link_start false false 0 0 eq_refl eq_refl eq_refl eq_refl eq_refl boot_held Hr).
Defined.
