(* ===== verification/Upload.v ===== *)
(** * The upload scheduler ([src/upload.c])

    Called from the main loop: counts down, and when the interface is up and
    no upload is running starts one for the records the memory offers.  Built
    without [COUCHDB_SERVER_DNS], as in the sources. *)

From S2P Require Import Prelude LwipBase Checksum BlockDev Memory MemoryRing HttpTx HttpRx ServerTcp.
From S2P Require Import ServerStream ServerClaims IpAddr.
From Stdlib Require Import Ascii String ZArith Lia.
From stdpp Require Import base numbers list.
Open Scope Z_scope.

Definition couchdb_server_address : list Z := str "192.168.1.8".
Definition couchdb_server_auth : option (list Z) := None.

Section Operations.
Context {T B : Type} `{TcpApi T} `{BlockDev B}.
Abbreviation S := (srv_state T B).

(** [tc] is the value of timer 3, which [get_blocks_to_read] looks at.  The
    remote address is [couchdb_ip]; the TCP interface takes only the port. *)
Definition couchdb_start_upload (tc : Z) : M S unit :=
  read ← on_rx (on_rx_mem get_current_read_block);
  blocks ← on_rx (on_rx_mem (get_blocks_to_read tc));
  err ← server_tcp_init couchdb_server_address 5984 couchdb_server_auth read blocks true;
  if negb (err =? ERR_OK) then upload_end else mret tt.

(** [flags] are those of the network interface. *)
Definition upload (flags tc : Z) : M S unit :=
  s ← Prelude.get;
  if upload_countdown s =? 0 then
    if active s =? 0 then
      if negb (Z.land flags NETIF_FLAG_UP =? 0) && negb (Z.land flags NETIF_FLAG_LINK_UP =? 0) then
        set_upload 0xF (upload_countdown s);;
        match ipaddr_aton couchdb_server_address with
        | Some _ => couchdb_start_upload tc
        | None => upload_end
        end
      else mret tt
    else mret tt
  else set_upload (active s) (u32 (upload_countdown s - 1)).

Fixpoint uploads (calls : list (Z * Z)) : M S unit :=
  match calls with [] => mret tt | (flags, tc) :: calls => upload flags tc;; uploads calls end.
End Operations.

Section Claims.
Context {T B : Type} `{TcpStream T} `{BlockDevLaws B}.
Implicit Types s : srv_state T B.

Definition with_countdown (n : Z) s : srv_state T B :=
  SrvState (server_tcp s) (net s) (rx s) (active s) n (ephemeral_seq s).

Lemma upload_waits flags tc s :
  0 < upload_countdown s < 2 ^ 32 →
  upload flags tc s = Ok (tt, with_countdown (upload_countdown s - 1) s).
Proof.
  intros Hc. unfold upload. rewrite bind_unfold. unfold Prelude.get.
  destruct (Z.eqb_spec (upload_countdown s) 0); [lia|].
  by rewrite u32_small by (unfold is_u32; lia).
Qed.

Lemma uploads_wait calls s :
  0 ≤ upload_countdown s < 2 ^ 32 → Z.of_nat (length calls) ≤ upload_countdown s →
  uploads calls s = Ok (tt, with_countdown (upload_countdown s - Z.of_nat (length calls)) s).
Proof.
  revert s. induction calls as [|[flags tc] calls IH]; intros s Hs Hl.
  { unfold uploads, mret, M_ret. do 2 f_equal. rewrite Z.sub_0_r. by destruct s. }
  simpl uploads. simpl length in *. rewrite (bind_ok _ _ _ _ _ (upload_waits flags tc s ltac:(lia))).
  rewrite IH by (simpl; lia). simpl. unfold with_countdown. simpl. do 3 f_equal. lia.
Qed.

(** The start of an upload on an idle client. *)
Definition started (read blocks : Z) s s' : Prop :=
  rx s' = rx s ∧
  ((active s' = 0xF ∧ 0 < blocks ∧
      server_tcp s' = ServerTcpState true 0 couchdb_server_address couchdb_server_auth 5984 0 read 0
        blocks (replicate OUTPUT_BUFFER 0) 0 0 0 true 0) ∨
   (active s' = 0 ∧ upload_countdown s' = UPLOAD_WAIT ∧ (blocks = 0 → server_tcp s' = server_tcp s))).

Lemma init_active host0 port auth0 read0 count cb s :
  runs (server_tcp_init host0 port auth0 read0 count cb) s (λ _ s', active s' = active s ∧
    (count = 0 → server_tcp s' = server_tcp s)).
Proof.
  assert (∀ i s, runs (bind_loop i) s (λ _ s', active s' = active s)) as Hbind.
  { clear. induction i as [|i IH]; intros s; simpl bind_loop;
      do 2 apply runs_bind; unfold runs at 1, Prelude.get; apply runs_bind; unfold runs at 1, modify;
      (eapply runs_intro; [done|]); apply runs_bind; unfold runs at 1; rewrite on_net_unfold;
      destruct (_ =? _); try by eapply runs_intro.
    destruct i as [|i]; [by eapply runs_intro|]. eapply runs_mono, IH. by intros ? s' ->. }
  unfold server_tcp_init. destruct (count >? 0) eqn:Ec; [|by eapply runs_intro].
  apply runs_bind. unfold runs at 1, set_ss, modify.
  apply runs_bind. unfold runs at 1. rewrite on_net_unfold. apply runs_bind. unfold runs at 1, modify.
  destruct (negb _); [eapply runs_intro; [done|]; split; [done|lia]|].
  apply runs_bind. unfold runs at 1, do_net. rewrite on_net_unfold.
  apply runs_bind. eapply runs_mono, Hbind. intros err s1 E1.
  destruct (negb (err =? ERR_OK)); [eapply runs_intro; [done|]; split; [done|lia]|].
  do 5 (apply runs_bind; unfold runs at 1, do_net; rewrite on_net_unfold).
  unfold runs. rewrite on_net_unfold. split; [done|lia].
Qed.

Lemma upload_starts flags tc s :
  let m := rx_mem (rx s) in
  ring_ok m → upload_countdown s = 0 → active s = 0 →
  Z.land flags NETIF_FLAG_UP ≠ 0 → Z.land flags NETIF_FLAG_LINK_UP ≠ 0 →
  runs (upload flags tc) s (λ _, started (m_read m)
    (if decide (m_read m ≤ m_write m ∧ 3 ≤ u32 (tc - m_last_write m))
     then Z.min 1000 (m_write m - m_read m) else 0) s).
Proof.
  intros m Hm Hc Ha Hf1 Hf2. pose proof Hm as ((Hok & Hr32 & Hw32 & _) & Hr & Hw).
  pose proof (blk_count_range _ Hok) as Hcnt. unfold MAX_BLOCK in Hcnt. unfold ring_top in Hr, Hw.
  set (blocks := if decide _ then _ else 0). unfold upload. apply runs_bind.
  unfold runs at 1, Prelude.get. rewrite Hc, Ha.
  apply Z.eqb_neq in Hf1. apply Z.eqb_neq in Hf2. rewrite Hf1, Hf2. simpl negb. simpl (_ && _). cbv iota.
  apply runs_bind. unfold runs at 1, set_upload, modify. change (ipaddr_aton couchdb_server_address) with (ipaddr_aton (str "192.168.1.8")). rewrite aton_server.
  unfold couchdb_start_upload. apply runs_bind. unfold runs at 1. simpl.
  apply runs_bind. unfold runs at 1, on_rx, on_rx_mem, lift. simpl. fold m.
  rewrite get_blocks_to_read_ok by (done || lia). fold blocks.
  set (s1 := SrvState _ _ _ _ _ _). apply runs_bind.
  eapply runs_mono, runs_and; [|apply init_ok|apply init_active].
  intros err s2 ([Erx Hin] & Eact & Esame).
  assert (rx s1 = rx s) as Er1. { subst s1. simpl. by destruct (rx s). }
  destruct (Z.eqb_spec err ERR_OK) as [->|Hne]; simpl negb; cbv iota.
  - eapply runs_intro; [done|]. split; [congruence|]. left.
    destruct (Hin eq_refl) as [Hpos Hss]. done.
  - eapply runs_intro; [done|]. split; [simpl; congruence|]. right.
    split; [done|]. split; [done|]. intros Hb. simpl. rewrite Esame by done. done.
Qed.

(** Scheduling.  Calls of [upload] do nothing but count down until the
    countdown has run out, however many; the next one, when no upload is
    active and the interface and its link are up, starts exactly one upload of
    the records that [get_blocks_to_read] offers, from the read index on, or
    reports the failure and restarts the countdown.  The sample memory is not
    touched. *)
Theorem upload_schedule calls flags tc s :
  let m := rx_mem (rx s) in
  ring_ok m → active s = 0 → 0 ≤ upload_countdown s < 2 ^ 32 →
  Z.of_nat (length calls) = upload_countdown s →
  Z.land flags NETIF_FLAG_UP ≠ 0 → Z.land flags NETIF_FLAG_LINK_UP ≠ 0 →
  runs (uploads calls;; upload flags tc) s (λ _, started (m_read m)
    (if decide (m_read m ≤ m_write m ∧ 3 ≤ u32 (tc - m_last_write m))
     then Z.min 1000 (m_write m - m_read m) else 0) s).
Proof.
  intros m Hm Ha Hc Hl Hf1 Hf2. unfold runs.
  rewrite (bind_ok _ _ _ _ _ (uploads_wait calls s Hc ltac:(lia))).
  set (s0 := with_countdown _ s).
  pose proof (upload_starts flags tc s0 Hm ltac:(simpl; lia) Ha Hf1 Hf2) as Hs. exact Hs.
Qed.
End Claims.

Lemma upload_schedule_witness :
  let s := SrvState blank_server (Sink []) (RxState 0 0 demo_ring) 0 2 0 in
  runs (uploads [(0, 5); (1, 6)];; upload 0x11 500) s
    (λ _, started (m_read demo_ring)
      (if decide (m_read demo_ring ≤ m_write demo_ring ∧ 3 ≤ u32 (500 - m_last_write demo_ring))
       then Z.min 1000 (m_write demo_ring - m_read demo_ring) else 0) s).
Proof.
  intros s. apply (upload_schedule [(0, 5); (1, 6)] 0x11 500 s); [apply demo_ring_ok|done|done|done|done|done].
Defined.
