(* ===== verification/RadioIf.v ===== *)
(** * The radio interface structure and the chip protocol
      ([inc/radio/radio.h], [src/radio/ieee_frame.c], [src/radio/radio_functions.c])

    The AT86RF212 is reached over SPI by short register accesses and by long
    frame accesses.  The functions run on the interface structure [radif]
    and on a port [P] that offers the hardware functions of the structure
    (class [RadioPort]). *)

From S2P Require Import Prelude Hw.
From Stdlib Require Import ZArith Lia.
From stdpp Require Import base numbers list.
Open Scope Z_scope.

(** ** Data *)

Definition NUM_TXFRAMES : nat := 8.
Definition NUM_RXFRAMES : nat := 8.
Definition FRAME_DATA : nat := 0x7F.

Record rx_frame : Type := RxFrame {
  rx_data : list Z;
  rx_length : Z;
  rx_crc_status : Z;
  rx_energy_detect : Z;
  rx_source_address : Z;
}.
Record tx_frame : Type := TxFrame {
  tx_data : list Z;
  tx_length : Z;
  tx_ack : Z;
  tx_destination_address : Z;
}.

(** The configuration part of the structure, set once by [rf212_init]. *)
Record radif_config : Type := RadifConfig {
  clkm_config : Z;
  auto_crc_gen : Z;
  promiscuous : Z;
  freq : Z;
  power : Z;
  modulation : Z;
  pan_id : Z;
  short_address : Z;
}.
Record radif_stats : Type := RadifStats {
  rx_success_count : Z;
  rx_overflow : Z;
  tx_success_count : Z;
  tx_channel_fail : Z;
  tx_noack : Z;
  tx_invalid : Z;
  last_trac_status : Z;
}.
(** The structure without its function pointers, which are the operations of
    the port and the callback given to [radif_service]. *)
Record radif : Type := Radif {
  RxProduceIndex : Z;
  RxConsumeIndex : Z;
  TxConsumeIndex : Z;
  TxProduceIndex : Z;
  RxFrames : list rx_frame;
  TxFrames : list tx_frame;
  Command : Z;
  CommandOutput : Z;
  config : radif_config;
  up : Z;
  seq_id : Z;
  stats : radif_stats;
}.

(** ** Hardware functions *)

Class RadioPort (P : Type) : Type := {
  rp_spi :: SpiPort P;
  slptr_set : M P unit;
  slptr_clear : M P unit;
  reset_set : M P unit;
  reset_clear : M P unit;
  delay_us : Z → M P unit;
}.

Record radio_state (P : Type) : Type := RadioState { r_if : radif; r_port : P }.
Arguments RadioState {P}.
Arguments r_if {P}.
Arguments r_port {P}.

(** ** Constants *)

Definition BLANK_SPI_CHARACTER : Z := 0.
Definition FCF_PAN_ID_COMPRESSION : Z := 0x40.
Definition FCF_ACKNOWLEDGE_REQUEST : Z := 0x20.
Definition FRAME_TYPE_DATA : Z := 1.
Definition FRAME_VERSION_IEEE_2006 : Z := 1.
Definition FRAME_PAN_ID_16BIT_ADDR : Z := 2.
Definition FRAME_PAN_ID_64BIT_ADDR : Z := 3.

Definition RADIO_MAX_FRAME_RETRIES : Z := 3.
Definition RADIO_MAX_CSMA_RETRIES : Z := 4.
Definition CHB_FRM_VER : Z := 1.

Definition TRX_STATUS : Z := 0x01.
Definition TRX_STATE : Z := 0x02.
Definition TRX_CTRL_0 : Z := 0x03.
Definition TRX_CTRL_1 : Z := 0x04.
Definition PHY_TX_PWR : Z := 0x05.
Definition PHY_RSSI : Z := 0x06.
Definition PHY_ED_LEVEL : Z := 0x07.
Definition TRX_CTRL_2 : Z := 0x0c.
Definition IRQ_MASK : Z := 0x0e.
Definition IRQ_STATUS : Z := 0x0f.
Definition CC_CTRL_0 : Z := 0x13.
Definition CC_CTRL_1 : Z := 0x14.
Definition RF_CTRL_0 : Z := 0x16.
Definition XAH_CTRL_1 : Z := 0x17.
Definition PART_NUM : Z := 0x1c.
Definition VERSION_NUM : Z := 0x1d.
Definition SHORT_ADDR_0 : Z := 0x20.
Definition PAN_ID_0 : Z := 0x22.
Definition XAH_CTRL_0 : Z := 0x2c.
Definition CSMA_SEED_1 : Z := 0x2e.

Definition RADIO_AUTO_CRC_GEN : Z := 0x20.
Definition RADIO_PROMISCUOUS : Z := 0x2.
Definition CHB_TRAC_STATUS_POS : Z := 5.
Definition CHB_FVN_POS : Z := 6.
Definition CHB_OQPSK_TX_OFFSET : Z := 2.
Definition CHB_BPSK_TX_OFFSET : Z := 3.
Definition RADIF_OQPSK : Z := 0x08.

Definition TIME_RST_PULSE_WIDTH : Z := 1.
Definition TIME_P_ON_WAIT : Z := 400.
Definition TIME_SLEEP_TO_TRX_OFF : Z := 380.
Definition TIME_TRX_OFF_TO_PLL_ON : Z := 200.
Definition TIME_RX_ON_TO_PLL_ON : Z := 1.
Definition TIME_ALL_STATES_TRX_OFF : Z := 1.
Definition TIME_PLL_LOCK_TIME : Z := 200.

Definition CMD_TX_START : Z := 2.
Definition CMD_FORCE_TRX_OFF : Z := 3.
Definition CMD_PLL_ON : Z := 9.

Definition BUSY_RX : Z := 1.
Definition BUSY_TX : Z := 2.
Definition RX_ON : Z := 6.
Definition TRX_OFF : Z := 8.
Definition PLL_ON : Z := 9.
Definition BUSY_RX_AACK : Z := 17.
Definition BUSY_TX_ARET : Z := 18.
Definition RX_AACK_ON : Z := 22.
Definition TX_ARET_ON : Z := 25.
Definition BUSY_RX_AACK_NOCLK : Z := 30.

Definition AT86RF212_VER_NUM : Z := 0x01.
Definition AT86RF212_PART_NUM : Z := 0x07.
Definition RADIO_SPI_CMD_RW : Z := 0xC0.
Definition RADIO_SPI_CMD_RR : Z := 0x80.
Definition RADIO_SPI_CMD_FW : Z := 0x60.
Definition RADIO_SPI_CMD_FR : Z := 0x20.
Definition RADIO_SPI_CMD_SW : Z := 0x40.
Definition RADIO_SPI_CMD_SR : Z := 0x00.

Definition RADIO_IRQ_CCA_ED_DONE : Z := 0x10.
Definition RADIO_IRQ_TRX_END : Z := 0x08.
Definition RADIO_IRQ_RX_START : Z := 0x04.

Definition RADIO_SUCCESS : Z := 0x40.
Definition RADIO_UNSUPPORTED_DEVICE : Z := 0x41.
Definition RADIO_INVALID_ARGUMENT : Z := 0x42.
Definition RADIO_TIMED_OUT : Z := 0x43.
Definition RADIO_WRONG_STATE : Z := 0x44.

(** ** Operations *)

Section Operations.
Context {P : Type} `{RadioPort P}.
Abbreviation S := (radio_state P).

Definition on_rport {A} (m : M P A) : M S A := lift r_port (λ p s, RadioState (r_if s) p) m.
Definition conf {A} (f : radif_config → A) : M S A := gets (f ∘ config ∘ r_if).
Definition spi_start : M S unit := on_rport spi_enable.
Definition spi_stop : M S unit := on_rport spi_disable.
Definition xfer (b : Z) : M S Z := on_rport (spi_xfer (u8 b)).
Definition wait_us (us : Z) : M S unit := on_rport (delay_us us).
Definition set_seq (v : Z) : M S unit :=
  modify (λ s, let r := r_if s in
    RadioState (Radif (RxProduceIndex r) (RxConsumeIndex r) (TxConsumeIndex r) (TxProduceIndex r)
      (RxFrames r) (TxFrames r) (Command r) (CommandOutput r) (config r) (up r) v (stats r)) (r_port s)).

(** *** [ieee_frame.c] *)

Definition write_spi_word (word : Z) : M S unit :=
  xfer (Z.land word 0xFF);; xfer (Z.land (Z.shiftr word 8) 0xFF);; mret tt.
Definition read_spi_word : M S Z :=
  lsb ← xfer BLANK_SPI_CHARACTER;
  msb ← xfer BLANK_SPI_CHARACTER;
  mret (u16 (Z.lor (Z.shiftl msb 8) lsb)).

Definition ieee_header_len : Z := 9.

Definition frame_control (tx : tx_frame) : Z :=
  let fcf := Z.lor (Z.lor (Z.lor (Z.lor (Z.shiftl FRAME_PAN_ID_16BIT_ADDR 14)
    (Z.shiftl FRAME_VERSION_IEEE_2006 12)) (Z.shiftl FRAME_PAN_ID_16BIT_ADDR 10))
    FCF_PAN_ID_COMPRESSION) FRAME_TYPE_DATA in
  if tx_ack tx >? 0 then Z.lor fcf FCF_ACKNOWLEDGE_REQUEST else fcf.

Definition write_out_ieee_header (tx : tx_frame) : M S unit :=
  write_spi_word (frame_control tx);;
  n ← gets (seq_id ∘ r_if);
  set_seq (u8 (n + 1));;
  xfer n;;
  pan ← conf pan_id;
  write_spi_word pan;;
  write_spi_word (tx_destination_address tx);;
  src ← conf short_address;
  write_spi_word src.

(** The number of octets read and the source address, which keeps its value
    when the header has none. *)
Definition read_in_ieee_header (source : Z) : M S (Z * Z) :=
  fcf ← read_spi_word;
  let pan_id_compression := u8 (Z.land fcf FCF_PAN_ID_COMPRESSION) in
  let dest_addr_mode := Z.land (Z.shiftr fcf 10) 0x3 in
  let src_addr_mode := Z.land (Z.shiftr fcf 14) 0x3 in
  xfer BLANK_SPI_CHARACTER;;
  read ← (if dest_addr_mode =? FRAME_PAN_ID_16BIT_ADDR then
            read_spi_word;; read_spi_word;; mret 7
          else if dest_addr_mode =? FRAME_PAN_ID_64BIT_ADDR then
            read_spi_word;; mret 5
          else mret 3);
  if src_addr_mode =? FRAME_PAN_ID_16BIT_ADDR then
    read ← (if negb (pan_id_compression =? 0) then mret read
            else read_spi_word;; mret (read + 2));
    src ← read_spi_word;
    mret (read + 2, src)
  else if src_addr_mode =? FRAME_PAN_ID_64BIT_ADDR then
    read ← (if negb (pan_id_compression =? 0) then mret read
            else read_spi_word;; mret (read + 2));
    mret (read, source)
  else mret (read, source).

(** *** [radio_functions.c]: registers *)

Definition radio_reg_read (addr : Z) : M S Z :=
  spi_start;;
  xfer (Z.lor addr RADIO_SPI_CMD_RR);;
  val ← xfer BLANK_SPI_CHARACTER;
  spi_stop;;
  mret val.
Definition radio_reg_read16 (addr : Z) : M S Z :=
  lo ← radio_reg_read addr;
  hi ← radio_reg_read (u8 (addr + 1));
  mret (u16 (Z.lor lo (Z.shiftl hi 8))).
Definition radio_reg_write (addr val : Z) : M S unit :=
  spi_start;;
  xfer (Z.lor addr RADIO_SPI_CMD_RW);;
  xfer val;;
  spi_stop.
Definition radio_reg_write16 (addr val : Z) : M S unit :=
  radio_reg_write addr (u8 val);;
  radio_reg_write (u8 (addr + 1)) (u8 (Z.shiftr val 8)).
Definition radio_reg_write64 (addr : Z) (val : list Z) : M S unit :=
  for_range 0 8 (λ i, v ← arr_get val i; radio_reg_write (u8 (addr + i)) v).
Definition radio_reg_read_mod_write (addr val mask : Z) : M S unit :=
  tmp ← radio_reg_read addr;
  let val := Z.land val mask in
  let tmp := Z.land tmp (unot 8 mask) in
  let tmp := Z.lor tmp val in
  radio_reg_write addr tmp.

(** *** Frames and memory *)

(** [for (i = 0; i < length; i++) data[i] = xfer(BLANK)] into an array. *)
Fixpoint read_data (n : nat) (i : Z) (data : list Z) : M S (list Z) :=
  match n with
  | O => mret data
  | Datatypes.S n =>
     b ← xfer BLANK_SPI_CHARACTER;
     data ← arr_set data i b;
     read_data n (i + 1) data
  end.

Definition radio_frame_read (rx : rx_frame) : M S (Z * rx_frame) :=
  spi_start;;
  xfer RADIO_SPI_CMD_FR;;
  mpdu_len ← xfer BLANK_SPI_CHARACTER;
  '(hdr_len, src) ← read_in_ieee_header (rx_source_address rx);
  let length := u8 (mpdu_len - (hdr_len + 2)) in
  data ← read_data (Z.to_nat length) 0 (rx_data rx);
  spi_stop;;
  mret (0xFF, RxFrame data length (rx_crc_status rx) (rx_energy_detect rx) src).
Definition radio_frame_read_dummy : M S unit :=
  spi_start;;
  xfer RADIO_SPI_CMD_FR;;
  len ← xfer BLANK_SPI_CHARACTER;
  for_range 0 (Z.to_nat len) (λ _, xfer BLANK_SPI_CHARACTER;; mret tt);;
  spi_stop.

(** A frame that is too long halts the program. *)
Definition radio_frame_write (tx : tx_frame) : M S unit :=
  spi_start;;
  xfer RADIO_SPI_CMD_FW;;
  let len := u8 (tx_length tx + ieee_header_len + 2) in
  xfer len;;
  if len >? 127 then spin
  else
    write_out_ieee_header tx;;
    for_range 0 (Z.to_nat (tx_length tx)) (λ i, b ← arr_get (tx_data tx) i; xfer b;; mret tt);;
    xfer BLANK_SPI_CHARACTER;;
    xfer BLANK_SPI_CHARACTER;;
    spi_stop.

Definition radio_sram_read (addr len : Z) (data : list Z) : M S (list Z) :=
  spi_start;;
  xfer RADIO_SPI_CMD_SR;;
  xfer addr;;
  data ← read_data (Z.to_nat len) 0 data;
  spi_stop;;
  mret data.
Definition radio_sram_write (addr len : Z) (data : list Z) : M S unit :=
  spi_start;;
  xfer RADIO_SPI_CMD_SW;;
  xfer addr;;
  for_range 0 (Z.to_nat len) (λ i, b ← arr_get data i; xfer b;; mret tt);;
  spi_stop.
End Operations.
