(* ===== verification/RadioOps.v ===== *)
(** * Radio state, configuration, interrupt handling
      ([src/radio/radio_functions.c], [src/radio/radio_irq.c], [src/radio/radio.c])

    The waits without a bound of their own are fuelled. *)

From S2P Require Import Prelude Hw RadioIf.
From Stdlib Require Import ZArith Lia.
From stdpp Require Import base numbers list.
Open Scope Z_scope.

Definition RADIF_NO_COMMAND : Z := 0.
Definition RADIF_RESET : Z := 1.
Definition RADIF_STARTUP : Z := 2.
Definition RADIF_GET_RANDOM_NUMBER : Z := 3.
Definition RADIF_SET_MODULATION : Z := 4.
Definition RADIF_SET_FREQ : Z := 5.
Definition RADIF_SET_POWER : Z := 6.
Definition RADIF_SET_ADDRESS : Z := 7.
Definition RADIF_ENERGY : Z := 8.
Definition RADIF_WAKE : Z := 9.
Definition RADIF_SLEEP : Z := 10.

Definition TRAC_SUCCESS : Z := 0.
Definition TRAC_SUCCESS_DATA_PENDING : Z := 1.
Definition TRAC_CHANNEL_ACCESS_FAIL : Z := 3.
Definition TRAC_NO_ACK : Z := 5.

(** The band and number of a frequency, or [None] for an unknown one. *)
Definition freq_band (freq : Z) : option (Z * Z) :=
  if (7690 <=? freq) && (freq <=? 7945) then Some (1, u8 (freq - 7690))
  else if (8570 <=? freq) && (freq <=? 8825) then Some (2, u8 (freq - 8570))
  else if (9030 <=? freq) && (freq <=? 9285) then Some (3, u8 (freq - 9030))
  else if (769 <=? freq) && (freq <=? 863) then Some (4, u8 (freq - 769))
  else if (833 <=? freq) && (freq <=? 935) then Some (5, u8 (freq - 833))
  else None.

(** Structure updates. *)
Definition with_rx (produce : Z) (frames : list rx_frame) (r : radif) : radif :=
  Radif produce (RxConsumeIndex r) (TxConsumeIndex r) (TxProduceIndex r) frames (TxFrames r)
    (Command r) (CommandOutput r) (config r) (up r) (seq_id r) (stats r).
Definition with_rx_consume (v : Z) (r : radif) : radif :=
  Radif (RxProduceIndex r) v (TxConsumeIndex r) (TxProduceIndex r) (RxFrames r) (TxFrames r)
    (Command r) (CommandOutput r) (config r) (up r) (seq_id r) (stats r).
Definition with_tx (produce : Z) (frames : list tx_frame) (r : radif) : radif :=
  Radif (RxProduceIndex r) (RxConsumeIndex r) (TxConsumeIndex r) produce (RxFrames r) frames
    (Command r) (CommandOutput r) (config r) (up r) (seq_id r) (stats r).
Definition with_tx_consume (v : Z) (r : radif) : radif :=
  Radif (RxProduceIndex r) (RxConsumeIndex r) v (TxProduceIndex r) (RxFrames r) (TxFrames r)
    (Command r) (CommandOutput r) (config r) (up r) (seq_id r) (stats r).
Definition with_command (c out : Z) (r : radif) : radif :=
  Radif (RxProduceIndex r) (RxConsumeIndex r) (TxConsumeIndex r) (TxProduceIndex r) (RxFrames r)
    (TxFrames r) c out (config r) (up r) (seq_id r) (stats r).
Definition with_up (v : Z) (r : radif) : radif :=
  Radif (RxProduceIndex r) (RxConsumeIndex r) (TxConsumeIndex r) (TxProduceIndex r) (RxFrames r)
    (TxFrames r) (Command r) (CommandOutput r) (config r) v (seq_id r) (stats r).
Definition with_stats (st : radif_stats) (r : radif) : radif :=
  Radif (RxProduceIndex r) (RxConsumeIndex r) (TxConsumeIndex r) (TxProduceIndex r) (RxFrames r)
    (TxFrames r) (Command r) (CommandOutput r) (config r) (up r) (seq_id r) st.

Section Operations.
Context {P : Type} `{RadioPort P} (fuel : nat).
Abbreviation S := (radio_state P).

Definition set_if (f : radif → radif) : M S unit := modify (λ s, RadioState (f (r_if s)) (r_port s)).

(** ** [radio_functions.c]: state *)

Definition radio_get_state : M S Z := v ← radio_reg_read TRX_STATUS; mret (Z.land v 0x1f).
Definition radio_is_state_busy : M S Z :=
  state ← radio_get_state;
  mret (if (state =? BUSY_RX) || (state =? BUSY_RX_AACK) || (state =? BUSY_RX_AACK_NOCLK) ||
           (state =? BUSY_TX) || (state =? BUSY_TX_ARET) then 1 else 0).
Definition radio_get_trac : M S Z :=
  v ← radio_reg_read TRX_STATE; mret (Z.shiftr v CHB_TRAC_STATUS_POS).

Definition radio_set_state (state : Z) : M S Z :=
  curr_state ← radio_get_state;
  if curr_state =? state then mret RADIO_SUCCESS
  else
    (if (curr_state =? BUSY_TX_ARET) || (curr_state =? BUSY_RX_AACK) || (curr_state =? BUSY_RX) ||
        (curr_state =? BUSY_TX)
     then poll fuel (st ← radio_get_state; mret (negb (st =? curr_state)))
     else mret tt);;
    (if state =? TRX_OFF then
       on_rport slptr_clear;;
       radio_reg_read_mod_write TRX_STATE CMD_FORCE_TRX_OFF 0x1f;;
       wait_us TIME_ALL_STATES_TRX_OFF
     else if state =? TX_ARET_ON then
       if curr_state =? RX_AACK_ON then
         radio_reg_read_mod_write TRX_STATE CMD_PLL_ON 0x1f;;
         wait_us TIME_RX_ON_TO_PLL_ON
       else mret tt
     else if state =? RX_AACK_ON then
       if curr_state =? TX_ARET_ON then
         radio_reg_read_mod_write TRX_STATE CMD_PLL_ON 0x1f;;
         wait_us TIME_RX_ON_TO_PLL_ON
       else mret tt
     else mret tt);;
    radio_reg_read_mod_write TRX_STATE state 0x1f;;
    wait_us (if curr_state =? TRX_OFF then TIME_TRX_OFF_TO_PLL_ON else TIME_RX_ON_TO_PLL_ON);;
    st ← radio_get_state;
    mret (if st =? state then RADIO_SUCCESS else RADIO_TIMED_OUT).

(** ** Properties *)

Definition radio_set_modulation : M S unit :=
  radio_set_state TRX_OFF;;
  m ← conf modulation;
  radio_reg_read_mod_write TRX_CTRL_2 m 0x3F;;
  if negb (Z.land m RADIF_OQPSK =? 0) then radio_reg_read_mod_write RF_CTRL_0 CHB_OQPSK_TX_OFFSET 0x3
  else radio_reg_read_mod_write RF_CTRL_0 CHB_BPSK_TX_OFFSET 0x3.

Definition radio_set_freq : M S Z :=
  f ← conf freq;
  match freq_band f with
  | None => mret RADIO_INVALID_ARGUMENT
  | Some (band, number) =>
     radio_reg_read_mod_write CC_CTRL_1 band 0x7;;
     radio_reg_write CC_CTRL_0 number;;
     state ← radio_get_state;
     (if (state =? RX_ON) || (state =? PLL_ON) then wait_us TIME_PLL_LOCK_TIME else mret tt);;
     mret RADIO_SUCCESS
  end.
Definition radio_set_pwr : M S unit := p ← conf power; radio_reg_write PHY_TX_PWR p.
Definition radio_set_address : M S unit :=
  pan ← conf pan_id;
  radio_reg_write16 PAN_ID_0 pan;;
  addr ← conf short_address;
  radio_reg_write16 SHORT_ADDR_0 addr.

(** ** Sleep, random numbers, energy *)

Definition radio_sleep : M S unit := radio_set_state TRX_OFF;; on_rport slptr_set.
Definition radio_wake : M S unit :=
  on_rport slptr_clear;;
  wait_us TIME_SLEEP_TO_TRX_OFF;;
  radio_set_state RX_AACK_ON;;
  mret tt.

(** Two bits from each of four readings, [i = 0, 2, 4, 6]. *)
Fixpoint random_loop (l : list Z) (rand : Z) : M S Z :=
  match l with
  | [] => mret rand
  | i :: l =>
     v ← radio_reg_read PHY_RSSI;
     random_loop l (u8 (Z.lor rand (Z.shiftr (Z.land (Z.shiftl v 1) 0xC0) i)))
  end.
Definition radio_get_random : M S Z := radio_set_state RX_ON;; random_loop [0; 2; 4; 6] 0.

Definition radio_measure_energy : M S Z :=
  radio_set_state RX_ON;;
  radio_reg_write PHY_ED_LEVEL BLANK_SPI_CHARACTER;;
  radio_reg_read_mod_write IRQ_MASK RADIO_IRQ_CCA_ED_DONE RADIO_IRQ_CCA_ED_DONE;;
  poll fuel (v ← radio_reg_read IRQ_STATUS; mret (negb (Z.land v RADIO_IRQ_CCA_ED_DONE =? 0)));;
  radio_reg_read_mod_write IRQ_MASK 0 RADIO_IRQ_CCA_ED_DONE;;
  radio_reg_read PHY_ED_LEVEL.

(** ** Reset and configuration *)

(** [while (!ok()) if (i++ > 100) return fail;] from [i]: true when the
    condition was met. *)
Fixpoint bounded_wait (n : nat) (ok : M S bool) : M S bool :=
  b ← ok;
  if b : bool then mret true
  else match n with O => mret false | Datatypes.S n => bounded_wait n ok end.

(** The second register is only read when the first one is right. *)
Definition part_known : M S bool :=
  v ← radio_reg_read VERSION_NUM;
  if negb (v =? AT86RF212_VER_NUM) then mret false
  else p ← radio_reg_read PART_NUM; mret (p =? AT86RF212_PART_NUM).

Definition radio_reset : M S Z :=
  on_rport reset_clear;; on_rport slptr_clear;; spi_stop;;
  wait_us TIME_P_ON_WAIT;;
  on_rport reset_set;; wait_us TIME_RST_PULSE_WIDTH;; on_rport reset_clear;;
  known ← bounded_wait 101 part_known;
  if negb known then mret RADIO_UNSUPPORTED_DEVICE
  else
    radio_reg_read_mod_write TRX_CTRL_0 0x19 0x3F;;
    radio_reg_read_mod_write TRX_STATE CMD_FORCE_TRX_OFF 0x1F;;
    wait_us TIME_ALL_STATES_TRX_OFF;;
    off ← bounded_wait 101 (v ← radio_reg_read TRX_STATUS; mret (Z.land v 0x1f =? TRX_OFF));
    if negb off then mret RADIO_WRONG_STATE
    else
      radio_reg_read IRQ_STATUS;;
      radio_reg_write IRQ_MASK 0;;
      mret RADIO_SUCCESS.

Definition radio_config : M S unit :=
  radio_reg_write XAH_CTRL_0
    (u8 (Z.lor (Z.shiftl RADIO_MAX_FRAME_RETRIES 4) (Z.shiftl RADIO_MAX_CSMA_RETRIES 1)));;
  radio_reg_read_mod_write CSMA_SEED_1 (u8 (Z.shiftl CHB_FRM_VER CHB_FVN_POS)) (u8 (Z.shiftl 3 CHB_FVN_POS));;
  radio_reg_write IRQ_MASK (Z.lor RADIO_IRQ_RX_START RADIO_IRQ_TRX_END);;
  crc ← conf auto_crc_gen;
  (if negb (crc =? 0) then radio_reg_read_mod_write TRX_CTRL_1 RADIO_AUTO_CRC_GEN RADIO_AUTO_CRC_GEN
   else mret tt);;
  pro ← conf promiscuous;
  (if negb (pro =? 0) then radio_reg_read_mod_write XAH_CTRL_1 RADIO_PROMISCUOUS RADIO_PROMISCUOUS
   else mret tt);;
  r ← radio_get_random;
  set_seq r.

(** ** [radio_irq.c] *)

Definition set_output (v : Z) : M S unit := set_if (λ r, with_command (Command r) v r).

Definition radio_command : M S unit :=
  c ← gets (Command ∘ r_if);
  (if c =? RADIF_NO_COMMAND then mret tt
   else if c =? RADIF_RESET then v ← radio_reset; set_output v
   else if c =? RADIF_STARTUP then radio_config;; set_if (with_up 0xFF)
   else if c =? RADIF_GET_RANDOM_NUMBER then v ← radio_get_random; set_output v
   else if c =? RADIF_SET_MODULATION then radio_set_modulation
   else if c =? RADIF_SET_FREQ then v ← radio_set_freq; set_output v
   else if c =? RADIF_SET_POWER then radio_set_pwr
   else if c =? RADIF_SET_ADDRESS then radio_set_address
   else if c =? RADIF_ENERGY then v ← radio_measure_energy; set_output v
   else if c =? RADIF_WAKE then radio_wake;; set_if (with_up 0xFF)
   else if c =? RADIF_SLEEP then radio_sleep;; set_if (with_up 0)
   else mret tt);;
  set_if (λ r, with_command RADIF_NO_COMMAND (CommandOutput r) r).

(** Array elements out of range are undefined. *)
Definition rx_get (l : list rx_frame) (i : Z) : M S rx_frame :=
  match l !! Z.to_nat i with Some f => mret f | None => fault end.
Definition tx_get (l : list tx_frame) (i : Z) : M S tx_frame :=
  match l !! Z.to_nat i with Some f => mret f | None => fault end.

Definition radio_tx : M S unit :=
  r ← gets r_if;
  let index := TxConsumeIndex r in
  if negb (index =? TxProduceIndex r) then
    busy ← radio_is_state_busy;
    if busy =? 0 then
      tx ← tx_get (TxFrames r) index;
      radio_set_state TRX_OFF;;
      radio_set_state TX_ARET_ON;;
      radio_frame_write tx;;
      radio_reg_read_mod_write TRX_STATE CMD_TX_START 0x1F;;
      set_if (with_tx_consume ((index + 1) mod Z.of_nat NUM_TXFRAMES))
    else mret tt
  else mret tt.

Definition count_tx (trac : Z) (st : radif_stats) : radif_stats :=
  if (trac =? TRAC_SUCCESS) || (trac =? TRAC_SUCCESS_DATA_PENDING) then
    RadifStats (rx_success_count st) (rx_overflow st) (u16 (tx_success_count st + 1))
      (tx_channel_fail st) (tx_noack st) (tx_invalid st) trac
  else if trac =? TRAC_CHANNEL_ACCESS_FAIL then
    RadifStats (rx_success_count st) (rx_overflow st) (tx_success_count st)
      (u16 (tx_channel_fail st + 1)) (tx_noack st) (tx_invalid st) trac
  else if trac =? TRAC_NO_ACK then
    RadifStats (rx_success_count st) (rx_overflow st) (tx_success_count st)
      (tx_channel_fail st) (u16 (tx_noack st + 1)) (tx_invalid st) trac
  else
    RadifStats (rx_success_count st) (rx_overflow st) (tx_success_count st)
      (tx_channel_fail st) (tx_noack st) (u16 (tx_invalid st + 1)) trac.
Definition radio_tx_end : M S unit :=
  trac_status ← radio_get_trac;
  set_if (λ r, with_stats (count_tx trac_status (stats r)) r).

Definition count_rx (ok : bool) (st : radif_stats) : radif_stats :=
  if ok then RadifStats (u16 (rx_success_count st + 1)) (rx_overflow st) (tx_success_count st)
    (tx_channel_fail st) (tx_noack st) (tx_invalid st) (last_trac_status st)
  else RadifStats (rx_success_count st) (u16 (rx_overflow st + 1)) (tx_success_count st)
    (tx_channel_fail st) (tx_noack st) (tx_invalid st) (last_trac_status st).

Definition radio_rx_end : M S unit :=
  r ← gets r_if;
  let index := RxProduceIndex r in
  let next := (index + 1) mod Z.of_nat NUM_RXFRAMES in
  (if negb (next =? RxConsumeIndex r) then
     rx ← rx_get (RxFrames r) index;
     ed ← radio_reg_read PHY_ED_LEVEL;
     rssi ← radio_reg_read PHY_RSSI;
     let crc := if negb (Z.land rssi (Z.shiftl 1 7) =? 0) then 1 else 0 in
     '(_, rx) ← radio_frame_read (RxFrame (rx_data rx) (rx_length rx) crc ed (rx_source_address rx));
     set_if (λ r, with_rx next (<[Z.to_nat index := rx]> (RxFrames r)) r);;
     set_if (λ r, with_stats (count_rx true (stats r)) r)
   else
     set_if (λ r, with_stats (count_rx false (stats r)) r);;
     radio_frame_read_dummy);;
  poll fuel (st ← radio_get_state; mret (negb (st =? BUSY_RX_AACK))).

Definition radio_trx_end : M S unit :=
  state ← radio_get_state;
  if (state =? RX_ON) || (state =? RX_AACK_ON) || (state =? BUSY_RX_AACK) then radio_rx_end
  else radio_tx_end.

Definition radio_irq : M S unit :=
  u ← gets (up ∘ r_if);
  (if negb (u =? 0) then
     intp_src ← radio_reg_read IRQ_STATUS;
     (if negb (Z.land intp_src RADIO_IRQ_TRX_END =? 0) then radio_trx_end else mret tt);;
     radio_tx
   else mret tt);;
  radio_command;;
  u ← gets (up ∘ r_if);
  if negb (u =? 0) then
    busy ← radio_is_state_busy;
    if busy =? 0 then
      poll fuel (v ← radio_set_state RX_AACK_ON; mret (v =? RADIO_SUCCESS))
    else mret tt
  else mret tt.

(** ** [radio.c] *)

(** [interrupt] is what the triggered interrupt runs before the wait for the
    command's completion is looked at; on the gateway it is [radio_irq]. *)
Definition radif_command (interrupt : M S unit) (command : Z) : M S Z :=
  set_if (λ r, with_command command (CommandOutput r) r);;
  interrupt;;
  c ← gets (Command ∘ r_if);
  if negb (c =? 0) then spin else gets (CommandOutput ∘ r_if).

(** [memcpy(tx->data, frame, len)] *)
Definition fill (frame data : list Z) (len : Z) : list Z :=
  take (Z.to_nat len) frame ++ drop (Z.to_nat len) data.

Definition radif_send (interrupt : M S unit) (frame : list Z) (len dest_addr ack : Z) : M S unit :=
  if len >? 127 then spin
  else
    r ← gets r_if;
    let index := TxProduceIndex r in
    let next := (index + 1) mod Z.of_nat NUM_TXFRAMES in
    go ← (if next =? TxConsumeIndex r then
            if negb (up r =? 0) then
              interrupt;;
              c ← gets (TxConsumeIndex ∘ r_if);
              if next =? c then spin else mret true
            else mret false
          else mret true);
    if go : bool then
      tx ← (r ← gets r_if; tx_get (TxFrames r) index);
      set_if (λ r, with_tx (TxProduceIndex r)
        (<[Z.to_nat index := TxFrame (fill frame (tx_data tx) len) len ack dest_addr]> (TxFrames r)) r);;
      set_if (λ r, with_tx next (TxFrames r) r);;
      interrupt
    else mret tt.
End Operations.
