(* ===== verification/RadioChip.v ===== *)
(** * Register accesses and start-up of the radio

    The chip as its data sheet describes it: a register file behind the SPI
    port.  The theorems say what the configuration functions leave in the
    registers, and that the reset procedure always comes to an end. *)

From S2P Require Import Prelude Hw RadioIf RadioOps.
From Stdlib Require Import ZArith Lia.
From stdpp Require Import base numbers list sets.
Open Scope Z_scope.

(** ** The wires

    An arbitrary automaton at the other end of the port; every exchange
    returns. *)
Class RadioWire (D : Type) : Type := {
  wire_spi :: SpiSlave D;
  wire_slptr : bool → D → D;
  wire_reset : bool → D → D;
  wire_delay : Z → D → D;
}.
#[export] Instance wire_port D `{RadioWire D} : RadioPort D := {
  rp_spi := slave_port D;
  slptr_set := λ d, Ok (tt, wire_slptr true d);
  slptr_clear := λ d, Ok (tt, wire_slptr false d);
  reset_set := λ d, Ok (tt, wire_reset true d);
  reset_clear := λ d, Ok (tt, wire_reset false d);
  delay_us n := λ d, Ok (tt, wire_delay n d);
}.

Create HintDb radio.

Section Wire.
Context {D : Type} `{RadioWire D}.
Abbreviation S := (radio_state D).

(** [gives Q m]: a chip access returns, leaves the interface structure alone
    and yields a value in [Q]. *)
Definition gives {A} (Q : A → Prop) (m : M S A) : Prop :=
  ∀ s, runs m s (λ a s', r_if s' = r_if s ∧ Q a).
Definition access {A} (m : M S A) : Prop := gives (λ _, True) m.

Lemma gives_ret {A} (Q : A → Prop) a : Q a → gives Q (mret a).
Proof. intros HQ s. by eapply runs_intro. Qed.
Lemma gives_bind {A B} (Q : B → Prop) (m : M S A) (k : A → M S B) :
  access m → (∀ a, gives Q (k a)) → gives Q (m ≫= k).
Proof.
  intros Hm Hk s. apply runs_bind. eapply runs_mono, Hm. intros a s1 [E1 _].
  eapply runs_mono, Hk. intros b s2 [E2 HQ]. split; [congruence|done].
Qed.
Lemma gives_if {A} (Q : A → Prop) (b : bool) (m k : M S A) :
  gives Q m → gives Q k → gives Q (if b then m else k).
Proof. by destruct b. Qed.
Lemma access_ret {A} (a : A) : access (mret a).
Proof. by apply gives_ret. Qed.
Lemma access_port {A} (f : D → A * D) : access (on_rport (λ d, Ok (f d))).
Proof. intros s. unfold runs, on_rport, lift. by destruct (f (r_port s)). Qed.
Lemma access_gets {A} (f : S → A) : access (gets f).
Proof. intros s. by eapply runs_intro. Qed.
Lemma access_xfer b : access (xfer b).
Proof. apply (access_port (slave_xfer (u8 b))). Qed.
Lemma access_start : access spi_start.
Proof. apply (access_port (λ d, (tt, slave_select d))). Qed.
Lemma access_stop : access spi_stop.
Proof. apply (access_port (λ d, (tt, slave_deselect d))). Qed.
Lemma access_wait us : access (wait_us us).
Proof. apply (access_port (λ d, (tt, wire_delay us d))). Qed.
Lemma access_slptr_set : access (on_rport slptr_set).
Proof. apply (access_port (λ d, (tt, wire_slptr true d))). Qed.
Lemma access_slptr_clear : access (on_rport slptr_clear).
Proof. apply (access_port (λ d, (tt, wire_slptr false d))). Qed.
Lemma access_reset_set : access (on_rport reset_set).
Proof. apply (access_port (λ d, (tt, wire_reset true d))). Qed.
Lemma access_reset_clear : access (on_rport reset_clear).
Proof. apply (access_port (λ d, (tt, wire_reset false d))). Qed.
End Wire.

#[export] Hint Resolve access_ret access_gets access_xfer access_start access_stop access_wait
  access_slptr_set access_slptr_clear access_reset_set access_reset_clear : radio.

(** Straight-line chip accesses. *)
Ltac access :=
  repeat first
    [ solve [eauto with radio]
    | progress unfold access
    | match goal with |- gives (λ _, True) ?m => change (access m); solve [eauto with radio] end
    | apply gives_bind; [solve [eauto with radio]|intros ?]
    | apply gives_if
    | apply gives_ret; try done ].

Section Steps.
Context {D : Type} `{RadioWire D}.
Implicit Types (r : radif) (d : D).

Lemma wire_xfer_ok b r d :
  xfer b (RadioState r d) = Ok ((slave_xfer (u8 b) d).1, RadioState r (slave_xfer (u8 b) d).2).
Proof. unfold xfer, on_rport, lift. simpl. by destruct (slave_xfer (u8 b) d). Qed.
Lemma start_ok r d : spi_start (RadioState r d) = Ok (tt, RadioState r (slave_select d)).
Proof. done. Qed.
Lemma stop_ok r d : spi_stop (RadioState r d) = Ok (tt, RadioState r (slave_deselect d)).
Proof. done. Qed.
Lemma wait_ok n r d : wait_us n (RadioState r d) = Ok (tt, RadioState r (wire_delay n d)).
Proof. done. Qed.
End Steps.

(** Evaluate a run of port accesses. *)
Ltac wire_step :=
  repeat (rewrite bind_unfold; rewrite ?start_ok, ?wire_xfer_ok, ?stop_ok, ?wait_ok).

Section Access.
Context {D : Type} `{RadioWire D}.
Abbreviation S := (radio_state D).

Lemma access_reg_read a : access (D:=D) (radio_reg_read a).
Proof. unfold radio_reg_read. access. Qed.
Lemma access_reg_write a v : access (D:=D) (radio_reg_write a v).
Proof. unfold radio_reg_write. access. Qed.
#[local] Hint Resolve access_reg_read access_reg_write : radio.
Lemma access_rmw a v m : access (D:=D) (radio_reg_read_mod_write a v m).
Proof. unfold radio_reg_read_mod_write. access. Qed.
#[local] Hint Resolve access_rmw : radio.
Lemma access_part_known : access (D:=D) part_known.
Proof. unfold part_known. access. Qed.
Lemma access_bounded_wait n (ok : M S bool) : access ok → access (bounded_wait n ok).
Proof.
  intros Hok. induction n as [|n IH]; simpl; (apply gives_bind; [done|]); intros b;
    destruct b; first [apply access_ret|apply IH].
Qed.
#[local] Hint Resolve access_part_known access_bounded_wait : radio.
Lemma access_off : access (D:=D) (v ← radio_reg_read TRX_STATUS; mret (Z.land v 0x1f =? TRX_OFF)).
Proof. access. Qed.
#[local] Hint Resolve access_off : radio.

(** The three results of a reset. *)
Definition reset_result (v : Z) : Prop :=
  v = RADIO_SUCCESS ∨ v = RADIO_UNSUPPORTED_DEVICE ∨ v = RADIO_WRONG_STATE.
Lemma reset_gives : gives (D:=D) reset_result radio_reset.
Proof. unfold radio_reset, reset_result. access; auto. Qed.
End Access.

(** ** The register file *)

(** Registers that the chip changes by itself. *)
Definition volatile_reg (a : Z) : bool :=
  (a =? TRX_STATUS) || (a =? TRX_STATE) || (a =? PHY_RSSI) || (a =? PHY_ED_LEVEL) || (a =? IRQ_STATUS).
Definition plain_reg (a : Z) : bool := (0 <=? a) && (a <? 64) && negb (volatile_reg a).

(** A register access of the data sheet: the command octet, then the value,
    between the two edges of the select line.  Delays and the sleep line do
    not touch the plain registers. *)
Class RadioChip (D : Type) `{RadioWire D} : Type := {
  chip_ready : D → Prop;
  chip_reg : D → Z → Z;
  chip_read : ∀ d a, chip_ready d → 0 ≤ a < 64 →
    let d2 := (slave_xfer (Z.lor a RADIO_SPI_CMD_RR) (slave_select d)).2 in
    let '(v, d3) := slave_xfer 0 d2 in
    let d4 := slave_deselect d3 in
    is_u8 v ∧ (plain_reg a = true → v = chip_reg d a) ∧ chip_ready d4 ∧
    ∀ k, plain_reg k = true → chip_reg d4 k = chip_reg d k;
  chip_write : ∀ d a v, chip_ready d → 0 ≤ a < 64 → is_u8 v →
    let d2 := (slave_xfer (Z.lor a RADIO_SPI_CMD_RW) (slave_select d)).2 in
    let d4 := slave_deselect (slave_xfer v d2).2 in
    chip_ready d4 ∧
    ∀ k, plain_reg k = true → chip_reg d4 k = if decide (k = a) then v else chip_reg d k;
  chip_delay : ∀ d n, chip_ready d →
    chip_ready (wire_delay n d) ∧
    ∀ k, plain_reg k = true → chip_reg (wire_delay n d) k = chip_reg d k;
}.

Section Registers.
Context {D : Type} `{RadioChip D}.
Abbreviation S := (radio_state D).
Implicit Types s : S.

Definition ready s : Prop := chip_ready (r_port s).
Definition reg_of s (a : Z) : Z := chip_reg (r_port s) a.

Lemma lor_command a c : 0 ≤ a < 64 → (c = RADIO_SPI_CMD_RR ∨ c = RADIO_SPI_CMD_RW) → is_u8 (Z.lor a c).
Proof.
  intros Ha Hc. rewrite Z.lor_comm.
  replace (Z.lor c a) with (Z.lor a (Z.shiftl (c / 64) 6)) by (destruct Hc as [-> | ->]; apply Z.lor_comm).
  rewrite lor_add_disjoint by lia. unfold is_u8.
  destruct Hc as [-> | ->];
    [change (RADIO_SPI_CMD_RR / 64) with 2|change (RADIO_SPI_CMD_RW / 64) with 3]; lia.
Qed.

Lemma radio_reg_read_ok a s :
  ready s → 0 ≤ a < 64 →
  runs (radio_reg_read a) s (λ v s', is_u8 v ∧ (plain_reg a = true → v = reg_of s a) ∧ ready s' ∧
    r_if s' = r_if s ∧ ∀ k, plain_reg k = true → reg_of s' k = reg_of s k).
Proof.
  intros Hr Ha. destruct s as [r d]. unfold ready, reg_of in *. simpl in *.
  pose proof (chip_read d a Hr Ha) as Hc. unfold runs, radio_reg_read. wire_step.
  rewrite (u8_small (Z.lor a _)) by (apply lor_command; auto).
  destruct (slave_xfer (Z.lor a RADIO_SPI_CMD_RR) (slave_select d)) as [x d2]. simpl in *.
  unfold BLANK_SPI_CHARACTER. change (u8 0) with 0.
  destruct (slave_xfer 0 d2) as [v d3]. simpl. destruct Hc as (H1 & H2 & H3 & H4). auto.
Qed.

Lemma radio_reg_write_ok a v s :
  ready s → 0 ≤ a < 64 →
  runs (radio_reg_write a v) s (λ _ s', ready s' ∧ r_if s' = r_if s ∧
    ∀ k, plain_reg k = true → reg_of s' k = if decide (k = a) then u8 v else reg_of s k).
Proof.
  intros Hr Ha. destruct s as [r d]. unfold ready, reg_of in *. simpl in *.
  pose proof (chip_write d a (u8 v) Hr Ha (u8_range v)) as Hc. unfold runs, radio_reg_write. wire_step.
  rewrite (u8_small (Z.lor a _)) by (apply lor_command; auto).
  destruct (slave_xfer (Z.lor a RADIO_SPI_CMD_RW) (slave_select d)) as [x d2]. simpl in *.
  destruct (slave_xfer (u8 v) d2) as [y d3]. simpl in *. destruct Hc as (H1 & H2). auto.
Qed.

(** Replace the bits of a mask. *)
Definition merge (old val mask : Z) : Z := Z.lor (Z.land old (unot 8 mask)) (Z.land val mask).

Lemma merge_u8 old val mask : is_u8 old → is_u8 mask → is_u8 (merge old val mask).
Proof.
  intros Ho Hm. unfold merge.
  assert (0 ≤ Z.lor (Z.land old (unot 8 mask)) (Z.land val mask)) as Hnn.
  { apply Z.lor_nonneg. split; apply Z.land_nonneg; unfold is_u8 in *; [lia|lia]. }
  assert (u8 (Z.lor (Z.land old (unot 8 mask)) (Z.land val mask))
    = Z.lor (Z.land old (unot 8 mask)) (Z.land val mask)) as <-; [|apply u8_range].
  apply Z.bits_inj'. intros i Hi. unfold u8. rewrite mod_pow2_testbit by lia.
  case_bool_decide; [done|]. rewrite Z.lor_spec, !Z.land_spec.
  by rewrite (testbit_above 8 old), (testbit_above 8 mask), !andb_false_r by (done || lia).
Qed.

Lemma radio_rmw_ok a val mask s :
  ready s → plain_reg a = true → is_u8 mask →
  runs (radio_reg_read_mod_write a val mask) s (λ _ s', ready s' ∧ r_if s' = r_if s ∧
    ∀ k, plain_reg k = true →
      reg_of s' k = if decide (k = a) then merge (reg_of s a) val mask else reg_of s k).
Proof.
  intros Hr Ha Hm. assert (0 ≤ a < 64) as Ha' by (unfold plain_reg in Ha; lia).
  unfold radio_reg_read_mod_write. apply runs_bind. eapply runs_mono, (radio_reg_read_ok a s Hr Ha').
  intros v s1 (Hv & Ev & Hr1 & E1 & Hk1). rewrite (Ev Ha) in *.
  eapply runs_mono, (radio_reg_write_ok a _ s1 Hr1 Ha').
  intros _ s2 (Hr2 & E2 & Hk2). split; [done|]. split; [congruence|]. intros k Hk.
  rewrite Hk2 by done. case_decide; [|by apply Hk1]. subst. fold (merge (reg_of s a) val mask).
  apply u8_small, merge_u8; done.
Qed.
End Registers.

(** ** Frequency and addresses *)

(** The carrier, in units of 100 kHz, that the channel registers select
    (table 7-35 of the data sheet). *)
Definition carrier (ctrl1 ctrl0 : Z) : option Z :=
  let band := Z.land ctrl1 0x7 in
  if band =? 1 then Some (7690 + ctrl0) else if band =? 2 then Some (8570 + ctrl0)
  else if band =? 3 then Some (9030 + ctrl0) else if band =? 4 then Some (10 * (769 + ctrl0))
  else if band =? 5 then Some (10 * (833 + ctrl0)) else None.
(** A requested frequency is given in MHz or in units of 100 kHz. *)
Definition requested (f : Z) : Z := if f <? 1000 then 10 * f else f.

Lemma freq_band_carrier f band number :
  freq_band f = Some (band, number) →
  0 ≤ band < 8 ∧ is_u8 number ∧ carrier band number = Some (requested f).
Proof.
  unfold freq_band. intros E.
  repeat match type of E with
  | context [if ?b then _ else _] => destruct b eqn:?
  end; try done; injection E as <- <-;
    (split; [lia|]; split; [auto with cint|]; unfold carrier, requested;
     rewrite u8_small by (unfold is_u8; lia); simpl; case_match; f_equal; lia).
Qed.

Lemma merge_low old val w :
  0 ≤ w ≤ 8 → is_u8 old → 0 ≤ val < 2 ^ w →
  Z.land (merge old val (Z.ones w)) (Z.ones w) = val ∧
  Z.shiftr (merge old val (Z.ones w)) w = Z.shiftr old w.
Proof.
  intros Hw Ho Hv. unfold merge, unot. split; apply Z.bits_inj'; intros i Hi.
  - rewrite Z.land_spec, Z.lor_spec, !Z.land_spec, Z.lxor_spec, !ones_testbit by lia.
    destruct (decide (i < w)).
    + rewrite (bool_decide_eq_true_2 (i < w)), (bool_decide_eq_true_2 (i < 8)) by lia.
      by rewrite andb_false_r, !andb_true_r.
    + rewrite (bool_decide_eq_false_2 (i < w)) by lia. rewrite andb_false_r.
      symmetry. apply (testbit_above w); lia.
  - rewrite !Z.shiftr_spec, Z.lor_spec, !Z.land_spec, Z.lxor_spec, !ones_testbit by lia.
    rewrite (bool_decide_eq_false_2 (i + w < w)) by lia. rewrite andb_false_r, orb_false_r.
    case_bool_decide; [apply andb_true_r|]. by rewrite (testbit_above 8) by (done || lia).
Qed.

Section Claims.
Context {D : Type} `{RadioChip D}.
Abbreviation S := (radio_state D).
Implicit Types s : S.

(** Registers other than those listed keep their values. *)
Definition unchanged (l : list Z) s s' : Prop :=
  ∀ k, plain_reg k = true → k ∉ l → reg_of s' k = reg_of s k.

Definition tuned s (v : Z) s' : Prop :=
  let f := freq (config (r_if s)) in
  if decide (freq_band f = None) then v = RADIO_INVALID_ARGUMENT ∧ s' = s
  else v = RADIO_SUCCESS ∧
    carrier (reg_of s' CC_CTRL_1) (reg_of s' CC_CTRL_0) = Some (requested f) ∧
    Z.shiftr (reg_of s' CC_CTRL_1) 3 = Z.shiftr (reg_of s CC_CTRL_1) 3 ∧
    unchanged [CC_CTRL_0; CC_CTRL_1] s s'.

Lemma set_freq_ok s :
  ready s → is_u8 (reg_of s CC_CTRL_1) → runs radio_set_freq s (tuned s).
Proof.
  intros Hr H8. unfold radio_set_freq, conf, tuned. apply runs_bind. unfold runs at 1, gets. simpl.
  set (f := freq (config (r_if s))). destruct (freq_band f) as [[band number]|] eqn:E.
  2:{ by eapply runs_intro. }
  destruct (freq_band_carrier f band number E) as (Hb & Hn & Hc).
  apply runs_bind. eapply runs_mono, (radio_rmw_ok CC_CTRL_1 band 0x7 s Hr); [|done|by_decision].
  intros _ s1 (Hr1 & E1 & Hk1). apply runs_bind.
  eapply runs_mono, (radio_reg_write_ok CC_CTRL_0 number s1 Hr1); [|unfold CC_CTRL_0; lia].
  intros _ s2 (Hr2 & E2 & Hk2). apply runs_bind. unfold radio_get_state. apply runs_bind.
  eapply runs_mono, (radio_reg_read_ok TRX_STATUS s2 Hr2); [|unfold TRX_STATUS; lia].
  intros v s3 (_ & _ & Hr3 & E3 & Hk3). unfold runs at 1, mret at 1, M_ret at 1.
  assert (∀ s4, (∀ k, plain_reg k = true → reg_of s4 k = reg_of s3 k) →
    RADIO_SUCCESS = RADIO_SUCCESS ∧
    carrier (reg_of s4 CC_CTRL_1) (reg_of s4 CC_CTRL_0) = Some (requested f) ∧
    Z.shiftr (reg_of s4 CC_CTRL_1) 3 = Z.shiftr (reg_of s CC_CTRL_1) 3 ∧
    unchanged [CC_CTRL_0; CC_CTRL_1] s s4) as Hfin.
  { intros s4 Hk4. destruct (merge_low (reg_of s CC_CTRL_1) band 3 ltac:(lia) H8 ltac:(lia)) as [Hlo Hhi].
    assert (reg_of s4 CC_CTRL_1 = merge (reg_of s CC_CTRL_1) band (Z.ones 3)) as ->.
    { rewrite Hk4, Hk3, Hk2, decide_False, Hk1, decide_True by done. done. }
    assert (reg_of s4 CC_CTRL_0 = number) as ->.
    { rewrite Hk4, Hk3, Hk2, decide_True by done. by apply u8_small. }
    split; [done|]. split; [|split; [done|]].
    - rewrite <-Hc. unfold carrier. change 7 with (Z.ones 3). rewrite Hlo.
      by rewrite (Z.land_ones band), Z.mod_small by lia.
    - intros k Hk Hnot. rewrite Hk4, Hk3, Hk2, decide_False, Hk1, decide_False by (done || set_solver). done. }
  apply runs_bind. destruct (_ || _).
  - destruct s3 as [r3 d3]. unfold runs at 1. rewrite wait_ok. eapply runs_intro; [done|].
    apply Hfin. intros k Hk. by apply chip_delay.
  - eapply runs_intro; [done|]. eapply runs_intro; [done|]. by apply Hfin.
Qed.

Lemma write16_ok a v s :
  ready s → 0 ≤ a < 63 →
  runs (radio_reg_write16 a v) s (λ _ s', ready s' ∧ r_if s' = r_if s ∧
    ∀ k, plain_reg k = true → reg_of s' k =
      if decide (k = a) then u8 v else if decide (k = a + 1) then u8 (Z.shiftr v 8) else reg_of s k).
Proof.
  intros Hr Ha. unfold radio_reg_write16. apply runs_bind.
  eapply runs_mono, (radio_reg_write_ok a (u8 v) s Hr); [|lia].
  intros _ s1 (Hr1 & E1 & Hk1). rewrite (u8_small (a + 1)) by (unfold is_u8; lia).
  eapply runs_mono, (radio_reg_write_ok (a + 1) _ s1 Hr1); [|lia].
  intros _ s2 (Hr2 & E2 & Hk2). split; [done|]. split; [congruence|]. intros k Hk.
  rewrite Hk2, Hk1 by done. repeat case_decide; try lia; by rewrite ?(u8_small (u8 _)) by auto with cint.
Qed.

(** Tuning.  [radio_set_freq] either leaves the channel registers denoting
    exactly the requested frequency, every other configuration bit unchanged,
    or rejects a frequency outside the supported bands without touching the
    chip. *)
Theorem set_freq_tunes s :
  ready s → is_u8 (reg_of s CC_CTRL_1) → runs radio_set_freq s (tuned s).
Proof. apply set_freq_ok. Qed.

(** Addressing.  [radio_set_address] stores the network identifier and the
    short address, low octet first, and changes no other register. *)
Theorem set_address_stores s :
  ready s → is_u16 (pan_id (config (r_if s))) → is_u16 (short_address (config (r_if s))) →
  runs radio_set_address s (λ _ s',
    reg_of s' PAN_ID_0 + 2 ^ 8 * reg_of s' (PAN_ID_0 + 1) = pan_id (config (r_if s)) ∧
    reg_of s' SHORT_ADDR_0 + 2 ^ 8 * reg_of s' (SHORT_ADDR_0 + 1) = short_address (config (r_if s)) ∧
    unchanged [SHORT_ADDR_0; SHORT_ADDR_0 + 1; PAN_ID_0; PAN_ID_0 + 1] s s').
Proof.
  intros Hr Hp Ha. unfold radio_set_address, conf. apply runs_bind. unfold runs at 1, gets. simpl.
  apply runs_bind. eapply runs_mono, (write16_ok PAN_ID_0 _ s Hr); [|unfold PAN_ID_0; lia].
  intros _ s1 (Hr1 & E1 & Hk1). apply runs_bind. unfold runs at 1. simpl. rewrite E1.
  eapply runs_mono, (write16_ok SHORT_ADDR_0 _ s1 Hr1); [|unfold SHORT_ADDR_0; lia].
  intros _ s2 (Hr2 & E2 & Hk2).
  assert (∀ x, is_u16 x → u8 x + 2 ^ 8 * u8 (Z.shiftr x 8) = x) as Hx.
  { intros x Hx. rewrite Z.shiftr_div_pow2 by lia. cint. }
  split; [|split].
  - rewrite !Hk2, !decide_False, !Hk1 by done. rewrite decide_True by done.
    rewrite decide_False, decide_True by done. by apply Hx.
  - rewrite !Hk2 by done. rewrite decide_True by done. rewrite decide_False, decide_True by done. by apply Hx.
  - intros k Hk Hnot. rewrite Hk2, !decide_False, Hk1, !decide_False by (done || set_solver). done.
Qed.

End Claims.

(** The reset procedure ends.  Whatever the chip answers, [radio_reset]
    returns one of its three results after at most 102 attempts at each of
    its two waits, and does not touch the interface structure. *)
Theorem radio_reset_returns {D} `{RadioWire D} (s : radio_state D) :
  runs radio_reset s (λ v s', r_if s' = r_if s ∧ reset_result v).
Proof. apply reset_gives. Qed.

(** ** A chip *)

(** The registers and the octets received since the select line fell. *)
Record chip_model : Type := ChipModel { cm_regs : Z → Z; cm_got : list Z }.

#[export] Instance chip_wire : RadioWire chip_model := {
  wire_spi := {|
    slave_xfer b c :=
      match cm_got c with
      | [cmd] =>
         if decide (RADIO_SPI_CMD_RW ≤ cmd) then
           (0, ChipModel (λ a, if decide (a = cmd - RADIO_SPI_CMD_RW) then b else cm_regs c a) [cmd; b])
         else (u8 (cm_regs c (cmd - RADIO_SPI_CMD_RR)), ChipModel (cm_regs c) [cmd; b])
      | got => (0, ChipModel (cm_regs c) (got ++ [b]))
      end;
    slave_select c := ChipModel (cm_regs c) [];
    slave_deselect c := ChipModel (cm_regs c) [];
  |};
  wire_slptr _ c := c;
  wire_reset _ c := c;
  wire_delay _ c := c;
}.

Lemma lor_rr a : 0 ≤ a < 64 → Z.lor a RADIO_SPI_CMD_RR = a + 128.
Proof. intros. change RADIO_SPI_CMD_RR with (Z.shiftl 2 6). rewrite lor_add_disjoint; lia. Qed.
Lemma lor_rw a : 0 ≤ a < 64 → Z.lor a RADIO_SPI_CMD_RW = a + 192.
Proof. intros. change RADIO_SPI_CMD_RW with (Z.shiftl 3 6). rewrite lor_add_disjoint; lia. Qed.

#[export] Instance chip_is_chip : RadioChip chip_model.
Proof.
  refine {| chip_ready c := ∀ a, is_u8 (cm_regs c a); chip_reg c a := cm_regs c a |}.
  - intros d a Hd Ha. rewrite lor_rr by done. simpl. unfold RADIO_SPI_CMD_RW, RADIO_SPI_CMD_RR.
    rewrite decide_False by lia. simpl. replace (a + 128 - 128) with a by lia.
    split; [auto with cint|]. split; [|done]. intros _. by apply u8_small.
  - intros d a v Hd Ha Hv. rewrite lor_rw by done. simpl. unfold RADIO_SPI_CMD_RW.
    rewrite decide_True by lia. simpl. replace (a + 192 - 192) with a by lia.
    split; [|done]. intros k. by case_decide.
  - done.
Defined.

Definition demo_config : radif_config := RadifConfig 0x19 0xFF 0 8683 0xe8 0x09 0x1234 0x0001.
Definition demo_radif : radif :=
  Radif 0 0 0 0 (replicate 8 (RxFrame (replicate 127 0) 0 0 0 0))
    (replicate 8 (TxFrame (replicate 127 0) 0 0 0)) 0 0 demo_config 0xFF 5 (RadifStats 0 0 0 0 0 0 0).
Definition demo_chip : radio_state chip_model := RadioState demo_radif (ChipModel (λ _, 0xA5) []).

Lemma set_freq_tunes_witness : runs radio_set_freq demo_chip (tuned demo_chip).
Proof. apply set_freq_tunes; [intros a; by_decision|by_decision]. Defined.

Lemma set_address_stores_witness :
  runs radio_set_address demo_chip (λ _ s',
    reg_of s' PAN_ID_0 + 2 ^ 8 * reg_of s' (PAN_ID_0 + 1) = 0x1234 ∧
    reg_of s' SHORT_ADDR_0 + 2 ^ 8 * reg_of s' (SHORT_ADDR_0 + 1) = 0x0001 ∧
    unchanged [SHORT_ADDR_0; SHORT_ADDR_0 + 1; PAN_ID_0; PAN_ID_0 + 1] demo_chip s').
Proof.
  apply (set_address_stores demo_chip); [intros a; by_decision|unfold is_u16; simpl; lia..].
Defined.
