(* ===== verification/RadioFrame.v ===== *)
(** * Frames over the air

    What [radio_frame_write] puts in the frame buffer of the chip is what
    [radio_frame_read] of another node hands to its application; which
    received frames the reader takes without leaving its buffer. *)

From S2P Require Import Prelude Hw RadioIf RadioOps RadioChip.
From Stdlib Require Import ZArith Lia.
From stdpp Require Import base numbers list.
Open Scope Z_scope.

(** ** Octets on the port *)

Section Octets.
Context {D : Type} `{RadioWire D}.
Abbreviation S := (radio_state D).
Implicit Types (s : S) (d : D).

(** [feeds l d]: the slave answers fillers with the octets of [l]. *)
Fixpoint feeds (l : list Z) d : Prop :=
  match l with [] => True | b :: l => (slave_xfer 0 d).1 = b ∧ feeds l (slave_xfer 0 d).2 end.

Lemma feeds_exchange l d : (exchange (replicate (length l) 0) d).1 = l ↔ feeds l d.
Proof.
  revert d. induction l as [|b l IH]; intros d; [done|]. simpl.
  destruct (slave_xfer 0 d) as [r d1]. specialize (IH d1).
  destruct (exchange (replicate (length l) 0) d1) as [rs d2]. simpl in *. rewrite <-IH. split; [by intros [= -> ->]|by intros [-> ->]].
Qed.
Lemma feeds_app l k d : feeds (l ++ k) d → feeds l d.
Proof. revert d. induction l as [|b l IH]; intros d; [done|]. intros [? ?]. split; auto. Qed.

Lemma xfer_feeds b l s :
  feeds (b :: l) (r_port s) →
  runs (xfer BLANK_SPI_CHARACTER) s (λ v s', v = b ∧ r_if s' = r_if s ∧ feeds l (r_port s')).
Proof. destruct s as [r d]. simpl. intros [? ?]. unfold runs. by rewrite wire_xfer_ok. Qed.

(** A 16-bit word, low octet first. *)
Lemma word_feeds a b l s :
  is_u8 a → is_u8 b → feeds (a :: b :: l) (r_port s) →
  runs read_spi_word s (λ v s', v = le_word [a; b] ∧ r_if s' = r_if s ∧ feeds l (r_port s')).
Proof.
  intros Ha Hb Hf. unfold read_spi_word. apply runs_bind. eapply runs_mono, (xfer_feeds a), Hf.
  intros ? s1 (-> & E1 & F1). apply runs_bind. eapply runs_mono, (xfer_feeds b), F1.
  intros ? s2 (-> & E2 & F2). eapply runs_intro; [done|]. split; [|split; [congruence|done]].
  rewrite Z.lor_comm, lor_add_disjoint by (unfold is_u8 in *; lia).
  simpl. rewrite u16_small; unfold is_u8, is_u16 in *; lia.
Qed.

(** The data of a frame, into an array. *)
Lemma data_feeds l : ∀ k data s,
  feeds (l ++ k) (r_port s) → ∀ i, (i + length l ≤ length data)%nat →
  runs (read_data (length l) (Z.of_nat i) data) s (λ v s',
    v = take i data ++ l ++ drop (i + length l) data ∧ r_if s' = r_if s ∧ feeds k (r_port s')).
Proof.
  induction l as [|b l IH]; intros k data s Hf i Hi; simpl read_data.
  { eapply runs_intro; [done|]. simpl. by rewrite Nat.add_0_r, take_drop. }
  apply runs_bind. eapply runs_mono, (xfer_feeds b), Hf. intros ? s1 (-> & E1 & F1).
  simpl in Hi. unfold arr_set. rewrite decide_True by lia. rewrite Nat2Z.id.
  apply runs_bind. eapply runs_intro; [done|]. replace (Z.of_nat i + 1) with (Z.of_nat (i + 1)) by lia.
  eapply runs_mono, (IH k _ s1 F1 (i + 1)%nat); [|rewrite length_insert; lia].
  intros ? s2 (-> & E2 & F2). split; [|split; [congruence|done]].
  rewrite (insert_take_drop data i b) by lia.
  assert (length (take i data) = i) as Hlen by (rewrite length_take; lia).
  rewrite take_app_ge, Hlen by lia. replace (i + 1 - i)%nat with 1%nat by lia. simpl.
  rewrite drop_app_ge, Hlen by lia. replace (i + 1 + length l - i)%nat with (1 + length l)%nat by lia.
  simpl. rewrite drop_drop, <-!app_assoc. simpl. do 3 f_equal. f_equal. lia.
Qed.

(** [sent l d0 s]: the port has exchanged [l] since [d0]. *)
Definition sent (l : list Z) d0 s : Prop := r_port s = (exchange l d0).2.
Lemma xfer_sent b l d0 s :
  sent l d0 s → runs (xfer b) s (λ _ s', r_if s' = r_if s ∧ sent (l ++ [u8 b]) d0 s').
Proof.
  destruct s as [r d]. unfold sent. simpl. intros ->. unfold runs. rewrite wire_xfer_ok. split; [done|].
  rewrite exchange_app. destruct (exchange l d0) as [rs d1]. simpl. by destruct (slave_xfer (u8 b) d1).
Qed.
Lemma word_sent w l d0 s :
  sent l d0 s → runs (write_spi_word w) s (λ _ s', r_if s' = r_if s ∧ sent (l ++ le_bytes 2 w) d0 s').
Proof.
  intros Hs. unfold write_spi_word. apply runs_bind. eapply runs_mono, (xfer_sent _ _ _ _ Hs).
  intros ? s1 [E1 F1]. apply runs_bind. eapply runs_mono, (xfer_sent _ _ _ _ F1).
  intros ? s2 [E2 F2]. eapply runs_intro; [done|]. split; [congruence|].
  rewrite <-app_assoc in F2. change 0xFF with (Z.ones 8) in F2.
  rewrite !Z.land_ones, Z.shiftr_div_pow2 in F2 by lia.
  assert (∀ x, u8 (x mod 2 ^ 8) = u8 x) as Hx by (intros; apply Z.mod_mod; lia).
  rewrite !Hx in F2. done.
Qed.

Lemma data_sent data n : ∀ i l d0 s,
  (i + n ≤ length data)%nat → bytes_ok data → sent l d0 s →
  runs (for_range (Z.of_nat i) n (λ i, b ← arr_get data i; xfer b;; mret tt)) s
    (λ _ s', r_if s' = r_if s ∧ sent (l ++ take n (drop i data)) d0 s').
Proof.
  induction n as [|n IH]; intros i l d0 s Hi Hd Hs; simpl for_range.
  { eapply runs_intro; [done|]. by rewrite app_nil_r. }
  assert (i < length data)%nat as Hi' by lia.
  destruct (lookup_lt_is_Some_2 data i Hi') as [b Hb]. rewrite (drop_S _ _ _ Hb).
  apply runs_bind. unfold arr_get. rewrite decide_True by lia. apply runs_bind.
  eapply runs_intro; [done|]. rewrite Nat2Z.id, (octet_lookup _ _ _ Hb). apply runs_bind.
  eapply runs_mono, (xfer_sent _ _ _ _ Hs). intros ? s1 [E1 F1]. eapply runs_intro; [done|].
  replace (Z.of_nat i + 1) with (Z.of_nat (Datatypes.S i)) by lia.
  eapply runs_mono, (IH (Datatypes.S i) _ _ _ ltac:(lia) Hd F1). intros ? s2 [E2 F2]. split; [congruence|].
  rewrite u8_small in F2 by by eapply Forall_lookup_1 in Hd. by rewrite <-app_assoc in F2.
Qed.
End Octets.

(** ** Headers *)

Definition pan_compressed (fcf : Z) : bool := negb (u8 (Z.land fcf FCF_PAN_ID_COMPRESSION) =? 0).
Definition dest_mode (fcf : Z) : Z := Z.land (Z.shiftr fcf 10) 0x3.
Definition src_mode (fcf : Z) : Z := Z.land (Z.shiftr fcf 14) 0x3.

(** The octets of a header, by its frame control field. *)
Definition dest_len (fcf : Z) : nat :=
  if dest_mode fcf =? FRAME_PAN_ID_16BIT_ADDR then 4
  else if dest_mode fcf =? FRAME_PAN_ID_64BIT_ADDR then 2 else 0.
Definition pan_len (fcf : Z) : nat := if pan_compressed fcf then 0 else 2.
Definition src_len (fcf : Z) : nat :=
  if src_mode fcf =? FRAME_PAN_ID_16BIT_ADDR then pan_len fcf + 2
  else if src_mode fcf =? FRAME_PAN_ID_64BIT_ADDR then pan_len fcf else 0.
Definition header_len (fcf : Z) : nat := 3 + dest_len fcf + src_len fcf.
(** The address they carry. *)
Definition header_source (fcf old : Z) (bs : list Z) : Z :=
  if src_mode fcf =? FRAME_PAN_ID_16BIT_ADDR then le_word (take 2 (drop (header_len fcf - 2) bs)) else old.

Section Headers.
Context {D : Type} `{RadioWire D}.
Abbreviation S := (radio_state D).
Implicit Types (s : S) (d : D).

(** Skip [n] octets of a stream, a word at a time. *)
Lemma word_skip bs s :
  bytes_ok bs → (2 ≤ length bs)%nat → feeds bs (r_port s) →
  runs read_spi_word s (λ v s',
    v = le_word (take 2 bs) ∧ r_if s' = r_if s ∧ feeds (drop 2 bs) (r_port s')).
Proof.
  intros Hb Hl Hf. destruct bs as [|a [|b bs]]; [simpl in Hl; lia..|]. forall_inv.
  by apply word_feeds.
Qed.

Lemma bytes_ok_drop n bs : bytes_ok bs → bytes_ok (drop n bs).
Proof. apply Forall_drop. Qed.

Lemma dest_skip fcf bs s :
  bytes_ok bs → (4 ≤ length bs)%nat → feeds bs (r_port s) →
  runs (if dest_mode fcf =? FRAME_PAN_ID_16BIT_ADDR then
          read_spi_word;; read_spi_word;; mret 7
        else if dest_mode fcf =? FRAME_PAN_ID_64BIT_ADDR then read_spi_word;; mret 5
        else mret 3) s
    (λ v s', v = 3 + Z.of_nat (dest_len fcf) ∧ r_if s' = r_if s ∧ feeds (drop (dest_len fcf) bs) (r_port s')).
Proof.
  intros Hb Hl Hf. unfold dest_len. repeat case_match; [|apply runs_bind|by eapply runs_intro].
  - apply runs_bind. eapply runs_mono, (word_skip bs s); [|done|lia|done].
    intros ? s1 (_ & E1 & F1). apply runs_bind. eapply runs_mono, (word_skip _ s1), F1;
      [|by apply bytes_ok_drop|rewrite length_drop; lia].
    intros ? s2 (_ & E2 & F2). eapply runs_intro; [done|]. rewrite drop_drop in F2.
    split; [done|]. split; [congruence|done].
  - eapply runs_mono, (word_skip bs s); [|done|lia|done].
    intros ? s1 (_ & E1 & F1). by eapply runs_intro.
Qed.

Lemma pan_skip fcf n bs s :
  bytes_ok bs → (2 ≤ length bs)%nat → feeds bs (r_port s) →
  runs (if pan_compressed fcf then mret n else read_spi_word;; mret (n + 2)) s
    (λ v s', v = n + Z.of_nat (pan_len fcf) ∧ r_if s' = r_if s ∧ feeds (drop (pan_len fcf) bs) (r_port s')).
Proof.
  intros Hb Hl Hf. unfold pan_len. case_match.
  - eapply runs_intro; [done|]. rewrite Z.add_0_r. by rewrite drop_0.
  - apply runs_bind. eapply runs_mono, (word_skip bs s); [|done|lia|done].
    intros ? s1 (_ & E1 & F1). by eapply runs_intro.
Qed.

Lemma read_header_ok old bs s :
  bytes_ok bs → (11 ≤ length bs)%nat → feeds bs (r_port s) →
  let fcf := le_word (take 2 bs) in
  runs (read_in_ieee_header old) s (λ '(n, src) s',
    n = Z.of_nat (header_len fcf) ∧ src = header_source fcf old bs ∧
    r_if s' = r_if s ∧ feeds (drop (header_len fcf) bs) (r_port s')).
Proof.
  intros Hb Hl Hf fcf. unfold read_in_ieee_header. apply runs_bind.
  eapply runs_mono, (word_skip bs s); [|done|lia|done]. intros ? s1 (-> & E1 & F1). fold fcf.
  destruct (drop 2 bs) as [|c bs'] eqn:Hc; [apply (f_equal length) in Hc; rewrite length_drop in Hc; simpl in Hc; lia|].
  apply runs_bind. eapply runs_mono, (xfer_feeds c bs' s1 F1). intros ? s2 (_ & E2 & F2).
  assert (bs' = drop 3 bs) as -> by (change 3%nat with (2 + 1)%nat; by rewrite <-drop_drop, Hc).
  apply runs_bind. eapply runs_mono, (dest_skip fcf (drop 3 bs) s2);
    [|by apply bytes_ok_drop|rewrite length_drop; lia|done].
  intros ? s3 (-> & E3 & F3). rewrite drop_drop in F3. fold (src_mode fcf).
  change (negb (u8 (Z.land fcf FCF_PAN_ID_COMPRESSION) =? 0)) with (pan_compressed fcf).
  assert (dest_len fcf ≤ 4)%nat as Hd by (unfold dest_len; repeat case_match; lia).
  assert (pan_len fcf ≤ 2)%nat as Hp by (unfold pan_len; case_match; lia).
  unfold header_source, header_len, src_len.
  destruct (src_mode fcf =? FRAME_PAN_ID_16BIT_ADDR) eqn:Hs; [|case_match].
  - apply runs_bind. eapply runs_mono, (pan_skip fcf _ (drop (3 + dest_len fcf) bs) s3);
      [|by apply bytes_ok_drop|rewrite length_drop; lia|done].
    intros ? s4 (-> & E4 & F4). rewrite drop_drop in F4. apply runs_bind.
    eapply runs_mono, (word_skip (drop (3 + dest_len fcf + pan_len fcf) bs) s4);
      [|by apply bytes_ok_drop|rewrite length_drop; lia|done].
    intros ? s5 (-> & E5 & F5). rewrite drop_drop in F5. eapply runs_intro; [done|].
    split; [lia|]. split; [do 3 f_equal; lia|]. split; [congruence|].
    by rewrite <-Nat.add_assoc in F5.
  - apply runs_bind. eapply runs_mono, (pan_skip fcf _ (drop (3 + dest_len fcf) bs) s3);
      [|by apply bytes_ok_drop|rewrite length_drop; lia|done].
    intros ? s4 (-> & E4 & F4). rewrite drop_drop in F4. eapply runs_intro; [done|].
    split; [lia|]. split; [done|]. split; [congruence|done].
  - eapply runs_intro; [done|]. split; [lia|]. split; [done|]. split; [congruence|].
    by rewrite Nat.add_0_r.
Qed.
End Headers.

(** ** The frame buffer of the chip *)

(** The frame to transmit and the received frame, as the data sheet describes
    the frame buffer: a write fills the one; a read delivers its length, its
    octets, and then octets without meaning. *)
Class FrameBuffer (D : Type) `{RadioWire D} : Type := {
  chip_tx : D → list Z;
  chip_rx : D → list Z;
  chip_frame_write : ∀ d m,
    bytes_ok m → (length m ≤ 127)%nat →
    chip_tx (slave_deselect (exchange (RADIO_SPI_CMD_FW :: Z.of_nat (length m) :: m) (slave_select d)).2) = m;
  chip_frame_read : ∀ d n,
    ∃ k, length k = n ∧ bytes_ok k ∧
      feeds (Z.of_nat (length (chip_rx d)) :: chip_rx d ++ k)
        (slave_xfer RADIO_SPI_CMD_FR (slave_select d)).2;
}.

(** The structure after a sequence number has been used. *)
Definition with_seq (v : Z) (r : radif) : radif :=
  Radif (RxProduceIndex r) (RxConsumeIndex r) (TxConsumeIndex r) (TxProduceIndex r) (RxFrames r)
    (TxFrames r) (Command r) (CommandOutput r) (config r) (up r) v (stats r).

Section Frames.
Context {D : Type} `{FrameBuffer D}.
Abbreviation S := (radio_state D).
Implicit Types (s : S) (d : D).

(** *** Writing *)

Record tx_ok (tx : tx_frame) : Prop := {
  tx_ok_data : bytes_ok (tx_data tx) ∧ length (tx_data tx) = FRAME_DATA;
  tx_ok_length : 0 ≤ tx_length tx ≤ 116;
  tx_ok_dest : is_u16 (tx_destination_address tx);
}.
(** The sender's fields. *)
Record sender_ok (r : radif) : Prop := {
  so_seq : is_u8 (seq_id r);
  so_pan : is_u16 (pan_id (config r));
  so_addr : is_u16 (short_address (config r));
}.

(** The octets of a frame: header, data, room for the check sequence. *)
Definition frame_header (r : radif) (tx : tx_frame) : list Z :=
  le_bytes 2 (frame_control tx) ++ [u8 (seq_id r)] ++ le_bytes 2 (pan_id (config r)) ++
  le_bytes 2 (tx_destination_address tx) ++ le_bytes 2 (short_address (config r)).
Definition payload (tx : tx_frame) : list Z := take (Z.to_nat (tx_length tx)) (tx_data tx).
Definition mpdu (r : radif) (tx : tx_frame) : list Z := frame_header r tx ++ payload tx ++ [0; 0].

Lemma length_payload tx : tx_ok tx → length (payload tx) = Z.to_nat (tx_length tx).
Proof. intros [[_ Hd] Hl _]. unfold payload. rewrite length_take, Hd. unfold FRAME_DATA. lia. Qed.
Lemma payload_ok tx : tx_ok tx → bytes_ok (payload tx).
Proof. intros [[Hd _] _ _]. by apply Forall_take. Qed.
Lemma length_mpdu r tx : tx_ok tx → Z.of_nat (length (mpdu r tx)) = tx_length tx + ieee_header_len + 2.
Proof.
  intros Ht. unfold mpdu. rewrite !length_app, (length_payload tx Ht). unfold frame_header, ieee_header_len.
  simpl. destruct Ht as [_ Hl _]. lia.
Qed.
Lemma header_ok r tx : bytes_ok (frame_header r tx).
Proof. unfold frame_header. repeat apply bytes_ok_app; auto with cint. by repeat constructor; apply u8_range. Qed.
Lemma mpdu_ok r tx : tx_ok tx → bytes_ok (mpdu r tx).
Proof.
  intros Ht. apply bytes_ok_app; [apply header_ok|].
  apply bytes_ok_app; [by apply payload_ok|by_decision].
Qed.

Lemma write_header_sent tx l d0 s :
  sent l d0 s →
  runs (write_out_ieee_header tx) s (λ _ s',
    r_if s' = with_seq (u8 (seq_id (r_if s) + 1)) (r_if s) ∧ sent (l ++ frame_header (r_if s) tx) d0 s').
Proof.
  intros Hs. unfold write_out_ieee_header, conf. apply runs_bind.
  eapply runs_mono, (word_sent _ _ _ _ Hs). intros ? s1 [E1 F1].
  apply runs_bind. unfold runs at 1, gets. apply runs_bind. unfold runs at 1, set_seq, modify. simpl.
  apply runs_bind. eapply runs_mono; [|apply xfer_sent, F1]. intros ? s2 [E2 F2].
  apply runs_bind. unfold runs at 1, gets. simpl. apply runs_bind.
  eapply runs_mono, (word_sent _ _ _ _ F2). intros ? s3 [E3 F3].
  apply runs_bind. eapply runs_mono, (word_sent _ _ _ _ F3). intros ? s4 [E4 F4].
  apply runs_bind. unfold runs at 1, gets. simpl.
  eapply runs_mono, (word_sent _ _ _ _ F4). intros ? s5 [E5 F5].
  split; [rewrite E5, E4, E3, E2; simpl; by rewrite E1|].
  rewrite E4, E3, E2 in F5. simpl in F5. rewrite E1 in F5. rewrite <-!app_assoc in F5. done.
Qed.

Lemma frame_write_ok tx s :
  tx_ok tx →
  runs (radio_frame_write tx) s (λ _ s',
    r_if s' = with_seq (u8 (seq_id (r_if s) + 1)) (r_if s) ∧ chip_tx (r_port s') = mpdu (r_if s) tx).
Proof.
  intros Ht. destruct s as [r d]. unfold radio_frame_write. rewrite <-(length_mpdu r tx Ht).
  pose proof (length_mpdu r tx Ht) as Hm. destruct (tx_ok_length tx Ht) as [Hl0 Hl].
  unfold ieee_header_len in Hm. rewrite u8_small by (unfold is_u8; lia).
  apply runs_bind. unfold runs at 1. rewrite start_ok.
  assert (sent [] (slave_select d) (RadioState r (slave_select d))) as F0 by done.
  apply runs_bind. eapply runs_mono, (xfer_sent _ _ _ _ F0). intros ? s1 [E1 F1].
  apply runs_bind. eapply runs_mono, (xfer_sent _ _ _ _ F1). intros ? s2 [E2 F2].
  rewrite Z.gtb_ltb, (proj2 (Z.ltb_ge _ _)) by lia. apply runs_bind.
  eapply runs_mono, (write_header_sent tx _ _ _ F2). intros ? s3 [E3 F3].
  destruct (tx_ok_data tx Ht) as [Hd Hdl]. apply runs_bind.
  eapply runs_mono; [|apply (data_sent (tx_data tx) (Z.to_nat (tx_length tx)) 0), F3];
    [|rewrite Hdl; unfold FRAME_DATA; lia|done]. intros ? s4 [E4 F4].
  apply runs_bind. eapply runs_mono, (xfer_sent _ _ _ _ F4). intros ? s5 [E5 F5].
  apply runs_bind. eapply runs_mono, (xfer_sent _ _ _ _ F5). intros ? s6 [E6 F6].
  destruct s6 as [r6 d6]. unfold runs. rewrite stop_ok. cbn [r_if r_port] in *. subst r6.
  split; [by rewrite E5, E4, E3, E2, E1|].
  unfold sent in F6. cbn [r_if r_port] in *. rewrite F6, E2, E1.
  rewrite (u8_small (Z.of_nat _)) by (unfold is_u8; lia). rewrite <-!app_assoc.
  apply (chip_frame_write d (mpdu r tx) (mpdu_ok r tx Ht)). lia.
Qed.

(** *** Reading *)

(** Writing past the end of the array. *)
Lemma read_data_overruns n : ∀ i data s,
  (i ≤ length data)%nat → (length data < i + n)%nat →
  read_data n (Z.of_nat i) data s = Fault.
Proof.
  induction n as [|n IH]; intros i data [r d] Hi Hn; [lia|]. simpl read_data. wire_step.
  unfold arr_set. case_decide; [|done]. simpl.
  replace (Z.of_nat i + 1) with (Z.of_nat (Datatypes.S i)) by lia.
  apply IH; rewrite length_insert; lia.
Qed.

Definition frame_control_of (m : list Z) : Z := le_word (take 2 m).
Definition rx_payload (m : list Z) : list Z :=
  let h := header_len (frame_control_of m) in take (length m - h - 2) (drop h m).

(** The frame handed over for a received sequence of octets. *)
Definition delivered (rx : rx_frame) (m : list Z) : rx_frame :=
  let data := rx_payload m in
  RxFrame (data ++ drop (length data) (rx_data rx)) (Z.of_nat (length data)) (rx_crc_status rx)
    (rx_energy_detect rx) (header_source (frame_control_of m) (rx_source_address rx) m).

Lemma header_len_bound fcf : (3 ≤ header_len fcf ≤ 11)%nat.
Proof. unfold header_len, dest_len, src_len, pan_len. repeat case_match; lia. Qed.

(** The end of a read. *)
Definition read_rest (rx : rx_frame) (length src : Z) : M S (Z * rx_frame) :=
  data ← read_data (Z.to_nat length) 0 (rx_data rx);
  spi_stop;;
  mret (0xFF, RxFrame data length (rx_crc_status rx) (rx_energy_detect rx) src).

(** The start of a read: the header of the frame in the buffer, and what lies
    behind it. *)
Lemma frame_read_start (rx : rx_frame) s :
  let m := chip_rx (r_port s) in
  bytes_ok m → (2 ≤ length m)%nat →
  let h := header_len (frame_control_of m) in
  ∃ k s', r_if s' = r_if s ∧ feeds (drop h (m ++ k)) (r_port s') ∧
    radio_frame_read rx s =
      read_rest rx (u8 (Z.of_nat (length m) - (Z.of_nat h + 2)))
        (header_source (frame_control_of m) (rx_source_address rx) (m ++ k)) s'.
Proof.
  intros m Hm Hl h. destruct s as [r d]. cbn [r_if r_port] in *.
  destruct (chip_frame_read d 11) as (k & Hk & Hkb & Hf). fold m in Hf. exists k.
  assert (frame_control_of m = le_word (take 2 (m ++ k))) as Hfc.
  { unfold frame_control_of. by rewrite take_app_le by lia. }
  unfold radio_frame_read. rewrite (bind_ok _ _ _ _ _ (start_ok r d)).
  rewrite (bind_ok _ _ _ _ _ (wire_xfer_ok _ r _)). change (u8 RADIO_SPI_CMD_FR) with RADIO_SPI_CMD_FR.
  set (d2 := (slave_xfer RADIO_SPI_CMD_FR (slave_select d)).2) in *.
  destruct (runs_inv _ _ _ (xfer_feeds _ _ (RadioState r d2) Hf)) as (b & s1 & Eq1 & -> & E1 & F1).
  rewrite (bind_ok _ _ _ _ _ Eq1).
  assert (bytes_ok (m ++ k)) as Hmk by auto with cint.
  assert (11 ≤ length (m ++ k))%nat as Hlen by (rewrite length_app; lia).
  destruct (runs_inv _ _ _ (read_header_ok (rx_source_address rx) (m ++ k) s1 Hmk Hlen F1))
    as ([n src] & s2 & Eq2 & Hn & Hsrc & E2 & F2).
  rewrite (bind_ok _ _ _ _ _ Eq2). rewrite <-Hfc in *. exists s2.
  split; [by rewrite E2|]. split; [done|]. by rewrite Hn, Hsrc.
Qed.

Lemma frame_read_ok (rx : rx_frame) s :
  let m := chip_rx (r_port s) in
  bytes_ok m → (header_len (frame_control_of m) + 2 ≤ length m ≤ 127)%nat →
  length (rx_data rx) = FRAME_DATA →
  runs (radio_frame_read rx) s (λ v s', v = (0xFF, delivered rx m) ∧ r_if s' = r_if s).
Proof.
  intros m Hm Hl Hrx. pose proof (header_len_bound (frame_control_of m)) as Hb.
  destruct (frame_read_start rx s Hm ltac:(fold m; lia)) as (k & s1 & E1 & F1 & Eq). fold m in F1, Eq.
  unfold runs. rewrite Eq. change (runs (read_rest rx (u8 (Z.of_nat (length m) -
    (Z.of_nat (header_len (frame_control_of m)) + 2)))
    (header_source (frame_control_of m) (rx_source_address rx) (m ++ k))) s1
    (λ v s', v = (0xFF, delivered rx m) ∧ r_if s' = r_if s)).
  set (h := header_len (frame_control_of m)) in *.
  assert (length (rx_payload m) = length m - h - 2)%nat as Hp.
  { unfold rx_payload. fold h. rewrite length_take, length_drop. lia. }
  rewrite u8_small by (unfold is_u8; lia).
  replace (Z.of_nat (length m) - (Z.of_nat h + 2)) with (Z.of_nat (length (rx_payload m))) by lia.
  assert (drop h (m ++ k) = rx_payload m ++ drop (length m - h - 2) (drop h m) ++ k) as Hd.
  { rewrite drop_app_le by lia. unfold rx_payload. fold h. by rewrite app_assoc, take_drop. }
  rewrite Hd in F1. unfold read_rest. rewrite Nat2Z.id. apply runs_bind.
  eapply runs_mono; [|apply (data_feeds (rx_payload m) _ (rx_data rx) s1 F1 0)].
  2:{ rewrite Hrx, Hp. unfold FRAME_DATA. lia. }
  intros ? [r2 d2] (-> & E2 & F2). apply runs_bind. unfold runs at 1. rewrite stop_ok.
  eapply runs_intro; [done|]. cbn [r_if] in *. split; [|congruence].
  unfold delivered. simpl app. do 2 f_equal. unfold header_source. fold h. case_match; [|done].
  by rewrite drop_app_le, take_app_le by (rewrite ?length_drop; lia).
Qed.

Lemma frame_read_short (rx : rx_frame) s :
  let m := chip_rx (r_port s) in
  bytes_ok m → (2 ≤ length m < header_len (frame_control_of m) + 2)%nat →
  length (rx_data rx) = FRAME_DATA →
  radio_frame_read rx s = Fault.
Proof.
  intros m Hm Hl Hrx. pose proof (header_len_bound (frame_control_of m)) as Hb.
  destruct (frame_read_start rx s Hm ltac:(fold m; lia)) as (k & s1 & E1 & F1 & Eq). fold m in F1, Eq.
  rewrite Eq. unfold read_rest. rewrite bind_unfold.
  rewrite (read_data_overruns _ 0); [done|lia|]. rewrite Hrx. unfold FRAME_DATA.
  replace (u8 _) with (Z.of_nat (length m) - (Z.of_nat (header_len (frame_control_of m)) + 2) + 2 ^ 8) by cint. lia.
Qed.
End Frames.

(** ** From one node to another *)

(** The transmitter replaces the last two octets by the check sequence. *)
Definition on_air (m c : list Z) : list Z := take (length m - 2) m ++ c.

Lemma frame_control_cases tx : frame_control tx = 0x9841 ∨ frame_control tx = 0x9861.
Proof. unfold frame_control. case_match; [by right|by left]. Qed.
Lemma header_len_control tx : header_len (frame_control tx) = 9%nat.
Proof. by destruct (frame_control_cases tx) as [-> | ->]. Qed.

Lemma on_air_mpdu r tx c : on_air (mpdu r tx) c = frame_header r tx ++ payload tx ++ c.
Proof.
  unfold on_air, mpdu. rewrite (app_assoc (frame_header r tx)), (length_app _ [0; 0]).
  change (length [0; 0]) with 2%nat. rewrite Nat.add_sub. by rewrite take_app_length, app_assoc.
Qed.
Lemma control_on_air r tx l : frame_control_of (frame_header r tx ++ l) = frame_control tx.
Proof.
  unfold frame_control_of, frame_header. simpl app. change (take 2 _) with (le_bytes 2 (frame_control tx)).
  rewrite le_word_bytes. by destruct (frame_control_cases tx) as [-> | ->].
Qed.
Lemma source_on_air r tx l old :
  is_u16 (short_address (config r)) →
  header_source (frame_control tx) old (frame_header r tx ++ l) = short_address (config r).
Proof.
  intros Ha. unfold header_source. rewrite header_len_control.
  assert (src_mode (frame_control tx) = 2) as -> by by destruct (frame_control_cases tx) as [-> | ->].
  change (le_word (le_bytes 2 (short_address (config r))) = short_address (config r)).
  rewrite le_word_bytes. by apply Z.mod_small.
Qed.
Lemma payload_on_air r tx c : length c = 2%nat → rx_payload (frame_header r tx ++ payload tx ++ c) = payload tx.
Proof.
  intros Hc. unfold rx_payload. rewrite control_on_air, header_len_control.
  assert (length (frame_header r tx) = 9%nat) as Hh by done.
  rewrite drop_app_ge, Hh, !length_app, Hc, Hh by lia. change (9 - 9)%nat with 0%nat. rewrite drop_0.
  replace (9 + (length (payload tx) + 2) - 9 - 2)%nat with (length (payload tx)) by lia.
  apply take_app_length.
Qed.

Section Claims.
Context {D1 D2 : Type} `{FrameBuffer D1} `{FrameBuffer D2}.

(** C7. Frames survive the air.  For a frame of at most 116 octets, what one
    node writes is what another node reads once the transmitter has filled
    in the check sequence: the same data at the start of the buffer, the
    same length, and the sender's address as its source. *)
Theorem frame_round_trip tx rx (s : radio_state D1) c :
  tx_ok tx → sender_ok (r_if s) → bytes_ok c → length c = 2%nat → length (rx_data rx) = FRAME_DATA →
  runs (radio_frame_write tx) s (λ _ s',
    ∀ s2 : radio_state D2, chip_rx (r_port s2) = on_air (chip_tx (r_port s')) c →
    runs (radio_frame_read rx) s2 (λ '(_, rx') s2',
      rx_length rx' = tx_length tx ∧
      rx_data rx' = payload tx ++ drop (length (payload tx)) (rx_data rx) ∧
      rx_source_address rx' = short_address (config (r_if s)) ∧ r_if s2' = r_if s2)).
Proof.
  intros Ht Hs Hc Hcl Hrx. eapply runs_mono, (frame_write_ok tx s Ht). intros ? s' [_ Htx] s2 Hair.
  rewrite Htx, on_air_mpdu in Hair. pose proof (length_payload tx Ht) as Hp.
  destruct (tx_ok_length tx Ht) as [Hl0 Hl].
  assert (length (frame_header (r_if s) tx) = 9%nat) as Hh by done.
  eapply runs_mono; [|apply (frame_read_ok rx s2); rewrite ?Hair]; cycle 1.
  - apply bytes_ok_app; [apply header_ok|]. apply bytes_ok_app; [by apply payload_ok|done].
  - rewrite control_on_air, header_len_control, !length_app, Hh, Hcl. lia.
  - done.
  - intros [v rx'] s2' [[= -> ->] E]. rewrite Hair. unfold delivered.
    cbn [rx_length rx_data rx_source_address]. rewrite payload_on_air, control_on_air, source_on_air by (done || apply so_addr, Hs).
    split; [lia|done].
Qed.

(** C15. Received frames and the receive buffer.  For a frame of at least two
    octets in the chip's buffer, [radio_frame_read] returns exactly when the
    frame is long enough for the header its control field announces and the
    check sequence; the length of a shorter frame wraps around, and the
    octets stored run past the end of the array. *)
Theorem frame_read_fits rx (s : radio_state D1) :
  let m := chip_rx (r_port s) in
  bytes_ok m → (2 ≤ length m ≤ 127)%nat → length (rx_data rx) = FRAME_DATA →
  ((header_len (frame_control_of m) + 2 ≤ length m)%nat →
    runs (radio_frame_read rx) s (λ v s', v = (0xFF, delivered rx m) ∧ r_if s' = r_if s)) ∧
  ((length m < header_len (frame_control_of m) + 2)%nat → radio_frame_read rx s = Fault).
Proof.
  intros m Hm Hl Hrx. split; intros Hh.
  - apply frame_read_ok; [done|subst m; lia|done].
  - apply frame_read_short; [done|subst m; lia|done].
Qed.
End Claims.

(** ** A frame buffer *)

Record frame_chip : Type := FrameChip { fc_tx : list Z; fc_rx : list Z; fc_got : list Z }.

Definition fc_frame (c : frame_chip) : list Z := map u8 (take 127 (fc_rx c)).
Definition fc_answer (c : frame_chip) : Z :=
  match fc_got c with
  | cmd :: rest =>
     if decide (cmd = RADIO_SPI_CMD_FR) then (Z.of_nat (length (fc_frame c)) :: fc_frame c).[length rest] else 0
  | [] => 0
  end.
#[export] Instance frame_chip_wire : RadioWire frame_chip := {
  wire_spi := {|
    slave_xfer b c := (fc_answer c, FrameChip (fc_tx c) (fc_rx c) (fc_got c ++ [b]));
    slave_select c := FrameChip (fc_tx c) (fc_rx c) [];
    slave_deselect c :=
      match fc_got c with
      | cmd :: n :: m =>
         if decide (cmd = RADIO_SPI_CMD_FW) then FrameChip (take (Z.to_nat n) m) (fc_rx c) [] else c
      | _ => c
      end;
  |};
  wire_slptr _ c := c;
  wire_reset _ c := c;
  wire_delay _ c := c;
}.

Lemma exchange_fc l c :
  (exchange l c).2 = FrameChip (fc_tx c) (fc_rx c) (fc_got c ++ l).
Proof.
  revert c. induction l as [|b l IH]; intros c; simpl; [by destruct c; rewrite app_nil_r|].
  specialize (IH (FrameChip (fc_tx c) (fc_rx c) (fc_got c ++ [b]))).
  destruct (exchange l _). simpl in *. by rewrite IH, <-app_assoc.
Qed.

(** The octets a read delivers from position [i]. *)
Lemma feeds_fc l : ∀ c i,
  fc_got c = RADIO_SPI_CMD_FR :: replicate i 0 →
  l = map (octet (Z.of_nat (length (fc_frame c)) :: fc_frame c)) (seq i (length l)) → feeds l c.
Proof.
  induction l as [|b l IH]; intros c i Hg Hl; [done|]. simpl seq in Hl. simpl map in Hl.
  injection Hl as Hb Hl. split.
  - simpl. unfold fc_answer. rewrite Hg, decide_True by done. by rewrite length_replicate, Hb.
  - simpl slave_xfer. apply (IH _ (S i)); [|done]. simpl. rewrite Hg. simpl. f_equal.
    by rewrite <-replicate_cons_app.
Qed.

#[export] Instance frame_chip_buffer : FrameBuffer frame_chip.
Proof.
  refine {| chip_tx := fc_tx; chip_rx := fc_frame |}.
  - intros d m _ _. rewrite exchange_fc. simpl. by rewrite Nat2Z.id, take_ge.
  - intros d n. exists (replicate n 0). split; [by rewrite length_replicate|].
    split; [by apply Forall_replicate|]. apply (feeds_fc _ _ 0); [done|]. simpl slave_xfer.
    change (fc_frame (slave_select d)) with (fc_frame d). set (l := Z.of_nat (length (fc_frame d)) :: fc_frame d).
    change (Z.of_nat (length (fc_frame d)) :: fc_frame d ++ replicate n 0) with (l ++ replicate n 0).
    apply octet_ext; [by rewrite length_map, length_seq|]. intros i Hi. unfold octet at 2.
    rewrite (nth_indep _ 0 (octet l 0)) by by rewrite length_map, length_seq.
    rewrite map_nth, seq_nth by done. simpl Nat.add. destruct (decide (i < length l)%nat).
    + by apply octet_app_l.
    + rewrite octet_app_r by lia. unfold octet. rewrite (nth_overflow l) by lia.
      rewrite nth_lookup, lookup_replicate_2 by (rewrite length_app, length_replicate in Hi; lia). done.
Defined.

Definition demo_tx : tx_frame := TxFrame (map Z.of_nat (seq 1 127)) 24 1 7.
Definition demo_rx : rx_frame := RxFrame (replicate 127 0xEE) 0 1 40 0.
Definition frame_node (m : list Z) : radio_state frame_chip := RadioState demo_radif (FrameChip [] m []).

Lemma frame_round_trip_witness :
  runs (radio_frame_write demo_tx) (frame_node []) (λ _ s',
    ∀ s2 : radio_state frame_chip, chip_rx (r_port s2) = on_air (chip_tx (r_port s')) [0xAB; 0xCD] →
    runs (radio_frame_read demo_rx) s2 (λ '(_, rx') s2',
      rx_length rx' = tx_length demo_tx ∧
      rx_data rx' = payload demo_tx ++ drop (length (payload demo_tx)) (rx_data demo_rx) ∧
      rx_source_address rx' = short_address (config (r_if (frame_node []))) ∧ r_if s2' = r_if s2)).
Proof.
  apply (frame_round_trip (D1:=frame_chip) (D2:=frame_chip) demo_tx demo_rx (frame_node []) [0xAB; 0xCD]).
  - split; [split; [by_decision|done]|simpl; lia|unfold is_u16; simpl; lia].
  - split; [unfold is_u8; simpl; lia|unfold is_u16; simpl; lia..].
  - by_decision.
  - done.
  - done.
Defined.

Definition ack_node : radio_state frame_chip := frame_node [0x02; 0; 9; 0xAB; 0xCD].
Definition cut_node : radio_state frame_chip := frame_node [0x41; 0x98; 9; 0x34; 0x12; 1; 0].

(** An acknowledgement frame is taken, a truncated data frame is not. *)
Lemma frame_read_fits_witness :
  runs (radio_frame_read demo_rx) ack_node
    (λ v s', v = (0xFF, delivered demo_rx (chip_rx (r_port ack_node))) ∧ r_if s' = r_if ack_node) ∧
  radio_frame_read demo_rx cut_node = Fault.
Proof.
  split.
  - refine (proj1 (frame_read_fits demo_rx ack_node _ _ _) _); [by_decision|simpl; lia|done|by_decision].
  - refine (proj2 (frame_read_fits demo_rx cut_node _ _ _) _); [by_decision|simpl; lia|done|by_decision].
Defined.
