(* ===== verification/RadioRing.v ===== *)
(** * The frame rings of the radio interface ([src/radio/radio_irq.c],
      [src/radio/radio.c])

    Each ring has one producer and one consumer, of which one runs in the
    interrupt handler.  A ring of eight frames is a queue of at most seven;
    frames leave it in the order in which they entered, whatever the
    interleaving, and a frame is not overwritten while its consumer looks at
    it. *)

From S2P Require Import Prelude Hw RadioIf RadioOps RadioChip RadioFrame.
From Stdlib Require Import ZArith Lia.
From stdpp Require Import base numbers list.
Open Scope Z_scope.

(** ** A ring of eight *)

Section Ring.
Context {A : Type}.
Implicit Types (l : list A) (c p : Z).

(** The elements from the consume index up to the produce index. *)
Definition ring_view l c p : list A :=
  omap (λ i, l !! Z.to_nat ((c + Z.of_nat i) mod 8)) (seq 0 (Z.to_nat ((p - c) mod 8))).
Definition index_ok (i : Z) : Prop := 0 ≤ i < 8.

Lemma omap_total {B} (f : B → option A) (k : list B) :
  (∀ x, x ∈ k → is_Some (f x)) → length (omap f k) = length k.
Proof.
  induction k as [|x k IH]; intros Hf; [done|]. simpl.
  destruct (Hf x) as [y ->]; [by left|]. simpl. f_equal. apply IH. intros z Hz. apply Hf. by right.
Qed.
Lemma omap_ext' {B} (f g : B → option A) (k : list B) :
  (∀ x, x ∈ k → f x = g x) → omap f k = omap g k.
Proof.
  induction k as [|x k IH]; intros Hf; [done|]. simpl. rewrite (Hf x) by by left.
  assert (omap f k = omap g k) as E by (apply IH; intros z Hz; apply Hf; by right).
  by destruct (g x); [apply (f_equal (cons _))|]; apply E.
Qed.

Lemma omap_map {B C} (f : C → option A) (g : B → C) (k : list B) :
  omap f (map g k) = omap (λ x, f (g x)) k.
Proof.
  induction k as [|x k IH]; [done|]. simpl. by destruct (f (g x)); [apply (f_equal (cons _))|]; apply IH.
Qed.

Lemma length_ring_view l c p :
  length l = 8%nat → length (ring_view l c p) = Z.to_nat ((p - c) mod 8).
Proof.
  intros Hl. unfold ring_view. rewrite omap_total, length_seq; [done|].
  intros i _. apply lookup_lt_is_Some_2. rewrite Hl.
  pose proof (Z.mod_pos_bound (c + Z.of_nat i) 8). lia.
Qed.

Lemma index_empty l c p :
  length l = 8%nat → index_ok c → index_ok p → c = p ↔ ring_view l c p = [].
Proof.
  intros Hl Hc Hp. rewrite <-length_zero_iff_nil, length_ring_view by done. unfold index_ok in *.
  split; [intros ->; by rewrite Z.sub_diag|]. intros Hz.
  Z.to_euclidean_division_equations. lia.
Qed.
Lemma index_full l c p :
  length l = 8%nat → index_ok c → index_ok p →
  (p + 1) mod 8 = c ↔ length (ring_view l c p) = 7%nat.
Proof.
  intros Hl Hc Hp. rewrite length_ring_view by done. unfold index_ok in *.
  split; intros Hz; Z.to_euclidean_division_equations; lia.
Qed.
Lemma ring_view_bound l c p : length l = 8%nat → (length (ring_view l c p) ≤ 7)%nat.
Proof. intros Hl. rewrite length_ring_view by done. pose proof (Z.mod_pos_bound (p - c) 8). lia. Qed.

Lemma ring_push l c p x :
  length l = 8%nat → index_ok c → index_ok p → (p + 1) mod 8 ≠ c →
  ring_view (<[Z.to_nat p := x]> l) c ((p + 1) mod 8) = ring_view l c p ++ [x].
Proof.
  intros Hl Hc Hp Hf. unfold ring_view, index_ok in *.
  replace (Z.to_nat (((p + 1) mod 8 - c) mod 8)) with (S (Z.to_nat ((p - c) mod 8)))
    by (Z.to_euclidean_division_equations; lia).
  rewrite seq_S, omap_app. f_equal.
  - apply omap_ext'. intros i Hi%elem_of_seq. apply list_lookup_insert_ne.
    Z.to_euclidean_division_equations; lia.
  - replace (Z.to_nat ((c + Z.of_nat (0 + Z.to_nat ((p - c) mod 8))) mod 8)) with (Z.to_nat p)
      by (Z.to_euclidean_division_equations; lia).
    simpl. replace (Z.to_nat ((c + Z.of_nat (Z.to_nat ((p - c) mod 8))) mod 8)) with (Z.to_nat p)
      by (Z.to_euclidean_division_equations; lia).
    by rewrite list_lookup_insert_eq by lia.
Qed.

Lemma ring_pop l c p :
  length l = 8%nat → index_ok c → index_ok p → c ≠ p →
  ∃ x, l !! Z.to_nat c = Some x ∧ ring_view l c p = x :: ring_view l ((c + 1) mod 8) p.
Proof.
  intros Hl Hc Hp Hne. unfold index_ok in *.
  destruct (lookup_lt_is_Some_2 l (Z.to_nat c)) as [x Hx]; [rewrite Hl; lia|].
  exists x. split; [done|]. unfold ring_view.
  replace (Z.to_nat ((p - c) mod 8)) with (S (Z.to_nat ((p - (c + 1) mod 8) mod 8)))
    by (Z.to_euclidean_division_equations; lia).
  simpl seq. simpl omap. rewrite Z.add_0_r, Z.mod_small, Hx by lia. f_equal.
  rewrite <-seq_shift. etransitivity; [apply omap_map|]. apply omap_ext'. intros i _.
  rewrite Z.add_mod_idemp_l by lia. do 2 f_equal. f_equal. lia.
Qed.
End Ring.

(** ** The chip while a frame is fetched *)

Definition reg_access {D} `{RadioWire D} (d : D) (a : Z) : Z * D :=
  slave_xfer 0 (slave_xfer (Z.lor a RADIO_SPI_CMD_RR) (slave_select d)).2.

(** Reading a register leaves the received frame in its buffer.  [chip_busy]
    bounds how often the status can still read as busy receiving; no port
    operation raises it. *)
Class RxChip (D : Type) `{FrameBuffer D} : Type := {
  chip_busy : D → nat;
  busy_xfer : ∀ b d, (chip_busy (slave_xfer b d).2 ≤ chip_busy d)%nat;
  busy_select : ∀ d, (chip_busy (slave_select d) ≤ chip_busy d)%nat;
  busy_deselect : ∀ d, (chip_busy (slave_deselect d) ≤ chip_busy d)%nat;
  busy_status : ∀ d,
    Z.land (reg_access d TRX_STATUS).1 0x1f = BUSY_RX_AACK →
    (chip_busy (slave_deselect (reg_access d TRX_STATUS).2) < chip_busy d)%nat;
  reg_read_rx : ∀ d a, 0 ≤ a < 64 →
    is_u8 (reg_access d a).1 ∧ chip_rx (slave_deselect (reg_access d a).2) = chip_rx d;
}.

Lemma reg_read_eq {D} `{RadioWire D} a r (d : D) :
  0 ≤ a < 64 →
  radio_reg_read a (RadioState r d) = Ok ((reg_access d a).1, RadioState r (slave_deselect (reg_access d a).2)).
Proof.
  intros Ha. unfold radio_reg_read, reg_access. wire_step.
  rewrite (u8_small (Z.lor a _)) by (apply lor_command; auto). done.
Qed.

Section Keeps.
Context {D : Type} `{RxChip D}.
Abbreviation S := (radio_state D).

(** An operation that does not make the chip busier, where it returns. *)
Definition keeps {A} (m : M S A) : Prop :=
  ∀ s a s', m s = Ok (a, s') → (chip_busy (r_port s') ≤ chip_busy (r_port s))%nat.

Lemma keeps_bind {A B} (m : M S A) (k : A → M S B) : keeps m → (∀ a, keeps (k a)) → keeps (m ≫= k).
Proof.
  intros Hm Hk s b s' E. rewrite bind_unfold in E. destruct (m s) as [[a s1]| |] eqn:E1; try done.
  apply Hm in E1. apply Hk in E. lia.
Qed.
Lemma keeps_ret {A} (a : A) : keeps (mret a).
Proof. by intros s b s' [= -> ->]. Qed.
Lemma keeps_fault {A} : keeps (fault : M S A).
Proof. done. Qed.
Lemma keeps_xfer b : keeps (xfer b).
Proof. intros [r d] a s' E. rewrite wire_xfer_ok in E. injection E as <- <-. apply busy_xfer. Qed.
Lemma keeps_start : keeps spi_start.
Proof. intros [r d] a s' E. rewrite start_ok in E. injection E as <- <-. apply busy_select. Qed.
Lemma keeps_stop : keeps spi_stop.
Proof. intros [r d] a s' E. rewrite stop_ok in E. injection E as <- <-. apply busy_deselect. Qed.
Lemma keeps_for_range f n : (∀ i, keeps (f i)) → ∀ i, keeps (for_range i n f).
Proof. intros Hf. induction n as [|n IH]; intros i; [apply keeps_ret|]. apply keeps_bind; auto. Qed.

Ltac keeps :=
  repeat first
    [ apply keeps_xfer | apply keeps_start | apply keeps_stop | apply keeps_ret | apply keeps_fault
    | apply keeps_bind; [|intros ?] | apply keeps_for_range; intros ? | case_match | case_decide ].

Lemma keeps_read_data n : ∀ i data, keeps (read_data n i data).
Proof.
  induction n as [|n IH]; intros i data; simpl read_data; [apply keeps_ret|]. unfold arr_set. keeps. apply IH.
Qed.
Lemma keeps_frame_read rx : keeps (radio_frame_read rx).
Proof.
  unfold radio_frame_read, read_in_ieee_header, read_spi_word. keeps; apply keeps_read_data.
Qed.
Lemma keeps_dummy : keeps radio_frame_read_dummy.
Proof. unfold radio_frame_read_dummy. keeps. Qed.

Lemma runs_keeps {A} (m : M S A) s Q :
  keeps m → runs m s Q →
  runs m s (λ a s', Q a s' ∧ (chip_busy (r_port s') ≤ chip_busy (r_port s))%nat).
Proof. intros Hk Hr. unfold runs in *. destruct (m s) as [[a s']| |] eqn:E; try done. split; [done|eauto]. Qed.

Lemma access_for_range f n : (∀ i, access (D:=D) (f i)) → ∀ i, access (D:=D) (for_range i n f).
Proof. intros Hf. induction n as [|n IH]; intros i; [apply access_ret|]. apply gives_bind; [apply Hf|intros _; apply IH]. Qed.
Lemma access_dummy : access (D:=D) radio_frame_read_dummy.
Proof.
  unfold radio_frame_read_dummy. apply gives_bind; [auto with radio|intros _].
  apply gives_bind; [auto with radio|intros _]. apply gives_bind; [auto with radio|intros n].
  apply gives_bind; [|intros _; apply access_stop]. apply access_for_range. intros i. access.
Qed.

Lemma busy_reg (d : D) a : (chip_busy (slave_deselect (reg_access d a).2) ≤ chip_busy d)%nat.
Proof.
  eapply Nat.le_trans; [apply busy_deselect|]. eapply Nat.le_trans; [apply busy_xfer|].
  eapply Nat.le_trans; [apply busy_xfer|]. apply busy_select.
Qed.

(** The wait for the end of the reception. *)
Lemma settle fuel s :
  (chip_busy (r_port s) < fuel)%nat →
  runs (poll fuel (st ← radio_get_state; mret (negb (st =? BUSY_RX_AACK)))) s (λ _ s', r_if s' = r_if s).
Proof.
  revert s. induction fuel as [|fuel IH]; intros [r d] Hb; [lia|]. simpl poll.
  apply runs_bind. apply runs_bind. unfold radio_get_state. apply runs_bind. unfold runs at 1.
  rewrite reg_read_eq by by compute. eapply runs_intro; [done|]. eapply runs_intro; [done|].
  destruct (Z.eqb_spec (Z.land (reg_access d TRX_STATUS).1 0x1f) BUSY_RX_AACK) as [E|E];
    simpl negb; cbv iota; [|by eapply runs_intro].
  apply busy_status in E. cbn [r_port] in Hb. eapply runs_mono, IH; [by intros ? s' ->|]. simpl. lia.
Qed.
End Keeps.

(** ** Reception *)

Definition rx_slot_ok (f : rx_frame) : Prop := length (rx_data f) = FRAME_DATA ∧ bytes_ok (rx_data f).
#[export] Instance rx_slot_ok_dec f : Decision (rx_slot_ok f).
Proof. unfold rx_slot_ok. apply _. Defined.
Definition rx_ring_ok (r : radif) : Prop :=
  index_ok (RxProduceIndex r) ∧ index_ok (RxConsumeIndex r) ∧ length (RxFrames r) = NUM_RXFRAMES ∧
  Forall rx_slot_ok (RxFrames r).
Definition rx_pending (r : radif) : list rx_frame :=
  ring_view (RxFrames r) (RxConsumeIndex r) (RxProduceIndex r).

(** The producer's two effects on the structure. *)
Definition rx_accept (f : rx_frame) (r : radif) : radif :=
  with_stats (count_rx true (stats r))
    (with_rx ((RxProduceIndex r + 1) mod 8) (<[Z.to_nat (RxProduceIndex r) := f]> (RxFrames r)) r).
Definition rx_reject (r : radif) : radif := with_stats (count_rx false (stats r)) r.

(** The frame stored for the octets [m]: the buffer it is stored over keeps
    its tail, the two measurements are the chip's. *)
Definition stored (m : list Z) (f : rx_frame) : Prop :=
  ∃ slot ed crc, rx_slot_ok slot ∧ is_u8 ed ∧ (crc = 0 ∨ crc = 1) ∧
    f = delivered (RxFrame (rx_data slot) (rx_length slot) crc ed (rx_source_address slot)) m.

Section RxEnd.
Context {D : Type} `{RxChip D} (fuel : nat).
Abbreviation S := (radio_state D).

Definition frame_fits (m : list Z) : Prop :=
  bytes_ok m ∧ (header_len (frame_control_of m) + 2 ≤ length m ≤ 127)%nat.

Lemma rx_end_ok (s : S) :
  rx_ring_ok (r_if s) → frame_fits (chip_rx (r_port s)) → (chip_busy (r_port s) < fuel)%nat →
  runs (radio_rx_end fuel) s (λ _ s',
    if decide ((RxProduceIndex (r_if s) + 1) mod 8 = RxConsumeIndex (r_if s))
    then r_if s' = rx_reject (r_if s)
    else ∃ f, stored (chip_rx (r_port s)) f ∧ r_if s' = rx_accept f (r_if s)).
Proof.
  intros (Hp & Hc & Hl & Hd) [Hm Hfit] Hb. destruct s as [r d]. cbn [r_if r_port] in *.
  unfold radio_rx_end. apply runs_bind. unfold runs at 1, gets. cbn [r_if].
  change (Z.of_nat NUM_RXFRAMES) with 8. apply runs_bind.
  destruct (decide ((RxProduceIndex r + 1) mod 8 = RxConsumeIndex r)) as [Ef|Ef].
  - rewrite (proj2 (Z.eqb_eq _ _) Ef). simpl negb. cbv iota. apply runs_bind. unfold runs at 1, set_if, modify. cbn [r_if r_port].
    eapply runs_mono; [|eapply runs_keeps; [apply keeps_dummy|apply access_dummy]].
    intros ? s1 [[E1 _] Hb1]. cbn [r_if r_port] in *.
    eapply runs_mono, (settle fuel s1); [|lia]. by intros ? s2 ->.
  - rewrite (proj2 (Z.eqb_neq _ _) Ef). simpl negb. cbv iota. unfold index_ok in *.
    destruct (lookup_lt_is_Some_2 (RxFrames r) (Z.to_nat (RxProduceIndex r))) as [slot Hslot].
    { rewrite Hl. unfold NUM_RXFRAMES. lia. }
    pose proof (Forall_lookup_1 _ _ _ _ Hd Hslot) as Hdata. pose proof Hdata as [Hdl Hdb].
    apply runs_bind. unfold runs at 1, rx_get. rewrite Hslot. unfold mret at 1, M_ret at 1.
    destruct (reg_read_rx d PHY_ED_LEVEL) as [Hed Hrx1]; [by compute|]. apply runs_bind.
    unfold runs at 1. rewrite reg_read_eq by by compute.
    set (d1 := slave_deselect (reg_access d PHY_ED_LEVEL).2) in *.
    pose proof (busy_reg d PHY_ED_LEVEL : chip_busy d1 ≤ chip_busy d)%nat as Hb1.
    destruct (reg_read_rx d1 PHY_RSSI) as [_ Hrx2]; [by compute|]. apply runs_bind.
    unfold runs at 1. rewrite reg_read_eq by by compute.
    set (d2 := slave_deselect (reg_access d1 PHY_RSSI).2) in *.
    pose proof (busy_reg d1 PHY_RSSI : chip_busy d2 ≤ chip_busy d1)%nat as Hb2.
    set (crc := if negb _ then 1 else 0).
    assert (chip_rx d2 = chip_rx d) as Hrx by congruence.
    apply runs_bind. eapply runs_mono; [|eapply runs_keeps; [apply keeps_frame_read|]];
      [|apply (frame_read_ok _ (RadioState r d2)); cbn [r_port]; rewrite ?Hrx; done].
    intros [v f] s3 [[[= -> ->] E3] Hb3]. cbn [r_if r_port] in *.
    apply runs_bind. unfold runs at 1, set_if, modify. cbn [r_if r_port].
    unfold runs at 1, set_if, modify. cbn [r_if r_port].
    eapply runs_mono, settle; [|cbn [r_port]; lia]. intros ? s4 ->. cbn [r_if].
    eexists. split; [|rewrite E3; reflexivity]. exists slot, (reg_access d PHY_ED_LEVEL).1, crc.
    rewrite Hrx. split; [done|]. split; [done|]. split; [|done]. subst crc. case_match; auto.
Qed.
End RxEnd.

Lemma rx_accept_pending f r :
  rx_ring_ok r → (RxProduceIndex r + 1) mod 8 ≠ RxConsumeIndex r → rx_slot_ok f →
  rx_ring_ok (rx_accept f r) ∧ rx_pending (rx_accept f r) = rx_pending r ++ [f].
Proof.
  intros (Hp & Hc & Hl & Hd) Hne Hf. split; [|by apply ring_push].
  split; [|split; [done|split]].
  - unfold index_ok. simpl. pose proof (Z.mod_pos_bound (RxProduceIndex r + 1) 8). lia.
  - simpl. by rewrite length_insert.
  - simpl. by apply Forall_insert.
Qed.
Lemma rx_release_pending r :
  rx_ring_ok r → RxConsumeIndex r ≠ RxProduceIndex r →
  ∃ f, RxFrames r !! Z.to_nat (RxConsumeIndex r) = Some f ∧
    let r' := with_rx_consume ((RxConsumeIndex r + 1) mod 8) r in
    rx_ring_ok r' ∧ rx_pending r = f :: rx_pending r'.
Proof.
  intros (Hp & Hc & Hl & Hd) Hne. destruct (ring_pop _ _ _ Hl Hc Hp Hne) as (f & Hf & Hv).
  exists f. split; [done|]. split; [|done]. split; [done|]. split; [|done].
  unfold index_ok. simpl. pose proof (Z.mod_pos_bound (RxConsumeIndex r + 1) 8). lia.
Qed.
Lemma rx_pending_nil r : rx_ring_ok r → RxConsumeIndex r = RxProduceIndex r ↔ rx_pending r = [].
Proof. intros (Hp & Hc & Hl & Hd). by apply index_empty. Qed.
Lemma delivered_slot rx m :
  rx_slot_ok rx → bytes_ok m → (length m ≤ 127)%nat → rx_slot_ok (delivered rx m).
Proof.
  intros [Hrx Hb] Hmb Hm. split.
  - simpl. rewrite length_app, length_drop, Hrx. unfold rx_payload.
    rewrite length_take, length_drop. unfold FRAME_DATA. lia.
  - apply bytes_ok_app; [by apply Forall_take, Forall_drop|by apply Forall_drop].
Qed.

(** ** Handing frames over *)

(** A state that holds an interface structure. *)
Class HasRadif (St : Type) : Type := {
  the_if : St → radif;
  put_if : radif → St → St;
  the_put : ∀ r s, the_if (put_if r s) = r;
}.

Section Service.
Context {St : Type} `{HasRadif St}.

(** [rx_callback] is null until [rf212_init] sets it.  The callback gets the
    address of the frame in the ring; it does not write through it, and the
    interrupt handler does not overwrite the frame ([rx_fifo] below), so that
    the frame itself is passed. *)
Fixpoint radif_service (rx_callback : option (rx_frame → M St unit)) (fuel : nat) : M St unit :=
  match fuel with
  | O => spin
  | S fuel =>
     r ← gets the_if;
     if negb (RxConsumeIndex r =? RxProduceIndex r) then
       match rx_callback with
       | Some callback =>
          let index := RxConsumeIndex r in
          match RxFrames r !! Z.to_nat index with
          | Some rx =>
             callback rx;;
             modify (λ s, put_if (with_rx_consume ((index + 1) mod Z.of_nat NUM_RXFRAMES) (the_if s)) s);;
             radif_service rx_callback fuel
          | None => fault
          end
       | None => radif_service rx_callback fuel
       end
     else mret tt
  end.

(** Callbacks.  [J n done s]: the frames in [done] have been handed over and
    at most [n] more can arrive.  A callback handles its frame; frames may
    arrive behind the pending ones meanwhile. *)
Record callback_ok (J : nat → list rx_frame → St → Prop) (callback : rx_frame → M St unit) : Prop := {
  cb_release : ∀ n done s r,
    J n done s → r = with_rx_consume ((RxConsumeIndex (the_if s) + 1) mod 8) (the_if s) → J n done (put_if r s);
  cb_call : ∀ n done f s,
    J n done s → rx_ring_ok (the_if s) → head (rx_pending (the_if s)) = Some f →
    runs (callback f) s (λ _ s', ∃ m more, J m (done ++ [f]) s' ∧ (m + length more ≤ n)%nat ∧
      rx_ring_ok (the_if s') ∧ RxConsumeIndex (the_if s') = RxConsumeIndex (the_if s) ∧
      rx_pending (the_if s') = rx_pending (the_if s) ++ more);
}.

Lemma service_ok J callback : callback_ok J callback → ∀ fuel n done s,
  J n done s → rx_ring_ok (the_if s) → (length (rx_pending (the_if s)) + n < fuel)%nat →
  runs (radif_service (Some callback) fuel) s (λ _ s', ∃ m more,
    J m (done ++ rx_pending (the_if s) ++ more) s' ∧ (m + length more ≤ n)%nat ∧
    rx_ring_ok (the_if s') ∧ rx_pending (the_if s') = []).
Proof.
  intros Hcb. induction fuel as [|fuel IH]; intros n done s HJ Hok Hfuel; [lia|]. simpl radif_service.
  apply runs_bind. unfold runs at 1, gets.
  destruct (Z.eqb_spec (RxConsumeIndex (the_if s)) (RxProduceIndex (the_if s))) as [E|E];
    simpl negb; cbv iota.
  { pose proof E as E'. apply rx_pending_nil in E'; [|done]. eapply runs_intro; [done|].
    exists n, []. rewrite E', !app_nil_r. split; [done|]. split; [simpl; lia|done]. }
  destruct (rx_release_pending _ Hok E) as (f & Hf & _ & Hpend). rewrite Hf. apply runs_bind.
  eapply runs_mono, (cb_call _ _ Hcb n done f s HJ Hok); [|by rewrite Hpend].
  intros ? s1 (m & more & HJ1 & Hm & Hok1 & Hc1 & Hp1). apply runs_bind. unfold runs at 1, modify.
  change (Z.of_nat NUM_RXFRAMES) with 8.
  assert (RxConsumeIndex (the_if s1) ≠ RxProduceIndex (the_if s1)) as E1.
  { rewrite (rx_pending_nil _ Hok1), Hp1, Hpend. done. }
  destruct (rx_release_pending _ Hok1 E1) as (f1 & _ & Hok2 & Hpend1).
  rewrite Hp1, Hpend in Hpend1. injection Hpend1 as <- Hp2. rewrite Hc1 in *.
  set (r2 := with_rx_consume _ (the_if s1)) in *.
  eapply runs_mono; [|apply (IH m (done ++ [f]) (put_if r2 s1))]; rewrite ?the_put.
  - intros ? s2 (m2 & more2 & HJ2 & Hm2 & Hok3 & Hp3). exists m2, (more ++ more2).
    rewrite <-Hp2, <-!app_assoc in HJ2. rewrite Hpend, length_app.
    split; [exact HJ2|]. split; [lia|done].
  - eapply (cb_release _ _ Hcb); [done|]. by rewrite Hc1.
  - done.
  - rewrite <-Hp2, length_app. rewrite Hpend in Hfuel. simpl in Hfuel. lia.
Qed.
End Service.

(** ** Interleaving

    The interrupt handler may run at any moment while [radif_service] works.
    [n_at] is the index the service has read and not yet released. *)
Record rx_node : Type := RxNode { n_if : radif; n_at : option Z }.
Inductive rx_event : Type :=
  | Accepted (f : rx_frame)
  | Rejected
  | Handed (f : rx_frame)
  | Released.

Inductive rx_step : rx_node → rx_event → rx_node → Prop :=
  | step_accept r at_ f :
     (RxProduceIndex r + 1) mod 8 ≠ RxConsumeIndex r → rx_slot_ok f →
     rx_step (RxNode r at_) (Accepted f) (RxNode (rx_accept f r) at_)
  | step_reject r at_ :
     (RxProduceIndex r + 1) mod 8 = RxConsumeIndex r →
     rx_step (RxNode r at_) Rejected (RxNode (rx_reject r) at_)
  | step_hand r f :
     RxConsumeIndex r ≠ RxProduceIndex r → RxFrames r !! Z.to_nat (RxConsumeIndex r) = Some f →
     rx_step (RxNode r None) (Handed f) (RxNode r (Some (RxConsumeIndex r)))
  | step_release r i :
     rx_step (RxNode r (Some i)) Released (RxNode (with_rx_consume ((i + 1) mod 8) r) None).

(** Traces, latest event last. *)
Inductive rx_steps (n0 : rx_node) : list rx_event → rx_node → Prop :=
  | steps_nil : rx_steps n0 [] n0
  | steps_snoc tr e n n' : rx_steps n0 tr n → rx_step n e n' → rx_steps n0 (tr ++ [e]) n'.

Definition accepted (tr : list rx_event) : list rx_frame :=
  omap (λ e, match e with Accepted f => Some f | _ => None end) tr.
Definition handed (tr : list rx_event) : list rx_frame :=
  omap (λ e, match e with Handed f => Some f | _ => None end) tr.

(** The first frames have been handed over and the others are pending; the
    frame at work is the oldest pending one. *)
Definition rx_fifo_inv (r0 : radif) (tr : list rx_event) (n : rx_node) : Prop :=
  rx_ring_ok (n_if n) ∧
  match n_at n with
  | None => rx_pending r0 ++ accepted tr = handed tr ++ rx_pending (n_if n)
  | Some i => i = RxConsumeIndex (n_if n) ∧ ∃ before f,
      handed tr = before ++ [f] ∧ RxFrames (n_if n) !! Z.to_nat i = Some f ∧
      head (rx_pending (n_if n)) = Some f ∧
      rx_pending r0 ++ accepted tr = before ++ rx_pending (n_if n)
  end.

Lemma snoc_omap {A B} (f : A → option B) l x : omap f (l ++ [x]) = omap f l ++ omap f [x].
Proof. apply omap_app. Qed.

(** An insertion at the produce index spares the frame at the consume index. *)
Lemma accept_keeps_head r f x :
  rx_ring_ok r → head (rx_pending r) = Some x →
  RxFrames r !! Z.to_nat (RxConsumeIndex r) = Some x →
  RxFrames (rx_accept f r) !! Z.to_nat (RxConsumeIndex r) = Some x.
Proof.
  intros Hok Hx Hl. destruct (decide (RxConsumeIndex r = RxProduceIndex r)) as [E|E].
  { apply rx_pending_nil in E; [|done]. by rewrite E in Hx. }
  simpl. rewrite list_lookup_insert_ne; [done|]. destruct Hok as (Hp & Hc & _). unfold index_ok in *. lia.
Qed.

Lemma rx_fifo_step r0 tr n e n' :
  rx_fifo_inv r0 tr n → rx_step n e n' → rx_fifo_inv r0 (tr ++ [e]) n'.
Proof.
  intros [Hok Hinv] Hs.
  destruct Hs as [r at_ f Hne Hf|r at_ Hfull|r f Hne Hf|r i]; unfold rx_fifo_inv, accepted, handed in *;
    rewrite !snoc_omap; simpl n_if in *; simpl n_at in *; simpl omap; rewrite ?app_nil_r.
  - destruct (rx_accept_pending f r Hok Hne Hf) as [Hok' Hp']. split; [done|]. rewrite Hp', app_assoc.
    destruct at_ as [i|]; [|by rewrite Hinv, app_assoc].
    destruct Hinv as (-> & before & x & Hb & Hx & Hh & Hq). split; [done|]. exists before, x.
    split; [done|]. split; [by apply accept_keeps_head|]. split; [by destruct (rx_pending r)|].
    by rewrite Hq, app_assoc.
  - done.
  - split; [done|]. split; [done|]. destruct (rx_release_pending r Hok Hne) as (x & Hx & _ & Hp).
    assert (x = f) as -> by congruence. eexists _, f.
    rewrite Hp in *. split; [done|]. split; [done|]. split; [done|]. exact Hinv.
  - destruct Hinv as (-> & before & x & Hb & Hx & Hh & Hq).
    assert (RxConsumeIndex r ≠ RxProduceIndex r) as Hne.
    { rewrite (rx_pending_nil r Hok). by destruct (rx_pending r). }
    destruct (rx_release_pending r Hok Hne) as (y & Hy & Hok' & Hp). split; [done|].
    assert (y = x) as -> by congruence. by rewrite Hq, Hb, Hp, <-app_assoc.
Qed.

Lemma rx_fifo_steps r0 tr n : rx_ring_ok r0 → rx_steps (RxNode r0 None) tr n → rx_fifo_inv r0 tr n.
Proof.
  intros Hok. induction 1 as [|tr e n n' _ IH Hs]; [|by eapply rx_fifo_step].
  split; [done|]. simpl. by rewrite app_nil_r.
Qed.

(** ** Transmission queue *)

Definition tx_ring_ok (r : radif) : Prop :=
  index_ok (TxProduceIndex r) ∧ index_ok (TxConsumeIndex r) ∧ length (TxFrames r) = NUM_TXFRAMES ∧
  Forall (λ f, length (tx_data f) = FRAME_DATA) (TxFrames r).
Definition tx_pending (r : radif) : list tx_frame :=
  ring_view (TxFrames r) (TxConsumeIndex r) (TxProduceIndex r).

(** The new frame in a slot. *)
Definition sent_frame (frame : list Z) (len dest ack : Z) (f : tx_frame) : Prop :=
  tx_length f = len ∧ payload f = take (Z.to_nat len) frame ∧ tx_destination_address f = dest ∧ tx_ack f = ack.

Section Send.
Context {P : Type} `{RadioPort P}.
Abbreviation S := (radio_state P).
Implicit Types s : S.

(** The interrupt handler as the sender sees it: it takes frames from the
    front of the queue, at least one of a full queue of an interface that is
    up. *)
Definition drains (interrupt : M S unit) : Prop := ∀ s, tx_ring_ok (r_if s) →
  runs interrupt s (λ _ s', tx_ring_ok (r_if s') ∧ TxProduceIndex (r_if s') = TxProduceIndex (r_if s) ∧
    ∃ gone, tx_pending (r_if s) = gone ++ tx_pending (r_if s') ∧
      (length (tx_pending (r_if s)) = 7%nat → up (r_if s) ≠ 0 → gone ≠ [])).

Lemma tx_push r f :
  tx_ring_ok r → (TxProduceIndex r + 1) mod 8 ≠ TxConsumeIndex r → length (tx_data f) = FRAME_DATA →
  let r' := with_tx ((TxProduceIndex r + 1) mod 8) (<[Z.to_nat (TxProduceIndex r) := f]> (TxFrames r)) r in
  tx_ring_ok r' ∧ tx_pending r' = tx_pending r ++ [f].
Proof.
  intros (Hp & Hc & Hl & Hd) Hne Hf. split; [|by apply ring_push].
  split; [|split; [done|split]].
  - unfold index_ok. simpl. pose proof (Z.mod_pos_bound (TxProduceIndex r + 1) 8). lia.
  - simpl. by rewrite length_insert.
  - simpl. by apply Forall_insert.
Qed.

(** The part of [radif_send] after room has been found. *)
Lemma send_store interrupt frame len dest ack s :
  drains interrupt → 0 ≤ len ≤ 127 → len ≤ Z.of_nat (length frame) → tx_ring_ok (r_if s) →
  let next := (TxProduceIndex (r_if s) + 1) mod 8 in next ≠ TxConsumeIndex (r_if s) →
  runs (tx ← (r ← gets r_if; tx_get (TxFrames r) (TxProduceIndex (r_if s)));
        set_if (λ r, with_tx (TxProduceIndex r)
          (<[Z.to_nat (TxProduceIndex (r_if s)) :=
             TxFrame (fill frame (tx_data tx) len) len ack dest]> (TxFrames r)) r);;
        set_if (λ r, with_tx next (TxFrames r) r);;
        interrupt) s
    (λ _ s', tx_ring_ok (r_if s') ∧ ∃ f gone, sent_frame frame len dest ack f ∧
      tx_pending (r_if s) ++ [f] = gone ++ tx_pending (r_if s')).
Proof.
  intros Hint Hlen Hfr Hok next Hne. destruct s as [r d]. cbn [r_if] in *.
  pose proof Hok as (Hp & Hc & Hl & Hd). unfold index_ok in *.
  destruct (lookup_lt_is_Some_2 (TxFrames r) (Z.to_nat (TxProduceIndex r))) as [slot Hslot].
  { rewrite Hl. unfold NUM_TXFRAMES. lia. }
  pose proof (Forall_lookup_1 _ _ _ _ Hd Hslot) as Hdata. simpl in Hdata.
  apply runs_bind. apply runs_bind. unfold runs at 1, gets. cbn [r_if].
  unfold runs at 1, tx_get. rewrite Hslot. unfold mret at 1, M_ret at 1.
  set (f := TxFrame (fill frame (tx_data slot) len) len ack dest).
  do 2 (apply runs_bind; unfold runs at 1, set_if, modify; cbn [r_if r_port]).
  assert (length (tx_data f) = FRAME_DATA) as Hf.
  { simpl. unfold fill. rewrite length_app, length_take, length_drop, Hdata. unfold FRAME_DATA. lia. }
  destruct (tx_push r f Hok Hne Hf) as [Hok' Hpush].
  eapply runs_mono; [|apply Hint, Hok'].
  intros ? s' (Hok2 & _ & gone & Hg & _). split; [done|]. exists f, gone. cbn [r_if] in Hg.
  split; [|rewrite <-Hg; symmetry; exact Hpush].
  split; [done|]. split; [|done]. unfold payload. simpl. unfold fill.
  rewrite take_app_le by (rewrite length_take; lia). rewrite take_take. f_equal. lia.
Qed.

Lemma send_ok interrupt frame len dest ack s :
  drains interrupt → 0 ≤ len ≤ 127 → len ≤ Z.of_nat (length frame) → tx_ring_ok (r_if s) →
  runs (radif_send interrupt frame len dest ack) s (λ _ s',
    tx_ring_ok (r_if s') ∧
    ((up (r_if s) = 0 ∧ length (tx_pending (r_if s)) = 7%nat ∧ s' = s) ∨
     (∃ f gone, sent_frame frame len dest ack f ∧
        tx_pending (r_if s) ++ [f] = gone ++ tx_pending (r_if s')))).
Proof.
  intros Hint Hlen Hfr Hok. unfold radif_send. rewrite Z.gtb_ltb, (proj2 (Z.ltb_ge _ _)) by lia.
  change (Z.of_nat NUM_TXFRAMES) with 8. apply runs_bind. unfold runs at 1, gets.
  pose proof Hok as (Hp & Hc & Hl & _).
  destruct (Z.eqb_spec ((TxProduceIndex (r_if s) + 1) mod 8) (TxConsumeIndex (r_if s))) as [E|E].
  2:{ apply runs_bind. eapply runs_intro; [done|]. cbv iota.
      eapply runs_mono, (send_store interrupt); [|done..]. intros ? s' [? ?]. auto. }
  apply (index_full _ _ _ Hl Hc Hp) in E as Hfull. fold (tx_pending (r_if s)) in Hfull.
  destruct (Z.eqb_spec (up (r_if s)) 0) as [Hup|Hup]; simpl negb; cbv iota; apply runs_bind.
  { eapply runs_intro; [done|]. cbv iota. eapply runs_intro; [done|]. split; [done|]. left. auto. }
  apply runs_bind. eapply runs_mono, (Hint s Hok).
  intros ? s1 (Hok1 & Hprod & gone & Hg & Hgone). apply runs_bind. unfold runs at 1, gets, compose.
  rewrite <-Hprod in *. pose proof Hok1 as (Hp1 & Hc1 & Hl1 & _).
  destruct (Z.eqb_spec ((TxProduceIndex (r_if s1) + 1) mod 8) (TxConsumeIndex (r_if s1))) as [E1|E1].
  { exfalso. apply (index_full _ _ _ Hl1 Hc1 Hp1) in E1. fold (tx_pending (r_if s1)) in E1.
    apply (f_equal length) in Hg. rewrite length_app, E1 in Hg.
    apply (Hgone Hfull Hup), length_zero_iff_nil. lia. }
  eapply runs_intro; [done|]. cbv iota.
  eapply runs_mono, (send_store interrupt); [|done..]. intros ? s' [Hok' (f & gone' & Hf & Hg')].
  split; [done|]. right. exists f, (gone ++ gone'). split; [done|].
  by rewrite Hg, <-!app_assoc, Hg'.
Qed.
End Send.

(** ** Properties *)

(** C8. Reception fills a bounded queue.  For a frame that fits,
    [radio_rx_end] returns; with fewer than seven frames pending it appends
    the frame to the queue and counts it, otherwise it drops the frame and
    counts an overflow; the ring stays well formed. *)
Theorem rx_end_refines_queue {D} `{RxChip D} fuel (s : radio_state D) :
  rx_ring_ok (r_if s) → frame_fits (chip_rx (r_port s)) → (chip_busy (r_port s) < fuel)%nat →
  runs (radio_rx_end fuel) s (λ _ s',
    rx_ring_ok (r_if s') ∧
    (((length (rx_pending (r_if s)) < 7)%nat ∧ ∃ f, stored (chip_rx (r_port s)) f ∧
        rx_pending (r_if s') = rx_pending (r_if s) ++ [f] ∧
        rx_success_count (stats (r_if s')) = u16 (rx_success_count (stats (r_if s)) + 1)) ∨
     (length (rx_pending (r_if s)) = 7%nat ∧ rx_pending (r_if s') = rx_pending (r_if s) ∧
        rx_overflow (stats (r_if s')) = u16 (rx_overflow (stats (r_if s)) + 1)))).
Proof.
  intros Hok Hfit Hb. pose proof Hok as (Hp & Hc & Hl & _).
  pose proof (index_full _ _ _ Hl Hc Hp) as Hfull. fold (rx_pending (r_if s)) in Hfull.
  pose proof (ring_view_bound (RxFrames (r_if s)) (RxConsumeIndex (r_if s)) (RxProduceIndex (r_if s)) Hl) as H7.
  fold (rx_pending (r_if s)) in H7. pose proof (rx_end_ok fuel s Hok Hfit Hb) as Hend.
  eapply runs_mono, Hend. intros ? s' Hs'. destruct (decide _) as [E|E].
  - rewrite Hs'. split; [done|]. right. split; [by apply Hfull|done].
  - destruct Hs' as (f & Hst & Hs'). rewrite Hs'. pose proof Hst as (slot & ed & crc & Hdata & _ & _ & Ef).
    destruct (rx_accept_pending f _ Hok E) as [Hok' Hpend].
    { rewrite Ef. destruct Hfit as [Hm Hlen]. apply delivered_slot; [done|done|lia]. }
    split; [done|]. left. split; [assert (length (rx_pending (r_if s)) ≠ 7%nat) by tauto; lia|].
    exists f. auto.
Qed.

(** [radif_service] delivers.  It hands every pending frame to the
    callback exactly once, oldest first, followed by those that arrive while
    it works, and returns with the ring empty. *)
Theorem service_drains {St} `{HasRadif St} J callback fuel n (s : St) :
  callback_ok J callback → J n [] s → rx_ring_ok (the_if s) →
  (length (rx_pending (the_if s)) + n < fuel)%nat →
  runs (radif_service (Some callback) fuel) s (λ _ s', ∃ m more,
    J m (rx_pending (the_if s) ++ more) s' ∧ (m + length more ≤ n)%nat ∧
    rx_ring_ok (the_if s') ∧ rx_pending (the_if s') = []).
Proof. intros Hcb HJ Hok Hf. apply (service_ok J callback Hcb fuel n [] s HJ Hok Hf). Qed.


(** Sending.  [radif_send] returns and appends the frame, with its length,
    destination and acknowledgement request, behind the frames still to be
    transmitted; only a full queue of an interface that is down makes it
    drop the frame, and then nothing changes. *)
Theorem send_queues {P} `{RadioPort P} interrupt frame len dest ack (s : radio_state P) :
  drains interrupt → 0 ≤ len ≤ 127 → len ≤ Z.of_nat (length frame) → tx_ring_ok (r_if s) →
  runs (radif_send interrupt frame len dest ack) s (λ _ s',
    tx_ring_ok (r_if s') ∧
    ((up (r_if s) = 0 ∧ length (tx_pending (r_if s)) = 7%nat ∧ s' = s) ∨
     (∃ f gone, sent_frame frame len dest ack f ∧
        tx_pending (r_if s) ++ [f] = gone ++ tx_pending (r_if s')))).
Proof. apply send_ok. Qed.

(** ** Witnesses *)

#[export] Instance frame_chip_rx : RxChip frame_chip.
Proof.
  refine {| chip_busy := λ _ : frame_chip, 0%nat |}; try (intros; simpl; lia).
  - intros d. by vm_compute.
  - intros d a Ha. unfold reg_access. rewrite lor_rr by done. simpl. unfold fc_answer. simpl.
    unfold RADIO_SPI_CMD_FR, RADIO_SPI_CMD_FW. rewrite !decide_False by lia. split; [by compute|done].
Defined.

Lemma demo_rx_ok : rx_ring_ok demo_radif.
Proof. split; [by compute|]. split; [by compute|]. split; [done|]. by_decision. Qed.
Lemma demo_tx_ok : tx_ring_ok demo_radif.
Proof. split; [by compute|]. split; [by compute|]. split; [done|]. by_decision. Qed.

Lemma rx_end_refines_queue_witness :
  runs (radio_rx_end 1) ack_node (λ _ s',
    rx_ring_ok (r_if s') ∧
    (((length (rx_pending (r_if ack_node)) < 7)%nat ∧ ∃ f, stored (chip_rx (r_port ack_node)) f ∧
        rx_pending (r_if s') = rx_pending (r_if ack_node) ++ [f] ∧
        rx_success_count (stats (r_if s')) = u16 (rx_success_count (stats (r_if ack_node)) + 1)) ∨
     (length (rx_pending (r_if ack_node)) = 7%nat ∧ rx_pending (r_if s') = rx_pending (r_if ack_node) ∧
        rx_overflow (stats (r_if s')) = u16 (rx_overflow (stats (r_if ack_node)) + 1)))).
Proof.
  apply (rx_end_refines_queue 1 ack_node); [apply demo_rx_ok| |simpl; lia].
  split; [by_decision|by_decision].
Defined.

(** A node that keeps the frames it was handed. *)
#[export] Instance logger_has_radif : HasRadif (radif * list rx_frame) :=
  {| the_if := fst; put_if r s := (r, s.2); the_put r s := eq_refl |}.
Definition log_frame (f : rx_frame) : M (radif * list rx_frame) unit := modify (λ s, (s.1, s.2 ++ [f])).
Definition logged (n : nat) (done : list rx_frame) (s : radif * list rx_frame) : Prop := s.2 = done.

Lemma log_frame_ok : callback_ok logged log_frame.
Proof.
  split; [done|]. intros n done f [r l] HJ Hok _. eapply runs_intro; [done|]. exists n, [].
  unfold logged in *. simpl in *. subst. rewrite app_nil_r. split; [done|]. split; [lia|done].
Qed.

Definition two_frames : radif := rx_accept (delivered demo_rx [2; 0; 9; 1; 1]) (rx_accept demo_rx demo_radif).
Lemma two_frames_ok : rx_ring_ok two_frames.
Proof. split; [by compute|]. split; [by compute|]. split; [done|]. by_decision. Qed.

Lemma service_drains_witness :
  runs (radif_service (Some log_frame) 9) (two_frames, []) (λ _ s', ∃ m more,
    logged m (rx_pending two_frames ++ more) s' ∧ (m + length more ≤ 0)%nat ∧
    rx_ring_ok (the_if s') ∧ rx_pending (the_if s') = []).
Proof.
  refine (service_drains logged log_frame 9 0 (two_frames, []) log_frame_ok _ _ _);
    [done|apply two_frames_ok|by_decision].
Defined.


(** An interrupt handler that takes one frame. *)
Definition take_one : M (radio_state frame_chip) unit :=
  set_if (λ r, if TxConsumeIndex r =? TxProduceIndex r then r
               else with_tx_consume ((TxConsumeIndex r + 1) mod 8) r).
Lemma take_one_drains : drains take_one.
Proof.
  intros [r d] (Hp & Hc & Hl & Hd). eapply runs_intro; [done|]. cbn [r_if r_port] in *.
  destruct (Z.eqb_spec (TxConsumeIndex r) (TxProduceIndex r)) as [E|E].
  - split; [done|]. split; [done|]. exists []. split; [done|]. intros Hfull.
    apply (index_empty _ _ _ Hl Hc Hp) in E. unfold tx_pending in Hfull. by rewrite E in Hfull.
  - destruct (ring_pop _ _ _ Hl Hc Hp E) as (x & Hx & Hv). split.
    + split; [done|]. split; [|done]. unfold index_ok. simpl.
      pose proof (Z.mod_pos_bound (TxConsumeIndex r + 1) 8). lia.
    + split; [done|]. by exists [x].
Qed.

Lemma send_queues_witness :
  runs (radif_send take_one [0x41; 1; 2; 3] 4 7 1) ack_node (λ _ s',
    tx_ring_ok (r_if s') ∧
    ((up (r_if ack_node) = 0 ∧ length (tx_pending (r_if ack_node)) = 7%nat ∧ s' = ack_node) ∨
     (∃ f gone, sent_frame [0x41; 1; 2; 3] 4 7 1 f ∧
        tx_pending (r_if ack_node) ++ [f] = gone ++ tx_pending (r_if s')))).
Proof.
  apply (send_queues take_one [0x41; 1; 2; 3] 4 7 1 ack_node take_one_drains);
    [lia|simpl; lia|apply demo_tx_ok].
Defined.
