(* ===== verification/Rf212.v ===== *)
(** * The gateway's radio hardware ([src/radio/rf212.c],
      [src/radio/rf212_functions.c])

    The pins, the SPI port, the delay and the software interrupt of the
    AT86RF212, as register accesses; the interrupt handlers; the start-up of
    the interface. *)

From S2P Require Import Prelude Hw SdSpi RadioIf RadioOps.
From Stdlib Require Import ZArith Lia.
From stdpp Require Import base numbers list.
Open Scope Z_scope.

Definition RF212_SSEL_PIN : Z := 16.
Definition RF212_RESET_PIN : Z := 1.
Definition RF212_SLPTR_PIN : Z := 2.
Definition RADIF_OQPSK_400KCHIPS_200KBITS_S : Z := 0x09.

(** ** [rf212_functions.c] *)

Section Functions.
Context {D : Type} `{Mmio D}.

(** Reset, active low; sleep trigger, active high; slave select, active low. *)
Definition rf212_reset_enable : M D unit := reg_write GPIO2_FIOCLR (Z.shiftl 1 RF212_RESET_PIN).
Definition rf212_reset_disable : M D unit := reg_write GPIO2_FIOSET (Z.shiftl 1 RF212_RESET_PIN).
Definition rf212_slptr_enable : M D unit := reg_write GPIO2_FIOSET (Z.shiftl 1 RF212_SLPTR_PIN).
Definition rf212_slptr_disable : M D unit := reg_write GPIO2_FIOCLR (Z.shiftl 1 RF212_SLPTR_PIN).
Definition rf212_spi_enable : M D unit := reg_write GPIO0_FIOCLR (Z.shiftl 1 RF212_SSEL_PIN).
Definition rf212_spi_disable : M D unit := reg_write GPIO0_FIOSET (Z.shiftl 1 RF212_SSEL_PIN).

Definition rf212_xfer (fuel : nat) (data : Z) : M D Z := ssp_exchange SSP0_DR SSP0_SR fuel data.

(** Built for [RF212_SPI_NUM == 0]. *)
Definition rf212_spi_init : M D unit :=
  reg_or SC_PCONP (Z.shiftl 1 21);;
  reg_or SC_PCLKSEL0 (Z.shiftl 1 10);;
  reg_and PINSEL0 (unot 32 (Z.shiftl 3 30));;
  reg_or PINSEL0 (Z.shiftl 2 30);;
  reg_and PINSEL1 (unot 32 (Z.shiftl 3 2));;
  reg_or PINSEL1 (Z.shiftl 2 2);;
  reg_and PINSEL1 (unot 32 (Z.shiftl 3 4));;
  reg_or PINSEL1 (Z.shiftl 2 4);;
  reg_write SSP0_CR0 0x0707;;
  reg_write SSP0_CPSR 0x2;;
  for_range 0 FIFOSIZE (λ _, reg_read SSP0_DR;; mret tt);;
  reg_write SSP0_CR1 SSPCR1_SSE;;
  reg_write SSP0_IMSC (Z.lor SSPIMSC_RORIM SSPIMSC_RTIM);;
  rf212_spi_disable.

Definition rf212_io_init : M D unit :=
  reg_or GPIO2_FIODIR (Z.shiftl 1 RF212_RESET_PIN);;
  reg_or GPIO2_FIODIR (Z.shiftl 1 RF212_SLPTR_PIN);;
  reg_or GPIO0_FIODIR (Z.shiftl 1 RF212_SSEL_PIN);;
  rf212_spi_init;;
  reg_or PINSEL4 (Z.shiftl 1 22);;
  reg_or SC_EXTMODE (Z.shiftl 1 1);;
  reg_or SC_EXTPOLAR (Z.shiftl 1 1);;
  reg_or SC_EXTINT (Z.shiftl 1 1);;
  NVIC_SetPriority EINT1_IRQn 5;;
  NVIC_EnableIRQ EINT1_IRQn.

(** Waits for the match interrupt of timer 0. *)
Definition rf212_delay_us (fuel : nat) (us : Z) : M D unit :=
  reg_or SC_PCONP (Z.shiftl 1 1);;
  reg_write TIM0_TCR 0x2;;
  reg_write TIM0_PR 25;;
  reg_write TIM0_MR0 us;;
  reg_or TIM0_MCR (Z.lor (Z.shiftl 1 0) (Z.shiftl 1 2));;
  reg_or TIM0_IR 0x3F;;
  reg_write TIM0_TCR 0x1;;
  poll fuel (v ← reg_read TIM0_IR; mret (negb (Z.land v 0x1 =? 0)));;
  reg_write TIM0_TCR 0x2;;
  reg_and SC_PCONP (unot 32 (Z.shiftl 1 1)).

Definition rf212_trigger_interrupt : M D unit :=
  reg_or SC_PCONP (Z.shiftl 1 22);;
  reg_write TIM2_TCR 0x2;;
  reg_write TIM2_PR 1;;
  reg_write TIM2_MR0 1;;
  reg_or TIM2_MCR (Z.lor (Z.shiftl 1 0) (Z.shiftl 1 2));;
  reg_or TIM2_IR 0x3F;;
  NVIC_SetPriority TIMER2_IRQn 5;;
  NVIC_EnableIRQ TIMER2_IRQn;;
  reg_write TIM2_TCR 0x1.

(** The hardware functions [rf212_init] connects. *)
Definition rf212_port (fuel : nat) : RadioPort D := {|
  rp_spi := {| spi_xfer := rf212_xfer fuel; spi_enable := rf212_spi_enable; spi_disable := rf212_spi_disable |};
  slptr_set := rf212_slptr_enable;
  slptr_clear := rf212_slptr_disable;
  reset_set := rf212_reset_enable;
  reset_clear := rf212_reset_disable;
  delay_us := rf212_delay_us fuel;
|}.
End Functions.

(** ** [rf212.c] *)

Definition radif_init_struct : radif :=
  Radif 0 0 0 0 (replicate NUM_RXFRAMES (RxFrame (replicate FRAME_DATA 0) 0 0 0 0))
    (replicate NUM_TXFRAMES (TxFrame (replicate FRAME_DATA 0) 0 0 0)) 0 0
    (RadifConfig 0 0 0 0 0 0 0 0) 0 0 (RadifStats 0 0 0 0 0 0 0).

(** The properties that the start-up sets; [promiscuous] stays zero. *)
Definition rf212_config : radif_config :=
  RadifConfig 0x19 0xFF 0 8683 0xe8 RADIF_OQPSK_400KCHIPS_200KBITS_S 0x1234 0x0001.
Definition rf212_struct : radif :=
  let r := radif_init_struct in
  Radif (RxProduceIndex r) (RxConsumeIndex r) (TxConsumeIndex r) (TxProduceIndex r) (RxFrames r)
    (TxFrames r) (Command r) (CommandOutput r) rf212_config (up r) (seq_id r) (stats r).

Section Handlers.
Context {D : Type} `{Mmio D} (fuel : nat).
Abbreviation S := (radio_state D).
#[local] Instance the_port : RadioPort D := rf212_port fuel.

Definition TIMER2_IRQHandler : M S unit :=
  on_rport (reg_or TIM2_IR 0x3F);;
  on_rport (NVIC_DisableIRQ TIMER2_IRQn);;
  on_rport (reg_write TIM2_TCR 0x2);;
  on_rport (reg_and SC_PCONP (unot 32 (Z.shiftl 1 22)));;
  radio_irq fuel.

Definition EINT1_IRQHandler : M S unit :=
  on_rport (reg_or SC_EXTINT (Z.shiftl 1 1));;
  radio_irq fuel.

(** Timer 2 has a higher priority than the main program and matches at once:
    its handler runs before the triggering code goes on. *)
Definition trigger_and_serve : M S unit := on_rport rf212_trigger_interrupt;; TIMER2_IRQHandler.

Definition rf212_init : M S unit :=
  set_if (λ _, rf212_struct);;
  on_rport rf212_io_init;;
  radif_command trigger_and_serve RADIF_RESET;;
  radif_command trigger_and_serve RADIF_SET_MODULATION;;
  radif_command trigger_and_serve RADIF_SET_FREQ;;
  radif_command trigger_and_serve RADIF_SET_POWER;;
  radif_command trigger_and_serve RADIF_SET_ADDRESS;;
  radif_command trigger_and_serve RADIF_STARTUP;;
  mret tt.
End Handlers.
