(* ===== verification/FrameProcessor.v ===== *)
(** * Radio frames from the nodes ([src/frame_processor.c],
      [src/radio_init_service.c])

    The nodes upload records, ask for the time and send debug text.  The
    callback runs on the radio interface, the clock and the sample memory;
    the console output has no effect on them. *)

From S2P Require Import Prelude Checksum BlockDev Hw Memory MemoryRing Time Write.
From S2P Require Import HttpTx RadioIf RadioOps RadioChip RadioFrame RadioRing Rf212.
From Stdlib Require Import Ascii String ZArith Lia.
From stdpp Require Import base numbers list.
Open Scope Z_scope.

(** The variables [record] and [sample_ack_packet], and the components. *)
Record gateway (P B D : Type) : Type := Gateway {
  g_record : list Z;
  g_ack_packet : list Z;
  g_radio : radio_state P;
  g_write : write_state B D;
}.
Arguments Gateway {P B D}.
Arguments g_record {P B D}.
Arguments g_ack_packet {P B D}.
Arguments g_radio {P B D}.
Arguments g_write {P B D}.

#[export] Instance gateway_has_radif P B D : HasRadif (gateway P B D) := {|
  the_if s := r_if (g_radio s);
  put_if r s := Gateway (g_record s) (g_ack_packet s) (RadioState r (r_port (g_radio s))) (g_write s);
  the_put r s := eq_refl;
|}.

Section Operations.
Context {P B D : Type} `{RadioPort P} `{BlockDev B} `{Mmio D}.
(** What [interrupt_trigger] sets off. *)
Context (interrupt : M (radio_state P) unit).
Abbreviation S := (gateway P B D).

Definition on_radio {A} (m : M (radio_state P) A) : M S A :=
  lift g_radio (λ r s, Gateway (g_record s) (g_ack_packet s) r (g_write s)) m.
Definition on_write {A} (m : M (write_state B D) A) : M S A :=
  lift g_write (λ w s, Gateway (g_record s) (g_ack_packet s) (g_radio s) w) m.
Definition set_record (l : list Z) : M S unit :=
  modify (λ s, Gateway l (g_ack_packet s) (g_radio s) (g_write s)).
Definition set_ack_packet (l : list Z) : M S unit :=
  modify (λ s, Gateway (g_record s) l (g_radio s) (g_write s)).

(** ** [frame_processor.c] *)

Definition ack_packet (mem_address checksum : Z) : list Z :=
  char "A" :: le_bytes 4 mem_address ++ le_bytes 4 checksum.

Definition send_upload_ack (rf_address mem_address checksum : Z) : M S unit :=
  set_ack_packet (ack_packet mem_address checksum);;
  packet ← gets g_ack_packet;
  on_radio (radif_send interrupt packet 9 rf_address 1).

Definition get_memory_address_from_rx (rx : rx_frame) : Z :=
  let data := rx_data rx in
  u32 (Z.lor (Z.lor (Z.lor data.[1] (Z.shiftl data.[2] 8)) (Z.shiftl data.[3] 16)) (Z.shiftl data.[4] 24)).

(** [put_sample] looks at timer 3. *)
Definition block_uploaded (rx : rx_frame) : M S unit :=
  if rx_length rx >=? Z.of_nat MEMORY_RECORD_SIZE then
    set_record (take MEMORY_RECORD_SIZE (drop 5 (rx_data rx)));;
    record ← gets g_record;
    let actual_checksum := calculate_checksum record in
    let checksum := get_checksum record in
    if checksum =? actual_checksum then
      let mem_addr := get_memory_address_from_rx rx in
      send_upload_ack (rx_source_address rx) mem_addr checksum;;
      tc ← on_write (on_time (on_timer (reg_read TIM3_TC)));
      on_write (on_mem (put_sample tc record));;
      mret tt
    else mret tt
  else mret tt.

(** ** [radio_init_service.c] *)

Definition debug_reply : list Z := [char "D"; char "D"; char "D"; char "D"].
Definition radio_debug_frame (rx : rx_frame) : M S unit :=
  on_radio (radif_send interrupt debug_reply 4 (rx_source_address rx) 1).

(** [buffer[i] = time_now & 0xFF; time_now >>= 8;] eight times *)
Fixpoint time_octets (n : nat) (time_now : Z) : list Z :=
  match n with O => [] | Datatypes.S n => Z.land time_now 0xFF :: time_octets n (Z.shiftr time_now 8) end.

Definition radio_timereq_frame (rx : rx_frame) : M S unit :=
  valid ← on_write (on_time is_time_valid);
  (if negb (valid =? 0) then
     time_now ← on_write (on_time get_current_time);
     on_write (on_time print_current_time);;
     on_radio (radif_send interrupt (char "T" :: time_octets 8 time_now) 9 (rx_source_address rx) 1)
   else mret tt);;
  on_write (write_sample_to_mem (u32 (Z.shiftl 61 26)) (rx_energy_detect rx) 0 0).

Definition rf212_rx_callback (rx : rx_frame) : M S unit :=
  let c := (rx_data rx).[0] in
  if c =? char "D" then radio_debug_frame rx
  else if c =? char "T" then radio_timereq_frame rx
  else if c =? char "U" then block_uploaded rx
  else mret tt.

Definition rf212_service (fuel : nat) : M S unit := radif_service (Some rf212_rx_callback) fuel.
Definition radio_service (fuel : nat) : M S unit := rf212_service fuel.
End Operations.

(** The callback is passed to [rf212_init], whose other effects are on the
    radio alone. *)
Definition radio_init {B D} `{Mmio D} (fuel : nat) : M (gateway D B D) unit := on_radio (rf212_init fuel).

(** ** The radio during a callback *)

Section Grows.
Context {P : Type} `{RadioPort P}.
(** How many more frames the chip can deliver. *)
Context (arrivals : P → nat).
Abbreviation S := (radio_state P).

(** The receive ring may only have grown at its end. *)
Definition rx_grows (s s' : S) : Prop :=
  RxConsumeIndex (r_if s') = RxConsumeIndex (r_if s) ∧
  (rx_ring_ok (r_if s) → rx_ring_ok (r_if s')) ∧
  ∃ more, rx_pending (r_if s') = rx_pending (r_if s) ++ more ∧
    (arrivals (r_port s') + length more ≤ arrivals (r_port s))%nat.
Lemma rx_grows_refl s : rx_grows s s.
Proof. split; [done|]. split; [done|]. exists []. rewrite app_nil_r. split; [done|simpl; lia]. Qed.
Lemma rx_grows_trans s1 s2 s3 : rx_grows s1 s2 → rx_grows s2 s3 → rx_grows s1 s3.
Proof.
  intros (E1 & O1 & m1 & P1 & A1) (E2 & O2 & m2 & P2 & A2). split; [congruence|]. split; [auto|].
  exists (m1 ++ m2). rewrite P2, P1, length_app, <-app_assoc. split; [done|lia].
Qed.

Definition grows {A} (m : M S A) : Prop := ∀ s a s', m s = Ok (a, s') → rx_grows s s'.
Lemma grows_bind {A B} (m : M S A) (k : A → M S B) : grows m → (∀ a, grows (k a)) → grows (m ≫= k).
Proof.
  intros Hm Hk s b s' E. rewrite bind_unfold in E. destruct (m s) as [[a s1]| |] eqn:E1; try done.
  eapply rx_grows_trans; [by eapply Hm|by eapply Hk].
Qed.
Lemma grows_same {A} (f : S → A) (g : S → S) :
  (∀ s, rx_grows s (g s)) → grows (λ s, Ok (f s, g s)).
Proof. intros Hg s a s' [= <- <-]. apply Hg. Qed.

Lemma grows_send interrupt frame len dest ack :
  grows interrupt → grows (radif_send interrupt frame len dest ack).
Proof.
  intros Hi. unfold radif_send. case_match; [done|].
  assert (∀ A (f : S → A), grows (gets f)) as Hg.
  { intros A f s a s' [= <- <-]. apply rx_grows_refl. }
  assert (∀ A (a : A), grows (mret a)) as Hr.
  { intros A a s b s' [= <- <-]. apply rx_grows_refl. }
  assert (∀ p (l : radif → list tx_frame), grows (set_if (λ r, with_tx (p r) (l r) r))) as Hs.
  { intros p l. apply grows_same. intros s. unfold rx_grows. exact (rx_grows_refl s). }
  apply grows_bind; [apply Hg|intros r].
  apply grows_bind.
  - repeat case_match; [apply grows_bind; [done|intros _]|apply Hr..].
    apply grows_bind; [apply Hg|intros c]. case_match; [done|apply Hr].
  - intros [|]; [|apply Hr]. apply grows_bind.
    + apply grows_bind; [apply Hg|]. intros r'. unfold tx_get. case_match; [apply Hr|done].
    + intros tx. apply grows_bind; [apply (Hs TxProduceIndex)|intros _].
      apply grows_bind; [apply (Hs (λ _, _) TxFrames)|by intros _].
Qed.

Lemma runs_grows {A} (m : M S A) s Q : grows m → runs m s Q → runs m s (λ a s', Q a s' ∧ rx_grows s s').
Proof. intros Hg Hr. unfold runs in *. destruct (m s) as [[a s']| |] eqn:E; try done. split; [done|eauto]. Qed.
End Grows.

(** ** What a frame does *)

Definition uploaded_record (rx : rx_frame) : list Z := take MEMORY_RECORD_SIZE (drop 5 (rx_data rx)).
Definition intact (rx : rx_frame) : bool :=
  (Z.of_nat MEMORY_RECORD_SIZE <=? rx_length rx) && (evaluate_checksum (uploaded_record rx) =? CHECKSUM_PASS).
Definition rssi_flags : Z := 0xF4000000.

(** The effect of a frame on the queue of records. *)
Definition handles (cap : nat) (rx : rx_frame) (q q' : list (list Z)) : Prop :=
  let c := (rx_data rx).[0] in
  if c =? char "U" then q' = if intact rx then enqueue cap q (uploaded_record rx) else q
  else if c =? char "T" then
    ∃ t, is_u64 t ∧ q' = enqueue cap q (sample_block rssi_flags t (rx_energy_detect rx) 0)
  else q' = q.
Fixpoint handled (cap : nat) (l : list rx_frame) (q q' : list (list Z)) : Prop :=
  match l with [] => q' = q | rx :: l => ∃ q1, handles cap rx q q1 ∧ handled cap l q1 q' end.

Lemma handled_snoc cap l rx q q1 q2 :
  handled cap l q q1 → handles cap rx q1 q2 → handled cap (l ++ [rx]) q q2.
Proof.
  revert q. induction l as [|y l IH]; intros q; simpl.
  - intros -> Hh. eauto.
  - intros (q0 & Hy & Hl) Hh. eauto.
Qed.

Section Claims.
Context {P B D : Type} `{RadioPort P} `{BlockDevLaws B} `{Clock D}.
Context (arrivals : P → nat) (interrupt : M (radio_state P) unit).
Context (Hdrains : drains interrupt) (Hgrows : grows arrivals interrupt).
Abbreviation S := (gateway P B D).
Implicit Types s : S.

Definition clocked (w : write_state B D) : Prop :=
  length (write_block w) = 24%nat ∧ bytes_ok (write_block w) ∧ ring_ok (w_mem w) ∧
  is_u32 (ct_lo (w_time w)) ∧ is_u32 (ct_hi (w_time w)).
Definition gateway_ok s : Prop := tx_ring_ok (r_if (g_radio s)) ∧ clocked (g_write s).
Definition mem_of s : mem_state B := w_mem (g_write s).

Lemma write_ok_clocked w : write_ok w → clocked w.
Proof. intros (Hl & Hb & (Hlo & Hhi & _) & Hm). by split. Qed.

(** A reply has been queued, or dropped by a full interface that is down. *)
Definition replied (frame : list Z) (dest : Z) s s' : Prop :=
  let r := r_if (g_radio s) in let r' := r_if (g_radio s') in
  (up r = 0 ∧ length (tx_pending r) = 7%nat ∧ g_radio s' = g_radio s) ∨
  (∃ f gone, sent_frame frame (Z.of_nat (length frame)) dest 1 f ∧ tx_pending r ++ [f] = gone ++ tx_pending r').

Lemma on_radio_runs {A} (m : M (radio_state P) A) s Q :
  runs m (g_radio s) (λ a r, Q a (Gateway (g_record s) (g_ack_packet s) r (g_write s))) → runs (on_radio m) s Q.
Proof. unfold runs, on_radio, lift. by destruct (m (g_radio s)) as [[]| |]. Qed.
Lemma on_write_runs {A} (m : M (write_state B D) A) s Q :
  runs m (g_write s) (λ a w, Q a (Gateway (g_record s) (g_ack_packet s) (g_radio s) w)) → runs (on_write m) s Q.
Proof. unfold runs, on_write, lift. by destruct (m (g_write s)) as [[]| |]. Qed.

Lemma reply_ok frame dest s :
  gateway_ok s → (length frame ≤ 127)%nat →
  runs (on_radio (radif_send interrupt frame (Z.of_nat (length frame)) dest 1)) s (λ _ s',
    gateway_ok s' ∧ g_write s' = g_write s ∧ g_record s' = g_record s ∧ replied frame dest s s' ∧
    rx_grows arrivals (g_radio s) (g_radio s')).
Proof.
  intros [Ht Hw] Hl. apply on_radio_runs.
  eapply runs_mono; [|apply runs_grows; [apply grows_send, Hgrows|apply send_ok; [done|lia|lia|done]]].
  intros ? r [[Ht' Hs] Hg]. simpl. split; [done|]. split; [done|]. split; [done|]. split; [|done].
  unfold replied. simpl. destruct Hs as [(Hu & H7 & ->)|Hs]; auto.
Qed.

Lemma record_ok rx : rx_slot_ok rx → length (uploaded_record rx) = MEMORY_RECORD_SIZE ∧ bytes_ok (uploaded_record rx).
Proof.
  intros [Hl Hb]. unfold uploaded_record. split.
  - rewrite length_take, length_drop, Hl. unfold FRAME_DATA, MEMORY_RECORD_SIZE. lia.
  - by apply Forall_take, Forall_drop.
Qed.
Lemma memory_address rx :
  rx_slot_ok rx → get_memory_address_from_rx rx = le_word (take 4 (drop 1 (rx_data rx))).
Proof.
  intros [Hl Hb]. unfold get_memory_address_from_rx. rewrite le_word4_lor by auto with cint.
  rewrite u32_small by auto using le_word4_u32 with cint. f_equal.
  rewrite <-map_octet_seq; [done|]. rewrite Hl. unfold FRAME_DATA. lia.
Qed.
Lemma intact_spec rx :
  intact rx = (rx_length rx >=? Z.of_nat MEMORY_RECORD_SIZE) &&
    (get_checksum (uploaded_record rx) =? calculate_checksum (uploaded_record rx)).
Proof. unfold intact, evaluate_checksum. rewrite Z.geb_leb. f_equal.
  by destruct (get_checksum _ =? calculate_checksum _). Qed.

(** The clock is read through [on_time]. *)
Lemma on_time_runs {A} (m : M (time_state D) A) (w : write_state B D) Q :
  runs m (w_time w) (λ a t, Q a (WriteState (write_block w) t (w_mem w))) → runs (on_time m) w Q.
Proof. unfold runs, on_time, lift. by destruct (m (w_time w)) as [[]| |]. Qed.
Lemma on_mem_runs {A} (m : M (mem_state B) A) (w : write_state B D) Q :
  runs m (w_mem w) (λ a x, Q a (WriteState (write_block w) (w_time w) x)) → runs (on_mem m) w Q.
Proof. unfold runs, on_mem, lift. by destruct (m (w_mem w)) as [[]| |]. Qed.
Lemma read_tc (t : time_state D) : on_timer (reg_read TIM3_TC) t = Ok (clk_tc (t_dev t), t).
Proof. unfold on_timer, lift, reg_read. rewrite clk_read. by destruct t. Qed.

Definition upload_ack rx : list Z :=
  ack_packet (le_word (take 4 (drop 1 (rx_data rx)))) (get_checksum (uploaded_record rx)).

Lemma block_uploaded_ok rx s :
  gateway_ok s → rx_slot_ok rx →
  runs (block_uploaded interrupt rx) s (λ _ s',
    gateway_ok s' ∧ ring_cap (mem_of s') = ring_cap (mem_of s) ∧
    rx_grows arrivals (g_radio s) (g_radio s') ∧
    if intact rx then
      replied (upload_ack rx) (rx_source_address rx) s s' ∧
      pending (mem_of s') = enqueue (ring_cap (mem_of s)) (pending (mem_of s)) (uploaded_record rx)
    else g_radio s' = g_radio s ∧ g_write s' = g_write s).
Proof.
  intros Hs Hrx. destruct (record_ok rx Hrx) as [Hrl Hrb]. rewrite intact_spec. unfold block_uploaded.
  destruct (rx_length rx >=? _); simpl andb; cbv iota; [|by eapply runs_intro; [done|]; auto using rx_grows_refl].
  apply runs_bind. unfold runs at 1, set_record, modify. apply runs_bind. unfold runs at 1, gets.
  cbn [g_record]. fold (uploaded_record rx).
  destruct (get_checksum (uploaded_record rx) =? calculate_checksum (uploaded_record rx));
    [|by eapply runs_intro; [done|]; auto using rx_grows_refl].
  apply runs_bind. unfold send_upload_ack. apply runs_bind. unfold runs at 1, set_ack_packet, modify.
  apply runs_bind. unfold runs at 1, gets. cbn [g_ack_packet g_record].
  rewrite (memory_address rx Hrx). fold (upload_ack rx).
  change 9 with (Z.of_nat (length (upload_ack rx))).
  eapply runs_mono; [|apply reply_ok; [done|unfold upload_ack; simpl; lia]].
  intros ? s1 ([Ht1 Hw1] & Ew & _ & Hrep & Hg). cbn [g_write g_radio] in *.
  apply runs_bind. apply on_write_runs, on_time_runs. unfold runs at 1. rewrite read_tc.
  apply runs_bind. apply on_write_runs, on_mem_runs. cbn [w_mem w_time write_block g_write].
  pose proof Hw1 as (Hl & Hb & Hm & Hlo & Hhi).
  eapply runs_mono, (put_sample_post _ (uploaded_record rx) _ Hm Hrl Hrb).
  intros ? m (Hm' & Hc & Hp). eapply runs_intro; [done|]. unfold gateway_ok, mem_of, replied in *.
  cbn [g_write g_radio w_mem] in *. rewrite Ew in *. split; [|auto]. split; [done|]. by split.
Qed.

Lemma time_octets_le n t : time_octets n t = le_bytes n t.
Proof.
  revert t. induction n as [|n IH]; intros t; [done|]. simpl. rewrite IH.
  change 0xFF with (Z.ones 8). by rewrite Z.land_ones, Z.shiftr_div_pow2 by lia.
Qed.

(** The time that the clock shows, as the variable and the timer say. *)
Definition shows (t : time_state D) (now : Z) : Prop :=
  ∃ t', get_current_time t = Ok (now, t').

Lemma timereq_ok rx s :
  gateway_ok s →
  runs (radio_timereq_frame interrupt rx) s (λ _ s',
    gateway_ok s' ∧ ring_cap (mem_of s') = ring_cap (mem_of s) ∧
    rx_grows arrivals (g_radio s) (g_radio s') ∧
    ∃ now, shows (w_time (g_write s)) now ∧ is_u64 now ∧
      pending (mem_of s') = enqueue (ring_cap (mem_of s)) (pending (mem_of s))
        (sample_block rssi_flags now (rx_energy_detect rx) 0) ∧
      if decide (time_valid (w_time (g_write s)) = 0) then g_radio s' = g_radio s
      else replied (char "T" :: le_bytes 8 now) (rx_source_address rx) s s').
Proof.
  intros [Ht (Hl & Hb & Hm & Hlo & Hhi)].
  destruct (get_current_time_any (w_time (g_write s)) Hlo Hhi) as (t' & Hg & Ht' & Hv & _ & _).
  assert (shows (w_time (g_write s)) (current_time t')) as Hshow by by exists t'.
  pose proof (current_time_u64 t' Ht') as H64.
  unfold radio_timereq_frame. apply runs_bind. apply on_write_runs, on_time_runs.
  unfold runs at 1, is_time_valid, gets. change (u32 (Z.shiftl 61 26)) with rssi_flags.
  assert (Gateway (g_record s) (g_ack_packet s) (g_radio s) (WriteState (write_block (g_write s))
    (w_time (g_write s)) (w_mem (g_write s))) = s) as -> by by destruct s as [? ? ? []].
  set (now := current_time t') in *.
  destruct (decide (time_valid (w_time (g_write s)) = 0)) as [E|E].
  - rewrite (proj2 (Z.eqb_eq _ _) E). simpl negb. cbv iota. apply runs_bind.
    eapply runs_intro; [done|]. apply on_write_runs.
    eapply runs_mono, (write_sample_at now t' _ _ _ _ _ Hl Hb Hm Hg Ht').
    intros ? w (Hw & _ & Hc & Hp). split; [split; [done|by apply write_ok_clocked]|].
    split; [done|]. split; [apply rx_grows_refl|]. exists now.
    rewrite Z.sub_0_r, (u64_small now H64) in Hp. auto.
  - rewrite (proj2 (Z.eqb_neq _ _) E). simpl negb. cbv iota. apply runs_bind.
    apply runs_bind. apply on_write_runs, on_time_runs. unfold runs at 1. rewrite Hg.
    apply runs_bind. apply on_write_runs, on_time_runs. unfold print_current_time. apply runs_bind.
    cbn [w_time g_write]. unfold runs at 1. rewrite (get_current_time_again t' Ht'). eapply runs_intro; [done|].
    cbn [write_block w_mem g_write g_record g_ack_packet g_radio]. rewrite time_octets_le.
    change 9 with (Z.of_nat (length (char "T" :: le_bytes 8 now))).
    eapply runs_mono; [|apply reply_ok; [|simpl; lia]].
    2:{ split; [done|]. destruct Ht' as (? & ? & _). by split. }
    intros ? s1 (Hok1 & Ew & _ & Hrep & Hgr). cbn [g_write g_radio] in *.
    pose proof (get_current_time_again t' Ht') as Hagain.
    apply on_write_runs. rewrite Ew.
    eapply runs_mono, (write_sample_at now t' _ _ _ _ (WriteState _ _ _) Hl Hb Hm Hagain Ht').
    intros ? w (Hw & _ & Hc & Hp). cbn [w_mem] in *.
    rewrite Z.sub_0_r, (u64_small now H64) in Hp.
    split; [split; [|by apply write_ok_clocked]|].
    { cbn [g_radio]. apply Hok1. }
    split; [done|]. split; [done|]. exists now. auto.
Qed.

(** ** The service loop *)

Definition served (cap : nat) (q0 : list (list Z)) (n : nat) (done : list rx_frame) s : Prop :=
  gateway_ok s ∧ ring_cap (mem_of s) = cap ∧ handled cap done q0 (pending (mem_of s)) ∧
  (arrivals (r_port (g_radio s)) ≤ n)%nat.

Lemma callback_handles rx s :
  gateway_ok s → rx_slot_ok rx →
  runs (rf212_rx_callback interrupt rx) s (λ _ s',
    gateway_ok s' ∧ ring_cap (mem_of s') = ring_cap (mem_of s) ∧
    rx_grows arrivals (g_radio s) (g_radio s') ∧
    handles (ring_cap (mem_of s)) rx (pending (mem_of s)) (pending (mem_of s'))).
Proof.
  intros Hs Hrx. unfold rf212_rx_callback, handles. set (c := (rx_data rx).[0]).
  destruct (Z.eqb_spec c (char "D")) as [->|HD]; [|destruct (Z.eqb_spec c (char "T")) as [->|HT]].
  - simpl Z.eqb. cbv iota. unfold radio_debug_frame. change 4 with (Z.of_nat (length debug_reply)).
    eapply runs_mono; [|apply reply_ok; [done|simpl; lia]].
    intros ? s' (Hs' & Ew & _ & _ & Hg). unfold mem_of. by rewrite Ew.
  - simpl Z.eqb. cbv iota. eapply runs_mono, timereq_ok; [|done].
    intros ? s' (Hs' & Hc & Hg & now & _ & H64 & Hp & _). eauto 6.
  - destruct (Z.eqb_spec c (char "U")) as [HU|HU].
    + eapply runs_mono, block_uploaded_ok; [|done|done].
      intros ? s' (Hs' & Hc & Hg & Hp). split; [done|]. split; [done|]. split; [done|].
      destruct (intact rx); [apply Hp|]. unfold mem_of. by destruct Hp as [_ ->].
    + eapply runs_intro; [done|]. split; [done|]. split; [done|]. split; [apply rx_grows_refl|done].
Qed.

Lemma pending_slot r f : rx_ring_ok r → head (rx_pending r) = Some f → rx_slot_ok f.
Proof.
  intros Hok Hh. destruct (decide (RxConsumeIndex r = RxProduceIndex r)) as [E|E].
  { apply rx_pending_nil in E; [|done]. by rewrite E in Hh. }
  destruct (rx_release_pending r Hok E) as (g & Hg & _ & Hp). rewrite Hp in Hh. injection Hh as <-.
  destruct Hok as (_ & _ & _ & Hd). by eapply Forall_lookup_1 in Hd.
Qed.

Lemma served_callback cap q0 : callback_ok (served cap q0) (rf212_rx_callback interrupt).
Proof.
  split.
  - intros n done s r (Hs & Hc & Hh & Ha) ->. done.
  - intros n done f s (Hs & Hc & Hh & Ha) Hok Hhead.
    eapply runs_mono, callback_handles; [|done|by eapply pending_slot].
    intros ? s' (Hs' & Hc' & (E & Hok' & more & Hp & Hbud) & Hhan).
    exists (arrivals (r_port (g_radio s'))), more. rewrite Hc in *.
    split; [|split; [lia|]; split; [by apply Hok'|done]].
    split; [done|]. split; [congruence|]. split; [by eapply handled_snoc|lia].
Qed.

(** Uploads are acknowledged and stored.  A frame with an intact record
    makes [block_uploaded] reply with the record's address and checksum to
    the node that sent it and append the record to the sample memory while
    that has room; a frame that is too short, or whose record fails the
    checksum, is ignored. *)
Theorem block_uploaded_outcome rx s :
  gateway_ok s → rx_slot_ok rx →
  runs (block_uploaded interrupt rx) s (λ _ s',
    gateway_ok s' ∧
    if intact rx then
      replied (upload_ack rx) (rx_source_address rx) s s' ∧
      pending (mem_of s') = enqueue (ring_cap (mem_of s)) (pending (mem_of s)) (uploaded_record rx)
    else g_radio s' = g_radio s ∧ g_write s' = g_write s).
Proof.
  intros Hs Hrx. eapply runs_mono, (block_uploaded_ok rx s Hs Hrx).
  intros ? s' (Hs' & _ & _ & Hp). done.
Qed.

(** Requests for the time.  When the gateway's time is valid,
    [radio_timereq_frame] replies with the 64-bit time the clock shows, least
    significant octet first; otherwise it does not reply.  In both cases the
    signal strength of the request is recorded, stamped with that time. *)
Theorem timereq_replies rx s :
  gateway_ok s →
  runs (radio_timereq_frame interrupt rx) s (λ _ s',
    gateway_ok s' ∧ ∃ now, shows (w_time (g_write s)) now ∧ is_u64 now ∧
      pending (mem_of s') = enqueue (ring_cap (mem_of s)) (pending (mem_of s))
        (sample_block rssi_flags now (rx_energy_detect rx) 0) ∧
      if decide (time_valid (w_time (g_write s)) = 0) then g_radio s' = g_radio s
      else replied (char "T" :: le_bytes 8 now) (rx_source_address rx) s s').
Proof.
  intros Hs. eapply runs_mono, (timereq_ok rx s Hs). intros ? s' (Hs' & _ & _ & Hp). done.
Qed.

End Claims.

(** ** A gateway *)

(** A node uploads a record at address 0x01020304. *)
Definition upload_frame : rx_frame :=
  RxFrame (char "U" :: [4; 3; 2; 1] ++ sample_block 5 7 1 2 ++ replicate 98 0) 29 1 40 7.
Definition time_frame : rx_frame := RxFrame (char "T" :: replicate 126 0) 1 1 33 8.
Definition demo_gateway : gateway frame_chip ram_disk tim3 :=
  Gateway (replicate 24 0) (replicate 9 0)
    (RadioState (rx_accept time_frame (rx_accept upload_frame demo_radif)) (FrameChip [] [] [])) demo_write.

Lemma demo_gateway_ok : gateway_ok demo_gateway.
Proof.
  split; [split; [by compute|]; split; [by compute|]; split; [done|by_decision]|].
  split; [done|]. split; [by_decision|]. split; [apply demo_ring_ok|]. split; by_decision.
Qed.
Lemma take_one_grows : grows (λ _ : frame_chip, 0%nat) take_one.
Proof.
  unfold take_one. apply grows_same. intros [r d]. simpl. case_match; [apply rx_grows_refl|].
  exact (rx_grows_refl (λ _ : frame_chip, 0%nat) (RadioState r d)).
Qed.

Lemma block_uploaded_outcome_witness :
  runs (block_uploaded take_one upload_frame) demo_gateway (λ _ s',
    gateway_ok s' ∧
    if intact upload_frame then
      replied (upload_ack upload_frame) (rx_source_address upload_frame) demo_gateway s' ∧
      pending (mem_of s') = enqueue (ring_cap (mem_of demo_gateway)) (pending (mem_of demo_gateway))
        (uploaded_record upload_frame)
    else g_radio s' = g_radio demo_gateway ∧ g_write s' = g_write demo_gateway).
Proof.
  apply (block_uploaded_outcome _ take_one take_one_drains take_one_grows upload_frame demo_gateway
    demo_gateway_ok). by_decision.
Defined.

Lemma timereq_replies_witness :
  runs (radio_timereq_frame take_one time_frame) demo_gateway (λ _ s',
    gateway_ok s' ∧ ∃ now, shows (w_time (g_write demo_gateway)) now ∧ is_u64 now ∧
      pending (mem_of s') = enqueue (ring_cap (mem_of demo_gateway)) (pending (mem_of demo_gateway))
        (sample_block rssi_flags now (rx_energy_detect time_frame) 0) ∧
      if decide (time_valid (w_time (g_write demo_gateway)) = 0) then g_radio s' = g_radio demo_gateway
      else replied (char "T" :: le_bytes 8 now) (rx_source_address time_frame) demo_gateway s').
Proof.
  apply (timereq_replies _ take_one take_one_drains take_one_grows time_frame demo_gateway demo_gateway_ok).
Defined.

