(* ===== verification/Timers.v ===== *)
(** * The timeout list ([src/lwip/core/timers.c])

    One-shot timers in a list that is coded by differences: each entry holds
    the time from its predecessor.  The theorem decodes it: the list is a
    schedule of deadlines, into which [sys_timeout] inserts behind earlier or
    equal deadlines and from which [sys_untimeout] removes one entry, moving
    no other deadline. *)

From S2P Require Import Prelude Hw.
From Stdlib Require Import ZArith Lia.
From stdpp Require Import base numbers list.
Open Scope Z_scope.

(** The functions that are ever passed as handlers, always with a null
    argument. *)
Inductive handler : Type :=
  | H_tcpip_tcp_timer
  | H_ip_reass_timer
  | H_arp_timer
  | H_dhcp_timer_coarse
  | H_dhcp_timer_fine
  | H_dns_timer
  | H_sntp_request
  | H_sntp_retry.
#[export] Instance handler_eq_dec : EqDecision handler.
Proof. solve_decision. Defined.

Definition TCP_TMR_INTERVAL : Z := 250.
Definition IP_TMR_INTERVAL : Z := 1000.
Definition ARP_TMR_INTERVAL : Z := 5000.
Definition DHCP_COARSE_TIMER_MSECS : Z := 60 * 1000.
Definition DHCP_FINE_TIMER_MSECS : Z := 500.
Definition DNS_TMR_INTERVAL : Z := 1000.
Definition MEMP_NUM_SYS_TIMEOUT : nat := 300.

(** [struct sys_timeo]: [time] and [h]. *)
Definition sys_timeo : Type := Z * handler.

(** The variables, and how many entries the pool has left. *)
Record timers : Type := Timers {
  next_timeout : list sys_timeo;
  timeouts_last_time : Z;
  tcpip_tcp_timer_active : Z;
  timeouts_free : nat;
}.

(** ** Setting and cancelling *)

(** The loop over [t] for a timeout that does not come first. *)
Fixpoint insert_loop (l : list sys_timeo) (time : Z) (h : handler) : list sys_timeo :=
  match l with
  | [] => []
  | t :: rest =>
     let time := u32 (time - t.1) in
     match rest with
     | [] => [t; (time, h)]
     | (nt, nh) :: rest' =>
        if nt >? time then t :: (time, h) :: (u32 (nt - time), nh) :: rest'
        else t :: insert_loop rest time h
     end
  end.

Definition link (l : list sys_timeo) (msecs : Z) (h : handler) : list sys_timeo :=
  match l with
  | [] => [(msecs, h)]
  | (t0, h0) :: rest =>
     if t0 >? msecs then (msecs, h) :: (u32 (t0 - msecs), h0) :: rest
     else insert_loop l msecs h
  end.

(** An exhausted pool fails the assertion, which halts. *)
Definition sys_timeout (msecs : Z) (h : handler) : M timers unit :=
  s ← get;
  match timeouts_free s with
  | O => spin
  | S free =>
     modify (λ s, Timers (link (next_timeout s) msecs h) (timeouts_last_time s)
       (tcpip_tcp_timer_active s) free)
  end.

(** The list without its first entry for the handler, if it has one. *)
Fixpoint unlink (l : list sys_timeo) (h : handler) : option (list sys_timeo) :=
  match l with
  | [] => None
  | t :: rest =>
     if decide (t.2 = h) then
       Some match rest with [] => [] | (nt, nh) :: rest' => (u32 (nt + t.1), nh) :: rest' end
     else match unlink rest h with Some rest => Some (t :: rest) | None => None end
  end.

Definition sys_untimeout (h : handler) : M timers unit :=
  modify (λ s,
    match unlink (next_timeout s) h with
    | Some l => Timers l (timeouts_last_time s) (tcpip_tcp_timer_active s) (S (timeouts_free s))
    | None => s
    end).

(** ** Expiry *)

Definition LWIP_U32_DIFF (a b : Z) : Z :=
  if a >=? b then a - b else u32 (a + Z.lxor b 0xFFFFFFFF + 1).

(** What the timers call: the periodic functions of the stack, the TCP
    connections and the millisecond counter. *)
Class Stack (N : Type) : Type := {
  sys_now : N → Z;
  tcp_tmr : N → N;
  ip_reass_tmr : N → N;
  etharp_tmr : N → N;
  dhcp_coarse_tmr : N → N;
  dhcp_fine_tmr : N → N;
  dns_tmr : N → N;
  tcp_pcbs : N → bool;
}.

Record clockwork (N : Type) : Type := Clockwork { c_timers : timers; c_stack : N }.
Arguments Clockwork {N}.
Arguments c_timers {N}.
Arguments c_stack {N}.

Section Expiry.
Context {N : Type} `{Stack N}.
Abbreviation S := (clockwork N).

Definition on_timers {A} (m : M timers A) : M S A :=
  lift c_timers (λ t s, Clockwork t (c_stack s)) m.
Definition on_stack (f : N → N) : M S unit := modify (λ s, Clockwork (c_timers s) (f (c_stack s))).
Definition set_tcp_active (v : Z) : M timers unit :=
  modify (λ s, Timers (next_timeout s) (timeouts_last_time s) v (timeouts_free s)).

Definition tcpip_tcp_timer : M S unit :=
  on_stack tcp_tmr;;
  needed ← gets (tcp_pcbs ∘ c_stack);
  if needed : bool then on_timers (sys_timeout TCP_TMR_INTERVAL H_tcpip_tcp_timer)
  else on_timers (set_tcp_active 0).
Definition tcp_timer_needed : M S unit :=
  active ← gets (tcpip_tcp_timer_active ∘ c_timers);
  needed ← gets (tcp_pcbs ∘ c_stack);
  if (active =? 0) && needed then
    on_timers (set_tcp_active 1);;
    on_timers (sys_timeout TCP_TMR_INTERVAL H_tcpip_tcp_timer)
  else mret tt.
Definition ip_reass_timer : M S unit :=
  on_stack ip_reass_tmr;; on_timers (sys_timeout IP_TMR_INTERVAL H_ip_reass_timer).
Definition arp_timer : M S unit :=
  on_stack etharp_tmr;; on_timers (sys_timeout ARP_TMR_INTERVAL H_arp_timer).
Definition dhcp_timer_coarse : M S unit :=
  on_stack dhcp_coarse_tmr;; on_timers (sys_timeout DHCP_COARSE_TIMER_MSECS H_dhcp_timer_coarse).
Definition dhcp_timer_fine : M S unit :=
  on_stack dhcp_fine_tmr;; on_timers (sys_timeout DHCP_FINE_TIMER_MSECS H_dhcp_timer_fine).
Definition dns_timer : M S unit :=
  on_stack dns_tmr;; on_timers (sys_timeout DNS_TMR_INTERVAL H_dns_timer).

Definition sys_timeouts_init : M S unit :=
  on_timers (sys_timeout IP_TMR_INTERVAL H_ip_reass_timer);;
  on_timers (sys_timeout ARP_TMR_INTERVAL H_arp_timer);;
  on_timers (sys_timeout DHCP_COARSE_TIMER_MSECS H_dhcp_timer_coarse);;
  on_timers (sys_timeout DHCP_FINE_TIMER_MSECS H_dhcp_timer_fine);;
  on_timers (sys_timeout DNS_TMR_INTERVAL H_dns_timer);;
  now ← gets (sys_now ∘ c_stack);
  on_timers (modify (λ t, Timers (next_timeout t) now (tcpip_tcp_timer_active t) (timeouts_free t))).

Definition sys_restart_timeouts : M S unit :=
  now ← gets (sys_now ∘ c_stack);
  on_timers (modify (λ t, Timers (next_timeout t) now (tcpip_tcp_timer_active t) (timeouts_free t))).
End Expiry.

(** [call] runs a handler on a state that holds the timers.  The head of the
    list is looked at again after each expiry, without a test for the end of
    the list. *)
Section Check.
Context {St : Type} (the_timers : St → timers) (put_timers : timers → St → St).
Context (now_of : St → Z) (call : handler → M St unit).

Fixpoint check_loop (fuel : nat) (now diff : Z) : M St unit :=
  match fuel with
  | O => spin
  | S fuel =>
     t ← gets the_timers;
     match next_timeout t with
     | [] => fault
     | (time, h) :: rest =>
        if time <=? diff then
          modify (put_timers (Timers rest now (tcpip_tcp_timer_active t) (S (timeouts_free t))));;
          call h;;
          check_loop fuel now (u32 (diff - time))
        else mret tt
     end
  end.
Definition sys_check_timeouts (fuel : nat) : M St unit :=
  now ← gets now_of;
  t ← gets the_timers;
  match next_timeout t with
  | [] => mret tt
  | _ => check_loop fuel now (LWIP_U32_DIFF now (timeouts_last_time t))
  end.
End Check.

(** The handlers of the stack itself. *)
Definition call_stack {N} `{Stack N} (sntp : handler → M (clockwork N) unit) (h : handler) : M (clockwork N) unit :=
  match h with
  | H_tcpip_tcp_timer => tcpip_tcp_timer
  | H_ip_reass_timer => ip_reass_timer
  | H_arp_timer => arp_timer
  | H_dhcp_timer_coarse => dhcp_timer_coarse
  | H_dhcp_timer_fine => dhcp_timer_fine
  | H_dns_timer => dns_timer
  | H_sntp_request | H_sntp_retry => sntp h
  end.

(** ** The schedule *)

(** Deadlines, counted from a base. *)
Fixpoint deadlines (base : Z) (l : list sys_timeo) : list (Z * handler) :=
  match l with [] => [] | (t, h) :: l => (base + t, h) :: deadlines (base + t) l end.
Fixpoint total (l : list sys_timeo) : Z := match l with [] => 0 | t :: l => t.1 + total l end.
Definition timeouts_ok (l : list sys_timeo) : Prop := Forall (λ t, 0 ≤ t.1) l ∧ total l < 2 ^ 32.

(** Behind all deadlines that are not later. *)
Fixpoint schedule (l : list (Z * handler)) (d : Z) (h : handler) : list (Z * handler) :=
  match l with
  | [] => [(d, h)]
  | e :: l => if d <? e.1 then (d, h) :: e :: l else e :: schedule l d h
  end.
(** Without the first entry of a handler. *)
Fixpoint unschedule (l : list (Z * handler)) (h : handler) : list (Z * handler) :=
  match l with [] => [] | e :: l => if decide (e.2 = h) then l else e :: unschedule l h end.

Lemma total_nonneg l : Forall (λ t : sys_timeo, 0 ≤ t.1) l → 0 ≤ total l.
Proof. induction 1; simpl; lia. Qed.

Lemma timeouts_ok_cons t l : timeouts_ok (t :: l) → 0 ≤ t.1 < 2 ^ 32 ∧ timeouts_ok l.
Proof.
  intros [Hn Ht]. inversion Hn as [|? ? Ht0 Hl]; subst. pose proof (total_nonneg _ Hl).
  simpl in Ht. split; [lia|]. split; [done|lia].
Qed.

Lemma insert_loop_ok h l : ∀ base time,
  timeouts_ok l → l ≠ [] → 0 ≤ time < 2 ^ 32 → (∀ t, head l = Some t → t.1 ≤ time) →
  deadlines base (insert_loop l time h) = schedule (deadlines base l) (base + time) h ∧
  Forall (λ t, 0 ≤ t.1) (insert_loop l time h) ∧ total (insert_loop l time h) = Z.max time (total l).
Proof.
  induction l as [|[t th] rest IH]; intros base time Hok Hne Htime Hhd; [done|].
  specialize (Hhd _ eq_refl). simpl in Hhd. destruct (timeouts_ok_cons _ _ Hok) as [Ht Hrest]. simpl in Ht.
  assert (u32 (time - t) = time - t) as Hu by (apply u32_small; unfold is_u32; lia).
  simpl insert_loop. simpl fst. rewrite Hu. simpl deadlines. simpl schedule.
  destruct (Z.ltb_spec (base + time) (base + t)); [lia|].
  destruct rest as [|[nt nh] rest'].
  - simpl. replace (base + t + (time - t)) with (base + time) by lia. split; [done|].
    split; [repeat constructor; simpl; lia|lia].
  - destruct (timeouts_ok_cons _ _ Hrest) as [Hnt Hrest']. simpl in Hnt.
    pose proof (total_nonneg _ (proj1 Hrest')) as Htot. rewrite Z.gtb_ltb.
    destruct (Z.ltb_spec (time - t) nt) as [Hlt|Hge].
    + rewrite u32_small by (unfold is_u32; lia). simpl.
      destruct (Z.ltb_spec (base + time) (base + t + nt)); [|lia].
      replace (base + t + (time - t)) with (base + time) by lia.
      replace (base + time + (nt - (time - t))) with (base + t + nt) by lia. split; [done|].
      split; [|lia]. repeat (constructor; [simpl; lia|]). apply Hrest'.
    + destruct (IH (base + t) (time - t)) as (Hd & Hn & Htt); [done|done|lia|by intros ? [= <-]|].
      replace (base + t + (time - t)) with (base + time) in Hd by lia.
      simpl deadlines at 1. simpl deadlines in Hd. rewrite Hd. split; [done|].
      split; [constructor; [simpl; lia|done]|]. simpl in Htt |- *. lia.
Qed.

Lemma link_ok l msecs h :
  timeouts_ok l → 0 ≤ msecs < 2 ^ 32 →
  timeouts_ok (link l msecs h) ∧ deadlines 0 (link l msecs h) = schedule (deadlines 0 l) msecs h.
Proof.
  intros Hok Hm. destruct l as [|[t0 h0] rest]; unfold link.
  { split; [|done]. split; [repeat constructor; simpl; lia|simpl; lia]. }
  destruct (timeouts_ok_cons _ _ Hok) as [Ht Hrest]. simpl in Ht. rewrite Z.gtb_ltb.
  destruct (Z.ltb_spec msecs t0) as [Hlt|Hge].
  - rewrite u32_small by (unfold is_u32; lia). simpl deadlines. simpl schedule.
    destruct (Z.ltb_spec msecs (0 + t0)); [|lia]. replace (0 + msecs) with msecs by lia.
    replace (msecs + (t0 - msecs)) with (0 + t0) by lia. split; [|done]. destruct Hok as [_ Ht0].
    split; [repeat (constructor; [simpl; lia|]); apply Hrest|]. simpl in *. lia.
  - destruct (insert_loop_ok h ((t0, h0) :: rest) 0 msecs) as (Hd & Hn & Htt);
      [done|done|done|by intros ? [= <-]|].
    destruct Hok as [_ Hok]. split; [|exact Hd]. split; [exact Hn|].
    eapply Z.le_lt_trans; [apply Z.eq_le_incl, Htt|].
    apply Z.max_lub_lt; [apply Hm|exact Hok].
Qed.

Lemma unlink_ok h l : ∀ base,
  timeouts_ok l →
  match unlink l h with
  | Some l' => deadlines base l' = unschedule (deadlines base l) h ∧ Forall (λ t, 0 ≤ t.1) l' ∧ total l' ≤ total l
  | None => unschedule (deadlines base l) h = deadlines base l
  end.
Proof.
  induction l as [|[t th] rest IH]; intros base Hok; [done|].
  destruct (timeouts_ok_cons _ _ Hok) as [Ht Hrest]. simpl in Ht. simpl. case_decide as Hh.
  - destruct rest as [|[nt nh] rest']; simpl; [split; [done|]; split; [constructor|lia]|].
    destruct (timeouts_ok_cons _ _ Hrest) as [Hnt [Hn' _]]. simpl in Hnt.
    destruct Hok as [_ Htot]. simpl in Htot. pose proof (total_nonneg _ Hn').
    rewrite u32_small by (unfold is_u32; lia).
    replace (base + (nt + t)) with (base + t + nt) by lia. split; [done|].
    split; [constructor; [simpl; lia|done]|lia].
  - specialize (IH (base + t) Hrest). destruct (unlink rest h) as [rest'|]; simpl; [|by rewrite IH].
    destruct IH as (Hd & Hn & Htt). rewrite Hd. split; [done|].
    split; [constructor; [simpl; lia|done]|lia].
Qed.

(** ** Operations on the schedule *)

Inductive timer_op : Type := Timeout (msecs : Z) (h : handler) | Untimeout (h : handler).
Definition timer_step (op : timer_op) : M timers unit :=
  match op with Timeout msecs h => sys_timeout msecs h | Untimeout h => sys_untimeout h end.
Fixpoint timer_exec (ops : list timer_op) : M timers unit :=
  match ops with [] => mret tt | op :: ops => timer_step op;; timer_exec ops end.

Definition schedule_step (l : list (Z * handler)) (op : timer_op) : list (Z * handler) :=
  match op with Timeout msecs h => schedule l msecs h | Untimeout h => unschedule l h end.
Definition op_ok (op : timer_op) : Prop :=
  match op with Timeout msecs _ => 0 ≤ msecs < 2 ^ 32 | Untimeout _ => True end.

Lemma sys_timeout_ok msecs h s :
  timeouts_ok (next_timeout s) → 0 ≤ msecs < 2 ^ 32 → (0 < timeouts_free s)%nat →
  runs (sys_timeout msecs h) s (λ _ s', timeouts_ok (next_timeout s') ∧
    deadlines 0 (next_timeout s') = schedule (deadlines 0 (next_timeout s)) msecs h ∧
    S (timeouts_free s') = timeouts_free s ∧ timeouts_last_time s' = timeouts_last_time s).
Proof.
  intros Hok Hm Hf. unfold sys_timeout. apply runs_bind. unfold runs at 1, get.
  destruct (timeouts_free s) as [|free] eqn:E; [lia|]. eapply runs_intro; [done|]. simpl.
  destruct (link_ok _ msecs h Hok Hm). auto.
Qed.
Lemma sys_untimeout_ok h s :
  timeouts_ok (next_timeout s) →
  runs (sys_untimeout h) s (λ _ s', timeouts_ok (next_timeout s') ∧
    deadlines 0 (next_timeout s') = unschedule (deadlines 0 (next_timeout s)) h ∧
    (timeouts_free s ≤ timeouts_free s')%nat ∧ timeouts_last_time s' = timeouts_last_time s).
Proof.
  intros Hok. eapply runs_intro; [done|]. pose proof (unlink_ok h _ 0 Hok) as Hu.
  destruct (unlink (next_timeout s) h) as [l|]; [|by rewrite Hu].
  destruct Hu as (Hd & Hn & Ht). destruct Hok as [_ Hok]. simpl.
  split; [split; [done|lia]|]. split; [done|]. split; [lia|done].
Qed.

(** C16. The timeout list is a schedule.  Through any sequence of
    [sys_timeout] and [sys_untimeout] calls for which the pool is large
    enough, the deadlines that the list encodes are those of an ordered
    schedule: a new timeout comes behind all that are due no later, and
    neither operation moves another entry's deadline. *)
Theorem timeout_list_refines ops s :
  timeouts_ok (next_timeout s) → Forall op_ok ops → (length ops ≤ timeouts_free s)%nat →
  runs (timer_exec ops) s (λ _ s', timeouts_ok (next_timeout s') ∧
    deadlines 0 (next_timeout s') = fold_left schedule_step ops (deadlines 0 (next_timeout s)) ∧
    timeouts_last_time s' = timeouts_last_time s).
Proof.
  intros Hok Hops. revert s Hok. induction Hops as [|op ops Hop _ IH]; intros s Hok Hf; simpl in *.
  { by eapply runs_intro. }
  apply runs_bind. destruct op as [msecs h|h]; simpl in *.
  - eapply runs_mono, (sys_timeout_ok msecs h s Hok Hop); [|lia]. intros ? s1 (Hok1 & Hd & Hfree & Hl).
    eapply runs_mono, (IH s1 Hok1); [|lia]. intros ? s2 (? & -> & ->). by rewrite Hd.
  - eapply runs_mono, (sys_untimeout_ok h s Hok). intros ? s1 (Hok1 & Hd & Hfree & Hl).
    eapply runs_mono, (IH s1 Hok1); [|lia]. intros ? s2 (? & -> & ->). by rewrite Hd.
Qed.

Definition demo_timers : timers := Timers [(250, H_tcpip_tcp_timer); (250, H_dhcp_timer_fine)] 0 1 298.

Lemma timeout_list_refines_witness :
  runs (timer_exec [Timeout 3000 H_sntp_retry; Timeout 500 H_dns_timer; Untimeout H_tcpip_tcp_timer]) demo_timers
    (λ _ s', timeouts_ok (next_timeout s') ∧
      deadlines 0 (next_timeout s') =
        [(500, H_dhcp_timer_fine); (500, H_dns_timer); (3000, H_sntp_retry)] ∧
      timeouts_last_time s' = 0).
Proof.
  apply (timeout_list_refines
    [Timeout 3000 H_sntp_retry; Timeout 500 H_dns_timer; Untimeout H_tcpip_tcp_timer] demo_timers).
  - split; [repeat constructor; simpl; lia|simpl; lia].
  - repeat constructor; simpl; lia.
  - simpl. lia.
Defined.

(** ** Examples

    The loop of [sys_check_timeouts] looks at the head of an empty list when
    the last timer has expired. *)
Example last_timer_expires :
  sys_check_timeouts (λ s, s) (λ t _, t) (λ _, 1000) (λ _, mret tt) 5
    (Timers [(500, H_sntp_request)] 0 0 299) = Fault.
Proof. reflexivity. Qed.

(** A timeout is counted from the last expiry, not from the call that sets
    it: 900 ms after the last expiry, one of 200 ms expires at once. *)
Example early_expiry :
  (sys_timeout 200 H_sntp_request;;
   sys_check_timeouts (λ s, s) (λ t _, t) (λ _, 900) (λ _, mret tt) 5)
    (Timers [(1000, H_dns_timer)] 0 0 299) = Ok (tt, Timers [(800, H_dns_timer)] 900 0 299).
Proof. reflexivity. Qed.
