(* ===== verification/Sntp.v ===== *)
(** * The SNTP client ([src/sntp/sntp.c])

    Asks a time server for the time and sets the gateway's clock.  Built as
    in the sources: raw API, one server found by DNS, responses checked for
    their address and originate time stamp.  The name service, datagrams and
    buffers of the stack are an interface. *)

From S2P Require Import Prelude LwipBase Hw Time ServerTcp IpAddr Timers.
From Stdlib Require Import Ascii String ZArith Lia.
From stdpp Require Import base numbers list.
Open Scope Z_scope.

Definition SNTP_PORT : Z := 123.
Definition SNTP_SERVER_ADDRESS : list Z := str "pool.ntp.org".
Definition SNTP_RECV_TIMEOUT : Z := 3000.
Definition SNTP_UPDATE_DELAY : Z := 3600000.
Definition SNTP_RETRY_TIMEOUT : Z := SNTP_RECV_TIMEOUT.
Definition SNTP_RETRY_TIMEOUT_MAX : Z := SNTP_RETRY_TIMEOUT * 10.
Definition SNTP_ERR_KOD : Z := 1.
Definition SNTP_MSG_LEN : nat := 48.
Definition SNTP_OFFSET_LI_VN_MODE : nat := 0.
Definition SNTP_LI_NO_WARNING : Z := 0x00.
Definition SNTP_VERSION : Z := Z.shiftl 4 3.
Definition SNTP_MODE_MASK : Z := 0x07.
Definition SNTP_MODE_CLIENT : Z := 0x03.
Definition SNTP_MODE_SERVER : Z := 0x04.
Definition SNTP_MODE_BROADCAST : Z := 0x05.
Definition SNTP_OFFSET_STRATUM : nat := 1.
Definition SNTP_STRATUM_KOD : Z := 0x00.
Definition SNTP_OFFSET_ORIGINATE_TIME : nat := 24.
Definition SNTP_OFFSET_RECEIVE_TIME : nat := 32.
Definition DIFF_SEC_1900_1970 : Z := 2208988800.

(** The parts of the stack the client calls. *)
Class SntpNet (N : Type) : Type := {
  sn_stack :: Stack N;
  dns_gethostbyname : list Z → N → (Z * Z) * N;
  pbuf_alloc : nat → N → bool * N;
  pbuf_free : N → N;
  udp_sendto : list Z → Z → Z → N → N;
  udp_new : N → bool * N;
  udp_remove : N → N;
}.

Record sntp_state (N D : Type) : Type := SntpState {
  sntp_pcb : bool;
  sntp_retry_timeout : Z;
  sntp_last_server_address : Z;
  sntp_last_timestamp_sent : Z * Z;
  sn_clockwork : clockwork N;
  sn_time : time_state D;
}.
Arguments SntpState {N D}.
Arguments sntp_pcb {N D}.
Arguments sntp_retry_timeout {N D}.
Arguments sntp_last_server_address {N D}.
Arguments sntp_last_timestamp_sent {N D}.
Arguments sn_clockwork {N D}.
Arguments sn_time {N D}.

Section Operations.
Context {N D : Type} `{SntpNet N} `{Mmio D}.
Abbreviation S := (sntp_state N D).

Definition on_sn_timers {A} (m : M timers A) : M S A :=
  lift sn_clockwork (λ c s, SntpState (sntp_pcb s) (sntp_retry_timeout s) (sntp_last_server_address s)
    (sntp_last_timestamp_sent s) c (sn_time s)) (on_timers m).
Definition on_sn_net {A} (f : N → A * N) : M S A := λ s,
  let '(a, n) := f (c_stack (sn_clockwork s)) in
  Ok (a, SntpState (sntp_pcb s) (sntp_retry_timeout s) (sntp_last_server_address s)
    (sntp_last_timestamp_sent s) (Clockwork (c_timers (sn_clockwork s)) n) (sn_time s)).
Definition on_sn_time {A} (m : M (time_state D) A) : M S A :=
  lift sn_time (λ t s, SntpState (sntp_pcb s) (sntp_retry_timeout s) (sntp_last_server_address s)
    (sntp_last_timestamp_sent s) (sn_clockwork s) t) m.
Definition set_pcb (v : bool) : M S unit :=
  modify (λ s, SntpState v (sntp_retry_timeout s) (sntp_last_server_address s)
    (sntp_last_timestamp_sent s) (sn_clockwork s) (sn_time s)).
Definition set_retry_timeout (v : Z) : M S unit :=
  modify (λ s, SntpState (sntp_pcb s) v (sntp_last_server_address s)
    (sntp_last_timestamp_sent s) (sn_clockwork s) (sn_time s)).
Definition set_last_server (v : Z) : M S unit :=
  modify (λ s, SntpState (sntp_pcb s) (sntp_retry_timeout s) v
    (sntp_last_timestamp_sent s) (sn_clockwork s) (sn_time s)).
Definition set_last_sent (v : Z * Z) : M S unit :=
  modify (λ s, SntpState (sntp_pcb s) (sntp_retry_timeout s) (sntp_last_server_address s)
    v (sn_clockwork s) (sn_time s)).

Definition SNTP_RESET_RETRY_TIMEOUT : M S unit := set_retry_timeout SNTP_RETRY_TIMEOUT.

(** Words are as they lie in the message, in network order. *)
Definition sntp_process (receive_timestamp : Z * Z) : M S unit :=
  let t := u32 (lwip_ntohl receive_timestamp.1 - DIFF_SEC_1900_1970) in
  let us := lwip_ntohl receive_timestamp.2 / 4295 in
  on_sn_time (ntp_set_current_time t us).

(** [SNTP_GET_SYSTEM_TIME] is not configured and yields zero. *)
Definition SNTP_GET_SYSTEM_TIME : Z * Z := (0, 0).

Definition sntp_initialize_request : M S (list Z) :=
  let '(sec, us) := SNTP_GET_SYSTEM_TIME in
  let sent := (lwip_htonl (u32 (sec + DIFF_SEC_1900_1970)), lwip_htonl us) in
  set_last_sent sent;;
  mret (Z.lor (Z.lor SNTP_LI_NO_WARNING SNTP_VERSION) SNTP_MODE_CLIENT :: replicate 39 0 ++
        le_bytes 4 sent.1 ++ le_bytes 4 sent.2).

(** [sntp_try_next_server] is this function. *)
Definition sntp_retry : M S unit :=
  retry ← gets sntp_retry_timeout;
  on_sn_timers (sys_timeout retry H_sntp_request);;
  let new_retry_timeout := u32 (Z.shiftl retry 1) in
  if (new_retry_timeout <=? SNTP_RETRY_TIMEOUT_MAX) && (new_retry_timeout >? retry)
  then set_retry_timeout new_retry_timeout else mret tt.

(** [pbuf_copy_partial] of a word *)
Definition copy_word (p : list Z) (offset : nat) : Z := le_word (take 4 (drop offset p)).

(** The classification of a packet: the error, and the time stamp of a
    correct answer. *)
Definition classify (last_server : Z) (last_sent : Z * Z) (p : list Z) (addr port : Z) : Z * (Z * Z) :=
  if (addr =? last_server) && (port =? SNTP_PORT) then
    if (length p =? SNTP_MSG_LEN)%nat then
      let mode := Z.land p.[SNTP_OFFSET_LI_VN_MODE] SNTP_MODE_MASK in
      if (mode =? SNTP_MODE_SERVER) || (mode =? SNTP_MODE_BROADCAST) then
        let stratum := p.[SNTP_OFFSET_STRATUM] in
        if stratum =? SNTP_STRATUM_KOD then (SNTP_ERR_KOD, (0, 0))
        else if negb (copy_word p SNTP_OFFSET_ORIGINATE_TIME =? last_sent.1) ||
                negb (copy_word p (SNTP_OFFSET_ORIGINATE_TIME + 4) =? last_sent.2) then (ERR_ARG, (0, 0))
        else (ERR_OK, (copy_word p SNTP_OFFSET_RECEIVE_TIME, copy_word p (SNTP_OFFSET_RECEIVE_TIME + 4)))
      else (ERR_ARG, (0, 0))
    else (ERR_ARG, (0, 0))
  else (ERR_ARG, (0, 0)).

Definition sntp_recv (p : list Z) (addr port : Z) : M S unit :=
  on_sn_timers (sys_untimeout H_sntp_retry);;
  on_sn_timers (sys_untimeout H_sntp_request);;
  last_server ← gets sntp_last_server_address;
  last_sent ← gets sntp_last_timestamp_sent;
  let '(err, receive_timestamp) := classify last_server last_sent p addr port in
  on_sn_net (λ n, (tt, pbuf_free n));;
  if err =? ERR_OK then
    SNTP_RESET_RETRY_TIMEOUT;;
    sntp_process receive_timestamp;;
    on_sn_timers (sys_timeout SNTP_UPDATE_DELAY H_sntp_request)
  else if err =? SNTP_ERR_KOD then sntp_retry
  else sntp_retry.

Definition sntp_send_request (server_addr : Z) : M S unit :=
  p ← on_sn_net (pbuf_alloc SNTP_MSG_LEN);
  if p : bool then
    msg ← sntp_initialize_request;
    on_sn_net (λ n, (tt, udp_sendto msg server_addr SNTP_PORT n));;
    on_sn_net (λ n, (tt, pbuf_free n));;
    on_sn_timers (sys_timeout SNTP_RECV_TIMEOUT H_sntp_retry);;
    set_last_server server_addr
  else on_sn_timers (sys_timeout SNTP_RETRY_TIMEOUT H_sntp_request).

Definition sntp_dns_found (ipaddr : option Z) : M S unit :=
  match ipaddr with Some a => sntp_send_request a | None => sntp_retry end.

Definition sntp_request : M S unit :=
  '(err, addr) ← on_sn_net (dns_gethostbyname SNTP_SERVER_ADDRESS);
  if err =? ERR_INPROGRESS then mret tt
  else if err =? ERR_OK then sntp_send_request addr
  else on_sn_timers (sys_timeout SNTP_RETRY_TIMEOUT H_sntp_retry).

Definition sntp_cleanup : M S unit :=
  pcb ← gets sntp_pcb;
  if pcb : bool then on_sn_net (λ n, (tt, udp_remove n)) else mret tt.

(** A failed allocation fails the assertion, which halts. *)
Definition sntp_init : M S unit :=
  SNTP_RESET_RETRY_TIMEOUT;;
  pcb ← on_sn_net udp_new;
  set_pcb pcb;;
  if pcb : bool then sntp_request else spin.
End Operations.

(** ** Specification *)

(** A big-endian word. *)
Definition be32 (l : list Z) : Z := le_word (rev l).

(** The answers the client accepts. *)
Definition accepts (last_server : Z) (last_sent : Z * Z) (p : list Z) (addr port : Z) : Prop :=
  addr = last_server ∧ port = SNTP_PORT ∧ length p = SNTP_MSG_LEN ∧
  (Z.land p.[0] 7 = 4 ∨ Z.land p.[0] 7 = 5) ∧ p.[1] ≠ 0 ∧
  copy_word p 24 = last_sent.1 ∧ copy_word p 28 = last_sent.2.
#[export] Instance accepts_dec a b p c d : Decision (accepts a b p c d).
Proof. unfold accepts. apply _. Defined.

Lemma classify_accepts a b p c d :
  (classify a b p c d).1 = ERR_OK ↔ accepts a b p c d.
Proof.
  unfold classify, accepts, SNTP_MODE_MASK, SNTP_MODE_SERVER, SNTP_MODE_BROADCAST, SNTP_STRATUM_KOD,
    SNTP_OFFSET_LI_VN_MODE, SNTP_OFFSET_STRATUM, SNTP_OFFSET_ORIGINATE_TIME.
  change (24 + 4)%nat with 28%nat.
  destruct (Z.eqb_spec c a), (Z.eqb_spec d SNTP_PORT), (Nat.eqb_spec (length p) SNTP_MSG_LEN),
    (Z.eqb_spec (Z.land p.[0] 7) 4), (Z.eqb_spec (Z.land p.[0] 7) 5), (Z.eqb_spec p.[1] 0),
    (Z.eqb_spec (copy_word p 24) b.1), (Z.eqb_spec (copy_word p 28) b.2);
    simpl; split; try tauto; try done; intros; try (split; tauto).
Qed.
Lemma classify_stamp a b p c d :
  accepts a b p c d → (classify a b p c d).2 = (copy_word p 32, copy_word p 36).
Proof.
  intros Ha. apply classify_accepts in Ha. revert Ha. unfold classify.
  repeat case_match; simpl; done.
Qed.

Lemma copy_word_be p i :
  bytes_ok p → (i + 4 ≤ length p)%nat → lwip_ntohl (copy_word p i) = be32 (take 4 (drop i p)).
Proof.
  intros Hb Hl. unfold copy_word, be32.
  assert (length (take 4 (drop i p)) = 4%nat) as H4 by (rewrite length_take, length_drop; lia).
  assert (bytes_ok (take 4 (drop i p))) as H8 by by apply Forall_take, Forall_drop.
  destruct (take 4 (drop i p)) as [|x0 [|x1 [|x2 [|x3 [|]]]]]; try done. forall_inv.
  by apply htonl_bytes.
Qed.

(** The intervals the retry timeout takes. *)
Definition retry_ok (t : Z) : Prop := t = 3000 ∨ t = 6000 ∨ t = 12000 ∨ t = 24000.

Section Claims.
Context {N D : Type} `{SntpNet N} `{Clock D}.
Abbreviation S := (sntp_state N D).
Implicit Types s : S.

Definition timer_list s : list sys_timeo := next_timeout (c_timers (sn_clockwork s)).
Definition due s : list (Z * handler) := deadlines 0 (timer_list s).
Definition free_timers s : nat := timeouts_free (c_timers (sn_clockwork s)).
Definition sntp_ok s : Prop := timeouts_ok (timer_list s) ∧ retry_ok (sntp_retry_timeout s).

(** The schedule without the client's timers. *)
Definition without_sntp (l : list (Z * handler)) : list (Z * handler) :=
  unschedule (unschedule l H_sntp_retry) H_sntp_request.

Definition with_timers (t : timers) s : S :=
  SntpState (sntp_pcb s) (sntp_retry_timeout s) (sntp_last_server_address s)
    (sntp_last_timestamp_sent s) (Clockwork t (c_stack (sn_clockwork s))) (sn_time s).

Lemma on_sn_timers_runs {A} (m : M timers A) s Q :
  runs m (c_timers (sn_clockwork s)) (λ a t, Q a (with_timers t s)) → runs (on_sn_timers m) s Q.
Proof. unfold runs, on_sn_timers, on_timers, lift. by destruct (m _) as [[]| |]. Qed.

(** Setting one of the client's timers. *)
Lemma sn_timeout_ok msecs h s :
  timeouts_ok (timer_list s) → 0 ≤ msecs < 2 ^ 32 → (0 < free_timers s)%nat →
  runs (on_sn_timers (sys_timeout msecs h)) s (λ _ s', timeouts_ok (timer_list s') ∧
    due s' = schedule (due s) msecs h ∧ ∃ t, s' = with_timers t s).
Proof.
  intros Hok Hm Hf. apply on_sn_timers_runs. eapply runs_mono, sys_timeout_ok; [|done..].
  intros ? t (Ht & Hd & _). split; [done|]. split; [done|]. by exists t.
Qed.
Lemma sn_untimeout_ok h s :
  timeouts_ok (timer_list s) →
  runs (on_sn_timers (sys_untimeout h)) s (λ _ s', timeouts_ok (timer_list s') ∧
    due s' = unschedule (due s) h ∧ (free_timers s ≤ free_timers s')%nat ∧ ∃ t, s' = with_timers t s).
Proof.
  intros Hok. apply on_sn_timers_runs. eapply runs_mono, sys_untimeout_ok; [|done].
  intros ? t (Ht & Hd & Hf & _). split; [done|]. split; [done|]. split; [done|]. by exists t.
Qed.

(** A retry is scheduled and the interval doubled, up to 24 seconds. *)
Lemma retry_runs s :
  sntp_ok s → (0 < free_timers s)%nat →
  runs sntp_retry s (λ _ s', sntp_ok s' ∧ due s' = schedule (due s) (sntp_retry_timeout s) H_sntp_request ∧
    sntp_retry_timeout s' = Z.min 24000 (2 * sntp_retry_timeout s) ∧ sn_time s' = sn_time s).
Proof.
  intros [Hok Hr] Hf. unfold sntp_retry. apply runs_bind. unfold runs at 1, gets.
  apply runs_bind. eapply runs_mono, sn_timeout_ok; [|done| |done].
  2:{ unfold retry_ok in Hr. lia. }
  intros ? s' (Hok' & Hd & t & ->).
  destruct Hr as [Er|[Er|[Er|Er]]]; rewrite Er in *;
    (eapply runs_intro; [done|]); split; try (split; [done|]); unfold retry_ok; simpl; rewrite ?Er; auto.
Qed.

(** The start of [sntp_recv]: both of the client's timers are stopped. *)
Lemma stop_timers s :
  timeouts_ok (timer_list s) →
  ∃ t s1, on_sn_timers (sys_untimeout H_sntp_retry) s = Ok (tt, s1) ∧
    on_sn_timers (sys_untimeout H_sntp_request) s1 = Ok (tt, with_timers t s) ∧
    timeouts_ok (next_timeout t) ∧ deadlines 0 (next_timeout t) = without_sntp (due s) ∧
    (free_timers s ≤ timeouts_free t)%nat.
Proof.
  intros Hok. destruct (runs_inv _ _ _ (sn_untimeout_ok H_sntp_retry s Hok)) as ([] & s1 & E1 & Hok1 & Hd1 & Hf1 & t1 & ->).
  destruct (runs_inv _ _ _ (sn_untimeout_ok H_sntp_request _ Hok1)) as ([] & s2 & E2 & Hok2 & Hd2 & Hf2 & t2 & ->).
  exists t2, (with_timers t1 s). split; [done|]. split; [done|]. split; [done|].
  unfold due, timer_list, free_timers, without_sntp in *. simpl in *. rewrite Hd2, Hd1. split; [done|lia].
Qed.

(** The time an answer sets. *)
Definition answered_time (p : list Z) : Z := u32 (be32 (take 4 (drop 32 p)) - DIFF_SEC_1900_1970).

Lemma process_runs ts s :
  runs (sntp_process ts) s (λ _ s', ∃ t, s' = SntpState (sntp_pcb s) (sntp_retry_timeout s)
      (sntp_last_server_address s) (sntp_last_timestamp_sent s) (sn_clockwork s) t ∧
    time_ok t ∧ current_time t = u32 (lwip_ntohl ts.1 - DIFF_SEC_1900_1970) ∧ time_valid t = 1).
Proof.
  unfold sntp_process. pose proof (ntp_set_ok (u32 (lwip_ntohl ts.1 - DIFF_SEC_1900_1970))
    (lwip_ntohl ts.2 / 4295) (sn_time s) (u32_range _)) as Hn.
  destruct (runs_inv _ _ _ Hn) as ([] & t & E & Hok & Ht & Hv). unfold runs, on_sn_time, lift.
  rewrite E. by exists t.
Qed.

Lemma recv_ok p addr port s :
  sntp_ok s → (0 < free_timers s)%nat → bytes_ok p →
  runs (sntp_recv p addr port) s (λ _ s', sntp_ok s' ∧
    if decide (accepts (sntp_last_server_address s) (sntp_last_timestamp_sent s) p addr port) then
      current_time (sn_time s') = answered_time p ∧ time_valid (sn_time s') = 1 ∧
      sntp_retry_timeout s' = SNTP_RETRY_TIMEOUT ∧
      due s' = schedule (without_sntp (due s)) SNTP_UPDATE_DELAY H_sntp_request
    else
      sn_time s' = sn_time s ∧ sntp_retry_timeout s' = Z.min 24000 (2 * sntp_retry_timeout s) ∧
      due s' = schedule (without_sntp (due s)) (sntp_retry_timeout s) H_sntp_request).
Proof.
  intros [Hok Hr] Hf Hb. destruct (stop_timers s Hok) as (t & s1 & E1 & E2 & Hokt & Hdt & Hft).
  unfold sntp_recv. apply runs_bind. unfold runs at 1. rewrite E1. apply runs_bind. unfold runs at 1. rewrite E2.
  apply runs_bind. unfold runs at 1, gets. apply runs_bind. unfold runs at 1, gets.
  cbn [with_timers sntp_last_server_address sntp_last_timestamp_sent].
  set (a := sntp_last_server_address s). set (b := sntp_last_timestamp_sent s).
  pose proof (classify_accepts a b p addr port) as Hc. pose proof (classify_stamp a b p addr port) as Hst.
  destruct (classify a b p addr port) as [err ts]. simpl in Hc, Hst.
  apply runs_bind. unfold runs at 1, on_sn_net.
  set (s2 := SntpState _ _ _ _ _ _).
  assert (sntp_ok s2 ∧ due s2 = without_sntp (due s) ∧ (0 < free_timers s2)%nat) as (Hs2 & Hd2 & Hf2).
  { split; [done|]. split; [done|]. unfold free_timers in *. simpl. lia. }
  assert (sn_time s2 = sn_time s ∧ sntp_retry_timeout s2 = sntp_retry_timeout s) as [Et2 Er2] by done.
  clearbody s2.
  destruct (decide (accepts a b p addr port)) as [Ha|Ha].
  - rewrite (proj2 Hc Ha), (Hst Ha). simpl Z.eqb. cbv iota. apply runs_bind.
    unfold runs at 1, SNTP_RESET_RETRY_TIMEOUT, set_retry_timeout, modify. apply runs_bind.
    eapply runs_mono, process_runs. intros ? s3 (tm & -> & Htm & Hcur & Hv).
    eapply runs_mono; [|apply sn_timeout_ok].
    + intros ? s4 (Hok4 & Hd4 & t4 & ->). simpl in Hd4. split; [split; [done|by left]|].
      cbn [sn_time with_timers sntp_retry_timeout]. rewrite Hcur. split; [|split; [done|split; [done|]]].
      * unfold answered_time. destruct Ha as (_ & _ & Hl & _). simpl fst. rewrite copy_word_be; [done|done|].
        rewrite Hl. unfold SNTP_MSG_LEN. lia.
      * rewrite <-Hd2. exact Hd4.
    + apply Hs2.
    + unfold SNTP_UPDATE_DELAY. lia.
    + exact Hf2.
  - assert (err ≠ ERR_OK) as He by tauto. rewrite (proj2 (Z.eqb_neq _ _) He).
    assert (runs sntp_retry s2 (λ _ s', sntp_ok s' ∧ sn_time s' = sn_time s ∧
      sntp_retry_timeout s' = Z.min 24000 (2 * sntp_retry_timeout s) ∧
      due s' = schedule (without_sntp (due s)) (sntp_retry_timeout s) H_sntp_request)) as Hret.
    { eapply runs_mono, (retry_runs s2 Hs2 Hf2). intros ? s3 (H3 & Hd3 & Hr3 & Ht3).
      rewrite Hd3, Hr3, Ht3, Hd2, Et2, Er2. done. }
    by destruct (err =? SNTP_ERR_KOD).
Qed.

(** Answers of the time server.  [sntp_recv] sets the clock, to the
    seconds since 1970 of the receive time stamp, exactly for a 48-octet
    server or broadcast message from the address and port asked that echoes
    the time stamp sent and is no refusal; it then asks again after an hour.
    After anything else it asks again after the retry interval, which
    doubles up to 24 seconds.  Either way one request is scheduled in place
    of the client's earlier timers. *)
Theorem sntp_recv_outcome p addr port s :
  sntp_ok s → (0 < free_timers s)%nat → bytes_ok p →
  runs (sntp_recv p addr port) s (λ _ s', sntp_ok s' ∧
    if decide (accepts (sntp_last_server_address s) (sntp_last_timestamp_sent s) p addr port) then
      current_time (sn_time s') = answered_time p ∧ time_valid (sn_time s') = 1 ∧
      sntp_retry_timeout s' = SNTP_RETRY_TIMEOUT ∧
      due s' = schedule (without_sntp (due s)) SNTP_UPDATE_DELAY H_sntp_request
    else
      sn_time s' = sn_time s ∧ sntp_retry_timeout s' = Z.min 24000 (2 * sntp_retry_timeout s) ∧
      due s' = schedule (without_sntp (due s)) (sntp_retry_timeout s) H_sntp_request).
Proof. apply recv_ok. Qed.

(** The time stamp sent never changes, so that the answer to an old request
    passes for the answer to a new one. *)
Lemma request_stamp s :
  runs sntp_initialize_request s (λ msg s', length msg = SNTP_MSG_LEN ∧
    sntp_last_timestamp_sent s' = (lwip_htonl DIFF_SEC_1900_1970, 0)).
Proof.
  unfold sntp_initialize_request, SNTP_GET_SYSTEM_TIME. apply runs_bind. eapply runs_intro; [done|].
  eapply runs_intro; [done|]. split; reflexivity.
Qed.
End Claims.

(** ** A client *)

Record demo_net : Type := DemoNet { dn_now : Z; dn_sent : list (list Z) }.
#[export] Instance demo_stack : Stack demo_net :=
  {| sys_now := dn_now; tcp_tmr n := n; ip_reass_tmr n := n; etharp_tmr n := n; dhcp_coarse_tmr n := n;
     dhcp_fine_tmr n := n; dns_tmr n := n; tcp_pcbs _ := false |}.
#[export] Instance demo_sntp_net : SntpNet demo_net :=
  {| dns_gethostbyname _ n := ((ERR_OK, 0x0A0B0C0D), n); pbuf_alloc _ n := (true, n); pbuf_free n := n;
     udp_sendto msg _ _ n := DemoNet (dn_now n) (dn_sent n ++ [msg]); udp_new n := (true, n); udp_remove n := n |}.

(** The state after a request, and an answer to it. *)
Definition demo_sntp : sntp_state demo_net tim3 :=
  SntpState true 6000 0x0A0B0C0D (lwip_htonl DIFF_SEC_1900_1970, 0)
    (Clockwork (Timers [(250, H_dhcp_timer_fine); (2750, H_sntp_retry)] 0 0 298) (DemoNet 0 [])) demo_time.
Definition demo_reply : list Z :=
  [0x24; 2] ++ replicate 22 0 ++ le_bytes 4 (lwip_htonl DIFF_SEC_1900_1970) ++ replicate 4 0 ++
  rev (le_bytes 4 (DIFF_SEC_1900_1970 + 1300000000)) ++ [0x80; 0; 0; 0] ++ replicate 8 0.

Lemma sntp_recv_outcome_witness :
  runs (sntp_recv demo_reply 0x0A0B0C0D 123) demo_sntp (λ _ s', sntp_ok s' ∧
    if decide (accepts (sntp_last_server_address demo_sntp) (sntp_last_timestamp_sent demo_sntp)
                 demo_reply 0x0A0B0C0D 123) then
      current_time (sn_time s') = answered_time demo_reply ∧ time_valid (sn_time s') = 1 ∧
      sntp_retry_timeout s' = SNTP_RETRY_TIMEOUT ∧
      due s' = schedule (without_sntp (due demo_sntp)) SNTP_UPDATE_DELAY H_sntp_request
    else
      sn_time s' = sn_time demo_sntp ∧ sntp_retry_timeout s' = Z.min 24000 (2 * sntp_retry_timeout demo_sntp) ∧
      due s' = schedule (without_sntp (due demo_sntp)) (sntp_retry_timeout demo_sntp) H_sntp_request).
Proof.
  apply (sntp_recv_outcome demo_reply 0x0A0B0C0D 123 demo_sntp).
  - split; [split; [repeat constructor; simpl; lia|simpl; lia]|right; left; done].
  - by_decision.
  - by_decision.
Defined.

Example demo_reply_sets : answered_time demo_reply = 1300000000.
Proof. vm_compute. reflexivity. Qed.
