(* ===== verification/SdTest.v ===== *)
(** * The card exerciser ([src/memory/sd_test.c])

    Writes the first sector with alternating patterns and reads it back, for
    ever.  One round is a function; it reports the octets that came back
    wrong. *)

From S2P Require Import Prelude BlockDev.
From Stdlib Require Import ZArith Lia.
From stdpp Require Import base numbers list.
Open Scope Z_scope.

Definition BUFF_1_VAL : Z := 0x55.
Definition BUFF_2_VAL : Z := 0xAA.

Section Operations.
Context {B : Type} `{BlockDev B}.

(** The messages of the comparison loop: index, written, read. *)
Definition discrepancies (val : Z) (buff_rd : list Z) : list (nat * Z * Z) :=
  omap (λ i, if negb (buff_rd.[i] =? val) then Some (i, val, buff_rd.[i]) else None) (seq 0 512).

(** One round; [buff_rd] is the array on the stack. *)
Definition sd_test_cycle (cycles : Z) (buff_rd : list Z) : M B (list (nat * Z * Z) * list Z) :=
  let val := if cycles mod 2 =? 0 then BUFF_1_VAL else BUFF_2_VAL in
  blk_write (replicate 512 val) 512 0x0;;
  '(_, buff_rd) ← blk_read buff_rd 512 0x0;
  mret (discrepancies val buff_rd, buff_rd).

(** [SPI_Init(); disk_initialize();] and the first [n] rounds of the endless
    loop, with the messages of each. *)
Fixpoint sd_test_rounds (n : nat) (cycles : Z) (buff_rd : list Z) : M B (list (list (nat * Z * Z))) :=
  match n with
  | O => mret []
  | S n =>
     '(msgs, buff_rd) ← sd_test_cycle cycles buff_rd;
     rest ← sd_test_rounds n (cycles + 1) buff_rd;
     mret (msgs :: rest)
  end.
Definition SD_Test (n : nat) (buff_rd : list Z) : M B (list (list (nat * Z * Z))) :=
  blk_init;; sd_test_rounds n 0 buff_rd.
End Operations.

Section Laws.
Context {B : Type} `{BlockDevLaws B}.

Lemma discrepancies_none val l : l = replicate 512 val → discrepancies val l = [].
Proof.
  intros ->. unfold discrepancies. assert (∀ k, (∀ i, i ∈ k → (i < 512)%nat) →
    omap (λ i, if negb ((replicate 512 val).[i] =? val) then Some (i, val, (replicate 512 val).[i]) else None) k = [])
    as Hk.
  { induction k as [|i k IH]; intros Hi; [done|].
    assert ((replicate 512 val).[i] = val) as E.
    { apply octet_lookup, lookup_replicate_2, Hi. by left. }
    cbn [omap list_omap]. rewrite E, Z.eqb_refl. apply IH. intros j Hj. apply Hi. by right. }
  apply Hk. intros i Hi%elem_of_seq. lia.
Qed.

(** On a device that keeps the laws no round reports anything. *)
Lemma sd_test_rounds_silent n : ∀ cycles buff_rd b,
  blk_ok b → 1 ≤ blk_count b → length buff_rd = 512%nat →
  runs (sd_test_rounds n cycles buff_rd) b (λ msgs b', Forall (λ m, m = []) msgs ∧ length msgs = n ∧ blk_ok b').
Proof.
  induction n as [|n IH]; intros cycles buff_rd b Hok Hcount Hlen; simpl sd_test_rounds.
  { by eapply runs_intro. }
  apply runs_bind. unfold sd_test_cycle.
  set (val := if cycles mod 2 =? 0 then BUFF_1_VAL else BUFF_2_VAL).
  assert (is_u8 val) as Hval by (subst val; by case_match).
  destruct (blk_write_law b (replicate 512 val) 512 0 Hok) as (b1 & Hw & Hok1 & Hc1 & Hp1);
    [lia|lia|by rewrite length_replicate|by apply Forall_replicate|].
  apply runs_bind. eapply runs_intro; [done|].
  destruct (blk_read_law b1 buff_rd 512 0 Hok1) as (b2 & Hr & Hok2 & Hc2 & _); [lia|lia|rewrite Hlen; lia|].
  apply runs_bind. eapply runs_intro; [done|].
  assert (take (Z.to_nat 512) (blk_page b1 0) ++ drop (Z.to_nat 512) buff_rd = replicate 512 val) as ->.
  { rewrite Hp1, decide_True by done. unfold page_of. change (Z.to_nat (512 - 512)) with 0%nat.
    change (Z.to_nat 512) with 512%nat. rewrite (drop_ge buff_rd) by lia.
    simpl (replicate 0 _). rewrite !app_nil_r, !take_ge; [done|..];
      rewrite ?length_take, ?length_replicate; lia. }
  eapply runs_intro; [done|]. apply runs_bind.
  eapply runs_mono, (IH (cycles + 1) (replicate 512 val) b2 Hok2); [|lia|by rewrite length_replicate].
  intros msgs b3 (Hm & Hl & Hb). eapply runs_intro; [done|].
  split; [constructor; [by apply discrepancies_none|done]|]. split; [simpl; by rewrite Hl|done].
Qed.
End Laws.
