(* ===== verification/System.v ===== *)
(** * The gateway as a whole ([src/main.c], [src/net_init_service.c],
      [src/clocking.c], [inc/leds.h])

    Start-up, and the periodic interrupt in which everything else runs.  The
    Ethernet driver and the core of the network stack are an interface; what
    a received packet sets off is a list of calls into the firmware. *)

From S2P Require Import Prelude Checksum BlockDev Hw Memory MemoryRing Time Write HttpTx HttpRx ServerTcp.
From S2P Require Import ServerStream ServerClaims IpAddr Upload RadioIf RadioOps RadioChip RadioFrame RadioRing Rf212.
From S2P Require Import FrameProcessor Timers Sntp.
From Stdlib Require Import Ascii String ZArith Lia.
From stdpp Require Import base numbers list.
Open Scope Z_scope.

(** ** [clocking.c] *)

Definition PLLE0 : Z := Z.shiftl 1 24.
Definition PLLC0 : Z := Z.shiftl 1 25.
Definition PLOCK0 : Z := Z.shiftl 1 26.

Section Clocking.
Context {D : Type} `{Mmio D}.

(** The two writes that make a change of the PLL registers effective. *)
Definition pll0_feed : M D unit := reg_write SC_PLL0FEED 0xAA;; reg_write SC_PLL0FEED 0x55.

Definition switch_to_stable_clock (fuel : nat) : M D unit :=
  reg_or SC_SCS 0x0020;;
  poll fuel (v ← reg_read SC_SCS; mret (negb (Z.land v 0x0040 =? 0)));;
  reg_write SC_PLL0CON 0x01;; pll0_feed;;
  reg_write SC_PLL0CON 0x00;; pll0_feed;;
  reg_write SC_CCLKCFG 0x02;;
  reg_write SC_CLKSRCSEL 0x00000001;;
  reg_write SC_PLL0CFG 0x0001012B;; pll0_feed;;
  reg_write SC_PLL0CON 0x01;; pll0_feed;;
  poll fuel (v ← reg_read SC_PLL0STAT; mret (negb (Z.land v PLOCK0 =? 0)));;
  reg_write SC_PLL0CON 0x03;; pll0_feed;;
  poll fuel (v ← reg_read SC_PLL0STAT; mret (negb (Z.land v (Z.lor PLLE0 PLLC0) =? 0))).

(** ** [leds.h] *)

Definition INIT_LEDS : M D unit := reg_and PINSEL4 (Z.lor (Z.shiftl 3 0) (Z.shiftl 3 6)).
Definition GREEN_ON : M D unit := reg_or GPIO2_FIODIR (Z.shiftl 1 0).
Definition GREEN_OFF : M D unit := reg_and GPIO2_FIODIR (unot 32 (Z.shiftl 1 0)).
End Clocking.

(** ** The whole state *)

(** Calls from the network stack into the firmware. *)
Inductive upcall : Type :=
  | UdpReceived (p : list Z) (addr port : Z)
  | DnsFound (ipaddr : option Z)
  | TcpConnected (ss : bool)
  | TcpReceived (ss : bool) (p : option (list (list Z))) (err : Z)
  | TcpSent (ss : bool)
  | TcpError (ss : bool)
  | StatusChange.

(** The Ethernet driver and the set-up of the stack. *)
Class Ethernet (N : Type) : Type := {
  eth_sntp :: SntpNet N;
  lpc_rx_queue : N → Z * N;
  lpc_enetif_input : N → list upcall * N;
  lpc_tx_reclaim : N → N;
  lpc_phy_sts_sm : N → Z * N;
  netif_flags : N → Z;
  SysTick_Enable : N → N;
  lwip_init : N → N;
  netif_add : Z → Z → Z → N → N;
  netif_set_status_callback : N → N;
  netif_set_default : N → N;
  dhcp_start : N → list upcall * N;
}.

(** The sample memory and the clock are shared: the copies inside [y_srv] and
    [y_sntp] are replaced by those of [y_gateway] whenever one of them
    runs. *)
Record system (P T B N D : Type) : Type := System {
  y_gateway : gateway P B D;
  y_srv : srv_state T B;
  y_sntp : sntp_state N D;
  y_dev : D;
  rx_queue_stat : Z;
}.
Arguments System {P T B N D}.
Arguments y_gateway {P T B N D}.
Arguments y_srv {P T B N D}.
Arguments y_sntp {P T B N D}.
Arguments y_dev {P T B N D}.
Arguments rx_queue_stat {P T B N D}.

Section Operations.
Context {P T B N D : Type} `{RadioPort P} `{TcpApi T} `{BlockDev B} `{Ethernet N} `{Mmio D}.
(** The radio's interrupt, and what the request encoder finds on the stack. *)
Context (interrupt : M (radio_state P) unit) (stack : list Z).
Abbreviation S := (system P T B N D).

Definition shared_mem (s : S) : mem_state B := w_mem (g_write (y_gateway s)).
Definition shared_time (s : S) : time_state D := w_time (g_write (y_gateway s)).
Definition put_mem (m : mem_state B) (g : gateway P B D) : gateway P B D :=
  Gateway (g_record g) (g_ack_packet g) (g_radio g)
    (WriteState (write_block (g_write g)) (w_time (g_write g)) m).
Definition put_time (t : time_state D) (g : gateway P B D) : gateway P B D :=
  Gateway (g_record g) (g_ack_packet g) (g_radio g)
    (WriteState (write_block (g_write g)) t (w_mem (g_write g))).

Definition on_gateway {A} (m : M (gateway P B D) A) : M S A :=
  lift y_gateway (λ g s, System g (y_srv s) (y_sntp s) (y_dev s) (rx_queue_stat s)) m.
Definition srv_view (s : S) : srv_state T B :=
  let v := y_srv s in
  SrvState (server_tcp v) (net v) (RxState (good_index (rx v)) (bad_index (rx v)) (shared_mem s))
    (active v) (upload_countdown v) (ephemeral_seq v).
Definition on_srv {A} (m : M (srv_state T B) A) : M S A :=
  lift srv_view (λ v s, System (put_mem (rx_mem (rx v)) (y_gateway s)) v (y_sntp s) (y_dev s) (rx_queue_stat s)) m.
Definition sntp_view (s : S) : sntp_state N D :=
  let v := y_sntp s in
  SntpState (sntp_pcb v) (sntp_retry_timeout v) (sntp_last_server_address v) (sntp_last_timestamp_sent v)
    (sn_clockwork v) (shared_time s).
Definition on_sntp {A} (m : M (sntp_state N D) A) : M S A :=
  lift sntp_view (λ v s, System (put_time (sn_time v) (y_gateway s)) (y_srv s) v (y_dev s) (rx_queue_stat s)) m.
Definition on_mcu {A} (m : M D A) : M S A :=
  lift y_dev (λ d s, System (y_gateway s) (y_srv s) (y_sntp s) d (rx_queue_stat s)) m.
Definition on_eth {A} (f : N → A * N) : M S A := on_sntp (on_sn_net f).
Definition eth (f : N → N) : M S unit := on_eth (λ n, (tt, f n)).
Definition eth_flags : M S Z := gets (netif_flags ∘ c_stack ∘ sn_clockwork ∘ y_sntp).
Definition set_rx_queue_stat (v : Z) : M S unit :=
  modify (λ s, System (y_gateway s) (y_srv s) (y_sntp s) (y_dev s) v).

(** ** [net_init_service.c] *)

Definition netif_status_change : M S unit :=
  flags ← eth_flags;
  if negb (Z.land flags NETIF_FLAG_UP =? 0) then on_sntp sntp_init else on_sntp sntp_cleanup.

Definition deliver (u : upcall) : M S unit :=
  match u with
  | UdpReceived p addr port => on_sntp (sntp_recv p addr port)
  | DnsFound ipaddr => on_sntp (sntp_dns_found ipaddr)
  | TcpConnected ss => on_srv (server_tcp_connected ss);; mret tt
  | TcpReceived ss p err => on_srv (server_tcp_recv ss p err);; mret tt
  | TcpSent ss => on_srv (server_tcp_sent stack ss);; mret tt
  | TcpError ss => on_srv (server_tcp_err ss)
  | StatusChange => netif_status_change
  end.
Fixpoint deliver_all (us : list upcall) : M S unit :=
  match us with [] => mret tt | u :: us => deliver u;; deliver_all us end.

(** Built with [LWIP_DHCP]. *)
Definition net_init (fuel : nat) : M S unit :=
  eth SysTick_Enable;;
  eth lwip_init;;
  on_mcu INIT_LEDS;;
  let gw := 0 in let ipaddr := 0 in let netmask := 0 in
  eth (netif_add ipaddr netmask gw);;
  eth netif_set_status_callback;;
  eth netif_set_default;;
  poll fuel (v ← on_eth lpc_rx_queue; mret (v =? 0));;
  us ← on_eth dhcp_start;
  deliver_all us.

(** Expired timers run on the whole system. *)
Definition the_sys_timers (s : S) : timers := c_timers (sn_clockwork (y_sntp s)).
Definition put_sys_timers (t : timers) (s : S) : S :=
  let v := y_sntp s in
  System (y_gateway s) (y_srv s)
    (SntpState (sntp_pcb v) (sntp_retry_timeout v) (sntp_last_server_address v) (sntp_last_timestamp_sent v)
       (Clockwork t (c_stack (sn_clockwork v))) (sn_time v))
    (y_dev s) (rx_queue_stat s).
Definition on_clockwork {A} (m : M (clockwork N) A) : M (sntp_state N D) A :=
  lift sn_clockwork (λ c s, SntpState (sntp_pcb s) (sntp_retry_timeout s) (sntp_last_server_address s)
    (sntp_last_timestamp_sent s) c (sn_time s)) m.
Definition call_handler (h : handler) : M S unit :=
  match h with
  | H_sntp_request => on_sntp sntp_request
  | H_sntp_retry => on_sntp sntp_retry
  | h => on_sntp (on_clockwork (call_stack (λ _, mret tt) h))
  end.

(** [console_flush] does nothing: the console is not built. *)
Definition net_service (fuel : nat) : M S unit :=
  poll fuel (v ← on_eth lpc_rx_queue; set_rx_queue_stat v;; mret (negb (v =? 1)));;
  stat ← gets rx_queue_stat;
  (if negb (stat =? -1) then us ← on_eth lpc_enetif_input; deliver_all us else mret tt);;
  eth lpc_tx_reclaim;;
  sys_check_timeouts the_sys_timers put_sys_timers (sys_now ∘ c_stack ∘ sn_clockwork ∘ y_sntp) call_handler fuel;;
  changed ← on_eth lpc_phy_sts_sm;
  (if negb (changed =? 0) then
     flags ← eth_flags;
     if negb (Z.land flags NETIF_FLAG_LINK_UP =? 0) then on_mcu GREEN_ON else on_mcu GREEN_OFF
   else mret tt);;
  flags ← eth_flags;
  tc ← on_gateway (on_write (on_time (on_timer (reg_read TIM3_TC))));
  on_srv (upload flags tc);;
  on_srv (server_tcp_service stack).

(** ** [main.c] *)

Definition RIT_IRQHandler (fuel : nat) : M S unit :=
  on_mcu (reg_or RIT_RICTRL 1);;
  net_service fuel;;
  on_gateway (radio_service interrupt fuel).

(** [SystemInit] and the clock query are the chip's start-up code; [start]
    is the radio's start-up.  The program then sleeps between interrupts. *)
Definition main (start : M (gateway P B D) unit) (fuel : nat) : M S unit :=
  on_mcu INIT_LEDS;;
  on_gateway (on_write (on_mem memory_init));;
  net_init fuel;;
  on_gateway start;;
  on_gateway (on_write (on_time init_current_time));;
  on_mcu (switch_to_stable_clock fuel);;
  on_mcu (reg_or SC_PCONP (Z.shiftl 1 16));;
  on_mcu (reg_write RIT_RICTRL 1);;
  on_mcu (NVIC_SetPriority RIT_IRQn 31);;
  on_mcu (NVIC_EnableIRQ RIT_IRQn);;
  on_mcu (reg_write RIT_RIMASK 0);;
  on_mcu (reg_write RIT_RICOMPVAL (500 * 25));;
  on_mcu (reg_write RIT_RICTRL (Z.lor (Z.lor (Z.shiftl 1 3) (Z.shiftl 0 2)) (Z.shiftl 1 1)));;
  on_mcu (reg_and SC_PCON (unot 32 0x3));;
  on_mcu (reg_and SCB_SCR (unot 32 (Z.shiftl 1 2))).
End Operations.

(** ** A gateway at work

    The periodic interrupt with an uploaded record and a request for the time
    in the radio's receive ring: the radio ring is drained, the record and
    the signal strength are stored, two replies are sent, and the expired
    timer has run. *)

#[export] Instance demo_ethernet : Ethernet demo_net :=
  {| lpc_rx_queue n := (0, n); lpc_enetif_input n := ([], n); lpc_tx_reclaim n := n;
     lpc_phy_sts_sm n := (1, n); netif_flags _ := 0x11; SysTick_Enable n := n; lwip_init n := n;
     netif_add _ _ _ n := n; netif_set_status_callback n := n; netif_set_default n := n;
     dhcp_start n := ([], n) |}.

Definition demo_system : system frame_chip sink ram_disk demo_net tim3 :=
  System demo_gateway (SrvState blank_server (Sink []) (RxState 0 0 demo_ring) 0 2 0)
    (SntpState true 6000 0x0A0B0C0D (lwip_htonl DIFF_SEC_1900_1970, 0)
       (Clockwork (Timers [(250, H_dhcp_timer_fine); (2750, H_sntp_retry)] 0 0 298) (DemoNet 300 [])) demo_time)
    (Tim3 0 (λ _, 0)) 0.

Definition replies_of (s : system frame_chip sink ram_disk demo_net tim3) : list (list Z) :=
  map payload (TxFrames (r_if (g_radio (y_gateway s)))).

Example rit_interrupt :
  match RIT_IRQHandler take_one [] 20 demo_system with
  | Ok (_, s) =>
     rx_pending (r_if (g_radio (y_gateway s))) = [] ∧
     pending (shared_mem s) =
       pending demo_ring ++ [uploaded_record upload_frame; sample_block rssi_flags 7 33 0] ∧
     take 2 (replies_of s) = [upload_ack upload_frame; char "T" :: le_bytes 8 7] ∧
     due (y_sntp s) = [(500, H_dhcp_timer_fine); (2750, H_sntp_retry)] ∧
     upload_countdown (y_srv s) = 1
  | _ => False
  end.
Proof. vm_compute. done. Qed.
